(* ===== verification/_CoqProject ===== *)
-Q . S2P
Prelude.v
BitMap.v
Memory.v
Mips.v
Cpu.v
Frames.v
AddrSpace.v
ThreadData.v
ListCells.v
Interrupt.v
Synch.v
Disk.v
FileHdr.v
FileGrow.v
Directory.v
FileSys.v
FileSysInv.v
FileSysOps.v
FileSysUse.v
FileSysRW.v
FileSysPath.v
Network.v
Post.v
PostNet.v
Channel.v
Connection.v
FileHandler.v
FsTest.v
Transfer.v
Session.v
UserThread.v
Console.v
Exception.v
Syscalls.v
Loader.v
Coff.v
Toolchain.v
Boot.v
OwnView.v
TimeSharing.v
RoundRobin.v
Migrate.v
Migration.v
MemAlloc.v
Execute.v
