(* ===== verification/Prelude.v ===== *)
(** * NonOS: a model of the kernel and what is proved of it

    NonOS is a Nachos kernel (src/code) with user processes, threads, a file
    system and a network, on a simulated MIPS machine.  This library translates
    its C++ into executable definitions, file by file, and proves what the parts
    promise each other.  Every definition carries the name it has in the source
    where Rocq allows it; every state is a record of the fields the code has.

    ** Conventions

    - A call is a function of the state that returns an [outcome] (below): a
      value, a failed ASSERT, behaviour C++ does not define, or a call that
      nobody will wake.  [M] threads a state through such calls.
    - Integers are [Z] kept at their width by [u32], [i32], [u16], [u8], [i8].
      Memory is shared through stores indexed by addresses where the code shares
      pointers (page tables, thread descriptors, list cells).
    - What [new] or a local array holds before it is written is a parameter
      ([junk], [fill], [Uninitialised], [Garbage], [Leftover]).  Theorems assume
      nothing of it, but those on messages that each array holds a zero byte
      somewhere, where the [strlen] of [ReceivePayload] stops.
    - A call that sleeps is split at the wait: one definition up to it, one from
      the wake-up on (UserThread, Exception, Post), or it is a step of a
      transition relation (Synch, PostNet, Channel).  FileSys, Disk and Console run
      one caller at a time, with every lock of the code.

    ** The files, from the machine upwards

    - BitMap: userprog/bitmap.cc.  A bitmap refines a finite set of clear
      indices; [SlotMap] is the interface its clients use.
    - Memory: machine/translate.cc, machine/machine.cc.  Registers, memory, TLB
      and page tables.  A store is what the next load returns.
    - Mips, Cpu: machine/mipssim.cc.  [Mult] computes the 64-bit product; every
      instruction of [OneInstruction] completes from a well-formed CPU and leaves
      one, or is one of the cases C++ leaves undefined, which are named.
    - Frames, AddrSpace: userprog/frameprovider.cc, addrspace.cc.  Processes own
      disjoint frames ([vm_wf]); construction, [do_Sbrk] and destruction keep
      this, and through the MMU no process reaches a byte of another.
    - ThreadData: addrspace.cc.  Slots, user identifiers and stacks of threads.
    - ListCells: threads/list.cc.  Chains of cells refine mathematical lists.
    - Interrupt: machine/interrupt.cc, timer.cc.  Pending interrupts and the clock;
      device handlers are a parameter with the contract [handler_ok].  A tick calls
      the handlers of exactly the interrupts that are due.
    - Synch: threads/synch.cc, scheduler.cc, thread.cc.  Every interleaving of
      thread operations as a step relation: mutual exclusion, no thread is lost,
      no wake-up is lost, whatever values the semaphores start with.
    - Disk: machine/disk.cc, filesys/synchdisk.cc.  [SectorStore] is the interface
      the file system is written against, [SynchDisk] its implementation.
    - FileHdr, FileGrow: filesys/filehdr.cc, openfile.cc.  Files over direct and
      undirected blocks: reading, writing, growing, freeing.
    - Directory: filesys/directory.cc.  A table of entries refines a finite map.
    - FileSys: filesys/filesys.cc, every operation.  FileSysInv: the invariant
      [fs_wf] and the abstract state.  FileSysOps, FileSysUse, FileSysRW,
      FileSysPath: formatting, creating, removing, opening, reading, writing and
      walking paths keep it and do what their names say.
    - Network, Post: machine/network.cc, network/post.cc.  Packets, mailboxes,
      segments.  PostNet: two machines on a network that loses what it likes;
      for every interleaving messages arrive in order, once, and wholly when the
      sender is told so.
    - UserThread: userprog/userthread.cc, threads/thread.cc.  Creating, ending and
      joining threads under the process invariant [proc_wf], with the joiner that
      comes too late; the semaphore calls refine a finite map private to the process; processes.
    - Console: machine/console.cc, userprog/synchconsole.cc.  Strings out and in,
      whenever the device interrupts and whatever is typed, but the end of the
      input and the byte 255, which is taken for it.
    - Exception: userprog/exception.cc.  The whole handler on the joint state
      [World].  Syscalls: system calls seen by a program, across the handler, the
      file system and the threads.
    - Channel: what a connection gives to a program, and that the post office
      implements it; programs as trees of their communications, two of which run
      in any interleaving in which no [Send] gives up (after 50 emissions of a
      segment; the identifiers of the two ends may differ then, and what arrives
      afterwards is not followed).  When one schedule ends, all end alike ([net_ends]),
      so a theorem needs one.  Connection: [Connect], [Listen], [Send],
      [Receive], [Disconnect] for a machine with one connection.
    - FileHandler, Transfer: network/ftp.cc, server and client.  Session: a file
      asked for or offered arrives byte for byte, in every schedule, when the
      request fits into the server's array, which the first one of a connection
      never does; what goes wrong at the edges of a session.
    - Loader: addrspace.cc, progtest.cc.  A program file becomes the memory of a
      new process.
    - OwnView: what an instruction depends on and what it leaves alone, as a
      relation between two machines carried through [OneInstruction].
      TimeSharing: [Machine::Run] with [OneTick], [Yield] and the context switch of
      user programs that make no system call; each process ends as if its own
      turns had run alone.  RoundRobin: under the timer of -rs a program in line
      gets the CPU when the delay drawn for it exceeds a system tick, and starves
      while none does.
    - Migrate: network/migrate.cc.  Migration: the memory of a process arrives on
      the other machine; its free semaphores make the receiver overrun a variable.
    - FsTest: filesys/fstest.cc.  [Copy] and [Print] carry a UNIX file through the
      file system and back; the performance test passes.
    - Coff: bin/coff2noff.c over the files of the host.  Toolchain: a program the
      linker made is converted, copied, opened and loaded, and each byte of its
      sections is at its address in the new process.
    - Boot: threads/system.cc, main.cc.  The command line, [Initialize] and [main];
      a kernel started with a program to copy and to run ends in that program.
    - Execute: bin/execute.c.  A second interpreter of the instruction set, which
      agrees with [OneInstruction] on all but the listed instructions.
    - MemAlloc: test/mem_alloc.c.  The heap of user programs: an abstract list of
      blocks ([heap_wf]) that [mem_alloc] and [mem_free] keep, and what becomes of
      it where [mem_free] forgets a link.

    ** Fuel

    A recursion that is not structural takes a number of steps.  [ByteToSector]
    and the file operations need 2: the header of a file and that of its
    undirected block ([S (S fuel)] in the theorems).  Loops over a list of cells
    take its length; [drain] more than the number of due interrupts; [cut_path]
    the length of the path and [ChangeDirRec] the number of its folders;
    [receive_loop] the messages in the box; [HandleClient_loop] a number of
    requests and [Machine_Run] a number of turns, since these loops have no end;
    [write_chunks], [read_chunks] and [Print] at most one round per byte; the
    loops of the performance test are 5000 rounds as in the code; [find_fit] and
    [previous_loop] one step per block of the heap;
    [Thread_Yield] the yields nested in its own tick of the clock, one more than
    the delays of the timer in a row that do not exceed a system tick (start-up
    needs one, [nested] in Boot, where [rounds] bounds the rounds of the copying);
    [turns] a number of instructions, as [runprogram] has no end.  The theorems show that the results
    are reached with these, so none rests on running out.

    ** Not modelled

    - The host interface (machine/sysdep.cc): UNIX calls, assembly.  UNIX files
      and sockets are maps and queues in the components that use them.
    - Cleanup, and the drivers that main can enter (consoles, network tests, the
      dialogue of the file transfer): Boot stops at their entry.
    - The host stacks of threads (StackAllocate, SWITCH, the stack fence), the
      debugger, every dump and print.
    - The interactive test drivers; of src/code/bin the traps of the stand-alone
      simulator, dumps and the disassembler; the demonstration programs of
      src/code/test. *)
From stdpp Require Export prelude gmap.
From Stdlib Require Export ZArith Lia.
From Stdlib Require String Ascii.
#[global] Open Scope Z_scope.
#[global] Set Warnings "-clear-no-such-hyp".

(** ** Outcomes of C++ code

    A call returns ([Ok]), trips an [ASSERT] (threads/utility.h:72, which
    aborts the kernel) or does something whose behaviour C++ does not define
    (an index out of an array's bounds, a null dereference, a division by
    zero, unbounded recursion).  [Blocked] is a call that sleeps and that no
    other thread of the model will wake. *)
Inductive outcome (A : Type) : Type :=
| Ok (a : A)
| AssertFail
| Fault
| Blocked.
Arguments Ok {A} a.
Arguments AssertFail {A}.
Arguments Fault {A}.
Arguments Blocked {A}.

#[global] Instance outcome_eq_dec {A} `{EqDecision A} : EqDecision (outcome A).
Proof. solve_decision. Defined.

#[global] Instance outcome_ret : MRet outcome := @Ok.
#[global] Instance outcome_bind : MBind outcome := λ A B f m,
  match m with Ok a => f a | AssertFail => AssertFail | Fault => Fault | Blocked => Blocked end.

(** [ASSERT(c)]. *)
Definition ASSERT (c : bool) : outcome unit := if c then Ok tt else AssertFail.

(** Partial correctness and success predicates on outcomes. *)
Definition succeeds {A} (m : outcome A) : Prop := ∃ a, m = Ok a.

(** ** The state-and-outcome monad of the stateful components. *)
Definition M (S A : Type) : Type := S → outcome (A * S).

#[global] Instance M_ret {S} : MRet (M S) := λ A a s, Ok (a, s).
#[global] Instance M_bind {S} : MBind (M S) := λ A B f m s,
  match m s with
  | Ok (a, s') => f a s'
  | AssertFail => AssertFail
  | Fault => Fault
  | Blocked => Blocked
  end.

Definition lift {S A} (m : outcome A) : M S A := λ s,
  match m with Ok a => Ok (a, s) | AssertFail => AssertFail | Fault => Fault | Blocked => Blocked end.
Definition get {S} : M S S := λ s, Ok (s, s).
Definition gets {S A} (f : S → A) : M S A := λ s, Ok (f s, s).
Definition modify {S} (f : S → S) : M S unit := λ s, Ok (tt, f s).
Definition assertM {S} (c : bool) : M S unit := lift (ASSERT c).

Section outcome_lemmas.
Context {A B : Type}.

Lemma bind_Ok_inv (m : outcome A) (f : A → outcome B) b :
  m ≫= f = Ok b → ∃ a, m = Ok a ∧ f a = Ok b.
Proof. destruct m; naive_solver. Qed.

Lemma ASSERT_Ok_inv c u : ASSERT c = Ok u → c = true.
Proof. by destruct c. Qed.

Lemma Mbind_Ok_inv {S} (m : M S A) (f : A → M S B) s b s' :
  (m ≫= f) s = Ok (b, s') → ∃ a s1, m s = Ok (a, s1) ∧ f a s1 = Ok (b, s').
Proof.
  unfold mbind, M_bind. destruct (m s) as [[a s1]| | |]; naive_solver.
Qed.
End outcome_lemmas.

(** ** Mutexes seen by one thread

    [Lock] (threads/synch.cc) as a caller that runs alone sees it: [None] is a
    free lock, [Some t] a lock whose [lockOwner] is thread [t].  Acquiring a
    held lock never returns; releasing asserts ownership. *)
Definition mutex : Type := option Z.
Definition mutex_acquire (l : mutex) (tid : Z) : outcome mutex :=
  match l with None => Ok (Some tid) | Some _ => Blocked end.
Definition mutex_release (l : mutex) (tid : Z) : outcome mutex :=
  _ ← ASSERT (match l with Some t => t =? tid | None => false end); Ok None.

(** ** Machine integers

    [int] is 32 bits wide and wraps (the build is [-m32] without
    optimisation); [unsigned int] is taken modulo 2^32. *)
Definition two32 : Z := 4294967296.
Definition two31 : Z := 2147483648.
Definition u32 (z : Z) : Z := z mod two32.
Definition i32 (z : Z) : Z := (z + two31) mod two32 - two31.
Definition u16 (z : Z) : Z := z mod 65536.
Definition u8 (z : Z) : Z := z mod 256.
(** A [char] of the i386 build is signed. *)
Definition i8 (z : Z) : Z := (z + 128) mod 256 - 128.

Definition is_u32 (z : Z) : Prop := 0 ≤ z < two32.
Definition is_i32 (z : Z) : Prop := - two31 ≤ z < two31.
Definition is_u8 (z : Z) : Prop := 0 ≤ z < 256.

Ltac zcases := Z.div_mod_to_equations; lia.

Lemma u32_range z : is_u32 (u32 z).
Proof. unfold u32, is_u32, two32. apply Z.mod_pos_bound. lia. Qed.
Lemma i32_range z : is_i32 (i32 z).
Proof.
  unfold i32, is_i32, two31, two32.
  pose proof (Z.mod_pos_bound (z + 2147483648) 4294967296). lia.
Qed.
Lemma u8_range z : is_u8 (u8 z).
Proof. unfold u8, is_u8. apply Z.mod_pos_bound. lia. Qed.
Lemma u32_id z : is_u32 z → u32 z = z.
Proof. unfold u32, is_u32. intros. by apply Z.mod_small. Qed.
Lemma i32_id z : is_i32 z → i32 z = z.
Proof.
  unfold i32, is_i32, two31, two32. intros. rewrite Z.mod_small; lia.
Qed.
Lemma u8_id z : is_u8 z → u8 z = z.
Proof. unfold u8, is_u8. intros. by apply Z.mod_small. Qed.
Lemma i32_u32 z : i32 (u32 z) = i32 z.
Proof. unfold i32, u32, two31, two32. by rewrite Zplus_mod_idemp_l. Qed.
Lemma u32_i32 z : u32 (i32 z) = u32 z.
Proof.
  unfold i32, u32, two31, two32. rewrite Zminus_mod_idemp_l. f_equal. lia.
Qed.
Lemma i32_eqm z : ∃ k, i32 z = z + k * two32.
Proof. exists (- ((z + two31) / two32)). unfold i32, two31, two32. zcases. Qed.
Lemma u32_eqm z : ∃ k, u32 z = z + k * two32.
Proof. exists (- (z / two32)). unfold u32, two32. zcases. Qed.

(** Integer division of C truncates towards zero. *)
Definition divRoundDown (n s : Z) : Z := Z.quot n s.
Definition divRoundUp (n s : Z) : Z :=
  Z.quot n s + (if 0 <? Z.rem n s then 1 else 0).

Lemma divRoundDown_nonneg n s : 0 ≤ n → 0 < s → divRoundDown n s = n / s.
Proof. intros. apply Z.quot_div_nonneg; lia. Qed.
Lemma divRoundUp_spec n s : 0 ≤ n → 0 < s →
  n ≤ divRoundUp n s * s < n + s.
Proof.
  intros. unfold divRoundUp.
  rewrite Z.quot_div_nonneg, Z.rem_mod_nonneg by lia.
  pose proof (Z.mod_pos_bound n s). pose proof (Z.div_mod n s).
  destruct (Z.ltb_spec 0 (n mod s)); nia.
Qed.
Lemma divRoundUp_unique n s q : 0 ≤ n → 0 < s →
  n ≤ q * s < n + s → divRoundUp n s = q.
Proof. intros ?? ?. pose proof (divRoundUp_spec n s). nia. Qed.
Lemma divRoundUp_mono n m s : 0 ≤ n ≤ m → 0 < s →
  divRoundUp n s ≤ divRoundUp m s.
Proof.
  intros ??. pose proof (divRoundUp_spec n s). pose proof (divRoundUp_spec m s). nia.
Qed.

(** ** Arrays indexed by an [int] *)
Definition arr_get {A} (l : list A) (i : Z) : outcome A :=
  if 0 <=? i then match l !! Z.to_nat i with Some x => Ok x | None => Fault end
  else Fault.
Definition arr_set {A} (l : list A) (i : Z) (x : A) : outcome (list A) :=
  if (0 <=? i) && (i <? Z.of_nat (length l)) then Ok (<[Z.to_nat i := x]> l)
  else Fault.

Section arrays.
Context {A : Type}.
Implicit Types l : list A.

Lemma arr_get_Ok l i x : arr_get l i = Ok x ↔ 0 ≤ i ∧ l !! Z.to_nat i = Some x.
Proof.
  unfold arr_get. destruct (Z.leb_spec 0 i); [|split; [done|lia]].
  destruct (l !! Z.to_nat i); split; [intros [= ->] | intros [_ [= ->]] | | intros [_ ?]]; done.
Qed.
Lemma arr_get_in l i : 0 ≤ i < Z.of_nat (length l) → ∃ x, arr_get l i = Ok x.
Proof.
  intros Hi. destruct (lookup_lt_is_Some_2 l (Z.to_nat i)) as [x Hx]; [lia|].
  exists x. apply arr_get_Ok. split; [lia|done].
Qed.
Lemma arr_get_dom l i x : arr_get l i = Ok x → 0 ≤ i < Z.of_nat (length l).
Proof.
  rewrite arr_get_Ok. intros [? Hl%lookup_lt_Some]. lia.
Qed.
Lemma arr_set_Ok l i x l' :
  arr_set l i x = Ok l' ↔ 0 ≤ i < Z.of_nat (length l) ∧ l' = <[Z.to_nat i := x]> l.
Proof.
  unfold arr_set. destruct (Z.leb_spec 0 i), (Z.ltb_spec i (Z.of_nat (length l)));
    simpl; (split; [intros Hs; first [discriminate Hs | by injection Hs as <-]
                   | intros [? ->]; done || lia]).
Qed.
Lemma arr_set_in l i x : 0 ≤ i < Z.of_nat (length l) →
  arr_set l i x = Ok (<[Z.to_nat i := x]> l).
Proof. intros. by apply arr_set_Ok. Qed.
End arrays.

(** ** Little-endian words in byte arrays (the host is an i386) *)
Definition le32 (z : Z) : list Z :=
  [u8 z; u8 (z / 256); u8 (z / 65536); u8 (z / 16777216)].
Definition unle32 (b0 b1 b2 b3 : Z) : Z :=
  b0 + 256 * b1 + 65536 * b2 + 16777216 * b3.
(** The [unsigned] and the [int] stored at a byte offset of a buffer. *)
Definition word_at (l : list Z) (off : nat) : outcome Z :=
  match drop off l with
  | b0 :: b1 :: b2 :: b3 :: _ => Ok (unle32 b0 b1 b2 b3)
  | _ => Fault
  end.
Definition int_at (l : list Z) (off : nat) : outcome Z :=
  w ← word_at l off; Ok (i32 w).

Lemma unle32_le32 z : is_u32 z →
  unle32 (u8 z) (u8 (z / 256)) (u8 (z / 65536)) (u8 (z / 16777216)) = z.
Proof. unfold unle32, u8, is_u32, two32. intros. zcases. Qed.
Lemma le32_length z : length (le32 z) = 4%nat.
Proof. done. Qed.
Lemma le32_bytes z : Forall is_u8 (le32 z).
Proof. repeat constructor; apply u8_range. Qed.
Lemma le32_u32 z : le32 (u32 z) = le32 z.
Proof.
  unfold le32, u8, u32, two32.
  f_equal; [zcases|]. f_equal; [zcases|]. f_equal; [zcases|]. f_equal. zcases.
Qed.
Lemma word_at_le32 l z r off : length l = off → is_u32 z →
  word_at (l ++ le32 z ++ r) off = Ok z.
Proof.
  intros <- Hz. unfold word_at. rewrite drop_app_length. simpl.
  by rewrite unle32_le32.
Qed.
Lemma int_at_le32 l z r off : length l = off → is_i32 z →
  int_at (l ++ le32 z ++ r) off = Ok z.
Proof.
  intros Hl Hz. unfold int_at. rewrite <- (le32_u32 z).
  rewrite word_at_le32; [|done|apply u32_range]. simpl.
  by rewrite i32_u32, i32_id.
Qed.

(** The bytes of a string literal, without the final zero. *)
Definition bytes_of (s : String.string) : list Z :=
  (λ a, Z.of_nat (Ascii.nat_of_ascii a)) <$> String.list_ascii_of_string s.

(** ** Automation *)
Create HintDb nachos.
#[export] Hint Resolve u32_range i32_range u8_range le32_bytes : nachos.

(** Invert a successful sequence of outcome steps in the context. *)
Ltac inv_ok :=
  repeat match goal with
  | H : Ok _ = Ok _ |- _ => injection H as H; subst
  | H : AssertFail = Ok _ |- _ => discriminate H
  | H : Fault = Ok _ |- _ => discriminate H
  | H : Blocked = Ok _ |- _ => discriminate H
  | H : mret _ = Ok _ |- _ => injection H as H; subst
  | H : ASSERT _ = Ok _ |- _ => apply ASSERT_Ok_inv in H
  | H : mbind _ _ = Ok _ |- _ =>
      let a := fresh "a" in let E := fresh "E" in
      apply bind_Ok_inv in H as (a & E & H)
  | H : (_, _) = (_, _) |- _ => injection H as H; subst
  | p : _ * _ |- _ => destruct p
  end.

(** Turn boolean comparisons of [Z] in the context into propositions. *)
Ltac zbool :=
  repeat match goal with
  | H : (_ && _)%bool = true |- _ => apply andb_true_iff in H as [? ?]
  | H : (_ && _)%bool = false |- _ => apply andb_false_iff in H
  | H : (_ || _)%bool = false |- _ => apply orb_false_iff in H as [? ?]
  | H : (_ || _)%bool = true |- _ => apply orb_true_iff in H
  | H : negb _ = true |- _ => apply negb_true_iff in H
  | H : negb _ = false |- _ => apply negb_false_iff in H
  | H : (_ =? _) = true |- _ => apply Z.eqb_eq in H
  | H : (_ =? _) = false |- _ => apply Z.eqb_neq in H
  | H : (_ <? _) = true |- _ => apply Z.ltb_lt in H
  | H : (_ <? _) = false |- _ => apply Z.ltb_ge in H
  | H : (_ <=? _) = true |- _ => apply Z.leb_le in H
  | H : (_ <=? _) = false |- _ => apply Z.leb_gt in H
  end.
