(* ===== verification/BitMap.v ===== *)
(** * userprog/bitmap.cc: arrays of bits used as allocators

    The class [BitMap] stores [numBits] bits in 32-bit words.  The model keeps
    the words; [free_set] is the abstraction its clients rely on, the finite
    set of the indices whose bit is clear. *)
From S2P Require Import Prelude.

Definition BitsInByte : Z := 8.
Definition BitsInWord : Z := 32.

Record BitMap := mkBitMap {
  numBits : Z;
  numWords : Z;
  bmap : list Z  (* unsigned int *map *)
}.

(** ** Operations *)

(** [1 << (which % BitsInWord)], converted to the [unsigned] it is combined with. *)
Definition bit_mask (which : Z) : Z := u32 (Z.shiftl 1 (which mod BitsInWord)).

Definition in_range (b : BitMap) (which : Z) : bool :=
  (0 <=? which) && (which <? numBits b).

Definition set_word (b : BitMap) (m : list Z) : BitMap :=
  mkBitMap (numBits b) (numWords b) m.

Definition Mark (b : BitMap) (which : Z) : outcome BitMap :=
  _ ← ASSERT (in_range b which);
  w ← arr_get (bmap b) (which / BitsInWord);
  m ← arr_set (bmap b) (which / BitsInWord) (Z.lor w (bit_mask which));
  Ok (set_word b m).

Definition Clear (b : BitMap) (which : Z) : outcome BitMap :=
  _ ← ASSERT (in_range b which);
  w ← arr_get (bmap b) (which / BitsInWord);
  m ← arr_set (bmap b) (which / BitsInWord)
        (Z.land w (u32 (Z.lnot (bit_mask which))));
  Ok (set_word b m).

Definition Test (b : BitMap) (which : Z) : outcome bool :=
  _ ← ASSERT (in_range b which);
  w ← arr_get (bmap b) (which / BitsInWord);
  Ok (negb (Z.land w (bit_mask which) =? 0)).

(** [BitMap::BitMap]: the words come uninitialised from the heap ([junk]),
    then every bit is cleared. *)
Fixpoint clear_all (n : nat) (b : BitMap) (i : Z) : outcome BitMap :=
  match n with
  | O => Ok b
  | S n' => b' ← Clear b i; clear_all n' b' (i + 1)
  end.

Definition BitMap_new (junk : nat → Z) (nitems : Z) : outcome BitMap :=
  let nw := divRoundUp nitems BitsInWord in
  clear_all (Z.to_nat nitems)
    (mkBitMap nitems nw ((λ i, u32 (junk i)) <$> seq 0 (Z.to_nat nw))) 0.

Fixpoint Find_loop (n : nat) (b : BitMap) (i : Z) : outcome (Z * BitMap) :=
  match n with
  | O => Ok (-1, b)
  | S n' =>
      t ← Test b i;
      if negb t then b' ← Mark b i; Ok (i, b') else Find_loop n' b (i + 1)
  end.

Definition Find (b : BitMap) : outcome (Z * BitMap) :=
  Find_loop (Z.to_nat (numBits b)) b 0.

Fixpoint FindStart_loop (n : nat) (b : BitMap) (startPoint i : Z)
    : outcome (Z * BitMap) :=
  match n with
  | O => Ok (-1, b)
  | S n' =>
      t ← Test b (Z.rem (startPoint + i) (numBits b));
      if negb t then
        b' ← Mark b (Z.rem (startPoint + i) (numBits b));
        Ok (Z.rem (startPoint + i) (numBits b), b')
      else FindStart_loop n' b startPoint (i + 1)
  end.

Definition FindStart (b : BitMap) (startPoint : Z) : outcome (Z * BitMap) :=
  FindStart_loop (Z.to_nat (numBits b)) b startPoint 0.

Fixpoint NumClear_loop (n : nat) (b : BitMap) (i count : Z) : outcome Z :=
  match n with
  | O => Ok count
  | S n' =>
      t ← Test b i;
      NumClear_loop n' b (i + 1) (if negb t then count + 1 else count)
  end.

Definition NumClear (b : BitMap) : outcome Z :=
  NumClear_loop (Z.to_nat (numBits b)) b 0 0.

(** ** Abstraction: the bits and the set of clear indices *)

Definition bit (b : BitMap) (i : Z) : bool :=
  Z.testbit (nth (Z.to_nat (i / BitsInWord)) (bmap b) 0) (i mod BitsInWord).

Definition bm_wf (b : BitMap) : Prop :=
  0 ≤ numBits b ∧
  numWords b = divRoundUp (numBits b) BitsInWord ∧
  Z.of_nat (length (bmap b)) = numWords b ∧
  Forall is_u32 (bmap b).

Definition free_list (b : BitMap) : list Z :=
  filter (λ i, bit b i = false) (seqZ 0 (numBits b)).
Definition free_set (b : BitMap) : gset Z := list_to_set (free_list b).

(** [b'] is [b] with bit [i] set to [v]. *)
Definition updates (b b' : BitMap) (i : Z) (v : bool) : Prop :=
  bm_wf b' ∧ numBits b' = numBits b ∧
  ∀ j, 0 ≤ j < numBits b → bit b' j = if decide (j = i) then v else bit b j.

(** ** Word-level lemmas *)

Lemma bit_mask_spec i : 0 ≤ i → bit_mask i = 2 ^ (i mod 32).
Proof.
  intros. unfold bit_mask, BitsInWord, u32, two32.
  rewrite Z.shiftl_1_l, Z.mod_small; [done|].
  pose proof (Z.mod_pos_bound i 32). split; [apply Z.pow_nonneg; lia|].
  change 4294967296 with (2 ^ 32). apply Z.pow_lt_mono_r; lia.
Qed.

Lemma is_u32_testbit w : 0 ≤ w → (is_u32 w ↔ ∀ k, 32 ≤ k → Z.testbit w k = false).
Proof.
  intros Hw. unfold is_u32, two32. change 4294967296 with (2 ^ 32). split.
  - intros [? ?] k Hk. destruct (decide (w = 0)) as [->|]; [apply Z.bits_0|].
    apply Z.bits_above_log2; [lia|].
    apply Z.log2_lt_pow2 in H0; lia.
  - intros Hk. split; [done|]. destruct (decide (w = 0)) as [->|Hne]; [done|].
    apply Z.log2_lt_pow2; [lia|]. apply Z.lt_nge. intros Hl.
    pose proof (Z.bit_log2 w ltac:(lia)) as Hb. by rewrite Hk in Hb.
Qed.

Lemma lor_u32 a b : is_u32 a → is_u32 b → is_u32 (Z.lor a b).
Proof.
  intros Ha Hb. assert (0 ≤ Z.lor a b) by (apply Z.lor_nonneg; unfold is_u32 in *; lia).
  apply is_u32_testbit; [done|]. intros k Hk. rewrite Z.lor_spec.
  apply is_u32_testbit with (k := k) in Ha; [|unfold is_u32 in *; lia|done].
  apply is_u32_testbit with (k := k) in Hb; [|unfold is_u32 in *; lia|done].
  by rewrite Ha, Hb.
Qed.
Lemma land_u32 a b : is_u32 a → is_u32 (Z.land a b).
Proof.
  intros Ha. assert (0 ≤ Z.land a b) by (apply Z.land_nonneg; unfold is_u32 in *; lia).
  apply is_u32_testbit; [done|]. intros k Hk. rewrite Z.land_spec.
  apply is_u32_testbit with (k := k) in Ha; [|unfold is_u32 in *; lia|done].
  by rewrite Ha.
Qed.

Lemma u32_testbit z k : 0 ≤ k < 32 → Z.testbit (u32 z) k = Z.testbit z k.
Proof. intros. unfold u32, two32. change 4294967296 with (2 ^ 32).
  apply Z.mod_pow2_bits_low. lia. Qed.

Lemma land_mask_zero w i : 0 ≤ i →
  (Z.land w (bit_mask i) =? 0) = negb (Z.testbit w (i mod 32)).
Proof.
  intros Hi. rewrite bit_mask_spec by done. pose proof (Z.mod_pos_bound i 32).
  destruct (Z.eqb_spec (Z.land w (2 ^ (i mod 32))) 0) as [E|E];
    destruct (Z.testbit w (i mod 32)) eqn:T; try done.
  - assert (Z.testbit (Z.land w (2 ^ (i mod 32))) (i mod 32) = true) as Hb
      by (rewrite Z.land_spec, T, Z.pow2_bits_true by lia; done).
    by rewrite E, Z.bits_0 in Hb.
  - exfalso. apply E. apply Z.bits_inj'. intros k Hk.
    rewrite Z.land_spec, Z.bits_0, Z.pow2_bits_eqb by lia.
    destruct (Z.eqb_spec (i mod 32) k) as [<-|]; [by rewrite T|by rewrite andb_false_r].
Qed.

(** ** Correctness of the bit operations *)
Section bits.
Implicit Types b : BitMap.

Lemma in_range_true b i : 0 ≤ i < numBits b → in_range b i = true.
Proof. intros. unfold in_range. apply andb_true_iff. rewrite Z.leb_le, Z.ltb_lt. lia. Qed.

Lemma word_in_range b i : bm_wf b → 0 ≤ i < numBits b →
  0 ≤ i / BitsInWord < Z.of_nat (length (bmap b)).
Proof.
  intros (? & Hnw & Hl & _) Hi. rewrite Hl, Hnw. unfold BitsInWord.
  pose proof (divRoundUp_spec (numBits b) 32). zcases.
Qed.

Lemma word_get b i : bm_wf b → 0 ≤ i < numBits b →
  ∃ w, arr_get (bmap b) (i / BitsInWord) = Ok w ∧ is_u32 w ∧
       nth (Z.to_nat (i / BitsInWord)) (bmap b) 0 = w.
Proof.
  intros Hwf Hi. destruct (arr_get_in _ _ (word_in_range b i Hwf Hi)) as [w Hw].
  exists w. split; [done|]. apply arr_get_Ok in Hw as [_ Hw].
  destruct Hwf as (_ & _ & _ & Hf). split.
  - by eapply Forall_lookup_1.
  - by apply nth_lookup_Some.
Qed.

Lemma Test_spec b i : bm_wf b → 0 ≤ i < numBits b → Test b i = Ok (bit b i).
Proof.
  intros Hwf Hi. unfold Test. rewrite in_range_true by done. simpl.
  destruct (word_get b i Hwf Hi) as (w & -> & _ & Hn). simpl.
  unfold bit. rewrite Hn, land_mask_zero by lia.
  by rewrite negb_involutive.
Qed.

(** Writing one word: which bits change. *)
Lemma write_word_updates b i w' v : bm_wf b → 0 ≤ i < numBits b → is_u32 w' →
  (∀ k, 0 ≤ k < 32 → Z.testbit w' k =
     if decide (k = i mod 32) then v
     else Z.testbit (nth (Z.to_nat (i / BitsInWord)) (bmap b) 0) k) →
  updates b (set_word b (<[Z.to_nat (i / BitsInWord) := w']> (bmap b))) i v.
Proof.
  intros Hwf Hi Hw' Hk. pose proof (word_in_range b i Hwf Hi) as Hr.
  destruct Hwf as (? & Hnw & Hl & Hf). split; [|split; [done|]].
  - repeat split; simpl; try done; [by rewrite length_insert|].
    by apply Forall_insert.
  - intros j Hj. unfold bit, BitsInWord in *. simpl.
    pose proof (Z.mod_pos_bound j 32).
    destruct (decide (j / 32 = i / 32)) as [E|E].
    + rewrite E.
      rewrite (nth_lookup_Some _ _ _ w') by (apply list_lookup_insert_eq; lia).
      rewrite Hk by lia. do 2 case_decide; try done; exfalso; zcases.
    + rewrite !nth_lookup, list_lookup_insert_ne
        by (intros HE; apply E; apply Z2Nat.inj in HE; zcases).
      case_decide; [congruence|done].
Qed.

Lemma Mark_spec b i : bm_wf b → 0 ≤ i < numBits b →
  ∃ b', Mark b i = Ok b' ∧ updates b b' i true.
Proof.
  intros Hwf Hi. unfold Mark. rewrite in_range_true by done. simpl.
  destruct (word_get b i Hwf Hi) as (w & -> & Hw & Hn). simpl.
  rewrite arr_set_in by (by apply word_in_range). simpl.
  eexists. split; [done|]. apply write_word_updates; [done..| |].
  - apply lor_u32; [done|]. unfold bit_mask. apply u32_range.
  - intros k Hk. rewrite Hn, Z.lor_spec, bit_mask_spec, Z.pow2_bits_eqb by zcases.
    case_decide as E; [subst; by rewrite Z.eqb_refl, orb_true_r|].
    destruct (Z.eqb_spec (i mod 32) k); [congruence|by rewrite orb_false_r].
Qed.

Lemma Clear_spec b i : bm_wf b → 0 ≤ i < numBits b →
  ∃ b', Clear b i = Ok b' ∧ updates b b' i false.
Proof.
  intros Hwf Hi. unfold Clear. rewrite in_range_true by done. simpl.
  destruct (word_get b i Hwf Hi) as (w & -> & Hw & Hn). simpl.
  rewrite arr_set_in by (by apply word_in_range). simpl.
  eexists. split; [done|]. apply write_word_updates; [done..| |].
  - by apply land_u32.
  - intros k Hk. rewrite Hn, Z.land_spec, u32_testbit, Z.lnot_spec by lia.
    rewrite bit_mask_spec, Z.pow2_bits_eqb by zcases.
    case_decide as E; [subst; by rewrite Z.eqb_refl, andb_false_r|].
    destruct (Z.eqb_spec (i mod 32) k); [congruence|by rewrite andb_true_r].
Qed.

(** Out-of-range indices trip the assertion of every operation. *)
Lemma out_of_range b i : ¬ (0 ≤ i < numBits b) →
  Mark b i = AssertFail ∧ Clear b i = AssertFail ∧ Test b i = AssertFail.
Proof.
  intros Hi. unfold Mark, Clear, Test.
  replace (in_range b i) with false; [done|]. symmetry.
  unfold in_range. apply andb_false_iff. rewrite Z.leb_gt, Z.ltb_ge. lia.
Qed.
End bits.

(** ** The set view *)
Section free.
Implicit Types b : BitMap.

Lemma elem_of_free_set b i :
  i ∈ free_set b ↔ 0 ≤ i < numBits b ∧ bit b i = false.
Proof.
  unfold free_set, free_list. rewrite elem_of_list_to_set, list_elem_of_filter, elem_of_seqZ.
  naive_solver lia.
Qed.

Lemma size_free_set b : size (free_set b) = length (free_list b).
Proof.
  unfold free_set. apply size_list_to_set, NoDup_filter, NoDup_seqZ.
Qed.

Lemma updates_wf b b' i v : updates b b' i v → bm_wf b'.
Proof. by intros [? _]. Qed.
Lemma updates_numBits b b' i v : updates b b' i v → numBits b' = numBits b.
Proof. by intros (_ & ? & _). Qed.

Lemma updates_mark_free b b' i : 0 ≤ i < numBits b →
  updates b b' i true → free_set b' = free_set b ∖ {[i]}.
Proof.
  intros Hi (Hwf & Hn & Hb). apply set_eq. intros j.
  rewrite elem_of_difference, !elem_of_free_set, elem_of_singleton, Hn.
  split; [intros [Hj Hv] | intros [[Hj Hv] Hne]]; rewrite Hb in * by done;
    case_decide; naive_solver.
Qed.

Lemma updates_clear_free b b' i : 0 ≤ i < numBits b →
  updates b b' i false → free_set b' = {[i]} ∪ free_set b.
Proof.
  intros Hi (Hwf & Hn & Hb). apply set_eq. intros j.
  rewrite elem_of_union, !elem_of_free_set, elem_of_singleton, Hn.
  split; [intros [Hj Hv] | intros [->|[Hj Hv]]]; try (split; [done|]);
    rewrite Hb in * by done; case_decide; naive_solver.
Qed.
End free.

(** ** [Find], [FindStart], [NumClear] and the constructor *)
Section search.
Implicit Types b : BitMap.

Lemma Find_loop_spec n b i : bm_wf b → 0 ≤ i → i + Z.of_nat n = numBits b →
  (∀ j, 0 ≤ j < i → bit b j = true) →
  (Find_loop n b i = Ok (-1, b) ∧ ∀ j, 0 ≤ j < numBits b → bit b j = true) ∨
  ∃ r b', Find_loop n b i = Ok (r, b') ∧ 0 ≤ r < numBits b ∧ bit b r = false ∧
    (∀ j, 0 ≤ j < r → bit b j = true) ∧ updates b b' r true.
Proof.
  revert i. induction n as [|n IH]; intros i Hwf Hi Hn Hlow; simpl.
  - left. split; [done|]. intros. apply Hlow. lia.
  - rewrite Test_spec by (done || lia). simpl. destruct (bit b i) eqn:Eb; simpl.
    + apply IH; [done|lia..|]. intros j Hj.
      destruct (decide (j = i)) as [->|]; [done|apply Hlow; lia].
    + right. destruct (Mark_spec b i) as (b' & Em & Hu); [done|lia|].
      exists i, b'. rewrite Em. simpl. split_and!; auto; lia.
Qed.

(** The allocator contract of [Find]: either nothing is free and the map is
    unchanged, or the least free index is handed out and leaves the free set. *)
Lemma Find_spec b : bm_wf b →
  (Find b = Ok (-1, b) ∧ free_set b = ∅) ∨
  ∃ r b', Find b = Ok (r, b') ∧ r ∈ free_set b ∧ 0 ≤ r < numBits b ∧
    (∀ j, j ∈ free_set b → r ≤ j) ∧ updates b b' r true ∧
    free_set b' = free_set b ∖ {[r]}.
Proof.
  intros Hwf. unfold Find.
  destruct (Find_loop_spec (Z.to_nat (numBits b)) b 0) as
    [[-> Hall]|(r & b' & -> & Hr & Hf & Hlow & Hu)]; try done.
  - destruct Hwf. lia.
  - intros; lia.
  - left. split; [done|]. apply set_eq. intros j.
    rewrite elem_of_free_set. split; [|by intros ?%not_elem_of_empty].
    intros [Hj Hf]. by rewrite Hall in Hf.
  - right. exists r, b'. split_and!; try done.
    + by apply elem_of_free_set.
    + lia. + lia.
    + intros j [Hj Hjf]%elem_of_free_set.
      destruct (decide (r ≤ j)); [done|]. rewrite Hlow in Hjf by lia. done.
    + by apply updates_mark_free.
Qed.

Lemma FindStart_loop_spec n b s i : bm_wf b → 0 ≤ s → 0 ≤ i →
  i + Z.of_nat n = numBits b →
  (∀ j, 0 ≤ j < i → bit b ((s + j) mod numBits b) = true) →
  (FindStart_loop n b s i = Ok (-1, b) ∧
     ∀ j, 0 ≤ j < numBits b → bit b ((s + j) mod numBits b) = true) ∨
  ∃ k b', let r := (s + k) mod numBits b in
    FindStart_loop n b s i = Ok (r, b') ∧ 0 ≤ k < numBits b ∧ bit b r = false ∧
    (∀ j, 0 ≤ j < k → bit b ((s + j) mod numBits b) = true) ∧ updates b b' r true.
Proof.
  revert i. induction n as [|n IH]; intros i Hwf Hs Hi Hn Hlow; simpl.
  - left. split; [done|]. intros. apply Hlow. lia.
  - rewrite Z.rem_mod_nonneg by lia.
    pose proof (Z.mod_pos_bound (s + i) (numBits b)) as Hm.
    rewrite Test_spec by (done || lia). simpl.
    destruct (bit b ((s + i) mod numBits b)) eqn:Eb; simpl.
    + apply IH; [done|lia..|]. intros j Hj.
      destruct (decide (j = i)) as [->|]; [done|apply Hlow; lia].
    + right. destruct (Mark_spec b ((s + i) mod numBits b)) as (b' & Em & Hu); [done|lia|].
      exists i, b'. rewrite Em. simpl. split_and!; auto; lia.
Qed.

(** Every residue is visited: the rotated scan covers the whole map. *)
Lemma rotation_onto n s j : 0 < n → 0 ≤ j < n →
  ∃ k, 0 ≤ k < n ∧ (s + k) mod n = j.
Proof.
  intros Hn Hj. exists ((j - s) mod n). split; [apply Z.mod_pos_bound; lia|].
  rewrite Zplus_mod_idemp_r. replace (s + (j - s)) with j by lia.
  apply Z.mod_small. lia.
Qed.

Lemma FindStart_spec b s : bm_wf b → 0 ≤ s →
  (FindStart b s = Ok (-1, b) ∧ free_set b = ∅) ∨
  ∃ k b', let r := (s + k) mod numBits b in
    FindStart b s = Ok (r, b') ∧ r ∈ free_set b ∧ 0 ≤ k < numBits b ∧
    (∀ j, 0 ≤ j < k → (s + j) mod numBits b ∉ free_set b) ∧
    updates b b' r true ∧ free_set b' = free_set b ∖ {[r]}.
Proof.
  intros Hwf Hs. unfold FindStart.
  destruct (FindStart_loop_spec (Z.to_nat (numBits b)) b s 0) as
    [[-> Hall]|(k & b' & -> & Hk & Hf & Hlow & Hu)]; try done.
  - destruct Hwf. lia.
  - intros; lia.
  - left. split; [done|]. apply set_eq. intros j.
    rewrite elem_of_free_set. split; [|by intros ?%not_elem_of_empty].
    intros [Hj Hbit]. destruct (rotation_onto (numBits b) s j) as (k & Hk & E); [lia..|].
    pose proof (Hall k Hk) as Ht. rewrite E in Ht. congruence.
  - right. pose proof (Z.mod_pos_bound (s + k) (numBits b)).
    exists k, b'. simpl. split_and!; try done; try lia.
    + apply elem_of_free_set. split; [lia|done].
    + intros j Hj [_ Hjf]%elem_of_free_set. rewrite Hlow in Hjf by lia. done.
    + apply updates_mark_free; [lia|done].
Qed.

Lemma NumClear_loop_spec n b i c : bm_wf b → 0 ≤ i → i + Z.of_nat n = numBits b →
  NumClear_loop n b i c =
    Ok (c + Z.of_nat (length (filter (λ j, bit b j = false) (seqZ i (Z.of_nat n))))).
Proof.
  revert i c. induction n as [|n IH]; intros i c Hwf Hi Hn; cbn [NumClear_loop].
  - simpl. by rewrite Z.add_0_r.
  - rewrite Test_spec by (done || lia). simpl.
    rewrite IH by (done || lia).
    rewrite (seqZ_cons i (Z.of_nat (S n))) by lia. rewrite filter_cons.
    replace (Z.pred (Z.of_nat (S n))) with (Z.of_nat n) by lia.
    replace (Z.succ i) with (i + 1) by lia.
    f_equal. destruct (bit b i); simpl; lia.
Qed.

Lemma NumClear_spec b : bm_wf b → NumClear b = Ok (Z.of_nat (size (free_set b))).
Proof.
  intros Hwf. unfold NumClear. pose proof Hwf as [? _].
  rewrite NumClear_loop_spec by (done || lia).
  rewrite size_free_set. unfold free_list. rewrite Z2Nat.id by done. done.
Qed.

Lemma clear_all_spec n b i : bm_wf b → 0 ≤ i → i + Z.of_nat n = numBits b →
  ∃ b', clear_all n b i = Ok b' ∧ bm_wf b' ∧ numBits b' = numBits b ∧
    ∀ j, 0 ≤ j < numBits b → bit b' j = if decide (j < i) then bit b j else false.
Proof.
  revert b i. induction n as [|n IH]; intros b i Hwf Hi Hn; simpl.
  - exists b. split_and!; try done. intros. case_decide; [done|lia].
  - destruct (Clear_spec b i) as (b1 & -> & Hw1 & Hn1 & Hb1); [done|lia|]. simpl.
    destruct (IH b1 (i + 1)) as (b' & -> & Hw' & Hn' & Hb'); [done|lia..|].
    exists b'. split_and!; [done..|congruence|]. intros j Hj.
    rewrite Hb', Hb1 by lia. repeat case_decide; (done || lia).
Qed.

Lemma BitMap_new_spec junk n : 0 ≤ n →
  ∃ b, BitMap_new junk n = Ok b ∧ bm_wf b ∧ numBits b = n ∧
    (∀ j, 0 ≤ j < n → bit b j = false) ∧
    free_set b = list_to_set (seqZ 0 n).
Proof.
  intros Hn. unfold BitMap_new.
  pose proof (divRoundUp_spec n BitsInWord Hn ltac:(unfold BitsInWord; lia)) as Hd.
  unfold BitsInWord in *.
  destruct (clear_all_spec (Z.to_nat n)
    (mkBitMap n (divRoundUp n 32)
       ((λ i, u32 (junk i)) <$> seq 0 (Z.to_nat (divRoundUp n 32)))) 0)
    as (b & -> & Hw & Hnb & Hb); simpl in *; try lia.
  - repeat split; simpl; try done.
    + rewrite length_fmap, length_seq. lia.
    + apply Forall_fmap, Forall_true. intros. apply u32_range.
  - assert (∀ j, 0 ≤ j < n → bit b j = false) as Hz.
    { intros j Hj. rewrite Hb by done. by case_decide; [lia|]. }
    exists b. split_and!; try done. apply set_eq. intros j.
    rewrite elem_of_free_set, elem_of_list_to_set, elem_of_seqZ, Hnb.
    split; [lia|]. intros. split; [lia|]. apply Hz. lia.
Qed.
End search.

(** ** The interface clients are verified against

    Components that hand out numbered slots ([FrameProvider], the thread and
    process identifiers, the semaphore table) use a bitmap only through these
    operations and laws. *)
Class SlotMap (T : Type) := {
  slot_count : T → Z;
  slot_ok : T → Prop;
  slot_free : T → gset Z;
  slot_find : T → outcome (Z * T);
  slot_clear : T → Z → outcome T;
  slot_free_bound t i : slot_ok t → i ∈ slot_free t → 0 ≤ i < slot_count t;
  slot_find_law t : slot_ok t →
    (slot_find t = Ok (-1, t) ∧ slot_free t = ∅) ∨
    ∃ r t', slot_find t = Ok (r, t') ∧ r ∈ slot_free t ∧ slot_ok t' ∧
      slot_count t' = slot_count t ∧ slot_free t' = slot_free t ∖ {[r]};
  slot_clear_law t i : slot_ok t → 0 ≤ i < slot_count t →
    ∃ t', slot_clear t i = Ok t' ∧ slot_ok t' ∧ slot_count t' = slot_count t ∧
      slot_free t' = {[i]} ∪ slot_free t;
  slot_clear_bad t i : ¬ (0 ≤ i < slot_count t) → slot_clear t i = AssertFail
}.

#[global] Program Instance BitMap_SlotMap : SlotMap BitMap := {|
  slot_count := numBits;
  slot_ok := bm_wf;
  slot_free := free_set;
  slot_find := Find;
  slot_clear := Clear
|}.
Next Obligation. intros b i _ Hi. by apply elem_of_free_set in Hi as [? _]. Qed.
Next Obligation.
  intros b Hwf. destruct (Find_spec b Hwf) as [?|(r & b' & ? & ? & ? & _ & Hu & ?)];
    [by left|right].
  exists r, b'. split_and!; eauto using updates_wf, updates_numBits.
Qed.
Next Obligation.
  intros b i Hwf Hi. destruct (Clear_spec b i Hwf Hi) as (b' & ? & Hu).
  exists b'. split_and!; eauto using updates_wf, updates_numBits, updates_clear_free.
Qed.
Next Obligation. intros b i Hi. by apply out_of_range in Hi as (_ & ? & _). Qed.

(** ** Theorems *)

(** A bitmap refines the set of its clear indices: within range [Test], [Mark]
    and [Clear] are membership, removal and insertion, out of range each trips
    its assertion; [Find] takes the least clear index, or returns -1 and changes
    nothing exactly when none is clear; [NumClear] counts the set. *)
Theorem BitMap_refines_set b i : bm_wf b →
  (0 ≤ i < numBits b →
     Test b i = Ok (negb (bool_decide (i ∈ free_set b))) ∧
     (∃ b', Mark b i = Ok b' ∧ bm_wf b' ∧ free_set b' = free_set b ∖ {[i]}) ∧
     (∃ b', Clear b i = Ok b' ∧ bm_wf b' ∧ free_set b' = {[i]} ∪ free_set b)) ∧
  (¬ (0 ≤ i < numBits b) → Mark b i = AssertFail ∧ Clear b i = AssertFail ∧ Test b i = AssertFail) ∧
  ((Find b = Ok (-1, b) ∧ free_set b = ∅) ∨
   ∃ r b', Find b = Ok (r, b') ∧ r ∈ free_set b ∧ (∀ j, j ∈ free_set b → r ≤ j) ∧ bm_wf b' ∧
     free_set b' = free_set b ∖ {[r]}) ∧
  NumClear b = Ok (Z.of_nat (size (free_set b))).
Proof.
  intros Hwf. split; [|split; [apply out_of_range|split; [|by apply NumClear_spec]]].
  - intros Hi. split; [|split].
    + rewrite Test_spec by done. f_equal.
      assert (i ∈ free_set b ↔ bit b i = false) as Hm by (rewrite elem_of_free_set; tauto).
      destruct (bit b i); [rewrite bool_decide_eq_false_2|rewrite bool_decide_eq_true_2]; try done;
        rewrite Hm; [discriminate|reflexivity].
    + destruct (Mark_spec b i Hwf Hi) as (b' & -> & Hu). exists b'.
      split; [done|]. split; [by eapply updates_wf|]. by apply updates_mark_free.
    + destruct (Clear_spec b i Hwf Hi) as (b' & -> & Hu). exists b'.
      split; [done|]. split; [by eapply updates_wf|]. by apply updates_clear_free.
  - destruct (Find_spec b Hwf) as [?|(r & b' & E & Hr & _ & Hl & Hu & Hf)]; [by left|].
    right. exists r, b'. split; [done|]. split; [done|]. split; [done|]. split; [by eapply updates_wf|done].
Qed.

(** [FindStart] is a rotating search: it returns the first clear index at or
    after its starting point, wrapping around, marks it, and returns -1 exactly
    when no index is clear (so process and thread identifiers are reused as late as possible). *)
Theorem FindStart_rotates b s : bm_wf b → 0 ≤ s →
  (FindStart b s = Ok (-1, b) ∧ free_set b = ∅) ∨
  ∃ k b', let r := (s + k) mod numBits b in
    FindStart b s = Ok (r, b') ∧ r ∈ free_set b ∧ 0 ≤ k < numBits b ∧
    (∀ j, 0 ≤ j < k → (s + j) mod numBits b ∉ free_set b) ∧ bm_wf b' ∧
    free_set b' = free_set b ∖ {[r]}.
Proof.
  intros Hwf Hs. destruct (FindStart_spec b s Hwf Hs) as [?|(k & b' & E & Hr & Hk & Hl & Hu & Hf)]; [by left|].
  right. exists k, b'. split; [done|]. split; [done|]. split; [done|]. split; [done|].
  split; [by eapply updates_wf|done].
Qed.

(** Forty bits of which 0, 1 and 33 are set. *)
Definition demo_bitmap : BitMap := mkBitMap 40 2 [3; 2].
Lemma demo_bitmap_wf : bm_wf demo_bitmap.
Proof.
  split; [by vm_compute|]. split; [reflexivity|]. split; [reflexivity|].
  repeat constructor; by vm_compute.
Qed.
Lemma BitMap_refines_set_witness : NumClear demo_bitmap = Ok 37 ∧ Test demo_bitmap 40 = AssertFail.
Proof.
  destruct (BitMap_refines_set demo_bitmap 40 demo_bitmap_wf) as (_ & Hout & _ & Hn).
  split; [rewrite Hn; rewrite size_free_set; reflexivity|]. apply Hout. cbn. lia.
Defined.
Lemma FindStart_rotates_witness : ∃ r b', FindStart demo_bitmap 33 = Ok (r, b') ∧ r ∈ free_set demo_bitmap.
Proof.
  destruct (FindStart_rotates demo_bitmap 33 demo_bitmap_wf) as [[_ He]|(k & b' & E & Hr & _)].
  - lia.
  - exfalso. assert (size (free_set demo_bitmap) = 37%nat) as Hs by (rewrite size_free_set; reflexivity).
    rewrite He, size_empty in Hs. discriminate.
  - exists ((33 + k) mod numBits demo_bitmap), b'. split; [exact E|exact Hr].
Defined.
