(* ===== verification/Memory.v ===== *)
(** * machine/machine.h, machine/machine.cc, machine/translate.cc

    The simulated hardware seen by user programs: registers, main memory and
    address translation through a linear page table or a TLB.  Page tables are
    objects shared between an address space and the machine, so they live in a
    small store indexed by pointers. *)
From S2P Require Import Prelude.

Definition SectorSize : Z := 128.
Definition PageSize : Z := SectorSize.
Definition NumPhysPages : Z := 2096.
Definition MemorySize : Z := NumPhysPages * PageSize.
Definition TLBSize : Z := 4.

Inductive ExceptionType :=
| NoException | SyscallException | PageFaultException | ReadOnlyException
| BusErrorException | AddressErrorException | OverflowException
| IllegalInstrException | NumExceptionTypes.
#[global] Instance ExceptionType_eq_dec : EqDecision ExceptionType.
Proof. solve_decision. Defined.

Definition StackReg : Z := 29.
Definition RetAddrReg : Z := 31.
Definition NumGPRegs : Z := 32.
Definition HiReg : Z := 32.
Definition LoReg : Z := 33.
Definition PCReg : Z := 34.
Definition NextPCReg : Z := 35.
Definition PrevPCReg : Z := 36.
Definition LoadReg : Z := 37.
Definition LoadValueReg : Z := 38.
Definition BadVAddrReg : Z := 39.
Definition NumTotalRegs : Z := 40.

Record TranslationEntry := mkTE {
  virtualPage : Z;
  physicalPage : Z;
  valid : bool;
  readOnly : bool;
  use : bool;
  dirty : bool
}.

Inductive MachineStatus := IdleMode | SystemMode | UserMode.

(** [ptables] is the store of translation tables that the pointers
    [pageTable] of the machine and of the address spaces refer to; [status] is
    the field of [Interrupt] that the CPU sets. *)
Record Machine := mkMachine {
  mainMemory : gmap Z Z;       (* raw bytes, 0 where absent *)
  registers : list Z;
  tlb : option (list TranslationEntry);
  pageTable : option nat;
  pageTableSize : Z;
  ptables : gmap nat (list TranslationEntry);
  status : MachineStatus
}.

Definition set_mem (m : Machine) mem := mkMachine mem (registers m) (tlb m)
  (pageTable m) (pageTableSize m) (ptables m) (status m).
Definition set_regs (m : Machine) r := mkMachine (mainMemory m) r (tlb m)
  (pageTable m) (pageTableSize m) (ptables m) (status m).
Definition set_tlb (m : Machine) t := mkMachine (mainMemory m) (registers m) t
  (pageTable m) (pageTableSize m) (ptables m) (status m).
Definition set_ptables (m : Machine) h := mkMachine (mainMemory m) (registers m)
  (tlb m) (pageTable m) (pageTableSize m) h (status m).
Definition set_status (m : Machine) st := mkMachine (mainMemory m) (registers m)
  (tlb m) (pageTable m) (pageTableSize m) (ptables m) st.
Definition set_pageTable (m : Machine) p n := mkMachine (mainMemory m) (registers m)
  (tlb m) p n (ptables m) (status m).

(** [Machine::Machine] without [USE_TLB]: everything zero, no page table. *)
Definition Machine_new (size0 : Z) : Machine :=
  mkMachine ∅ (replicate (Z.to_nat NumTotalRegs) 0) None None size0 ∅ SystemMode.

(** ** Registers *)
Definition ReadRegister (m : Machine) (num : Z) : outcome Z :=
  _ ← ASSERT ((0 <=? num) && (num <? NumTotalRegs));
  arr_get (registers m) num.

Definition WriteRegister (m : Machine) (num value : Z) : outcome Machine :=
  _ ← ASSERT ((0 <=? num) && (num <? NumTotalRegs));
  r ← arr_set (registers m) num value;
  Ok (set_regs m r).

(** ** Bytes of main memory *)
Definition mem_byte (m : Machine) (a : Z) : Z := default 0 (mainMemory m !! a).
Definition put_byte (m : Machine) (a v : Z) : Machine :=
  set_mem m (<[a := v]> (mainMemory m)).

(** ** [Machine::Translate] *)

(** The alignment check on a [size]-byte access. *)
Definition misaligned (virtAddr size : Z) : bool :=
  ((size =? 4) && negb (Z.land virtAddr 3 =? 0)) ||
  ((size =? 2) && negb (Z.land virtAddr 1 =? 0)).

(** Where the translation found its entry: in the page table or in the TLB. *)
Inductive entry_ref := InTable (p : nat) (i : nat) | InTLB (i : nat).

Definition find_tlb (t : list TranslationEntry) (vpn : Z)
    : option (nat * TranslationEntry) :=
  list_find (λ e, valid e = true ∧ virtualPage e = vpn) (take (Z.to_nat TLBSize) t).

Definition lookup_entry (m : Machine) (vpn : Z)
    : outcome (ExceptionType + entry_ref * TranslationEntry) :=
  match tlb m with
  | None =>
      match pageTable m with
      | None => Fault
      | Some p =>
          if pageTableSize m <=? vpn then Ok (inl AddressErrorException)
          else match ptables m !! p with
          | None => Fault  (* dangling pageTable pointer *)
          | Some pt =>
              e ← arr_get pt vpn;
              if negb (valid e) then Ok (inl PageFaultException)
              else Ok (inr (InTable p (Z.to_nat vpn), e))
          end
      end
  | Some t =>
      match find_tlb t vpn with
      | Some (i, e) => Ok (inr (InTLB i, e))
      | None => Ok (inl PageFaultException)
      end
  end.

(** [entry->use = TRUE; if (writing) entry->dirty = TRUE]. *)
Definition touch (e : TranslationEntry) (writing : bool) : TranslationEntry :=
  mkTE (virtualPage e) (physicalPage e) (valid e) (readOnly e) true
       (if writing then true else dirty e).

Definition store_entry (m : Machine) (r : entry_ref) (e : TranslationEntry) : Machine :=
  match r with
  | InTable p i => set_ptables m (alter (λ pt, <[i := e]> pt) p (ptables m))
  | InTLB i => set_tlb m ((λ t, <[i := e]> t) <$> tlb m)
  end.

Definition has {A} (o : option A) : bool := match o with Some _ => true | None => false end.

Definition Translate (m : Machine) (virtAddr size : Z) (writing : bool)
    : outcome (ExceptionType * Z * Machine) :=
  if misaligned virtAddr size then Ok (AddressErrorException, 0, m) else
  _ ← ASSERT (negb (has (tlb m)) || negb (has (pageTable m)));
  _ ← ASSERT (has (tlb m) || has (pageTable m));
  let vpn := u32 virtAddr / PageSize in
  let offset := u32 virtAddr mod PageSize in
  found ← lookup_entry m vpn;
  match found with
  | inl ex => Ok (ex, 0, m)
  | inr (ref, entry) =>
      if readOnly entry && writing then Ok (ReadOnlyException, 0, m) else
      let pageFrame := physicalPage entry in
      if NumPhysPages <=? pageFrame then Ok (BusErrorException, 0, m) else
      let m' := store_entry m ref (touch entry writing) in
      let physAddr := pageFrame * PageSize + offset in
      _ ← ASSERT ((0 <=? physAddr) && (physAddr + size <=? MemorySize));
      Ok (NoException, physAddr, m')
  end.

(** ** Endianness: the host is little-endian, so the conversions are no-ops. *)
Definition WordToHost (word : Z) : Z := word.
Definition ShortToHost (shortword : Z) : Z := shortword.
Definition WordToMachine (word : Z) : Z := WordToHost word.
Definition ShortToMachine (shortword : Z) : Z := ShortToHost shortword.

(** The bytes of a host object of [size] bytes at a physical address. *)
Definition load_bytes (m : Machine) (pa size : Z) : outcome Z :=
  if size =? 1 then Ok (i8 (mem_byte m pa))
  else if size =? 2 then Ok (ShortToHost (mem_byte m pa + 256 * mem_byte m (pa + 1)))
  else if size =? 4 then
    Ok (i32 (WordToHost (unle32 (mem_byte m pa) (mem_byte m (pa + 1))
                                (mem_byte m (pa + 2)) (mem_byte m (pa + 3)))))
  else AssertFail.

Definition store_bytes (m : Machine) (pa size value : Z) : outcome Machine :=
  if size =? 1 then Ok (put_byte m pa (u8 (Z.land value 255)))
  else if size =? 2 then
    let v := ShortToMachine (u16 (Z.land value 65535)) in
    Ok (put_byte (put_byte m pa (u8 v)) (pa + 1) (u8 (v / 256)))
  else if size =? 4 then
    let v := WordToMachine (u32 value) in
    Ok (put_byte (put_byte (put_byte (put_byte m pa (u8 v))
          (pa + 1) (u8 (v / 256))) (pa + 2) (u8 (v / 65536))) (pa + 3) (u8 (v / 16777216)))
  else AssertFail.

(** [Machine::DelayedLoad] (machine/mipssim.cc). *)
Definition DelayedLoad (m : Machine) (nextReg nextValue : Z) : outcome Machine :=
  lr ← arr_get (registers m) LoadReg;
  lv ← arr_get (registers m) LoadValueReg;
  r1 ← arr_set (registers m) lr lv;
  r2 ← arr_set r1 LoadReg nextReg;
  r3 ← arr_set r2 LoadValueReg nextValue;
  r4 ← arr_set r3 0 0;
  Ok (set_regs m r4).

Section trap.
(** The kernel entry point, userprog/exception.cc. *)
Variable ExceptionHandler : ExceptionType → Machine → outcome Machine.

Definition RaiseException (m : Machine) (which : ExceptionType) (badVAddr : Z)
    : outcome Machine :=
  r ← arr_set (registers m) BadVAddrReg badVAddr;
  m1 ← DelayedLoad (set_regs m r) 0 0;
  m2 ← ExceptionHandler which (set_status m1 SystemMode);
  Ok (set_status m2 UserMode).

(** [None] is the return value FALSE, after the trap was taken. *)
Definition ReadMem (m : Machine) (addr size : Z) : outcome (option Z * Machine) :=
  '(ex, pa, m1) ← Translate m addr size false;
  if decide (ex = NoException) then
    v ← load_bytes m1 pa size; Ok (Some v, m1)
  else m2 ← RaiseException m1 ex addr; Ok (None, m2).

Definition WriteMem (m : Machine) (addr size value : Z) : outcome (bool * Machine) :=
  '(ex, pa, m1) ← Translate m addr size true;
  if decide (ex = NoException) then
    m2 ← store_bytes m1 pa size value; Ok (true, m2)
  else m2 ← RaiseException m1 ex addr; Ok (false, m2).
End trap.

(** ** Well-formed translation state *)

Definition entry_wf (e : TranslationEntry) : Prop := is_u32 (physicalPage e).

(** The machine runs on a linear page table that is live and as long as the
    machine believes. *)
Definition mmu_wf (m : Machine) : Prop :=
  tlb m = None ∧ ∃ p pt, pageTable m = Some p ∧ ptables m !! p = Some pt ∧
    pageTableSize m = Z.of_nat (length pt) ∧ Forall entry_wf pt.

Definition access_size (size : Z) : Prop := size = 1 ∨ size = 2 ∨ size = 4.

(** The mapping the page table defines, independently of the code's order of
    checks. *)
Definition page_map (pt : list TranslationEntry) (writing : bool) (va pa : Z) : Prop :=
  ∃ e, pt !! Z.to_nat (u32 va / PageSize) = Some e ∧ valid e = true ∧
    (writing = true → readOnly e = false) ∧ physicalPage e < NumPhysPages ∧
    pa = physicalPage e * PageSize + u32 va mod PageSize.

Lemma land_ones_mod z n : 0 ≤ n → Z.land z (2 ^ n - 1) = z mod 2 ^ n.
Proof. intros. replace (2 ^ n - 1) with (Z.ones n) by (rewrite Z.ones_equiv; lia).
  by apply Z.land_ones. Qed.
Lemma land_3_mod z : Z.land z 3 = z mod 4.
Proof. apply (land_ones_mod z 2). lia. Qed.
Lemma land_1_mod z : Z.land z 1 = z mod 2.
Proof. apply (land_ones_mod z 1). lia. Qed.
Lemma land_255_mod z : Z.land z 255 = z mod 256.
Proof. apply (land_ones_mod z 8). lia. Qed.
Lemma land_65535_mod z : Z.land z 65535 = z mod 65536.
Proof. apply (land_ones_mod z 16). lia. Qed.

Lemma aligned_offset va size : access_size size → misaligned va size = false →
  u32 va mod PageSize + size ≤ PageSize.
Proof.
  unfold misaligned, PageSize, SectorSize, u32, two32. rewrite land_3_mod, land_1_mod.
  intros [->|[->| ->]]; simpl; rewrite ?orb_false_r, ?andb_true_l; intros Ha; zbool; zcases.
Qed.

Lemma phys_in_memory f off size : 0 ≤ f < NumPhysPages → 0 ≤ off → 0 < size →
  off + size ≤ PageSize →
  0 ≤ f * PageSize + off ∧ f * PageSize + off + size ≤ MemorySize.
Proof. unfold MemorySize, NumPhysPages, PageSize, SectorSize. lia. Qed.

Section translate.
Implicit Types m : Machine.

Lemma touch_wf e w : entry_wf e → entry_wf (touch e w).
Proof. done. Qed.

Lemma store_entry_wf m p i e : mmu_wf m → entry_wf e → pageTable m = Some p →
  mmu_wf (store_entry m (InTable p i) e).
Proof.
  intros (Ht & p' & pt & Hp & Hpt & Hsz & Hf) He Hpp.
  rewrite Hpp in Hp. injection Hp as <-.
  split; [done|]. exists p, (<[i := e]> pt). simpl.
  rewrite lookup_alter_eq, Hpt. split_and!; try done; [by rewrite length_insert|].
  by apply Forall_insert.
Qed.

(** Every access of 1, 2 or 4 bytes through a live page table is decided:
    either an exception is reported and nothing changes, or the address is
    the one the page table defines, inside main memory. *)
Lemma Translate_spec m va size writing : mmu_wf m → access_size size →
  (∃ ex, ex ≠ NoException ∧ Translate m va size writing = Ok (ex, 0, m)) ∨
  ∃ p pt pa e m', pageTable m = Some p ∧ ptables m !! p = Some pt ∧
    Translate m va size writing = Ok (NoException, pa, m') ∧
    page_map pt writing va pa ∧ 0 ≤ pa ∧ pa + size ≤ MemorySize ∧
    pt !! Z.to_nat (u32 va / PageSize) = Some e ∧
    m' = store_entry m (InTable p (Z.to_nat (u32 va / PageSize))) (touch e writing).
Proof.
  intros (Ht & p & pt & Hp & Hpt & Hsz & Hf) Hs. unfold Translate.
  destruct (misaligned va size) eqn:Ha; [left; by exists AddressErrorException|].
  unfold lookup_entry. rewrite Ht, Hp. simpl.
  destruct (Z.leb_spec (pageTableSize m) (u32 va / PageSize)) as [|Hv];
    [left; by exists AddressErrorException|]. rewrite Hpt.
  pose proof (u32_range va) as Hu. unfold is_u32, two32 in Hu.
  destruct (arr_get_in pt (u32 va / PageSize)) as [e He];
    [unfold PageSize, SectorSize in *; zcases|].
  rewrite He. simpl. destruct (valid e) eqn:Hval; simpl;
    [|left; by exists PageFaultException].
  destruct (readOnly e && writing) eqn:Hro; [left; by exists ReadOnlyException|].
  destruct (Z.leb_spec NumPhysPages (physicalPage e)); [left; by exists BusErrorException|].
  apply arr_get_Ok in He as [_ He].
  assert (entry_wf e) as Hew by (by eapply Forall_lookup_1). unfold entry_wf, is_u32 in Hew.
  destruct (phys_in_memory (physicalPage e) (u32 va mod PageSize) size)
    as [Hlo Hhi]; [lia| unfold PageSize, SectorSize; zcases
    | destruct Hs as [->|[->| ->]]; lia | by apply aligned_offset|].
  right. eexists p, pt, _, e, _. split_and!; try done.
  - rewrite (proj2 (Z.leb_le _ _) Hlo), (proj2 (Z.leb_le _ _) Hhi). done.
  - exists e. split_and!; try done. intros ->. by rewrite andb_true_r in Hro.
Qed.

Lemma Translate_mmu_wf m va size writing ex pa m' : mmu_wf m → access_size size →
  Translate m va size writing = Ok (ex, pa, m') → mmu_wf m'.
Proof.
  intros Hwf Hs E. destruct (Translate_spec m va size writing Hwf Hs)
    as [(?&?&E')|(p & pt & ? & e & ? & Hp & Hpt & E' & _ & _ & _ & He & ->)];
    rewrite E in E'; simplify_eq; [done|].
  apply store_entry_wf; try done. apply touch_wf.
  destruct Hwf as (_ & p' & pt' & Hp' & Hpt' & _ & Hf).
  rewrite Hp in Hp'. injection Hp' as <-. rewrite Hpt in Hpt'. injection Hpt' as <-.
  by eapply Forall_lookup_1.
Qed.
End translate.

Section access.
Implicit Types m : Machine.

Lemma Translate_complete m va size writing p pt pa :
  mmu_wf m → access_size size → misaligned va size = false →
  pageTable m = Some p → ptables m !! p = Some pt → page_map pt writing va pa →
  ∃ m', Translate m va size writing = Ok (NoException, pa, m') ∧
    mainMemory m' = mainMemory m ∧ registers m' = registers m.
Proof.
  intros (Ht & p' & pt' & Hp & Hpt & Hsz & Hf) Hs Ha Hp' Hpt'
    (e & He & Hval & Hro & Hph & ->).
  rewrite Hp' in Hp. injection Hp as <-. rewrite Hpt' in Hpt. injection Hpt as <-.
  pose proof (u32_range va) as Hu. unfold is_u32, two32 in Hu.
  pose proof (lookup_lt_Some _ _ _ He) as Hlt.
  unfold Translate. rewrite Ha. unfold lookup_entry. rewrite Ht, Hp'. simpl.
  assert (0 ≤ u32 va / PageSize) by (unfold PageSize, SectorSize; zcases).
  destruct (Z.leb_spec (pageTableSize m) (u32 va / PageSize)); [lia|]. rewrite Hpt'.
  rewrite (proj2 (arr_get_Ok pt _ e)) by (split; done). simpl. rewrite Hval. simpl.
  replace (readOnly e && writing) with false
    by (destruct writing; [rewrite Hro|rewrite andb_false_r]; done).
  destruct (Z.leb_spec NumPhysPages (physicalPage e)); [lia|].
  assert (entry_wf e) as Hew by (by eapply Forall_lookup_1). unfold entry_wf, is_u32 in Hew.
  destruct (phys_in_memory (physicalPage e) (u32 va mod PageSize) size)
    as [Hlo Hhi]; [lia| unfold PageSize, SectorSize; zcases
    | destruct Hs as [->|[->| ->]]; lia | by apply aligned_offset|].
  rewrite (proj2 (Z.leb_le _ _) Hlo), (proj2 (Z.leb_le _ _) Hhi). simpl. eauto.
Qed.

(** What a [size]-byte load returns of a stored value. *)
Definition loaded (size v : Z) : Z :=
  if size =? 1 then i8 v else if size =? 2 then u16 v else i32 v.

Lemma mem_byte_put_eq m a v : mem_byte (put_byte m a v) a = v.
Proof. unfold mem_byte, put_byte. simpl. by rewrite lookup_insert_eq. Qed.
Lemma mem_byte_put_ne m a b v : a ≠ b → mem_byte (put_byte m a v) b = mem_byte m b.
Proof. intros. unfold mem_byte, put_byte. simpl. by rewrite lookup_insert_ne. Qed.

Lemma load_store m pa size v : access_size size →
  ∃ m', store_bytes m pa size v = Ok m' ∧
    load_bytes m' pa size = Ok (loaded size v) ∧
    ptables m' = ptables m ∧ pageTable m' = pageTable m ∧ tlb m' = tlb m ∧
    pageTableSize m' = pageTableSize m ∧ registers m' = registers m ∧
    ∀ a, ¬ (pa ≤ a < pa + size) → mem_byte m' a = mem_byte m a.
Proof.
  unfold store_bytes, load_bytes, loaded, ShortToHost, ShortToMachine, ShortToHost,
    WordToMachine, WordToHost.
  rewrite land_255_mod, land_65535_mod.
  intros [->|[->| ->]]; simpl; eexists; split_and!; try done;
    intros; repeat (rewrite ?mem_byte_put_eq; rewrite ?mem_byte_put_ne by lia); try done.
  - f_equal. unfold i8, u8. zcases.
  - f_equal. unfold u16, u8. zcases.
  - f_equal. rewrite unle32_le32 by apply u32_range. apply i32_u32.
Qed.

Lemma load_bytes_mem m1 m2 pa size : mainMemory m1 = mainMemory m2 →
  load_bytes m1 pa size = load_bytes m2 pa size.
Proof. intros E. unfold load_bytes, mem_byte. by rewrite E. Qed.

Lemma page_map_touch pt va pa e :
  pt !! Z.to_nat (u32 va / PageSize) = Some e → page_map pt true va pa →
  page_map (<[Z.to_nat (u32 va / PageSize) := touch e true]> pt) false va pa.
Proof.
  intros He (e' & He' & ? & ? & ? & ->). rewrite He in He'. injection He' as <-.
  exists (touch e true). split_and!; try done.
  apply list_lookup_insert_eq. by eapply lookup_lt_Some.
Qed.

Context (ExceptionHandler : ExceptionType → Machine → outcome Machine).

Lemma WriteMem_inv m va size v m1 : mmu_wf m → access_size size →
  WriteMem ExceptionHandler m va size v = Ok (true, m1) →
  misaligned va size = false ∧ ∃ p pt pa e m',
    pageTable m = Some p ∧ ptables m !! p = Some pt ∧ page_map pt true va pa ∧
    pt !! Z.to_nat (u32 va / PageSize) = Some e ∧
    m' = store_entry m (InTable p (Z.to_nat (u32 va / PageSize))) (touch e true) ∧
    store_bytes m' pa size v = Ok m1.
Proof.
  intros Hwf Hs Hw. split.
  { destruct (misaligned va size) eqn:Ha; [|done]. unfold WriteMem, Translate in Hw.
    rewrite Ha in Hw. simpl in Hw. by inv_ok. }
  destruct (Translate_spec m va size true Hwf Hs)
    as [(ex & Hex & E)|(p & pt & pa & e & m' & Hp & Hpt & E & Hm & Hlo & Hhi & He & ->)];
    unfold WriteMem in Hw; rewrite E in Hw; simpl in Hw.
  - rewrite decide_False in Hw by done. by inv_ok.
  - destruct (store_bytes _ pa size v) as [m2| | |] eqn:Es; simpl in Hw; inv_ok.
    by eauto 12.
Qed.
End access.

(** a successful store through the MMU is what the next load of the same
    virtual address returns, for each access width (sign-extended byte,
    unsigned half-word, word), whatever the trap handler does. *)
Theorem WriteMem_ReadMem (h : ExceptionType → Machine → outcome Machine)
    (m : Machine) (va size v : Z) (m1 : Machine) :
  mmu_wf m → access_size size → WriteMem h m va size v = Ok (true, m1) →
  ∃ m2, ReadMem h m1 va size = Ok (Some (loaded size v), m2).
Proof.
  intros Hwf Hs Hw.
  destruct (WriteMem_inv h m va size v m1 Hwf Hs Hw)
    as (Ha & p & pt & pa & e & m' & Hp & Hpt & Hm & He & -> & Hst).
  set (i := Z.to_nat (u32 va / PageSize)) in *.
  set (m' := store_entry m (InTable p i) (touch e true)) in *.
  assert (mmu_wf m') as Hwf'.
  { apply store_entry_wf; try done.
    destruct Hwf as (_ & p' & pt' & Hp' & Hpt' & _ & Hf).
    rewrite Hp in Hp'. injection Hp' as <-. rewrite Hpt in Hpt'. injection Hpt' as <-.
    by eapply (Forall_lookup_1 entry_wf) in He. }
  destruct (load_store m' pa size v Hs)
    as (m1' & Hst' & Hld & Hpts & Hpte & Htlb & Hsz & Hrg & _).
  rewrite Hst in Hst'. injection Hst' as <-.
  destruct (Translate_complete m1 va size false p (<[i := touch e true]> pt) pa)
    as (m2 & HT & Hmem & _); try done.
  - destruct Hwf' as (? & q & qt & ? & ? & ? & ?). split; [congruence|].
    exists q, qt. rewrite Hpte, Hpts, Hsz. done.
  - by rewrite Hpte.
  - rewrite Hpts. simpl. by rewrite lookup_alter_eq, Hpt.
  - by apply page_map_touch.
  - exists m2. unfold ReadMem. rewrite HT. simpl.
    rewrite (load_bytes_mem m2 m1 pa size Hmem), Hld. done.
Qed.

(** One writable page at virtual page 1, mapped to frame 5. *)
Definition demo_mmu : Machine :=
  mkMachine ∅ (replicate 40 0) None (Some 0%nat) 2
    {[ 0%nat := [mkTE 0 7 false false false false; mkTE 1 5 true false false false] ]}
    UserMode.

Lemma WriteMem_ReadMem_witness : ∃ m1 m2,
  WriteMem (λ _ m, Ok m) demo_mmu 200 4 (-2) = Ok (true, m1) ∧
  ReadMem (λ _ m, Ok m) m1 200 4 = Ok (Some (-2), m2).
Proof.
  eexists. edestruct (WriteMem_ReadMem (λ _ m, Ok m) demo_mmu 200 4 (-2)) as [m2 H].
  - split; [reflexivity|]. eexists 0%nat, _. split; [reflexivity|].
    split; [apply lookup_singleton_eq|]. split; [reflexivity|].
    repeat constructor; simpl; unfold two32; lia.
  - right; right; reflexivity.
  - vm_compute. reflexivity.
  - exists m2. split; [vm_compute; reflexivity|exact H].
Defined.
