(* ===== verification/Mips.v ===== *)
(** * machine/mipssim.h, machine/mipssim.cc: the MIPS R2/3000 simulator

    [Decode], [Mult] and [OneInstruction], one case per opcode of the source's
    switch.  Registers are [int]s; additions, subtractions and shifts wrap as
    on the host.  A trap enters the kernel through the parameter
    [ExceptionHandler] of Memory.v. *)
From S2P Require Import Prelude Memory.

Inductive opcode :=
| OP_ADD | OP_ADDI | OP_ADDIU | OP_ADDU | OP_AND | OP_ANDI | OP_BEQ | OP_BGEZ
| OP_BGEZAL | OP_BGTZ | OP_BLEZ | OP_BLTZ | OP_BLTZAL | OP_BNE | OP_DIV | OP_DIVU
| OP_J | OP_JAL | OP_JALR | OP_JR | OP_LB | OP_LBU | OP_LH | OP_LHU | OP_LUI | OP_LW
| OP_LWL | OP_LWR | OP_MFHI | OP_MFLO | OP_MTHI | OP_MTLO | OP_MULT | OP_MULTU
| OP_NOR | OP_OR | OP_ORI | OP_RFE | OP_SB | OP_SH | OP_SLL | OP_SLLV | OP_SLT
| OP_SLTI | OP_SLTIU | OP_SLTU | OP_SRA | OP_SRAV | OP_SRL | OP_SRLV | OP_SUB
| OP_SUBU | OP_SW | OP_SWL | OP_SWR | OP_XOR | OP_XORI | OP_SYSCALL | OP_UNIMP
| OP_RES | SPECIAL | BCOND.
#[global] Instance opcode_eq_dec : EqDecision opcode.
Proof. solve_decision. Defined.

Inductive op_format := IFMT | JFMT | RFMT.
#[global] Instance op_format_eq_dec : EqDecision op_format.
Proof. solve_decision. Defined.

Definition IndexToAddr (x : Z) : Z := i32 (Z.shiftl x 2).
Definition SIGN_BIT : Z := 2147483648.
Definition R31 : Z := 31.

Definition opTable : list (opcode * op_format) :=
  [ (SPECIAL, RFMT);  (BCOND, IFMT);    (OP_J, JFMT);     (OP_JAL, JFMT);
    (OP_BEQ, IFMT);   (OP_BNE, IFMT);   (OP_BLEZ, IFMT);  (OP_BGTZ, IFMT);
    (OP_ADDI, IFMT);  (OP_ADDIU, IFMT); (OP_SLTI, IFMT);  (OP_SLTIU, IFMT);
    (OP_ANDI, IFMT);  (OP_ORI, IFMT);   (OP_XORI, IFMT);  (OP_LUI, IFMT);
    (OP_UNIMP, IFMT); (OP_UNIMP, IFMT); (OP_UNIMP, IFMT); (OP_UNIMP, IFMT);
    (OP_RES, IFMT);   (OP_RES, IFMT);   (OP_RES, IFMT);   (OP_RES, IFMT);
    (OP_RES, IFMT);   (OP_RES, IFMT);   (OP_RES, IFMT);   (OP_RES, IFMT);
    (OP_RES, IFMT);   (OP_RES, IFMT);   (OP_RES, IFMT);   (OP_RES, IFMT);
    (OP_LB, IFMT);    (OP_LH, IFMT);    (OP_LWL, IFMT);   (OP_LW, IFMT);
    (OP_LBU, IFMT);   (OP_LHU, IFMT);   (OP_LWR, IFMT);   (OP_RES, IFMT);
    (OP_SB, IFMT);    (OP_SH, IFMT);    (OP_SWL, IFMT);   (OP_SW, IFMT);
    (OP_RES, IFMT);   (OP_RES, IFMT);   (OP_SWR, IFMT);   (OP_RES, IFMT);
    (OP_UNIMP, IFMT); (OP_UNIMP, IFMT); (OP_UNIMP, IFMT); (OP_UNIMP, IFMT);
    (OP_RES, IFMT);   (OP_RES, IFMT);   (OP_RES, IFMT);   (OP_RES, IFMT);
    (OP_UNIMP, IFMT); (OP_UNIMP, IFMT); (OP_UNIMP, IFMT); (OP_UNIMP, IFMT);
    (OP_RES, IFMT);   (OP_RES, IFMT);   (OP_RES, IFMT);   (OP_RES, IFMT) ].

Definition specialTable : list opcode :=
  [ OP_SLL;  OP_RES;   OP_SRL;  OP_SRA;  OP_SLLV;    OP_RES;   OP_SRLV; OP_SRAV;
    OP_JR;   OP_JALR;  OP_RES;  OP_RES;  OP_SYSCALL; OP_UNIMP; OP_RES;  OP_RES;
    OP_MFHI; OP_MTHI;  OP_MFLO; OP_MTLO; OP_RES;     OP_RES;   OP_RES;  OP_RES;
    OP_MULT; OP_MULTU; OP_DIV;  OP_DIVU; OP_RES;     OP_RES;   OP_RES;  OP_RES;
    OP_ADD;  OP_ADDU;  OP_SUB;  OP_SUBU; OP_AND;     OP_OR;    OP_XOR;  OP_NOR;
    OP_RES;  OP_RES;   OP_SLT;  OP_SLTU; OP_RES;     OP_RES;   OP_RES;  OP_RES;
    OP_RES;  OP_RES;   OP_RES;  OP_RES;  OP_RES;     OP_RES;   OP_RES;  OP_RES;
    OP_RES;  OP_RES;   OP_RES;  OP_RES;  OP_RES;     OP_RES;   OP_RES;  OP_RES ].

Record Instruction := mkInstr {
  ivalue : Z;
  opCode : opcode;
  rs : Z;
  rt : Z;
  rd : Z;
  extra : Z
}.

(** ** [Instruction::Decode] *)
Definition decode_extra (fmt : op_format) (value : Z) : Z :=
  match fmt with
  | IFMT =>
      let e := Z.land value 65535 in
      if negb (Z.land e 32768 =? 0) then i32 (Z.lor e 4294901760) else e
  | RFMT => Z.land (Z.shiftr value 6) 31
  | JFMT => Z.land value 67108863
  end.

Definition decode_op (op : opcode) (value : Z) : outcome opcode :=
  if decide (op = SPECIAL) then arr_get specialTable (Z.land value 63)
  else if decide (op = BCOND) then
    let i := Z.land value 2031616 in
    Ok (if i =? 0 then OP_BLTZ else if i =? 65536 then OP_BGEZ
        else if i =? 1048576 then OP_BLTZAL else if i =? 1114112 then OP_BGEZAL
        else OP_UNIMP)
  else Ok op.

Definition Decode (value : Z) : outcome Instruction :=
  '(op, fmt) ← arr_get opTable (Z.land (Z.shiftr value 26) 63);
  op' ← decode_op op value;
  Ok (mkInstr value op'
        (Z.land (Z.shiftr value 21) 31) (Z.land (Z.shiftr value 16) 31)
        (Z.land (Z.shiftr value 11) 31) (decode_extra fmt value)).

(** ** [Mult]: shift-and-add multiplication *)

(** The main loop, [n] iterations from the end, on the variables
    [(a, bLo, bHi, lo, hi)]; returns the final [(lo, hi)]. *)
Fixpoint mult_loop (n : nat) (a bLo bHi lo hi : Z) : Z * Z :=
  match n with
  | O => (lo, hi)
  | S n' =>
      let continue lo hi :=
        mult_loop n' (Z.shiftr a 1) (u32 (Z.shiftl bLo 1))
          (if negb (Z.land bLo 2147483648 =? 0) then Z.lor (u32 (Z.shiftl bHi 1)) 1
           else u32 (Z.shiftl bHi 1)) lo hi in
      if negb (Z.land a 1 =? 0) then
        let lo' := u32 (lo + bLo) in
        let hi' := u32 ((if lo' <? bLo then u32 (hi + 1) else hi) + bHi) in
        if Z.land (u32 a) 4294967294 =? 0 then (lo', hi') else continue lo' hi'
      else continue lo hi
  end.

(** Returns [( *hiPtr, *loPtr)]. *)
Definition Mult (a b : Z) (signedArith : bool) : Z * Z :=
  if (a =? 0) || (b =? 0) then (0, 0) else
  let '(neg1, a1) := if signedArith && (a <? 0) then (true, i32 (- a)) else (false, a) in
  let '(neg2, b1) := if signedArith && (b <? 0) then (negb neg1, i32 (- b)) else (neg1, b) in
  let '(lo, hi) := mult_loop 32 a1 (u32 b1) 0 0 0 in
  let '(lo, hi) :=
    if neg2 : bool then
      let hi := u32 (Z.lnot hi) in
      let lo := u32 (Z.lnot lo + 1) in
      (lo, if lo =? 0 then u32 (hi + 1) else hi)
    else (lo, hi) in
  (i32 hi, i32 lo).

(** ** Correctness of [Mult] *)
Definition two64 : Z := 18446744073709551616.
Definition dword (hi lo : Z) : Z := hi * two32 + lo.

Lemma land_bit31 w : is_u32 w → (Z.land w 2147483648 =? 0) = (w <? two31).
Proof.
  intros Hw. unfold is_u32, two32, two31 in *.
  replace (Z.land w 2147483648) with (w / 2147483648 * 2147483648).
  - assert (0 ≤ w / 2147483648 ≤ 1) by zcases.
    destruct (Z.ltb_spec w 2147483648), (Z.eqb_spec (w / 2147483648 * 2147483648) 0); zcases.
  - change 2147483648 with (2 ^ 31). rewrite <- Z.shiftr_div_pow2, <- Z.shiftl_mul_pow2 by lia.
    apply Z.bits_inj'. intros k Hk. rewrite Z.land_spec, Z.pow2_bits_eqb by lia.
    destruct (decide (k < 31)); [rewrite Z.shiftl_spec_low by lia|].
    + destruct (Z.eqb_spec 31 k); [lia|by rewrite andb_false_r].
    + rewrite Z.shiftl_spec, Z.shiftr_spec by lia. replace (k - 31 + 31) with k by lia.
      destruct (Z.eqb_spec 31 k); [by rewrite andb_true_r|].
      rewrite andb_false_r. destruct (decide (w = 0)) as [->|]; [apply Z.bits_0|].
      apply Z.bits_above_log2; [lia|]. assert (Z.log2 w < 32); [|lia].
      apply Z.log2_lt_pow2; lia.
Qed.

Lemma lor_1_even z : z mod 2 = 0 → Z.lor z 1 = z + 1.
Proof.
  intros Hz. rewrite Z.add_nocarry_lxor, Z.lxor_lor; try done;
    rewrite land_1_mod; done.
Qed.

Lemma land_fffffffe w : is_u32 w → (Z.land w 4294967294 =? 0) = (w <=? 1).
Proof.
  intros Hw. unfold is_u32, two32 in Hw.
  assert (Z.land w 4294967294 = w / 2 * 2) as ->.
  { transitivity (Z.ldiff (Z.land w (Z.ones 32)) (Z.ones 1)).
    - change 4294967294 with (Z.ldiff (Z.ones 32) (Z.ones 1)).
      apply Z.bits_inj'. intros k _. rewrite !Z.land_spec, !Z.ldiff_spec, Z.land_spec.
      by rewrite andb_assoc.
    - rewrite Z.land_ones, Z.mod_small by lia.
      rewrite Z.ldiff_ones_r, Z.shiftl_mul_pow2, Z.shiftr_div_pow2 by lia. done. }
  destruct (Z.leb_spec w 1), (Z.eqb_spec (w / 2 * 2) 0); zcases.
Qed.

(** Doubling the 64-bit multiplicand held in two words. *)
Lemma double_dword bHi bLo : is_u32 bHi → is_u32 bLo →
  let bHi' := if negb (Z.land bLo 2147483648 =? 0) then Z.lor (u32 (Z.shiftl bHi 1)) 1
              else u32 (Z.shiftl bHi 1) in
  let bLo' := u32 (Z.shiftl bLo 1) in
  is_u32 bHi' ∧ is_u32 bLo' ∧ dword bHi' bLo' = (2 * dword bHi bLo) mod two64.
Proof.
  intros Hh Hl. cbv zeta. rewrite land_bit31 by done. rewrite !Z.shiftl_mul_pow2 by lia.
  rewrite lor_1_even by (unfold u32, two32; zcases).
  unfold dword, is_u32, u32, two31, two32, two64 in *.
  destruct (Z.ltb_spec bLo 2147483648); simpl negb; cbv iota; zcases.
Qed.

Lemma eqm64 x y : (∃ k, x = y + k * two64) → x mod two64 = y mod two64.
Proof. intros [k ->]. apply Z.mod_add. done. Qed.

(** One addition of the multiplicand into the accumulator, with its carry. *)
Lemma add_dword hi lo bHi bLo : is_u32 hi → is_u32 lo → is_u32 bHi → is_u32 bLo →
  let lo' := u32 (lo + bLo) in
  let hi' := u32 ((if lo' <? bLo then u32 (hi + 1) else hi) + bHi) in
  is_u32 lo' ∧ is_u32 hi' ∧ dword hi' lo' = (dword hi lo + dword bHi bLo) mod two64.
Proof.
  intros ????. cbv zeta. split; [apply u32_range|]. split; [apply u32_range|].
  unfold dword, is_u32, u32, two32, two64 in *.
  destruct (Z.ltb_spec ((lo + bLo) mod 4294967296) bLo); zcases.
Qed.

Lemma mod_pow2_step a n : 0 ≤ n → a mod 2 ^ (n + 1) = a mod 2 + 2 * ((a / 2) mod 2 ^ n).
Proof.
  intros. rewrite Z.add_comm, Z.pow_add_r by lia. change (2 ^ 1) with 2.
  rewrite Z.rem_mul_r by (pose proof (Z.pow_pos_nonneg 2 n); lia). done.
Qed.

Lemma mult_loop_spec n a bLo bHi lo hi : (n ≤ 32)%nat →
  is_u32 bLo → is_u32 bHi → is_u32 lo → is_u32 hi →
  let '(lo', hi') := mult_loop n a bLo bHi lo hi in
  is_u32 lo' ∧ is_u32 hi' ∧
  dword hi' lo' mod two64 =
    (dword hi lo + (a mod 2 ^ Z.of_nat n) * dword bHi bLo) mod two64.
Proof.
  revert a bLo bHi lo hi. induction n as [|n IH]; intros a bLo bHi lo hi Hn HbL HbH Hlo Hhi.
  - simpl. split_and!; try done. by rewrite Z.mod_1_r, Z.mul_0_l, Z.add_0_r.
  - cbn [mult_loop]. rewrite land_1_mod, Z.shiftr_div_pow2 by lia. change (2 ^ 1) with 2.
    destruct (double_dword bHi bLo HbH HbL) as (HbH' & HbL' & Hd).
    replace (Z.of_nat (S n)) with (Z.of_nat n + 1) by lia.
    rewrite mod_pow2_step by lia.
    destruct (Z.eqb_spec (a mod 2) 0) as [E|E]; simpl negb; cbv iota.
    + specialize (IH (a / 2) _ _ lo hi ltac:(lia) HbL' HbH' Hlo Hhi).
      destruct (mult_loop n _ _ _ lo hi) as [lo' hi']. destruct IH as (? & ? & IH).
      split_and!; try done. rewrite IH, Hd, E.
      rewrite <- Zplus_mod_idemp_r, Zmult_mod_idemp_r, Zplus_mod_idemp_r. f_equal. ring.
    + assert (a mod 2 = 1) as E1 by zcases.
      destruct (add_dword hi lo bHi bLo Hhi Hlo HbH HbL) as (Hlo1 & Hhi1 & Ha).
      set (lo1 := u32 (lo + bLo)) in *.
      set (hi1 := u32 ((if lo1 <? bLo then u32 (hi + 1) else hi) + bHi)) in *.
      rewrite land_fffffffe by apply u32_range.
      destruct (Z.leb_spec (u32 a) 1) as [Hle|Hgt].
      * assert ((a / 2) mod 2 ^ Z.of_nat n = 0) as ->.
        { assert (∃ k, a / 2 = 2 ^ Z.of_nat n * k) as [k ->];
            [|rewrite Z.mul_comm; apply Z.mod_mul; pose proof (Z.pow_pos_nonneg 2 (Z.of_nat n)); lia].
          exists (2 ^ (31 - Z.of_nat n) * (a / two32)).
          rewrite Z.mul_assoc, <- Z.pow_add_r by lia.
          replace (Z.of_nat n + (31 - Z.of_nat n)) with 31 by lia.
          unfold u32, two32 in *. change (2 ^ 31) with 2147483648. zcases. }
        split_and!; try done. rewrite E1, Ha, Z.mod_mod by done. f_equal. ring.
      * specialize (IH (a / 2) _ _ lo1 hi1 ltac:(lia) HbL' HbH' Hlo1 Hhi1).
        destruct (mult_loop n _ _ _ lo1 hi1) as [lo' hi']. destruct IH as (? & ? & IH).
        split_and!; try done. rewrite IH, Hd, E1, Ha.
        rewrite Zplus_mod_idemp_l.
        rewrite <- Zplus_mod_idemp_r, Zmult_mod_idemp_r, Zplus_mod_idemp_r. f_equal. ring.
Qed.

Lemma mult_loop_32 a b : is_u32 b →
  let '(lo, hi) := mult_loop 32 a b 0 0 0 in
  is_u32 lo ∧ is_u32 hi ∧ dword hi lo = u32 a * b.
Proof.
  intros Hb. pose proof (mult_loop_spec 32 a b 0 0 0 ltac:(lia) Hb) as H.
  destruct (mult_loop 32 a b 0 0 0) as [lo hi].
  destruct H as (Hlo & Hhi & H); try (unfold is_u32, two32; lia).
  split_and!; try done. change (2 ^ Z.of_nat 32) with two32 in H. fold (u32 a) in H.
  pose proof (u32_range a). unfold dword, is_u32, two32, two64 in *.
  rewrite !Z.mod_small in H by nia. nia.
Qed.

Lemma negate_dword hi lo : is_u32 hi → is_u32 lo →
  let hi' := u32 (Z.lnot hi) in
  let lo' := u32 (Z.lnot lo + 1) in
  let hi'' := if lo' =? 0 then u32 (hi' + 1) else hi' in
  is_u32 lo' ∧ is_u32 hi'' ∧ dword hi'' lo' = (- dword hi lo) mod two64.
Proof.
  intros ??. cbv zeta. split; [apply u32_range|]. unfold Z.lnot, Z.pred.
  destruct (Z.eqb_spec (u32 (- lo + -1 + 1)) 0) as [E|E]; (split; [apply u32_range|]);
    unfold dword, is_u32, u32, two32, two64 in *; zcases.
Qed.

Lemma i32_hi_dword hi lo x : is_u32 hi → is_u32 lo →
  dword hi lo = x mod two64 → - (two64 / 2) ≤ x < two64 / 2 →
  i32 hi * two32 + u32 (i32 lo) = x.
Proof.
  intros Hh Hl. rewrite u32_i32, (u32_id lo) by done.
  unfold dword, is_u32, i32, two31, two32, two64 in *. intros. zcases.
Qed.

Lemma u32_abs a : is_i32 a → a < 0 → u32 (i32 (- a)) = - a.
Proof. intros ??. rewrite u32_i32. apply u32_id. unfold is_u32, is_i32, two31, two32 in *. lia. Qed.

Lemma Mult_signed a b : is_i32 a → is_i32 b →
  (Mult a b true).1 * two32 + u32 (Mult a b true).2 = a * b.
Proof.
  intros Ha Hb. unfold Mult.
  destruct (Z.eqb_spec a 0) as [->|Hna]; [done|].
  destruct (Z.eqb_spec b 0) as [->|Hnb]; [rewrite orb_true_r; change (u32 (0, 0).2) with 0; simpl; lia|].
  cbn [orb andb].
  set (a1 := if a <? 0 then (true, i32 (- a)) else (false, a)).
  assert (a1.1 = (a <? 0) ∧ u32 a1.2 = Z.abs a) as [Ea1 Ea2].
  { subst a1. destruct (Z.ltb_spec a 0); simpl; (split; [done|]).
    - rewrite u32_abs by done. lia.
    - rewrite u32_id; unfold is_u32, is_i32, two31, two32 in *; lia. }
  destruct a1 as [neg1 a1]. simpl in Ea1, Ea2. subst neg1.
  set (b1 := if b <? 0 then (negb (a <? 0), i32 (- b)) else (a <? 0, b)).
  assert (b1.1 = (a * b <? 0) ∧ u32 b1.2 = Z.abs b) as [Eb1 Eb2].
  { subst b1. destruct (Z.ltb_spec b 0); simpl.
    - rewrite u32_abs by done. split; [|lia].
      destruct (Z.ltb_spec a 0), (Z.ltb_spec (a * b) 0); try done; nia.
    - split; [destruct (Z.ltb_spec a 0), (Z.ltb_spec (a * b) 0); try done; nia|].
      rewrite u32_id; unfold is_u32, is_i32, two31, two32 in *; lia. }
  destruct b1 as [neg2 b1]. simpl in Eb1, Eb2. subst neg2.
  pose proof (mult_loop_32 a1 (u32 b1) (u32_range b1)) as Hm.
  destruct (mult_loop 32 a1 (u32 b1) 0 0 0) as [lo hi]. destruct Hm as (Hlo & Hhi & Hm).
  rewrite Ea2, Eb2, <- Z.abs_mul in Hm.
  assert (- (two64 / 2) ≤ a * b < two64 / 2)
    by (change (two64 / 2) with 9223372036854775808; unfold is_i32, two31 in *; nia).
  destruct (Z.ltb_spec (a * b) 0) as [Hs|Hs].
  - destruct (negate_dword hi lo Hhi Hlo) as (Hl' & Hh' & Hd). cbn [fst snd].
    apply i32_hi_dword; [done..| |done]. rewrite Hd, Hm. f_equal. lia.
  - apply i32_hi_dword; [done..| |done]. rewrite Hm, Z.abs_eq by done.
    symmetry. apply Z.mod_small. change (two64 / 2) with 9223372036854775808 in *.
    unfold two64. lia.
Qed.

Lemma Mult_unsigned a b : is_i32 a → is_i32 b →
  u32 (Mult a b false).1 * two32 + u32 (Mult a b false).2 = u32 a * u32 b.
Proof.
  intros Ha Hb. unfold Mult.
  destruct (Z.eqb_spec a 0) as [->|Hna]; [done|].
  destruct (Z.eqb_spec b 0) as [->|Hnb]; [rewrite orb_true_r, Z.mul_0_r; done|].
  cbn [orb andb].
  pose proof (mult_loop_32 a (u32 b) (u32_range b)) as Hm.
  destruct (mult_loop 32 a (u32 b) 0 0 0) as [lo hi]. destruct Hm as (Hlo & Hhi & Hm).
  cbn [fst snd]. rewrite !u32_i32, !u32_id by done. exact Hm.
Qed.

(** C35: Mult leaves the exact 64-bit product in (hi, lo): as a signed
    two's-complement double word for MULT, as an unsigned one for MULTU, for
    all operands including INT_MIN. *)
Theorem Mult_correct (a b : Z) : is_i32 a → is_i32 b →
  (Mult a b true).1 * two32 + u32 (Mult a b true).2 = a * b ∧
  u32 (Mult a b false).1 * two32 + u32 (Mult a b false).2 = u32 a * u32 b.
Proof. intros Ha Hb. split; [by apply Mult_signed|by apply Mult_unsigned]. Qed.

Lemma Mult_correct_witness :
  (Mult (-2147483648) (-1) true).1 * two32 + u32 (Mult (-2147483648) (-1) true).2 = 2147483648.
Proof.
  apply (Mult_correct (-2147483648) (-1)); unfold is_i32, two31; lia.
Defined.
