(* ===== verification/Cpu.v ===== *)
(** * machine/mipssim.cc: [Machine::OneInstruction]

    The switch of [OneInstruction] is split at the boundaries of the source's
    alphabetical cases into [exec_*] functions that answer [None] for an opcode
    of another group. *)
From S2P Require Import Prelude Memory Mips.

Definition reg (m : Machine) (r : Z) : Z := nth (Z.to_nat r) (registers m) 0.
Definition setreg (m : Machine) (r v : Z) : Machine :=
  set_regs m (<[Z.to_nat r := v]> (registers m)).

(** [(x & SIGN_BIT) != 0] of an [int]. *)
Definition sign_set (x : Z) : bool := negb (Z.land (u32 x) SIGN_BIT =? 0).

(** How a case of the switch ends: it falls out of the switch with the values
    of [pcAfter], [nextLoadReg] and [nextLoadValue], or returns early after a
    trap. *)
Inductive exec_result :=
| Fallout (m : Machine) (pcAfter nextLoadReg nextLoadValue : Z)
| Returned (m : Machine).

Section exec.
Variable ExceptionHandler : ExceptionType → Machine → outcome Machine.
Abbreviation RaiseException := (RaiseException ExceptionHandler).
Abbreviation ReadMem := (ReadMem ExceptionHandler).
Abbreviation WriteMem := (WriteMem ExceptionHandler).

Definition raise (m : Machine) (which : ExceptionType) (bad : Z) : outcome exec_result :=
  m' ← RaiseException m which bad; Ok (Returned m').

(** A case that writes one register. *)
Definition write (m : Machine) (pcAfter r v : Z) : outcome exec_result :=
  Ok (Fallout (setreg m r v) pcAfter 0 0).

(** A conditional branch. *)
Definition branch (m : Machine) (pcAfter : Z) (taken : bool) (i : Instruction)
    : outcome exec_result :=
  Ok (Fallout m (if taken then i32 (reg m NextPCReg + IndexToAddr (extra i))
                 else pcAfter) 0 0).

Definition exec_add_jump (m : Machine) (i : Instruction) (pcAfter : Z)
    : option (outcome exec_result) :=
  let vs := reg m (rs i) in
  let vt := reg m (rt i) in
  match opCode i with
  | OP_ADD =>
      let sum := i32 (vs + vt) in
      Some (if negb (sign_set (Z.lxor vs vt)) && sign_set (Z.lxor vs sum)
            then raise m OverflowException 0 else write m pcAfter (rd i) sum)
  | OP_ADDI =>
      let sum := i32 (vs + extra i) in
      Some (if negb (sign_set (Z.lxor vs (extra i))) && sign_set (Z.lxor (extra i) sum)
            then raise m OverflowException 0 else write m pcAfter (rt i) sum)
  | OP_ADDIU => Some (write m pcAfter (rt i) (i32 (vs + extra i)))
  | OP_ADDU => Some (write m pcAfter (rd i) (i32 (vs + vt)))
  | OP_AND => Some (write m pcAfter (rd i) (Z.land vs vt))
  | OP_ANDI => Some (write m pcAfter (rt i) (Z.land vs (Z.land (extra i) 65535)))
  | OP_BEQ => Some (branch m pcAfter (vs =? vt) i)
  | OP_BGEZAL =>
      let m' := setreg m R31 (i32 (reg m NextPCReg + 4)) in
      Some (branch m' pcAfter (negb (sign_set (reg m' (rs i)))) i)
  | OP_BGEZ => Some (branch m pcAfter (negb (sign_set vs)) i)
  | OP_BGTZ => Some (branch m pcAfter (0 <? vs) i)
  | OP_BLEZ => Some (branch m pcAfter (vs <=? 0) i)
  | OP_BLTZAL =>
      let m' := setreg m R31 (i32 (reg m NextPCReg + 4)) in
      Some (branch m' pcAfter (sign_set (reg m' (rs i))) i)
  | OP_BLTZ => Some (branch m pcAfter (sign_set vs) i)
  | OP_BNE => Some (branch m pcAfter (negb (vs =? vt)) i)
  | OP_DIV =>
      Some (if vt =? 0 then
              Ok (Fallout (setreg (setreg m LoReg 0) HiReg 0) pcAfter 0 0)
            else if (vs =? - two31) && (vt =? -1) then Fault (* INT_MIN / -1 *)
            else
              let m1 := setreg m LoReg (Z.quot vs vt) in
              Ok (Fallout (setreg m1 HiReg (Z.rem (reg m1 (rs i)) (reg m1 (rt i))))
                    pcAfter 0 0))
  | OP_DIVU =>
      let us := u32 vs in
      let ut := u32 vt in
      Some (if ut =? 0 then
              Ok (Fallout (setreg (setreg m LoReg 0) HiReg 0) pcAfter 0 0)
            else Ok (Fallout (setreg (setreg m LoReg (i32 (us / ut)))
                                HiReg (i32 (us mod ut))) pcAfter 0 0))
  | OP_JAL =>
      let m' := setreg m R31 (i32 (reg m NextPCReg + 4)) in
      Some (Ok (Fallout m' (i32 (Z.lor (Z.land (u32 pcAfter) 4026531840)
                                       (IndexToAddr (extra i)))) 0 0))
  | OP_J =>
      Some (Ok (Fallout m (i32 (Z.lor (Z.land (u32 pcAfter) 4026531840)
                                      (IndexToAddr (extra i)))) 0 0))
  | OP_JALR =>
      let m' := setreg m (rd i) (i32 (reg m NextPCReg + 4)) in
      Some (Ok (Fallout m' (reg m' (rs i)) 0 0))
  | OP_JR => Some (Ok (Fallout m vs 0 0))
  | _ => None
  end.

(** Continue a load with the word read, or return after a fault. *)
Definition loading (m : Machine) (addr size : Z)
    (k : Machine → Z → outcome exec_result) : outcome exec_result :=
  '(v, m') ← ReadMem m addr size;
  match v with None => Ok (Returned m') | Some v => k m' v end.

(** The value a partial-word load merges into. *)
Definition merge_base (m : Machine) (i : Instruction) : Z :=
  if reg m LoadReg =? rt i then reg m LoadValueReg else reg m (rt i).

Definition lwl_value (sel base value : Z) : Z :=
  if sel =? 0 then value
  else if sel =? 1 then i32 (Z.lor (Z.land base 255) (Z.shiftl value 8))
  else if sel =? 2 then i32 (Z.lor (Z.land base 65535) (Z.shiftl value 16))
  else i32 (Z.lor (Z.land base 16777215) (Z.shiftl value 24)).

Definition lwr_value (sel base value : Z) : Z :=
  if sel =? 0 then i32 (Z.lor (Z.land (u32 base) 4294967040) (Z.land (Z.shiftr value 24) 255))
  else if sel =? 1 then
    i32 (Z.lor (Z.land (u32 base) 4294901760) (Z.land (Z.shiftr value 16) 65535))
  else if sel =? 2 then
    i32 (Z.lor (Z.land (u32 base) 4278190080) (Z.land (Z.shiftr value 8) 16777215))
  else value.

Definition exec_load (m : Machine) (i : Instruction) (pcAfter : Z)
    : option (outcome exec_result) :=
  let tmp := i32 (reg m (rs i) + extra i) in
  match opCode i with
  | OP_LB | OP_LBU =>
      Some (loading m tmp 1 (λ m' value,
        let value := if negb (Z.land value 128 =? 0) && bool_decide (opCode i = OP_LB)
                     then i32 (Z.lor (u32 value) 4294967040) else Z.land value 255 in
        Ok (Fallout m' pcAfter (rt i) value)))
  | OP_LH | OP_LHU =>
      Some (if negb (Z.land tmp 1 =? 0) then raise m AddressErrorException tmp else
        loading m tmp 2 (λ m' value,
        let value := if negb (Z.land value 32768 =? 0) && bool_decide (opCode i = OP_LH)
                     then i32 (Z.lor (u32 value) 4294901760) else Z.land value 65535 in
        Ok (Fallout m' pcAfter (rt i) value)))
  | OP_LUI => Some (write m pcAfter (rt i) (i32 (Z.shiftl (extra i) 16)))
  | OP_LW =>
      Some (if negb (Z.land tmp 3 =? 0) then raise m AddressErrorException tmp else
        loading m tmp 4 (λ m' value, Ok (Fallout m' pcAfter (rt i) value)))
  | OP_LWL =>
      Some (_ ← ASSERT (Z.land tmp 3 =? 0);
        loading m tmp 4 (λ m' value,
        Ok (Fallout m' pcAfter (rt i)
              (lwl_value (Z.land tmp 3) (merge_base m' i) value))))
  | OP_LWR =>
      Some (_ ← ASSERT (Z.land tmp 3 =? 0);
        loading m tmp 4 (λ m' value,
        Ok (Fallout m' pcAfter (rt i)
              (lwr_value (Z.land tmp 3) (merge_base m' i) value))))
  | _ => None
  end.

Definition exec_move_logic (m : Machine) (i : Instruction) (pcAfter : Z)
    : option (outcome exec_result) :=
  let vs := reg m (rs i) in
  let vt := reg m (rt i) in
  let set_hi_lo '(hi, lo) := Ok (Fallout (setreg (setreg m HiReg hi) LoReg lo) pcAfter 0 0) in
  match opCode i with
  | OP_MFHI => Some (write m pcAfter (rd i) (reg m HiReg))
  | OP_MFLO => Some (write m pcAfter (rd i) (reg m LoReg))
  | OP_MTHI => Some (write m pcAfter HiReg vs)
  | OP_MTLO => Some (write m pcAfter LoReg vs)
  | OP_MULT => Some (set_hi_lo (Mult vs vt true))
  | OP_MULTU => Some (set_hi_lo (Mult vs vt false))
  | OP_NOR => Some (write m pcAfter (rd i) (Z.lnot (Z.lor vs vt)))
  | OP_OR => Some (write m pcAfter (rd i) (Z.lor vs vt))
  | OP_ORI => Some (write m pcAfter (rt i) (Z.lor vs (Z.land (extra i) 65535)))
  | _ => None
  end.

Definition storing (m : Machine) (addr size value : Z) (pcAfter : Z) : outcome exec_result :=
  '(ok, m') ← WriteMem m (i32 addr) size value;
  Ok (if ok : bool then Fallout m' pcAfter 0 0 else Returned m').

Definition exec_store_shift (m : Machine) (i : Instruction) (pcAfter : Z)
    : option (outcome exec_result) :=
  let vs := reg m (rs i) in
  let vt := reg m (rt i) in
  match opCode i with
  | OP_SB => Some (storing m (vs + extra i) 1 vt pcAfter)
  | OP_SH => Some (storing m (vs + extra i) 2 vt pcAfter)
  | OP_SLL => Some (write m pcAfter (rd i) (i32 (Z.shiftl vt (extra i))))
  | OP_SLLV => Some (write m pcAfter (rd i) (i32 (Z.shiftl vt (Z.land vs 31))))
  | OP_SLT => Some (write m pcAfter (rd i) (if vs <? vt then 1 else 0))
  | OP_SLTI => Some (write m pcAfter (rt i) (if vs <? extra i then 1 else 0))
  | OP_SLTIU => Some (write m pcAfter (rt i) (if u32 vs <? u32 (extra i) then 1 else 0))
  | OP_SLTU => Some (write m pcAfter (rd i) (if u32 vs <? u32 vt then 1 else 0))
  | OP_SRA => Some (write m pcAfter (rd i) (Z.shiftr vt (extra i)))
  | OP_SRAV => Some (write m pcAfter (rd i) (Z.shiftr vt (Z.land vs 31)))
  | OP_SRL => Some (write m pcAfter (rd i) (i32 (Z.shiftr (u32 vt) (extra i))))
  | OP_SRLV => Some (write m pcAfter (rd i) (i32 (Z.shiftr (u32 vt) (Z.land vs 31))))
  | OP_SUB =>
      let diff := i32 (vs - vt) in
      Some (if sign_set (Z.lxor vs vt) && sign_set (Z.lxor vs diff)
            then raise m OverflowException 0 else write m pcAfter (rd i) diff)
  | OP_SUBU => Some (write m pcAfter (rd i) (i32 (vs - vt)))
  | OP_SW => Some (storing m (vs + extra i) 4 vt pcAfter)
  | _ => None
  end.

Definition swl_value (sel value vt : Z) : Z :=
  if sel =? 0 then vt
  else if sel =? 1 then
    i32 (Z.lor (Z.land (u32 value) 4278190080) (Z.land (Z.shiftr vt 8) 16777215))
  else if sel =? 2 then
    i32 (Z.lor (Z.land (u32 value) 4294901760) (Z.land (Z.shiftr vt 16) 65535))
  else i32 (Z.lor (Z.land (u32 value) 4294967040) (Z.land (Z.shiftr vt 24) 255)).

Definition swr_value (sel value vt : Z) : Z :=
  if sel =? 0 then i32 (Z.lor (Z.land value 16777215) (Z.shiftl vt 24))
  else if sel =? 1 then i32 (Z.lor (Z.land value 65535) (Z.shiftl vt 16))
  else if sel =? 2 then i32 (Z.lor (Z.land value 255) (Z.shiftl vt 8))
  else vt.

Definition exec_partial_store (m : Machine) (i : Instruction) (pcAfter : Z)
    : option (outcome exec_result) :=
  let tmp := i32 (reg m (rs i) + extra i) in
  let word := Z.land tmp (Z.lnot 3) in
  let go f :=
    Some (_ ← ASSERT (Z.land tmp 3 =? 0);
      loading m word 4 (λ m' value,
        storing m' word 4 (f (Z.land tmp 3) value (reg m' (rt i))) pcAfter)) in
  match opCode i with
  | OP_SWL => go swl_value
  | OP_SWR => go swr_value
  | _ => None
  end.

Definition exec_misc (m : Machine) (i : Instruction) (pcAfter : Z)
    : option (outcome exec_result) :=
  let vs := reg m (rs i) in
  match opCode i with
  | OP_SYSCALL => Some (raise m SyscallException 0)
  | OP_XOR => Some (write m pcAfter (rd i) (Z.lxor vs (reg m (rt i))))
  | OP_XORI => Some (write m pcAfter (rt i) (Z.lxor vs (Z.land (extra i) 65535)))
  | OP_RES | OP_UNIMP => Some (raise m IllegalInstrException 0)
  | _ => None
  end.

Definition first_some {A} (x y : option A) : option A :=
  match x with Some a => Some a | None => y end.

(** The whole switch; the [default] case asserts. *)
Definition exec (m : Machine) (i : Instruction) (pcAfter : Z) : outcome exec_result :=
  default AssertFail
    (first_some (exec_add_jump m i pcAfter)
    (first_some (exec_load m i pcAfter)
    (first_some (exec_move_logic m i pcAfter)
    (first_some (exec_store_shift m i pcAfter)
    (first_some (exec_partial_store m i pcAfter)
                (exec_misc m i pcAfter)))))).

(** After the switch: the delayed load, then the program counters. *)
Definition advance (m : Machine) (pcAfter nextLoadReg nextLoadValue : Z)
    : outcome Machine :=
  m1 ← DelayedLoad m nextLoadReg nextLoadValue;
  let m2 := setreg m1 PrevPCReg (reg m1 PCReg) in
  let m3 := setreg m2 PCReg (reg m2 NextPCReg) in
  Ok (setreg m3 NextPCReg pcAfter).

Definition OneInstruction (m : Machine) : outcome Machine :=
  '(raw, m1) ← ReadMem m (reg m PCReg) 4;
  match raw with
  | None => Ok m1
  | Some raw =>
      i ← Decode (u32 raw);
      let pcAfter := i32 (reg m1 NextPCReg + 4) in
      r ← exec m1 i pcAfter;
      match r with
      | Returned m2 => Ok m2
      | Fallout m2 pcAfter nlr nlv => advance m2 pcAfter nlr nlv
      end
  end.
End exec.

(** ** Closure of [int] under the host's bit operations *)
Section i32_bits.
Lemma is_i32_shiftr z : is_i32 z ↔ Z.shiftr z 31 = 0 ∨ Z.shiftr z 31 = -1.
Proof.
  rewrite Z.shiftr_div_pow2 by lia. change (2 ^ 31) with 2147483648.
  unfold is_i32, two31. split; [intros|intros [?|?]]; zcases.
Qed.
Lemma land_i32 a b : is_i32 a → is_i32 b → is_i32 (Z.land a b).
Proof. rewrite !is_i32_shiftr, Z.shiftr_land. by intros [-> | ->] [-> | ->]; auto. Qed.
Lemma lor_i32 a b : is_i32 a → is_i32 b → is_i32 (Z.lor a b).
Proof. rewrite !is_i32_shiftr, Z.shiftr_lor. by intros [-> | ->] [-> | ->]; auto. Qed.
Lemma lxor_i32 a b : is_i32 a → is_i32 b → is_i32 (Z.lxor a b).
Proof. rewrite !is_i32_shiftr, Z.shiftr_lxor. by intros [-> | ->] [-> | ->]; auto. Qed.
Lemma lnot_i32 a : is_i32 a → is_i32 (Z.lnot a).
Proof. unfold Z.lnot, is_i32, two31. lia. Qed.
Lemma land_low_i32 a n : 0 ≤ n < 31 → is_i32 (Z.land a (2 ^ n - 1)).
Proof.
  intros Hn. rewrite land_ones_mod by lia.
  assert (2 ^ n ≤ 2 ^ 30) by (apply Z.pow_le_mono_r; lia).
  change (2 ^ 30) with 1073741824 in *.
  pose proof (Z.mod_pos_bound a (2 ^ n)). pose proof (Z.pow_pos_nonneg 2 n).
  unfold is_i32, two31. lia.
Qed.
Lemma shiftr_i32 a n : is_i32 a → 0 ≤ n → is_i32 (Z.shiftr a n).
Proof.
  intros Ha Hn. rewrite Z.shiftr_div_pow2 by done. pose proof (Z.pow_pos_nonneg 2 n).
  unfold is_i32, two31 in *. split.
  - apply Z.div_le_lower_bound; nia.
  - apply Z.div_lt_upper_bound; nia.
Qed.
Lemma quot_rem_i32 a b : is_i32 a → is_i32 b → b ≠ 0 →
  ¬ (a = - two31 ∧ b = -1) → is_i32 (Z.quot a b) ∧ is_i32 (Z.rem a b).
Proof.
  intros Ha Hb Hnz Hov. unfold is_i32, two31 in *.
  pose proof (Z.quot_rem a b Hnz) as E.
  pose proof (Z.rem_bound_abs a b Hnz) as Hr.
  pose proof (Z.quot_abs a b Hnz) as Hq.
  assert (Z.abs a ÷ Z.abs b ≤ Z.abs a) by (apply Z.quot_le_upper_bound; nia).
  split; [|lia].
  destruct (decide (b = 1)) as [->|]; [rewrite Z.quot_1_r; lia|].
  destruct (decide (b = -1)) as [->|].
  { pose proof (Z.quot_opp_r a 1 ltac:(lia)) as Ho. rewrite Z.quot_1_r in Ho.
    change (- (1)) with (-1) in Ho. lia. }
  destruct (decide (a = 0)) as [->|]; [rewrite Z.quot_0_l; lia|].
  assert (Z.abs a ÷ Z.abs b < Z.abs a) by (apply Z.quot_lt; lia). lia.
Qed.
Lemma bool_i32 (c : bool) : is_i32 (if c then 1 else 0).
Proof. destruct c; unfold is_i32, two31; lia. Qed.
Lemma u16_i32 z : 0 ≤ z < 65536 → is_i32 z.
Proof. unfold is_i32, two31. lia. Qed.
End i32_bits.
#[export] Hint Resolve i32_range land_i32 lor_i32 lxor_i32 lnot_i32 shiftr_i32 bool_i32
  : nachos.

(** ** The CPU invariant *)

Definition mem_wf (m : Machine) : Prop := ∀ a, is_u8 (mem_byte m a).

(** Between two instructions register 0 is zero; inside an instruction it may
    be dirty until [DelayedLoad] resets it. *)
Record core_wf (m : Machine) : Prop := mkCoreWf {
  cw_mmu : mmu_wf m;
  cw_mem : mem_wf m;
  cw_len : length (registers m) = 40%nat;
  cw_i32 : Forall is_i32 (registers m);
  cw_load : 0 ≤ reg m LoadReg < 32
}.
Definition cpu_wf (m : Machine) : Prop := core_wf m ∧ reg m 0 = 0.

Definition exec_ok (r : exec_result) : Prop :=
  match r with
  | Fallout m pcAfter nlr nlv => core_wf m ∧ is_i32 pcAfter ∧ 0 ≤ nlr < 32 ∧ is_i32 nlv
  | Returned m => cpu_wf m
  end.

Record instr_wf (i : Instruction) : Prop := mkInstrWf {
  iw_rs : 0 ≤ rs i < 32;
  iw_rt : 0 ≤ rt i < 32;
  iw_rd : 0 ≤ rd i < 32;
  iw_extra : is_i32 (extra i)
}.

(** The operands on which the simulator itself gives up: the host division
    INT_MIN / -1 and the unaligned partial-word accesses its comments exclude. *)
Definition benign (m : Machine) (i : Instruction) : Prop :=
  (opCode i = OP_DIV → ¬ (reg m (rs i) = - two31 ∧ reg m (rt i) = -1)) ∧
  (opCode i ∈ [OP_LWL; OP_LWR; OP_SWL; OP_SWR] →
     Z.land (i32 (reg m (rs i) + extra i)) 3 = 0).

Section wf_lemmas.
Implicit Types m : Machine.

Lemma mmu_wf_ext m m' : tlb m' = tlb m → pageTable m' = pageTable m →
  pageTableSize m' = pageTableSize m → ptables m' = ptables m → mmu_wf m → mmu_wf m'.
Proof.
  intros H1 H2 H3 H4 (Ht & p & pt & ? & ? & ? & ?). split; [congruence|].
  exists p, pt. rewrite H2, H3, H4. done.
Qed.

Lemma reg_i32 m r : core_wf m → is_i32 (reg m r).
Proof.
  intros [_ _ _ Hf _]. unfold reg. rewrite nth_lookup.
  destruct (registers m !! Z.to_nat r) eqn:E; simpl; [by eapply Forall_lookup_1 in Hf|].
  unfold is_i32, two31. lia.
Qed.

Lemma reg_setreg_eq m r v : 0 ≤ r < 40 → length (registers m) = 40%nat →
  reg (setreg m r v) r = v.
Proof.
  intros. unfold reg, setreg. simpl. apply nth_lookup_Some, list_lookup_insert_eq. lia.
Qed.
Lemma reg_setreg_ne m r r' v : 0 ≤ r → 0 ≤ r' → r ≠ r' →
  reg (setreg m r v) r' = reg m r'.
Proof.
  intros. unfold reg, setreg. simpl.
  rewrite !nth_lookup, list_lookup_insert_ne by lia. done.
Qed.

Lemma core_setreg m r v : core_wf m → 0 ≤ r → r ≠ LoadReg → is_i32 v →
  core_wf (setreg m r v).
Proof.
  intros [] Hr Hne Hv. constructor; simpl.
  - by apply mmu_wf_ext with m.
  - done.
  - by rewrite length_insert.
  - by apply Forall_insert.
  - by rewrite reg_setreg_ne by (unfold LoadReg in *; lia).
Qed.

Lemma core_set_loadreg m v : core_wf m → 0 ≤ v < 32 → core_wf (setreg m LoadReg v).
Proof.
  intros [] Hv. constructor; simpl.
  - by apply mmu_wf_ext with m.
  - done.
  - by rewrite length_insert.
  - apply Forall_insert; [done|]. unfold is_i32, two31. lia.
  - rewrite reg_setreg_eq; [done|by unfold LoadReg|done].
Qed.

Lemma arr_set_reg m r v : 0 ≤ r < 40 → length (registers m) = 40%nat →
  arr_set (registers m) r v = Ok (registers (setreg m r v)).
Proof. intros. apply arr_set_in. lia. Qed.
Lemma arr_get_reg m r : 0 ≤ r < 40 → length (registers m) = 40%nat →
  arr_get (registers m) r = Ok (reg m r).
Proof.
  intros ? Hl. destruct (arr_get_in (registers m) r) as [x Hx]; [lia|].
  rewrite Hx. apply arr_get_Ok in Hx as [_ Hx]. f_equal.
  symmetry. by apply nth_lookup_Some.
Qed.

Lemma set_regs_registers m : set_regs m (registers m) = m.
Proof. by destruct m. Qed.
Lemma set_regs_twice m r r' : set_regs (set_regs m r) r' = set_regs m r'.
Proof. done. Qed.

(** [DelayedLoad] in terms of register writes. *)
Lemma DelayedLoad_eq m nr nv : core_wf m → 0 ≤ nr < 32 →
  DelayedLoad m nr nv =
    Ok (setreg (setreg (setreg (setreg m (reg m LoadReg) (reg m LoadValueReg))
          LoadReg nr) LoadValueReg nv) 0 0).
Proof.
  intros Hc Hn. destruct (Hc) as [_ _ Hl _ Hld]. unfold DelayedLoad.
  rewrite !arr_get_reg by (done || unfold LoadReg, LoadValueReg; lia). simpl mbind.
  unfold mbind, outcome_bind.
  rewrite (arr_set_reg m) by (done || lia).
  set (m1 := setreg m _ _).
  assert (length (registers m1) = 40%nat) as Hl1 by (subst m1; simpl; by rewrite length_insert).
  rewrite (arr_set_reg m1) by (done || unfold LoadReg; lia).
  set (m2 := setreg m1 _ _).
  assert (length (registers m2) = 40%nat) as Hl2 by (subst m2; simpl; by rewrite length_insert).
  rewrite (arr_set_reg m2) by (done || unfold LoadValueReg; lia).
  set (m3 := setreg m2 _ _).
  assert (length (registers m3) = 40%nat) as Hl3 by (subst m3; simpl; by rewrite length_insert).
  rewrite (arr_set_reg m3) by (done || lia). done.
Qed.

Lemma DelayedLoad_wf m nr nv : core_wf m → 0 ≤ nr < 32 → is_i32 nv →
  ∃ m', DelayedLoad m nr nv = Ok m' ∧ cpu_wf m'.
Proof.
  intros Hc Hn Hv. rewrite DelayedLoad_eq by done. eexists. split; [done|].
  pose proof (reg_i32 m LoadValueReg Hc) as Hlv. destruct (Hc) as [_ _ Hl _ Hld].
  split.
  - apply core_setreg; [|unfold LoadReg, is_i32, two31; lia..].
    apply core_setreg; [|unfold LoadReg, LoadValueReg; lia..|done].
    apply core_set_loadreg; [|done].
    apply core_setreg; [done|lia|unfold LoadReg in *; lia|done].
  - apply reg_setreg_eq; [lia|]. simpl. by rewrite !length_insert.
Qed.
End wf_lemmas.

(** ** Every executed case keeps the invariant *)
Section exec_wf.
Context (h : ExceptionType → Machine → outcome Machine).
Hypothesis handler_ok : ∀ ex m, cpu_wf m → ∃ m', h ex m = Ok m' ∧ cpu_wf m'.
Implicit Types m : Machine.

Definition delivers (r : outcome exec_result) : Prop := ∃ x, r = Ok x ∧ exec_ok x.

Lemma set_status_wf m st : cpu_wf m → cpu_wf (set_status m st).
Proof.
  intros [[] ?]. split; [|done]. constructor; done.
Qed.

Lemma RaiseException_ok m ex bad : core_wf m → is_i32 bad →
  ∃ m', RaiseException h m ex bad = Ok m' ∧ cpu_wf m'.
Proof.
  intros Hc Hb. unfold RaiseException.
  destruct (Hc) as [_ _ Hl _ _].
  rewrite arr_set_reg by (done || unfold BadVAddrReg; lia). cbn [mbind outcome_bind].
  change (set_regs m (registers (setreg m BadVAddrReg bad))) with (setreg m BadVAddrReg bad).
  destruct (DelayedLoad_wf (setreg m BadVAddrReg bad) 0 0) as (m1 & -> & H1);
    [by apply core_setreg | lia | unfold is_i32, two31; lia |]. cbn [mbind outcome_bind].
  destruct (handler_ok ex (set_status m1 SystemMode)) as (m2 & -> & H2);
    [by apply set_status_wf|]. eexists. split; [done|]. by apply set_status_wf.
Qed.

Lemma raise_ok m ex bad : core_wf m → is_i32 bad → delivers (raise h m ex bad).
Proof.
  intros Hc Hb. unfold raise. destruct (RaiseException_ok m ex bad Hc Hb) as (m' & -> & ?).
  eexists. split; [done|]. done.
Qed.

Lemma core_wf_ext m m' : core_wf m → mmu_wf m' → mainMemory m' = mainMemory m →
  registers m' = registers m → core_wf m'.
Proof.
  intros [] ? Hm Hr. constructor; unfold reg in *; rewrite ?Hr; try done.
  intros a. unfold mem_byte in *. rewrite Hm. by apply cw_mem0.
Qed.

Lemma Translate_ok m va size w : core_wf m → access_size size →
  ∃ ex pa m', Translate m va size w = Ok (ex, pa, m') ∧ core_wf m' ∧
    registers m' = registers m ∧ (ex = NoException ∨ m' = m).
Proof.
  intros Hc Hs. pose proof (cw_mmu m Hc) as Hwf.
  destruct (Translate_spec m va size w Hwf Hs)
    as [(ex & ? & E)|(p & pt & pa & e & m' & _ & _ & E & _ & _ & _ & _ & Hm)].
  - exists ex, 0, m. auto.
  - exists NoException, pa, m'. pose proof (Translate_mmu_wf m va size w _ _ _ Hwf Hs E).
    subst m'. split_and!; auto. by apply core_wf_ext with m.
Qed.

Lemma load_bytes_ok m pa size : mem_wf m → access_size size →
  ∃ v, load_bytes m pa size = Ok v ∧ is_i32 v.
Proof.
  intros Hm [->|[->| ->]]; unfold load_bytes; simpl; eexists; (split; [done|]).
  - unfold i8, is_i32, two31. zcases.
  - pose proof (Hm pa). pose proof (Hm (pa + 1)). unfold ShortToHost, is_u8, is_i32, two31 in *. lia.
  - apply i32_range.
Qed.

Lemma ReadMem_ok m addr size : core_wf m → is_i32 addr → access_size size →
  ∃ v m', ReadMem h m addr size = Ok (v, m') ∧
    match v with
    | None => cpu_wf m'
    | Some x => core_wf m' ∧ is_i32 x ∧ registers m' = registers m
    end.
Proof.
  intros Hc Ha Hs. unfold ReadMem.
  destruct (Translate_ok m addr size false Hc Hs) as (ex & pa & m1 & -> & H1 & Hr & _).
  cbn [mbind outcome_bind]. case_decide.
  - destruct (load_bytes_ok m1 pa size (cw_mem _ H1) Hs) as (v & -> & ?).
    exists (Some v), m1. done.
  - destruct (RaiseException_ok m1 ex addr H1 Ha) as (m2 & -> & ?). exists None, m2. done.
Qed.

Lemma put_byte_core m a v : core_wf m → is_u8 v → core_wf (put_byte m a v).
Proof.
  intros [] Hv. constructor; try done.
  intros b. destruct (decide (a = b)) as [->|];
    [by rewrite mem_byte_put_eq|by rewrite mem_byte_put_ne].
Qed.

Lemma store_bytes_ok m pa size v : core_wf m → access_size size →
  ∃ m', store_bytes m pa size v = Ok m' ∧ core_wf m'.
Proof.
  intros Hc [->|[->| ->]]; unfold store_bytes; simpl; eexists; (split; [done|]);
    repeat apply put_byte_core; try done; apply u8_range.
Qed.

Lemma WriteMem_ok m addr size v : core_wf m → is_i32 addr → access_size size →
  ∃ ok m', WriteMem h m addr size v = Ok (ok, m') ∧
    (if ok : bool then core_wf m' else cpu_wf m').
Proof.
  intros Hc Ha Hs. unfold WriteMem.
  destruct (Translate_ok m addr size true Hc Hs) as (ex & pa & m1 & -> & H1 & _ & _).
  cbn [mbind outcome_bind]. case_decide.
  - destruct (store_bytes_ok m1 pa size v H1 Hs) as (m2 & -> & ?). exists true, m2. done.
  - destruct (RaiseException_ok m1 ex addr H1 Ha) as (m2 & -> & ?). exists false, m2. done.
Qed.

Lemma write_ok m pc r v : core_wf m → is_i32 pc → 0 ≤ r → r ≠ LoadReg → is_i32 v →
  delivers (write m pc r v).
Proof.
  intros. eexists. split; [done|]. simpl. split_and!; auto using core_setreg;
    unfold is_i32, two31; lia.
Qed.

Lemma fallout_ok m pc : core_wf m → is_i32 pc → delivers (Ok (Fallout m pc 0 0)).
Proof. intros. eexists. split; [done|]. simpl. unfold is_i32, two31 in *. auto with lia. Qed.

Lemma branch_ok m pc c i : core_wf m → is_i32 pc → delivers (branch m pc c i).
Proof. intros. apply fallout_ok; [done|]. destruct c; auto with nachos. Qed.

Lemma loading_ok m addr size k : core_wf m → is_i32 addr → access_size size →
  (∀ m' v, core_wf m' → is_i32 v → registers m' = registers m → delivers (k m' v)) →
  delivers (loading h m addr size k).
Proof.
  intros Hc Ha Hs Hk. unfold loading.
  destruct (ReadMem_ok m addr size Hc Ha Hs) as ([v|] & m' & -> & H); cbn [mbind outcome_bind].
  - destruct H as (? & ? & ?). by apply Hk.
  - eexists. split; [done|]. done.
Qed.

Lemma storing_ok m addr size v pc : core_wf m → is_i32 pc → access_size size →
  delivers (storing h m addr size v pc).
Proof.
  intros Hc Hp Hs. unfold storing.
  destruct (WriteMem_ok m (i32 addr) size v Hc (i32_range _) Hs) as ([] & m' & -> & H);
    cbn [mbind outcome_bind]; [by apply fallout_ok|]. eexists. split; [done|]. done.
Qed.

Lemma Mult_i32 a b s : is_i32 (Mult a b s).1 ∧ is_i32 (Mult a b s).2.
Proof.
  unfold Mult. destruct ((a =? 0) || (b =? 0)); [unfold is_i32, two31; simpl; lia|].
  destruct (if s && (a <? 0) then _ else _), (if s && (b <? 0) then _ else _).
  destruct (mult_loop _ _ _ _ _ _) as [lo hi].
  destruct (if _ : bool then _ else _) as [lo' hi']. simpl. auto with nachos.
Qed.

Lemma land_65535_i32 z : is_i32 (Z.land z 65535).
Proof. apply (land_low_i32 z 16). lia. Qed.
Lemma land_255_i32 z : is_i32 (Z.land z 255).
Proof. apply (land_low_i32 z 8). lia. Qed.
Lemma land_31_range z : 0 ≤ Z.land z 31 < 32.
Proof. change 31 with (2 ^ 5 - 1). rewrite land_ones_mod by lia. zcases. Qed.
Hint Resolve land_65535_i32 land_255_i32 land_31_range : nachos.

Ltac reg_ne :=
  match goal with
  | Hi : instr_wf ?i |- _ => destruct Hi as [? ? ? ?]
  end; unfold LoadReg, HiReg, LoReg, R31 in *; lia.

(** Close a case of the switch that writes registers and falls out. *)
Ltac exec_case :=
  match goal with
  | |- delivers (if ?c then _ else _) => destruct c; exec_case
  | |- delivers (raise _ _ _ _) =>
      apply raise_ok; [done | auto with nachos || (unfold is_i32, two31; lia)]
  | |- delivers (write _ _ _ _) =>
      apply write_ok; [done | done | reg_ne | reg_ne | eauto using reg_i32 with nachos]
  | |- delivers (branch _ _ _ _) =>
      apply branch_ok; [first [done | apply core_setreg;
        [done | unfold R31; lia | unfold R31, LoadReg; lia | auto with nachos]] | done]
  | |- delivers (Ok (Fallout _ _ 0 0)) =>
      apply fallout_ok;
        [ repeat (apply core_setreg; [|reg_ne|reg_ne|])
        | ]; eauto using reg_i32 with nachos
  end.

Lemma exec_add_jump_ok m i pc r : core_wf m → instr_wf i → benign m i → is_i32 pc →
  exec_add_jump h m i pc = Some r → delivers r.
Proof.
  intros Hc Hi Hb Hp. pose proof (iw_extra i Hi) as He.
  assert (is_i32 0) as Hz by (unfold is_i32, two31; lia).
  unfold exec_add_jump.
  destruct (opCode i) eqn:Eo; intros [= <-]; try exec_case.
  - (* DIV *)
    destruct Hb as [Hd _]. specialize (Hd Eo).
    destruct (Z.eqb_spec (reg m (rt i)) 0); [exec_case|].
    destruct ((reg m (rs i) =? - two31) && (reg m (rt i) =? -1)) eqn:Eov;
      [zbool; tauto|].
    destruct (quot_rem_i32 (reg m (rs i)) (reg m (rt i))) as [Hq Hr];
      auto using reg_i32.
    rewrite !reg_setreg_ne by (destruct Hi; unfold LoReg; lia). exec_case.
  - (* JALR *)
    assert (core_wf (setreg m (rd i) (i32 (reg m NextPCReg + 4)))) as Hc'
      by (apply core_setreg; [done|reg_ne|reg_ne|auto with nachos]).
    by apply reg_i32.
Qed.

Lemma merge_base_i32 m i : core_wf m → is_i32 (merge_base m i).
Proof. intros. unfold merge_base. case_match; by apply reg_i32. Qed.
Lemma lwl_value_i32 s b v : is_i32 v → is_i32 (lwl_value s b v).
Proof. intros. unfold lwl_value. repeat case_match; auto with nachos. Qed.
Lemma lwr_value_i32 s b v : is_i32 v → is_i32 (lwr_value s b v).
Proof. intros. unfold lwr_value. repeat case_match; auto with nachos. Qed.
Hint Resolve merge_base_i32 lwl_value_i32 lwr_value_i32 : nachos.

Lemma fallout_load_ok m pc r v : core_wf m → is_i32 pc → 0 ≤ r < 32 → is_i32 v →
  delivers (Ok (Fallout m pc r v)).
Proof. intros. eexists. split; [done|]. done. Qed.

Lemma partial_aligned m i : benign m i → opCode i ∈ [OP_LWL; OP_LWR; OP_SWL; OP_SWR] →
  ASSERT (Z.land (i32 (reg m (rs i) + extra i)) 3 =? 0) = Ok tt.
Proof. intros [_ Hp] Hin. by rewrite Hp. Qed.

Lemma exec_load_ok m i pc r : core_wf m → instr_wf i → benign m i → is_i32 pc →
  exec_load h m i pc = Some r → delivers r.
Proof.
  intros Hc Hi Hb Hp. pose proof (iw_rt i Hi) as Hrt.
  assert (∀ a, access_size a ↔ a = 1 ∨ a = 2 ∨ a = 4) as Hsz by done.
  unfold exec_load.
  destruct (opCode i) eqn:Eo; intros [= <-]; try exec_case;
    try (rewrite partial_aligned by (done || (rewrite Eo; set_solver)));
    repeat (match goal with
      | |- delivers (if ?c then raise _ _ _ _ else _) => destruct c; [exec_case|]
      end);
    (apply loading_ok; [done | auto with nachos | apply Hsz; auto |
      intros m' v Hm' Hv Hr; apply fallout_load_ok; [done..|];
      try case_match; auto with nachos]).
Qed.

Lemma exec_move_logic_ok m i pc r : core_wf m → instr_wf i → is_i32 pc →
  exec_move_logic m i pc = Some r → delivers r.
Proof.
  intros Hc Hi Hp. unfold exec_move_logic.
  destruct (opCode i) eqn:Eo; intros [= <-]; try exec_case;
    (destruct (Mult _ _ _) as [hi lo] eqn:EM;
     pose proof (Mult_i32 (reg m (rs i)) (reg m (rt i)) true) as H1;
     pose proof (Mult_i32 (reg m (rs i)) (reg m (rt i)) false) as H2;
     rewrite EM in *; destruct H1, H2; simpl in *; exec_case).
Qed.

Lemma exec_store_shift_ok m i pc r : core_wf m → instr_wf i → is_i32 pc →
  (opCode i = OP_SRA → 0 ≤ extra i) → exec_store_shift h m i pc = Some r → delivers r.
Proof.
  intros Hc Hi Hp Hsh. unfold exec_store_shift.
  pose proof (land_31_range (reg m (rs i))) as [? ?].
  destruct (opCode i) eqn:Eo; intros [= <-]; try specialize (Hsh eq_refl); try exec_case;
    (apply storing_ok; [done..|unfold access_size; auto]).
Qed.

Lemma exec_partial_store_ok m i pc r : core_wf m → instr_wf i → benign m i → is_i32 pc →
  exec_partial_store h m i pc = Some r → delivers r.
Proof.
  intros Hc Hi Hb Hp. unfold exec_partial_store.
  assert (is_i32 (Z.land (i32 (reg m (rs i) + extra i)) (Z.lnot 3)))
    by (apply land_i32; [apply i32_range|unfold Z.lnot, is_i32, two31; simpl; lia]).
  destruct (opCode i) eqn:Eo; intros [= <-];
    rewrite partial_aligned by (done || (rewrite Eo; set_solver));
    (apply loading_ok; [done | done | unfold access_size; auto |];
     intros; apply storing_ok; [done..|unfold access_size; auto]).
Qed.

Lemma exec_misc_ok m i pc r : core_wf m → instr_wf i → is_i32 pc →
  exec_misc h m i pc = Some r → delivers r.
Proof.
  intros Hc Hi Hp. unfold exec_misc.
  destruct (opCode i) eqn:Eo; intros [= <-]; exec_case.
Qed.
End exec_wf.

(** ** Decoding is total and only produces executable opcodes *)
Definition executable (op : opcode) : bool :=
  bool_decide (op ∉ [OP_RFE; SPECIAL; BCOND]).

Section decoding.
Lemma land_mask_range z n : 0 ≤ n → 0 ≤ Z.land z (2 ^ n - 1) < 2 ^ n.
Proof. intros. rewrite land_ones_mod by done. apply Z.mod_pos_bound.
  pose proof (Z.pow_pos_nonneg 2 n). lia. Qed.

(** The facts about the two opcode tables, by inspection of every entry. *)
Lemma opTable_entries :
  forallb (λ '(op, fmt), (bool_decide (op = SPECIAL ∧ fmt = RFMT) || bool_decide (op = BCOND)
    || (executable op && bool_decide (op ≠ OP_SRA)))) opTable = true.
Proof. by vm_compute. Qed.
Lemma specialTable_entries : forallb executable specialTable = true.
Proof. by vm_compute. Qed.

Lemma decode_extra_i32 fmt value : 0 ≤ value → is_i32 (decode_extra fmt value).
Proof.
  intros Hv. unfold decode_extra. destruct fmt.
  - case_match; [apply i32_range|]. apply (land_low_i32 value 16). lia.
  - apply (land_low_i32 value 26). lia.
  - apply (land_low_i32 _ 5). lia.
Qed.

Lemma Decode_spec value : is_u32 value →
  ∃ i, Decode value = Ok i ∧ instr_wf i ∧ executable (opCode i) = true ∧
    (opCode i = OP_SRA → 0 ≤ extra i).
Proof.
  intros Hv. unfold is_u32 in Hv. unfold Decode.
  destruct (arr_get_in opTable (Z.land (Z.shiftr value 26) 63)) as [[op fmt] Hop].
  { apply (land_mask_range _ 6). lia. }
  rewrite Hop. cbn [mbind outcome_bind].
  assert (bool_decide (op = SPECIAL ∧ fmt = RFMT) || bool_decide (op = BCOND)
    || (executable op && bool_decide (op ≠ OP_SRA))) as Hent.
  { apply arr_get_Ok in Hop as [_ Hop]. pose proof opTable_entries as H.
    rewrite forallb_forall in H. apply Is_true_true.
    apply (H (op, fmt)). apply list_elem_of_In. by eapply list_elem_of_lookup_2. }
  assert (∃ op', decode_op op value = Ok op' ∧ executable op' = true ∧
    (op' = OP_SRA → fmt = RFMT)) as (op' & -> & Hex & Hsra).
  { unfold decode_op. destruct (decide (op = SPECIAL)) as [E1|E1];
      [|destruct (decide (op = BCOND)) as [E2|E2]].
    - destruct (arr_get_in specialTable (Z.land value 63)) as [o Ho];
        [apply (land_mask_range _ 6); lia|].
      exists o. split_and!; [done| |].
      + apply arr_get_Ok in Ho as [_ Ho]. pose proof specialTable_entries as H.
        rewrite forallb_forall in H. apply (H o), list_elem_of_In.
        by eapply list_elem_of_lookup_2.
      + intros _. subst op. revert Hent. destruct fmt; [by vm_compute..|done].
    - eexists. split; [reflexivity|]. 
      repeat match goal with |- context [if ?c then _ else _] => destruct c end; split; done.
    - exists op. split; [done|].
      rewrite (bool_decide_eq_false_2 (op = SPECIAL ∧ fmt = RFMT)) in Hent by tauto.
      rewrite (bool_decide_eq_false_2 (op = BCOND)) in Hent by done. simpl in Hent.
      apply andb_True in Hent as [He Hn]. apply Is_true_true in He.
      apply bool_decide_unpack in Hn. split; [done|]. intros ->. done. }
  cbn [mbind outcome_bind]. eexists. split; [done|]. split; [|split]; simpl; [|done|].
  - constructor; simpl; try apply (land_mask_range _ 5); try lia.
    apply decode_extra_i32. lia.
  - intros Hs. rewrite (Hsra Hs). simpl.
    by destruct (land_mask_range (Z.shiftr value 6) 5 ltac:(lia)).
Qed.
End decoding.

Section one_instruction.
Context (h : ExceptionType → Machine → outcome Machine).
Hypothesis handler_ok : ∀ ex m, cpu_wf m → ∃ m', h ex m = Ok m' ∧ cpu_wf m'.
Implicit Types m : Machine.

Lemma exec_delivers m i pc : core_wf m → instr_wf i → executable (opCode i) = true →
  (opCode i = OP_SRA → 0 ≤ extra i) → benign m i → is_i32 pc → delivers (exec h m i pc).
Proof.
  intros Hc Hi Hx Hs Hb Hp. unfold exec, first_some.
  destruct (exec_add_jump h m i pc) eqn:E1; [by eapply exec_add_jump_ok|].
  destruct (exec_load h m i pc) eqn:E2; [by eapply exec_load_ok|].
  destruct (exec_move_logic m i pc) eqn:E3; [by eapply exec_move_logic_ok|].
  destruct (exec_store_shift h m i pc) eqn:E4; [by eapply exec_store_shift_ok|].
  destruct (exec_partial_store h m i pc) eqn:E5; [by eapply exec_partial_store_ok|].
  destruct (exec_misc h m i pc) eqn:E6; [by eapply exec_misc_ok|].
  exfalso. unfold exec_add_jump, exec_load, exec_move_logic, exec_store_shift,
    exec_partial_store, exec_misc in *. destruct (opCode i); done.
Qed.

Lemma advance_ok m pc r v : core_wf m → is_i32 pc → 0 ≤ r < 32 → is_i32 v →
  ∃ m', advance m pc r v = Ok m' ∧ cpu_wf m'.
Proof.
  intros Hc Hp Hr Hv. unfold advance.
  destruct (DelayedLoad_wf m r v Hc Hr Hv) as (m1 & -> & [H1 Hz]).
  cbn [mbind outcome_bind]. eexists. split; [done|]. split.
  - apply core_setreg; [|unfold NextPCReg, LoadReg; lia..|done].
    apply core_setreg; [|unfold PCReg, LoadReg; lia..|].
    + apply core_setreg; [done|unfold PrevPCReg, LoadReg; lia..|by apply reg_i32].
    + rewrite reg_setreg_ne by (unfold PrevPCReg, NextPCReg; lia). by apply reg_i32.
  - rewrite !reg_setreg_ne by (unfold NextPCReg, PCReg, PrevPCReg; lia). done.
Qed.

(** The instruction the machine is about to execute is benign. *)
Definition next_benign m : Prop :=
  ∀ raw m1 i, ReadMem h m (reg m PCReg) 4 = Ok (Some raw, m1) →
    Decode (u32 raw) = Ok i → benign m1 i.

Lemma OneInstruction_ok m : cpu_wf m → next_benign m →
  ∃ m', OneInstruction h m = Ok m' ∧ cpu_wf m'.
Proof using handler_ok.
  intros [Hc Hz] Hb. unfold OneInstruction.
  destruct (ReadMem_ok h handler_ok m (reg m PCReg) 4 Hc (reg_i32 m _ Hc))
    as ([raw|] & m1 & Er & H1); [by right; right| |];
    rewrite Er; cbn [mbind outcome_bind]; [|by exists m1].
  destruct H1 as (Hc1 & _ & _).
  destruct (Decode_spec (u32 raw) (u32_range raw)) as (i & Ei & Hi & Hx & Hs).
  rewrite Ei. cbn [mbind outcome_bind].
  destruct (exec_delivers m1 i (i32 (reg m1 NextPCReg + 4)))
    as (r & -> & Hr); auto with nachos; [by eapply Hb|].
  cbn [mbind outcome_bind]. destruct r as [m2 pc nr nv|m2]; [|by exists m2].
  destruct Hr as (? & ? & ? & ?). by apply advance_ok.
Qed.
End one_instruction.

(** ** Overflow detection of ADD, ADDI and SUB *)
Definition fits_i32 (z : Z) : bool := (- two31 <=? z) && (z <? two31).

Section overflow.
Lemma fits_i32_true z : fits_i32 z = true ↔ is_i32 z.
Proof. unfold fits_i32, is_i32. rewrite andb_true_iff, Z.leb_le, Z.ltb_lt. done. Qed.

Lemma sign_set_neg x : is_i32 x → sign_set x = (x <? 0).
Proof.
  intros Hx. unfold sign_set, SIGN_BIT. rewrite land_bit31 by apply u32_range.
  unfold u32, is_i32, two31, two32 in *.
  destruct (Z.ltb_spec x 0), (Z.ltb_spec (x mod 4294967296) 2147483648); try done; zcases.
Qed.

Lemma sign_lxor a b : is_i32 a → is_i32 b →
  sign_set (Z.lxor a b) = xorb (a <? 0) (b <? 0).
Proof.
  intros Ha Hb. rewrite sign_set_neg by (by apply lxor_i32).
  pose proof (Z.lxor_nonneg a b) as Hn.
  destruct (Z.ltb_spec (Z.lxor a b) 0), (Z.ltb_spec a 0), (Z.ltb_spec b 0); simpl; (done || lia).
Qed.

Lemma add_check a b : is_i32 a → is_i32 b →
  negb (sign_set (Z.lxor a b)) && sign_set (Z.lxor a (i32 (a + b))) =
    negb (fits_i32 (a + b)).
Proof.
  intros Ha Hb. rewrite !sign_lxor by auto using i32_range.
  unfold fits_i32, i32, is_i32, two31, two32 in *.
  destruct (Z.ltb_spec a 0), (Z.ltb_spec b 0),
    (Z.ltb_spec ((a + b + 2147483648) mod 4294967296 - 2147483648) 0),
    (Z.leb_spec (- (2147483648)) (a + b)), (Z.ltb_spec (a + b) 2147483648);
    simpl; try done; zcases.
Qed.

Lemma sub_check a b : is_i32 a → is_i32 b →
  sign_set (Z.lxor a b) && sign_set (Z.lxor a (i32 (a - b))) = negb (fits_i32 (a - b)).
Proof.
  intros Ha Hb. rewrite !sign_lxor by auto using i32_range.
  unfold fits_i32, i32, is_i32, two31, two32 in *.
  destruct (Z.ltb_spec a 0), (Z.ltb_spec b 0),
    (Z.ltb_spec ((a - b + 2147483648) mod 4294967296 - 2147483648) 0),
    (Z.leb_spec (- (2147483648)) (a - b)), (Z.ltb_spec (a - b) 2147483648);
    simpl; try done; zcases.
Qed.
End overflow.

(** ADD, ADDI and SUB trap with OverflowException exactly when the
    mathematical result does not fit in an int, and otherwise write that
    result to the destination register. *)
Theorem exec_overflow (h : ExceptionType → Machine → outcome Machine)
    (m : Machine) (i : Instruction) (pcAfter : Z) :
  core_wf m → instr_wf i →
  let vs := reg m (rs i) in
  let vt := reg m (rt i) in
  (opCode i = OP_ADD → exec h m i pcAfter =
     if fits_i32 (vs + vt) then write m pcAfter (rd i) (vs + vt)
     else raise h m OverflowException 0) ∧
  (opCode i = OP_ADDI → exec h m i pcAfter =
     if fits_i32 (vs + extra i) then write m pcAfter (rt i) (vs + extra i)
     else raise h m OverflowException 0) ∧
  (opCode i = OP_SUB → exec h m i pcAfter =
     if fits_i32 (vs - vt) then write m pcAfter (rd i) (vs - vt)
     else raise h m OverflowException 0).
Proof.
  intros Hc Hi vs vt. pose proof (reg_i32 m (rs i) Hc) as Hs.
  pose proof (reg_i32 m (rt i) Hc) as Ht. pose proof (iw_extra i Hi) as He.
  split; [|split]; intros Eo;
    unfold exec, exec_add_jump, exec_load, exec_move_logic, exec_store_shift;
    rewrite Eo; cbn [first_some default].
  - rewrite add_check by done. subst vs vt.
    destruct (fits_i32 _) eqn:F; [|done]. apply fits_i32_true in F. simpl. by rewrite i32_id.
  - rewrite (Z.lxor_comm (reg m (rs i)) (extra i)), Z.add_comm, add_check by done. subst vs.
    rewrite (Z.add_comm (reg m (rs i))).
    destruct (fits_i32 _) eqn:F; [|done]. apply fits_i32_true in F. simpl. by rewrite i32_id.
  - rewrite sub_check by done. subst vs vt.
    destruct (fits_i32 _) eqn:F; [|done]. apply fits_i32_true in F. simpl. by rewrite i32_id.
Qed.

(** C6: from a well-formed CPU state (40 int registers, register 0 zero, a
    pending load that targets a general register, a live page table, byte-sized
    memory cells) one simulated instruction always completes and leaves a
    well-formed state, provided the kernel's handler does the same on a trap
    and the operands are not INT_MIN / -1 or an unaligned partial word; in
    particular the default case of the switch is never reached. *)
Theorem OneInstruction_safe (h : ExceptionType → Machine → outcome Machine) (m : Machine) :
  (∀ ex m0, cpu_wf m0 → ∃ m1, h ex m0 = Ok m1 ∧ cpu_wf m1) →
  cpu_wf m → next_benign h m → ∃ m', OneInstruction h m = Ok m' ∧ cpu_wf m'.
Proof. intros Hh Hm Hb. exact (OneInstruction_ok h Hh m Hm Hb). Qed.

(** A machine with one zeroed page, about to execute the word at address 0. *)
Definition demo_machine : Machine :=
  mkMachine ∅ (replicate 40 0) None (Some 0%nat) 1
    {[ 0%nat := [mkTE 0 0 true false false false] ]} UserMode.

Lemma demo_cpu_wf : cpu_wf demo_machine.
Proof.
  split; [constructor|done].
  - split; [done|]. eexists 0%nat, _. split; [done|].
    split; [apply lookup_singleton_eq|]. split; [done|].
    repeat constructor; simpl; unfold two32; lia.
  - intros a. unfold mem_byte. simpl. rewrite lookup_empty. split; simpl; lia.
  - done.
  - repeat constructor; unfold two31; lia.
  - unfold reg. simpl. lia.
Qed.

Lemma exec_overflow_witness :
  exec (λ _ m, Ok m) demo_machine (mkInstr 0 OP_ADD 1 2 3 0) 8 =
    write demo_machine 8 3 0.
Proof.
  destruct (exec_overflow (λ _ m, Ok m) demo_machine (mkInstr 0 OP_ADD 1 2 3 0) 8)
    as [H _].
  - exact (proj1 demo_cpu_wf).
  - constructor; simpl; unfold is_i32, two31; lia.
  - exact (H eq_refl).
Defined.

Lemma OneInstruction_safe_witness :
  ∃ m', OneInstruction (λ _ m, Ok m) demo_machine = Ok m' ∧ cpu_wf m'.
Proof.
  apply (OneInstruction_safe (λ _ m, Ok m) demo_machine).
  - intros ex m0 H. exists m0. split; [reflexivity|exact H].
  - exact demo_cpu_wf.
  - intros raw m1 i E1 E2.
    assert (ReadMem (λ _ m, Ok m) demo_machine (reg demo_machine PCReg) 4 =
      Ok (Some 0, store_entry demo_machine (InTable 0 0) (mkTE 0 0 true false true false)))
      as E by (vm_compute; reflexivity).
    rewrite E in E1. injection E1 as <- <-. vm_compute in E2. injection E2 as <-.
    split; [discriminate|]. simpl. intros Hin.
    rewrite !elem_of_cons, elem_of_nil in Hin.
    destruct Hin as [?|[?|[?|[?|[]]]]]; discriminate.
Defined.
