(* ===== verification/Frames.v ===== *)
(** * userprog/frameprovider.cc: allocation of physical page frames

    The provider is verified against the [SlotMap] interface of BitMap.v; the
    kernel instantiates it with [BitMap]. *)
From S2P Require Import Prelude BitMap Memory.

Record FrameProvider (T : Type) := mkFrameProvider {
  frameMap : T;
  nAvailFrame : Z;
  fpLock : mutex
}.
Arguments mkFrameProvider {T} _ _ _.
Arguments frameMap {T} _.
Arguments nAvailFrame {T} _.
Arguments fpLock {T} _.

(** [FrameProvider::FrameProvider]. *)
Definition FrameProvider_new (junk : nat → Z) : outcome (FrameProvider BitMap) :=
  b ← BitMap_new junk NumPhysPages;
  Ok (mkFrameProvider b NumPhysPages None).

(** [bzero(machine->mainMemory + PageSize * idx, PageSize)]. *)
Definition bzero_frame (m : Machine) (idx : Z) : Machine :=
  foldr (λ a m, put_byte m a 0) m (seqZ (PageSize * idx) PageSize).

Section provider.
Context {T : Type} `{SlotMap T}.
Implicit Types fp : FrameProvider T.

Definition FindFreeFrame (fp : FrameProvider T) : outcome (Z * FrameProvider T) :=
  '(idx, b) ← slot_find (frameMap fp);
  Ok (idx, mkFrameProvider b (nAvailFrame fp) (fpLock fp)).

Definition GetEmptyFrame (m : Machine) (fp : FrameProvider T)
    : outcome (Z * Machine * FrameProvider T) :=
  '(idx, fp') ← FindFreeFrame fp;
  if negb (idx =? -1) then
    Ok (idx, bzero_frame m idx,
        mkFrameProvider (frameMap fp') (nAvailFrame fp' - 1) (fpLock fp'))
  else Ok (idx, m, fp').

Definition ReleaseFrame (fp : FrameProvider T) (frame : Z) : outcome (FrameProvider T) :=
  b ← slot_clear (frameMap fp) frame;
  Ok (mkFrameProvider b (nAvailFrame fp + 1) (fpLock fp)).

Definition NumAvailFrame (fp : FrameProvider T) : Z := nAvailFrame fp.

Definition AcquireFpLock (fp : FrameProvider T) (tid : Z) : outcome (FrameProvider T) :=
  l ← mutex_acquire (fpLock fp) tid; Ok (mkFrameProvider (frameMap fp) (nAvailFrame fp) l).
Definition ReleaseFpLock (fp : FrameProvider T) (tid : Z) : outcome (FrameProvider T) :=
  l ← mutex_release (fpLock fp) tid; Ok (mkFrameProvider (frameMap fp) (nAvailFrame fp) l).

(** The frames nobody owns. *)
Definition fp_free (fp : FrameProvider T) : gset Z := slot_free (frameMap fp).

(** The counter agrees with the bitmap, which covers all frames. *)
Definition fp_wf (fp : FrameProvider T) : Prop :=
  slot_ok (frameMap fp) ∧ slot_count (frameMap fp) = NumPhysPages ∧
  nAvailFrame fp = Z.of_nat (size (fp_free fp)).

Lemma fp_free_bound fp f : fp_wf fp → f ∈ fp_free fp → 0 ≤ f < NumPhysPages.
Proof. intros (Hok & <- & _) Hf. by apply slot_free_bound. Qed.

Lemma fp_wf_lock b n l l' : fp_wf (mkFrameProvider b n l) → fp_wf (mkFrameProvider b n l').
Proof. done. Qed.

(** ** Zeroing a frame *)
Lemma mem_byte_zero_range m l a :
  mem_byte (foldr (λ a m, put_byte m a 0) m l) a = if decide (a ∈ l) then 0 else mem_byte m a.
Proof.
  induction l as [|b l IH]; cbn [foldr]; [by rewrite decide_False by apply not_elem_of_nil|].
  destruct (decide (b = a)) as [->|].
  - rewrite mem_byte_put_eq, decide_True by set_solver. done.
  - rewrite mem_byte_put_ne, IH by done. apply decide_ext. set_solver.
Qed.

Definition in_frame (f a : Z) : Prop := PageSize * f ≤ a < PageSize * f + PageSize.

Lemma bzero_frame_spec m f a :
  (in_frame f a → mem_byte (bzero_frame m f) a = 0) ∧
  (¬ in_frame f a → mem_byte (bzero_frame m f) a = mem_byte m a).
Proof.
  unfold bzero_frame. rewrite mem_byte_zero_range. unfold in_frame.
  split; intros Ha; case_decide as Hin; try done; rewrite elem_of_seqZ in Hin; lia.
Qed.

(** The rest of the machine: registers, tables, status. *)
Definition same_but_memory (m m' : Machine) : Prop :=
  registers m' = registers m ∧ tlb m' = tlb m ∧ pageTable m' = pageTable m ∧
  pageTableSize m' = pageTableSize m ∧ ptables m' = ptables m ∧ status m' = status m.

Lemma bzero_frame_same m f : same_but_memory m (bzero_frame m f).
Proof.
  unfold bzero_frame. generalize (seqZ (PageSize * f) PageSize).
  intros l. induction l as [|a l IH]; [done|]. by destruct IH as (?&?&?&?&?&?).
Qed.

(** ** Contracts *)
Lemma GetEmptyFrame_spec m fp : fp_wf fp →
  (fp_free fp = ∅ ∧ GetEmptyFrame m fp = Ok (-1, m, fp)) ∨
  ∃ f fp', GetEmptyFrame m fp = Ok (f, bzero_frame m f, fp') ∧ f ∈ fp_free fp ∧
    fp_wf fp' ∧ fp_free fp' = fp_free fp ∖ {[f]} ∧ fpLock fp' = fpLock fp ∧
    nAvailFrame fp' = nAvailFrame fp - 1.
Proof.
  intros (Hok & Hc & Hn). unfold GetEmptyFrame, FindFreeFrame, fp_free.
  destruct (slot_find_law (frameMap fp) Hok)
    as [(-> & He)|(r & t' & -> & Hr & Hok' & Hc' & Hf)]; cbn [mbind outcome_bind].
  - left. split; [done|]. by destruct fp.
  - right. assert (0 ≤ r) by (pose proof (slot_free_bound _ _ Hok Hr); lia).
    destruct (Z.eqb_spec r (-1)); [lia|]. simpl.
    eexists r, _. split; [done|]. split_and!; try done.
    split_and!; simpl; [done|congruence|]. unfold fp_free in *. simpl.
    rewrite Hf, size_difference, size_singleton by set_solver.
    assert (size (slot_free (frameMap fp)) ≠ 0%nat)
      by (intros E%size_empty_inv; set_solver). lia.
Qed.

(** A frame in use can be released; the counter follows the bitmap. *)
Lemma ReleaseFrame_spec fp f : fp_wf fp → 0 ≤ f < NumPhysPages → f ∉ fp_free fp →
  ∃ fp', ReleaseFrame fp f = Ok fp' ∧ fp_wf fp' ∧ fp_free fp' = {[f]} ∪ fp_free fp ∧
    fpLock fp' = fpLock fp.
Proof.
  intros (Hok & Hc & Hn) Hf Hnf. unfold ReleaseFrame.
  destruct (slot_clear_law (frameMap fp) f Hok) as (t' & -> & Hok' & Hc' & Hfr);
    [by rewrite Hc|]. cbn [mbind outcome_bind].
  eexists. split; [done|]. unfold fp_wf, fp_free in *. simpl. split_and!; try done.
  - congruence.
  - rewrite Hfr, size_union, size_singleton by set_solver. lia.
Qed.

(** Releasing a frame that is already free breaks the counter: the provider
    then promises one frame more than the bitmap has. *)
Lemma ReleaseFrame_twice fp f : fp_wf fp → f ∈ fp_free fp →
  ∃ fp', ReleaseFrame fp f = Ok fp' ∧ fp_free fp' = fp_free fp ∧
    nAvailFrame fp' = Z.of_nat (size (fp_free fp')) + 1.
Proof.
  intros Hwf Hf. pose proof (fp_free_bound fp f Hwf Hf) as Hb.
  destruct Hwf as (Hok & Hc & Hn). unfold ReleaseFrame.
  destruct (slot_clear_law (frameMap fp) f Hok) as (t' & -> & Hok' & Hc' & Hfr);
    [by rewrite Hc|]. cbn [mbind outcome_bind].
  assert (fp_free (mkFrameProvider t' (nAvailFrame fp + 1) (fpLock fp)) = fp_free fp) as E.
  { unfold fp_free in *. simpl. rewrite Hfr. set_solver. }
  eexists. split; [done|]. rewrite E. simpl. split; [done|lia].
Qed.
End provider.

Lemma FrameProvider_new_spec junk : ∃ fp,
  FrameProvider_new junk = Ok fp ∧ fp_wf fp ∧ fpLock fp = None ∧
  fp_free fp = list_to_set (seqZ 0 NumPhysPages).
Proof.
  unfold FrameProvider_new.
  destruct (BitMap_new_spec junk NumPhysPages) as (b & -> & Hwf & Hn & _ & Hf);
    [by vm_compute|].
  assert (size (free_set b) = Z.to_nat NumPhysPages) as Hs
    by (rewrite Hf, size_list_to_set by apply NoDup_seqZ; apply length_seqZ).
  exists (mkFrameProvider b NumPhysPages None). split; [reflexivity|].
  split; [|split; [reflexivity|exact Hf]].
  split; [exact Hwf|]. split; [exact Hn|].
  change (NumPhysPages = Z.of_nat (size (free_set b))). rewrite Hs. reflexivity.
Qed.

#[global] Arguments fp_free {T _} fp : simpl never.
#[global] Arguments fp_wf {T _} fp : simpl never.
