(* ===== verification/AddrSpace.v ===== *)
(** * userprog/addrspace.h, userprog/addrspace.cc: address spaces

    Processes own page tables whose frames come from the [FrameProvider].  The
    objects the code shares by pointer (address spaces, page tables, thread
    descriptors) live in stores indexed by addresses, so that aliasing between
    [machine->pageTable] and [AddrSpace::pageTable], or between [threadsInfos]
    and [localThreadsInfos], is the code's. *)
From S2P Require Import Prelude BitMap Memory Frames.

Definition MAX_SEM : Z := 128.
Definition UserStackSize : Z := 2048.
Definition ThreadStackSize : Z := PageSize * 2.
Definition MaxThreadsPerProcess : Z := (UserStackSize - 16) / ThreadStackSize.
Definition MaxProcesses : Z := NumPhysPages.
Definition MaxThreads : Z := MaxThreadsPerProcess * MaxProcesses.

(** [struct thread_info]; [threadCond] is the wait queue of the
    condition, [None] once the condition has been deleted. *)
Record thread_info := mkThreadInfo {
  addrspace_idx : Z;
  userthread_id : Z;
  thread_id : Z;
  threadCond : option (list Z)
}.

Record AddrSpace := mkAddrSpace {
  pid : Z;
  numPages : Z;
  as_pageTable : nat;
  brk : Z;
  nThreads : Z;
  nextUserThreadid : Z;
  threadsBitmap : BitMap;
  localThreadsInfos : list (option nat);
  stackStartAddrs : list Z;
  semBitmap : BitMap
}.

(** The kernel state the memory system works on. *)
Record VM := mkVM {
  vm_machine : Machine;
  vm_frames : FrameProvider BitMap;
  vm_nextptr : nat;                      (* next free address of the stores *)
  pidMap : BitMap;
  lastPid : Z;                           (* static lastId of GetNewPid *)
  spaces : gmap nat AddrSpace;           (* live AddrSpace objects *)
  addrspaces : list (option nat);        (* AddrSpace *addrspaces[MaxProcesses] *)
  tidMap : BitMap;
  threadsInfos : list (option nat);      (* thread_info_t *threadsInfos[MaxThreads] *)
  tinfos : gmap nat thread_info
}.

Definition with_machine (v : VM) m := mkVM m (vm_frames v) (vm_nextptr v) (pidMap v)
  (lastPid v) (spaces v) (addrspaces v) (tidMap v) (threadsInfos v) (tinfos v).
Definition with_frames (v : VM) f := mkVM (vm_machine v) f (vm_nextptr v) (pidMap v)
  (lastPid v) (spaces v) (addrspaces v) (tidMap v) (threadsInfos v) (tinfos v).
Definition with_nextptr (v : VM) n := mkVM (vm_machine v) (vm_frames v) n (pidMap v)
  (lastPid v) (spaces v) (addrspaces v) (tidMap v) (threadsInfos v) (tinfos v).
Definition with_pids (v : VM) b l := mkVM (vm_machine v) (vm_frames v) (vm_nextptr v) b
  l (spaces v) (addrspaces v) (tidMap v) (threadsInfos v) (tinfos v).
Definition with_spaces (v : VM) s := mkVM (vm_machine v) (vm_frames v) (vm_nextptr v)
  (pidMap v) (lastPid v) s (addrspaces v) (tidMap v) (threadsInfos v) (tinfos v).
Definition with_addrspaces (v : VM) a := mkVM (vm_machine v) (vm_frames v) (vm_nextptr v)
  (pidMap v) (lastPid v) (spaces v) a (tidMap v) (threadsInfos v) (tinfos v).
Definition with_threads (v : VM) b t i := mkVM (vm_machine v) (vm_frames v) (vm_nextptr v)
  (pidMap v) (lastPid v) (spaces v) (addrspaces v) b t i.

(** ** Process identifiers *)
Definition GetNewPid : M VM Z := λ v,
  '(p, b) ← FindStart (pidMap v) (lastPid v);
  Ok (p, with_pids v b (p + 1)).

(** ** Frames for a new page table *)

(** One entry of the loop that fills a page table: [pageTable[i]]. *)
Definition new_entry (i frame : Z) : TranslationEntry :=
  mkTE i (u32 frame) true false false false.

Fixpoint map_pages (n : nat) (i : Z) (v : VM) : outcome (list TranslationEntry * VM) :=
  match n with
  | O => Ok ([], v)
  | S n' =>
      '(f, m', fp') ← GetEmptyFrame (vm_machine v) (vm_frames v);
      '(rest, v') ← map_pages n' (i + 1) (with_frames (with_machine v m') fp');
      Ok (new_entry i f :: rest, v')
  end.

Definition store_table (v : VM) (p : nat) (pt : list TranslationEntry) : VM :=
  with_machine v (set_ptables (vm_machine v) (<[p := pt]> (ptables (vm_machine v)))).
Definition delete_table (v : VM) (p : nat) : VM :=
  with_machine v (set_ptables (vm_machine v) (delete p (ptables (vm_machine v)))).

(** The part both constructors share: under the provider's lock, check the
    available frames and build the page table at a fresh address. *)
Definition build_page_table (tid n : Z) : M VM nat := λ v,
  fp1 ← AcquireFpLock (vm_frames v) tid;
  _ ← ASSERT (n <=? u32 (NumAvailFrame fp1));
  _ ← ASSERT (n <=? NumPhysPages);
  '(pt, v1) ← map_pages (Z.to_nat n) 0 (with_frames v fp1);
  fp2 ← ReleaseFpLock (vm_frames v1) tid;
  let p := vm_nextptr v1 in
  Ok (p, with_nextptr (store_table (with_frames v1 fp2) p pt) (S p)).

(** ** [InitializeThreadData] *)
Definition stack_addrs (size : Z) : list Z :=
  (λ i, size - 16 - ThreadStackSize - Z.of_nat i * ThreadStackSize)
    <$> seq 0 (Z.to_nat MaxThreadsPerProcess).

(** [GetSize]. *)
Definition GetSize (s : AddrSpace) : Z := i32 (numPages s * PageSize).

Definition InitializeThreadData (junk : nat → Z) (s : AddrSpace) : outcome AddrSpace :=
  b ← BitMap_new junk MaxThreadsPerProcess;
  Ok (mkAddrSpace (pid s) (numPages s) (as_pageTable s) (brk s) (nThreads s)
        (nextUserThreadid s) b (replicate (Z.to_nat MaxThreadsPerProcess) None)
        (stack_addrs (GetSize s)) (semBitmap s)).

(** ** [AddrSpace::AddrSpace(unsigned int nPages)]

    [nThreads] is not initialised by this constructor: [junkThreads] is what
    the allocation left there. *)
Definition AddrSpace_new (junk : nat → Z) (junkThreads tid nPages : Z) : M VM nat := λ v,
  '(p, v1) ← GetNewPid v;
  let self := vm_nextptr v1 in
  a ← arr_set (addrspaces v1) p (Some self);
  let v2 := with_nextptr (with_addrspaces v1 a) (S self) in
  '(pt, v3) ← build_page_table tid nPages v2;
  sem ← BitMap_new junk MAX_SEM;
  s ← InitializeThreadData junk
        (mkAddrSpace p nPages pt (u32 (nPages * PageSize)) junkThreads 1
           sem [] [] sem);
  Ok (self, with_spaces v3 (<[self := s]> (spaces v3))).

Definition get_space (v : VM) (self : nat) : outcome AddrSpace :=
  match spaces v !! self with Some s => Ok s | None => Fault end.
Definition get_table (v : VM) (p : nat) : outcome (list TranslationEntry) :=
  match ptables (vm_machine v) !! p with Some pt => Ok pt | None => Fault end.

(** ** [ReleaseFrames] and the destructor *)
Fixpoint release_all (fs : list Z) (fp : FrameProvider BitMap)
    : outcome (FrameProvider BitMap) :=
  match fs with
  | [] => Ok fp
  | f :: fs' => fp' ← ReleaseFrame fp f; release_all fs' fp'
  end.

Definition ReleaseFrames (self : nat) : M VM unit := λ v,
  s ← get_space v self;
  pt ← get_table v (as_pageTable s);
  es ← (if Z.of_nat (length pt) <? numPages s then Fault
        else Ok (take (Z.to_nat (numPages s)) pt));
  fp ← release_all (physicalPage <$> es) (vm_frames v);
  Ok (tt, with_frames v fp).

Definition AddrSpace_delete (self : nat) : M VM unit := λ v,
  s ← get_space v self;
  let v1 := delete_table v (as_pageTable s) in
  Ok (tt, with_spaces v1 (delete self (spaces v1))).

(** ** [RestoreState], [InitRegisters] *)
Definition RestoreState (self : nat) : M VM unit := λ v,
  s ← get_space v self;
  Ok (tt, with_machine v (set_pageTable (vm_machine v) (Some (as_pageTable s)) (numPages s))).

Fixpoint zero_regs (n : nat) (i : Z) (m : Machine) : outcome Machine :=
  match n with
  | O => Ok m
  | S n' => m' ← WriteRegister m i 0; zero_regs n' (i + 1) m'
  end.

Definition InitRegisters (self : nat) : M VM unit := λ v,
  s ← get_space v self;
  m0 ← zero_regs (Z.to_nat NumTotalRegs) 0 (vm_machine v);
  m1 ← WriteRegister m0 PCReg 0;
  m2 ← WriteRegister m1 NextPCReg 4;
  m3 ← WriteRegister m2 StackReg (i32 (numPages s * PageSize - 16));
  Ok (tt, with_machine v m3).

(** ** [do_Sbrk]: grow the heap by [n] pages *)
Definition with_pages (s : AddrSpace) n p b :=
  mkAddrSpace (pid s) n p b (nThreads s) (nextUserThreadid s) (threadsBitmap s)
    (localThreadsInfos s) (stackStartAddrs s) (semBitmap s).

Definition do_Sbrk (self : nat) (tid n : Z) : M VM Z := λ v,
  fp1 ← AcquireFpLock (vm_frames v) tid;
  s ← get_space v self;
  let oldBrk := i32 (brk s) in
  if n <=? u32 (NumAvailFrame fp1) then
    old ← get_table v (as_pageTable s);
    _ ← (if Z.of_nat (length old) <? numPages s then Fault else Ok tt);
    '(new, v1) ← map_pages (Z.to_nat n) (numPages s) (with_frames v fp1);
    let p := vm_nextptr v1 in
    let pages := u32 (numPages s + n) in
    let v2 := with_nextptr (store_table v1 p (take (Z.to_nat (numPages s)) old ++ new)) (S p) in
    let v3 := delete_table v2 (as_pageTable s) in
    let v4 := with_spaces v3
      (<[self := with_pages s pages p (u32 (pages * PageSize))]> (spaces v3)) in
    let v5 := with_machine v4 (set_pageTable (vm_machine v4) (Some p) pages) in
    fp2 ← ReleaseFpLock (vm_frames v5) tid;
    Ok (u32 oldBrk, with_frames v5 fp2)
  else
    fp2 ← ReleaseFpLock fp1 tid;
    Ok (0, with_frames v fp2).

(** ** Ownership of frames *)

(** Frame [f] backs virtual page [i] of the address space at [a]. *)
Definition owns (v : VM) (a i : nat) (f : Z) : Prop :=
  ∃ s pt e, spaces v !! a = Some s ∧
    ptables (vm_machine v) !! as_pageTable s = Some pt ∧
    pt !! i = Some e ∧ physicalPage e = f.

Record vm_wf (v : VM) : Prop := mkVmWf {
  vw_fp : fp_wf (vm_frames v);
  vw_lock : fpLock (vm_frames v) = None;
  vw_tables : ∀ a s, spaces v !! a = Some s → ∃ pt,
    ptables (vm_machine v) !! as_pageTable s = Some pt ∧
    Z.of_nat (length pt) = numPages s;
  vw_ptr : ∀ a s, spaces v !! a = Some s →
    (a < vm_nextptr v)%nat ∧ (as_pageTable s < vm_nextptr v)%nat;
  vw_dist : ∀ a b s t, spaces v !! a = Some s → spaces v !! b = Some t →
    as_pageTable s = as_pageTable t → a = b;
  vw_used : ∀ a i f, owns v a i f → 0 ≤ f < NumPhysPages ∧ f ∉ fp_free (vm_frames v);
  vw_excl : ∀ a i b j f, owns v a i f → owns v b j f → a = b ∧ i = j
}.

Definition frames_of (pt : list TranslationEntry) : list Z := physicalPage <$> pt.

Section mapping.
Implicit Types v : VM.

Lemma NumPhysPages_u32 f : 0 ≤ f < NumPhysPages → u32 f = f.
Proof. intros. apply u32_id. unfold NumPhysPages, is_u32, two32 in *. lia. Qed.

(** What [map_pages] produces: distinct, previously free, zeroed frames. *)
Record mapped v (n : nat) (i : Z) (pt : list TranslationEntry) v' : Prop := mkMapped {
  mp_state : ∃ m' fp', v' = with_frames (with_machine v m') fp' ∧
    same_but_memory (vm_machine v) m' ∧ fp_wf fp' ∧ fpLock fp' = fpLock (vm_frames v) ∧
    fp_free fp' = fp_free (vm_frames v) ∖ list_to_set (frames_of pt) ∧
    (∀ f a, f ∈ frames_of pt → in_frame f a → mem_byte m' a = 0) ∧
    (∀ a, (∀ f, f ∈ frames_of pt → ¬ in_frame f a) →
       mem_byte m' a = mem_byte (vm_machine v) a);
  mp_len : length pt = n;
  mp_entry : ∀ k e, pt !! k = Some e → e = new_entry (i + Z.of_nat k) (physicalPage e);
  mp_nodup : NoDup (frames_of pt);
  mp_free : ∀ f, f ∈ frames_of pt → f ∈ fp_free (vm_frames v)
}.

Lemma same_but_memory_trans m1 m2 m3 :
  same_but_memory m1 m2 → same_but_memory m2 m3 → same_but_memory m1 m3.
Proof. unfold same_but_memory. intros; destruct_and!; split_and!; congruence. Qed.

Lemma frames_disjoint f g a : in_frame f a → in_frame g a → f = g.
Proof. unfold in_frame, PageSize, SectorSize. lia. Qed.

Lemma map_pages_spec n i v : fp_wf (vm_frames v) →
  (n ≤ size (fp_free (vm_frames v)))%nat →
  ∃ pt v', map_pages n i v = Ok (pt, v') ∧ mapped v n i pt v'.
Proof.
  revert i v. induction n as [|n IH]; intros i v Hwf Hn.
  { exists [], v. split; [done|]. constructor; simpl; try done.
    - exists (vm_machine v), (vm_frames v). split; [by destruct v|].
      split_and!; try done; set_solver.
    - constructor.
    - set_solver. }
  cbn [map_pages].
  destruct (GetEmptyFrame_spec (vm_machine v) (vm_frames v) Hwf)
    as [[He _]|(f & fp1 & -> & Hf & Hwf1 & Hfr & Hlk & _)];
    [rewrite He in Hn; rewrite size_empty in Hn; lia|].
  cbn [mbind outcome_bind].
  pose proof (fp_free_bound _ _ Hwf Hf) as Hfb.
  set (v1 := with_frames (with_machine v (bzero_frame (vm_machine v) f)) fp1).
  destruct (IH (i + 1) v1) as (pt & v' & -> & [Hst Hl Hent Hnd Hfree]); [done| |].
  { simpl. rewrite Hfr, size_difference, size_singleton by set_solver. lia. }
  cbn [mbind outcome_bind]. exists (new_entry i f :: pt), v'. split; [done|].
  assert (f ∉ frames_of pt) as Hnin by (intros Hin%Hfree; simpl in Hin; set_solver).
  assert (frames_of (new_entry i f :: pt) = f :: frames_of pt) as Efs
    by (unfold frames_of; simpl; by rewrite NumPhysPages_u32).
  destruct Hst as (m' & fp' & -> & Hsm & Hwf' & Hlk' & Hfr' & Hzero & Hkeep).
  constructor; rewrite ?Efs.
  - exists m', fp'. split; [done|]. simpl in *. split_and!.
    + by eapply same_but_memory_trans; [apply (bzero_frame_same _ f)|].
    + done.
    + congruence.
    + rewrite Hfr', Hfr. set_solver.
    + intros g a [->|Hg]%elem_of_cons Ha; [|by eapply Hzero].
      rewrite Hkeep; [by apply (proj1 (bzero_frame_spec _ _ _))|].
      intros g Hg Hga. apply Hnin. by rewrite (frames_disjoint f g a).
    + intros a Ha. rewrite Hkeep by (intros; apply Ha; set_solver).
      apply (proj2 (bzero_frame_spec _ _ _)), Ha. set_solver.
  - simpl. by rewrite Hl.
  - intros [|k] e Hk; simpl in Hk.
    + injection Hk as <-. simpl. rewrite NumPhysPages_u32 by done.
      f_equal. lia.
    + apply Hent in Hk. rewrite Hk. unfold new_entry. simpl.
      f_equal; [lia|]. symmetry. apply u32_id, u32_range.
  - by constructor.
  - intros g [->|Hg]%elem_of_cons; [done|]. apply Hfree in Hg. simpl in Hg. set_solver.
Qed.
End mapping.

(** ** Preservation of ownership *)
Section preservation.
Implicit Types v : VM.

Definition table_owns (pt : list TranslationEntry) (i : nat) (f : Z) : Prop :=
  ∃ e, pt !! i = Some e ∧ physicalPage e = f.

Lemma table_owns_frames pt i f : table_owns pt i f ↔ frames_of pt !! i = Some f.
Proof.
  unfold table_owns, frames_of. rewrite list_lookup_fmap, fmap_Some. naive_solver.
Qed.

Lemma owns_table v a s pt i f : spaces v !! a = Some s →
  ptables (vm_machine v) !! as_pageTable s = Some pt →
  owns v a i f ↔ table_owns pt i f.
Proof. unfold owns, table_owns. intros. naive_solver. Qed.

(** Giving fresh frames to one address space keeps frames exclusive. *)
Lemma extend_exclusive v v' a old new : vm_wf v →
  (∀ i f, table_owns old i f → owns v a i f) →
  NoDup (frames_of new) → (∀ f, f ∈ frames_of new → f ∈ fp_free (vm_frames v)) →
  fp_free (vm_frames v') = fp_free (vm_frames v) ∖ list_to_set (frames_of new) →
  (∀ b i f, owns v' b i f →
     (b ≠ a ∧ owns v b i f) ∨ (b = a ∧ table_owns (old ++ new) i f)) →
  (∀ b i f, owns v' b i f → 0 ≤ f < NumPhysPages ∧ f ∉ fp_free (vm_frames v')) ∧
  (∀ b i c j f, owns v' b i f → owns v' c j f → b = c ∧ i = j).
Proof.
  intros Hwf Hold Hnd Hfree Hfr Howns.
  assert (∀ b i f, owns v' b i f →
    owns v b i f ∨ (b = a ∧ (length old ≤ i)%nat ∧
      frames_of new !! (i - length old)%nat = Some f)) as Hcase.
  { intros b i f H. destruct (Howns b i f H) as [[_ ?]|[-> Ht]]; [by left|].
    rewrite table_owns_frames in Ht. unfold frames_of in Ht. rewrite fmap_app in Ht.
    apply lookup_app_Some in Ht as [Ht|[Hi Ht]].
    - left. apply Hold, table_owns_frames, Ht.
    - right. rewrite length_fmap in *. done. }
  assert (∀ k f, frames_of new !! k = Some f → f ∈ fp_free (vm_frames v)) as Hnew
    by (intros k f Hk; apply Hfree; by eapply list_elem_of_lookup_2).
  split.
  - intros b i f H. rewrite Hfr. destruct (Hcase b i f H) as [Ho|(_ & _ & Hk)].
    + destruct (vw_used v Hwf b i f Ho). set_solver.
    + pose proof (Hnew _ _ Hk) as Hin.
      split; [by apply (fp_free_bound _ f (vw_fp v Hwf))|].
      rewrite elem_of_difference, elem_of_list_to_set. intros [_ Hn]. apply Hn.
      by eapply list_elem_of_lookup_2.
  - intros b i c j f H1 H2.
    destruct (Hcase b i f H1) as [Ho1|(-> & Hl1 & Hk1)], (Hcase c j f H2) as [Ho2|(-> & Hl2 & Hk2)].
    + by eapply vw_excl.
    + destruct (vw_used v Hwf b i f Ho1) as [_ Hx]. exfalso. by apply Hx, (Hnew _ _ Hk2).
    + destruct (vw_used v Hwf c j f Ho2) as [_ Hx]. exfalso. by apply Hx, (Hnew _ _ Hk1).
    + split; [done|]. pose proof (NoDup_lookup _ _ _ _ Hnd Hk1 Hk2). lia.
Qed.

Lemma fp_size v : fp_wf (vm_frames v) →
  Z.of_nat (size (fp_free (vm_frames v))) ≤ NumPhysPages.
Proof.
  intros Hw. assert (fp_free (vm_frames v) ⊆ list_to_set (seqZ 0 NumPhysPages)) as Hsub.
  { intros f Hf. rewrite elem_of_list_to_set, elem_of_seqZ.
    pose proof (fp_free_bound (vm_frames v) f Hw Hf). lia. }
  apply subseteq_size in Hsub.
  rewrite size_list_to_set, length_seqZ in Hsub by apply NoDup_seqZ.
  unfold NumPhysPages in *. lia.
Qed.
Lemma u32_avail v : fp_wf (vm_frames v) →
  u32 (NumAvailFrame (vm_frames v)) = Z.of_nat (size (fp_free (vm_frames v))).
Proof.
  intros Hw. pose proof (fp_size v Hw). destruct Hw as (_ & _ & Hn).
  unfold NumAvailFrame. rewrite Hn. apply u32_id.
  unfold is_u32, NumPhysPages, two32 in *. lia.
Qed.

Lemma AcquireFpLock_free (fp : FrameProvider BitMap) tid : fpLock fp = None →
  AcquireFpLock fp tid = Ok (mkFrameProvider (frameMap fp) (nAvailFrame fp) (Some tid)).
Proof. intros E. unfold AcquireFpLock. by rewrite E. Qed.
Lemma ReleaseFpLock_held (fp : FrameProvider BitMap) tid : fpLock fp = Some tid →
  ReleaseFpLock fp tid = Ok (mkFrameProvider (frameMap fp) (nAvailFrame fp) None).
Proof.
  intros E. unfold ReleaseFpLock, mutex_release. rewrite E, Z.eqb_refl. done.
Qed.
Lemma fp_relock (fp : FrameProvider BitMap) l :
  fp_wf fp → fp_wf (mkFrameProvider (frameMap fp) (nAvailFrame fp) l).
Proof. done. Qed.
End preservation.

(** Installing a page table made of [old] entries the space already had and of
    [new] entries on free frames keeps the memory system well formed.  Both the
    constructors and [do_Sbrk] end this way. *)
Section install.
Implicit Types v : VM.

Record installs v v' (a : nat) (s : AddrSpace) old new : Prop := mkInstalls {
  in_fp : fp_wf (vm_frames v');
  in_lock : fpLock (vm_frames v') = None;
  in_free : fp_free (vm_frames v') = fp_free (vm_frames v) ∖ list_to_set (frames_of new);
  in_next : (vm_nextptr v ≤ as_pageTable s)%nat;
  in_ptr : (a < vm_nextptr v')%nat ∧ (as_pageTable s < vm_nextptr v')%nat;
  in_grow : (vm_nextptr v ≤ vm_nextptr v')%nat;
  in_spaces : spaces v' = <[a := s]> (spaces v);
  in_table : ptables (vm_machine v') !! as_pageTable s = Some (old ++ new);
  in_others : ∀ b t, b ≠ a → spaces v !! b = Some t →
    ptables (vm_machine v') !! as_pageTable t = ptables (vm_machine v) !! as_pageTable t;
  in_len : Z.of_nat (length (old ++ new)) = numPages s;
  in_old : ∀ i f, table_owns old i f → owns v a i f;
  in_nodup : NoDup (frames_of new);
  in_new : ∀ f, f ∈ frames_of new → f ∈ fp_free (vm_frames v)
}.

Lemma installs_owns v v' a s old new b i f : vm_wf v → installs v v' a s old new →
  owns v' b i f ↔ (b ≠ a ∧ owns v b i f) ∨ (b = a ∧ table_owns (old ++ new) i f).
Proof.
  intros Hwf Hin. destruct (decide (b = a)) as [->|Hne].
  - rewrite (owns_table v' a s (old ++ new)); [naive_solver| |apply (in_table _ _ _ _ _ _ Hin)].
    rewrite (in_spaces _ _ _ _ _ _ Hin). apply lookup_insert_eq.
  - unfold owns. rewrite (in_spaces _ _ _ _ _ _ Hin), lookup_insert_ne by done.
    split.
    + intros (t & pt & e & Ht & Hpt & ?). left. split; [done|]. exists t, pt, e.
      by rewrite <- (in_others _ _ _ _ _ _ Hin b t Hne Ht).
    + intros [[_ (t & pt & e & Ht & Hpt & ?)]|[? _]]; [|done]. exists t, pt, e.
      by rewrite (in_others _ _ _ _ _ _ Hin b t Hne Ht).
Qed.

Lemma installs_wf v v' a s old new : vm_wf v → installs v v' a s old new → vm_wf v'.
Proof.
  intros Hwf Hin.
  destruct (extend_exclusive v v' a old new) as [Hused Hexcl];
    [done|apply Hin|apply Hin|apply Hin|apply Hin|..].
  { intros b i f Ho. by apply (installs_owns v v' a s old new). }
  pose proof (in_spaces _ _ _ _ _ _ Hin) as Hsp.
  pose proof (in_next _ _ _ _ _ _ Hin). pose proof (in_grow _ _ _ _ _ _ Hin).
  constructor; [apply Hin|apply Hin|..]; try done.
  - intros b t. rewrite Hsp, lookup_insert_Some. intros [[<- <-]|[Hne Ht]].
    + exists (old ++ new). split; apply Hin.
    + rewrite (in_others _ _ _ _ _ _ Hin b t) by done. by apply (vw_tables v Hwf b).
  - intros b t. rewrite Hsp, lookup_insert_Some. intros [[<- <-]|[Hne Ht]]; [apply Hin|].
    pose proof (vw_ptr v Hwf b t Ht). lia.
  - intros b c t u. rewrite Hsp, !lookup_insert_Some.
    intros [[<- <-]|[Hne Ht]] [[<- <-]|[Hne' Ht']] E; [done| | |by eapply vw_dist].
    + pose proof (vw_ptr v Hwf c u Ht'). lia.
    + pose proof (vw_ptr v Hwf b t Ht). lia.
Qed.

(** [build_page_table] on enough frames. *)
Lemma build_page_table_spec tid n v : fp_wf (vm_frames v) →
  fpLock (vm_frames v) = None → 0 ≤ n ≤ Z.of_nat (size (fp_free (vm_frames v))) →
  ∃ pt v', build_page_table tid n v = Ok (vm_nextptr v, v') ∧
    ∃ v1, mapped (with_frames v (mkFrameProvider (frameMap (vm_frames v))
              (nAvailFrame (vm_frames v)) (Some tid))) (Z.to_nat n) 0 pt v1 ∧
      v' = with_nextptr (store_table (with_frames v1 (mkFrameProvider
             (frameMap (vm_frames v1)) (nAvailFrame (vm_frames v1)) None))
             (vm_nextptr v) pt) (S (vm_nextptr v)).
Proof.
  intros Hfp Hlk Hn. unfold build_page_table.
  rewrite (AcquireFpLock_free _ tid Hlk). cbn [mbind outcome_bind].
  set (v0 := with_frames v _).
  assert (fp_wf (vm_frames v0)) as Hfp0 by done.
  pose proof (u32_avail v0 Hfp0) as Hav.
  change (fp_free (vm_frames v0)) with (fp_free (vm_frames v)) in Hav.
  cbn [vm_frames with_frames v0] in Hav. rewrite Hav.
  assert (Z.of_nat (size (fp_free (vm_frames v))) ≤ NumPhysPages) as Hle.
  { by apply fp_size. }
  unfold ASSERT. destruct (Z.leb_spec n (Z.of_nat (size (fp_free (vm_frames v))))); [|lia].
  destruct (Z.leb_spec n NumPhysPages); [|lia]. cbn [mbind outcome_bind].
  destruct (map_pages_spec (Z.to_nat n) 0 v0 Hfp0) as (pt & v1 & -> & Hm).
  { change (fp_free (vm_frames v0)) with (fp_free (vm_frames v)). lia. }
  cbn [mbind outcome_bind]. pose proof (mp_state _ _ _ _ _ Hm) as (m' & fp' & Ev & _ & _ & Hl & _).
  assert (fpLock (vm_frames v1) = Some tid) as Hl1 by (rewrite Ev; simpl; by rewrite Hl).
  assert (vm_nextptr v1 = vm_nextptr v) as Hp1 by (rewrite Ev; done).
  rewrite (ReleaseFpLock_held _ tid Hl1). cbn [mbind outcome_bind].
  rewrite Hp1. eexists pt, _. split; [reflexivity|]. exists v1. by split.
Qed.
End install.

(** ** Process tables *)
Definition pids_wf (v : VM) : Prop :=
  bm_wf (pidMap v) ∧ numBits (pidMap v) = MaxProcesses ∧ 0 ≤ lastPid v ∧
  Z.of_nat (length (addrspaces v)) = MaxProcesses.

Lemma GetNewPid_spec v : pids_wf v → free_set (pidMap v) ≠ ∅ →
  ∃ p v', GetNewPid v = Ok (p, v') ∧ p ∈ free_set (pidMap v) ∧ 0 ≤ p < MaxProcesses ∧
    pids_wf v' ∧ free_set (pidMap v') = free_set (pidMap v) ∖ {[p]} ∧
    v' = with_pids v (pidMap v') (p + 1).
Proof.
  intros (Hb & Hn & Hl & Ha) Hne. unfold GetNewPid.
  destruct (FindStart_spec (pidMap v) (lastPid v) Hb Hl)
    as [[_ ?]|(k & b & -> & Hin & Hk & _ & Hu & Hf)]; [done|].
  pose proof Hin as [Hr _]%elem_of_free_set. rewrite Hn in *.
  eexists _, _. split; [reflexivity|]. cbn [pidMap with_pids lastPid addrspaces].
  split_and!; try done; try lia.
  split_and!; cbn [pidMap with_pids lastPid addrspaces]; try done; try lia.
  - by eapply updates_wf.
  - rewrite <- Hn. by eapply updates_numBits.
Qed.

(** The bytes of virtual page [i] of the address space at [a] are zero. *)
Definition zero_page (v : VM) (a i : nat) : Prop :=
  ∀ f x, owns v a i f → in_frame f x → mem_byte (vm_machine v) x = 0.
(** No byte of a frame that another address space owns has changed. *)
Definition others_untouched (v v' : VM) (a : nat) : Prop :=
  ∀ b i f, b ≠ a → owns v b i f →
    owns v' b i f ∧ ∀ x, in_frame f x → mem_byte (vm_machine v') x = mem_byte (vm_machine v) x.

(** The mapping the address space at [a] gives the machine. *)
Definition space_map (v : VM) (a : nat) (writing : bool) (va pa : Z) : Prop :=
  ∃ s pt, spaces v !! a = Some s ∧ ptables (vm_machine v) !! as_pageTable s = Some pt ∧
    page_map pt writing va pa.

Section new_space.
Implicit Types v : VM.

Lemma map_untouched v v1 n i pt f x : mapped v n i pt v1 →
  0 ≤ f < NumPhysPages → f ∉ fp_free (vm_frames v) → in_frame f x →
  mem_byte (vm_machine v1) x = mem_byte (vm_machine v) x.
Proof.
  intros Hm Hf Hnf Hx. pose proof (mp_state _ _ _ _ _ Hm)
    as (m' & fp' & -> & _ & _ & _ & _ & _ & Hkeep).
  apply Hkeep. intros g Hg Hgx. apply Hnf.
  rewrite (frames_disjoint f g x Hx Hgx). by apply (mp_free _ _ _ _ _ Hm).
Qed.

Lemma mem_store_table v p pt x :
  mem_byte (vm_machine (store_table v p pt)) x = mem_byte (vm_machine v) x.
Proof. done. Qed.

(** The state in which [build_page_table] ran, once the space is recorded. *)
Lemma new_space_installs v v1 tid n pt s a spaces' v2 :
  vm_wf v → spaces v2 = spaces v → vm_frames v2 = vm_frames v →
  vm_machine v2 = vm_machine v → a = vm_nextptr v → vm_nextptr v2 = S a →
  mapped (with_frames v2 (mkFrameProvider (frameMap (vm_frames v2))
    (nAvailFrame (vm_frames v2)) (Some tid))) n 0 pt v1 →
  as_pageTable s = S a → numPages s = Z.of_nat n → spaces' = <[a := s]> (spaces v) →
  let v3 := with_spaces (with_nextptr (store_table (with_frames v1 (mkFrameProvider
             (frameMap (vm_frames v1)) (nAvailFrame (vm_frames v1)) None))
             (S a) pt) (S (S a))) spaces' in
  installs v v3 a s [] pt.
Proof.
  intros Hwf Es Ef Em Ea En Hm Hp Hn Hsp v3.
  pose proof (mp_state _ _ _ _ _ Hm) as (m' & fp' & -> & Hsame & Hfp & _ & Hfr & _).
  constructor; subst v3; cbn [with_spaces with_nextptr store_table with_frames with_machine
    vm_frames vm_machine vm_nextptr spaces set_ptables ptables fpLock]; try done.
  - unfold fp_free in *. cbn in *. by rewrite Hfr, Ef.
  - lia. - lia. - lia.
  - rewrite Hp. apply lookup_insert_eq.
  - intros b t Hb Ht. rewrite lookup_insert_ne.
    + destruct Hsame as (_ & _ & _ & _ & -> & _). by rewrite <- Em.
    + pose proof (vw_ptr v Hwf b t Ht). lia.
  - simpl. rewrite (mp_len _ _ _ _ _ Hm). lia.
  - by intros i f (e & He & _).
  - apply (mp_nodup _ _ _ _ _ Hm).
  - intros f Hf. pose proof (mp_free _ _ _ _ _ Hm f Hf) as H. unfold fp_free in *.
    cbn in H. by rewrite Ef in H.
Qed.

Lemma BitMap_new_ok junk n : 0 ≤ n → ∃ b, BitMap_new junk n = Ok b ∧ bm_wf b ∧
  numBits b = n ∧ free_set b = list_to_set (seqZ 0 n).
Proof. intros Hn. destruct (BitMap_new_spec junk n Hn) as (b & -> & ? & ? & _ & ?). eauto 10. Qed.

(** The new pages of an installed table are zero, everybody else's memory is
    kept, and the free frames shrink by the new pages. *)
Lemma installs_size v v' a s old new : installs v v' a s old new →
  Z.of_nat (size (fp_free (vm_frames v'))) =
    Z.of_nat (size (fp_free (vm_frames v))) - Z.of_nat (length new).
Proof.
  intros Hin. rewrite (in_free _ _ _ _ _ _ Hin).
  assert (list_to_set (frames_of new) ⊆ fp_free (vm_frames v)) as Hsub.
  { intros f. rewrite elem_of_list_to_set. apply Hin. }
  pose proof (subseteq_size _ _ Hsub) as Hle.
  rewrite size_difference by done.
  rewrite size_list_to_set in * by apply Hin.
  unfold frames_of in *. rewrite length_fmap in *. lia.
Qed.

Lemma installs_zero v v' w a s old new n i k : vm_wf v → installs v v' a s old new →
  (∃ u, mapped u n i new w) → mainMemory (vm_machine v') = mainMemory (vm_machine w) →
  (length old ≤ k)%nat → zero_page v' a k.
Proof.
  intros Hwf Hin [u Hm] Emem Hk f x Ho Hx.
  apply (installs_owns v v' a s old new _ _ _ Hwf Hin) in Ho as [[? _]|[_ Ht]]; [done|].
  apply table_owns_frames in Ht. unfold frames_of in Ht. rewrite fmap_app in Ht.
  apply lookup_app_Some in Ht as [Ht%lookup_lt_Some|[_ Ht]];
    rewrite length_fmap in Ht; [lia|].
  unfold mem_byte. rewrite Emem.
  pose proof (mp_state _ _ _ _ _ Hm) as (m' & fp' & -> & _ & _ & _ & _ & Hz & _).
  apply (Hz f x); [|done]. by eapply list_elem_of_lookup_2.
Qed.

Lemma installs_untouched v v' u w a s old new n i : vm_wf v →
  installs v v' a s old new → mapped u n i new w →
  fp_free (vm_frames u) = fp_free (vm_frames v) → vm_machine u = vm_machine v →
  mainMemory (vm_machine v') = mainMemory (vm_machine w) →
  others_untouched v v' a.
Proof.
  intros Hwf Hin Hm Ef Em Emem b j f Hb Ho. split.
  - apply (installs_owns v v' a s old new); naive_solver.
  - intros x Hx. unfold mem_byte at 1. rewrite Emem.
    pose proof (vw_used v Hwf b j f Ho) as [Hf Hnf].
    rewrite <- Em. apply (map_untouched u w n i new f); [done..| |done].
    by rewrite Ef.
Qed.

(** A freshly mapped page is valid and writable. *)
Lemma installs_mapped v v' u w a s old new n va : vm_wf v →
  installs v v' a s old new → mapped u n (Z.of_nat (length old)) new w →
  fp_free (vm_frames u) = fp_free (vm_frames v) →
  Z.of_nat (length old) * PageSize ≤ va < numPages s * PageSize → is_u32 va →
  ∃ pa, space_map v' a true va pa.
Proof.
  intros Hwf Hin Hm Ef Hva Hu. pose proof (in_len _ _ _ _ _ _ Hin) as Hl.
  rewrite length_app in Hl.
  assert (Z.of_nat (length old) ≤ va / PageSize < numPages s) as Hpg
    by (unfold PageSize, SectorSize in *; zcases).
  destruct (lookup_lt_is_Some_2 new (Z.to_nat (va / PageSize) - length old)) as [e He]; [lia|].
  pose proof (mp_entry _ _ _ _ _ Hm _ e He) as Ee.
  assert (physicalPage e ∈ fp_free (vm_frames v)) as Hf.
  { rewrite <- Ef. apply (mp_free _ _ _ _ _ Hm).
    eapply (list_elem_of_lookup_2 (frames_of new)). unfold frames_of.
    by rewrite list_lookup_fmap, He. }
  eexists _, s, (old ++ new). split_and!.
  - rewrite (in_spaces _ _ _ _ _ _ Hin). apply lookup_insert_eq.
  - apply Hin.
  - exists e. rewrite u32_id by done. rewrite lookup_app_r by lia.
    rewrite Ee at 2 3. split_and!; try done.
    by apply (fp_free_bound _ _ (vw_fp v Hwf)).
Qed.

Lemma installs_owned v v' a s old new k : vm_wf v → installs v v' a s old new →
  (Z.of_nat k < numPages s) → ∃ f, owns v' a k f.
Proof.
  intros Hwf Hin Hk. rewrite <- (in_len _ _ _ _ _ _ Hin) in Hk.
  destruct (lookup_lt_is_Some_2 (old ++ new) k) as [e He]; [lia|].
  exists (physicalPage e). apply (installs_owns v v' a s old new); [done..|].
  right. split; [done|]. by exists e.
Qed.
End new_space.

(** The constructor on enough frames and a free process identifier. *)
Lemma AddrSpace_new_full junk junkThreads tid nPages v :
  vm_wf v → pids_wf v → free_set (pidMap v) ≠ ∅ →
  0 ≤ nPages ≤ Z.of_nat (size (fp_free (vm_frames v))) →
  ∃ self v' s, AddrSpace_new junk junkThreads tid nPages v = Ok (self, v') ∧
    vm_wf v' ∧ pids_wf v' ∧ spaces v !! self = None ∧ spaces v' !! self = Some s ∧
    numPages s = nPages ∧ pid s ∈ free_set (pidMap v) ∖ free_set (pidMap v') ∧
    addrspaces v' !! Z.to_nat (pid s) = Some (Some self) ∧
    (∀ i, (i < Z.to_nat nPages)%nat → ∃ f, owns v' self i f) ∧
    (∀ va, 0 ≤ va < nPages * PageSize → ∃ pa, space_map v' self true va pa) ∧
    (∀ i, zero_page v' self i) ∧ others_untouched v v' self ∧
    Z.of_nat (size (fp_free (vm_frames v'))) =
      Z.of_nat (size (fp_free (vm_frames v))) - nPages ∧ brk s = u32 (nPages * PageSize) ∧
    tlb (vm_machine v') = tlb (vm_machine v) ∧ registers (vm_machine v') = registers (vm_machine v).
Proof.
  intros Hwf Hp Hne Hn. unfold AddrSpace_new.
  destruct (GetNewPid_spec v Hp Hne) as (p & v1 & -> & Hpin & Hpr & Hp1 & Hpf & Ev1).
  cbn [mbind outcome_bind].
  assert (Z.of_nat (length (addrspaces v1)) = MaxProcesses) as Hal by apply Hp1.
  rewrite (arr_set_in (addrspaces v1) p) by lia. cbn [mbind outcome_bind].
  assert (vm_nextptr v1 = vm_nextptr v) as En by (rewrite Ev1; done).
  rewrite En. set (a := vm_nextptr v). set (v2 := with_nextptr _ _).
  assert (spaces v2 = spaces v ∧ vm_frames v2 = vm_frames v ∧ vm_machine v2 = vm_machine v)
    as (Es & Ef & Em) by (subst v2; rewrite Ev1; done).
  destruct (build_page_table_spec tid nPages v2) as (pt & v3 & -> & w & Hm & ->);
    [rewrite Ef; apply Hwf..|by rewrite Ef|]. cbn [mbind outcome_bind].
  destruct (BitMap_new_ok junk MAX_SEM) as (sb & -> & _); [by vm_compute|].
  cbn [mbind outcome_bind]. unfold InitializeThreadData.
  destruct (BitMap_new_ok junk MaxThreadsPerProcess) as (tb & -> & _); [by vm_compute|].
  cbn [mbind outcome_bind].
  match goal with |- context [Ok (a, with_spaces _ (<[a := ?t]> _))] => set (s := t) end.
  pose proof (new_space_installs v w tid (Z.to_nat nPages) pt s a (<[a := s]> (spaces v)) v2
    Hwf Es Ef Em eq_refl eq_refl Hm eq_refl ltac:(simpl; lia) eq_refl) as Hin.
  pose proof (mp_state _ _ _ _ _ Hm) as (m' & fp' & Ew & Hsame & _).
  assert (spaces w = spaces v) as Esw by (rewrite Ew, <- Es; done).
  eexists a, _, s. split; [cbn; rewrite Esw; reflexivity|].
  split_and!.
  - by eapply installs_wf.
  - rewrite Ew. destruct Hp1 as (?&?&?&Hal1). split_and!; try done; simpl.
    by rewrite length_insert.
  - destruct (spaces v !! a) as [t|] eqn:E; [|done].
    pose proof (vw_ptr v Hwf a t E). subst a. lia.
  - apply lookup_insert_eq.
  - done.
  - rewrite Ew. cbn -[free_set]. rewrite Hpf. set_solver.
  - rewrite Ew. cbn. apply list_lookup_insert_eq. lia.
  - intros i Hi. eapply installs_owned; [done..|]. simpl. lia.
  - intros va Hva. eapply installs_mapped; [done|exact Hin|exact Hm|..].
    + unfold fp_free. simpl. by rewrite Ev1.
    + simpl. lia.
    + pose proof (fp_size v (vw_fp v Hwf)).
      unfold is_u32, two32, NumPhysPages, PageSize, SectorSize in *. lia.
  - intros i. eapply installs_zero; [done|done|by eexists|done|simpl; lia].
  - eapply installs_untouched; [done|done|exact Hm|..]; [|done..].
    unfold fp_free. simpl. by rewrite Ev1.
  - rewrite (installs_size _ _ _ _ _ _ Hin), (mp_len _ _ _ _ _ Hm). lia.
  - done.
  - rewrite Ew. cbn. destruct Hsame as (_ & Etlb & _). rewrite Etlb. exact (f_equal tlb Em).
  - rewrite Ew. cbn. destruct Hsame as (Er & _). rewrite Er. exact (f_equal registers Em).
Qed.
Lemma AddrSpace_new_spec junk junkThreads tid nPages v :
  vm_wf v → pids_wf v → free_set (pidMap v) ≠ ∅ →
  0 ≤ nPages ≤ Z.of_nat (size (fp_free (vm_frames v))) →
  ∃ self v' s, AddrSpace_new junk junkThreads tid nPages v = Ok (self, v') ∧
    vm_wf v' ∧ pids_wf v' ∧ spaces v !! self = None ∧ spaces v' !! self = Some s ∧
    numPages s = nPages ∧ pid s ∈ free_set (pidMap v) ∖ free_set (pidMap v') ∧
    addrspaces v' !! Z.to_nat (pid s) = Some (Some self) ∧
    (∀ i, (i < Z.to_nat nPages)%nat → ∃ f, owns v' self i f) ∧
    (∀ va, 0 ≤ va < nPages * PageSize → ∃ pa, space_map v' self true va pa) ∧
    (∀ i, zero_page v' self i) ∧ others_untouched v v' self ∧
    Z.of_nat (size (fp_free (vm_frames v'))) =
      Z.of_nat (size (fp_free (vm_frames v))) - nPages ∧ brk s = u32 (nPages * PageSize).
Proof.
  intros Hwf Hp Hne Hn.
  destruct (AddrSpace_new_full junk junkThreads tid nPages v Hwf Hp Hne Hn) as (a & v' & s & H).
  exists a, v', s. by destruct_and!.
Qed.

(** ** Growing the heap *)
Section sbrk.
Implicit Types v : VM.

Lemma take_all_pages v a s old : vm_wf v → spaces v !! a = Some s →
  ptables (vm_machine v) !! as_pageTable s = Some old →
  Z.of_nat (length old) = numPages s ∧ take (Z.to_nat (numPages s)) old = old.
Proof.
  intros Hwf Hs Ht. destruct (vw_tables v Hwf a s Hs) as (pt & Hpt & Hl).
  assert (pt = old) as -> by congruence. split; [done|]. apply take_ge. lia.
Qed.

(** The guard of [do_Sbrk], evaluated under the lock. *)
Lemma avail_guard v n l : fp_wf (vm_frames v) →
  (n <=? u32 (NumAvailFrame (mkFrameProvider (frameMap (vm_frames v))
     (nAvailFrame (vm_frames v)) l))) = (n <=? Z.of_nat (size (fp_free (vm_frames v)))).
Proof. intros H. by rewrite <- (u32_avail v H). Qed.

Lemma sbrk_installs v w a s old new tid n pages :
  vm_wf v → spaces v !! a = Some s →
  ptables (vm_machine v) !! as_pageTable s = Some old →
  mapped (with_frames v (mkFrameProvider (frameMap (vm_frames v))
    (nAvailFrame (vm_frames v)) (Some tid))) n (numPages s) new w →
  pages = numPages s + Z.of_nat n →
  let p := vm_nextptr v in
  let s' := with_pages s pages p (u32 (pages * PageSize)) in
  let w2 := delete_table (with_nextptr (store_table w p (old ++ new)) (S p)) (as_pageTable s) in
  let w3 := with_spaces w2 (<[a := s']> (spaces w2)) in
  let w4 := with_machine w3 (set_pageTable (vm_machine w3) (Some p) pages) in
  installs v (with_frames w4 (mkFrameProvider (frameMap (vm_frames w))
    (nAvailFrame (vm_frames w)) None)) a s' old new.
Proof.
  intros Hwf Hs Ht Hm -> p s' w2 w3 w4.
  pose proof (mp_state _ _ _ _ _ Hm) as (m' & fp' & -> & Hsame & Hfp & _ & Hfr & _).
  pose proof (vw_ptr v Hwf a s Hs) as [Hpa Hpt].
  destruct (take_all_pages v a s old Hwf Hs Ht) as [Hlen _].
  constructor; subst w4 w3 w2 s' p; cbn; try done; try lia.
  - rewrite lookup_delete_ne by lia. apply lookup_insert_eq.
  - intros b t Hb Hbt. pose proof (vw_ptr v Hwf b t Hbt).
    rewrite lookup_delete_ne by (intros E; apply Hb; by apply (vw_dist v Hwf b a t s)).
    rewrite lookup_insert_ne by lia. by destruct Hsame as (_ & _ & _ & _ & -> & _).
  - rewrite length_app, (mp_len _ _ _ _ _ Hm). lia.
  - intros i f Ho. by apply (owns_table v a s old).
  - apply (mp_nodup _ _ _ _ _ Hm).
  - intros f Hf. by apply (mp_free _ _ _ _ _ Hm f Hf).
Qed.
End sbrk.

(** [do_Sbrk n] with [n] frames available returns the old break and grows
    the calling process by exactly [n] zeroed pages: the pages it had keep
    their frames, the machine runs on the new table, and no byte and no page of
    another process changes. *)
Theorem do_Sbrk_grows self tid n v s :
  vm_wf v → spaces v !! self = Some s → 0 ≤ n ≤ Z.of_nat (size (fp_free (vm_frames v))) →
  numPages s + n ≤ NumPhysPages → 0 ≤ numPages s → brk s = numPages s * PageSize →
  ∃ v' s', do_Sbrk self tid n v = Ok (numPages s * PageSize, v') ∧ vm_wf v' ∧
    spaces v' !! self = Some s' ∧ numPages s' = numPages s + n ∧
    brk s' = numPages s' * PageSize ∧
    pageTable (vm_machine v') = Some (as_pageTable s') ∧
    pageTableSize (vm_machine v') = numPages s' ∧
    (∀ i f, owns v self i f → owns v' self i f) ∧
    (∀ i, numPages s ≤ Z.of_nat i < numPages s' → ∃ f, owns v' self i f) ∧
    (∀ i, numPages s ≤ Z.of_nat i → zero_page v' self i) ∧ others_untouched v v' self.
Proof.
  intros Hwf Hs Hn Hpg Hp0 Hbrk. unfold do_Sbrk, get_space, get_table.
  rewrite (AcquireFpLock_free _ tid (vw_lock v Hwf)). cbn [mbind outcome_bind].
  rewrite Hs. cbn [mbind outcome_bind]. set (v0 := with_frames v _).
  pose proof (vw_fp v Hwf) as Hfp. assert (fp_wf (vm_frames v0)) as Hfp0 by done.
  rewrite (avail_guard v n _ Hfp), (proj2 (Z.leb_le _ _)) by lia.
  destruct (vw_tables v Hwf self s Hs) as (old & Hold & Hlen). rewrite Hold.
  cbn [mbind outcome_bind]. destruct (Z.ltb_spec (Z.of_nat (length old)) (numPages s)); [lia|].
  cbn [mbind outcome_bind].
  destruct (map_pages_spec (Z.to_nat n) (numPages s) v0 Hfp0) as (new & w & -> & Hm).
  { change (fp_free (vm_frames v0)) with (fp_free (vm_frames v)). lia. }
  cbn [mbind outcome_bind]. pose proof (mp_state _ _ _ _ _ Hm) as (m' & fp' & Ev & _ & _ & Hl & _).
  rewrite (proj2 (take_all_pages v self s old Hwf Hs Hold)).
  assert (u32 (numPages s + n) = numPages s + n) as ->
    by (apply u32_id; unfold is_u32, two32, NumPhysPages in *; lia).
  assert (vm_nextptr w = vm_nextptr v) as -> by (rewrite Ev; done).
  set (pages := numPages s + n).
  pose proof (sbrk_installs v w self s old new tid (Z.to_nat n) pages Hwf Hs Hold Hm
    ltac:(subst pages; lia)) as Hin. cbv zeta in Hin.
  rewrite ReleaseFpLock_held by (rewrite Ev; simpl; by rewrite Hl).
  cbn [mbind outcome_bind].
  assert (u32 (i32 (brk s)) = numPages s * PageSize) as ->.
  { rewrite u32_i32, Hbrk. apply u32_id.
    unfold is_u32, two32, NumPhysPages, PageSize, SectorSize in *. lia. }
  eexists _, _. split; [reflexivity|]. split_and!.
  - by eapply installs_wf.
  - apply lookup_insert_eq.
  - done.
  - simpl. apply u32_id. unfold is_u32, two32, NumPhysPages, PageSize, SectorSize in *. lia.
  - done.
  - done.
  - intros i f Ho. eapply installs_owns; [done|exact Hin|]. right. split; [done|].
    apply (owns_table v self s old) in Ho as (e & He & <-); [|done..].
    exists e. split; [|done]. by apply lookup_app_l_Some.
  - intros i Hi. eapply installs_owned; [done|exact Hin|]. simpl in *. lia.
  - intros i Hi. eapply installs_zero; [done|exact Hin|by eexists|done|lia].
  - eapply installs_untouched; [done|exact Hin|exact Hm|done..].
Qed.

(** When fewer than [n] frames are free, [do_Sbrk n] returns 0 and leaves
    the whole memory system, the frame lock included, as it was. *)
Theorem do_Sbrk_refused self tid n v s :
  vm_wf v → spaces v !! self = Some s → Z.of_nat (size (fp_free (vm_frames v))) < n →
  do_Sbrk self tid n v = Ok (0, v).
Proof.
  intros Hwf Hs Hn. unfold do_Sbrk, get_space.
  rewrite (AcquireFpLock_free _ tid (vw_lock v Hwf)). cbn [mbind outcome_bind].
  rewrite Hs. cbn [mbind outcome_bind].
  rewrite (avail_guard v n _ (vw_fp v Hwf)), (proj2 (Z.leb_gt _ _)) by lia.
  rewrite ReleaseFpLock_held by done. cbn [mbind outcome_bind frameMap nAvailFrame].
  pose proof (vw_lock v Hwf) as Hl. destruct v as [? [? ? ?] ???????]. simpl in *. by subst.
Qed.

(** ** Isolation *)

Lemma page_of_phys f g x y : 0 ≤ x < PageSize → 0 ≤ y < PageSize →
  f * PageSize + x = g * PageSize + y → f = g ∧ x = y.
Proof. unfold PageSize, SectorSize. lia. Qed.

Lemma space_map_inj v a b w1 w2 va1 va2 pa : vm_wf v →
  space_map v a w1 va1 pa → space_map v b w2 va2 pa → a = b ∧ u32 va1 = u32 va2.
Proof.
  intros Hwf (s & pt & Hs & Ht & e & He & _ & _ & _ & Epa)
    (s' & pt' & Hs' & Ht' & e' & He' & _ & _ & _ & Epa').
  pose proof (Z.mod_pos_bound (u32 va1) PageSize) as H1.
  pose proof (Z.mod_pos_bound (u32 va2) PageSize) as H2.
  pose proof (u32_range va1) as R1. pose proof (u32_range va2) as R2.
  unfold is_u32 in *.
  rewrite Epa in Epa'. apply page_of_phys in Epa' as [Ef Eo];
    [|apply H1; by vm_compute|apply H2; by vm_compute].
  destruct (vw_excl v Hwf a (Z.to_nat (u32 va1 / PageSize)) b (Z.to_nat (u32 va2 / PageSize))
    (physicalPage e)) as [-> Ei]; [by exists s, pt, e|exists s', pt', e'; by rewrite Ef|].
  split; [done|].
  assert (u32 va1 / PageSize = u32 va2 / PageSize).
  { pose proof (Z.div_pos (u32 va1) PageSize). pose proof (Z.div_pos (u32 va2) PageSize).
    unfold PageSize, SectorSize in *. lia. }
  rewrite (Z.div_mod (u32 va1) PageSize), (Z.div_mod (u32 va2) PageSize) by done. congruence.
Qed.

(** The other bytes of an aligned access. *)
Lemma space_byte v a w va pa k : 0 ≤ k → u32 va mod PageSize + k < PageSize → space_map v a w va pa →
  space_map v a w (u32 va + k) (pa + k) ∧ u32 (u32 va + k) = u32 va + k.
Proof.
  intros Hk Hoff (s & pt & Hs & Hpt & e & He & H1 & H2 & H3 & ->).
  pose proof (u32_range va) as Hu. unfold is_u32, two32 in Hu.
  assert (u32 (u32 va + k) = u32 va + k) as Eu.
  { apply u32_id. unfold is_u32, two32, PageSize, SectorSize in *. zcases. }
  assert ((u32 va + k) / PageSize = u32 va / PageSize ∧ (u32 va + k) mod PageSize = u32 va mod PageSize + k) as [Ed Em]
    by (unfold PageSize, SectorSize in *; zcases).
  split; [|done]. exists s, pt. split; [done|]. split; [done|]. exists e. rewrite Eu, Ed, Em. split_and!; try done. lia.
Qed.

Lemma restored_mmu v a v1 : vm_wf v → tlb (vm_machine v) = None → RestoreState a v = Ok (tt, v1) →
  ∃ s pt, spaces v !! a = Some s ∧ ptables (vm_machine v) !! as_pageTable s = Some pt ∧ mmu_wf (vm_machine v1) ∧
    pageTable (vm_machine v1) = Some (as_pageTable s) ∧ ptables (vm_machine v1) = ptables (vm_machine v).
Proof.
  intros Hwf Htlb Hr. unfold RestoreState, get_space in Hr.
  destruct (spaces v !! a) as [s|] eqn:Es; [|discriminate Hr]. cbn [mbind outcome_bind] in Hr. injection Hr as <-.
  destruct (vw_tables v Hwf a s Es) as (pt & Hpt & Hlen). exists s, pt. split; [done|]. split; [done|]. split; [|done].
  split; [done|]. exists (as_pageTable s), pt. split; [done|]. split; [done|]. split; [done|].
  apply Forall_lookup. intros i e He. destruct (vw_used v Hwf a i (physicalPage e)) as [[? ?] _]; [by exists s, pt, e|].
  unfold entry_wf, is_u32, two32, NumPhysPages in *. lia.
Qed.

(** With the page table of [a] in the MMU, a translation that succeeds stays in
    the pages of [a], and every mapped address is translated. *)
Lemma restored_translate v a v1 va n w pa m : vm_wf v → tlb (vm_machine v) = None → access_size n →
  RestoreState a v = Ok (tt, v1) → Translate (vm_machine v1) va n w = Ok (NoException, pa, m) →
  space_map v a w va pa ∧ u32 va mod PageSize + n ≤ PageSize.
Proof.
  intros Hwf Htlb Hn Hr Ht. destruct (restored_mmu v a v1 Hwf Htlb Hr) as (s & pt & Hs & Hpt & Hmmu & Hp1 & Hpt1).
  assert (misaligned va n = false) as Hal.
  { unfold Translate in Ht. by destruct (misaligned va n). }
  destruct (Translate_spec _ va n w Hmmu Hn) as [(ex & Hne & E)|(p & pt' & pa' & e & m' & Hp & Hpt' & E & Hmap & _)];
    rewrite Ht in E; [congruence|]. injection E as <- <-. split; [|by apply aligned_offset].
  exists s, pt. split; [done|]. split; [done|]. rewrite Hp1 in Hp. injection Hp as <-. congruence.
Qed.
Lemma restored_complete v a v1 va n w : vm_wf v → tlb (vm_machine v) = None → access_size n →
  RestoreState a v = Ok (tt, v1) → misaligned va n = false → (∃ pa, space_map v a w va pa) →
  ∃ pa m, Translate (vm_machine v1) va n w = Ok (NoException, pa, m).
Proof.
  intros Hwf Htlb Hn Hr Hal (pa & s' & pt' & Hs' & Hpt' & Hmap).
  destruct (restored_mmu v a v1 Hwf Htlb Hr) as (s & pt & Hs & Hpt & Hmmu & Hp1 & Hpt1).
  destruct (Translate_complete (vm_machine v1) va n w (as_pageTable s) pt pa Hmmu Hn Hal Hp1) as (m & E & _); [congruence|congruence|].
  by exists pa, m.
Qed.

(** C1: Isolation.  Install the page table of two address spaces in turn and let
    the MMU translate an access in each: when the two accesses share a physical
    byte, the address spaces are the same and the byte has the same virtual
    address.  No process can read or write a byte of another, and no two virtual
    pages of a process alias. *)
Theorem isolation v a b v1 v2 va1 va2 n1 n2 w1 w2 pa1 pa2 m1 m2 x :
  vm_wf v → tlb (vm_machine v) = None → access_size n1 → access_size n2 →
  RestoreState a v = Ok (tt, v1) → Translate (vm_machine v1) va1 n1 w1 = Ok (NoException, pa1, m1) →
  RestoreState b v = Ok (tt, v2) → Translate (vm_machine v2) va2 n2 w2 = Ok (NoException, pa2, m2) →
  pa1 ≤ x < pa1 + n1 → pa2 ≤ x < pa2 + n2 →
  a = b ∧ u32 va1 + (x - pa1) = u32 va2 + (x - pa2).
Proof.
  intros Hwf Htlb Hn1 Hn2 R1 T1 R2 T2 Hx1 Hx2.
  destruct (restored_translate v a v1 va1 n1 w1 pa1 m1) as [M1 A1]; try done.
  destruct (restored_translate v b v2 va2 n2 w2 pa2 m2) as [M2 A2]; try done.
  apply (space_byte v a w1 va1 pa1 (x - pa1)) in M1 as [M1 E1]; [|lia|lia].
  apply (space_byte v b w2 va2 pa2 (x - pa2)) in M2 as [M2 E2]; [|lia|lia].
  replace (pa1 + (x - pa1)) with x in M1 by lia. replace (pa2 + (x - pa2)) with x in M2 by lia.
  destruct (space_map_inj v a b w1 w2 _ _ x Hwf M1 M2) as [-> E]. split; [done|]. congruence.
Qed.

(** ** The end of a process *)
Section release.
Implicit Types v : VM.

Lemma release_all_spec fs fp : fp_wf fp → NoDup fs →
  (∀ f, f ∈ fs → 0 ≤ f < NumPhysPages ∧ f ∉ fp_free fp) →
  ∃ fp', release_all fs fp = Ok fp' ∧ fp_wf fp' ∧
    fp_free fp' = list_to_set fs ∪ fp_free fp ∧ fpLock fp' = fpLock fp.
Proof.
  revert fp. induction fs as [|f fs IH]; intros fp Hwf Hnd Hf.
  { exists fp. split_and!; try done. set_solver. }
  apply NoDup_cons in Hnd as [Hnin Hnd]. cbn [release_all].
  destruct (Hf f) as [Hb Hnf]; [set_solver|].
  destruct (ReleaseFrame_spec fp f Hwf Hb Hnf) as (fp1 & -> & Hwf1 & Hfr & Hl).
  cbn [mbind outcome_bind].
  destruct (IH fp1 Hwf1 Hnd) as (fp' & -> & Hwf' & Hfr' & Hl').
  { intros g Hg. destruct (Hf g) as [? ?]; [set_solver|]. split; [done|].
    rewrite Hfr. set_solver. }
  exists fp'. split_and!; try done; [|congruence]. rewrite Hfr', Hfr. set_solver.
Qed.

Lemma frames_nodup v a s pt : vm_wf v → spaces v !! a = Some s →
  ptables (vm_machine v) !! as_pageTable s = Some pt →
  NoDup (frames_of pt) ∧
  ∀ f, f ∈ frames_of pt → 0 ≤ f < NumPhysPages ∧ f ∉ fp_free (vm_frames v).
Proof.
  intros Hwf Hs Ht. assert (∀ i f, frames_of pt !! i = Some f → owns v a i f) as Ho.
  { intros i f Hi. apply (owns_table v a s pt _ _ Hs Ht). by apply table_owns_frames. }
  split.
  - apply NoDup_alt. intros i j f Hi Hj.
    by apply (vw_excl v Hwf a i a j f); apply Ho.
  - intros f [i Hi]%list_elem_of_lookup_1. by apply (vw_used v Hwf a i), Ho.
Qed.

(** The state without the address space [s] at [a]. *)
Definition dropped v fp (a : nat) (s : AddrSpace) : VM :=
  with_spaces (delete_table (with_frames v fp) (as_pageTable s)) (delete a (spaces v)).

Lemma dropped_owns v fp a s b i f : vm_wf v → spaces v !! a = Some s →
  owns (dropped v fp a s) b i f ↔ b ≠ a ∧ owns v b i f.
Proof.
  intros Hwf Hs. unfold owns, dropped. cbn. split.
  - intros (t & q & e & [Hne Hb]%lookup_delete_Some & [Hne' Hq]%lookup_delete_Some & ?).
    naive_solver.
  - intros [Hne (t & q & e & Hb & Hq & ?)]. exists t, q, e.
    rewrite !lookup_delete_ne; [done| |done].
    intros E. apply Hne. symmetry. by apply (vw_dist v Hwf a b s t).
Qed.

Lemma dropped_wf v fp a s pt : vm_wf v → spaces v !! a = Some s →
  ptables (vm_machine v) !! as_pageTable s = Some pt →
  fp_wf fp → fpLock fp = None →
  fp_free fp = list_to_set (frames_of pt) ∪ fp_free (vm_frames v) →
  vm_wf (dropped v fp a s).
Proof.
  intros Hwf Hs Ht Hfp Hlk Hfr.
  constructor; try done; cbn [dropped with_spaces delete_table with_frames with_machine
    vm_frames vm_machine spaces set_ptables ptables vm_nextptr].
  - intros b t [Hne Hb]%lookup_delete_Some.
    destruct (vw_tables v Hwf b t Hb) as (q & Hq & ?).
    exists q. split; [|done]. rewrite lookup_delete_ne; [done|].
    intros E. apply Hne. by apply (vw_dist v Hwf a b s t).
  - intros b t [_ Hb]%lookup_delete_Some. by apply (vw_ptr v Hwf b t).
  - intros b c t u [_ Hb]%lookup_delete_Some [_ Hc]%lookup_delete_Some.
    by apply (vw_dist v Hwf b c).
  - intros b i f [Hne Hf]%dropped_owns; [|done..].
    destruct (vw_used v Hwf b i f Hf) as [? Hnf]. split; [done|].
    rewrite Hfr, elem_of_union, elem_of_list_to_set.
    intros [[j Hj]%list_elem_of_lookup_1|?]; [|done].
    apply Hne, (vw_excl v Hwf b i a j f Hf).
    apply (owns_table v a s pt _ _ Hs Ht). by apply table_owns_frames.
  - intros b i c j f [_ H1]%dropped_owns [_ H2]%dropped_owns; [|done..].
    by eapply vw_excl.
Qed.
End release.

(** The end of a process ([ReleaseFrames], then the destructor) never faults
    on a well-formed memory system, gives back exactly the frames of its page
    table and leaves every other process as it was. *)
Theorem process_end v a s pt :
  vm_wf v → spaces v !! a = Some s →
  ptables (vm_machine v) !! as_pageTable s = Some pt →
  ∃ v1 v2, ReleaseFrames a v = Ok (tt, v1) ∧ AddrSpace_delete a v1 = Ok (tt, v2) ∧
    vm_wf v2 ∧ spaces v2 = delete a (spaces v) ∧
    fp_free (vm_frames v2) = fp_free (vm_frames v) ∪ list_to_set (frames_of pt) ∧
    others_untouched v v2 a.
Proof.
  intros Hwf Hs Ht. unfold ReleaseFrames, get_space, get_table.
  rewrite Hs. cbn [mbind outcome_bind]. rewrite Ht. cbn [mbind outcome_bind].
  destruct (take_all_pages v a s pt Hwf Hs Ht) as [Hlen Htake].
  rewrite Hlen, Z.ltb_irrefl, Htake. cbn [mbind outcome_bind].
  destruct (frames_nodup v a s pt Hwf Hs Ht) as [Hnd Hin].
  destruct (release_all_spec (frames_of pt) (vm_frames v) (vw_fp v Hwf) Hnd Hin)
    as (fp' & Er & Hwf' & Hfr & Hlk).
  unfold frames_of in Er. rewrite Er. cbn [mbind outcome_bind].
  exists (with_frames v fp'), (dropped v fp' a s). split; [reflexivity|].
  unfold AddrSpace_delete, get_space. cbn [spaces with_frames]. rewrite Hs.
  split; [reflexivity|]. split; [|split; [done|split]].
  - apply (dropped_wf v fp' a s pt); try done. by rewrite Hlk, (vw_lock v Hwf).
  - cbn. rewrite Hfr. set_solver.
  - intros b i f Hne Hb. split; [by apply dropped_owns|done].
Qed.

(** ** The state [Initialize] (threads/system.cc) sets up

    [junkA] and [junkT] are the contents of the two pointer arrays, which are
    not initialised. *)
Definition Initialize_vm (junk : nat → Z) (junkA junkT : option nat) (size0 : Z) : outcome VM :=
  tm ← BitMap_new junk MaxThreads;
  pm ← BitMap_new junk MaxProcesses;
  fp ← FrameProvider_new junk;
  Ok (mkVM (Machine_new size0) fp 0 pm 0 ∅ (replicate (Z.to_nat MaxProcesses) junkA)
        tm (replicate (Z.to_nat MaxThreads) junkT) ∅).

Lemma Initialize_vm_spec junk junkA junkT size0 : ∃ v,
  Initialize_vm junk junkA junkT size0 = Ok v ∧ vm_wf v ∧ pids_wf v ∧ spaces v = ∅ ∧
  size (fp_free (vm_frames v)) = Z.to_nat NumPhysPages ∧
  free_set (pidMap v) = list_to_set (seqZ 0 MaxProcesses) ∧
  bm_wf (tidMap v) ∧ numBits (tidMap v) = MaxThreads ∧
  free_set (tidMap v) = list_to_set (seqZ 0 MaxThreads) ∧
  Z.of_nat (length (threadsInfos v)) = MaxThreads ∧ tinfos v = ∅.
Proof.
  unfold Initialize_vm.
  destruct (BitMap_new_ok junk MaxThreads) as (tm & -> & Ht & Htn & Htf); [by vm_compute|].
  destruct (BitMap_new_ok junk MaxProcesses) as (pm & -> & Hp & Hpn & Hpf); [by vm_compute|].
  destruct (FrameProvider_new_spec junk) as (fp & -> & Hfp & Hl & Hfr).
  cbn [mbind outcome_bind]. eexists. split; [reflexivity|].
  cbn [vm_frames pidMap spaces tidMap threadsInfos tinfos].
  split; [|split; [|split; [exact eq_refl|split; [|split; [exact Hpf|split; [exact Ht|
    split; [exact Htn|split; [exact Htf|split; [|exact eq_refl]]]]]]]]].
  - constructor; cbn [vm_frames spaces]; [done|done|..].
    + intros a s. by rewrite lookup_empty.
    + intros a s. by rewrite lookup_empty.
    + intros a b s t. by rewrite lookup_empty.
    + intros a i f (s & pt & e & Hs & _). cbn [spaces] in Hs. by rewrite lookup_empty in Hs.
    + intros a i b j f (s & pt & e & Hs & _). cbn [spaces] in Hs. by rewrite lookup_empty in Hs.
  - split; [exact Hp|split; [exact Hpn|split; [apply Z.le_refl|]]].
    cbn [addrspaces]. rewrite length_replicate, Z2Nat.id; [done|]. by vm_compute.
  - rewrite Hfr, size_list_to_set by apply NoDup_seqZ. apply length_seqZ.
  - rewrite length_replicate, Z2Nat.id; [done|]. by vm_compute.
Qed.

(** A running system: booted, with one address space of four pages. *)
Definition demo_vm : outcome (nat * VM) :=
  v ← Initialize_vm (λ _, 170) None None 0; AddrSpace_new (λ _, 85) 3 1 4 v.

Lemma demo_vm_spec : ∃ self v s, demo_vm = Ok (self, v) ∧ vm_wf v ∧
  spaces v !! self = Some s ∧ numPages s = 4 ∧ brk s = 512 ∧
  (∀ va, 0 ≤ va < 512 → ∃ pa, space_map v self true va pa) ∧
  Z.of_nat (size (fp_free (vm_frames v))) = 2092 ∧ pids_wf v.
Proof.
  unfold demo_vm.
  destruct (Initialize_vm_spec (λ _, 170) None None 0)
    as (v & -> & Hwf & Hp & _ & Hsz & Hf & _). cbn [mbind outcome_bind].
  destruct (AddrSpace_new_spec (λ _, 85) 3 1 4 v Hwf Hp) as
    (self & v' & s & -> & Hwf' & Hp' & _ & Hs & Hn & _ & _ & _ & Hmap & _ & _ & Hsz' & Hbrk).
  - rewrite Hf. intros E. apply (not_elem_of_empty (C:=gset Z) 0).
    rewrite <- E, elem_of_list_to_set, elem_of_seqZ. split; [apply Z.le_refl|reflexivity].
  - rewrite Hsz. clear. by vm_compute.
  - exists self, v', s. split; [reflexivity|].
    split; [exact Hwf'|split; [exact Hs|split; [exact Hn|split; [exact Hbrk|split; [exact Hmap|split; [|exact Hp']]]]]].
    rewrite Hsz', Hsz. clear. by vm_compute.
Qed.

(** C22: Creating an address space of [nPages] pages, when a process identifier
    and enough frames are free, returns a fresh object: its pages are backed by
    distinct frames nobody else owns, every byte of them is zero, it is
    registered under a process identifier that was free, no byte of another
    process changes, and the number of free frames drops by exactly [nPages]. *)
Theorem AddrSpace_new_fresh junk junkThreads tid nPages v :
  vm_wf v → pids_wf v → free_set (pidMap v) ≠ ∅ →
  0 ≤ nPages ≤ Z.of_nat (size (fp_free (vm_frames v))) →
  ∃ self v' s, AddrSpace_new junk junkThreads tid nPages v = Ok (self, v') ∧
    vm_wf v' ∧ pids_wf v' ∧ spaces v !! self = None ∧ spaces v' !! self = Some s ∧
    numPages s = nPages ∧ pid s ∈ free_set (pidMap v) ∖ free_set (pidMap v') ∧
    addrspaces v' !! Z.to_nat (pid s) = Some (Some self) ∧
    (∀ i, (i < Z.to_nat nPages)%nat → ∃ f, owns v' self i f) ∧
    (∀ va, 0 ≤ va < nPages * PageSize → ∃ pa, space_map v' self true va pa) ∧
    (∀ i, zero_page v' self i) ∧ others_untouched v v' self ∧
    Z.of_nat (size (fp_free (vm_frames v'))) =
      Z.of_nat (size (fp_free (vm_frames v))) - nPages ∧ brk s = u32 (nPages * PageSize).
Proof. intros. by apply AddrSpace_new_spec. Qed.

Lemma all_free_nonempty n : 0 < n → list_to_set (seqZ 0 n) ≠@{gset Z} ∅.
Proof.
  intros Hn E. apply (not_elem_of_empty (C:=gset Z) 0).
  rewrite <- E, elem_of_list_to_set, elem_of_seqZ. lia.
Qed.

Lemma AddrSpace_new_fresh_witness : ∃ v self v', Initialize_vm (λ _, 7) None None 0 = Ok v ∧
  AddrSpace_new (λ _, 9) 0 1 20 v = Ok (self, v') ∧ vm_wf v' ∧ zero_page v' self 19 ∧
  Z.of_nat (size (fp_free (vm_frames v'))) = 2076.
Proof.
  destruct (Initialize_vm_spec (λ _, 7) None None 0) as (v & Hv & Hwf & Hp & _ & Hsz & Hf & _).
  destruct (AddrSpace_new_fresh (λ _, 9) 0 1 20 v Hwf Hp) as
    (self & v' & s & Hn & Hwf' & _ & _ & _ & _ & _ & _ & _ & _ & Hz & _ & Hs & _).
  - rewrite Hf. apply all_free_nonempty. reflexivity.
  - rewrite Hsz. clear. by vm_compute.
  - exists v, self, v'. rewrite Hs, Hsz.
    split; [exact Hv|split; [exact Hn|split; [exact Hwf'|split; [apply Hz|reflexivity]]]].
Defined.

Lemma do_Sbrk_grows_witness : ∃ self v v', demo_vm = Ok (self, v) ∧
  do_Sbrk self 1 3 v = Ok (512, v') ∧ vm_wf v' ∧ pageTableSize (vm_machine v') = 7 ∧
  zero_page v' self 6.
Proof.
  destruct demo_vm_spec as (self & v & s & Hd & Hwf & Hs & Hn & Hb & _ & Hsz & _).
  destruct (do_Sbrk_grows self 1 3 v s Hwf Hs) as
    (v' & s' & E & Hwf' & _ & Hn' & _ & _ & Hps & _ & _ & Hz & _).
  - rewrite Hsz. lia.
  - rewrite Hn. clear. by vm_compute.
  - lia.
  - rewrite Hn, Hb. reflexivity.
  - exists self, v, v'. rewrite Hn in *. split; [exact Hd|].
    split; [exact E|split; [exact Hwf'|split; [lia|apply Hz; lia]]].
Defined.

Lemma do_Sbrk_refused_witness : ∃ self v, demo_vm = Ok (self, v) ∧
  do_Sbrk self 1 2093 v = Ok (0, v).
Proof.
  destruct demo_vm_spec as (self & v & s & Hd & Hwf & Hs & _ & _ & _ & Hsz & _).
  exists self, v. split; [exact Hd|]. apply (do_Sbrk_refused self 1 2093 v s Hwf Hs).
  rewrite Hsz. lia.
Defined.

Lemma process_end_witness : ∃ self v v1 v2, demo_vm = Ok (self, v) ∧
  ReleaseFrames self v = Ok (tt, v1) ∧ AddrSpace_delete self v1 = Ok (tt, v2) ∧ vm_wf v2.
Proof.
  destruct demo_vm_spec as (self & v & s & Hd & Hwf & Hs & _).
  destruct (vw_tables v Hwf self s Hs) as (pt & Hpt & _).
  destruct (process_end v self s pt Hwf Hs Hpt) as (v1 & v2 & E1 & E2 & Hwf2 & _).
  exists self, v, v1, v2. by split_and!.
Defined.

Lemma initial_tlb j a b n v : Initialize_vm j a b n = Ok v → tlb (vm_machine v) = None.
Proof.
  unfold Initialize_vm. intros (x1 & _ & H1)%bind_Ok_inv. apply bind_Ok_inv in H1 as (x2 & _ & H2).
  apply bind_Ok_inv in H2 as (x3 & _ & H3). by injection H3 as <-.
Qed.
Lemma demo_tlb self v : demo_vm = Ok (self, v) → tlb (vm_machine v) = None.
Proof.
  destruct (Initialize_vm_spec (λ _, 170) None None 0) as (v0 & Hi & Hwf & Hp & _ & Hsz & Hf & _).
  destruct (AddrSpace_new_full (λ _, 85) 3 1 4 v0 Hwf Hp) as
    (a & v' & s & Hn & _ & _ & _ & _ & _ & _ & _ & _ & _ & _ & _ & _ & _ & Ht & _).
  - rewrite Hf. apply all_free_nonempty. reflexivity.
  - rewrite Hsz. clear. by vm_compute.
  - unfold demo_vm. rewrite Hi. cbn [mbind outcome_bind]. rewrite Hn. intros E. injection E as _ <-.
    rewrite Ht. exact (initial_tlb _ _ _ _ _ Hi).
Qed.

(** The machine of the demonstration with the page table of its process. *)
Lemma isolation_witness : ∃ self v v1 pa1 m1 pa2 m2, demo_vm = Ok (self, v) ∧ RestoreState self v = Ok (tt, v1) ∧
  Translate (vm_machine v1) 4 4 true = Ok (NoException, pa1, m1) ∧
  Translate (vm_machine v1) 300 4 false = Ok (NoException, pa2, m2) ∧ ¬ (pa2 ≤ pa1 < pa2 + 4).
Proof.
  destruct demo_vm_spec as (self & v & s & Hd & Hwf & Hs & _ & _ & Hmap & _). pose proof (demo_tlb self v Hd) as Htlb.
  assert (∃ v1, RestoreState self v = Ok (tt, v1)) as [v1 R].
  { unfold RestoreState, get_space. rewrite Hs. by eexists. }
  assert (access_size 4) as H4 by (right; by right).
  destruct (restored_complete v self v1 4 4 true Hwf Htlb H4 R eq_refl) as (pa1 & m1 & T1); [apply Hmap; lia|].
  destruct (restored_complete v self v1 300 4 false Hwf Htlb H4 R eq_refl) as (pa2 & m2 & T2).
  { destruct (Hmap 300 ltac:(lia)) as (pa & s' & pt & Hs' & Hpt & e & H1 & H2 & _ & H3). exists pa, s', pt.
    split; [exact Hs'|]. split; [exact Hpt|]. exists e. split; [exact H1|]. split; [exact H2|]. split; [discriminate|exact H3]. }
  exists self, v, v1, pa1, m1, pa2, m2. split; [exact Hd|]. split; [exact R|]. split; [exact T1|]. split; [exact T2|].
  intros Hx. destruct (isolation v self self v1 v1 4 300 4 4 true false pa1 pa2 m1 m2 pa1 Hwf Htlb H4 H4 R T1 R T2) as [_ E]; [lia|exact Hx|].
  change (u32 4) with 4 in E. change (u32 300) with 300 in E. lia.
Defined.
