(* ===== verification/ThreadData.v ===== *)
(** * userprog/addrspace.cc: the threads of a process

    [AllocateThreadData], [DeleteThreadData] and the two lookups, on the
    thread descriptors shared by the global [threadsInfos] and the process's
    [localThreadsInfos], and the layout of the thread stacks. *)
From S2P Require Import Prelude BitMap Memory Frames AddrSpace.

Definition with_thread_data (s : AddrSpace) next tb local :=
  mkAddrSpace (pid s) (numPages s) (as_pageTable s) (brk s) (nThreads s) next tb
    local (stackStartAddrs s) (semBitmap s).
Definition put_space (v : VM) (self : nat) (s : AddrSpace) : VM :=
  with_spaces v (<[self := s]> (spaces v)).

(** Dereference a [thread_info_t *]. *)
Definition get_tinfo (v : VM) (p : option nat) : outcome (nat * thread_info) :=
  match p with
  | None => Fault
  | Some a => match tinfos v !! a with Some t => Ok (a, t) | None => Fault end
  end.

Definition AllocateThreadData (self : nat) (tid : Z) : M VM Z := λ v,
  s ← get_space v self;
  '(free_idx, tb) ← Find (threadsBitmap s);
  if negb (free_idx =? -1) then
    let a := vm_nextptr v in
    ti ← arr_set (threadsInfos v) tid (Some a);
    let t := mkThreadInfo free_idx (i32 (nextUserThreadid s)) tid (Some []) in
    local ← arr_set (localThreadsInfos s) free_idx (Some a);
    let v1 := with_threads (with_nextptr v (S a)) (tidMap v) ti (<[a := t]> (tinfos v)) in
    Ok (free_idx, put_space v1 self
          (with_thread_data s (u32 (nextUserThreadid s + 1)) tb local))
  else Ok (free_idx, put_space v self
          (with_thread_data s (nextUserThreadid s) tb (localThreadsInfos s))).

Definition GetThreadInfoFromTid (tid : Z) : M VM (option nat) := λ v,
  if (0 <? tid) && (tid <=? MaxThreads) then
    b ← Test (tidMap v) tid;
    if (b : bool) then p ← arr_get (threadsInfos v) tid; Ok (p, v) else Ok (None, v)
  else Ok (None, v).

(** The loop of [GetThreadInfoFromUserthreadId] from index [i] on. *)
Fixpoint find_utid (n : nat) (v : VM) (s : AddrSpace) (utid i : Z) : outcome (option nat) :=
  match n with
  | O => Ok None
  | S n' =>
      b ← Test (threadsBitmap s) i;
      if (b : bool) then
        p ← arr_get (localThreadsInfos s) i;
        '(a, t) ← get_tinfo v p;
        if userthread_id t =? utid then Ok (Some a) else find_utid n' v s utid (i + 1)
      else find_utid n' v s utid (i + 1)
  end.
Definition GetThreadInfoFromUserthreadId (self : nat) (utid : Z) : M VM (option nat) := λ v,
  s ← get_space v self;
  r ← find_utid (Z.to_nat MaxThreadsPerProcess) v s utid 0; Ok (r, v).

Definition DeleteThreadData (self : nat) (tid : Z) : M VM unit := λ v,
  s ← get_space v self;
  b ← Test (tidMap v) tid;
  _ ← ASSERT b;
  p ← arr_get (threadsInfos v) tid;
  '(a, t) ← get_tinfo v p;
  b2 ← Test (threadsBitmap s) (addrspace_idx t);
  _ ← ASSERT b2;
  local ← arr_set (localThreadsInfos s) (addrspace_idx t) None;
  tb ← Clear (threadsBitmap s) (addrspace_idx t);
  tm ← Clear (tidMap v) tid;
  let t' := mkThreadInfo (addrspace_idx t) (userthread_id t) (thread_id t) None in
  Ok (tt, put_space (with_threads v tm (threadsInfos v) (<[a := t']> (tinfos v))) self
            (with_thread_data s (nextUserThreadid s) tb local)).

Definition GetStackStartAddr (self : nat) (index : Z) : M VM Z := λ v,
  s ← get_space v self; a ← arr_get (stackStartAddrs s) index; Ok (a, v).

(** ** Stack layout *)

(** Byte [x] belongs to the stack that starts (at its high end) at [top]. *)
Definition in_stack (top x : Z) : Prop := top - ThreadStackSize ≤ x < top.

(** C37: The stacks of the threads of a process are pairwise disjoint and lie
    below the main thread's first stack block; every stack but the last is
    inside the [UserStackSize] bytes reserved above the program, and the last
    one reaches exactly 16 bytes below them. *)
Theorem thread_stacks size i j ti tj :
  stack_addrs size !! i = Some ti → stack_addrs size !! j = Some tj →
  (∀ x, in_stack ti x → in_stack tj x → i = j) ∧
  (∀ x, in_stack ti x → ¬ in_stack (size - 16) x) ∧
  (∀ x, in_stack ti x → size - UserStackSize - 16 ≤ x < size - 16) ∧
  ((∀ x, in_stack ti x → size - UserStackSize ≤ x) ↔ (i < 6)%nat).
Proof.
  assert (∀ k t, stack_addrs size !! k = Some t →
    (k < 7)%nat ∧ t = size - 16 - 256 - Z.of_nat k * 256) as Hk.
  { intros k t. unfold stack_addrs. rewrite list_lookup_fmap, fmap_Some.
    intros (n & Hn & ->). apply lookup_seq in Hn as [-> Hn]. split; [exact Hn|]. done. }
  intros [Hi Ei]%Hk [Hj Ej]%Hk.
  unfold in_stack. change ThreadStackSize with 256. change UserStackSize with 2048.
  split; [intros; lia|]. split; [intros; lia|]. split; [intros; lia|]. split.
  - intros H. specialize (H (ti - 256)). lia.
  - intros H x Hx. lia.
Qed.

Lemma thread_stacks_witness :
  stack_addrs 4096 !! 0%nat = Some 3824 ∧ stack_addrs 4096 !! 6%nat = Some 2288 ∧
  ¬ in_stack 2288 3600.
Proof.
  split; [reflexivity|]. split; [reflexivity|]. intros H.
  pose proof (proj1 (thread_stacks 4096 0 6 3824 2288 eq_refl eq_refl) 3600
    ltac:(vm_compute; split; [discriminate|reflexivity]) H). discriminate.
Defined.

(** ** The thread table invariant *)
Section thread_table.
Implicit Types (v : VM) (s : AddrSpace).

(** Slot [i] of the process is occupied by descriptor [t] at address [a]. *)
Definition slot v s (i : Z) (a : nat) (t : thread_info) : Prop :=
  0 ≤ i < MaxThreadsPerProcess ∧ bit (threadsBitmap s) i = true ∧
  localThreadsInfos s !! Z.to_nat i = Some (Some a) ∧ tinfos v !! a = Some t.

Record threads_wf v s : Prop := mkThreadsWf {
  tw_bm : bm_wf (threadsBitmap s);
  tw_bits : numBits (threadsBitmap s) = MaxThreadsPerProcess;
  tw_local : Z.of_nat (length (localThreadsInfos s)) = MaxThreadsPerProcess;
  tw_tid : bm_wf (tidMap v) ∧ numBits (tidMap v) = MaxThreads ∧
    Z.of_nat (length (threadsInfos v)) = MaxThreads;
  tw_next : 0 < nextUserThreadid s < two31;
  tw_ptr : ∀ a t, tinfos v !! a = Some t → (a < vm_nextptr v)%nat;
  tw_full : ∀ i, 0 ≤ i < MaxThreadsPerProcess → bit (threadsBitmap s) i = true →
    ∃ a t, slot v s i a t;
  tw_slot : ∀ i a t, slot v s i a t → addrspace_idx t = i ∧
    0 < userthread_id t < nextUserThreadid s ∧
    0 ≤ thread_id t < MaxThreads ∧ bit (tidMap v) (thread_id t) = true ∧
    threadsInfos v !! Z.to_nat (thread_id t) = Some (Some a);
  tw_inj : ∀ i a t j b u, slot v s i a t → slot v s j b u →
    userthread_id t = userthread_id u → i = j
}.

(** The search returns the descriptor of the slot with that identifier. *)
Definition utid_slot v s (utid : Z) (r : option nat) : Prop :=
  match r with
  | Some a => ∃ i t, slot v s i a t ∧ userthread_id t = utid
  | None => ∀ i a t, slot v s i a t → userthread_id t ≠ utid
  end.

Lemma find_utid_spec n v s utid i : threads_wf v s → 0 ≤ i →
  i + Z.of_nat n = MaxThreadsPerProcess →
  (∀ j a t, j < i → slot v s j a t → userthread_id t ≠ utid) →
  ∃ r, find_utid n v s utid i = Ok r ∧ utid_slot v s utid r.
Proof.
  intros Hwf. revert i. induction n as [|n IH]; intros i Hi Hn Hlow; cbn [find_utid].
  { exists None. split; [done|]. intros j a t Hs. apply (Hlow j a t); [|done].
    destruct Hs as [Hj _]. lia. }
  rewrite Test_spec by (apply Hwf || (rewrite (tw_bits _ _ Hwf); lia)).
  cbn [mbind outcome_bind].
  assert (∀ t a, slot v s i a t → userthread_id t ≠ utid →
    ∀ j b u, j < i + 1 → slot v s j b u → userthread_id u ≠ utid) as Hnext.
  { intros t a Hs Hne j b u Hj Hs'. destruct (decide (j = i)) as [->|];
      [|apply (Hlow j b u); [lia|done]].
    destruct Hs as (_ & _ & L1 & T1), Hs' as (_ & _ & L2 & T2). congruence. }
  destruct (bit (threadsBitmap s) i) eqn:Eb.
  - destruct (tw_full v s Hwf i ltac:(lia) Eb) as (a & t & Hs).
    pose proof Hs as (_ & _ & Hl & Ht).
    assert (arr_get (localThreadsInfos s) i = Ok (Some a)) as -> by (by apply arr_get_Ok).
    cbn [mbind outcome_bind get_tinfo]. rewrite Ht. cbn [mbind outcome_bind].
    destruct (Z.eqb_spec (userthread_id t) utid) as [E|E].
    + exists (Some a). split; [done|]. by exists i, t.
    + apply IH; [lia..|]. by apply (Hnext t a).
  - apply IH; [lia..|]. intros j b u Hj Hs. apply (Hlow j b u); [|done].
    destruct (decide (j = i)) as [->|]; [|lia]. destruct Hs as (_ & Hb & _). congruence.
Qed.

Lemma lookup_utid self v s utid : spaces v !! self = Some s → threads_wf v s →
  ∃ r, GetThreadInfoFromUserthreadId self utid v = Ok (r, v) ∧ utid_slot v s utid r.
Proof.
  intros Hs Hwf. unfold GetThreadInfoFromUserthreadId, get_space. rewrite Hs.
  cbn [mbind outcome_bind].
  destruct (find_utid_spec (Z.to_nat MaxThreadsPerProcess) v s utid 0 Hwf)
    as (r & -> & Hr); [done|done| |by eexists].
  intros j a t Hj [? _]. lia.
Qed.
End thread_table.

Section thread_ops.
Implicit Types (v : VM) (s : AddrSpace).

(** The state after a successful allocation in slot [idx]. *)
Definition allocated v self s (idx tid : Z) (tb : BitMap) : VM :=
  put_space (with_threads (with_nextptr v (S (vm_nextptr v))) (tidMap v)
      (<[Z.to_nat tid := Some (vm_nextptr v)]> (threadsInfos v))
      (<[vm_nextptr v := mkThreadInfo idx (nextUserThreadid s) tid (Some [])]> (tinfos v)))
    self (with_thread_data s (nextUserThreadid s + 1) tb
      (<[Z.to_nat idx := Some (vm_nextptr v)]> (localThreadsInfos s))).
Definition allocated_space v s (idx : Z) (tb : BitMap) : AddrSpace :=
  with_thread_data s (nextUserThreadid s + 1) tb
      (<[Z.to_nat idx := Some (vm_nextptr v)]> (localThreadsInfos s)).

Lemma slot_dom v s i a t : threads_wf v s → slot v s i a t → (a < vm_nextptr v)%nat.
Proof. intros Hwf (_ & _ & _ & Ht). by apply (tw_ptr v s Hwf a t). Qed.

Lemma allocated_slot v self s idx tid tb j b u : threads_wf v s →
  0 ≤ idx < MaxThreadsPerProcess → bit (threadsBitmap s) idx = false →
  updates (threadsBitmap s) tb idx true →
  slot (allocated v self s idx tid tb) (allocated_space v s idx tb) j b u ↔
  (j = idx ∧ b = vm_nextptr v ∧
     u = mkThreadInfo idx (nextUserThreadid s) tid (Some [])) ∨ slot v s j b u.
Proof.
  intros Hwf Hidx Hfree (_ & _ & Hu). pose proof (tw_bits _ _ Hwf) as Hbits.
  pose proof (tw_local _ _ Hwf) as Hlen. unfold slot. cbn. split.
  - intros (Hj & Hb & Hl & Ht). rewrite Hu in Hb by lia.
    destruct (decide (j = idx)) as [->|Hne].
    + left. rewrite list_lookup_insert_eq in Hl by lia. injection Hl as <-.
      by rewrite lookup_insert_eq in Ht; injection Ht as <-.
    + right. rewrite list_lookup_insert_ne in Hl by lia.
      destruct (tw_full v s Hwf j Hj Hb) as (b' & u' & Hs). pose proof Hs as (_ & _ & Hl' & Ht').
      assert (b' = b) as -> by congruence.
      pose proof (slot_dom v s j b u' Hwf Hs). rewrite lookup_insert_ne in Ht by lia.
      exact (conj Hj (conj Hb (conj Hl Ht))).
  - intros [(-> & -> & ->)|Hs].
    + rewrite Hu by lia. rewrite decide_True by done.
      rewrite list_lookup_insert_eq by lia. rewrite lookup_insert_eq. done.
    + pose proof (slot_dom v s j b u Hwf Hs). destruct Hs as (Hj & Hb & Hl & Ht).
      assert (j ≠ idx) by congruence. rewrite Hu by lia. rewrite decide_False by done.
      rewrite list_lookup_insert_ne by lia. rewrite lookup_insert_ne by lia. done.
Qed.

Lemma allocated_wf v self s idx tid tb : threads_wf v s →
  0 ≤ idx < MaxThreadsPerProcess → bit (threadsBitmap s) idx = false →
  updates (threadsBitmap s) tb idx true →
  0 ≤ tid < MaxThreads → bit (tidMap v) tid = true →
  (∀ i a t, slot v s i a t → thread_id t ≠ tid) → nextUserThreadid s + 1 < two31 →
  threads_wf (allocated v self s idx tid tb) (allocated_space v s idx tb).
Proof.
  intros Hwf Hidx Hfree Hu Htid Htb Hfresh Hnext.
  pose proof (λ j b u, allocated_slot v self s idx tid tb j b u Hwf Hidx Hfree Hu) as Hslot.
  pose proof (tw_tid _ _ Hwf) as (Htm & Htn & Htl). pose proof (tw_next _ _ Hwf).
  constructor.
  - by eapply updates_wf.
  - cbn. rewrite <- (tw_bits _ _ Hwf). by eapply updates_numBits.
  - cbn. rewrite length_insert. apply Hwf.
  - cbn. by rewrite length_insert.
  - cbn. lia.
  - cbn. intros a t [[<- _]|[_ Ha]]%lookup_insert_Some; [lia|].
    pose proof (tw_ptr _ _ Hwf a t Ha). lia.
  - cbn [threadsBitmap allocated_space with_thread_data]. intros i Hi Hb.
    destruct Hu as (_ & _ & Hu). rewrite Hu in Hb by (rewrite (tw_bits _ _ Hwf); lia).
    case_decide as E; [subst; eexists _, _; apply Hslot; by left|].
    destruct (tw_full _ _ Hwf i Hi Hb) as (a & t & Hs). exists a, t. apply Hslot. by right.
  - intros i a t [(-> & -> & ->)|Hs]%Hslot; cbn.
    + split_and!; try done; try lia. apply list_lookup_insert_eq. lia.
    + pose proof (tw_slot _ _ Hwf i a t Hs) as (? & ? & ? & ? & ?).
      pose proof (Hfresh i a t Hs). split_and!; try done; try lia.
      rewrite list_lookup_insert_ne by lia. done.
  - intros i a t j b u [(-> & -> & ->)|Hs]%Hslot [(-> & -> & ->)|Hs']%Hslot; cbn; try done.
    + pose proof (tw_slot _ _ Hwf j b u Hs'). lia.
    + pose proof (tw_slot _ _ Hwf i a t Hs). lia.
    + by apply (tw_inj _ _ Hwf i a t j b u).
Qed.

Lemma put_space_same v self s : spaces v !! self = Some s → put_space v self s = v.
Proof. intros H. unfold put_space. rewrite insert_id by done. by destruct v. Qed.
Lemma with_thread_data_same s : with_thread_data s (nextUserThreadid s) (threadsBitmap s)
  (localThreadsInfos s) = s.
Proof. by destruct s. Qed.
End thread_ops.

(** Between [v] and [v'] only the thread tables changed, and in the process
    only its thread data. *)
Definition thread_frame v v' self s s' : Prop :=
  s' = with_thread_data s (nextUserThreadid s') (threadsBitmap s') (localThreadsInfos s') ∧
  v' = with_threads (with_nextptr (put_space v self s') (vm_nextptr v')) (tidMap v') (threadsInfos v') (tinfos v').

(** [AllocateThreadData] returns -1 and changes nothing exactly when all
    seven slots are taken; otherwise it fills a slot that was empty with a
    descriptor carrying a user identifier never used before, leaves the other
    slots alone, and looking that identifier up returns the new descriptor. *)
Theorem AllocateThreadData_spec self v s tid :
  spaces v !! self = Some s → threads_wf v s →
  0 ≤ tid < MaxThreads → bit (tidMap v) tid = true →
  (∀ i a t, slot v s i a t → thread_id t ≠ tid) → nextUserThreadid s + 1 < two31 →
  (AllocateThreadData self tid v = Ok (-1, v) ∧
     ∀ i, 0 ≤ i < MaxThreadsPerProcess → ∃ a t, slot v s i a t) ∨
  ∃ idx v' s' a t, AllocateThreadData self tid v = Ok (idx, v') ∧
    spaces v' !! self = Some s' ∧ threads_wf v' s' ∧ slot v' s' idx a t ∧
    thread_id t = tid ∧ userthread_id t = nextUserThreadid s ∧
    (∀ b u, ¬ slot v s idx b u) ∧
    (∀ j b u, slot v' s' j b u ↔ (j = idx ∧ b = a ∧ u = t) ∨ slot v s j b u) ∧
    GetThreadInfoFromUserthreadId self (nextUserThreadid s) v' = Ok (Some a, v') ∧
    thread_frame v v' self s s' ∧ nextUserThreadid s' = nextUserThreadid s + 1 ∧
    tidMap v' = tidMap v ∧ idx ∈ free_set (threadsBitmap s) ∧
    free_set (threadsBitmap s') = free_set (threadsBitmap s) ∖ {[idx]} ∧
    a = vm_nextptr v ∧ threadCond t = Some [] ∧
    (∀ b, b ≠ a → tinfos v' !! b = tinfos v !! b) ∧
    threadsInfos v' = <[Z.to_nat tid := Some a]> (threadsInfos v) ∧
    tinfos v' !! a = Some t.
Proof.
  intros Hs Hwf Htid Htb Hfresh Hnext. unfold AllocateThreadData, get_space. rewrite Hs.
  cbn [mbind outcome_bind].
  destruct (Find_spec (threadsBitmap s) (tw_bm _ _ Hwf))
    as [[-> Hnone]|(idx & tb & -> & Hin & Hidx & _ & Hu & _)]; cbn [mbind outcome_bind].
  { left. rewrite with_thread_data_same, put_space_same by done. split; [done|].
    intros i Hi. apply (tw_full _ _ Hwf i Hi).
    destruct (bit (threadsBitmap s) i) eqn:E; [done|].
    assert (i ∈ free_set (threadsBitmap s)); [|set_solver].
    apply elem_of_free_set. rewrite (tw_bits _ _ Hwf). done. }
  right. rewrite (tw_bits _ _ Hwf) in Hidx.
  pose proof Hin as [_ Hfree]%elem_of_free_set.
  destruct (Z.eqb_spec idx (-1)); [lia|]. cbn [negb].
  pose proof (tw_tid _ _ Hwf) as (_ & _ & Htl). pose proof (tw_local _ _ Hwf) as Hll.
  rewrite !arr_set_in by lia. cbn [mbind outcome_bind].
  pose proof (tw_next _ _ Hwf).
  rewrite i32_id by (unfold is_i32, two31 in *; lia).
  rewrite u32_id by (unfold is_u32, two32, two31 in *; lia).
  pose proof (allocated_wf v self s idx tid tb Hwf Hidx Hfree Hu Htid Htb Hfresh Hnext) as Hwf'.
  pose proof (λ j b u, allocated_slot v self s idx tid tb j b u Hwf Hidx Hfree Hu) as Hsl.
  assert (slot (allocated v self s idx tid tb) (allocated_space v s idx tb) idx (vm_nextptr v)
    (mkThreadInfo idx (nextUserThreadid s) tid (Some []))) as Hnew by (apply Hsl; by left).
  assert (spaces (allocated v self s idx tid tb) !! self = Some (allocated_space v s idx tb))
    as Hs' by apply lookup_insert_eq.
  destruct (lookup_utid self _ _ (nextUserThreadid s) Hs' Hwf') as ([a|] & El & Hr).
  2: { exfalso. by apply (Hr _ _ _ Hnew). }
  destruct Hr as (i & t & Hi & Et).
  pose proof (tw_inj _ _ Hwf' _ _ _ _ _ _ Hi Hnew Et) as ->.
  assert (a = vm_nextptr v) as ->.
  { destruct Hi as (_ & _ & L1 & _), Hnew as (_ & _ & L2 & _). congruence. }
  eexists idx, _, (allocated_space v s idx tb), _, _. split; [reflexivity|].
  split; [exact Hs'|]. split; [exact Hwf'|]. split; [exact Hnew|].
  split; [done|]. split; [done|]. split; [intros b u (_ & Hb & _); congruence|].
  split; [exact Hsl|]. split; [exact El|]. split; [by split|]. split; [done|]. split; [done|].
  split; [exact Hin|]. split; [apply updates_mark_free; [rewrite (tw_bits _ _ Hwf); lia|exact Hu]|].
  split; [done|]. split; [done|]. split; [intros b Hb; by apply lookup_insert_ne|].
  split; [done|]. apply lookup_insert_eq.
Qed.

(** The state after deleting the thread in slot [idx]. *)
Section delete_thread.
Implicit Types (v : VM) (s : AddrSpace).

Definition removed v self s (a : nat) (t : thread_info) (tb tm : BitMap) : VM :=
  put_space (with_threads v tm (threadsInfos v)
      (<[a := mkThreadInfo (addrspace_idx t) (userthread_id t) (thread_id t) None]> (tinfos v)))
    self (with_thread_data s (nextUserThreadid s) tb
      (<[Z.to_nat (addrspace_idx t) := None]> (localThreadsInfos s))).
Definition removed_space s (t : thread_info) (tb : BitMap) : AddrSpace :=
  with_thread_data s (nextUserThreadid s) tb
      (<[Z.to_nat (addrspace_idx t) := None]> (localThreadsInfos s)).

Lemma slot_addr_inj v s i a t j u : threads_wf v s → slot v s i a t → slot v s j a u →
  i = j ∧ t = u.
Proof.
  intros Hwf H1 H2. pose proof (tw_slot _ _ Hwf _ _ _ H1) as [<- _].
  pose proof (tw_slot _ _ Hwf _ _ _ H2) as [<- _].
  destruct H1 as (_ & _ & _ & T1), H2 as (_ & _ & _ & T2).
  assert (t = u) by congruence. subst. done.
Qed.

Lemma removed_slot v self s i a t tb tm j b u : threads_wf v s → slot v s i a t →
  updates (threadsBitmap s) tb i false →
  slot (removed v self s a t tb tm) (removed_space s t tb) j b u ↔ j ≠ i ∧ slot v s j b u.
Proof.
  intros Hwf Hs (_ & _ & Hu). pose proof (tw_bits _ _ Hwf) as Hbits.
  pose proof (tw_slot _ _ Hwf _ _ _ Hs) as [Ei _].
  pose proof (tw_local _ _ Hwf) as Hlen. pose proof Hs as (Hi & _).
  assert (∀ j b u, j ≠ i → slot v s j b u → b ≠ a) as Hab.
  { intros j' b' u' Hne Hs' ->. apply Hne. symmetry. by apply (slot_addr_inj v s i a t j' u'). }
  unfold slot at 1. cbn. rewrite Ei. split.
  - intros (Hj & Hb & Hl & Ht). rewrite Hu in Hb by lia.
    destruct (decide (j = i)) as [->|Hne]; [done|]. split; [done|].
    rewrite list_lookup_insert_ne in Hl by lia.
    destruct (tw_full v s Hwf j Hj Hb) as (b' & u' & Hs'). pose proof Hs' as (_ & _ & Hl' & _).
    assert (b' = b) as -> by congruence.
    rewrite lookup_insert_ne in Ht by (intros <-; by apply (Hab j a u')).
    exact (conj Hj (conj Hb (conj Hl Ht))).
  - intros [Hne Hs']. pose proof (Hab j b u Hne Hs'). destruct Hs' as (Hj & Hb & Hl & Ht).
    rewrite Hu by lia. rewrite decide_False by done.
    rewrite list_lookup_insert_ne by lia. rewrite lookup_insert_ne by done. done.
Qed.

Lemma removed_wf v self s i a t tb tm : threads_wf v s → slot v s i a t →
  updates (threadsBitmap s) tb i false → updates (tidMap v) tm (thread_id t) false →
  threads_wf (removed v self s a t tb tm) (removed_space s t tb).
Proof.
  intros Hwf Hs Hu Hm.
  pose proof (λ j b u, removed_slot v self s i a t tb tm j b u Hwf Hs Hu) as Hslot.
  pose proof (tw_tid _ _ Hwf) as (Htm & Htn & Htl).
  pose proof (tw_slot _ _ Hwf _ _ _ Hs) as (Ei & _ & _ & _ & Hti).
  constructor; cbn [threadsBitmap removed_space with_thread_data localThreadsInfos nextUserThreadid
    removed put_space with_spaces with_threads tidMap threadsInfos tinfos vm_nextptr].
  - by eapply updates_wf.
  - rewrite <- (tw_bits _ _ Hwf). by eapply updates_numBits.
  - rewrite length_insert. apply Hwf.
  - split; [by eapply updates_wf|]. split; [|done]. rewrite <- Htn. by eapply updates_numBits.
  - apply Hwf.
  - intros b u [[<- _]|[_ Hb]]%lookup_insert_Some; [|by apply (tw_ptr _ _ Hwf b u)].
    by apply (slot_dom v s i a t).
  - intros j Hj Hb. destruct Hu as (_ & _ & Hu).
    rewrite Hu in Hb by (rewrite (tw_bits _ _ Hwf); lia). case_decide as E; [done|].
    destruct (tw_full _ _ Hwf j Hj Hb) as (b & u & Hs'). exists b, u. by apply Hslot.
  - intros j b u [Hne Hs']%Hslot.
    pose proof (tw_slot _ _ Hwf j b u Hs') as (? & ? & ? & Hbit & Hti'). split_and!; try done; try lia.
    destruct Hm as (_ & _ & Hm). rewrite Hm by lia. rewrite decide_False; [done|].
    intros Heq. apply Hne. rewrite Heq, Hti in Hti'. injection Hti' as <-.
    symmetry. by apply (slot_addr_inj v s i a t j u).
  - intros j b u k c w [_ H1]%Hslot [_ H2]%Hslot. by apply (tw_inj _ _ Hwf j b u k c w).
Qed.
End delete_thread.

(** [DeleteThreadData] of a live thread passes its two assertions, empties
    exactly that thread's slot, frees its stack slot and its kernel identifier,
    and the thread's user identifier is no longer found. *)
Theorem DeleteThreadData_spec self v s i a t :
  spaces v !! self = Some s → threads_wf v s → slot v s i a t →
  ∃ v' s', DeleteThreadData self (thread_id t) v = Ok (tt, v') ∧
    spaces v' !! self = Some s' ∧ threads_wf v' s' ∧
    (∀ j b u, slot v' s' j b u ↔ j ≠ i ∧ slot v s j b u) ∧
    free_set (threadsBitmap s') = {[i]} ∪ free_set (threadsBitmap s) ∧
    free_set (tidMap v') = {[thread_id t]} ∪ free_set (tidMap v) ∧
    GetThreadInfoFromUserthreadId self (userthread_id t) v' = Ok (None, v') ∧
    thread_frame v v' self s s' ∧ threadsInfos v' = threadsInfos v ∧
    tinfos v' = <[a := mkThreadInfo (addrspace_idx t) (userthread_id t) (thread_id t) None]> (tinfos v).
Proof.
  intros Hs Hwf Hsl. unfold DeleteThreadData, get_space. rewrite Hs. cbn [mbind outcome_bind].
  pose proof (tw_slot _ _ Hwf _ _ _ Hsl) as (Ei & _ & Htid & Hbit & Hti).
  pose proof (tw_tid _ _ Hwf) as (Htm & Htn & _). pose proof (tw_bits _ _ Hwf) as Hbn.
  pose proof Hsl as (Hi & Hb & _ & Ht).
  rewrite Test_spec, Hbit by (done || lia). cbn [mbind outcome_bind ASSERT].
  rewrite (proj2 (arr_get_Ok _ _ (Some a))) by (split; [lia|done]). cbn [mbind outcome_bind get_tinfo].
  rewrite Ht. cbn [mbind outcome_bind]. rewrite Ei.
  rewrite Test_spec, Hb by (apply Hwf || lia). cbn [mbind outcome_bind ASSERT].
  rewrite arr_set_in by (rewrite (tw_local _ _ Hwf); lia). cbn [mbind outcome_bind].
  destruct (Clear_spec (threadsBitmap s) i (tw_bm _ _ Hwf)) as (tb & -> & Hu); [lia|].
  destruct (Clear_spec (tidMap v) (thread_id t) Htm) as (tm & -> & Hm); [lia|].
  cbn [mbind outcome_bind].
  pose proof (removed_wf v self s i a t tb tm Hwf Hsl Hu Hm) as Hwf'.
  pose proof (λ j b u, removed_slot v self s i a t tb tm j b u Hwf Hsl Hu) as Hslot.
  assert (spaces (removed v self s a t tb tm) !! self = Some (removed_space s t tb))
    as Hs' by apply lookup_insert_eq.
  exists (removed v self s a t tb tm), (removed_space s t tb).
  split; [unfold removed; by rewrite Ei|]. split; [exact Hs'|]. split; [exact Hwf'|].
  split; [exact Hslot|]. split; [apply updates_clear_free; [lia|done]|].
  split; [apply updates_clear_free; [lia|done]|].
  split; [|split; [split; reflexivity|split; [reflexivity|unfold removed; by rewrite Ei]]].
  destruct (lookup_utid self _ _ (userthread_id t) Hs' Hwf') as ([b|] & -> & Hr); [|done].
  destruct Hr as (j & u & [Hne Hj]%Hslot & Eu). exfalso. apply Hne.
  by apply (tw_inj _ _ Hwf j b u i a t).
Qed.

(** ** A process with one thread, in slot 0, whose kernel identifier is 1 *)
Definition demo_thread : thread_info := mkThreadInfo 0 1 1 (Some []).
Definition demo_process : AddrSpace :=
  mkAddrSpace 0 32 7 4096 1 2 (mkBitMap 7 1 [1]) (Some 5%nat :: replicate 6 None)
    (stack_addrs 4096) (mkBitMap 128 4 [0; 0; 0; 0]).
Definition demo_threads : VM :=
  mkVM (Machine_new 0) (mkFrameProvider (mkBitMap 0 0 []) 0 None) 8 (mkBitMap 0 0 []) 0
    {[3%nat := demo_process]} [] (mkBitMap MaxThreads 459 (7 :: replicate 458 0))
    (None :: Some 5%nat :: replicate (Z.to_nat 14670) None) {[5%nat := demo_thread]}.

Lemma demo_slot i a t : slot demo_threads demo_process i a t ↔
  i = 0 ∧ a = 5%nat ∧ t = demo_thread.
Proof.
  unfold slot. split.
  - intros (Hi & Hb & Hl & Ht).
    assert (i = 0) as ->.
    { unfold bit in Hb. change MaxThreadsPerProcess with 7 in Hi.
      change BitsInWord with 32 in Hb. rewrite Z.div_small, Z.mod_small in Hb by lia.
      change (Z.testbit (2 ^ 0) i = true) in Hb. rewrite Z.pow2_bits_eqb in Hb by lia.
      by apply Z.eqb_eq in Hb. }
    injection Hl as <-. cbn in Ht. rewrite lookup_singleton_eq in Ht. by injection Ht as <-.
  - intros (-> & -> & ->). split; [by vm_compute|]. split; [reflexivity|].
    split; [reflexivity|]. apply lookup_singleton_eq.
Qed.

Lemma demo_threads_wf : threads_wf demo_threads demo_process.
Proof.
  constructor.
  - split; [done|]. split; [reflexivity|]. split; [reflexivity|].
    repeat constructor; by vm_compute.
  - reflexivity.
  - reflexivity.
  - cbn [tidMap threadsInfos demo_threads]. split; [|split; reflexivity].
    split; [by vm_compute|]. split; [reflexivity|]. split; [reflexivity|].
    constructor; [by vm_compute|]. apply Forall_replicate. by vm_compute.
  - by vm_compute.
  - cbn. intros a t [<- _]%lookup_singleton_Some. lia.
  - intros i Hi Hb. exists 5%nat, demo_thread. apply demo_slot. split; [|done].
    unfold bit in Hb. change MaxThreadsPerProcess with 7 in Hi.
    change BitsInWord with 32 in Hb. rewrite Z.div_small, Z.mod_small in Hb by lia.
    change (Z.testbit (2 ^ 0) i = true) in Hb. rewrite Z.pow2_bits_eqb in Hb by lia.
    symmetry. by apply Z.eqb_eq in Hb.
  - intros i a t (-> & -> & ->)%demo_slot. by vm_compute.
  - intros i a t j b u (-> & _)%demo_slot (-> & _)%demo_slot _. done.
Qed.

Lemma AllocateThreadData_spec_witness : ∃ idx v' a,
  AllocateThreadData 3 2 demo_threads = Ok (idx, v') ∧ idx ≠ 0 ∧
  GetThreadInfoFromUserthreadId 3 2 v' = Ok (Some a, v').
Proof.
  destruct (AllocateThreadData_spec 3 demo_threads demo_process 2
    (lookup_singleton_eq _ _) demo_threads_wf) as [[_ Hfull]|H].
  - by vm_compute.
  - reflexivity.
  - intros i a t (_ & _ & ->)%demo_slot. done.
  - reflexivity.
  - exfalso. destruct (Hfull 1) as (a & t & (E & _)%demo_slot); [by vm_compute|done].
  - destruct H as (idx & v' & s' & a & t & E & _ & _ & _ & _ & _ & Hno & _ & Hl & _).
    exists idx, v', a. split; [exact E|]. split; [|exact Hl].
    intros ->. apply (Hno 5%nat demo_thread). by apply demo_slot.
Defined.

Lemma DeleteThreadData_spec_witness : ∃ v',
  DeleteThreadData 3 1 demo_threads = Ok (tt, v') ∧
  GetThreadInfoFromUserthreadId 3 1 v' = Ok (None, v').
Proof.
  destruct (DeleteThreadData_spec 3 demo_threads demo_process 0 5 demo_thread
    (lookup_singleton_eq _ _) demo_threads_wf (proj2 (demo_slot _ _ _) (conj eq_refl (conj eq_refl eq_refl))))
    as (v' & s' & E & _ & _ & _ & _ & _ & Hl & _).
  exists v'. split; [exact E|exact Hl].
Defined.
