(* ===== verification/ListCells.v ===== *)
(** * threads/list.h, threads/list.cc: singly linked lists

    The lists of the kernel (ready queue, wait queues, pending interrupts) are
    chains of heap cells with [first] and [last] pointers.  The operations are
    those of the code on a shared heap of cells; [rep] relates a list object to
    the mathematical list it stands for, and every operation is proved to
    refine the corresponding function on mathematical lists. *)
From Stdlib Require Import Sorted.
From S2P Require Import Prelude.

Record ListElement (A : Type) := mkElement { el_next : option nat; el_key : Z; el_item : A }.
Arguments mkElement {A} _ _ _.
Arguments el_next {A} _.
Arguments el_key {A} _.
Arguments el_item {A} _.

(** A [List] object and the heap its elements live in. *)
Record LinkedList := mkList { first : option nat; last : option nat }.
Record Cells (A : Type) := mkCells { cells : gmap nat (ListElement A); fresh_cell : nat }.
Arguments mkCells {A} _ _.
Arguments cells {A} _.
Arguments fresh_cell {A} _.

Section code.
Context {A : Type}.
Implicit Types (h : Cells A) (L : LinkedList).

Definition List_new : LinkedList := mkList None None.

(** [new ListElement(item, key)]. *)
Definition alloc_cell h (item : A) (key : Z) : nat * Cells A :=
  (fresh_cell h, mkCells (<[fresh_cell h := mkElement None key item]> (cells h))
                   (S (fresh_cell h))).
Definition load_cell h (p : option nat) : outcome (ListElement A) :=
  match p with
  | None => Fault
  | Some a => match cells h !! a with Some e => Ok e | None => Fault end
  end.
(** [p->next = q]. *)
Definition set_next h (p q : option nat) : outcome (Cells A) :=
  match p with
  | None => Fault
  | Some a => match cells h !! a with
              | Some e => Ok (mkCells (<[a := mkElement q (el_key e) (el_item e)]> (cells h))
                                (fresh_cell h))
              | None => Fault
              end
  end.

Definition IsEmpty L : bool := match first L with None => true | Some _ => false end.

Definition Append h L (item : A) : outcome (Cells A * LinkedList) :=
  let '(a, h1) := alloc_cell h item 0 in
  if IsEmpty L then Ok (h1, mkList (Some a) (Some a))
  else h2 ← set_next h1 (last L) (Some a); Ok (h2, mkList (first L) (Some a)).

Definition Prepend h L (item : A) : outcome (Cells A * LinkedList) :=
  let '(a, h1) := alloc_cell h item 0 in
  if IsEmpty L then Ok (h1, mkList (Some a) (Some a))
  else h2 ← set_next h1 (Some a) (first L); Ok (h2, mkList (Some a) (last L)).

(** The [for] loop of [SortedInsert] from [ptr] on: the element was linked in
    ([true]) or the end of the list was reached. *)
Fixpoint SortedInsert_loop (fuel : nat) h (ptr : option nat) (a : nat) (sortKey : Z)
    : outcome (bool * Cells A) :=
  match fuel with
  | O => Blocked
  | S fuel' =>
      e ← load_cell h ptr;
      match el_next e with
      | None => Ok (false, h)
      | Some n =>
          en ← load_cell h (Some n);
          if sortKey <? el_key en then
            h1 ← set_next h (Some a) (Some n);
            h2 ← set_next h1 ptr (Some a);
            Ok (true, h2)
          else SortedInsert_loop fuel' h (Some n) a sortKey
      end
  end.

Definition SortedInsert h L (item : A) (sortKey : Z) : outcome (Cells A * LinkedList) :=
  let '(a, h1) := alloc_cell h item sortKey in
  if IsEmpty L then Ok (h1, mkList (Some a) (Some a))
  else
    f ← load_cell h1 (first L);
    if sortKey <? el_key f then
      h2 ← set_next h1 (Some a) (first L); Ok (h2, mkList (Some a) (last L))
    else
      '(done, h2) ← SortedInsert_loop (size (cells h1)) h1 (first L) a sortKey;
      if (done : bool) then Ok (h2, L)
      else h3 ← set_next h2 (last L) (Some a); Ok (h3, mkList (first L) (Some a)).

Definition ptr_eqb (p q : option nat) : bool := bool_decide (p = q).

(** The removed item and its key, [None] for [NULL]. *)
Definition SortedRemove h L : outcome (option (A * Z) * Cells A * LinkedList) :=
  if IsEmpty L then Ok (None, h, L)
  else
    f ← load_cell h (first L);
    let L' := if ptr_eqb (first L) (last L) then mkList None None
              else mkList (el_next f) (last L) in
    Ok (Some (el_item f, el_key f),
        mkCells (match first L with Some a => delete a (cells h) | None => cells h end)
          (fresh_cell h), L').

Definition Remove h L : outcome (option A * Cells A * LinkedList) :=
  '(r, h', L') ← SortedRemove h L; Ok (option_map fst r, h', L').

(** [List::~List]: remove until [NULL]. *)
Fixpoint List_delete (fuel : nat) h L : outcome (Cells A * LinkedList) :=
  match fuel with
  | O => Blocked
  | S fuel' =>
      '(r, h', L') ← Remove h L;
      match r with None => Ok (h', L') | Some _ => List_delete fuel' h' L' end
  end.

(** [Mapcar]: [func] acts on a state [T] of the caller. *)
Fixpoint Mapcar_loop {T} (fuel : nat) h (ptr : option nat) (func : A → T → outcome T)
    (t : T) : outcome T :=
  match fuel with
  | O => Blocked
  | S fuel' =>
      match ptr with
      | None => Ok t
      | Some _ => e ← load_cell h ptr; t' ← func (el_item e) t;
                  Mapcar_loop fuel' h (el_next e) func t'
      end
  end.
Definition Mapcar {T} h L (func : A → T → outcome T) (t : T) : outcome T :=
  Mapcar_loop (S (size (cells h))) h (first L) func t.
End code.

(** ** Abstraction *)

(** One element of an abstract list: its address, key and item. *)
Record node (A : Type) := mkNode { n_addr : nat; n_key : Z; n_item : A }.
Arguments mkNode {A} _ _ _.
Arguments n_addr {A} _.
Arguments n_key {A} _.
Arguments n_item {A} _.

Section spec.
Context {A : Type}.
Implicit Types (h : Cells A) (L : LinkedList) (xs : list (node A)).

(** The cells of [xs], in order, from [p] to [q]. *)
Fixpoint chain (m : gmap nat (ListElement A)) (p : option nat) xs (q : option nat) : Prop :=
  match xs with
  | [] => p = q
  | x :: xs' => p = Some (n_addr x) ∧ ∃ nx,
      m !! n_addr x = Some (mkElement nx (n_key x) (n_item x)) ∧ chain m nx xs' q
  end.

Definition addrs xs : list nat := n_addr <$> xs.

Record rep h L xs : Prop := mkRep {
  rep_chain : chain (cells h) (first L) xs None;
  rep_last : last L = n_addr <$> list.last xs;
  rep_nodup : NoDup (addrs xs);
  rep_fresh : ∀ a, is_Some (cells h !! a) → (a < fresh_cell h)%nat
}.

(** The reference functions. *)
Fixpoint insert_sorted (y : node A) xs : list (node A) :=
  match xs with
  | [] => [y]
  | x :: xs' => if n_key y <? n_key x then y :: x :: xs' else x :: insert_sorted y xs'
  end.
Definition sorted xs : Prop := StronglySorted Z.le (n_key <$> xs).

(** Cells outside the list are not touched. *)
Definition frame h h' xs : Prop :=
  ∀ a, a ∉ addrs xs → (a < fresh_cell h)%nat → cells h' !! a = cells h !! a.

Lemma chain_mono m m' p xs q :
  (∀ a, a ∈ addrs xs → m' !! a = m !! a) → chain m p xs q → chain m' p xs q.
Proof.
  revert p. induction xs as [|x xs IH]; intros p Hm; [done|].
  intros [-> (nx & Hx & Hc)]. split; [done|]. exists nx. split.
  - rewrite Hm; [done|]. set_solver.
  - apply IH; [|done]. intros a Ha. apply Hm. set_solver.
Qed.

Lemma chain_app m p xs ys q :
  chain m p (xs ++ ys) q ↔ ∃ r, chain m p xs r ∧ chain m r ys q.
Proof.
  revert p. induction xs as [|x xs IH]; intros p; simpl; [naive_solver|].
  split.
  - intros [-> (nx & Hx & (r & H1 & H2)%IH)]. naive_solver.
  - intros (r & [-> (nx & Hx & H1)] & H2). split; [done|]. exists nx. split; [done|].
    apply IH. eauto.
Qed.

Lemma chain_in m p xs q x : chain m p xs q → x ∈ xs → is_Some (m !! n_addr x).
Proof.
  revert p. induction xs as [|y xs IH]; intros p Hc Hx; [set_solver|].
  destruct Hc as [_ (nx & Hy & Hc)]. apply elem_of_cons in Hx as [->|Hx]; eauto.
Qed.

Lemma rep_addr_fresh h L xs a : rep h L xs → a ∈ addrs xs → (a < fresh_cell h)%nat.
Proof.
  intros Hr. unfold addrs. intros (x & -> & Hx)%list_elem_of_fmap. apply (rep_fresh _ _ _ Hr).
  by eapply chain_in; [apply Hr|].
Qed.

Lemma rep_empty h L xs : rep h L xs → IsEmpty L = true ↔ xs = [].
Proof.
  intros Hr. pose proof (rep_chain _ _ _ Hr) as Hc. unfold IsEmpty.
  destruct xs as [|x xs]; simpl in Hc; [by rewrite Hc|]. by destruct Hc as [-> _].
Qed.

(** The length of a chain is bounded by the number of cells: loops over a
    list terminate within [size (cells h)] steps. *)
Lemma rep_length h L xs : rep h L xs → (length xs ≤ size (cells h))%nat.
Proof.
  intros Hr. rewrite <- size_dom.
  assert (list_to_set (addrs xs) ⊆ dom (cells h)) as Hsub.
  { intros a. rewrite elem_of_list_to_set. unfold addrs.
    intros (x & -> & Hx)%list_elem_of_fmap. apply elem_of_dom.
    by eapply chain_in; [apply Hr|]. }
  apply subseteq_size in Hsub. rewrite size_list_to_set in Hsub by apply Hr.
  unfold addrs in Hsub. by rewrite length_fmap in Hsub.
Qed.
End spec.

Section refinement.
Context {A : Type}.
Implicit Types (h : Cells A) (L : LinkedList) (xs ys : list (node A)).

Lemma rep_new h : (∀ a, is_Some (cells h !! a) → (a < fresh_cell h)%nat) → rep h List_new [].
Proof. intros Hf. constructor; [done|done|constructor|done]. Qed.

Lemma alloc_fresh h a e : (∀ a, is_Some (cells h !! a) → (a < fresh_cell h)%nat) →
  is_Some (<[fresh_cell h := e]> (cells h) !! a) → (a < S (fresh_cell h))%nat.
Proof.
  intros Hf. destruct (decide (a = fresh_cell h)) as [->|]; [lia|].
  rewrite lookup_insert_ne by done. intros H%Hf. lia.
Qed.

Lemma set_next_Ok h a e q : cells h !! a = Some e →
  set_next h (Some a) q =
    Ok (mkCells (<[a := mkElement q (el_key e) (el_item e)]> (cells h)) (fresh_cell h)).
Proof. intros E. unfold set_next. by rewrite E. Qed.

Lemma load_cell_Ok h a e : cells h !! a = Some e → load_cell h (Some a) = Ok e.
Proof. intros E. unfold load_cell. by rewrite E. Qed.

(** Overwriting the link at the end of a segment redirects the segment. *)
Lemma chain_relink m p xs x q r : NoDup (addrs (xs ++ [x])) →
  chain m p (xs ++ [x]) q →
  chain (<[n_addr x := mkElement r (n_key x) (n_item x)]> m) p (xs ++ [x]) r.
Proof.
  intros Hnd (t & H1 & [-> (nx & Hx & _)])%chain_app. apply chain_app.
  exists (Some (n_addr x)). split.
  - apply (chain_mono m); [|done]. intros a Ha. apply lookup_insert_ne.
    intros <-. unfold addrs in Hnd. rewrite fmap_app, NoDup_app in Hnd.
    destruct Hnd as (_ & Hd & _). apply (Hd (n_addr x) Ha). set_solver.
  - simpl. split; [done|]. exists r. by rewrite lookup_insert_eq.
Qed.

Lemma fresh_not_in h L xs : rep h L xs → fresh_cell h ∉ addrs xs.
Proof. intros Hr Hin. pose proof (rep_addr_fresh h L xs _ Hr Hin). lia. Qed.

Lemma chain_alloc h L xs e q : rep h L xs → ∀ p, chain (cells h) p xs q →
  chain (<[fresh_cell h := e]> (cells h)) p xs q.
Proof.
  intros Hr p. apply chain_mono. intros a Ha. apply lookup_insert_ne. intros <-.
  by apply (fresh_not_in h L xs Hr).
Qed.

(** The heap after [new ListElement(item, key)]. *)
Definition with_cell h item key : Cells A :=
  mkCells (<[fresh_cell h := mkElement None key item]> (cells h)) (S (fresh_cell h)).

Lemma elem_addrs_snoc xs x : n_addr x ∈ addrs (xs ++ [x]).
Proof. unfold addrs. rewrite fmap_app. set_solver. Qed.

(** Linking the fresh cell behind the last one. *)
Lemma link_last h L xs x item key : rep h L (xs ++ [x]) →
  ∃ h2, set_next (with_cell h item key) (last L) (Some (fresh_cell h)) = Ok h2 ∧
    rep h2 (mkList (first L) (Some (fresh_cell h)))
      ((xs ++ [x]) ++ [mkNode (fresh_cell h) key item]) ∧ frame h h2 (xs ++ [x]).
Proof.
  intros Hr. pose proof (rep_last _ _ _ Hr) as Hl. rewrite last_snoc in Hl. simpl in Hl.
  pose proof (fresh_not_in h L _ Hr) as Hnf. pose proof (elem_addrs_snoc xs x) as Hx'.
  pose proof (rep_addr_fresh h L _ _ Hr Hx') as Hlt.
  pose proof (chain_alloc h L _ (mkElement None key item) None Hr _ (rep_chain _ _ _ Hr)) as Hc.
  pose proof Hc as (t & _ & [_ (nx & Hx & _)])%chain_app.
  rewrite Hl. eexists. split; [by apply set_next_Ok|]. split; [constructor|].
  - apply chain_app. exists (Some (fresh_cell h)). split.
    + simpl. eapply chain_relink; [apply Hr|exact Hc].
    + simpl. split; [done|]. exists None. rewrite lookup_insert_ne by lia.
      by rewrite lookup_insert_eq.
  - by rewrite last_snoc.
  - unfold addrs in *. rewrite fmap_app. apply NoDup_app. split; [apply Hr|].
    split; [|apply NoDup_singleton]. intros a Ha ->%list_elem_of_singleton. done.
  - simpl. intros a. destruct (decide (a = n_addr x)) as [->|]; [lia|].
    rewrite lookup_insert_ne by done. apply alloc_fresh, (rep_fresh _ _ _ Hr).
  - intros a Ha Hlt'. simpl. rewrite !lookup_insert_ne; [done|lia|congruence].
Qed.

(** The single-cell list. *)
Lemma link_empty h L item key : rep h L [] →
  rep (with_cell h item key) (mkList (Some (fresh_cell h)) (Some (fresh_cell h)))
    [mkNode (fresh_cell h) key item] ∧ frame h (with_cell h item key) [].
Proof.
  intros Hr. split; [constructor|].
  - simpl. split; [done|]. exists None. by rewrite lookup_insert_eq.
  - done.
  - apply NoDup_singleton.
  - intros a. apply alloc_fresh, (rep_fresh _ _ _ Hr).
  - intros a _ Hlt. simpl. apply lookup_insert_ne. lia.
Qed.

(** Linking the fresh cell before the first one. *)
Lemma link_first h L xs item key : rep h L xs → xs ≠ [] →
  ∃ h2, set_next (with_cell h item key) (Some (fresh_cell h)) (first L) = Ok h2 ∧
    rep h2 (mkList (Some (fresh_cell h)) (last L)) (mkNode (fresh_cell h) key item :: xs) ∧
    frame h h2 xs.
Proof.
  intros Hr Hne. eexists. split.
  { apply set_next_Ok. simpl. apply lookup_insert_eq. }
  simpl. rewrite insert_insert_eq. pose proof (fresh_not_in h L xs Hr) as Hnf.
  split; [constructor|]; simpl.
  - split; [done|]. exists (first L). rewrite lookup_insert_eq. split; [done|].
    apply (chain_alloc h L xs); [done|apply Hr].
  - rewrite (rep_last _ _ _ Hr). by destruct xs.
  - constructor; [done|apply Hr].
  - intros a. apply alloc_fresh, (rep_fresh _ _ _ Hr).
  - intros a _ Hlt. simpl. apply lookup_insert_ne. lia.
Qed.

Lemma not_empty h L xs : rep h L xs → xs ≠ [] → IsEmpty L = false.
Proof.
  intros Hr Hne. destruct (IsEmpty L) eqn:E; [|done]. by apply (rep_empty h L xs Hr) in E.
Qed.

Lemma Append_rep h L xs item : rep h L xs →
  ∃ h' L', Append h L item = Ok (h', L') ∧
    rep h' L' (xs ++ [mkNode (fresh_cell h) 0 item]) ∧ frame h h' xs.
Proof.
  intros Hr. unfold Append, alloc_cell. fold (with_cell h item 0).
  destruct xs as [|x xs _] using rev_ind.
  - rewrite (proj2 (rep_empty h L [] Hr) eq_refl).
    eexists _, _. split; [reflexivity|]. by apply (link_empty h L).
  - rewrite (not_empty h L _ Hr) by (by destruct xs).
    destruct (link_last h L xs x item 0 Hr) as (h2 & -> & Hr2 & Hf). cbn [mbind outcome_bind].
    eauto 10.
Qed.

Lemma Prepend_rep h L xs item : rep h L xs →
  ∃ h' L', Prepend h L item = Ok (h', L') ∧
    rep h' L' (mkNode (fresh_cell h) 0 item :: xs) ∧ frame h h' xs.
Proof.
  intros Hr. unfold Prepend, alloc_cell. fold (with_cell h item 0).
  destruct (decide (xs = [])) as [->|Hne].
  - rewrite (proj2 (rep_empty h L [] Hr) eq_refl).
    eexists _, _. split; [reflexivity|]. by apply (link_empty h L).
  - rewrite (not_empty h L _ Hr) by done.
    destruct (link_first h L xs item 0 Hr Hne) as (h2 & -> & Hr2 & Hf). cbn [mbind outcome_bind].
    eauto 10.
Qed.
End refinement.

Section sorted_insert.
Context {A : Type}.
Implicit Types (h : Cells A) (L : LinkedList) (xs ys pre post : list (node A)).
Implicit Types (x y n : node A) (m : gmap nat (ListElement A)).

(** Splicing the cell [y] between the segment ending in [x] and the rest. *)
Lemma splice m p pre x n post y :
  NoDup (n_addr y :: addrs ((pre ++ [x]) ++ n :: post)) →
  chain m p ((pre ++ [x]) ++ n :: post) None →
  chain (<[n_addr x := mkElement (Some (n_addr y)) (n_key x) (n_item x)]>
          (<[n_addr y := mkElement (Some (n_addr n)) (n_key y) (n_item y)]> m))
    p ((pre ++ [x]) ++ y :: n :: post) None.
Proof.
  intros [Hy Hnd]%NoDup_cons (r & H1 & H2)%chain_app.
  pose proof H2 as [-> _]. unfold addrs in Hy, Hnd. rewrite fmap_app in Hy, Hnd.
  rewrite not_elem_of_app in Hy. apply NoDup_app in Hnd as (Hnd1 & Hd & _).
  assert (n_addr x ∈ n_addr <$> (pre ++ [x])) as Hx by apply elem_addrs_snoc.
  apply chain_app. exists (Some (n_addr y)). split.
  - eapply chain_relink; [done|]. apply (chain_mono m); [|exact H1].
    intros a Ha. apply lookup_insert_ne. intros <-. by apply (proj1 Hy).
  - split; [done|]. exists (Some (n_addr n)). split.
    + rewrite lookup_insert_ne by (intros E; apply (proj1 Hy); by rewrite <- E).
      apply lookup_insert_eq.
    + apply (chain_mono m); [|exact H2]. intros a Ha. rewrite !lookup_insert_ne; [done| |].
      * intros <-. by apply (proj2 Hy).
      * intros <-. by apply (Hd _ Hx).
Qed.

Definition inserted h1 h2 p pre x post (y : node A) : Prop :=
  chain (cells h2) p (pre ++ x :: insert_sorted y post) None ∧
  fresh_cell h2 = fresh_cell h1 ∧
  (∀ b, b ∉ n_addr y :: addrs (pre ++ x :: post) → cells h2 !! b = cells h1 !! b) ∧
  (∀ b, is_Some (cells h2 !! b) ↔ is_Some (cells h1 !! b)).

Lemma chain_at m p pre x post q : chain m p (pre ++ x :: post) q →
  ∃ nx, m !! n_addr x = Some (mkElement nx (n_key x) (n_item x)) ∧ chain m nx post q.
Proof. intros (r & _ & [_ (nx & Hx & Hp)])%chain_app. eauto. Qed.

Lemma SortedInsert_loop_spec fuel h1 p pre x post y : (length post < fuel)%nat →
  NoDup (n_addr y :: addrs (pre ++ x :: post)) →
  chain (cells h1) p (pre ++ x :: post) None →
  cells h1 !! n_addr y = Some (mkElement None (n_key y) (n_item y)) →
  (SortedInsert_loop fuel h1 (Some (n_addr x)) (n_addr y) (n_key y) = Ok (false, h1) ∧
     insert_sorted y post = post ++ [y]) ∨
  ∃ h2, SortedInsert_loop fuel h1 (Some (n_addr x)) (n_addr y) (n_key y) = Ok (true, h2) ∧
    inserted h1 h2 p pre x post y ∧
    list.last (insert_sorted y post) = list.last post ∧ post ≠ [].
Proof.
  revert pre x fuel. induction post as [|n post IH]; intros pre x fuel Hf Hnd Hc Hy;
    (destruct fuel as [|fuel]; simpl in Hf; [lia|]); cbn [SortedInsert_loop];
    destruct (chain_at _ _ _ _ _ _ Hc) as (nx & Hx & Hpost);
    rewrite (load_cell_Ok _ _ _ Hx); cbn [mbind outcome_bind el_next].
  - simpl in Hpost. subst nx. by left.
  - destruct Hpost as [-> (nn & Hn & Hpost)].
    rewrite (load_cell_Ok _ _ _ Hn). cbn [mbind outcome_bind el_key insert_sorted].
    destruct (Z.ltb_spec (n_key y) (n_key n)) as [Hlt|Hge].
    + right. rewrite (set_next_Ok _ _ _ _ Hy). cbn [mbind outcome_bind el_key el_item].
      assert (n_addr y ≠ n_addr x) as Hyx.
      { apply NoDup_cons in Hnd as [Hn' _]. intros E. apply Hn'. unfold addrs.
        rewrite fmap_app, E. set_solver. }
      rewrite (set_next_Ok _ (n_addr x) (mkElement (Some (n_addr n)) (n_key x) (n_item x)))
        by (cbn; by rewrite lookup_insert_ne).
      cbn [mbind outcome_bind el_key el_item cells fresh_cell].
      eexists. split; [reflexivity|]. split; [|done].
      assert (∀ zs, pre ++ x :: zs = (pre ++ [x]) ++ zs) as Eapp by (intros; by rewrite <- app_assoc).
      split; [|split; [done|split]]; cbn [cells].
      * cbn [insert_sorted]. rewrite (proj2 (Z.ltb_lt _ _) Hlt). rewrite Eapp in *.
        by apply splice.
      * intros b Hb. rewrite !lookup_insert_ne; [done|set_solver|].
        intros <-. apply Hb, list_elem_of_further. unfold addrs. rewrite fmap_app. set_solver.
      * intros b. destruct (decide (b = n_addr x)) as [->|];
          [rewrite lookup_insert_eq, Hx; by split; eexists|rewrite lookup_insert_ne by done].
        destruct (decide (b = n_addr y)) as [->|];
          [rewrite lookup_insert_eq, Hy; by split; eexists|by rewrite lookup_insert_ne].
    + assert (pre ++ x :: n :: post = (pre ++ [x]) ++ n :: post) as E by (by rewrite <- app_assoc).
      rewrite E in Hnd, Hc.
      destruct (IH (pre ++ [x]) n fuel) as [[-> Hi]|(h2 & -> & (Hi & Hfr & Hout & Hdom) & Hl & Hne)];
        [lia|done|done|done|left; by rewrite Hi|right].
      exists h2. split; [done|]. split; [split_and!; try done|].
      * cbn [insert_sorted]. rewrite (proj2 (Z.ltb_ge _ _) Hge). by rewrite <- app_assoc in Hi.
      * intros b. rewrite E. apply Hout.
      * split; [|done]. destruct post; [done|]. simpl in *.
        by destruct (n_key y <? n_key n0).
Qed.

Lemma insert_sorted_perm y xs : insert_sorted y xs ≡ₚ y :: xs.
Proof.
  induction xs as [|x xs IH]; simpl; [done|]. destruct (n_key y <? n_key x); [done|].
  rewrite IH. apply Permutation_swap.
Qed.

Lemma insert_sorted_sorted y xs : sorted xs → sorted (insert_sorted y xs).
Proof.
  unfold sorted. induction xs as [|x xs IH]; simpl; intros Hs.
  { repeat constructor. }
  apply StronglySorted_inv in Hs as [Hs Hx]. destruct (Z.ltb_spec (n_key y) (n_key x)); simpl.
  - constructor; [by constructor|]. constructor; [lia|].
    eapply Forall_impl; [exact Hx|]. simpl. intros. lia.
  - constructor; [by apply IH|]. rewrite insert_sorted_perm. simpl.
    constructor; [lia|done].
Qed.

(** Equal keys leave in the order they came (first in, first out). *)
Lemma insert_sorted_stable y xs : sorted xs → ∃ pre post,
  insert_sorted y xs = pre ++ y :: post ∧ xs = pre ++ post ∧
  Forall (λ x, n_key x ≤ n_key y) pre ∧ Forall (λ x, n_key y < n_key x) post.
Proof.
  unfold sorted. induction xs as [|x xs IH]; simpl; intros Hs.
  { exists [], []. done. }
  apply StronglySorted_inv in Hs as [Hs Hx]. destruct (Z.ltb_spec (n_key y) (n_key x)).
  - exists [], (x :: xs). split_and!; try done. constructor; [lia|].
    rewrite Forall_fmap in Hx. eapply Forall_impl; [exact Hx|]. simpl. intros. lia.
  - destruct (IH Hs) as (pre & post & -> & -> & H1 & H2).
    exists (x :: pre), post. split_and!; try done. by constructor.
Qed.

Lemma SortedInsert_rep h L xs item key : rep h L xs →
  ∃ h' L', SortedInsert h L item key = Ok (h', L') ∧
    rep h' L' (insert_sorted (mkNode (fresh_cell h) key item) xs) ∧ frame h h' xs.
Proof.
  intros Hr. unfold SortedInsert, alloc_cell. fold (with_cell h item key).
  destruct xs as [|x xs].
  { rewrite (proj2 (rep_empty h L [] Hr) eq_refl).
    eexists _, _. split; [reflexivity|]. by apply (link_empty h L). }
  rewrite (not_empty h L _ Hr) by done. pose proof (rep_chain _ _ _ Hr) as Hc.
  pose proof (chain_alloc h L _ (mkElement None key item) None Hr _ Hc) as Hc1.
  pose proof Hc1 as [Hfst (nx & Hx & _)]. rewrite Hfst.
  rewrite (load_cell_Ok (with_cell h item key) _ _ Hx). cbn [mbind outcome_bind el_key insert_sorted].
  cbn [n_key]. destruct (Z.ltb_spec key (n_key x)) as [Hlt|Hge].
  { rewrite <- Hfst.
    destruct (link_first h L (x :: xs) item key Hr ltac:(done)) as (h2 & -> & Hr2 & Hf).
    cbn [mbind outcome_bind]. eauto 10. }
  set (y := mkNode (fresh_cell h) key item).
  assert (NoDup (n_addr y :: addrs ([] ++ x :: xs))) as Hnd.
  { constructor; [by apply (fresh_not_in h L)|apply Hr]. }
  assert (length xs < size (cells (with_cell h item key)))%nat as Hfuel.
  { pose proof (rep_length h L _ Hr). simpl in *. rewrite map_size_insert_None; [lia|].
    apply eq_None_not_Some. intros Hs%(rep_fresh _ _ _ Hr). lia. }
  destruct (SortedInsert_loop_spec (size (cells (with_cell h item key))) (with_cell h item key)
    (first L) [] x xs y Hfuel Hnd Hc1 (lookup_insert_eq _ _ _))
    as [[E Hi]|(h2 & E & (Hi & Hfr & Hout & Hdom) & Hl & Hne)];
    cbn [n_addr n_key y] in E; rewrite E; cbn [mbind outcome_bind].
  - rewrite Hi. destruct (exists_last (l:=x :: xs) ltac:(done)) as (zs & z & Ez).
    rewrite app_comm_cons, Ez. rewrite Ez in Hr.
    destruct (link_last h L zs z item key Hr) as (h3 & -> & Hr3 & Hf).
    cbn [mbind outcome_bind]. rewrite Hfst in Hr3. eauto 10.
  - eexists _, _. split; [reflexivity|]. split; [constructor|].
    + by rewrite Hfst in *.
    + by rewrite (rep_last _ _ _ Hr), !last_cons, Hl.
    + unfold addrs. rewrite (fmap_Permutation n_addr _ (x :: y :: xs)) by (by rewrite insert_sorted_perm).
      simpl. rewrite Permutation_swap. exact Hnd.
    + intros a Ha%Hdom. rewrite Hfr. cbn in *. eapply alloc_fresh; [apply (rep_fresh _ _ _ Hr)|exact Ha].
    + intros a Ha Hlt. rewrite Hout; cbn.
      * apply lookup_insert_ne. lia.
      * apply not_elem_of_cons. split; [lia|done].
Qed.
End sorted_insert.

Section removal.
Context {A : Type}.
Implicit Types (h : Cells A) (L : LinkedList) (xs : list (node A)) (x : node A).

Lemma SortedRemove_nil h L : rep h L [] → SortedRemove h L = Ok (None, h, L).
Proof.
  intros Hr. unfold SortedRemove. by rewrite (proj2 (rep_empty h L [] Hr) eq_refl).
Qed.

(** The first element goes, and its cell is given back. *)
Lemma SortedRemove_cons h L x xs : rep h L (x :: xs) →
  ∃ L', SortedRemove h L =
      Ok (Some (n_item x, n_key x), mkCells (delete (n_addr x) (cells h)) (fresh_cell h), L') ∧
    rep (mkCells (delete (n_addr x) (cells h)) (fresh_cell h)) L' xs.
Proof.
  intros Hr. unfold SortedRemove. rewrite (not_empty h L _ Hr) by done.
  pose proof (rep_chain _ _ _ Hr) as [-> (nx & Hx & Hc)].
  rewrite (load_cell_Ok _ _ _ Hx). cbn [mbind outcome_bind el_item el_key el_next].
  pose proof (rep_nodup _ _ _ Hr) as [Hnin Hnd]%NoDup_cons.
  eexists. split; [reflexivity|].
  assert (∀ a, is_Some (delete (n_addr x) (cells h) !! a) → (a < fresh_cell h)%nat) as Hfr.
  { intros a [e [_ He]%lookup_delete_Some]. apply (rep_fresh _ _ _ Hr). eauto. }
  assert (chain (delete (n_addr x) (cells h)) nx xs None) as Hc'.
  { apply (chain_mono (cells h)); [|done]. intros a Ha. apply lookup_delete_ne.
    intros <-. by apply Hnin. }
  pose proof (rep_last _ _ _ Hr) as Hl. unfold ptr_eqb. case_bool_decide as E.
  - assert (xs = []) as ->; [|by constructor].
    destruct xs as [|z zs _] using rev_ind; [done|]. exfalso. apply Hnin.
    rewrite app_comm_cons, last_snoc in Hl. rewrite Hl in E. injection E as ->.
    apply elem_addrs_snoc.
  - constructor; try done. destruct xs as [|z zs]; [|done]. by rewrite Hl in E.
Qed.

Lemma Remove_cons h L x xs : rep h L (x :: xs) →
  ∃ L', Remove h L =
      Ok (Some (n_item x), mkCells (delete (n_addr x) (cells h)) (fresh_cell h), L') ∧
    rep (mkCells (delete (n_addr x) (cells h)) (fresh_cell h)) L' xs.
Proof.
  intros Hr. unfold Remove. destruct (SortedRemove_cons h L x xs Hr) as (L' & -> & ?).
  by exists L'.
Qed.

Lemma List_delete_spec fuel h L xs : rep h L xs → (length xs < fuel)%nat →
  ∃ h' L', List_delete fuel h L = Ok (h', L') ∧ rep h' L' [] ∧
    (∀ a, a ∈ addrs xs → cells h' !! a = None) ∧ frame h h' xs.
Proof.
  revert h L fuel. induction xs as [|x xs IH]; intros h L fuel Hr Hf;
    (destruct fuel as [|fuel]; simpl in Hf; [lia|]); cbn [List_delete].
  - unfold Remove. rewrite (SortedRemove_nil h L Hr). cbn. exists h, L.
    split; [done|]. split; [done|]. split; [set_solver|by intros ?].
  - destruct (Remove_cons h L x xs Hr) as (L1 & -> & Hr1). cbn [mbind outcome_bind].
    destruct (IH _ L1 fuel Hr1 ltac:(lia)) as (h' & L' & -> & Hr' & Hgone & Hframe).
    exists h', L'. split; [done|]. split; [done|].
    pose proof (rep_nodup _ _ _ Hr) as [Hnin _]%NoDup_cons.
    pose proof (rep_addr_fresh h L (x :: xs) (n_addr x) Hr ltac:(left)) as Hlt.
    split.
    + intros a [->|Ha]%elem_of_cons; [|by apply Hgone].
      rewrite Hframe by done. apply lookup_delete_eq.
    + intros a [Hne Ha]%not_elem_of_cons Hal. rewrite Hframe by done.
      apply lookup_delete_ne. congruence.
Qed.

(** [Mapcar] applies the function to the items in list order. *)
Lemma Mapcar_loop_spec {T} (f : A → T → outcome T) fuel h p xs t :
  chain (cells h) p xs None → (length xs < fuel)%nat →
  Mapcar_loop fuel h p f t = foldl (λ r x, t ← r; f (n_item x) t) (Ok t) xs.
Proof.
  revert p t fuel. induction xs as [|x xs IH]; intros p t fuel Hc Hf;
    (destruct fuel as [|fuel]; simpl in Hf; [lia|]); cbn [Mapcar_loop].
  - simpl in Hc. by subst p.
  - destruct Hc as [-> (nx & Hx & Hc)]. rewrite (load_cell_Ok _ _ _ Hx).
    cbn [mbind outcome_bind el_item el_next foldl].
    assert (∀ ys r, (∀ t, r ≠ Ok t) →
      foldl (λ r x, t ← r; f (n_item x) t) r ys = r) as Hstop.
    { clear. induction ys as [|y ys IH]; intros r Hr; [done|]. simpl.
      destruct r; [by destruct (Hr a)|by rewrite IH..]. }
    destruct (f (n_item x) t) eqn:E; cbn [mbind outcome_bind];
      [by apply IH; [|lia]|by rewrite Hstop..].
Qed.

Lemma Mapcar_spec {T} (f : A → T → outcome T) h L xs t : rep h L xs →
  Mapcar h L f t = foldl (λ r x, t ← r; f (n_item x) t) (Ok t) xs.
Proof.
  intros Hr. apply Mapcar_loop_spec; [apply Hr|]. pose proof (rep_length h L xs Hr). lia.
Qed.
End removal.

(** On an object that represents the list [xs], [Append], [Prepend] and
    [Remove] never fault and represent [xs] with the item at the end, with the
    item in front, and without its first element; only cells of this list are
    written, so other lists in the same heap are untouched. *)
Theorem list_refines_fifo {A} (h : Cells A) L xs item : rep h L xs →
  (∃ h' L', Append h L item = Ok (h', L') ∧
     rep h' L' (xs ++ [mkNode (fresh_cell h) 0 item]) ∧ frame h h' xs) ∧
  (∃ h' L', Prepend h L item = Ok (h', L') ∧
     rep h' L' (mkNode (fresh_cell h) 0 item :: xs) ∧ frame h h' xs) ∧
  (∃ h' L', Remove h L = Ok (n_item <$> head xs, h', L') ∧ rep h' L' (tail xs) ∧ frame h h' xs).
Proof.
  intros Hr. split; [by apply Append_rep|]. split; [by apply Prepend_rep|].
  destruct xs as [|x xs].
  - exists h, L. unfold Remove. rewrite (SortedRemove_nil h L Hr). by split_and!.
  - destruct (Remove_cons h L x xs Hr) as (L' & -> & Hr'). eexists _, L'.
    split; [reflexivity|]. split; [done|].
    intros a [Hne _]%not_elem_of_cons _. apply lookup_delete_ne. congruence.
Qed.

(** C33: [SortedInsert] terminates on every list, keeps a sorted list sorted,
    adds exactly the new item and puts it behind all items of equal key; then
    [SortedRemove] returns an item of least key. *)
Theorem SortedInsert_priority {A} (h : Cells A) L xs item key : rep h L xs → sorted xs →
  ∃ h' L' pre post, SortedInsert h L item key = Ok (h', L') ∧
    let y := mkNode (fresh_cell h) key item in
    xs = pre ++ post ∧ rep h' L' (pre ++ y :: post) ∧ sorted (pre ++ y :: post) ∧
    Forall (λ x, n_key x ≤ key) pre ∧ Forall (λ x, key < n_key x) post ∧ frame h h' xs ∧
    ∃ z k h2 L2, SortedRemove h' L' = Ok (Some (z, k), h2, L2) ∧
      Forall (λ x, k ≤ n_key x) (pre ++ y :: post) ∧ rep h2 L2 (tail (pre ++ y :: post)).
Proof.
  intros Hr Hs. destruct (SortedInsert_rep h L xs item key Hr) as (h' & L' & E & Hr' & Hf).
  set (y := mkNode (fresh_cell h) key item) in *.
  destruct (insert_sorted_stable y xs Hs) as (pre & post & Ei & Ex & Hpre & Hpost).
  pose proof (insert_sorted_sorted y xs Hs) as Hs'. rewrite Ei in Hr', Hs'.
  exists h', L', pre, post. split; [done|]. split_and!; try done.
  destruct (pre ++ y :: post) as [|z zs] eqn:Ez; [by destruct pre|].
  destruct (SortedRemove_cons h' L' z zs Hr') as (L2 & -> & Hr2).
  eexists _, _, _, _. split; [reflexivity|]. split; [|done].
  unfold sorted in Hs'. simpl in Hs'. apply StronglySorted_inv in Hs' as [_ Hz].
  constructor; [lia|]. exact (proj1 (Forall_fmap _ _ _) Hz).
Qed.

(** The destructor terminates after one [Remove] per element plus one, frees
    every cell of the list and no other cell. *)
Theorem List_delete_frees {A} (h : Cells A) L xs : rep h L xs →
  ∃ h' L', List_delete (S (size (cells h))) h L = Ok (h', L') ∧ first L' = None ∧
    (∀ a, a ∈ addrs xs → cells h' !! a = None) ∧ frame h h' xs.
Proof.
  intros Hr. pose proof (rep_length h L xs Hr).
  destruct (List_delete_spec (S (size (cells h))) h L xs Hr) as (h' & L' & ? & Hr' & ? & ?); [lia|].
  exists h', L'. split_and!; try done. apply (rep_chain _ _ _ Hr').
Qed.

(** A two-element list with keys 10 and 20. *)
Definition demo_cells : Cells Z :=
  mkCells {[0%nat := mkElement (Some 1%nat) 10 7; 1%nat := mkElement None 20 8]} 2.
Definition demo_nodes : list (node Z) := [mkNode 0 10 7; mkNode 1 20 8].
Definition demo_list : LinkedList := mkList (Some 0%nat) (Some 1%nat).
Lemma demo_list_rep : rep demo_cells demo_list demo_nodes.
Proof.
  constructor.
  - simpl. split; [done|]. exists (Some 1%nat). split; [reflexivity|]. split; [done|].
    exists None. by split.
  - done.
  - apply (bool_decide_unpack _). by vm_compute.
  - intros a [e He]. simpl in *. destruct a as [|[|a]]; [lia..|].
    rewrite lookup_insert_ne, lookup_singleton_ne in He by lia. done.
Qed.

Lemma list_refines_fifo_witness : ∃ h' L', Append demo_cells demo_list 9 = Ok (h', L') ∧
  rep h' L' (demo_nodes ++ [mkNode 2 0 9]).
Proof.
  destruct (list_refines_fifo demo_cells demo_list demo_nodes 9 demo_list_rep)
    as [(h' & L' & E & Hr & _) _]. by exists h', L'.
Defined.

Lemma SortedInsert_priority_witness : ∃ h' L' k z h2 L2,
  SortedInsert demo_cells demo_list 9 15 = Ok (h', L') ∧
  SortedRemove h' L' = Ok (Some (z, k), h2, L2) ∧ k ≤ 15.
Proof.
  destruct (SortedInsert_priority demo_cells demo_list demo_nodes 9 15 demo_list_rep) as
    (h' & L' & pre & post & E & _ & _ & _ & _ & _ & _ & z & k & h2 & L2 & Er & Hmin & _).
  - repeat constructor; simpl; lia.
  - exists h', L', k, z, h2, L2. split; [done|]. split; [done|].
    rewrite Forall_forall in Hmin. apply (Hmin (mkNode (fresh_cell demo_cells) 15 9)). set_solver.
Defined.

Lemma List_delete_frees_witness : ∃ h' L',
  List_delete 3 demo_cells demo_list = Ok (h', L') ∧ cells h' !! 1%nat = None.
Proof.
  destruct (List_delete_frees demo_cells demo_list demo_nodes demo_list_rep)
    as (h' & L' & E & _ & Hg & _). exists h', L'. split; [exact E|]. apply Hg. set_solver.
Defined.
