(* ===== verification/Interrupt.v ===== *)
(** * machine/interrupt.cc, machine/timer.cc, machine/stats.h: simulated time

    The interrupt simulation keeps the pending interrupts in a sorted
    [List] (ListCells.v), advances the clock and calls device handlers.  The
    handlers belong to other components, so they are a parameter of the
    simulation with the contract [handler_ok]; the timer device is shown to
    satisfy it. *)
From Stdlib Require Import Sorted.
From S2P Require Import Prelude Memory ListCells.

Definition UserTick : Z := 1.
Definition SystemTick : Z := 10.
Definition TimerTicks : Z := 100.

Inductive IntStatus := IntOff | IntOn.
#[global] Instance IntStatus_eq_dec : EqDecision IntStatus.
Proof. solve_decision. Defined.
#[global] Instance MachineStatus_eq_dec : EqDecision MachineStatus.
Proof. solve_decision. Defined.

Inductive IntType :=
  TimerInt | DiskInt | ConsoleWriteInt | ConsoleReadInt | NetworkSendInt | NetworkRecvInt.
#[global] Instance IntType_eq_dec : EqDecision IntType.
Proof. solve_decision. Defined.

(** The counters of [Statistics] that measure time. *)
Record Ticks := mkTicks { totalTicks : Z; idleTicks : Z; systemTicks : Z; userTicks : Z }.

Record PendingInterrupt := mkPending { handler : Z; arg : Z; when : Z; type : IntType }.

Record Interrupt := mkInterrupt {
  level : IntStatus;
  pheap : Cells PendingInterrupt;
  pending : LinkedList;
  inHandler : bool;
  yieldOnReturn : bool;
  int_status : MachineStatus;
  stats : Ticks
}.

Definition set_level (i : Interrupt) l := mkInterrupt l (pheap i) (pending i)
  (inHandler i) (yieldOnReturn i) (int_status i) (stats i).
Definition set_pending (i : Interrupt) h p := mkInterrupt (level i) h p
  (inHandler i) (yieldOnReturn i) (int_status i) (stats i).
Definition set_inHandler (i : Interrupt) b := mkInterrupt (level i) (pheap i) (pending i)
  b (yieldOnReturn i) (int_status i) (stats i).
Definition set_yield (i : Interrupt) b := mkInterrupt (level i) (pheap i) (pending i)
  (inHandler i) b (int_status i) (stats i).
Definition set_int_status (i : Interrupt) st := mkInterrupt (level i) (pheap i) (pending i)
  (inHandler i) (yieldOnReturn i) st (stats i).
Definition set_stats (i : Interrupt) t := mkInterrupt (level i) (pheap i) (pending i)
  (inHandler i) (yieldOnReturn i) (int_status i) t.

Definition Interrupt_new (t : Ticks) : Interrupt :=
  mkInterrupt IntOff (mkCells ∅ 0) List_new false false SystemMode t.

Definition ChangeLevel (i : Interrupt) (old now : IntStatus) : Interrupt := set_level i now.

Definition Schedule (i : Interrupt) (h a fromNow : Z) (k : IntType) : outcome Interrupt :=
  let w := totalTicks (stats i) + fromNow in
  _ ← ASSERT (0 <? fromNow);
  '(c, l) ← SortedInsert (pheap i) (pending i) (mkPending h a w k) w;
  Ok (set_pending i c l).

Definition YieldOnReturn (i : Interrupt) : outcome Interrupt :=
  _ ← ASSERT (inHandler i); Ok (set_yield i true).

Section simulation.
(** The rest of the machine, with what the interrupt simulation calls in it:
    the device handlers, [machine->DelayedLoad(0, 0)] (the identity while
    [machine] is [NULL]) and [currentThread->Yield()]. *)
Context {W : Type}.
Variable call : Z → Z → Interrupt * W → outcome (Interrupt * W).
Variable DelayedLoad0 : W → outcome W.
Variable Yield : Interrupt * W → outcome (Interrupt * W).

Definition CheckIfDue (advanceClock : bool) : M (Interrupt * W) bool := λ '(i, w),
  let old := int_status i in
  _ ← ASSERT (bool_decide (level i = IntOff));
  '(r, c, l) ← SortedRemove (pheap i) (pending i);
  match r with
  | None => Ok (false, (set_pending i c l, w))
  | Some (toOccur, wh) =>
      let i1 := set_pending i c l in
      let t := stats i1 in
      let put_back i :=
        '(c', l') ← SortedInsert (pheap i) (pending i) toOccur wh;
        Ok (false, (set_pending i c' l', w)) in
      let fire i :=
        if bool_decide (int_status i = IdleMode) && bool_decide (type toOccur = TimerInt)
           && IsEmpty (pending i)
        then put_back i
        else
          w1 ← (if bool_decide (int_status i = UserMode) then DelayedLoad0 w else Ok w);
          '(i2, w2) ← call (handler toOccur) (arg toOccur)
                        (set_int_status (set_inHandler i true) SystemMode, w1);
          Ok (true, (set_inHandler (set_int_status i2 old) false, w2)) in
      if advanceClock && (totalTicks t <? wh) then
        fire (set_stats i1 (mkTicks wh (idleTicks t + (wh - totalTicks t))
                              (systemTicks t) (userTicks t)))
      else if totalTicks t <? wh then put_back i1
      else fire i1
  end.

(** [while (CheckIfDue(FALSE));]. *)
Fixpoint drain (fuel : nat) : M (Interrupt * W) unit := λ s,
  match fuel with
  | O => Blocked
  | S fuel' => '(b, s') ← CheckIfDue false s; if (b : bool) then drain fuel' s' else Ok (tt, s')
  end.

Definition advance_tick (i : Interrupt) : Interrupt :=
  let t := stats i in
  if bool_decide (int_status i = SystemMode) then
    set_stats i (mkTicks (totalTicks t + SystemTick) (idleTicks t)
                   (systemTicks t + SystemTick) (userTicks t))
  else
    set_stats i (mkTicks (totalTicks t + UserTick) (idleTicks t)
                   (systemTicks t) (userTicks t + UserTick)).

Definition OneTick (fuel : nat) : M (Interrupt * W) unit := λ '(i, w),
  let old := int_status i in
  let i1 := ChangeLevel (advance_tick i) IntOn IntOff in
  '(_, (i2, w2)) ← drain fuel (i1, w);
  let i3 := ChangeLevel i2 IntOff IntOn in
  if yieldOnReturn i3 then
    '(i4, w4) ← Yield (set_int_status (set_yield i3 false) SystemMode, w2);
    Ok (tt, (set_int_status i4 old, w4))
  else Ok (tt, (i3, w2)).

Definition SetLevel (fuel : nat) (now : IntStatus) : M (Interrupt * W) IntStatus := λ '(i, w),
  let old := level i in
  _ ← ASSERT (bool_decide (now = IntOff) || negb (inHandler i));
  let i1 := ChangeLevel i old now in
  if bool_decide (now = IntOn) && bool_decide (old = IntOff) then
    '(_, s) ← OneTick fuel (i1, w); Ok (old, s)
  else Ok (old, (i1, w)).

Definition Enable (fuel : nat) : M (Interrupt * W) unit := λ s,
  '(_, s') ← SetLevel fuel IntOn s; Ok (tt, s').

(** [Idle]: [true] when it returns to the scheduler, [false] when it halts
    the machine. *)
Definition Idle (fuel : nat) : M (Interrupt * W) bool := λ '(i, w),
  '(b, s1) ← CheckIfDue true (set_int_status i IdleMode, w);
  if (b : bool) then
    '(_, (i2, w2)) ← drain fuel s1;
    Ok (true, (set_int_status (set_yield i2 false) SystemMode, w2))
  else Ok (false, s1).
End simulation.

(** ** The timer device *)
Record Timer := mkTimer { randomize : bool; t_handler : Z; t_arg : Z }.

Section timer.
(** [Random()] (machine/sysdep.cc) draws the next value of a seed. *)
Context {W : Type}.
Variable Random : W → Z * W.

Definition TimeOfNextInterrupt (t : Timer) (w : W) : Z * W :=
  if randomize t then let '(r, w') := Random w in (1 + Z.rem r (TimerTicks * 2), w')
  else (TimerTicks, w).

(** [TimerInterruptHandler] (threads/system.cc). *)
Definition TimerInterruptHandler (i : Interrupt) : outcome Interrupt :=
  if negb (bool_decide (int_status i = IdleMode)) then YieldOnReturn i else Ok i.

(** [TimerHandler] is registered under the code [h]. *)
Definition TimerExpired (h this : Z) (t : Timer) : Interrupt * W → outcome (Interrupt * W) :=
  λ '(i, w),
  let '(d, w') := TimeOfNextInterrupt t w in
  i1 ← Schedule i h this d TimerInt;
  i2 ← TimerInterruptHandler i1;
  Ok (i2, w').
End timer.

(** ** Invariants *)

(** The pending list holds [xs], sorted by the time each is due. *)
Record pend (i : Interrupt) (xs : list (node PendingInterrupt)) : Prop := mkPend {
  pd_rep : rep (pheap i) (pending i) xs;
  pd_sorted : sorted xs;
  pd_key : Forall (λ x, when (n_item x) = n_key x) xs
}.
Definition items (xs : list (node PendingInterrupt)) : list PendingInterrupt := n_item <$> xs.
Definition is_due (now : Z) (p : PendingInterrupt) : Prop := when p ≤ now.
#[global] Instance is_due_dec now p : Decision (is_due now p).
Proof. unfold is_due. apply _. Defined.
(** How many pending interrupts are due. *)
Definition n_due (i : Interrupt) xs : nat := length (filter (is_due (totalTicks (stats i))) (items xs)).

(** Every tick is accounted for exactly once. *)
Definition balanced (t : Ticks) : Prop := totalTicks t = idleTicks t + systemTicks t + userTicks t.

Lemma none_due now ps : Forall (λ p, now < when p) ps ↔ filter (is_due now) ps = [].
Proof.
  induction ps as [|p ps IH]; [done|]. rewrite Forall_cons, IH.
  destruct (decide (is_due now p)) as [H|H].
  - rewrite filter_cons_True by done. unfold is_due in H. split; [lia|done].
  - rewrite filter_cons_False by done. unfold is_due in H. naive_solver lia.
Qed.

Lemma n_due_le i xs : (n_due i xs ≤ length xs)%nat.
Proof.
  unfold n_due. rewrite <- (length_fmap n_item xs). apply length_filter.
Qed.

Section laws.
Implicit Types (i : Interrupt) (xs ys : list (node PendingInterrupt)).

Lemma pend_insert i xs p : pend i xs →
  ∃ c l ys, SortedInsert (pheap i) (pending i) p (when p) = Ok (c, l) ∧
    pend (set_pending i c l) ys ∧ items ys ≡ₚ p :: items xs.
Proof.
  intros [Hr Hs Hk]. destruct (SortedInsert_rep _ _ xs p (when p) Hr) as (c & l & -> & Hr' & _).
  eexists c, l, _. split; [done|]. split; [constructor|].
  - exact Hr'.
  - by apply insert_sorted_sorted.
  - rewrite insert_sorted_perm. by constructor.
  - unfold items. by rewrite insert_sorted_perm.
Qed.

Lemma Schedule_spec i xs h a d k : pend i xs → 0 < d →
  ∃ i' ys, Schedule i h a d k = Ok i' ∧ pend i' ys ∧
    items ys ≡ₚ mkPending h a (totalTicks (stats i) + d) k :: items xs ∧
    i' = set_pending i (pheap i') (pending i').
Proof.
  intros Hp Hd. unfold Schedule. rewrite (proj2 (Z.ltb_lt _ _) Hd). cbn [ASSERT mbind outcome_bind].
  destruct (pend_insert i xs (mkPending h a (totalTicks (stats i) + d) k) Hp)
    as (c & l & ys & E & Hp' & Hi).
  cbn [when] in E. rewrite E. cbn [mbind outcome_bind]. eexists _, ys. by split_and!.
Qed.

Lemma pend_least i x xs : pend i (x :: xs) →
  when (n_item x) = n_key x ∧ Forall (λ y, n_key x ≤ when (n_item y)) xs.
Proof.
  intros [_ Hs Hk]. apply Forall_cons in Hk as [Hx Hk]. split; [done|].
  unfold sorted in Hs. simpl in Hs. apply StronglySorted_inv in Hs as [_ Hs].
  rewrite Forall_fmap in Hs. rewrite Forall_forall in *. intros y Hy.
  rewrite (Hk y Hy). by apply Hs.
Qed.

Lemma pend_remove i x xs : pend i (x :: xs) → ∃ l,
  SortedRemove (pheap i) (pending i) = Ok (Some (n_item x, n_key x),
    mkCells (delete (n_addr x) (cells (pheap i))) (fresh_cell (pheap i)), l) ∧
  pend (set_pending i (mkCells (delete (n_addr x) (cells (pheap i))) (fresh_cell (pheap i))) l) xs.
Proof.
  intros [Hr Hs Hk]. destruct (SortedRemove_cons _ _ x xs Hr) as (l & -> & Hr').
  exists l. split; [done|]. constructor; [done| |exact (proj2 (proj1 (Forall_cons _ _ _) Hk))].
  unfold sorted in *. simpl in Hs. by apply StronglySorted_inv in Hs as [? _].
Qed.
End laws.

Section simulation_laws.
Context {W : Type}.
Variable call : Z → Z → Interrupt * W → outcome (Interrupt * W).
Variable DelayedLoad0 : W → outcome W.
Implicit Types (i : Interrupt) (xs ys : list (node PendingInterrupt)) (w : W).

(** What a handler may do to the simulation: it returns, with interrupts
    still off and the clock where it was, having at most added pending
    interrupts for later. *)
Definition handler_ok (p : PendingInterrupt) : Prop := ∀ i w xs,
  pend i xs → level i = IntOff → inHandler i = true → int_status i = SystemMode →
  ∃ i' w' ys new, call (handler p) (arg p) (i, w) = Ok (i', w') ∧ pend i' ys ∧
    level i' = IntOff ∧ stats i' = stats i ∧
    items ys ≡ₚ items xs ++ new ∧
    Forall (λ p, totalTicks (stats i) < when p) new.

Hypothesis handlers : ∀ p, handler_ok p.
Hypothesis DelayedLoad0_ok : ∀ w, ∃ w', DelayedLoad0 w = Ok w'.

(** Firing the interrupt [p]: its handler is called in system mode, after the
    delayed load of an interrupted program, and [CheckIfDue] returns in [i']. *)
Definition fired i w p i' w' : Prop :=
  ∃ w1 i2, (if bool_decide (int_status i = UserMode) then DelayedLoad0 w else Ok w) = Ok w1 ∧
    call (handler p) (arg p) (set_int_status (set_inHandler i true) SystemMode, w1) = Ok (i2, w') ∧
    i' = set_inHandler (set_int_status i2 (int_status i)) false.

(** The handlers of the interrupts [ps] are called, one after the other, each
    with its interrupt taken off the pending list. *)
Inductive called : list PendingInterrupt → Interrupt * W → Interrupt * W → Prop :=
| called_none i w c l : called [] (i, w) (set_pending i c l, w)
| called_next p ps i w c l i1 w1 s :
    fired (set_pending i c l) w p i1 w1 → called ps (i1, w1) s → called (p :: ps) (i, w) s.

Lemma fire_spec i w xs p : pend i xs → level i = IntOff →
  ∃ i' w' ys new,
    (w1 ← (if bool_decide (int_status i = UserMode) then DelayedLoad0 w else Ok w);
     '(i2, w2) ← call (handler p) (arg p) (set_int_status (set_inHandler i true) SystemMode, w1);
     Ok (true, (set_inHandler (set_int_status i2 (int_status i)) false, w2))) = Ok (true, (i', w')) ∧
    fired i w p i' w' ∧ pend i' ys ∧ level i' = IntOff ∧ stats i' = stats i ∧
    int_status i' = int_status i ∧ inHandler i' = false ∧
    items ys ≡ₚ items xs ++ new ∧ Forall (λ p, totalTicks (stats i) < when p) new.
Proof.
  intros Hp Hl.
  assert (∃ w1, (if bool_decide (int_status i = UserMode) then DelayedLoad0 w else Ok w) = Ok w1) as (w1 & Ew).
  { case_bool_decide; [apply DelayedLoad0_ok|by eexists]. }
  rewrite Ew.
  cbn [mbind outcome_bind].
  destruct (handlers p (set_int_status (set_inHandler i true) SystemMode) w1 xs)
    as (i2 & w2 & ys & new & E & [Hr Hs Hk] & Hl2 & Hst & Hit & Hnew); [by destruct Hp|done..|].
  rewrite E. cbn [mbind outcome_bind]. eexists _, w2, ys, new. split; [reflexivity|].
  split; [by eexists w1, i2|]. split; [by constructor|]. by split_and!.
Qed.

Lemma n_due_remove i x xs : when (n_item x) ≤ totalTicks (stats i) →
  n_due i (x :: xs) = S (n_due i xs).
Proof. intros H. unfold n_due, items. simpl. by rewrite filter_cons_True. Qed.

(** One call that does not advance the clock. *)
Lemma CheckIfDue_spec i w xs : pend i xs → level i = IntOff →
  ∃ b i' w' ys, CheckIfDue call DelayedLoad0 false (i, w) = Ok (b, (i', w')) ∧
    pend i' ys ∧ level i' = IntOff ∧ stats i' = stats i ∧ int_status i' = int_status i ∧
    (b = true → (n_due i' ys < n_due i xs)%nat ∧ inHandler i' = false ∧
       ∃ x rest new c l, xs = x :: rest ∧ when (n_item x) ≤ totalTicks (stats i) ∧
         fired (set_pending i c l) w (n_item x) i' w' ∧ items ys ≡ₚ items rest ++ new ∧
         Forall (λ p, totalTicks (stats i) < when p) new) ∧
    (b = false → w' = w ∧ items ys ≡ₚ items xs ∧
       i' = set_pending i (pheap i') (pending i') ∧
       (n_due i xs = 0%nat ∨ (int_status i = IdleMode ∧ ∃ p, items xs = [p] ∧ type p = TimerInt))).
Proof.
  intros Hp Hl. unfold CheckIfDue. rewrite bool_decide_eq_true_2 by done.
  cbn [ASSERT mbind outcome_bind andb]. destruct xs as [|x xs].
  { rewrite (SortedRemove_nil _ _ (pd_rep _ _ Hp)). cbn [mbind outcome_bind].
    eexists false, _, w, []. split; [reflexivity|].
    replace (set_pending i (pheap i) (pending i)) with i by (by destruct i).
    split_and!; try done. intros _. split_and!; try done; [by destruct i|by left]. }
  destruct (pend_remove i x xs Hp) as (l & -> & Hp1). cbn [mbind outcome_bind].
  destruct (pend_least i x xs Hp) as [Hw Hleast]. cbn [stats set_pending].
  set (i1 := set_pending i _ l) in *.
  destruct (pend_insert i1 xs (n_item x) Hp1) as (c & l' & ys & Ei & Hp2 & Hit). rewrite Hw in Ei.
  destruct (Z.ltb_spec (totalTicks (stats i)) (n_key x)) as [Hlt|Hge].
  - rewrite Ei. cbn [mbind outcome_bind]. eexists false, _, w, ys. split; [reflexivity|].
    split_and!; try done. intros _. split_and!; try done. left. unfold n_due.
    apply length_zero_iff_nil, none_due. unfold items. simpl. constructor; [lia|].
    rewrite Forall_fmap. eapply Forall_impl; [exact Hleast|]. simpl. intros y Hy. lia.
  - destruct (bool_decide (int_status i1 = IdleMode) && bool_decide (type (n_item x) = TimerInt)
      && IsEmpty (pending i1)) eqn:Eq.
    + apply andb_true_iff in Eq as [[Hidle Htimer]%andb_true_iff Hemp].
      apply bool_decide_eq_true in Hidle, Htimer. apply (rep_empty _ _ xs (pd_rep _ _ Hp1)) in Hemp as ->.
      rewrite Ei. cbn [mbind outcome_bind]. eexists false, _, w, ys. split; [reflexivity|].
      split_and!; try done. intros _. split_and!; try done. right. split; [done|].
      by exists (n_item x).
    + destruct (fire_spec i1 w xs (n_item x) Hp1 Hl)
        as (i' & w' & zs & new & Ef & Hfd & Hp' & Hl' & Hst & Hsi & Hin & Hperm & Hnew).
      change (int_status i1) with (int_status i) in *. rewrite Ef.
      exists true, i', w', zs. split; [done|]. split_and!; try done. intros _.
      rewrite n_due_remove by lia. split; [|split; [done|]].
      * unfold n_due. rewrite Hst, Hperm, filter_app, length_app.
        rewrite (proj1 (none_due _ new) Hnew). change (stats i1) with (stats i). simpl. lia.
      * exists x, xs, new. do 2 eexists. split; [done|]. split; [lia|]. split; [exact Hfd|]. by split.
Qed.

(** The clock and the idle counter after an advance to [wh]. *)
Definition advanced (t : Ticks) (wh : Z) : Ticks :=
  if totalTicks t <? wh then mkTicks wh (idleTicks t + (wh - totalTicks t)) (systemTicks t) (userTicks t)
  else t.

(** One call that may advance the clock, on something to do. *)
Lemma CheckIfDue_advance i w x xs : pend i (x :: xs) → level i = IntOff →
  ¬ (int_status i = IdleMode ∧ type (n_item x) = TimerInt ∧ xs = []) →
  ∃ i' w' ys, CheckIfDue call DelayedLoad0 true (i, w) = Ok (true, (i', w')) ∧
    pend i' ys ∧ level i' = IntOff ∧ int_status i' = int_status i ∧ inHandler i' = false ∧
    stats i' = advanced (stats i) (n_key x) ∧ (n_due i' ys ≤ length xs)%nat.
Proof.
  intros Hp Hl Hmore. unfold CheckIfDue. rewrite bool_decide_eq_true_2 by done.
  cbn [ASSERT mbind outcome_bind andb].
  destruct (pend_remove i x xs Hp) as (l & -> & Hp1). cbn [mbind outcome_bind].
  cbn [stats set_pending]. set (i1 := set_pending i _ l) in *.
  set (i2 := if totalTicks (stats i) <? n_key x
             then set_stats i1 (advanced (stats i) (n_key x)) else i1).
  assert (pend i2 xs ∧ level i2 = IntOff ∧ int_status i2 = int_status i ∧
    pending i2 = pending i1 ∧ stats i2 = advanced (stats i) (n_key x)) as (Hp2 & Hl2 & Hs2 & He2 & Ht2).
  { subst i2. unfold advanced. destruct (Z.ltb_spec (totalTicks (stats i)) (n_key x)).
    - by destruct Hp1. - by destruct Hp1. }
  assert (bool_decide (int_status i = IdleMode) && bool_decide (type (n_item x) = TimerInt)
      && IsEmpty (pending i1) = false) as Hgo.
  { apply not_true_is_false. intros [[H1 H2]%andb_true_iff H3]%andb_true_iff. apply Hmore.
    apply bool_decide_eq_true in H1, H2. by apply (rep_empty _ _ xs (pd_rep _ _ Hp1)) in H3. }
  destruct (fire_spec i2 w xs (n_item x) Hp2 Hl2)
    as (i' & w' & zs & new & Ef & _ & Hp' & Hl' & Hst & Hsi & Hin & Hperm & Hnew).
  exists i', w', zs. split.
  - rewrite Hs2 in Ef. rewrite <- Ef. subst i2. unfold advanced.
    destruct (Z.ltb_spec (totalTicks (stats i)) (n_key x)); cbn [int_status set_stats pending];
      change (int_status i1) with (int_status i); by rewrite Hgo.
  - split_and!; try done; [congruence|congruence|].
    unfold n_due. rewrite Hst, Hperm, filter_app, length_app.
    rewrite (proj1 (none_due _ new) Hnew). simpl. rewrite Nat.add_0_r.
    etrans; [apply length_filter|]. unfold items. by rewrite length_fmap.
Qed.

Lemma CheckIfDue_none adv i w : pend i [] → level i = IntOff →
  CheckIfDue call DelayedLoad0 adv (i, w) = Ok (false, (i, w)).
Proof.
  intros Hp Hl. unfold CheckIfDue. rewrite bool_decide_eq_true_2 by done.
  cbn [ASSERT mbind outcome_bind]. rewrite (SortedRemove_nil _ _ (pd_rep _ _ Hp)).
  cbn [mbind outcome_bind]. by destruct i.
Qed.

(** Only the timer is pending on an idle machine: the clock moves, the timer
    is put back and the machine is told there is nothing to do. *)
Lemma CheckIfDue_only_timer i w x : pend i [x] → level i = IntOff →
  int_status i = IdleMode → type (n_item x) = TimerInt →
  ∃ i', CheckIfDue call DelayedLoad0 true (i, w) = Ok (false, (i', w)) ∧
    stats i' = advanced (stats i) (n_key x).
Proof.
  intros Hp Hl Hidle Ht. unfold CheckIfDue. rewrite bool_decide_eq_true_2 by done.
  cbn [ASSERT mbind outcome_bind andb].
  destruct (pend_remove i x [] Hp) as (l & -> & Hp1). cbn [mbind outcome_bind].
  destruct (pend_least i x [] Hp) as [Hw _]. cbn [stats set_pending].
  set (i1 := set_pending i _ l) in *.
  destruct (pend_insert i1 [] (n_item x) Hp1) as (c & l' & ys & Ei & _ & _). rewrite Hw in Ei.
  pose proof (proj2 (rep_empty _ _ [] (pd_rep _ _ Hp1)) eq_refl) as Hemp.
  unfold advanced. destruct (Z.ltb_spec (totalTicks (stats i)) (n_key x));
    cbn [int_status set_stats pending pheap];
    change (int_status i1) with (int_status i); rewrite Hidle, Ht, Hemp;
    rewrite !bool_decide_eq_true_2 by done; cbn [andb]; rewrite Ei; cbn [mbind outcome_bind];
    by eexists.
Qed.

Lemma advanced_balanced t wh : balanced t → balanced (advanced t wh) ∧
  totalTicks (advanced t wh) = Z.max (totalTicks t) wh.
Proof.
  unfold balanced, advanced. destruct (Z.ltb_spec (totalTicks t) wh); simpl; lia.
Qed.

(** In the order of the times they are due. *)
Definition by_time (ps : list PendingInterrupt) : Prop := StronglySorted (λ p q, when p ≤ when q) ps.
Definition due (i : Interrupt) xs : list PendingInterrupt := filter (is_due (totalTicks (stats i))) (items xs).

(** Draining terminates: each interrupt that fires was due, and handlers
    only schedule for later.  The handlers called are those of the interrupts
    that are due, in the order of their times. *)
Lemma drain_spec fuel i w xs : pend i xs → level i = IntOff → (n_due i xs < fuel)%nat →
  ∃ i' w' ys ps, drain call DelayedLoad0 fuel (i, w) = Ok (tt, (i', w')) ∧
    pend i' ys ∧ level i' = IntOff ∧ stats i' = stats i ∧ int_status i' = int_status i ∧
    (inHandler i = false → inHandler i' = false) ∧
    (int_status i ≠ IdleMode → Forall (λ p, totalTicks (stats i) < when p) (items ys)) ∧
    called ps (i, w) (i', w') ∧ (int_status i ≠ IdleMode → by_time ps ∧ ps ≡ₚ due i xs).
Proof using handlers DelayedLoad0_ok.
  revert i w xs. induction fuel as [|fuel IH]; intros i w xs Hp Hl Hf; [lia|]. cbn [drain].
  destruct (CheckIfDue_spec i w xs Hp Hl)
    as (b & i1 & w1 & ys & -> & Hp1 & Hl1 & Hst1 & Hsi1 & Ht & Hff). cbn [mbind outcome_bind].
  destruct b.
  - destruct (Ht eq_refl) as (Hlt & Hin & x & rest & new & c & l & -> & Hx & Hfd & Hperm & Hnew).
    destruct (IH i1 w1 ys Hp1 Hl1 ltac:(lia)) as (i2 & w2 & zs & ps & -> & Hp2 & Hl2 & Hst2 & Hsi2 & Hin2 & Hd & Hc & Hps).
    exists i2, w2, zs, (n_item x :: ps). rewrite Hst1, Hsi1 in *. split_and!; auto; [by eapply called_next|].
    intros Hni. destruct (Hps Hni) as [Hs Hpp].
    assert (ps ≡ₚ filter (is_due (totalTicks (stats i))) (items rest)) as Hr.
    { rewrite Hpp. unfold due. rewrite Hst1, Hperm, filter_app, (proj1 (none_due _ new) Hnew). by rewrite app_nil_r. }
    split.
    + constructor; [done|]. apply Forall_forall. intros q Hq. rewrite Hr in Hq. apply list_elem_of_filter in Hq as [_ Hq].
      apply list_elem_of_fmap in Hq as (z & -> & Hz). destruct (pend_least i x rest Hp) as [-> Hle].
      by apply (proj1 (Forall_forall _ _) Hle).
    + unfold due, items. rewrite fmap_cons, filter_cons_True by done. by rewrite Hr.
  - destruct (Hff eq_refl) as (-> & Hit & Ei & Hcase).
    exists i1, w, ys, []. split_and!; try done; [by rewrite Ei| | |].
    + intros Hni. destruct Hcase as [Hz|[? _]]; [|done].
      rewrite Hit. apply none_due. by apply length_zero_iff_nil.
    + rewrite Ei. constructor.
    + intros Hni. destruct Hcase as [Hz|[? _]]; [|done]. split; [constructor|].
      by rewrite (proj1 (length_zero_iff_nil (due i xs)) Hz).
Qed.
End simulation_laws.

Section timer_laws.
Context {W : Type}.
Variable Random : W → Z * W.
Hypothesis Random_pos : ∀ w, 0 ≤ (Random w).1.

Lemma TimeOfNextInterrupt_range t w : 0 < (TimeOfNextInterrupt Random t w).1 ≤ 200.
Proof.
  unfold TimeOfNextInterrupt. destruct (randomize t); [|cbn; unfold TimerTicks; lia].
  pose proof (Random_pos w) as Hr. destruct (Random w) as [r w'] eqn:E. simpl in *.
  change (TimerTicks * 2) with 200.
  pose proof (Z.rem_bound_pos r 200 Hr). lia.
Qed.

(** The timer's handler re-arms the timer for later and requests a yield. *)
Lemma TimerExpired_spec h this t i w xs : pend i xs → level i = IntOff →
  inHandler i = true → int_status i = SystemMode →
  ∃ i' w' ys d, TimerExpired Random h this t (i, w) = Ok (i', w') ∧ pend i' ys ∧
    level i' = IntOff ∧ stats i' = stats i ∧ yieldOnReturn i' = true ∧ 0 < d ≤ 200 ∧
    items ys ≡ₚ items xs ++ [mkPending h this (totalTicks (stats i) + d) TimerInt].
Proof.
  intros Hp Hl Hin Hsi. unfold TimerExpired.
  pose proof (TimeOfNextInterrupt_range t w) as Hd.
  destruct (TimeOfNextInterrupt Random t w) as [d w']. cbn [fst] in Hd.
  destruct (Schedule_spec i xs h this d TimerInt Hp) as (i1 & ys & -> & Hp1 & Hit & Ei); [lia|].
  cbn [mbind outcome_bind]. unfold TimerInterruptHandler, YieldOnReturn.
  assert (int_status i1 = SystemMode ∧ inHandler i1 = true ∧ level i1 = IntOff ∧ stats i1 = stats i)
    as (-> & -> & Hl1 & Hst1) by (rewrite Ei; done).
  cbn [bool_decide decide negb ASSERT mbind outcome_bind].
  rewrite bool_decide_eq_false_2 by done. cbn [negb mbind outcome_bind].
  eexists _, w', ys, d. split; [reflexivity|]. split; [by destruct Hp1|].
  split_and!; try done; try lia. rewrite Hit. by rewrite Permutation_cons_append.
Qed.
End timer_laws.

(** C32: [OneTick] terminates and serves every interrupt that has come due: the
    handlers of exactly the interrupts due at the new time are called, each once,
    in the order of their times, each in system mode with its interrupt off the
    list and after the delayed load of the program it interrupts; what they make
    of the machine is the state in which the tick ends.  Then all pending interrupts lie
    in the future, the clock has advanced by exactly [SystemTick] or [UserTick],
    every tick is accounted to one of the three counters, interrupts are on again
    and the machine mode is the one before; if a handler asked for it the thread
    then yields.  The bound on the loop is one call per due interrupt, plus the
    call that finds nothing. *)
Theorem OneTick_serves {W} (call : Z → Z → Interrupt * W → outcome (Interrupt * W))
    DelayedLoad0 Yield fuel i w xs :
  (∀ p, handler_ok call p) → (∀ w, ∃ w', DelayedLoad0 w = Ok w') →
  pend i xs → int_status i ≠ IdleMode → inHandler i = false → balanced (stats i) →
  (length xs < fuel)%nat →
  ∃ i2 w' ys ps, let i1 := ChangeLevel (advance_tick i) IntOn IntOff in let i' := ChangeLevel i2 IntOff IntOn in
    called call DelayedLoad0 ps (i1, w) (i2, w') ∧ by_time ps ∧ ps ≡ₚ filter (is_due (totalTicks (stats i1))) (items xs) ∧
    pend i' ys ∧ Forall (λ p, totalTicks (stats i') < when p) (items ys) ∧
    totalTicks (stats i') = totalTicks (stats i) +
      (if bool_decide (int_status i = SystemMode) then SystemTick else UserTick) ∧
    stats i' = stats i1 ∧ balanced (stats i') ∧ level i' = IntOn ∧ inHandler i' = false ∧
    int_status i' = int_status i ∧
    OneTick call DelayedLoad0 Yield fuel (i, w) =
      if yieldOnReturn i' then
        '(i4, w4) ← Yield (set_int_status (set_yield i' false) SystemMode, w');
        Ok (tt, (set_int_status i4 (int_status i), w4))
      else Ok (tt, (i', w')).
Proof.
  intros Hh Hd Hp Hni Hin Hb Hf.
  set (i1 := ChangeLevel (advance_tick i) IntOn IntOff).
  assert (pend i1 xs) as Hp1 by (subst i1; unfold advance_tick; case_bool_decide; by destruct Hp).
  assert (int_status i1 = int_status i ∧ inHandler i1 = false) as [Hs1 Hin1]
    by (subst i1; unfold advance_tick; case_bool_decide; done).
  assert (totalTicks (stats i1) = totalTicks (stats i) +
      (if bool_decide (int_status i = SystemMode) then SystemTick else UserTick) ∧
    balanced (stats i1)) as [Ht1 Hb1]
    by (subst i1; unfold advance_tick, balanced in *; case_bool_decide; simpl; lia).
  destruct (drain_spec call DelayedLoad0 Hh Hd fuel i1 w xs Hp1 eq_refl)
    as (i2 & w2 & ys & ps & E & Hp2 & Hl2 & Hst2 & Hsi2 & Hin2 & Hfut & Hc & Hps).
  { pose proof (n_due_le i1 xs). lia. }
  destruct Hps as [Hbt Hperm]; [by rewrite Hs1|]. exists i2, w2, ys, ps. cbv zeta. fold i1.
  split; [exact Hc|]. split; [exact Hbt|]. split; [exact Hperm|]. cbn [ChangeLevel set_level stats level inHandler
    int_status yieldOnReturn]. rewrite Hst2, Hsi2, Hs1. split; [by destruct Hp2|].
  split; [apply Hfut; by rewrite Hs1|]. split; [done|]. split; [done|]. split; [done|]. split; [done|].
  split; [by apply Hin2|]. split; [done|].
  unfold OneTick. fold i1. rewrite E. cbn [mbind outcome_bind ChangeLevel set_level yieldOnReturn].
  reflexivity.
Qed.

(** When no thread is ready, [Idle] jumps the clock to the earliest pending
    interrupt (never backwards), books the jump as idle time, fires it and
    everything then due, and returns in system mode with the pending yield
    cancelled; it reports that the machine should halt exactly when nothing is
    pending or only the timer is. *)
Theorem Idle_advances {W} (call : Z → Z → Interrupt * W → outcome (Interrupt * W))
    DelayedLoad0 fuel i w xs :
  (∀ p, handler_ok call p) → (∀ w, ∃ w', DelayedLoad0 w = Ok w') →
  pend i xs → level i = IntOff → balanced (stats i) → (length xs < fuel)%nat →
  ∃ b i' w', Idle call DelayedLoad0 fuel (i, w) = Ok (b, (i', w')) ∧
    balanced (stats i') ∧ totalTicks (stats i) ≤ totalTicks (stats i') ∧
    (b = false ↔ items xs = [] ∨ ∃ p, items xs = [p] ∧ type p = TimerInt) ∧
    (b = true → ∃ x, head xs = Some x ∧ Forall (λ y, when (n_item x) ≤ when (n_item y)) xs ∧
       totalTicks (stats i') = Z.max (totalTicks (stats i)) (when (n_item x)) ∧
       int_status i' = SystemMode ∧ yieldOnReturn i' = false ∧ inHandler i' = false).
Proof.
  intros Hh Hd Hp Hl Hb Hf. unfold Idle. set (i0 := set_int_status i IdleMode).
  assert (pend i0 xs) as Hp0 by (by destruct Hp).
  destruct xs as [|x xs].
  { rewrite (CheckIfDue_none call DelayedLoad0 true i0 w Hp0 Hl). cbn.
    exists false, i0, w. split_and!; try done. split; [by left|done]. }
  destruct (pend_least i x xs Hp) as [Hx Hleast].
  destruct (decide (type (n_item x) = TimerInt ∧ xs = [])) as [[Ht ->]|Hmore].
  { destruct (CheckIfDue_only_timer call DelayedLoad0 i0 w x Hp0 Hl eq_refl Ht) as (i1 & -> & Hst).
    cbn [mbind outcome_bind]. exists false, i1, w. change (stats i0) with (stats i) in Hst.
    pose proof (advanced_balanced (stats i) (n_key x) Hb) as [? Hmax]. rewrite Hst, Hmax.
    split_and!; try done; [lia|]. split; [|done]. intros _. right. by exists (n_item x). }
  destruct (CheckIfDue_advance call DelayedLoad0 Hh Hd i0 w x xs Hp0 Hl)
    as (i1 & w1 & ys & -> & Hp1 & Hl1 & Hsi1 & Hin1 & Hst1 & Hn1); [naive_solver|].
  cbn [mbind outcome_bind]. change (stats i0) with (stats i) in Hst1.
  destruct (drain_spec call DelayedLoad0 Hh Hd fuel i1 w1 ys Hp1 Hl1)
    as (i2 & w2 & zs & ps & -> & Hp2 & _ & Hst2 & _ & Hin2 & _); [simpl in Hf; lia|].
  cbn [mbind outcome_bind]. eexists true, _, w2. split; [reflexivity|].
  pose proof (advanced_balanced (stats i) (n_key x) Hb) as [? Hmax].
  cbn [stats set_int_status set_yield int_status yieldOnReturn inHandler].
  rewrite Hst2, Hst1, Hmax. split_and!; try done; [lia| |].
  - split; [done|]. intros [?|(p & [= <- E] & ?)]; [done|].
    exfalso. apply Hmore. split; [done|]. by destruct xs.
  - intros _. exists x. rewrite Hx. split_and!; try done; [|by apply Hin2].
    constructor; [lia|done].
Qed.

(** ** A machine with a random timer *)
Definition demo_random (w : Z) : Z * Z := (w mod 32768, w * 1103515245 + 12345).
Definition demo_call (f a : Z) : Interrupt * Z → outcome (Interrupt * Z) :=
  TimerExpired demo_random 1 0 (mkTimer true 2 0).
Definition demo_load (w : Z) : outcome Z := Ok w.

Lemma demo_call_ok p : handler_ok demo_call p.
Proof.
  intros i w xs Hp Hl Hin Hsi.
  destruct (TimerExpired_spec demo_random (λ w, proj1 (Z.mod_pos_bound w 32768 eq_refl))
    1 0 (mkTimer true 2 0) i w xs Hp Hl Hin Hsi) as (i' & w' & ys & d & E & Hp' & Hl' & Hst & _ & Hd & Hit).
  eexists i', w', ys, _. split_and!; try done. constructor; [simpl; lia|constructor].
Qed.

(** Time 0, nothing pending, then the timer armed for time 7. *)
Definition demo_interrupt : Interrupt :=
  mkInterrupt IntOff (mkCells {[0%nat := mkElement None 7 (mkPending 1 0 7 TimerInt)]} 1)
    (mkList (Some 0%nat) (Some 0%nat)) false false SystemMode (mkTicks 0 0 0 0).
Definition demo_pending : list (node PendingInterrupt) := [mkNode 0 7 (mkPending 1 0 7 TimerInt)].
Lemma demo_interrupt_pend : pend demo_interrupt demo_pending.
Proof.
  constructor.
  - constructor; [|done|apply NoDup_singleton|].
    + split; [done|]. exists None. by split.
    + intros a [e He]. cbn in He. apply lookup_singleton_Some in He as [<- _]. simpl. lia.
  - repeat constructor.
  - repeat constructor.
Qed.

Lemma OneTick_serves_witness : ∃ i' w',
  OneTick demo_call demo_load (λ s, Ok s) 2 (demo_interrupt, 5) = Ok (tt, (i', w')) ∧
  totalTicks (stats i') = 10.
Proof.
  destruct (OneTick_serves demo_call demo_load (λ s, Ok s) 2 demo_interrupt 5 demo_pending
    demo_call_ok) as (i2 & w' & ys & ps & _ & _ & _ & _ & _ & Ht & _ & _ & _ & _ & _ & E).
  - intros w. by exists w.
  - apply demo_interrupt_pend.
  - discriminate.
  - reflexivity.
  - reflexivity.
  - simpl. lia.
  - destruct (yieldOnReturn (ChangeLevel i2 IntOff IntOn)).
    + eexists _, w'. split; [exact E|exact Ht].
    + eexists _, w'. split; [exact E|exact Ht].
Defined.

Lemma Idle_advances_witness : ∃ i' w',
  Idle demo_call demo_load 2 (demo_interrupt, 5) = Ok (false, (i', w')) ∧ balanced (stats i').
Proof.
  destruct (Idle_advances demo_call demo_load 2 demo_interrupt 5 demo_pending demo_call_ok)
    as (b & i' & w' & E & Hb & _ & Hh & _).
  - intros w. by exists w.
  - apply demo_interrupt_pend.
  - reflexivity.
  - reflexivity.
  - simpl. lia.
  - assert (b = false) as -> by (apply Hh; right; by eexists). by exists i', w'.
Defined.
