(* ===== verification/Synch.v ===== *)
(** * threads/synch.cc, threads/scheduler.cc, threads/thread.cc: threads and
    their synchronisation

    Nachos runs one thread at a time and switches only in [Sleep], [Yield] and
    [Finish]; the synchronisation primitives run with interrupts off, so each
    call is atomic up to the point where it sleeps.  A state holds the ready
    list, the queue of every semaphore and condition and, for a sleeping
    thread, the point of the code it resumes at.  Queues are the lists that
    [List] refines (ListCells.v).  The programs of the threads are arbitrary:
    the step relation lets the running thread make any call. *)
From stdpp Require Import functions.
From S2P Require Import Prelude.

Inductive ThreadStatus := JUST_CREATED | RUNNING | READY | BLOCKED.
#[global] Instance ThreadStatus_eq_dec : EqDecision ThreadStatus.
Proof. solve_decision. Defined.

(** Semaphores: the kernel's own, and the one inside each [Lock]. *)
Inductive semid := Usr (s : Z) | OfLock (l : Z).
#[global] Instance semid_eq_dec : EqDecision semid.
Proof. solve_decision. Defined.

Record Semaphore := mkSemaphore { value : Z; queue : list Z }.
Definition Semaphore_new (initialValue : Z) : Semaphore := mkSemaphore initialValue [].

(** Where a thread that went to sleep continues: in the loop of [P] called
    directly, in the [P] of [Lock::Acquire], or in [Condition::Wait] after its
    [Sleep]. *)
Inductive resume := RP (s : Z) | RAcquire (l : Z) | RWake (l : Z).
#[global] Instance resume_eq_dec : EqDecision resume.
Proof. solve_decision. Defined.

(** Threads are named by [threadId].  [held] is ghost state: the threads that
    completed [Acquire] on a lock and have not released it. *)
Record Sys := mkSys {
  current : option Z;
  readyList : list Z;
  tstatus : gmap Z ThreadStatus;
  sems : semid → Semaphore;
  lockOwner : Z → Z;
  waitQueue : Z → list Z;
  resumes : gmap Z resume;
  held : Z → list Z
}.

Definition set_current (st : Sys) c := mkSys c (readyList st) (tstatus st) (sems st)
  (lockOwner st) (waitQueue st) (resumes st) (held st).
Definition set_ready (st : Sys) r := mkSys (current st) r (tstatus st) (sems st)
  (lockOwner st) (waitQueue st) (resumes st) (held st).
Definition set_tstatus (st : Sys) m := mkSys (current st) (readyList st) m (sems st)
  (lockOwner st) (waitQueue st) (resumes st) (held st).
Definition set_sem (st : Sys) (s : semid) (x : Semaphore) := mkSys (current st) (readyList st)
  (tstatus st) (<[s := x]> (sems st)) (lockOwner st) (waitQueue st) (resumes st) (held st).
Definition set_owner (st : Sys) (l t : Z) := mkSys (current st) (readyList st) (tstatus st)
  (sems st) (<[l := t]> (lockOwner st)) (waitQueue st) (resumes st) (held st).
Definition set_waitQueue (st : Sys) (c : Z) q := mkSys (current st) (readyList st) (tstatus st)
  (sems st) (lockOwner st) (<[c := q]> (waitQueue st)) (resumes st) (held st).
Definition set_resumes (st : Sys) m := mkSys (current st) (readyList st) (tstatus st) (sems st)
  (lockOwner st) (waitQueue st) m (held st).
Definition set_held (st : Sys) (l : Z) h := mkSys (current st) (readyList st) (tstatus st)
  (sems st) (lockOwner st) (waitQueue st) (resumes st) (<[l := h]> (held st)).

(** ** scheduler.cc *)
Definition ReadyToRun (st : Sys) (t : Z) : Sys :=
  set_ready (set_tstatus st (<[t := READY]> (tstatus st))) (readyList st ++ [t]).

Definition FindNextToRun (st : Sys) : option Z * Sys :=
  match readyList st with
  | [] => (None, st)
  | t :: r => (Some t, set_ready st r)
  end.

(** [Scheduler::Run]: the new thread is current and running. *)
Definition Run (st : Sys) (t : Z) : Sys :=
  set_tstatus (set_current st (Some t)) (<[t := RUNNING]> (tstatus st)).

(** ** thread.cc *)

(** The dispatch at the end of [Sleep]: the next ready thread, or nobody while
    [Interrupt::Idle] waits for a device. *)
Definition dispatch (st : Sys) : Sys :=
  match FindNextToRun st with
  | (Some t, st1) => Run st1 t
  | (None, st1) => set_current st1 None
  end.

(** [Thread::Sleep] of the current thread [t], which will continue at [r]. *)
Definition Sleep (st : Sys) (t : Z) (r : resume) : Sys :=
  dispatch (set_resumes (set_tstatus st (<[t := BLOCKED]> (tstatus st))) (<[t := r]> (resumes st))).

Definition Yield (st : Sys) (t : Z) : Sys :=
  match FindNextToRun st with
  | (Some n, st1) => Run (ReadyToRun st1 t) n
  | (None, st1) => st1
  end.

(** [Thread::Finish]: the carcass is deleted by the thread that runs next. *)
Definition Finish (st : Sys) (t : Z) : Sys :=
  dispatch (set_resumes (set_tstatus st (delete t (tstatus st))) (delete t (resumes st))).

(** [Thread::Fork] of the new thread [n]. *)
Definition Fork (st : Sys) (n : Z) : Sys := ReadyToRun st n.

(** ** synch.cc

    Each operation returns the state when it is done, the state after the
    caller went to sleep, or trips its assertion. *)
Inductive result := Done (st : Sys) | Asleep (st : Sys) | Aborts.

Definition P_at (st : Sys) (t : Z) (s : semid) (r : resume) : result :=
  let x := sems st s in
  if value x =? 0 then Asleep (Sleep (set_sem st s (mkSemaphore (value x) (queue x ++ [t]))) t r)
  else Done (set_sem st s (mkSemaphore (value x - 1) (queue x))).
Definition P (st : Sys) (t s : Z) : result := P_at st t (Usr s) (RP s).

Definition V (st : Sys) (s : semid) : Sys :=
  let x := sems st s in
  match queue x with
  | [] => set_sem st s (mkSemaphore (value x + 1) [])
  | w :: q => set_sem (ReadyToRun st w) s (mkSemaphore (value x + 1) q)
  end.

Definition Acquire (st : Sys) (t l : Z) : result :=
  match P_at st t (OfLock l) (RAcquire l) with
  | Done st' => Done (set_held (set_owner st' l t) l (t :: held st' l))
  | r => r
  end.

Definition isHeldByCurrentThread (st : Sys) (t l : Z) : bool := lockOwner st l =? t.

Definition Release (st : Sys) (t l : Z) : result :=
  if isHeldByCurrentThread st t l then
    Done (V (set_owner (set_held st l (remove Z.eq_dec t (held st l))) l (-1)) (OfLock l))
  else Aborts.

Definition Wait (st : Sys) (t c l : Z) : result :=
  if isHeldByCurrentThread st t l then
    match Release (set_waitQueue st c (waitQueue st c ++ [t])) t l with
    | Done st1 => Asleep (Sleep st1 t (RWake l))
    | r => r
    end
  else Aborts.

Definition Signal (st : Sys) (t c l : Z) : result :=
  if isHeldByCurrentThread st t l then
    match waitQueue st c with
    | [] => Done st
    | w :: q => Done (ReadyToRun (set_waitQueue st c q) w)
    end
  else Aborts.

Definition Broadcast (st : Sys) (t c l : Z) : result :=
  if isHeldByCurrentThread st t l then
    Done (foldl ReadyToRun (set_waitQueue st c []) (waitQueue st c))
  else Aborts.

(** A thread that was dispatched after a sleep continues where it slept. *)
Definition continue (st : Sys) (t : Z) (r : resume) : result :=
  let st0 := set_resumes st (delete t (resumes st)) in
  match r with
  | RP s => P st0 t s
  | RAcquire l | RWake l => Acquire st0 t l
  end.

(** ** The step relation *)
Inductive op :=
  OpP (s : Z) | OpV (s : Z) | OpAcquire (l : Z) | OpRelease (l : Z)
| OpWait (c l : Z) | OpSignal (c l : Z) | OpBroadcast (c l : Z).

Definition exec_op (st : Sys) (t : Z) (o : op) : result :=
  match o with
  | OpP s => P st t s
  | OpV s => Done (V st (Usr s))
  | OpAcquire l => Acquire st t l
  | OpRelease l => Release st t l
  | OpWait c l => Wait st t c l
  | OpSignal c l => Signal st t c l
  | OpBroadcast c l => Broadcast st t c l
  end.

Definition result_state (r : result) : option Sys :=
  match r with Done st | Asleep st => Some st | Aborts => None end.

(** A thread that [GetNewThreadId] gave no identifier (-1, when all are taken) is
    not followed: the new thread of [step_fork] has one of its own. *)
Inductive step : Sys → Sys → Prop :=
| step_op st t o st' : current st = Some t → resumes st !! t = None →
    result_state (exec_op st t o) = Some st' → step st st'
| step_continue st t r st' : current st = Some t → resumes st !! t = Some r →
    result_state (continue st t r) = Some st' → step st st'
| step_yield st t : current st = Some t → resumes st !! t = None → step st (Yield st t)
| step_finish st t : current st = Some t → resumes st !! t = None → step st (Finish st t)
| step_fork st t n : current st = Some t → resumes st !! t = None → 0 ≤ n →
    tstatus st !! n = None → step st (Fork st n)
| step_device st s : step st (V st (Usr s))
| step_wake st : current st = None → step st (dispatch st).

Definition reachable (st0 st : Sys) : Prop := rtc step st0 st.

(** ** Where threads are *)
Inductive place := PCur | PReady | PSem (s : semid) | PCond (c : Z).
#[global] Instance place_eq_dec : EqDecision place.
Proof. solve_decision. Defined.

Definition at_place (st : Sys) (t : Z) (p : place) : Prop :=
  match p with
  | PCur => current st = Some t
  | PReady => t ∈ readyList st
  | PSem s => t ∈ queue (sems st s)
  | PCond c => t ∈ waitQueue st c
  end.
Definition status_of (p : place) : ThreadStatus :=
  match p with PCur => RUNNING | PReady => READY | _ => BLOCKED end.

(** The resumption of a thread queued on a semaphore. *)
Definition wait_resume (s : semid) : resume :=
  match s with Usr u => RP u | OfLock l => RAcquire l end.
Definition res_at (st : Sys) (t : Z) (p : place) : Prop :=
  match p with
  | PSem s => resumes st !! t = Some (wait_resume s)
  | PCond _ => ∃ l, resumes st !! t = Some (RWake l)
  | _ => True
  end.

Section invariant.
(** The semaphores that start with a value that is not negative.  The others
    ([semFORK] starts at -1) are like them in all but their sign. *)
Variable counted : semid → Prop.

(** Every live thread is in exactly one place, once. *)
Record core (st : Sys) : Prop := mkCore {
  c_uniq : ∀ t p q, at_place st t p → at_place st t q → p = q;
  c_ready : NoDup (readyList st);
  c_sem : ∀ s, NoDup (queue (sems st s));
  c_cond : ∀ c, NoDup (waitQueue st c);
  c_live : ∀ t, is_Some (tstatus st !! t) ↔ ∃ p, at_place st t p;
  c_status : ∀ t p, at_place st t p → tstatus st !! t = Some (status_of p);
  c_tid : ∀ t, is_Some (tstatus st !! t) → 0 ≤ t;
  c_res : ∀ t p, at_place st t p → res_at st t p;
  c_resdom : ∀ t, is_Some (resumes st !! t) → is_Some (tstatus st !! t);
  c_pos : ∀ s, counted s → 0 ≤ value (sems st s)
}.

(** Threads that were taken off the queue of [s] and have not looked at its
    value yet. *)
Definition cur_ready (st : Sys) : list Z :=
  match current st with Some t => t :: readyList st | None => readyList st end.
Definition woken (st : Sys) (s : semid) : nat :=
  length (filter (λ t, resumes st !! t = Some (wait_resume s)) (cur_ready st)).
(** No wakeup is lost: while somebody waits on a positive semaphore, as many
    woken threads as its value are on their way. *)
Definition wake (st : Sys) (s : semid) : Prop :=
  queue (sems st s) ≠ [] → value (sems st s) ≤ Z.of_nat (woken st s).

(** Mutual exclusion, with the owner field telling the truth. *)
Definition lock_ok (st : Sys) (l : Z) : Prop :=
  (value (sems st (OfLock l)) = 1 ∧ lockOwner st l = -1 ∧ held st l = []) ∨
  (value (sems st (OfLock l)) = 0 ∧ ∃ t, 0 ≤ t ∧ lockOwner st l = t ∧ held st l = [t]).

Record sinv (st : Sys) : Prop := mkSinv {
  s_core : core st;
  s_wake : ∀ s, wake st s;
  s_lock : ∀ l, lock_ok st l
}.

Section moves.
Implicit Types st : Sys.

(** Moving one thread from its place to [q]. *)
Lemma core_move st st' t q : core st → is_Some (tstatus st !! t) →
  (∀ u r, at_place st' u r ↔ (u = t ∧ r = q) ∨ (u ≠ t ∧ at_place st u r)) →
  NoDup (readyList st') → (∀ s, NoDup (queue (sems st' s))) → (∀ c, NoDup (waitQueue st' c)) →
  tstatus st' = <[t := status_of q]> (tstatus st) →
  (∀ u, u ≠ t → resumes st' !! u = resumes st !! u) → res_at st' t q →
  (∀ s, counted s → 0 ≤ value (sems st' s)) → core st'.
Proof.
  intros Hc Hlive Hat H1 H2 H3 Hst Hres Hrt Hpos. constructor; try done.
  - intros u p r Hp Hr. rewrite !Hat in *.
    destruct Hp as [[-> ->]|[? Hp]], Hr as [[? ->]|[? Hr]]; try done. by eapply c_uniq.
  - intros u. rewrite Hst. destruct (decide (u = t)) as [->|Hne].
    + rewrite lookup_insert_eq. split; [intros _; exists q; apply Hat; by left|by eexists].
    + rewrite lookup_insert_ne by done. rewrite (c_live _ Hc).
      split; intros [p Hp]; exists p; [apply Hat; by right|]. apply Hat in Hp. naive_solver.
  - intros u p [[-> ->]|[Hne Hp]]%Hat; rewrite Hst; [apply lookup_insert_eq|].
    rewrite lookup_insert_ne by done. by apply (c_status _ Hc).
  - intros u. rewrite Hst. destruct (decide (u = t)) as [->|Hne]; [by intros _; apply (c_tid _ Hc)|].
    rewrite lookup_insert_ne by done. apply (c_tid _ Hc).
  - intros u p [[-> ->]|[Hne Hp]]%Hat; [done|]. pose proof (c_res _ Hc u p Hp) as H.
    unfold res_at in *. by rewrite Hres.
  - intros u. rewrite Hst. destruct (decide (u = t)) as [->|Hne];
      [by rewrite lookup_insert_eq; eexists|].
    rewrite Hres, lookup_insert_ne by done. apply (c_resdom _ Hc).
Qed.

(** A change of values and of lock fields only. *)
Lemma core_ext st st' : core st → (∀ u p, at_place st' u p ↔ at_place st u p) →
  tstatus st' = tstatus st → resumes st' = resumes st → NoDup (readyList st') →
  (∀ s, NoDup (queue (sems st' s))) → (∀ c, NoDup (waitQueue st' c)) →
  (∀ s, counted s → 0 ≤ value (sems st' s)) → core st'.
Proof.
  intros [C1 C2 C3 C4 C5 C6 C7 C8 C9 C10] Hat Et Er H1 H2 H3 H4.
  constructor; rewrite ?Et, ?Er; try done.
  - intros u p q Hp Hq. apply (C1 u); by apply Hat.
  - intros u. rewrite C5. split; intros [p Hp]; exists p; by apply Hat.
  - intros u p Hp. by apply C6, Hat.
  - intros u p Hp. apply Hat, C8 in Hp. unfold res_at in *. by rewrite Er.
Qed.

Lemma fn_insert_q (f : semid → Semaphore) s x s' :
  <[s := x]> f s' = if decide (s = s') then x else f s'.
Proof. done. Qed.
Lemma fn_insert_c {B} (f : Z → B) c x c' :
  <[c := x]> f c' = if decide (c = c') then x else f c'.
Proof. done. Qed.

(** Running the head of the ready list. *)
Lemma dispatch_core st : core st → current st = None → core (dispatch st).
Proof.
  intros Hc Hcur. unfold dispatch, FindNextToRun. destruct (readyList st) as [|t r] eqn:Er.
  { replace (set_current st None) with st by (destruct st; simpl in *; by subst). done. }
  pose proof (c_ready _ Hc) as Hnd. rewrite Er in Hnd. apply NoDup_cons in Hnd as [Hnin Hnd].
  assert (at_place st t PReady) as Ht by (simpl; rewrite Er; left).
  assert (∀ p, at_place st t p → p = PReady) as Honly by (intros p Hp; by eapply c_uniq).
  eapply (core_move st _ t PCur); [done|by apply (c_live _ Hc); eexists| |done|..]; try apply Hc; try done.
  intros u p. destruct p; simpl.
  - split; [intros [= <-]; by left|]. intros [[-> _]|[_ Hu]]; [done|congruence].
  - rewrite Er, elem_of_cons. split; [|naive_solver].
    intros Hu. right. split; [congruence|by right].
  - split; [|naive_solver]. intros Hu. right. split; [|done].
    intros ->. by specialize (Honly (PSem s) Hu).
  - split; [|naive_solver]. intros Hu. right. split; [|done].
    intros ->. by specialize (Honly (PCond c) Hu).
Qed.

Lemma cur_ready_dispatch st : current st = None → cur_ready (dispatch st) = cur_ready st.
Proof.
  intros Hc. unfold dispatch, FindNextToRun, cur_ready. rewrite Hc.
  destruct (readyList st) eqn:E; simpl; [by rewrite E|done].
Qed.
Lemma dispatch_sems st : sems (dispatch st) = sems st.
Proof. unfold dispatch, FindNextToRun. by destruct (readyList st). Qed.
Lemma dispatch_resumes st : resumes (dispatch st) = resumes st.
Proof. unfold dispatch, FindNextToRun. by destruct (readyList st). Qed.
Lemma dispatch_locks st : lockOwner (dispatch st) = lockOwner st ∧ held (dispatch st) = held st.
Proof. unfold dispatch, FindNextToRun. by destruct (readyList st). Qed.
Lemma dispatch_forgets st : dispatch (set_current st None) = dispatch st.
Proof. unfold dispatch, FindNextToRun. simpl. by destruct (readyList st). Qed.

Lemma dispatch_wake st s : current st = None → wake st s → wake (dispatch st) s.
Proof.
  intros Hc. unfold wake, woken. by rewrite dispatch_sems, dispatch_resumes, cur_ready_dispatch.
Qed.
Lemma lock_ok_ext st st' l : value (sems st' (OfLock l)) = value (sems st (OfLock l)) →
  lockOwner st' l = lockOwner st l → held st' l = held st l → lock_ok st l → lock_ok st' l.
Proof. unfold lock_ok. by intros -> -> ->. Qed.
Lemma dispatch_lock st l : lock_ok st l → lock_ok (dispatch st) l.
Proof.
  destruct (dispatch_locks st) as [E1 E2].
  apply lock_ok_ext; by rewrite ?dispatch_sems, ?E1, ?E2.
Qed.
End moves.

Section primitives.
Implicit Types st : Sys.

(** The current thread is in no queue. *)
Lemma cur_only st t p : core st → current st = Some t → at_place st t p → p = PCur.
Proof. intros Hc Hcur Hp. symmetry. by apply (c_uniq _ Hc t PCur p). Qed.

Lemma NoDup_snoc (q : list Z) t : NoDup q → t ∉ q → NoDup (q ++ [t]).
Proof.
  intros Hq Ht. apply NoDup_app. split; [done|]. split; [set_solver|apply NoDup_singleton].
Qed.

(** The current thread [t] leaves the processor for the queue of [s]. *)
Definition block_sem st t s : Sys :=
  set_current (set_resumes (set_tstatus
    (set_sem st s (mkSemaphore (value (sems st s)) (queue (sems st s) ++ [t])))
    (<[t := BLOCKED]> (tstatus st))) (<[t := wait_resume s]> (resumes st))) None.

Lemma block_sem_core st t s : core st → current st = Some t → core (block_sem st t s).
Proof.
  intros Hc Hcur. pose proof (λ p, cur_only st t p Hc Hcur) as Honly.
  apply (core_move st _ t (PSem s) Hc); try done; try apply (c_ready _ Hc);
    try apply (c_cond _ Hc).
  - apply (c_live _ Hc). by exists PCur.
  - intros u p. destruct p as [| |s'|c]; simpl.
    + split; [done|]. intros [[_ ?]|[? ?]]; [done|congruence].
    + split; [|naive_solver]. intros Hu. right. split; [|done]. intros ->.
      by specialize (Honly PReady Hu).
    + rewrite fn_insert_q. case_decide as E.
      * subst s'. simpl. rewrite elem_of_app, list_elem_of_singleton. split; [|naive_solver].
        intros [Hu| ->]; [right|by left]. split; [|done]. intros ->.
        by specialize (Honly (PSem s) Hu).
      * split; [|naive_solver]. intros Hu. right. split; [|done]. intros ->.
        by specialize (Honly (PSem s') Hu).
    + split; [|naive_solver]. intros Hu. right. split; [|done]. intros ->.
      by specialize (Honly (PCond c) Hu).
  - intros s'. simpl. rewrite fn_insert_q. case_decide as E; [|apply Hc]. simpl.
    apply NoDup_snoc; [apply Hc|]. intros Hu. by specialize (Honly (PSem s) Hu).
  - intros u Hne. simpl. by rewrite lookup_insert_ne.
  - simpl. apply lookup_insert_eq.
  - intros s'. simpl. rewrite fn_insert_q. case_decide as E; [subst; simpl|]; apply (c_pos _ Hc).
Qed.

Lemma filter_length_ext {A} (Q R : A → Prop) `{∀ x, Decision (Q x), ∀ x, Decision (R x)} l :
  (∀ x, x ∈ l → Q x ↔ R x) → length (filter Q l) = length (filter R l).
Proof.
  induction l as [|x l IH]; intros Hl; [done|].
  assert (Q x ↔ R x) as Hx by (apply Hl; left).
  assert (length (filter Q l) = length (filter R l)) as E by (apply IH; intros; apply Hl; by right).
  destruct (decide (Q x)).
  - rewrite !filter_cons_True by naive_solver. simpl. by rewrite E.
  - rewrite !filter_cons_False by naive_solver. done.
Qed.

(** A thread that has no resumption does not count as woken. *)
Lemma woken_cur st t s : current st = Some t → resumes st !! t = None →
  woken st s = length (filter (λ u, resumes st !! u = Some (wait_resume s)) (readyList st)).
Proof.
  intros Hcur Hr. unfold woken, cur_ready. rewrite Hcur.
  by rewrite filter_cons_False by congruence.
Qed.

Lemma P_at_spec st t s : core st → current st = Some t → resumes st !! t = None →
  (∀ s', s' ≠ s → wake st s') →
  (queue (sems st s) ≠ [] → value (sems st s) ≤ Z.of_nat (woken st s) + 1) →
  match P_at st t s (wait_resume s) with
  | Done st' => core st' ∧ (∀ s', wake st' s') ∧ value (sems st s) ≠ 0 ∧
      st' = set_sem st s (mkSemaphore (value (sems st s) - 1) (queue (sems st s)))
  | Asleep st' => core st' ∧ (∀ s', wake st' s') ∧ value (sems st s) = 0 ∧
      st' = dispatch (block_sem st t s)
  | Aborts => False
  end.
Proof.
  intros Hc Hcur Hr Hw Hws. unfold P_at.
  destruct (Z.eqb_spec (value (sems st s)) 0) as [E|E].
  - unfold Sleep. rewrite <- dispatch_forgets. change (set_current _ None) with (block_sem st t s).
    split; [apply dispatch_core; [by apply block_sem_core|done]|].
    split; [|split; [done|reflexivity]]. intros s'.
    apply dispatch_wake; [done|]. unfold wake, woken. simpl. rewrite fn_insert_q.
    assert (length (filter (λ u, <[t:=wait_resume s]> (resumes st) !! u = Some (wait_resume s'))
      (cur_ready (block_sem st t s))) = woken st s') as Ewk.
    { rewrite (woken_cur st t s' Hcur Hr). apply filter_length_ext. intros u Hu.
      rewrite lookup_insert_ne; [done|]. intros <-.
      by pose proof (cur_only st t PReady Hc Hcur Hu). }
    rewrite Ewk. case_decide as Es; simpl.
    + intros _. lia.
    + apply Hw. congruence.
  - pose proof (c_pos _ Hc s) as Hpos.
    split; [|split; [|split; [done|done]]].
    + apply (core_ext st _ Hc); simpl; try done; try apply (c_ready _ Hc); try apply (c_cond _ Hc).
      * intros u [| |s'|c]; simpl; try done. rewrite fn_insert_q. case_decide; [by subst|done].
      * intros s'. rewrite fn_insert_q. case_decide; [subst|]; apply (c_sem _ Hc).
      * intros s'. rewrite fn_insert_q. case_decide; simpl; [subst; intros H%Hpos; lia|apply (c_pos _ Hc)].
    + intros s'. unfold wake, woken. simpl. rewrite fn_insert_q.
      change (cur_ready (set_sem _ _ _)) with (cur_ready st).
      case_decide as Es; [subst s'; simpl; intros Hq; specialize (Hws Hq); unfold woken in Hws; lia|].
      apply Hw. congruence.
Qed.

(** [V] moves the first waiter, if any, to the ready list. *)
Lemma V_core st s : core st → core (V st s).
Proof.
  intros Hc. unfold V. pose proof (c_pos _ Hc s) as Hpos.
  destruct (queue (sems st s)) as [|w q] eqn:Eq.
  - apply (core_ext st _ Hc); simpl; try done; try apply (c_ready _ Hc); try apply (c_cond _ Hc).
    + intros u [| |s'|c]; simpl; try done. rewrite fn_insert_q. case_decide; [subst; by rewrite Eq|done].
    + intros s'. rewrite fn_insert_q. case_decide; [constructor|apply (c_sem _ Hc)].
    + intros s'. rewrite fn_insert_q. case_decide; simpl; [subst; intros H%Hpos; lia|apply (c_pos _ Hc)].
  - assert (at_place st w (PSem s)) as Hw by (simpl; rewrite Eq; left).
    assert (∀ p, at_place st w p → p = PSem s) as Honly by (intros p Hp; by eapply c_uniq).
    pose proof (c_sem _ Hc s) as Hnd. rewrite Eq in Hnd. apply NoDup_cons in Hnd as [Hnin Hnd].
    apply (core_move st _ w PReady Hc); try done; try apply (c_cond _ Hc).
    + apply (c_live _ Hc). by exists (PSem s).
    + intros u p. destruct p as [| |s'|c]; simpl.
      * split; [|naive_solver]. intros Hu. right. split; [|done]. intros ->.
        by specialize (Honly PCur Hu).
      * rewrite elem_of_app, list_elem_of_singleton. split; [|naive_solver].
        intros [Hu| ->]; [right|by left]. split; [|done]. intros ->. by specialize (Honly PReady Hu).
      * rewrite fn_insert_q. case_decide as E; simpl.
        -- subst s'. rewrite Eq, elem_of_cons. split; [|naive_solver].
           intros Hu. right. split; [congruence|by right].
        -- split; [|naive_solver]. intros Hu. right. split; [|done]. intros ->.
           specialize (Honly (PSem s') Hu). congruence.
      * split; [|naive_solver]. intros Hu. right. split; [|done]. intros ->.
        by specialize (Honly (PCond c) Hu).
    + simpl. apply NoDup_snoc; [apply Hc|]. intros Hu. by specialize (Honly PReady Hu).
    + intros s'. simpl. rewrite fn_insert_q. case_decide; [done|apply Hc].
    + intros s'. simpl. rewrite fn_insert_q. case_decide; simpl; [subst; intros H%Hpos; lia|apply (c_pos _ Hc)].
Qed.
End primitives.

Section calls.
Implicit Types st : Sys.

Lemma wait_resume_inj s s' : wait_resume s = wait_resume s' → s = s'.
Proof. destruct s, s'; simpl; congruence. Qed.

Lemma woken_ready st w s : woken (ReadyToRun st w) s =
  (woken st s + if decide (resumes st !! w = Some (wait_resume s)) then 1 else 0)%nat.
Proof.
  unfold woken. change (resumes (ReadyToRun st w)) with (resumes st).
  assert (cur_ready (ReadyToRun st w) = cur_ready st ++ [w]) as ->
    by (unfold cur_ready; simpl; by destruct (current st)).
  rewrite filter_app, length_app. f_equal. rewrite filter_cons, filter_nil.
  by case_decide.
Qed.

Lemma V_wake st s s' : core st → (∀ s', wake st s') → wake (V st s) s'.
Proof.
  intros Hc Hw. pose proof (Hw s') as Hw'. unfold V. destruct (queue (sems st s)) as [|w q] eqn:Eq.
  - unfold wake in *. simpl. rewrite fn_insert_q. case_decide as E; [done|]. exact Hw'.
  - assert (resumes st !! w = Some (wait_resume s)) as Hr.
    { apply (c_res _ Hc w (PSem s)). simpl. rewrite Eq. left. }
    unfold wake in *. change (woken (set_sem ?x _ _) s') with (woken x s').
    rewrite woken_ready, Hr. simpl. rewrite fn_insert_q. case_decide as E; simpl.
    + subst s'. intros _. rewrite decide_True by done. rewrite Eq in Hw'.
      specialize (Hw' ltac:(done)). lia.
    + rewrite decide_False by (intros [= H%wait_resume_inj]; done). rewrite Nat.add_0_r. exact Hw'.
Qed.

Lemma V_value st s s' : value (sems (V st s) s') =
  value (sems st s') + if decide (s = s') then 1 else 0.
Proof.
  unfold V. destruct (queue (sems st s)); simpl; rewrite fn_insert_q; case_decide; subst; simpl; lia.
Qed.
Lemma V_locks st s : lockOwner (V st s) = lockOwner st ∧ held (V st s) = held st.
Proof. unfold V. by destruct (queue (sems st s)). Qed.
Lemma V_lock_other st s l : s ≠ OfLock l → lock_ok st l → lock_ok (V st s) l.
Proof.
  intros Hs. destruct (V_locks st s) as [E1 E2]. apply lock_ok_ext.
  - rewrite V_value, decide_False by done. lia.
  - by rewrite E1.
  - by rewrite E2.
Qed.

Lemma core_lockfields st l h l' o : core st → core (set_owner (set_held st l h) l' o).
Proof. intros [C1 C2 C3 C4 C5 C6 C7 C8 C9 C10]. by constructor. Qed.

(** Moving a thread that waits on a condition to the ready list. *)
Lemma signal_core st c w q : core st → waitQueue st c = w :: q →
  core (ReadyToRun (set_waitQueue st c q) w).
Proof.
  intros Hc Eq. assert (at_place st w (PCond c)) as Hw by (simpl; rewrite Eq; left).
  assert (∀ p, at_place st w p → p = PCond c) as Honly by (intros p Hp; by eapply c_uniq).
  pose proof (c_cond _ Hc c) as Hnd. rewrite Eq in Hnd. apply NoDup_cons in Hnd as [Hnin Hnd].
  apply (core_move st _ w PReady Hc); try done; try apply (c_sem _ Hc); try apply (c_pos _ Hc).
  + apply (c_live _ Hc). by exists (PCond c).
  + intros u p. destruct p as [| |s'|c']; simpl.
    * split; [|naive_solver]. intros Hu. right. split; [|done]. intros ->.
      by specialize (Honly PCur Hu).
    * rewrite elem_of_app, list_elem_of_singleton. split; [|naive_solver].
      intros [Hu| ->]; [right|by left]. split; [|done]. intros ->. by specialize (Honly PReady Hu).
    * split; [|naive_solver]. intros Hu. right. split; [|done]. intros ->.
      by specialize (Honly (PSem s') Hu).
    * rewrite fn_insert_c. case_decide as E; simpl.
      -- subst c'. rewrite Eq, elem_of_cons. split; [|naive_solver].
         intros Hu. right. split; [congruence|by right].
      -- split; [|naive_solver]. intros Hu. right. split; [|done]. intros ->.
         specialize (Honly (PCond c') Hu). congruence.
  + simpl. apply NoDup_snoc; [apply Hc|]. intros Hu. by specialize (Honly PReady Hu).
  + intros c'. simpl. rewrite fn_insert_c. case_decide; [done|apply (c_cond _ Hc)].
Qed.

Lemma signal_wake st c w q s : core st → waitQueue st c = w :: q → wake st s →
  wake (ReadyToRun (set_waitQueue st c q) w) s.
Proof.
  intros Hc Eq Hw. assert (∃ l, resumes st !! w = Some (RWake l)) as [l Hl].
  { apply (c_res _ Hc w (PCond c)). simpl. rewrite Eq. left. }
  unfold wake in *. rewrite woken_ready. simpl. rewrite Hl.
  rewrite decide_False by (by destruct s). rewrite Nat.add_0_r. exact Hw.
Qed.

Lemma signal_sinv st c w q : sinv st → waitQueue st c = w :: q →
  sinv (ReadyToRun (set_waitQueue st c q) w).
Proof.
  intros [Hc Hw Hl] Eq. constructor; [by apply signal_core|intros; by apply signal_wake|done].
Qed.

Lemma set_waitQueue_same st c : sinv st → sinv (set_waitQueue st c (waitQueue st c)).
Proof.
  assert (∀ c', <[c := waitQueue st c]> (waitQueue st) c' = waitQueue st c') as E.
  { intros c'. rewrite fn_insert_c. case_decide; by subst. }
  intros [Hc Hw Hl]. constructor; [|done|done].
  apply (core_ext st _ Hc); try done; try apply (c_ready _ Hc); try apply (c_sem _ Hc);
    try apply (c_pos _ Hc).
  - intros u [| |s'|c']; simpl; try done. by rewrite E.
  - intros c'. simpl. rewrite E. apply (c_cond _ Hc).
Qed.

Lemma broadcast_sinv q st c : sinv (set_waitQueue st c q) →
  sinv (foldl ReadyToRun (set_waitQueue st c []) q).
Proof.
  revert st. induction q as [|w q IH]; intros st Hs; [done|].
  change (sinv (foldl ReadyToRun (set_waitQueue (ReadyToRun st w) c []) q)). apply IH.
  assert (waitQueue (set_waitQueue st c (w :: q)) c = w :: q) as E by apply fn_lookup_insert.
  pose proof (signal_sinv _ c w q Hs E) as H.
  assert (∀ c', <[c := q]> (<[c := w :: q]> (waitQueue st)) c' = <[c := q]> (waitQueue st) c') as Ef.
  { intros c'. rewrite !fn_insert_c. by case_decide. }
  destruct H as [Hc Hw Hl]. constructor; [|done|done].
  apply (core_ext _ _ Hc); try done; try apply (c_ready _ Hc); try apply (c_sem _ Hc);
    try apply (c_pos _ Hc).
  - intros u [| |s'|c']; simpl; try done. by rewrite Ef.
  - intros c'. simpl. rewrite <- Ef. apply (c_cond _ Hc).
Qed.
End calls.

Section steps.
Implicit Types st : Sys.

Lemma dispatch_sinv st : sinv st → current st = None → sinv (dispatch st).
Proof.
  intros [Hc Hw Hl] Hcur. constructor; [by apply dispatch_core| |].
  - intros s. by apply dispatch_wake.
  - intros l. by apply dispatch_lock.
Qed.

(** [P] on a semaphore other than a lock's. *)
Lemma P_sinv st t s st' : core st → (∀ l, lock_ok st l) → current st = Some t →
  resumes st !! t = None → (∀ s', s' ≠ Usr s → wake st s') →
  (queue (sems st (Usr s)) ≠ [] → value (sems st (Usr s)) ≤ Z.of_nat (woken st (Usr s)) + 1) →
  result_state (P st t s) = Some st' → sinv st'.
Proof.
  intros Hc Hl Hcur Hr Hw Hws. pose proof (P_at_spec st t (Usr s) Hc Hcur Hr Hw Hws) as H.
  unfold P. simpl in H. destruct (P_at st t (Usr s) (RP s)) as [st1|st1|]; [..|done];
    intros [= <-]; destruct H as (Hc' & Hw' & Hv & ->); (constructor; [done|done|]); intros l.
  - apply (lock_ok_ext st); [simpl; by rewrite fn_insert_q|done..].
  - apply dispatch_lock. apply (lock_ok_ext st); [simpl; by rewrite fn_insert_q|done..].
Qed.

Lemma Acquire_sinv st t l st' : core st → (∀ l, lock_ok st l) → current st = Some t →
  resumes st !! t = None → (∀ s', s' ≠ OfLock l → wake st s') →
  (queue (sems st (OfLock l)) ≠ [] →
     value (sems st (OfLock l)) ≤ Z.of_nat (woken st (OfLock l)) + 1) →
  result_state (Acquire st t l) = Some st' → sinv st'.
Proof.
  intros Hc Hl Hcur Hr Hw Hws. pose proof (P_at_spec st t (OfLock l) Hc Hcur Hr Hw Hws) as H.
  unfold Acquire. simpl in H. destruct (P_at st t (OfLock l) (RAcquire l)) as [st1|st1|]; [..|done];
    intros [= <-]; destruct H as (Hc' & Hw' & Hv & ->).
  - constructor; [|done|].
    + apply (core_ext _ _ Hc'); try done; apply Hc'.
    + intros l'. destruct (decide (l = l')) as [<-|Hne].
      * right. simpl. rewrite !fn_insert_c, fn_insert_q, !decide_True by done. simpl.
        destruct (Hl l) as [(Hv1 & Ho & Hh)|[Hv0 _]]; [|lia]. split; [lia|].
        exists t. rewrite Hh. split; [|done]. apply (c_tid _ Hc), (c_live _ Hc). by exists PCur.
      * apply (lock_ok_ext st); [|simpl; rewrite fn_insert_c, decide_False by done; done..|done].
        simpl. rewrite fn_insert_q, decide_False by congruence. done.
  - constructor; [done|done|]. intros l'. apply dispatch_lock. apply (lock_ok_ext st); try done.
    simpl. rewrite fn_insert_q. case_decide as E; [injection E as <-|]; done.
Qed.

(** The state from which the [V] of [Release] starts. *)
Lemma release_lock st t l l' : (∀ l, lock_ok st l) → lockOwner st l = t → 0 ≤ t →
  lock_ok (V (set_owner (set_held st l (remove Z.eq_dec t (held st l))) l (-1)) (OfLock l)) l'.
Proof.
  intros Hl Ho Ht. destruct (decide (l = l')) as [<-|Hne].
  - left. destruct (V_locks (set_owner (set_held st l (remove Z.eq_dec t (held st l))) l (-1)) (OfLock l))
      as [-> ->]. rewrite V_value, decide_True by done. simpl. rewrite !fn_lookup_insert.
    destruct (Hl l) as [(_ & Ho' & _)|(Hv & t' & Ht' & Ho' & Hh)]; [lia|].
    assert (t' = t) as -> by congruence. rewrite Hh. simpl.
    destruct (Z.eq_dec t t); [|done]. split; [lia|done].
  - apply V_lock_other; [congruence|]. apply (lock_ok_ext st); try done; simpl;
      by rewrite fn_lookup_insert_ne.
Qed.

Lemma Release_sinv st t l st' : sinv st → current st = Some t →
  result_state (Release st t l) = Some st' → sinv st'.
Proof.
  intros [Hc Hw Hl] Hcur. unfold Release, isHeldByCurrentThread.
  destruct (Z.eqb_spec (lockOwner st l) t) as [Ho|]; [|done]. intros [= <-].
  assert (0 ≤ t) as Ht by (apply (c_tid _ Hc), (c_live _ Hc); by exists PCur).
  constructor.
  - by apply V_core, core_lockfields.
  - intros s. apply V_wake; [by apply core_lockfields|done].
  - intros l'. by apply release_lock.
Qed.

(** The current thread leaves the processor for the queue of condition [c]. *)
Definition block_cond st t c l : Sys :=
  set_current (set_resumes (set_tstatus (set_waitQueue st c (waitQueue st c ++ [t]))
    (<[t := BLOCKED]> (tstatus st))) (<[t := RWake l]> (resumes st))) None.

Lemma block_cond_core st t c l : core st → current st = Some t → core (block_cond st t c l).
Proof.
  intros Hc Hcur. pose proof (λ p, cur_only st t p Hc Hcur) as Honly.
  apply (core_move st _ t (PCond c) Hc); try done; try apply (c_ready _ Hc);
    try apply (c_sem _ Hc); try apply (c_pos _ Hc).
  - apply (c_live _ Hc). by exists PCur.
  - intros u p. destruct p as [| |s'|c']; simpl.
    + split; [done|]. intros [[_ ?]|[? ?]]; [done|congruence].
    + split; [|naive_solver]. intros Hu. right. split; [|done]. intros ->.
      by specialize (Honly PReady Hu).
    + split; [|naive_solver]. intros Hu. right. split; [|done]. intros ->.
      by specialize (Honly (PSem s') Hu).
    + rewrite fn_insert_c. case_decide as E.
      * subst c'. rewrite elem_of_app, list_elem_of_singleton. split; [|naive_solver].
        intros [Hu| ->]; [right|by left]. split; [|done]. intros ->.
        by specialize (Honly (PCond c) Hu).
      * split; [|naive_solver]. intros Hu. right. split; [|done]. intros ->.
        by specialize (Honly (PCond c') Hu).
  - intros c'. simpl. rewrite fn_insert_c. case_decide as E; [|apply (c_cond _ Hc)].
    apply NoDup_snoc; [apply Hc|]. intros Hu. by specialize (Honly (PCond c) Hu).
  - intros u Hne. simpl. by rewrite lookup_insert_ne.
  - simpl. exists l. apply lookup_insert_eq.
Qed.

Lemma block_cond_wake st t c l s : core st → current st = Some t → resumes st !! t = None →
  wake st s → wake (block_cond st t c l) s.
Proof.
  intros Hc Hcur Hr. unfold wake. rewrite (woken_cur st t s Hcur Hr).
  assert (woken (block_cond st t c l) s =
    length (filter (λ u, resumes st !! u = Some (wait_resume s)) (readyList st))) as ->; [|done].
  apply filter_length_ext. intros u Hu. simpl. rewrite lookup_insert_ne; [done|].
  intros <-. by pose proof (cur_only st t PReady Hc Hcur Hu).
Qed.

(** Going to sleep before or after the [V] of [Release] makes no difference:
    the woken thread is another one. *)
Lemma sleep_V st t l s : t ∉ queue (sems st s) →
  Sleep (V st s) t (RWake l) =
  dispatch (V (set_current (set_resumes (set_tstatus st (<[t := BLOCKED]> (tstatus st)))
    (<[t := RWake l]> (resumes st))) None) s).
Proof.
  intros Hnin. unfold Sleep. rewrite <- dispatch_forgets. f_equal.
  unfold V. cbn [sems set_current set_resumes set_tstatus].
  destruct (queue (sems st s)) as [|w q]; [done|].
  unfold ReadyToRun, set_sem, set_current, set_resumes, set_tstatus, set_ready. cbn. f_equal.
  apply insert_insert_ne. set_solver.
Qed.

Lemma Wait_sinv st t c l st' : sinv st → current st = Some t → resumes st !! t = None →
  result_state (Wait st t c l) = Some st' → sinv st'.
Proof.
  intros [Hc Hw Hl] Hcur Hr. unfold Wait, Release, isHeldByCurrentThread.
  cbn [lockOwner set_waitQueue held].
  destruct (Z.eqb_spec (lockOwner st l) t) as [Ho|]; [|done]. intros [= <-].
  assert (0 ≤ t) as Ht by (apply (c_tid _ Hc), (c_live _ Hc); by exists PCur).
  rewrite sleep_V.
  2: { simpl. intros Hu. by pose proof (cur_only st t (PSem (OfLock l)) Hc Hcur Hu). }
  pose proof (block_cond_core st t c l Hc Hcur) as Hbc.
  set (b := set_owner (set_held (block_cond st t c l) l (remove Z.eq_dec t (held st l))) l (-1)).
  change (sinv (dispatch (V b (OfLock l)))).
  assert (core b) as Hcb by (by apply core_lockfields).
  apply dispatch_sinv.
  - constructor; [by apply V_core| |].
    + intros s. apply V_wake; [done|]. intros s'. by apply (block_cond_wake st t c l s').
    + intros l'. by apply (release_lock (block_cond st t c l) t l l').
  - unfold V. by destruct (queue (sems b (OfLock l))).
Qed.
End steps.

Section thread_steps.
Implicit Types st : Sys.

Lemma woken_perm st st' s : resumes st' = resumes st → cur_ready st' ≡ₚ cur_ready st →
  woken st' s = woken st s.
Proof. intros Er Ep. unfold woken. by rewrite Er, Ep. Qed.

(** The current thread goes to the end of the ready list. *)
Definition requeue st t : Sys := ReadyToRun (set_current st None) t.

Lemma requeue_sinv st t : sinv st → current st = Some t → sinv (requeue st t).
Proof.
  intros [Hc Hw Hl] Hcur. pose proof (λ p, cur_only st t p Hc Hcur) as Honly.
  constructor; [|intros s; unfold wake; rewrite (woken_perm st); [apply Hw|done|]|done].
  - apply (core_move st _ t PReady Hc); try done; try apply (c_cond _ Hc);
      try apply (c_sem _ Hc); try apply (c_pos _ Hc).
    + apply (c_live _ Hc). by exists PCur.
    + intros u [| |s'|c']; simpl.
      * split; [done|]. intros [[_ ?]|[? ?]]; [done|congruence].
      * rewrite elem_of_app, list_elem_of_singleton. split; [|naive_solver].
        intros [Hu| ->]; [right|by left]. split; [|done]. intros ->. by specialize (Honly PReady Hu).
      * split; [|naive_solver]. intros Hu. right. split; [|done]. intros ->.
        by specialize (Honly (PSem s') Hu).
      * split; [|naive_solver]. intros Hu. right. split; [|done]. intros ->.
        by specialize (Honly (PCond c') Hu).
    + simpl. apply NoDup_snoc; [apply Hc|]. intros Hu. by specialize (Honly PReady Hu).
  - unfold cur_ready. rewrite Hcur. simpl. symmetry. apply Permutation_cons_append.
Qed.

Lemma Yield_sinv st t : sinv st → current st = Some t → sinv (Yield st t).
Proof.
  intros Hs Hcur. unfold Yield, FindNextToRun. destruct (readyList st) as [|n r] eqn:E; [done|].
  pose proof (dispatch_sinv _ (requeue_sinv st t Hs Hcur) eq_refl) as H.
  unfold dispatch, FindNextToRun, requeue in H. simpl in H. by rewrite E in H.
Qed.

(** The current thread disappears. *)
Definition gone st t : Sys :=
  set_current (set_resumes (set_tstatus st (delete t (tstatus st))) (delete t (resumes st))) None.

Lemma gone_sinv st t : sinv st → current st = Some t → resumes st !! t = None → sinv (gone st t).
Proof.
  intros [Hc Hw Hl] Hcur Hr. pose proof (λ p, cur_only st t p Hc Hcur) as Honly.
  assert (∀ u p, at_place (gone st t) u p ↔ u ≠ t ∧ at_place st u p) as Hat.
  { intros u [| |s'|c']; simpl.
    - split; [done|]. intros [? ?]. congruence.
    - split; [|naive_solver]. intros Hu. split; [|done]. intros ->. by specialize (Honly PReady Hu).
    - split; [|naive_solver]. intros Hu. split; [|done]. intros ->. by specialize (Honly (PSem s') Hu).
    - split; [|naive_solver]. intros Hu. split; [|done]. intros ->. by specialize (Honly (PCond c') Hu). }
  assert (delete t (resumes st) = resumes st) as Er by (by apply delete_id).
  constructor; [|intros s; unfold wake, woken; simpl; rewrite Er|done].
  - destruct Hc as [C1 C2 C3 C4 C5 C6 C7 C8 C9 C10]. constructor; try done.
    + intros u p q [_ Hp]%Hat [_ Hq]%Hat. by apply (C1 u).
    + intros u. simpl. rewrite lookup_delete_is_Some, C5.
      split; [intros (? & p & ?); exists p; by apply Hat|intros [p [? ?]%Hat]; eauto].
    + intros u p [Hne Hp]%Hat. simpl. rewrite lookup_delete_ne by done. by apply C6.
    + intros u. simpl. rewrite lookup_delete_is_Some. naive_solver.
    + intros u p [Hne Hp]%Hat. apply C8 in Hp. unfold res_at in *. simpl. by rewrite Er.
    + intros u. simpl. rewrite Er, lookup_delete_is_Some. intros Hu. split; [|by apply C9].
      intros <-. rewrite Hr in Hu. by destruct Hu.
  - intros Hq. pose proof (Hw s Hq) as H. rewrite (woken_cur st t s Hcur Hr) in H. exact H.
Qed.

Lemma Finish_sinv st t : sinv st → current st = Some t → resumes st !! t = None →
  sinv (Finish st t).
Proof.
  intros Hs Hcur Hr. unfold Finish. rewrite <- dispatch_forgets.
  apply dispatch_sinv; [by apply gone_sinv|done].
Qed.

Lemma Fork_sinv st n : sinv st → 0 ≤ n → tstatus st !! n = None → sinv (Fork st n).
Proof.
  intros [Hc Hw Hl] Hn Hnew. unfold Fork.
  assert (∀ p, ¬ at_place st n p) as Hno.
  { intros p Hp. pose proof (c_status _ Hc n p Hp). congruence. }
  assert (resumes st !! n = None) as Hr.
  { apply eq_None_not_Some. intros H%(c_resdom _ Hc). rewrite Hnew in H. by destruct H. }
  assert (∀ u p, at_place (ReadyToRun st n) u p ↔ (u = n ∧ p = PReady) ∨ at_place st u p) as Hat.
  { intros u [| |s'|c']; simpl; try naive_solver.
    rewrite elem_of_app, list_elem_of_singleton. naive_solver. }
  constructor; [| |done].
  - destruct Hc as [C1 C2 C3 C4 C5 C6 C7 C8 C9 C10]. constructor; try done.
    + intros u p q. rewrite !Hat. intros [[-> ->]|Hp] [[? ->]|Hq]; try done;
        [by destruct (Hno q)|subst; by destruct (Hno p)|by apply (C1 u)].
    + simpl. apply NoDup_snoc; [done|]. apply (Hno PReady).
    + intros u. simpl. destruct (decide (u = n)) as [->|Hne].
      * rewrite lookup_insert_eq. split; [intros _; exists PReady; apply Hat; by left|by eexists].
      * rewrite lookup_insert_ne, C5 by done.
        split; intros [p Hp]; exists p; [apply Hat; by right|]. apply Hat in Hp. naive_solver.
    + intros u p [[-> ->]|Hp]%Hat; simpl; [apply lookup_insert_eq|].
      rewrite lookup_insert_ne by (intros ->; by destruct (Hno p)). by apply C6.
    + intros u. simpl. destruct (decide (u = n)) as [->|Hne]; [done|].
      rewrite lookup_insert_ne by done. apply C7.
    + intros u p [[-> ->]|Hp]%Hat; [done|]. apply (C8 u p Hp).
    + intros u Hu. simpl. destruct (decide (u = n)) as [->|Hne]; [by rewrite lookup_insert_eq; eexists|].
      rewrite lookup_insert_ne by done. by apply C9.
  - intros s. unfold wake. rewrite woken_ready, decide_False, Nat.add_0_r by congruence. apply Hw.
Qed.

(** Forgetting the resumption of the thread that now runs. *)
Lemma resume_core st t : core st → current st = Some t →
  core (set_resumes st (delete t (resumes st))).
Proof.
  intros Hc Hcur. pose proof (λ p, cur_only st t p Hc Hcur) as Honly.
  destruct Hc as [C1 C2 C3 C4 C5 C6 C7 C8 C9 C10]. constructor; try done.
  - intros u p Hp. destruct (decide (u = t)) as [->|Hne].
    + by rewrite (Honly p Hp).
    + pose proof (C8 u p Hp) as H. unfold res_at in *. simpl. by rewrite lookup_delete_ne.
  - intros u. simpl. rewrite lookup_delete_is_Some. intros [_ ?]. by apply C9.
Qed.

Lemma resume_woken st t r s : core st → current st = Some t → resumes st !! t = Some r →
  woken st s = (woken (set_resumes st (delete t (resumes st))) s +
                if decide (r = wait_resume s) then 1 else 0)%nat.
Proof.
  intros Hc Hcur Hr.
  rewrite (woken_cur (set_resumes st _) t s Hcur) by apply lookup_delete_eq.
  unfold woken, cur_ready. rewrite Hcur. simpl.
  assert (length (filter (λ u, delete t (resumes st) !! u = Some (wait_resume s)) (readyList st)) =
    length (filter (λ u, resumes st !! u = Some (wait_resume s)) (readyList st))) as ->.
  { apply filter_length_ext. intros u Hu. rewrite lookup_delete_ne; [done|].
    intros <-. by pose proof (cur_only st t PReady Hc Hcur Hu). }
  rewrite filter_cons. destruct (decide (r = wait_resume s)) as [->|Hne].
  - rewrite decide_True by done. simpl. lia.
  - rewrite decide_False by congruence. lia.
Qed.

Lemma continue_sinv st t r st' : sinv st → current st = Some t → resumes st !! t = Some r →
  result_state (continue st t r) = Some st' → sinv st'.
Proof.
  intros [Hc Hw Hl] Hcur Hr. unfold continue. pose proof (resume_core st t Hc Hcur) as Hc0.
  pose proof (λ s, resume_woken st t r s Hc Hcur Hr) as Hwk.
  set (st0 := set_resumes st (delete t (resumes st))) in *.
  assert (resumes st0 !! t = None) as Hr0 by apply lookup_delete_eq.
  assert (∀ s, r ≠ wait_resume s → wake st0 s) as Hother.
  { intros s Hs. pose proof (Hw s) as H. unfold wake in *. rewrite Hwk, decide_False in H by done.
    rewrite Nat.add_0_r in H. exact H. }
  assert (∀ s, queue (sems st0 s) ≠ [] → value (sems st0 s) ≤ Z.of_nat (woken st0 s) + 1) as Hweak.
  { intros s Hq. pose proof (Hw s Hq) as H. rewrite Hwk in H.
    change (sems st0 s) with (sems st s). destruct (decide (r = wait_resume s)); lia. }
  destruct r as [s|l|l].
  - apply P_sinv; try done; [|apply Hweak].
    intros s' Hs'. apply Hother. intros E. apply Hs'. destruct s'; simpl in E; congruence.
  - apply Acquire_sinv; try done; [|apply Hweak].
    intros s' Hs'. apply Hother. intros E. apply Hs'. destruct s'; simpl in E; congruence.
  - apply Acquire_sinv; try done; [|apply Hweak].
    intros s' _. apply Hother. by destruct s'.
Qed.

Lemma exec_op_sinv st t o st' : sinv st → current st = Some t → resumes st !! t = None →
  result_state (exec_op st t o) = Some st' → sinv st'.
Proof.
  intros Hs Hcur Hr. pose proof Hs as [Hc Hw Hl].
  assert (∀ s, queue (sems st s) ≠ [] → value (sems st s) ≤ Z.of_nat (woken st s) + 1) as Hweak.
  { intros s Hq. pose proof (Hw s Hq). lia. }
  destruct o as [s|s|l|l|c l|c l|c l]; simpl.
  - apply P_sinv; auto.
  - intros [= <-]. constructor; [by apply V_core|intros; by apply V_wake|].
    intros l. by apply V_lock_other.
  - apply Acquire_sinv; auto.
  - by apply Release_sinv.
  - by apply Wait_sinv.
  - unfold Signal, isHeldByCurrentThread. destruct (lockOwner st l =? t); [|done].
    destruct (waitQueue st c) as [|w q] eqn:E; intros [= <-]; [done|by apply signal_sinv].
  - unfold Broadcast, isHeldByCurrentThread. destruct (lockOwner st l =? t); [|done].
    intros [= <-]. apply broadcast_sinv. by apply set_waitQueue_same.
Qed.

Lemma step_sinv st st' : sinv st → step st st' → sinv st'.
Proof.
  intros Hs Hstep. pose proof Hs as [Hc Hw Hl]. destruct Hstep.
  - by eapply exec_op_sinv.
  - by eapply continue_sinv.
  - by apply Yield_sinv.
  - by apply Finish_sinv.
  - by apply Fork_sinv.
  - constructor; [by apply V_core|intros; by apply V_wake|]. intros l. by apply V_lock_other.
  - by apply dispatch_sinv.
Qed.

Lemma reachable_sinv st st' : sinv st → reachable st st' → sinv st'.
Proof. intros Hs Hr. induction Hr; [done|]. eauto using step_sinv. Qed.
End thread_steps.

(** ** The system at boot: one running thread, every lock free *)
Definition Sys_init (t : Z) (initial : Z → Z) : Sys :=
  mkSys (Some t) [] {[t := RUNNING]}
    (λ s, Semaphore_new (match s with Usr u => initial u | OfLock _ => 1 end))
    (λ _, -1) (λ _, []) ∅ (λ _, []).

Lemma Sys_init_sinv t initial : 0 ≤ t → (∀ s, counted (Usr s) → 0 ≤ initial s) → sinv (Sys_init t initial).
Proof.
  intros Ht Hi. constructor.
  - assert (∀ u p, at_place (Sys_init t initial) u p ↔ u = t ∧ p = PCur) as Hat.
    { intros u [| |s|c]; simpl; rewrite ?elem_of_nil; naive_solver. }
    constructor; simpl; try by (intros; constructor).
    + intros u p q [-> ->]%Hat [_ ->]%Hat. done.
    + intros u. rewrite lookup_singleton_is_Some.
      split; [intros <-; exists PCur; by apply Hat|by intros [p [-> _]%Hat]].
    + intros u p [-> ->]%Hat. apply lookup_singleton_eq.
    + intros u. rewrite lookup_singleton_is_Some. by intros <-.
    + intros u p [-> ->]%Hat. done.
    + intros u. rewrite lookup_empty. by intros [? ?].
    + intros [s|l]; simpl; [apply Hi|lia].
  - intros s. unfold wake. by simpl.
  - intros l. left. done.
Qed.
End invariant.

(** The semaphores that are not negative at the start. *)
Definition starts_counted (initial : Z → Z) (s : semid) : Prop :=
  match s with Usr u => 0 ≤ initial u | OfLock _ => True end.
Lemma reachable_inv t0 initial st : 0 ≤ t0 → reachable (Sys_init t0 initial) st → sinv (starts_counted initial) st.
Proof. intros H0 Hr. by apply (reachable_sinv _ _ _ (Sys_init_sinv (starts_counted initial) t0 initial H0 (λ s H, H))). Qed.

(** C4: In every reachable state each live thread is in exactly one place (the
    processor, the ready list, one semaphore's queue or one condition's queue),
    occurs there once and has the matching status: no thread is lost,
    duplicated or woken twice, whatever the programs do. *)
Theorem threads_never_lost t0 initial st t :
  0 ≤ t0 → reachable (Sys_init t0 initial) st →
  is_Some (tstatus st !! t) →
  (∃ p, at_place st t p ∧ tstatus st !! t = Some (status_of p) ∧
     ∀ q, at_place st t q → q = p) ∧
  NoDup (readyList st) ∧ (∀ s, NoDup (queue (sems st s))) ∧ (∀ c, NoDup (waitQueue st c)).
Proof.
  intros H0 Hr Ht. pose proof (reachable_inv t0 initial st H0 Hr) as [Hc _ _].
  split; [|split_and!; apply Hc]. destruct (proj1 (c_live _ _ Hc t) Ht) as [p Hp].
  exists p. split; [done|]. split; [by apply (c_status _ _ Hc)|]. intros q Hq. by apply (c_uniq _ _ Hc t).
Qed.

(** C3: Mutual exclusion: in every reachable state at most one thread is between
    its [Acquire] and its [Release] (or [Wait]) of a lock, [lockOwner] names
    exactly that thread, and [Release] passes its assertion for that thread and
    for no other. *)
Theorem mutual_exclusion t0 initial st l :
  0 ≤ t0 → reachable (Sys_init t0 initial) st →
  (held st l = [] ∧ lockOwner st l = -1 ∨ held st l = [lockOwner st l] ∧ 0 ≤ lockOwner st l) ∧
  ∀ t, current st = Some t → (result_state (Release st t l) ≠ None ↔ t ∈ held st l).
Proof.
  intros H0 Hr. pose proof (reachable_inv t0 initial st H0 Hr) as [Hc _ Hl].
  destruct (Hl l) as [(_ & Ho & Hh)|(_ & t & Ht & Ho & Hh)]; rewrite Hh.
  - split; [by left|]. intros t Hcur. unfold Release, isHeldByCurrentThread. rewrite Ho.
    assert (0 ≤ t) by (apply (c_tid _ _ Hc), (c_live _ _ Hc); by exists PCur).
    destruct (Z.eqb_spec (-1) t); [lia|]. simpl. set_solver.
  - rewrite Ho. split; [by right|]. intros u _. unfold Release, isHeldByCurrentThread. rewrite Ho.
    destruct (Z.eqb_spec t u); simpl; set_solver.
Qed.

(** C21: No wakeup is lost.  Whatever the values the semaphores start with, in
    every reachable state: a semaphore that did not start with a negative value
    has none, and while some thread is still queued on a semaphore whose value
    is positive, at least as many woken threads as its value are current or
    ready and about to look at it again. *)
Theorem no_lost_wakeup t0 initial st s :
  0 ≤ t0 → reachable (Sys_init t0 initial) st →
  (starts_counted initial s → 0 ≤ value (sems st s)) ∧
  (queue (sems st s) ≠ [] → 0 < value (sems st s) →
   ∃ t, t ∈ cur_ready st ∧ resumes st !! t = Some (wait_resume s) ∧
     value (sems st s) ≤ Z.of_nat (woken st s)).
Proof.
  intros H0 Hr. pose proof (reachable_inv t0 initial st H0 Hr) as [Hc Hw _].
  split; [apply (c_pos _ _ Hc)|]. intros Hq Hv. pose proof (Hw s Hq) as Hle. unfold woken in *.
  destruct (filter (λ t, resumes st !! t = Some (wait_resume s)) (cur_ready st)) as [|t ts] eqn:E.
  { simpl in Hle. lia. }
  exists t. assert (t ∈ filter (λ t, resumes st !! t = Some (wait_resume s)) (cur_ready st)) as Ht
    by (rewrite E; left). apply list_elem_of_filter in Ht as [? ?]. done.
Qed.

(** [Broadcast] by the lock's owner moves every waiter of the condition, in
    the order they came, to the end of the ready list and touches nothing else
    but their status; [Signal] does so for the first waiter only; either by a thread that does
    not own the lock trips the assertion. *)
Theorem Broadcast_wakes_all st t c l :
  (lockOwner st l = t → ∃ st', Broadcast st t c l = Done st' ∧
     readyList st' = readyList st ++ waitQueue st c ∧ waitQueue st' c = [] ∧
     (∀ w, w ∈ waitQueue st c → tstatus st' !! w = Some READY) ∧
     (∀ w, w ∉ waitQueue st c → tstatus st' !! w = tstatus st !! w) ∧
     current st' = current st ∧ sems st' = sems st ∧ lockOwner st' = lockOwner st) ∧
  (lockOwner st l = t → ∃ st', Signal st t c l = Done st' ∧
     readyList st' = readyList st ++ take 1 (waitQueue st c) ∧
     waitQueue st' c = drop 1 (waitQueue st c) ∧ current st' = current st ∧ sems st' = sems st) ∧
  (lockOwner st l ≠ t → Broadcast st t c l = Aborts ∧ Signal st t c l = Aborts).
Proof.
  unfold Broadcast, Signal, isHeldByCurrentThread. split; [|split].
  - intros ->. rewrite Z.eqb_refl. eexists. split; [reflexivity|].
    assert (∀ q s, let s' := foldl ReadyToRun s q in
      readyList s' = readyList s ++ q ∧ waitQueue s' = waitQueue s ∧
      (∀ w, w ∈ q → tstatus s' !! w = Some READY) ∧
      (∀ w, w ∉ q → tstatus s' !! w = tstatus s !! w) ∧
      current s' = current s ∧ sems s' = sems s ∧ lockOwner s' = lockOwner s) as Hf.
    { induction q as [|w q IH]; intros s; simpl.
      - rewrite app_nil_r. split_and!; try done. set_solver.
      - destruct (IH (ReadyToRun s w)) as (E1 & E2 & E3 & E4 & E5 & E6 & E7).
        rewrite E1, E2, E5, E6, E7. simpl. rewrite <- app_assoc. split_and!; try done.
        + intros u Hu. destruct (decide (u ∈ q)) as [|Hn]; [by apply E3|].
          rewrite E4 by done. apply elem_of_cons in Hu as [->|?]; [|done].
          apply lookup_insert_eq.
        + intros u Hu%not_elem_of_cons. rewrite E4 by naive_solver. simpl.
          apply lookup_insert_ne. naive_solver. }
    destruct (Hf (waitQueue st c) (set_waitQueue st c [])) as (E1 & E2 & E3 & E4 & E5 & E6 & E7).
    split_and!; try done. rewrite E2. apply fn_lookup_insert.
  - intros ->. rewrite Z.eqb_refl. destruct (waitQueue st c) as [|w q] eqn:E; simpl.
    + exists st. rewrite app_nil_r, E. done.
    + eexists. split; [reflexivity|]. simpl. rewrite fn_lookup_insert. done.
  - intros Hne. by rewrite (proj2 (Z.eqb_neq _ _) Hne).
Qed.

(** A semaphore whose value is negative never blocks: [P] returns at once and
    makes it more negative.  ([semFORK] of userprog/userthread.cc starts at -1.) *)
Theorem P_negative_never_blocks st t s : value (sems st (Usr s)) < 0 →
  ∃ st', P st t s = Done st' ∧ value (sems st' (Usr s)) = value (sems st (Usr s)) - 1 ∧
    current st' = current st.
Proof.
  intros Hv. unfold P, P_at. destruct (Z.eqb_spec (value (sems st (Usr s))) 0); [lia|].
  eexists. split; [reflexivity|]. simpl. rewrite fn_lookup_insert. done.
Qed.

(** ** A run: thread 0 forks thread 1, takes lock 5 and yields; thread 1 blocks
    on the lock. *)
Definition after (r : result) (d : Sys) : Sys := default d (result_state r).
Definition demo_forked : Sys := Fork (Sys_init 0 (λ _, 0)) 1.
Definition demo_locked : Sys := after (exec_op demo_forked 0 (OpAcquire 5)) demo_forked.
Definition demo_yielded : Sys := Yield demo_locked 0.
Definition demo_run : Sys := after (exec_op demo_yielded 1 (OpAcquire 5)) demo_yielded.

Definition returns (r : result) : bool := match r with Aborts => false | _ => true end.
Lemma after_Some r d : returns r = true → result_state r = Some (after r d).
Proof. by destruct r. Qed.

Lemma demo_run_reachable : reachable (Sys_init 0 (λ _, 0)) demo_run.
Proof.
  apply (rtc_l _ _ demo_forked); [apply (step_fork _ 0 1); [reflexivity|reflexivity|lia|reflexivity]|].
  apply (rtc_l _ _ demo_locked);
    [apply (step_op _ 0 (OpAcquire 5)); [reflexivity|reflexivity|by apply after_Some]|].
  apply (rtc_l _ _ demo_yielded); [apply (step_yield _ 0); reflexivity|].
  apply (rtc_l _ _ demo_run);
    [apply (step_op _ 1 (OpAcquire 5)); [reflexivity|reflexivity|by apply after_Some]|].
  apply rtc_refl.
Qed.

Lemma threads_never_lost_witness : ∃ p, at_place demo_run 1 p ∧ p ≠ PCur.
Proof.
  destruct (threads_never_lost 0 (λ _, 0) demo_run 1) as [(p & Hp & Hs & _) _].
  - lia.
  - apply demo_run_reachable.
  - by eexists.
  - exists p. split; [exact Hp|]. intros ->. discriminate Hp.
Defined.

Lemma mutual_exclusion_witness : held demo_run 5 = [0] ∧
  (result_state (Release demo_run 0 5) ≠ None ↔ 0 ∈ held demo_run 5).
Proof.
  split; [reflexivity|].
  apply (mutual_exclusion 0 (λ _, 0) demo_run 5); [lia|apply demo_run_reachable|reflexivity].
Defined.

Lemma no_lost_wakeup_witness : queue (sems demo_run (OfLock 5)) = [1] ∧
  0 ≤ value (sems demo_run (OfLock 5)).
Proof.
  split; [reflexivity|].
  apply (no_lost_wakeup 0 (λ _, 0) demo_run (OfLock 5)); [lia|apply demo_run_reachable|exact I].
Defined.

Lemma P_negative_never_blocks_witness : ∃ st',
  P (set_sem (Sys_init 0 (λ _, 0)) (Usr 3) (Semaphore_new (-1))) 0 3 = Done st'.
Proof.
  destruct (P_negative_never_blocks (set_sem (Sys_init 0 (λ _, 0)) (Usr 3) (Semaphore_new (-1))) 0 3)
    as (st' & E & _); [by vm_compute|]. by exists st'.
Defined.
