(* ===== verification/Disk.v ===== *)
(** * machine/disk.cc, filesys/synchdisk.cc: the disk

    The disk is a UNIX file: its contents are a map from sector numbers to
    sectors.  [SynchDisk] turns the asynchronous requests of [Disk] into
    synchronous ones.  The file system is written against the [SectorStore]
    interface at the end of this file, which [SynchDisk] implements. *)
From S2P Require Import Prelude Memory.

Definition SectorsPerTrack : Z := 32.
Definition NumTracks : Z := 32.
Definition NumSectors : Z := SectorsPerTrack * NumTracks.
Definition RotationTime : Z := 500.
Definition SeekTime : Z := 500.

(** [totalTicks] is the clock when the request is made; [nReads] and [nWrites]
    are the counters of [Statistics]. *)
Record Disk := mkDisk {
  dcontents : gmap Z (list Z);   (* zero where absent: the file has holes *)
  active : bool;
  lastSector : Z;
  bufferInit : Z;
  clock : Z;
  nReads : Z;
  nWrites : Z
}.

(** A sector of the UNIX file. *)
Definition zero_sector : list Z := replicate (Z.to_nat SectorSize) 0.
Definition sector (d : Disk) (s : Z) : list Z := default zero_sector (dcontents d !! s).

(** ** Timing *)
Definition TimeToSeek (d : Disk) (newSector : Z) : Z * Z :=
  let newTrack := Z.quot newSector SectorsPerTrack in
  let oldTrack := Z.quot (lastSector d) SectorsPerTrack in
  let seek := Z.abs (newTrack - oldTrack) * SeekTime in
  let over := Z.rem (clock d + seek) RotationTime in
  (seek, if 0 <? over then RotationTime - over else 0).

Definition ModuloDiff (to from : Z) : Z :=
  Z.rem ((Z.rem to SectorsPerTrack - Z.rem from SectorsPerTrack) + SectorsPerTrack) SectorsPerTrack.

Definition ComputeLatency (d : Disk) (newSector : Z) (writing : bool) : Z :=
  let '(seek, rotation) := TimeToSeek d newSector in
  let timeAfter := i32 (clock d + seek + rotation) in
  if negb writing && (seek =? 0) &&
     (ModuloDiff newSector (Z.quot (bufferInit d) RotationTime) <?
        Z.quot (i32 (timeAfter - bufferInit d)) RotationTime)
  then RotationTime
  else seek + (rotation + ModuloDiff newSector (Z.quot timeAfter RotationTime) * RotationTime)
       + RotationTime.

Definition UpdateLast (d : Disk) (newSector : Z) : Disk :=
  let '(seek, rotate) := TimeToSeek d newSector in
  mkDisk (dcontents d) (active d) newSector
    (if negb (seek =? 0) then i32 (clock d + seek + rotate) else bufferInit d)
    (clock d) (nReads d) (nWrites d).

Definition set_disk (d : Disk) c a r w :=
  mkDisk c a (lastSector d) (bufferInit d) (clock d) r w.

(** ** Requests: the data and the delay after which the disk interrupts *)
Definition ReadRequest (d : Disk) (sectorNumber : Z) : outcome (list Z * Z * Disk) :=
  let ticks := ComputeLatency d sectorNumber false in
  _ ← ASSERT (negb (active d));
  _ ← ASSERT ((0 <=? sectorNumber) && (sectorNumber <? NumSectors));
  let data := sector d sectorNumber in
  let d1 := UpdateLast (set_disk d (dcontents d) true (nReads d) (nWrites d)) sectorNumber in
  _ ← ASSERT (0 <? ticks);   (* Interrupt::Schedule *)
  Ok (data, ticks, set_disk d1 (dcontents d1) true (nReads d1 + 1) (nWrites d1)).

Definition WriteRequest (d : Disk) (sectorNumber : Z) (data : list Z) : outcome (Z * Disk) :=
  let ticks := ComputeLatency d sectorNumber true in
  _ ← ASSERT (negb (active d));
  _ ← ASSERT ((0 <=? sectorNumber) && (sectorNumber <? NumSectors));
  let d0 := set_disk d (<[sectorNumber := take (Z.to_nat SectorSize) data]> (dcontents d)) true
              (nReads d) (nWrites d) in
  let d1 := UpdateLast d0 sectorNumber in
  _ ← ASSERT (0 <? ticks);
  Ok (ticks, set_disk d1 (dcontents d1) true (nReads d1) (nWrites d1 + 1)).

Definition HandleInterrupt (d : Disk) : Disk :=
  set_disk d (dcontents d) false (nReads d) (nWrites d).

(** ** SynchDisk *)
Record SynchDisk := mkSynchDisk { disk : Disk; sd_lock : mutex; sd_sem : Z }.

(** [SynchDisk::RequestDone], the handler the disk calls. *)
Definition RequestDone (s : SynchDisk) : SynchDisk :=
  mkSynchDisk (HandleInterrupt (disk s)) (sd_lock s) (sd_sem s + 1).

(** [semaphore->P()] after a request: the caller sleeps, the clock advances by
    the request's delay, the disk interrupts and wakes it. *)
Definition await (s : SynchDisk) (ticks : Z) : outcome SynchDisk :=
  let s1 :=
    if sd_sem s =? 0 then
      let d := disk s in
      RequestDone (mkSynchDisk (mkDisk (dcontents d) (active d) (lastSector d) (bufferInit d)
                     (clock d + ticks) (nReads d) (nWrites d)) (sd_lock s) (sd_sem s))
    else s in
  Ok (mkSynchDisk (disk s1) (sd_lock s1) (sd_sem s1 - 1)).

Section synchdisk.
Variable tid : Z.   (* the calling thread *)

Definition ReadSector (s : SynchDisk) (sectorNumber : Z) : outcome (list Z * SynchDisk) :=
  l ← mutex_acquire (sd_lock s) tid;
  '(data, ticks, d) ← ReadRequest (disk s) sectorNumber;
  s2 ← await (mkSynchDisk d l (sd_sem s)) ticks;
  l' ← mutex_release (sd_lock s2) tid;
  Ok (data, mkSynchDisk (disk s2) l' (sd_sem s2)).

Definition WriteSector (s : SynchDisk) (sectorNumber : Z) (data : list Z) : outcome SynchDisk :=
  l ← mutex_acquire (sd_lock s) tid;
  '(ticks, d) ← WriteRequest (disk s) sectorNumber data;
  s2 ← await (mkSynchDisk d l (sd_sem s)) ticks;
  l' ← mutex_release (sd_lock s2) tid;
  Ok (mkSynchDisk (disk s2) l' (sd_sem s2)).
End synchdisk.

(** ** Latency *)
Lemma ModuloDiff_range to from : 0 ≤ to → 0 ≤ ModuloDiff to from < SectorsPerTrack.
Proof.
  intros Ht. unfold ModuloDiff, SectorsPerTrack.
  pose proof (Z.rem_bound_pos to 32 Ht eq_refl) as H1.
  pose proof (Z.rem_bound_abs from 32 ltac:(done)) as H2.
  apply Z.rem_bound_pos; lia.
Qed.

Lemma TimeToSeek_range d s : 0 ≤ s < NumSectors → 0 ≤ lastSector d < NumSectors → 0 ≤ clock d →
  let '(seek, rotation) := TimeToSeek d s in 0 ≤ seek ≤ 15500 ∧ 0 ≤ rotation < RotationTime.
Proof.
  intros Hs Hl Hc. unfold TimeToSeek, NumSectors, NumTracks, SectorsPerTrack, SeekTime, RotationTime in *.
  rewrite !Z.quot_div_nonneg by lia.
  assert (0 ≤ s / 32 < 32) by (split; [apply Z.div_pos|apply Z.div_lt_upper_bound]; lia).
  assert (0 ≤ lastSector d / 32 < 32) by (split; [apply Z.div_pos|apply Z.div_lt_upper_bound]; lia).
  pose proof (Z.rem_bound_pos (clock d + Z.abs (s / 32 - lastSector d / 32) * 500) 500).
  destruct (Z.ltb_spec 0 (Z.rem (clock d + Z.abs (s / 32 - lastSector d / 32) * 500) 500)); lia.
Qed.

(** The disk between two requests. *)
Definition disk_ok (d : Disk) : Prop :=
  active d = false ∧ 0 ≤ lastSector d < NumSectors ∧ 0 ≤ clock d ∧
  ∀ s, length (sector d s) = Z.to_nat SectorSize ∧ Forall is_u8 (sector d s).

Lemma latency_range d s w : 0 ≤ s < NumSectors → 0 ≤ lastSector d < NumSectors → 0 ≤ clock d →
  RotationTime ≤ ComputeLatency d s w ≤ 32000.
Proof.
  intros Hs Hl Hc. pose proof (TimeToSeek_range d s Hs Hl Hc) as H. unfold ComputeLatency.
  destruct (TimeToSeek d s) as [seek rotation]. destruct H as [Hk Hr].
  pose proof (ModuloDiff_range s (Z.quot (i32 (clock d + seek + rotation)) RotationTime) ltac:(lia)) as Hm.
  unfold RotationTime, SectorsPerTrack in *.
  destruct (negb w && (seek =? 0) && _); lia.
Qed.

Definition sector_data (l : list Z) : Prop :=
  length l = Z.to_nat SectorSize ∧ Forall is_u8 l.

(** Between two calls of the synchronous interface nothing is in progress. *)
Definition sd_ok (s : SynchDisk) : Prop := disk_ok (disk s) ∧ sd_lock s = None ∧ sd_sem s = 0.

Section synchdisk_laws.
Variable tid : Z.
Implicit Types s : SynchDisk.

Lemma UpdateLast_fields d n : dcontents (UpdateLast d n) = dcontents d ∧
  active (UpdateLast d n) = active d ∧ lastSector (UpdateLast d n) = n ∧
  clock (UpdateLast d n) = clock d.
Proof. unfold UpdateLast. by destruct (TimeToSeek d n). Qed.

Lemma ReadSector_spec s n : sd_ok s → 0 ≤ n < NumSectors →
  ∃ s', ReadSector tid s n = Ok (sector (disk s) n, s') ∧ sd_ok s' ∧
    dcontents (disk s') = dcontents (disk s).
Proof.
  intros [(Ha & Hl & Hc & Hd) [Hlk Hsem]] Hn. unfold ReadSector, ReadRequest. rewrite Hlk, Ha.
  cbn [mutex_acquire mbind outcome_bind negb ASSERT].
  pose proof (latency_range (disk s) n false Hn Hl Hc) as Hlat.
  rewrite (proj2 (Z.leb_le 0 n)), (proj2 (Z.ltb_lt n NumSectors)) by lia.
  cbn [andb ASSERT mbind outcome_bind].
  rewrite (proj2 (Z.ltb_lt 0 (ComputeLatency (disk s) n false))) by (unfold RotationTime in *; lia).
  cbn [ASSERT mbind outcome_bind]. unfold await. cbn [sd_sem]. rewrite Hsem. cbn [Z.eqb].
  cbn [sd_sem sd_lock disk RequestDone mbind outcome_bind]. unfold mutex_release.
  rewrite Z.eqb_refl. cbn [ASSERT mbind outcome_bind].
  set (d0 := set_disk (disk s) (dcontents (disk s)) true (nReads (disk s)) (nWrites (disk s))).
  destruct (UpdateLast_fields d0 n) as (E1 & E2 & E3 & E4).
  set (d1 := UpdateLast d0 n) in *. clearbody d1. subst d0.
  eexists. split; [reflexivity|]. split; [|exact E1].
  unfold sd_ok, disk_ok, HandleInterrupt, set_disk, sector. cbn [disk sd_lock sd_sem active lastSector clock dcontents set_disk]. split; [|done].
  split; [done|]. rewrite E3, E4, E1. cbn [disk sd_lock sd_sem active lastSector clock dcontents set_disk]. split; [done|]. split; [unfold RotationTime in *; lia|exact Hd].
Qed.

Lemma WriteSector_spec s n data : sd_ok s → 0 ≤ n < NumSectors → sector_data data →
  ∃ s', WriteSector tid s n data = Ok s' ∧ sd_ok s' ∧
    dcontents (disk s') = <[n := data]> (dcontents (disk s)).
Proof.
  intros [(Ha & Hl & Hc & Hd) [Hlk Hsem]] Hn [Hlen Hb]. unfold WriteSector, WriteRequest. rewrite Hlk, Ha.
  cbn [mutex_acquire mbind outcome_bind negb ASSERT].
  pose proof (latency_range (disk s) n true Hn Hl Hc) as Hlat.
  rewrite (proj2 (Z.leb_le 0 n)), (proj2 (Z.ltb_lt n NumSectors)) by lia.
  cbn [andb ASSERT mbind outcome_bind].
  rewrite (proj2 (Z.ltb_lt 0 (ComputeLatency (disk s) n true))) by (unfold RotationTime in *; lia).
  cbn [ASSERT mbind outcome_bind]. unfold await. cbn [sd_sem]. rewrite Hsem. cbn [Z.eqb].
  cbn [sd_sem sd_lock disk RequestDone mbind outcome_bind]. unfold mutex_release.
  rewrite Z.eqb_refl. cbn [ASSERT mbind outcome_bind].
  rewrite (take_ge data) by lia.
  set (d0 := set_disk (disk s) (<[n:=data]> (dcontents (disk s))) true (nReads (disk s)) (nWrites (disk s))).
  destruct (UpdateLast_fields d0 n) as (E1 & E2 & E3 & E4).
  set (d1 := UpdateLast d0 n) in *. clearbody d1. subst d0.
  eexists. split; [reflexivity|]. split; [|exact E1].
  unfold sd_ok, disk_ok, HandleInterrupt, set_disk, sector in *. cbn [disk sd_lock sd_sem active lastSector clock dcontents set_disk]. split; [|done].
  split; [done|]. rewrite E3, E4, E1. cbn [disk sd_lock sd_sem active lastSector clock dcontents set_disk]. split; [done|]. split; [unfold RotationTime in *; lia|].
  intros x. destruct (decide (x = n)) as [->|]; [by rewrite lookup_insert_eq|].
  rewrite lookup_insert_ne by done. apply Hd.
Qed.

Lemma sector_out_of_range s n data : sd_ok s → ¬ (0 ≤ n < NumSectors) →
  ReadSector tid s n = AssertFail ∧ WriteSector tid s n data = AssertFail.
Proof.
  intros [(Ha & _) [Hlk _]] Hn. unfold ReadSector, WriteSector, ReadRequest, WriteRequest.
  rewrite Hlk, Ha. cbn [mutex_acquire mbind outcome_bind negb ASSERT].
  assert ((0 <=? n) && (n <? NumSectors) = false) as ->; [|done].
  apply andb_false_iff. rewrite Z.leb_gt, Z.ltb_ge. lia.
Qed.
End synchdisk_laws.

(** ** What the file system relies on *)
Class SectorStore (D : Type) := {
  sread : D → Z → outcome (list Z * D);
  swrite : D → Z → list Z → outcome D;
  content : D → Z → list Z;
  store_ok : D → Prop;
  content_law d n : store_ok d → sector_data (content d n);
  sread_law d n : store_ok d → 0 ≤ n < NumSectors →
    ∃ d', sread d n = Ok (content d n, d') ∧ store_ok d' ∧ ∀ m, content d' m = content d m;
  swrite_law d n data : store_ok d → 0 ≤ n < NumSectors → sector_data data →
    ∃ d', swrite d n data = Ok d' ∧ store_ok d' ∧
      ∀ m, content d' m = if decide (m = n) then data else content d m;
  range_law d n data : store_ok d → ¬ (0 ≤ n < NumSectors) →
    sread d n = AssertFail ∧ swrite d n data = AssertFail
}.

(** [synchDisk] as the running thread 0 sees it. *)
#[global, program] Instance SynchDisk_SectorStore : SectorStore SynchDisk := {|
  sread := ReadSector 0;
  swrite := WriteSector 0;
  content d n := sector (disk d) n;
  store_ok := sd_ok
|}.
Next Obligation. intros d n [(_ & _ & _ & Hd) _]. apply Hd. Qed.
Next Obligation.
  intros d n Hd Hn. destruct (ReadSector_spec 0 d n Hd Hn) as (d' & -> & Hok & E).
  exists d'. split; [done|]. split; [done|]. intros m. simpl. unfold sector. by rewrite E.
Qed.
Next Obligation.
  intros d n data Hd Hn Hs. destruct (WriteSector_spec 0 d n data Hd Hn Hs) as (d' & -> & Hok & E).
  exists d'. split; [done|]. split; [done|]. intros m. simpl. unfold sector. rewrite E.
  case_decide as Em; [subst; by rewrite lookup_insert_eq|by rewrite lookup_insert_ne].
Qed.
Next Obligation. intros d n data Hd Hn. by apply sector_out_of_range. Qed.

(** C36: A synchronous write followed by a read of the same sector returns the
    bytes written, reads of other sectors are unaffected, both calls return
    with the disk idle and its lock free, and every request is given a positive
    delay of at most 32000 ticks, so scheduling its interrupt never trips an
    assertion. *)
Theorem SynchDisk_write_read tid s n m data :
  sd_ok s → 0 ≤ n < NumSectors → 0 ≤ m < NumSectors → sector_data data →
  ∃ s1 s2, WriteSector tid s n data = Ok s1 ∧
    ReadSector tid s1 m = Ok (if decide (m = n) then data else sector (disk s) m, s2) ∧
    sd_ok s2 ∧ (∀ w, 0 < ComputeLatency (disk s) n w ≤ 32000).
Proof.
  intros Hs Hn Hm Hd. destruct (WriteSector_spec tid s n data Hs Hn Hd) as (s1 & E1 & H1 & C1).
  destruct (ReadSector_spec tid s1 m H1 Hm) as (s2 & E2 & H2 & _).
  exists s1, s2. split; [done|]. split.
  - rewrite E2. unfold sector. rewrite C1.
    case_decide; [subst; by rewrite lookup_insert_eq|by rewrite lookup_insert_ne].
  - split; [done|]. intros w. destruct Hs as [(_ & Hl & Hc & _) _].
    pose proof (latency_range (disk s) n w Hn Hl Hc). unfold RotationTime in *. lia.
Qed.

(** A fresh disk at time 0. *)
Definition demo_disk : SynchDisk := mkSynchDisk (mkDisk ∅ false 0 0 0 0 0) None 0.
Lemma demo_disk_ok : sd_ok demo_disk.
Proof.
  split; [|done]. split; [done|]. split; [by vm_compute|]. split; [done|].
  intros s. unfold sector, demo_disk. cbn [disk dcontents]. rewrite lookup_empty.
  split; [done|]. apply Forall_replicate. by vm_compute.
Qed.
Lemma demo_store_ok : store_ok demo_disk.
Proof. exact demo_disk_ok. Qed.
Lemma SynchDisk_write_read_witness : ∃ s1 s2,
  WriteSector 0 demo_disk 40 (replicate 128 7) = Ok s1 ∧
  ReadSector 0 s1 40 = Ok (replicate 128 7, s2).
Proof.
  destruct (SynchDisk_write_read 0 demo_disk 40 40 (replicate 128 7) demo_disk_ok)
    as (s1 & s2 & E1 & E2 & _).
  - by vm_compute.
  - by vm_compute.
  - split; [reflexivity|]. apply Forall_replicate. by vm_compute.
  - exists s1, s2. split; [exact E1|exact E2].
Defined.
