(* ===== verification/FileHdr.v ===== *)
(** * filesys/filehdr.cc, filesys/openfile.cc: files on disk

    A file header is one sector: type, length, number of sectors, 28 data
    sectors and one sector that holds the header of the "undirected block", a
    file whose contents are the numbers of the remaining data sectors.
    [FileHeader::ByteToSector] reads that second file through [OpenFile], so
    headers and open files are modelled together, over the [SectorStore]
    interface.  The recursion between [ByteToSector] and [ReadAt] takes fuel;
    two levels are enough for every well-formed file. *)
From S2P Require Import Prelude BitMap Memory Disk.

(** [(SectorSize - 3 * sizeof(int)) / sizeof(int)]. *)
Definition NumDirect : Z := 29.
Definition MaxFileSize : Z := NumDirect * SectorSize.

(** [enum fileType]; the field of a header read from disk may hold any int. *)
Definition DATA_FILE : Z := 0.
Definition DIRECTORY : Z := 1.
Definition ROOT : Z := 2.

Record FileHeader := mkHeader {
  ftype : Z;
  numBytes : Z;
  numSectors : Z;
  dataSectors : list Z
}.

(** ** The header as the bytes of a sector *)
Definition encode_ints (l : list Z) : list Z := concat (le32 <$> l).
Definition encode (h : FileHeader) : list Z :=
  encode_ints (ftype h :: numBytes h :: numSectors h :: dataSectors h).
Fixpoint decode_ints (n : nat) (l : list Z) (off : nat) : outcome (list Z) :=
  match n with
  | O => Ok []
  | S n' => x ← int_at l off; xs ← decode_ints n' l (off + 4)%nat; Ok (x :: xs)
  end.
Definition decode (l : list Z) : outcome FileHeader :=
  t ← int_at l 0; b ← int_at l 4; s ← int_at l 8;
  ds ← decode_ints (Z.to_nat NumDirect) l 12;
  Ok (mkHeader t b s ds).

Definition FileLength (h : FileHeader) : Z := numBytes h.
Definition IsDataFile (h : FileHeader) : bool := ftype h =? DATA_FILE.
Definition IsDirectory (h : FileHeader) : bool := (ftype h =? DIRECTORY) || (ftype h =? ROOT).
Definition IsRoot (h : FileHeader) : bool := ftype h =? ROOT.

(** ** Byte buffers *)

(** [bcopy(&buf[start], into, n)] into a large enough array: the bytes copied. *)
Definition slice (buf : list Z) (start n : Z) : outcome (list Z) :=
  if (0 <=? start) && (start + n <=? Z.of_nat (length buf))
  then Ok (take (Z.to_nat n) (drop (Z.to_nat start) buf)) else Fault.
(** [bcopy(data, &buf[start], length data)]. *)
Definition overlay (buf : list Z) (start : Z) (data : list Z) : outcome (list Z) :=
  if (0 <=? start) && (start + Z.of_nat (length data) <=? Z.of_nat (length buf))
  then Ok (take (Z.to_nat start) buf ++ data ++
           drop (Z.to_nat start + length data) buf) else Fault.

Section files.
Context {D : Type} `{SectorStore D}.
(** What [new] leaves in a header's array and in a buffer. *)
Variable junk : list Z.
Variable fill : nat → Z.

Definition FetchFrom (d : D) (sec : Z) : outcome (FileHeader * D) :=
  '(l, d') ← sread d sec; h ← decode l; Ok (h, d').
Definition WriteBack (d : D) (h : FileHeader) (sec : Z) : outcome D :=
  swrite d sec (encode h).

(** ** [OpenFile] over a header, given [ByteToSector] *)
Section openfile.
Variable b2s : FileHeader → Z → D → outcome (Z * D).

(** Read sectors [i .. i + n - 1] of the file into a buffer. *)
Fixpoint read_sectors (n : nat) (h : FileHeader) (i : Z) (d : D) : outcome (list Z * D) :=
  match n with
  | O => Ok ([], d)
  | S n' =>
      '(sec, d1) ← b2s h (i * SectorSize) d;
      '(l, d2) ← sread d1 sec;
      '(rest, d3) ← read_sectors n' h (i + 1) d2;
      Ok (l ++ rest, d3)
  end.
Fixpoint write_sectors (n : nat) (h : FileHeader) (i : Z) (buf : list Z) (d : D) : outcome D :=
  match n with
  | O => Ok d
  | S n' =>
      '(sec, d1) ← b2s h (i * SectorSize) d;
      d2 ← swrite d1 sec (take (Z.to_nat SectorSize) buf);
      write_sectors n' h (i + 1) (drop (Z.to_nat SectorSize) buf) d2
  end.

(** The bytes [ReadAt] copies out; their number is its result.  The sum
    [position + numBytes], here and in [WriteAt], is that of the integers: the
    code computes it with [int]s, whose overflow (at 2^31, while a file has
    fewer than 2^17 bytes) is undefined. *)
Definition ReadAt_with (h : FileHeader) (numBytes position : Z) (d : D)
    : outcome (list Z * D) :=
  let fileLength := FileLength h in
  if (numBytes <=? 0) || (fileLength <=? position) then Ok ([], d)
  else
    let n := if fileLength <? position + numBytes then fileLength - position else numBytes in
    let firstSector := divRoundDown position SectorSize in
    let lastSector := divRoundDown (position + n - 1) SectorSize in
    '(buf, d1) ← read_sectors (Z.to_nat (1 + lastSector - firstSector)) h firstSector d;
    bytes ← slice buf (position - firstSector * SectorSize) n;
    Ok (bytes, d1).

(** [WriteAt] first reads the sectors it will only modify in part. *)
Definition prefetch (h : FileHeader) (buf0 : list Z) (position n firstSector lastSector : Z)
    (d : D) : outcome (list Z * D) :=
  let firstAligned := position =? firstSector * SectorSize in
  let lastAligned := position + n =? (lastSector + 1) * SectorSize in
  '(buf1, d1) ←
    (if negb firstAligned then
       '(l, d') ← ReadAt_with h SectorSize (firstSector * SectorSize) d;
       b ← overlay buf0 0 l; Ok (b, d')
     else Ok (buf0, d));
  if negb lastAligned && (negb (firstSector =? lastSector) || firstAligned) then
    '(l, d') ← ReadAt_with h SectorSize (lastSector * SectorSize) d1;
    b ← overlay buf1 ((lastSector - firstSector) * SectorSize) l; Ok (b, d')
  else Ok (buf1, d1).

Definition WriteAt_with (h : FileHeader) (from : list Z) (position : Z) (d : D)
    : outcome (Z * D) :=
  let fileLength := FileLength h in
  let len := Z.of_nat (length from) in
  if (len <=? 0) || (fileLength <=? position) then Ok (0, d)
  else
    let n := if fileLength <? position + len then fileLength - position else len in
    let firstSector := divRoundDown position SectorSize in
    let lastSector := divRoundDown (position + n - 1) SectorSize in
    let count := 1 + lastSector - firstSector in
    let buf0 := fill <$> seq 0 (Z.to_nat (count * SectorSize)) in
    '(buf1, d1) ← prefetch h buf0 position n firstSector lastSector d;
    buf ← overlay buf1 (position - firstSector * SectorSize) (take (Z.to_nat n) from);
    d2 ← write_sectors (Z.to_nat count) h firstSector buf d1;
    Ok (n, d2).
End openfile.

(** ** [FileHeader::ByteToSector] *)
Fixpoint ByteToSector (fuel : nat) (h : FileHeader) (offset : Z) (d : D) : outcome (Z * D) :=
  match fuel with
  | O => Blocked
  | S fuel' =>
      let entry := u32 (Z.quot offset SectorSize) in
      if entry <? NumDirect - 1 then
        sec ← arr_get (dataSectors h) entry; Ok (sec, d)
      else
        ind ← arr_get (dataSectors h) (NumDirect - 1);
        '(ih, d1) ← FetchFrom d ind;
        let newOffset := u32 (offset - SectorSize * (NumDirect - 1)) in
        '(l, d2) ← ReadAt_with (ByteToSector fuel') ih 4 (i32 (4 * (newOffset / SectorSize))) d1;
        _ ← ASSERT (Z.of_nat (length l) =? 4);
        sec ← int_at l 0;
        Ok (sec, d2)
  end.

Variable fuel : nat.
Definition ReadAt := ReadAt_with (ByteToSector fuel).
Definition WriteAt := WriteAt_with (ByteToSector fuel).

(** An [OpenFile] object: the header it fetched and its position. *)
Record OpenFile := mkOpenFile { hdr : FileHeader; seekPosition : Z }.
Definition OpenFile_new (d : D) (sec : Z) : outcome (OpenFile * D) :=
  '(h, d') ← FetchFrom d sec; Ok (mkOpenFile h 0, d').
Definition Seek (f : OpenFile) (position : Z) : OpenFile := mkOpenFile (hdr f) position.
Definition Length (f : OpenFile) : Z := FileLength (hdr f).
Definition Read (f : OpenFile) (n : Z) (d : D) : outcome (list Z * OpenFile * D) :=
  '(l, d') ← ReadAt (hdr f) n (seekPosition f) d;
  Ok (l, Seek f (seekPosition f + Z.of_nat (length l)), d').
Definition Write (f : OpenFile) (from : list Z) (d : D) : outcome (Z * OpenFile * D) :=
  '(n, d') ← WriteAt (hdr f) from (seekPosition f) d;
  Ok (n, Seek f (seekPosition f + n), d').

(** ** Growing a file *)

(** [for (i = ...; ...) if ((dataSectors[i] = freeMap->Find()) == -1) return FALSE]. *)
Fixpoint find_sectors (n : nat) (i : Z) (ds : list Z) (fm : BitMap)
    : outcome (bool * list Z * BitMap) :=
  match n with
  | O => Ok (true, ds, fm)
  | S n' =>
      '(sec, fm') ← Find fm;
      ds' ← arr_set ds i sec;
      if sec =? -1 then Ok (false, ds', fm') else find_sectors n' (i + 1) ds' fm'
  end.

Definition ExtendUndirectedBlock (h : FileHeader) (fm : BitMap) (newSectors : Z)
    : outcome (bool * FileHeader * BitMap) :=
  let total := divRoundUp (numBytes h + newSectors * 4) SectorSize in
  if NumDirect <? total then Ok (false, h, fm)
  else
    '(ok, ds, fm') ← find_sectors (Z.to_nat (total - numSectors h)) (numSectors h)
                       (dataSectors h) fm;
    if (ok : bool) then
      Ok (true, mkHeader (ftype h) (numBytes h + newSectors * 4) total ds, fm')
    else Ok (false, mkHeader (ftype h) (numBytes h) (numSectors h) ds, fm').

(** The loop that writes the numbers of [n] new sectors into the undirected
    block. *)
Fixpoint write_numbers (n : nat) (f : OpenFile) (fm : BitMap) (d : D)
    : outcome (bool * BitMap * D) :=
  match n with
  | O => Ok (true, fm, d)
  | S n' =>
      '(sec, fm') ← Find fm;
      if sec =? -1 then Ok (false, fm', d)
      else '(_, f', d') ← Write f (le32 sec) d; write_numbers n' f' fm' d'
  end.

(** Extending the undirected block [uh] at sector [ind] by [n] numbers. *)
Definition extend_undirected (uh : FileHeader) (ind : Z) (fm : BitMap) (n : Z) (d : D)
    : outcome (bool * BitMap * D) :=
  '(ok, uh', fm1) ← ExtendUndirectedBlock uh fm n;
  if negb ok then Ok (false, fm1, d)
  else
    d1 ← WriteBack d uh' ind;
    '(f, d2) ← OpenFile_new d1 ind;
    write_numbers (Z.to_nat n) (Seek f (Length f - n * 4)) fm1 d2.

(** The new state of the header, the free map and the disk, with the result. *)
Definition Extend (h : FileHeader) (fm : BitMap) (newSize : Z) (d : D)
    : outcome (bool * FileHeader * BitMap * D) :=
  let undirectedIndex := NumDirect - 1 in
  let total := divRoundUp (i32 (numBytes h + newSize)) SectorSize in
  let newNumSectors := total - numSectors h in
  let nAlloc := Z.to_nat (Z.min total undirectedIndex - numSectors h) in
  '(ok, ds, fm1) ← find_sectors nAlloc (numSectors h) (dataSectors h) fm;
  let h1 := mkHeader (ftype h) (numBytes h) (numSectors h) ds in
  if negb ok then Ok (false, h1, fm1, d)
  else if numSectors h + Z.of_nat nAlloc <? total then
    '(proceed, uh, ds2, fm2, d2, newUndirected) ←
      (if undirectedIndex <? numSectors h then
         ind ← arr_get ds undirectedIndex;
         '(uh, d') ← FetchFrom d ind;
         Ok (true, uh, ds, fm1, d', newNumSectors)
       else
         '(ind, fm') ← Find fm1;
         ds' ← arr_set ds undirectedIndex ind;
         Ok (negb (ind =? -1), mkHeader DATA_FILE 0 0 junk, ds', fm', d,
             newNumSectors - Z.of_nat nAlloc));
    let h2 := mkHeader (ftype h) (numBytes h) (numSectors h) ds2 in
    if negb proceed then Ok (false, h2, fm2, d2)
    else
      ind ← arr_get ds2 undirectedIndex;
      '(ok2, fm3, d3) ← extend_undirected uh ind fm2 newUndirected d2;
      if negb ok2 then Ok (false, h2, fm3, d3)
      else Ok (true, mkHeader (ftype h) (i32 (numBytes h + newSize)) total ds2, fm3, d3)
  else Ok (true, mkHeader (ftype h) (i32 (numBytes h + newSize)) total ds, fm1, d).

(** [FileHeader::Allocate] on a fresh header. *)
Definition Allocate (fm : BitMap) (fileSize which : Z) (d : D)
    : outcome (bool * FileHeader * BitMap * D) :=
  Extend (mkHeader which 0 0 junk) fm fileSize d.

(** ** Giving the sectors back *)
Definition clear_marked (fm : BitMap) (sec : Z) : outcome BitMap :=
  b ← Test fm sec; _ ← ASSERT b; Clear fm sec.
Fixpoint clear_sectors (n : nat) (i : Z) (ds : list Z) (fm : BitMap) : outcome BitMap :=
  match n with
  | O => Ok fm
  | S n' => sec ← arr_get ds i; fm' ← clear_marked fm sec; clear_sectors n' (i + 1) ds fm'
  end.
Definition DeallocateUndirectedBlock (h : FileHeader) (fm : BitMap) : outcome BitMap :=
  clear_sectors (Z.to_nat (numSectors h)) 0 (dataSectors h) fm.

(** Reading four bytes into [sector]: bytes that are not read keep [old]. *)
Definition read_int (f : OpenFile) (old : Z) (d : D) : outcome (Z * OpenFile * D) :=
  '(l, f', d') ← Read f 4 d;
  v ← int_at (l ++ drop (length l) (le32 old)) 0;
  Ok (v, f', d').
Fixpoint clear_numbers (n : nat) (f : OpenFile) (old : Z) (fm : BitMap) (d : D)
    : outcome (BitMap * D) :=
  match n with
  | O => Ok (fm, d)
  | S n' =>
      '(sec, f', d') ← read_int f old d;
      fm' ← clear_marked fm sec; clear_numbers n' f' sec fm' d'
  end.

Definition Deallocate (h : FileHeader) (fm : BitMap) (d : D) : outcome (BitMap * D) :=
  fm1 ← clear_sectors (Z.to_nat (Z.min (NumDirect - 1) (numSectors h))) 0 (dataSectors h) fm;
  if NumDirect - 1 <=? numSectors h then
    ind ← arr_get (dataSectors h) (NumDirect - 1);
    '(uh, d1) ← FetchFrom d ind;
    '(f, d2) ← OpenFile_new d1 ind;
    '(fm2, d3) ← clear_numbers (Z.to_nat (numSectors h - (NumDirect - 1))) f (fill 0%nat) fm1 d2;
    fm3 ← clear_marked fm2 ind;
    fm4 ← DeallocateUndirectedBlock uh fm3;
    Ok (fm4, d3)
  else Ok (fm1, d).
End files.

(** ** Headers and sectors *)
Definition hdr_wf (h : FileHeader) : Prop :=
  is_i32 (ftype h) ∧ is_i32 (numBytes h) ∧ is_i32 (numSectors h) ∧
  length (dataSectors h) = Z.to_nat NumDirect ∧ Forall is_i32 (dataSectors h).

Section codec.
Lemma encode_ints_length l : length (encode_ints l) = (4 * length l)%nat.
Proof.
  induction l as [|x l IH]; [done|].
  change (encode_ints (x :: l)) with (le32 x ++ encode_ints l). rewrite length_app, IH.
  simpl length. lia.
Qed.
Lemma encode_ints_bytes l : Forall is_u8 (encode_ints l).
Proof.
  unfold encode_ints. induction l as [|x l IH]; cbn [concat fmap list_fmap]; [constructor|].
  apply Forall_app. split; [apply le32_bytes|done].
Qed.
Lemma encode_ints_app l k : encode_ints (l ++ k) = encode_ints l ++ encode_ints k.
Proof. unfold encode_ints. by rewrite fmap_app, concat_app. Qed.

Lemma int_at_encode l k x r : length l = k → is_i32 x →
  int_at (encode_ints (l ++ x :: r)) (4 * k) = Ok x.
Proof.
  intros <- Hx. rewrite encode_ints_app. change (encode_ints (x :: r)) with (le32 x ++ encode_ints r).
  apply int_at_le32; [apply encode_ints_length|done].
Qed.

Lemma decode_ints_encode l k r : Forall is_i32 r →
  decode_ints (length r) (encode_ints (l ++ r)) (4 * (length l + k) - 4 * k) = Ok r.
Proof.
  revert l. induction r as [|x r IH]; intros l Hr; [done|]. apply Forall_cons in Hr as [Hx Hr].
  cbn [decode_ints length]. replace (4 * (length l + k) - 4 * k)%nat with (4 * length l)%nat by lia.
  rewrite int_at_encode by done. cbn [mbind outcome_bind].
  assert (4 * length l + 4 = 4 * (length (l ++ [x]) + k) - 4 * k)%nat as ->
    by (rewrite length_app; simpl; lia).
  replace (l ++ x :: r) with ((l ++ [x]) ++ r) by (by rewrite <- app_assoc).
  by rewrite IH.
Qed.

(** What is written as a header is read back as the same header. *)
Lemma decode_encode h : hdr_wf h → decode (encode h) = Ok h.
Proof.
  intros (Ht & Hb & Hs & Hl & Hd). unfold decode, encode.
  pose proof (int_at_encode [] 0 (ftype h) (numBytes h :: numSectors h :: dataSectors h) eq_refl Ht) as E0.
  pose proof (int_at_encode [ftype h] 1 (numBytes h) (numSectors h :: dataSectors h) eq_refl Hb) as E1.
  pose proof (int_at_encode [ftype h; numBytes h] 2 (numSectors h) (dataSectors h) eq_refl Hs) as E2.
  pose proof (decode_ints_encode [ftype h; numBytes h; numSectors h] 0 (dataSectors h) Hd) as E3.
  cbn [app length Nat.mul Nat.add Nat.sub] in E0, E1, E2, E3. rewrite E0, E1, E2.
  cbn [mbind outcome_bind]. rewrite <- Hl, E3. cbn [mbind outcome_bind]. by destruct h.
Qed.

Lemma encode_sector h : hdr_wf h → sector_data (encode h).
Proof.
  intros (_ & _ & _ & Hl & _). split; [|apply encode_ints_bytes].
  unfold encode. rewrite encode_ints_length. simpl. rewrite Hl. done.
Qed.
End codec.

(** ** Lists of blocks *)
Section blocks.
Implicit Types (l : list Z) (ls : list (list Z)).

Lemma concat_blocks_length ls n : Forall (λ l, length l = n) ls → length (concat ls) = (length ls * n)%nat.
Proof. induction 1; simpl; [done|]. rewrite length_app. lia. Qed.

Lemma concat_lookup ls n p : n ≠ 0%nat → Forall (λ l, length l = n) ls →
  concat ls !! p = (ls !! (p / n)%nat) ≫= λ l, l !! (p mod n)%nat.
Proof.
  intros Hn Hl. revert p. induction Hl as [|l ls Hl Hls IH]; intros p; [done|]. cbn [concat].
  destruct (decide (p < n)%nat) as [Hp|Hp].
  - rewrite lookup_app_l by lia. rewrite Nat.div_small, Nat.mod_small by done. done.
  - rewrite lookup_app_r by lia. rewrite Hl, IH.
    assert ((p / n = S ((p - n) / n))%nat ∧ (p mod n = (p - n) mod n)%nat) as [-> ->]; [|done].
    replace p with (p - n + 1 * n)%nat at 1 3 by lia.
    rewrite Nat.div_add, Nat.Div0.mod_add by done. lia.
Qed.

Lemma slice_spec l s n : 0 ≤ s → 0 ≤ n → s + n ≤ Z.of_nat (length l) →
  slice l s n = Ok (take (Z.to_nat n) (drop (Z.to_nat s) l)).
Proof.
  intros. unfold slice. rewrite (proj2 (Z.leb_le 0 s)), (proj2 (Z.leb_le _ _)) by lia. done.
Qed.

Lemma overlay_spec l s k : 0 ≤ s → s + Z.of_nat (length k) ≤ Z.of_nat (length l) →
  ∃ b, overlay l s k = Ok b ∧ length b = length l ∧
    ∀ p, b !! p = if decide (Z.to_nat s ≤ p < Z.to_nat s + length k)%nat
                  then k !! (p - Z.to_nat s)%nat else l !! p.
Proof.
  intros Hs Hl. unfold overlay. rewrite (proj2 (Z.leb_le 0 s)), (proj2 (Z.leb_le _ _)) by lia.
  cbn [andb]. eexists. split; [reflexivity|]. split.
  { rewrite !length_app, length_take, length_drop. lia. }
  intros p. case_decide as Hp.
  - rewrite lookup_app_r; rewrite length_take_le by lia; [|lia]. by rewrite lookup_app_l by lia.
  - destruct (decide (p < Z.to_nat s)%nat) as [Hlt|Hge].
    + rewrite lookup_app_l by (rewrite length_take; lia). by apply lookup_take_lt.
    + rewrite lookup_app_r; rewrite length_take_le by lia; [|lia].
      rewrite lookup_app_r by lia. rewrite lookup_drop. f_equal. lia.
Qed.
End blocks.

(** ** Files as byte sequences *)
Section file_laws.
Context {D : Type} `{SectorStore D}.
Variable fill : nat → Z.
Implicit Types (d : D) (h : FileHeader) (secs : list Z).

(** The bytes of a file whose blocks are [secs]. *)
Definition block_bytes d secs : list Z := concat (content d <$> secs).
Definition file_bytes d h secs : list Z := take (Z.to_nat (numBytes h)) (block_bytes d secs).

Definition same_content d d' : Prop := ∀ m, content d' m = content d m.
Definition agree (meta : list Z) d d' : Prop := ∀ m, m ∈ meta → content d' m = content d m.

(** The length of a file and the number of its blocks match. *)
Definition sized h secs : Prop :=
  0 ≤ numBytes h ∧ Z.of_nat (length secs) = divRoundUp (numBytes h) SectorSize.
Definition in_disk secs : Prop := Forall (λ s, 0 ≤ s < NumSectors) secs.

(** [b2s] finds block [i] of the file, as long as the sectors in [meta] are
    those of [d0]. *)
Definition finds (b2s : FileHeader → Z → D → outcome (Z * D)) h secs meta d0 : Prop :=
  ∀ d i s, store_ok d → agree meta d0 d → secs !! i = Some s →
    ∃ d', b2s h (Z.of_nat i * SectorSize) d = Ok (s, d') ∧ store_ok d' ∧ same_content d d'.

Lemma blocks_length d secs : store_ok d → length (block_bytes d secs) = (length secs * 128)%nat.
Proof.
  intros Hd. unfold block_bytes. rewrite (concat_blocks_length _ 128).
  - by rewrite length_fmap.
  - apply Forall_fmap, Forall_forall. intros s _. apply (content_law d s Hd).
Qed.
Lemma blocks_lookup d secs p : store_ok d →
  block_bytes d secs !! p = (secs !! (p / 128)%nat) ≫= λ s, content d s !! (p mod 128)%nat.
Proof.
  intros Hd. unfold block_bytes. rewrite (concat_lookup _ 128); [|done|].
  - rewrite list_lookup_fmap. by destruct (secs !! (p / 128)%nat).
  - apply Forall_fmap, Forall_forall. intros s _. apply (content_law d s Hd).
Qed.

Lemma sized_blocks d h secs : store_ok d → sized h secs →
  (Z.to_nat (numBytes h) ≤ length (block_bytes d secs))%nat ∧
  length (file_bytes d h secs) = Z.to_nat (numBytes h).
Proof.
  intros Hd [H0 Hl]. pose proof (blocks_length d secs Hd) as E.
  pose proof (divRoundUp_spec (numBytes h) SectorSize H0 eq_refl) as Hs.
  unfold SectorSize in *. unfold file_bytes. rewrite length_take. lia.
Qed.

Lemma same_blocks d d' secs : same_content d d' → block_bytes d' secs = block_bytes d secs.
Proof. intros Hs. unfold block_bytes. f_equal. apply list_fmap_ext. intros i s _. apply Hs. Qed.

Section with_b2s.
Variable b2s : FileHeader → Z → D → outcome (Z * D).

Lemma read_sectors_spec n h i d d0 secs meta : store_ok d → agree meta d0 d →
  finds b2s h secs meta d0 → in_disk secs → (i + n ≤ length secs)%nat →
  ∃ d', read_sectors b2s n h (Z.of_nat i) d = Ok (block_bytes d (take n (drop i secs)), d') ∧
    store_ok d' ∧ same_content d d'.
Proof.
  intros Hd Ha Hf Hdisk. revert i d Hd Ha. induction n as [|n IH]; intros i d Hd Ha Hi; cbn [read_sectors].
  { exists d. by rewrite take_0. }
  destruct (lookup_lt_is_Some_2 secs i) as [s Hs]; [lia|].
  destruct (Hf d i s Hd Ha Hs) as (d1 & -> & Hd1 & Hc1). cbn [mbind outcome_bind].
  destruct (sread_law d1 s Hd1) as (d2 & -> & Hd2 & Hc2); [exact (Forall_lookup_1 _ _ _ _ Hdisk Hs)|].
  cbn [mbind outcome_bind].
  replace (Z.of_nat i + 1) with (Z.of_nat (S i)) by lia.
  destruct (IH (S i) d2) as (d3 & -> & Hd3 & Hc3); [done| |lia|].
  { intros m Hm. rewrite Hc2, Hc1. by apply Ha. }
  cbn [mbind outcome_bind]. exists d3. split; [|split; [done|]].
  - do 2 f_equal. rewrite (drop_S secs s i Hs). cbn [take block_bytes fmap list_fmap concat].
    rewrite Hc1. f_equal. apply same_blocks. intros m. by rewrite Hc2, Hc1.
  - intros m. by rewrite Hc3, Hc2, Hc1.
Qed.

(** Sector arithmetic of a request [pos, pos + n). *)
Lemma request_range pos n len : 0 ≤ pos → 0 < n → pos + n ≤ len →
  let first := divRoundDown pos SectorSize in
  let last := divRoundDown (pos + n - 1) SectorSize in
  first = pos / 128 ∧ last = (pos + n - 1) / 128 ∧ 0 ≤ first ≤ last ∧
  last < divRoundUp len SectorSize ∧ first * 128 ≤ pos < first * 128 + 128 ∧
  last * 128 < pos + n ≤ last * 128 + 128.
Proof.
  intros Hp Hn Hl first last. unfold first, last.
  rewrite !divRoundDown_nonneg by (done || lia). change SectorSize with 128.
  pose proof (divRoundUp_spec len 128 ltac:(lia) eq_refl). zcases.
Qed.

Lemma ReadAt_with_spec h n pos d d0 secs meta : store_ok d → agree meta d0 d →
  finds b2s h secs meta d0 → in_disk secs → sized h secs → 0 ≤ pos →
  ∃ d', ReadAt_with b2s h n pos d =
      Ok (take (Z.to_nat n) (drop (Z.to_nat pos) (file_bytes d h secs)), d') ∧
    store_ok d' ∧ same_content d d'.
Proof.
  intros Hd Ha Hf Hdisk Hsz Hpos. destruct (sized_blocks d h secs Hd Hsz) as [Hbl Hfl].
  destruct Hsz as [H0 Hlen]. unfold ReadAt_with, FileLength.
  destruct (Z.leb_spec n 0) as [Hn|Hn]; cbn [orb].
  { exists d. rewrite (Z2Nat.nonpos n) by lia. by rewrite take_0. }
  destruct (Z.leb_spec (numBytes h) pos) as [Hp|Hp].
  { exists d. rewrite drop_ge, take_nil by lia. done. }
  set (m := if numBytes h <? pos + n then numBytes h - pos else n).
  assert (0 < m ∧ pos + m ≤ numBytes h ∧ m ≤ n ∧ (m = n ∨ pos + m = numBytes h)) as (Hm0 & Hm1 & Hm2 & Hm3)
    by (subst m; destruct (Z.ltb_spec (numBytes h) (pos + n)); lia).
  destruct (request_range pos m (numBytes h) Hpos Hm0 Hm1) as (Ef & El & Hfl' & Hlt & Hf1 & Hl1).
  set (first := divRoundDown pos SectorSize) in *.
  set (last := divRoundDown (pos + m - 1) SectorSize) in *.
  pose proof (read_sectors_spec (Z.to_nat (1 + last - first)) h (Z.to_nat first) d d0 secs meta
    Hd Ha Hf Hdisk ltac:(lia)) as (d1 & E & Hd1 & Hc1).
  rewrite Z2Nat.id in E by lia. rewrite E. cbn [mbind outcome_bind].
  set (sub := take (Z.to_nat (1 + last - first)) (drop (Z.to_nat first) secs)).
  pose proof (blocks_length d sub Hd) as Hsub.
  assert (length sub = Z.to_nat (1 + last - first)) as Hsl
    by (subst sub; rewrite length_take, length_drop; lia).
  rewrite slice_spec by (unfold SectorSize; lia). cbn [mbind outcome_bind].
  exists d1. split; [|done]. do 2 f_equal. apply list_eq. intros k.
  destruct (decide (k < Z.to_nat m)%nat) as [Hk|Hk].
  - rewrite !lookup_take_lt by lia. rewrite !lookup_drop. unfold file_bytes.
    rewrite lookup_take_lt by lia. rewrite !blocks_lookup by done.
    unfold SectorSize.
    set (q := (Z.to_nat (pos - first * 128) + k)%nat).
    assert (Z.to_nat pos + k = Z.to_nat first * 128 + q)%nat as -> by lia.
    rewrite Nat.add_comm, Nat.div_add, Nat.Div0.mod_add by done.
    subst sub. rewrite lookup_take_lt, lookup_drop; [by rewrite Nat.add_comm|].
    apply Nat.Div0.div_lt_upper_bound. lia.
  - rewrite !lookup_ge_None_2; [done| |].
    + rewrite length_take, length_drop, Hfl. lia.
    + rewrite length_take. lia.
Qed.

Lemma write_sectors_spec n h i buf d d0 secs meta : store_ok d → agree meta d0 d →
  finds b2s h secs meta d0 → in_disk secs → NoDup secs → (∀ s, s ∈ secs → s ∉ meta) →
  length buf = (n * 128)%nat → Forall is_u8 buf → (i + n ≤ length secs)%nat →
  ∃ d', write_sectors b2s n h (Z.of_nat i) buf d = Ok d' ∧ store_ok d' ∧
    (∀ k s, (k < n)%nat → secs !! (i + k)%nat = Some s →
       content d' s = take 128 (drop (k * 128) buf)) ∧
    (∀ m, (∀ k, (k < n)%nat → secs !! (i + k)%nat ≠ Some m) → content d' m = content d m).
Proof.
  intros Hd Ha Hf Hdisk Hnd Hmeta. revert i buf d Hd Ha.
  induction n as [|n IH]; intros i buf d Hd Ha Hlen Hb Hi; cbn [write_sectors].
  { exists d. split_and!; try done. intros; lia. }
  destruct (lookup_lt_is_Some_2 secs i) as [s Hs]; [lia|].
  destruct (Hf d i s Hd Ha Hs) as (d1 & -> & Hd1 & Hc1). cbn [mbind outcome_bind].
  destruct (swrite_law d1 s (take (Z.to_nat SectorSize) buf) Hd1) as (d2 & -> & Hd2 & Hc2);
    [exact (Forall_lookup_1 _ _ _ _ Hdisk Hs)| |].
  { split; [rewrite length_take; unfold SectorSize; lia|by apply Forall_take]. }
  cbn [mbind outcome_bind]. replace (Z.of_nat i + 1) with (Z.of_nat (S i)) by lia.
  change (Z.to_nat SectorSize) with 128%nat in *.
  destruct (IH (S i) (drop 128 buf) d2) as (d3 & -> & Hd3 & Hw3 & Ho3);
    [done| |rewrite length_drop; lia|by apply Forall_drop|lia|].
  { intros m Hm. rewrite Hc2, decide_False, Hc1 by (intros ->; by eapply Hmeta, Hm; eapply list_elem_of_lookup_2).
    by apply Ha. }
  exists d3. split; [done|]. split; [done|]. split.
  - intros [|k] t Hk Ht.
    + rewrite Nat.add_0_r in Ht. assert (t = s) as -> by congruence.
      rewrite Ho3; [rewrite Hc2, decide_True by done; by rewrite drop_0|].
      intros k _ Hk'. pose proof (NoDup_lookup _ _ _ _ Hnd Hs Hk'). lia.
    + rewrite (Hw3 k t); [|lia|by rewrite <- Nat.add_succ_comm in Ht].
      by rewrite drop_drop.
  - intros m Hm. rewrite Ho3.
    + rewrite Hc2, decide_False; [apply Hc1|]. intros ->. apply (Hm 0%nat); [lia|].
      by rewrite Nat.add_0_r.
    + intros k Hk. rewrite Nat.add_succ_comm. apply Hm. lia.
Qed.

(** Reading sector [s] of the file over its place in a buffer that starts at
    sector [first]. *)
Lemma read_into h buf d d0 secs meta first s : store_ok d → agree meta d0 d →
  finds b2s h secs meta d0 → in_disk secs → sized h secs →
  Forall is_u8 (file_bytes d h secs) → Forall is_u8 buf →
  0 ≤ first ≤ s → (s - first) * 128 + 128 ≤ Z.of_nat (length buf) →
  ∃ b d2, ('(l, d') ← ReadAt_with b2s h 128 (s * 128) d;
           b ← overlay buf ((s - first) * 128) l; Ok (b, d')) = Ok (b, d2) ∧
    store_ok d2 ∧ same_content d d2 ∧ length b = length buf ∧ Forall is_u8 b ∧
    ∀ p, (Z.to_nat (first * 128) ≤ p)%nat → b !! (p - Z.to_nat (first * 128))%nat =
      if decide (s * 128 ≤ Z.of_nat p < s * 128 + 128 ∧ Z.of_nat p < numBytes h)
      then file_bytes d h secs !! p else buf !! (p - Z.to_nat (first * 128))%nat.
Proof.
  intros Hd Ha Hf Hdisk Hsz Hfb Hbb Hs Hlb.
  pose proof (sized_blocks d h secs Hd Hsz) as [_ Hlen].
  destruct (ReadAt_with_spec h 128 (s * 128) d d0 secs meta) as (d2 & -> & Hd2 & Hc2); try done; [lia|].
  set (fb := file_bytes d h secs) in *. cbn [mbind outcome_bind].
  set (l := take (Z.to_nat 128) (drop (Z.to_nat (s * 128)) fb)).
  assert (length l = Nat.min 128 (length fb - Z.to_nat (s * 128))) as Hll
    by (subst l; rewrite length_take, length_drop; lia).
  destruct (overlay_spec buf ((s - first) * 128) l) as (b & -> & Hlb' & Hb); [lia|lia|].
  cbn [mbind outcome_bind]. exists b, d2. split; [done|]. split; [done|].
  split; [done|]. split; [done|]. split.
  - apply Forall_lookup_2. intros k x Hk. rewrite Hb in Hk. case_decide.
    + apply (Forall_lookup_1 is_u8 l (k - Z.to_nat ((s - first) * 128))); [|done].
      apply Forall_take, Forall_drop, Hfb.
    + by apply (Forall_lookup_1 _ _ _ _ Hbb Hk).
  - intros p Hp. rewrite Hb. subst l. rewrite length_take, length_drop, Hlen in Hll |- *.
    case_decide as E1; case_decide as E2; try lia; [|done].
    rewrite lookup_take_lt, lookup_drop by lia. f_equal. lia.
Qed.

(** The bytes around the written range survive the prefetch. *)
Lemma prefetch_spec h buf0 pos n d d0 secs meta : store_ok d → agree meta d0 d →
  finds b2s h secs meta d0 → in_disk secs → sized h secs →
  0 ≤ pos → 0 < n → pos + n ≤ numBytes h →
  let first := divRoundDown pos SectorSize in
  let last := divRoundDown (pos + n - 1) SectorSize in
  length buf0 = Z.to_nat ((1 + last - first) * SectorSize) → Forall is_u8 buf0 →
  Forall is_u8 (file_bytes d h secs) →
  ∃ buf d', prefetch b2s h buf0 pos n first last d = Ok (buf, d') ∧
    store_ok d' ∧ same_content d d' ∧ length buf = length buf0 ∧ Forall is_u8 buf ∧
    ∀ p, first * 128 ≤ Z.of_nat p → Z.of_nat p < numBytes h → Z.of_nat p < (last + 1) * 128 →
      ¬ (pos ≤ Z.of_nat p < pos + n) →
      buf !! (p - Z.to_nat (first * 128))%nat = file_bytes d h secs !! p.
Proof.
  intros Hd Ha Hf Hdisk Hsz Hpos Hn Hle first last Hl0 Hb0 Hfb.
  destruct (request_range pos n (numBytes h) Hpos Hn Hle) as (Ef & El & Hfl & Hlt & Hf1 & Hl1).
  fold first last in Ef, El, Hfl, Hlt, Hf1, Hl1. pose proof (sized_blocks d h secs Hd Hsz) as [_ Hlen].
  set (fb := file_bytes d h secs) in *. unfold prefetch. unfold SectorSize in *.
  assert (∀ buf d1 s, store_ok d1 → same_content d d1 → length buf = length buf0 →
    Forall is_u8 buf → first ≤ s ≤ last →
    ∃ b d2, ('(l, d') ← ReadAt_with b2s h 128 (s * 128) d1;
             b ← overlay buf ((s - first) * 128) l; Ok (b, d')) = Ok (b, d2) ∧
      store_ok d2 ∧ same_content d d2 ∧ length b = length buf0 ∧ Forall is_u8 b ∧
      ∀ p, (Z.to_nat (first * 128) ≤ p)%nat → b !! (p - Z.to_nat (first * 128))%nat =
        if decide (s * 128 ≤ Z.of_nat p < s * 128 + 128 ∧ Z.of_nat p < numBytes h)
        then fb !! p else buf !! (p - Z.to_nat (first * 128))%nat) as Hread.
  { intros buf d1 s Hd1 Hc1 Hlb Hbb Hs.
    assert (file_bytes d1 h secs = fb) as Efb by (unfold fb, file_bytes; by rewrite (same_blocks d d1)).
    rewrite <- Efb. destruct (read_into h buf d1 d0 secs meta first s)
      as (b & d2 & -> & Hd2 & Hc2 & Hlb2 & Hbb2 & Hb); try done; [|by rewrite Efb|lia|lia|].
    { intros m Hm. rewrite Hc1. by apply Ha. }
    exists b, d2. split; [done|]. split; [done|]. split; [intros m; by rewrite Hc2, Hc1|].
    split; [lia|]. by split. }
  destruct (Z.eqb_spec pos (first * 128)) as [Eal|Eal]; cbn [negb].
  - cbn [mbind outcome_bind]. rewrite orb_true_r, andb_true_r.
    destruct (Z.eqb_spec (pos + n) ((last + 1) * 128)) as [Ela|Ela]; cbn [negb].
    + exists buf0, d. split_and!; try done. intros; lia.
    + destruct (Hread buf0 d last) as (b & d2 & E & Hd2 & Hc2 & Hlb & Hbb & Hb);
        [done|done|done|done|lia|]. rewrite E. exists b, d2. split_and!; try done.
      intros p H1 H2 H3 H4. rewrite Hb by lia. rewrite decide_True by lia. done.
  - destruct (Hread buf0 d first) as (b & d2 & E & Hd2 & Hc2 & Hlb & Hbb & Hb);
      [done|done|done|done|lia|].
    rewrite Z.sub_diag, Z.mul_0_l in E. rewrite E. cbn [mbind outcome_bind]. rewrite orb_false_r.
    destruct (Z.eqb_spec (pos + n) ((last + 1) * 128)) as [Ela|Ela]; cbn [negb andb].
    + exists b, d2. split_and!; try done. intros p H1 H2 H3 H4. rewrite Hb by lia.
      rewrite decide_True by lia. done.
    + destruct (Z.eqb_spec first last) as [Efl|Efl]; cbn [negb].
      * exists b, d2. split_and!; try done. intros p H1 H2 H3 H4. rewrite Hb by lia.
        rewrite decide_True by lia. done.
      * destruct (Hread b d2 last) as (b' & d3 & E' & Hd3 & Hc3 & Hlb' & Hbb' & Hb');
          [done|done|done|done|lia|]. rewrite E'. exists b', d3. split_and!; try done.
        intros p H1 H2 H3 H4. rewrite Hb' by lia. case_decide; [done|]. rewrite Hb by lia.
        rewrite decide_True by lia. done.
Qed.

Hypothesis fill_bytes : ∀ k, is_u8 (fill k).

Lemma fill_u8 n : Forall is_u8 (fill <$> seq 0 n).
Proof. apply Forall_fmap, Forall_forall. intros k _. apply fill_bytes. Qed.

Lemma file_bytes_u8 d h secs : store_ok d → Forall is_u8 (file_bytes d h secs).
Proof.
  intros Hd. apply Forall_take. unfold block_bytes. apply Forall_concat, Forall_fmap, Forall_forall.
  intros s _. apply (content_law d s Hd).
Qed.

(** The written file, byte by byte. *)
Lemma written_bytes h buf from pos n d d2 secs first last k :
  store_ok d → store_ok d2 → sized h secs → NoDup secs →
  0 ≤ pos → 0 < n → pos + n ≤ numBytes h → n ≤ Z.of_nat (length from) →
  first * 128 ≤ pos < first * 128 + 128 → last * 128 < pos + n ≤ last * 128 + 128 →
  0 ≤ first ≤ last →
  (∀ j s, (j < Z.to_nat (1 + last - first))%nat → secs !! (Z.to_nat first + j)%nat = Some s →
     content d2 s = take 128 (drop (j * 128) buf)) →
  (∀ m, (∀ j, (j < Z.to_nat (1 + last - first))%nat → secs !! (Z.to_nat first + j)%nat ≠ Some m) →
     content d2 m = content d m) →
  (∀ p, (Z.to_nat (first * 128) ≤ p)%nat → Z.of_nat p < (last + 1) * 128 → Z.of_nat p < numBytes h →
     buf !! (p - Z.to_nat (first * 128))%nat =
     if decide (pos ≤ Z.of_nat p < pos + n) then from !! (p - Z.to_nat pos)%nat
     else file_bytes d h secs !! p) →
  file_bytes d2 h secs !! k =
    if decide (pos ≤ Z.of_nat k < pos + n) then from !! (k - Z.to_nat pos)%nat
    else file_bytes d h secs !! k.
Proof.
  intros Hd Hd2 Hsz Hnd Hpos Hn Hle Hlf Hf1 Hl1 Hfl Hw Ho Hbuf.
  destruct (sized_blocks d h secs Hd Hsz) as [_ Hlen], (sized_blocks d2 h secs Hd2 Hsz) as [Hbl2 Hlen2].
  pose proof (blocks_length d2 secs Hd2) as Hbl.
  destruct (decide (Z.of_nat k < numBytes h)) as [Hk|Hk].
  2: { rewrite lookup_ge_None_2 by lia. rewrite decide_False by lia.
       by rewrite lookup_ge_None_2 by lia. }
  destruct (lookup_lt_is_Some_2 secs (k / 128)%nat) as [s Hs].
  { apply Nat.Div0.div_lt_upper_bound. lia. }
  assert (file_bytes d2 h secs !! k = content d2 s !! (k mod 128)%nat) as ->.
  { unfold file_bytes. rewrite lookup_take_lt by lia. rewrite blocks_lookup by done. by rewrite Hs. }
  destruct (decide (first * 128 ≤ Z.of_nat k < (last + 1) * 128)) as [Hin|Hout].
  - set (j := (k / 128 - Z.to_nat first)%nat).
    assert (Z.to_nat first ≤ k / 128 ∧ k / 128 ≤ Z.to_nat last)%nat as [Hj1 Hj2].
    { split; [apply Nat.div_le_lower_bound; lia|].
      apply Nat.lt_succ_r, Nat.Div0.div_lt_upper_bound. lia. }
    rewrite (Hw j s); [|lia|by replace (Z.to_nat first + j)%nat with (k / 128)%nat by lia].
    rewrite lookup_take_lt by (by apply Nat.mod_upper_bound). rewrite lookup_drop.
    rewrite <- Hbuf by lia. f_equal. pose proof (Nat.div_mod k 128). lia.
  - rewrite decide_False by lia. unfold file_bytes. rewrite lookup_take_lt by lia.
    rewrite blocks_lookup, Hs by done. cbn. rewrite Ho; [done|].
    intros j Hj Hjs. pose proof (NoDup_lookup _ _ _ _ Hnd Hs Hjs) as E.
    apply Hout. pose proof (Nat.div_mod k 128). pose proof (Nat.mod_upper_bound k 128). lia.
Qed.

Lemma WriteAt_with_spec h from pos d d0 secs meta : store_ok d → agree meta d0 d →
  finds b2s h secs meta d0 → in_disk secs → sized h secs → NoDup secs →
  (∀ s, s ∈ secs → s ∉ meta) → Forall is_u8 from → 0 ≤ pos →
  ∃ n d', WriteAt_with fill b2s h from pos d = Ok (n, d') ∧ store_ok d' ∧
    n = Z.max 0 (Z.min (Z.of_nat (length from)) (numBytes h - pos)) ∧
    (∀ k, file_bytes d' h secs !! k =
       if decide (pos ≤ Z.of_nat k < pos + n) then from !! (k - Z.to_nat pos)%nat
       else file_bytes d h secs !! k) ∧
    (∀ m, m ∉ secs → content d' m = content d m).
Proof.
  intros Hd Ha Hf Hdisk Hsz Hnd Hmeta Hfrom Hpos. unfold WriteAt_with, FileLength.
  destruct (Z.leb_spec (Z.of_nat (length from)) 0) as [Hn|Hn]; cbn [orb].
  { exists 0, d. split_and!; try done; [lia|]. intros k. by rewrite decide_False by lia. }
  destruct (Z.leb_spec (numBytes h) pos) as [Hp|Hp].
  { exists 0, d. split_and!; try done; [lia|]. intros k. by rewrite decide_False by lia. }
  set (n := if numBytes h <? pos + Z.of_nat (length from) then numBytes h - pos else Z.of_nat (length from)).
  assert (0 < n ∧ pos + n ≤ numBytes h ∧ n ≤ Z.of_nat (length from) ∧
    n = Z.max 0 (Z.min (Z.of_nat (length from)) (numBytes h - pos))) as (Hn0 & Hn1 & Hn2 & Hn3)
    by (subst n; destruct (Z.ltb_spec (numBytes h) (pos + Z.of_nat (length from))); lia).
  destruct (request_range pos n (numBytes h) Hpos Hn0 Hn1) as (Ef & El & Hfl & Hlt & Hf1 & Hl1).
  set (first := divRoundDown pos SectorSize) in *.
  set (last := divRoundDown (pos + n - 1) SectorSize) in *.
  set (buf0 := fill <$> seq 0 (Z.to_nat ((1 + last - first) * SectorSize))).
  destruct (prefetch_spec h buf0 pos n d d0 secs meta) as (buf1 & d1 & E & Hd1 & Hc1 & Hl1b & Hb1 & Hkeep);
    try done; [by subst buf0; rewrite length_fmap, length_seq|apply fill_u8|by apply file_bytes_u8|].
  fold first last in E, Hkeep. rewrite E. cbn [mbind outcome_bind].
  assert (length buf0 = Z.to_nat ((1 + last - first) * 128)) as Hlb0
    by (subst buf0; by rewrite length_fmap, length_seq).
  destruct (overlay_spec buf1 (pos - first * SectorSize) (take (Z.to_nat n) from)) as (buf & -> & Hlb & Hb);
    [unfold SectorSize; lia|rewrite length_take; unfold SectorSize; lia|].
  cbn [mbind outcome_bind]. rewrite length_take_le in Hb by lia. change SectorSize with 128 in *.
  pose proof (write_sectors_spec (Z.to_nat (1 + last - first)) h (Z.to_nat first) buf d1 d0 secs meta Hd1)
    as (d2 & E2 & Hd2 & Hw & Ho); try done.
  { intros m Hm. rewrite Hc1. by apply Ha. }
  { lia. }
  { apply Forall_lookup_2. intros k x Hk. rewrite Hb in Hk. case_decide.
    - apply (Forall_lookup_1 is_u8 (take (Z.to_nat n) from) _ _ (Forall_take _ _ _ Hfrom) Hk).
    - apply (Forall_lookup_1 _ _ _ _ Hb1 Hk). }
  { destruct Hsz as [_ Hs]. change SectorSize with 128 in Hs. lia. }
  rewrite Z2Nat.id in E2 by lia. rewrite E2. cbn [mbind outcome_bind].
  exists n, d2. split; [done|]. split; [done|]. split; [done|]. split.
  - intros k. eapply (written_bytes h buf from pos n d d2 secs first last k); try done.
    + intros m Hm. rewrite Ho by done. apply Hc1.
    + intros p Hp1 Hp2 Hp3. rewrite Hb. case_decide as C1; case_decide as C2; try lia.
      * rewrite lookup_take_lt by lia. f_equal. lia.
      * apply Hkeep; lia.
  - intros m Hm. rewrite Ho; [apply Hc1|]. intros k _ Hk. by apply Hm; eapply list_elem_of_lookup_2.
Qed.
End with_b2s.
End file_laws.

(** ** Well-formed files on a disk *)

(** Distinct sectors of the disk are at most 1024. *)
Lemma disk_bound l : in_disk l → NoDup l → (length l ≤ 1024)%nat.
Proof.
  intros Hd Hnd. assert (list_to_set l ⊆@{gset Z} list_to_set (seqZ 0 NumSectors)) as Hsub.
  { intros x. rewrite !elem_of_list_to_set, elem_of_seqZ. intros Hx.
    unfold in_disk in Hd. rewrite Forall_forall in Hd. specialize (Hd x Hx). lia. }
  apply subseteq_size in Hsub. rewrite !size_list_to_set in Hsub by (done || apply NoDup_seqZ).
  rewrite length_seqZ in Hsub. change (Z.to_nat NumSectors) with 1024%nat in Hsub. lia.
Qed.
Section layout.
Context {D : Type} `{SectorStore D}.
Implicit Types (d : D) (h : FileHeader) (secs meta : list Z).

(** A header whose blocks are all listed in it. *)
Definition direct h secs : Prop :=
  hdr_wf h ∧ sized h secs ∧ numSectors h = Z.of_nat (length secs) ∧
  (length secs ≤ 28)%nat ∧ take (length secs) (dataSectors h) = secs.

(** The file with header [h] has the data blocks [secs]; [meta] are the
    sectors of its undirected block: the header and the sectors that hold the
    numbers of the blocks after the 28th. *)
Inductive file_at d h : list Z → list Z → Prop :=
| file_direct secs : direct h secs → in_disk secs → NoDup secs → file_at d h secs []
| file_indirect first28 more ind ih isecs :
    hdr_wf h → sized h (first28 ++ more) → numSectors h = Z.of_nat (length (first28 ++ more)) →
    length first28 = 28%nat → more ≠ [] → dataSectors h = first28 ++ [ind] →
    decode (content d ind) = Ok ih → direct ih isecs →
    numBytes ih = 4 * Z.of_nat (length more) → file_bytes d ih isecs = encode_ints more →
    Forall is_i32 more →
    in_disk ((first28 ++ more) ++ ind :: isecs) → NoDup ((first28 ++ more) ++ ind :: isecs) →
    file_at d h (first28 ++ more) (ind :: isecs).

Lemma direct_finds fuel h secs d0 : direct h secs →
  finds (ByteToSector (S fuel)) h secs [] d0.
Proof.
  intros (_ & _ & _ & Hle & Ht) d i s Hd _ Hs. exists d. split; [|done].
  pose proof (lookup_lt_Some _ _ _ Hs) as Hi. cbn [ByteToSector].
  assert (u32 (Z.quot (Z.of_nat i * SectorSize) SectorSize) = Z.of_nat i) as ->.
  { rewrite Z.quot_mul by done. apply u32_id. unfold is_u32, two32. lia. }
  rewrite (proj2 (Z.ltb_lt _ _)) by (unfold NumDirect; lia).
  rewrite (proj2 (arr_get_Ok _ _ s)); [done|]. split; [lia|]. rewrite Nat2Z.id.
  rewrite <- Ht in Hs. by rewrite lookup_take_lt in Hs by lia.
Qed.

Lemma slice_ints l i x : l !! i = Some x → is_i32 x →
  take 4 (drop (4 * i) (encode_ints l)) = le32 x.
Proof.
  intros Hl _. rewrite <- (take_drop_middle l i x Hl).
  pose proof (lookup_lt_Some _ _ _ Hl). rewrite encode_ints_app.
  rewrite drop_app_length'; [done|]. rewrite encode_ints_length, length_take. lia.
Qed.

Lemma ByteToSector_S fuel h offset d : ByteToSector (S fuel) h offset d =
  let entry := u32 (Z.quot offset SectorSize) in
  if entry <? NumDirect - 1 then
    sec ← arr_get (dataSectors h) entry; Ok (sec, d)
  else
    ind ← arr_get (dataSectors h) (NumDirect - 1);
    '(ih, d1) ← FetchFrom d ind;
    let newOffset := u32 (offset - SectorSize * (NumDirect - 1)) in
    '(l, d2) ← ReadAt_with (ByteToSector fuel) ih 4 (i32 (4 * (newOffset / SectorSize))) d1;
    _ ← ASSERT (Z.of_nat (length l) =? 4);
    sec ← int_at l 0;
    Ok (sec, d2).
Proof. done. Qed.

(** Reading entry [i - 28] of the undirected block. *)
Lemma indirect_finds fuel d0 h first28 more ind ih isecs :
  length first28 = 28%nat → dataSectors h = first28 ++ [ind] →
  (length (first28 ++ more) ≤ 1024)%nat →
  decode (content d0 ind) = Ok ih → direct ih isecs →
  file_bytes d0 ih isecs = encode_ints more → Forall is_i32 more →
  in_disk (ind :: isecs) →
  finds (ByteToSector (S (S fuel))) h (first28 ++ more) (ind :: isecs) d0.
Proof.
  intros H28 Hds Hbound Hdec Hdir Hbytes Hi32 Hdisk d i s Hd Ha Hs.
  pose proof (lookup_lt_Some _ _ _ Hs) as Hi. rewrite ByteToSector_S. cbv zeta.
  assert (u32 (Z.quot (Z.of_nat i * SectorSize) SectorSize) = Z.of_nat i) as ->.
  { rewrite Z.quot_mul by done. apply u32_id. unfold is_u32, two32. lia. }
  destruct (Z.ltb_spec (Z.of_nat i) (NumDirect - 1)) as [Hlt|Hge]; unfold NumDirect in *.
  { exists d. split; [|done]. rewrite (proj2 (arr_get_Ok _ _ s)); [done|]. split; [lia|].
    rewrite Nat2Z.id, Hds. rewrite lookup_app_l in Hs by lia. by rewrite lookup_app_l by lia. }
  rewrite lookup_app_r in Hs by lia. rewrite H28 in Hs.
  rewrite (proj2 (arr_get_Ok _ _ ind)).
  2: { split; [lia|]. rewrite Hds, lookup_app_r by lia. by rewrite H28. }
  cbn [mbind outcome_bind]. unfold FetchFrom.
  apply Forall_cons in Hdisk as [Hind Hisecs].
  destruct (sread_law d ind Hd Hind) as (d1 & -> & Hd1 & Hc1). cbn [mbind outcome_bind].
  rewrite (Ha ind) by left. rewrite Hdec. cbn [mbind outcome_bind].
  set (k := (i - 28)%nat) in *. pose proof (lookup_lt_Some _ _ _ Hs) as Hk.
  assert (i32 (4 * (u32 (Z.of_nat i * SectorSize - SectorSize * (29 - 1)) / SectorSize)) =
    4 * Z.of_nat k) as ->.
  { unfold SectorSize. rewrite u32_id by (unfold is_u32, two32; rewrite length_app in *; lia).
    replace (Z.of_nat i * 128 - 128 * (29 - 1)) with (Z.of_nat k * 128) by lia.
    rewrite Z.div_mul by done. apply i32_id. unfold is_i32, two31. rewrite length_app in *. lia. }
  pose proof (direct_finds fuel ih isecs d1 Hdir) as Hfi.
  destruct (ReadAt_with_spec (ByteToSector (S fuel)) ih 4 (4 * Z.of_nat k) d1 d1 isecs [])
    as (d2 & -> & Hd2 & Hc2); try done; [apply Hdir|lia|].
  cbn [mbind outcome_bind].
  assert (file_bytes d1 ih isecs = encode_ints more) as ->.
  { rewrite <- Hbytes. unfold file_bytes. f_equal. unfold block_bytes. f_equal.
    apply list_fmap_ext. intros j x Hj. rewrite Hc1. apply Ha. right.
    by eapply list_elem_of_lookup_2. }
  replace (Z.to_nat (4 * Z.of_nat k)) with (4 * k)%nat by lia.
  change (Z.to_nat 4) with 4%nat.
  pose proof (Forall_lookup_1 _ _ _ _ Hi32 Hs) as Hs32.
  rewrite (slice_ints more k s Hs Hs32). change (Z.of_nat (length (le32 s)) =? 4) with true.
  cbn [ASSERT mbind outcome_bind].
  pose proof (int_at_le32 [] s [] 0 eq_refl Hs32) as Hint. rewrite app_nil_r, app_nil_l in Hint.
  rewrite Hint. cbn [mbind outcome_bind].
  exists d2. split; [done|]. split; [done|]. intros m. by rewrite Hc2, Hc1.
Qed.

Lemma file_finds fuel d h secs meta : file_at d h secs meta →
  finds (ByteToSector (S (S fuel))) h secs meta d.
Proof.
  intros Hf. destruct Hf as [secs Hdir _ _|first28 more ind ih isecs Hh Hsz Hn H28 Hm Hds Hdec Hdir Hib Hbytes Hi32 Hdisk Hnd].
  - by apply direct_finds.
  - apply (indirect_finds fuel d h first28 more ind ih isecs); try done.
    + pose proof (NoDup_app (first28 ++ more) (ind :: isecs)) as [E _]. destruct (E Hnd) as (Hnd1 & _ & _).
      apply Forall_app in Hdisk as [Hdisk _]. pose proof (disk_bound _ Hdisk Hnd1). lia.
    + by apply Forall_app in Hdisk as [_ ?].
Qed.
End layout.

Section file_theorems.
Context {D : Type} `{SectorStore D}.
Implicit Types (d : D) (h : FileHeader) (secs meta : list Z).

Lemma file_at_facts d h secs meta : file_at d h secs meta →
  sized h secs ∧ in_disk (secs ++ meta) ∧ NoDup (secs ++ meta) ∧ hdr_wf h ∧
  numSectors h = Z.of_nat (length secs).
Proof.
  intros Hf. destruct Hf as [secs (Hw & Hs & Hn & _) Hd Hnd|]; [|by split_and!].
  rewrite app_nil_r. by split_and!.
Qed.

Lemma file_at_split d h secs meta : file_at d h secs meta →
  sized h secs ∧ in_disk secs ∧ NoDup secs ∧ (∀ s, s ∈ secs → s ∉ meta).
Proof.
  intros Hf. destruct (file_at_facts d h secs meta Hf) as (Hs & Hd & Hnd & _).
  apply Forall_app in Hd as [Hd _]. apply NoDup_app in Hnd as (Hnd & Hdis & _). by split_and!.
Qed.

(** A file depends on the sectors of its undirected block only. *)
Lemma file_at_agree d d' h secs meta : agree meta d d' → file_at d h secs meta →
  file_at d' h secs meta.
Proof.
  intros Ha Hf. destruct Hf as [secs Hdir Hdk Hnd|first28 more ind ih isecs Hh Hsz Hn H28 Hm Hds Hdec Hdir Hib Hbytes Hi32 Hdisk Hnd].
  - by constructor.
  - refine (file_indirect d' h first28 more ind ih isecs Hh Hsz Hn H28 Hm Hds _ Hdir Hib _ Hi32 Hdisk Hnd).
    + rewrite (Ha ind) by left. exact Hdec.
    + rewrite <- Hbytes. unfold file_bytes, block_bytes. f_equal. f_equal.
      apply list_fmap_ext. intros j x Hj. apply Ha. right. by eapply list_elem_of_lookup_2.
Qed.

Lemma same_file d d' h secs meta : same_content d d' → file_at d h secs meta →
  file_at d' h secs meta ∧ file_bytes d' h secs = file_bytes d h secs.
Proof.
  intros Hc Hf. split; [apply (file_at_agree d); [intros m _; apply Hc|done]|].
  unfold file_bytes. by rewrite (same_blocks d d').
Qed.

(** Reading and writing the first bytes of a file. *)
Lemma ReadAt_prefix fuel d h secs meta n : store_ok d → file_at d h secs meta →
  ∃ d', ReadAt (S (S fuel)) h n 0 d = Ok (take (Z.to_nat n) (file_bytes d h secs), d') ∧
    store_ok d' ∧ same_content d d'.
Proof.
  intros Hd Hf. destruct (file_at_split d h secs meta Hf) as (Hs & Hdk & _). unfold ReadAt.
  destruct (ReadAt_with_spec (ByteToSector (S (S fuel))) h n 0 d d secs meta)
    as (d' & -> & Hd' & Hc); try done; [by apply file_finds|].
  change (Z.to_nat 0) with 0%nat. rewrite drop_0. by exists d'.
Qed.
Lemma WriteAt_prefix fill fuel d h secs meta l : (∀ k, is_u8 (fill k)) → store_ok d →
  file_at d h secs meta → Forall is_u8 l → Z.of_nat (length l) ≤ numBytes h →
  ∃ n d', WriteAt fill (S (S fuel)) h l 0 d = Ok (n, d') ∧ store_ok d' ∧
    take (length l) (file_bytes d' h secs) = l ∧ (∀ m, m ∉ secs → content d' m = content d m).
Proof.
  intros Hfill Hd Hf Hl Hlen. destruct (file_at_split d h secs meta Hf) as (Hs & Hdk & Hnd & Hdis).
  unfold WriteAt.
  destruct (WriteAt_with_spec fill (ByteToSector (S (S fuel))) Hfill h l 0 d d secs meta)
    as (n & d' & -> & Hd' & Hn & Hb & Ho); try done; [by apply file_finds|].
  exists n, d'. split; [done|]. split; [done|]. split; [|done].
  apply list_eq. intros k. destruct (decide (k < length l)%nat) as [Hk|Hk].
  - rewrite lookup_take_lt by done. rewrite Hb, decide_True by lia. f_equal. lia.
  - rewrite lookup_take_ge by lia. symmetry. apply lookup_ge_None. lia.
Qed.
End file_theorems.

(** Reading a well-formed file returns exactly the requested bytes that exist:
    [ReadAt n pos] yields bytes [pos, pos+n) of the file cut at its end, through
    the direct sectors and the undirected block alike, with two levels of
    recursion, and changes no sector. *)
Theorem ReadAt_reads {D} `{SectorStore D} fuel (d : D) h secs meta n pos :
  store_ok d → file_at d h secs meta → 0 ≤ pos →
  ∃ d', ReadAt (S (S fuel)) h n pos d =
      Ok (take (Z.to_nat n) (drop (Z.to_nat pos) (file_bytes d h secs)), d') ∧
    store_ok d' ∧ same_content d d'.
Proof.
  intros Hd Hf Hpos. destruct (file_at_split d h secs meta Hf) as (Hs & Hdk & _).
  apply (ReadAt_with_spec _ h n pos d d secs meta); try done. by apply file_finds.
Qed.

(** C8: Writing a well-formed file changes exactly the bytes [pos, pos+n) that lie
    inside it, never its length or its blocks, and no sector of another file:
    reading the range back returns what was written, every other byte of the
    file reads as before. *)
Theorem WriteAt_writes {D} `{SectorStore D} fill fuel (d : D) h secs meta from pos :
  (∀ k, is_u8 (fill k)) → store_ok d → file_at d h secs meta → Forall is_u8 from → 0 ≤ pos →
  ∃ n d', WriteAt fill (S (S fuel)) h from pos d = Ok (n, d') ∧ store_ok d' ∧
    file_at d' h secs meta ∧ n = Z.max 0 (Z.min (Z.of_nat (length from)) (numBytes h - pos)) ∧
    (∀ m, m ∉ secs → content d' m = content d m) ∧
    (∃ d'', ReadAt (S (S fuel)) h n pos d' = Ok (take (Z.to_nat n) from, d'')) ∧
    (∀ k, ¬ (pos ≤ Z.of_nat k < pos + n) → file_bytes d' h secs !! k = file_bytes d h secs !! k).
Proof.
  intros Hfill Hd Hf Hfrom Hpos. destruct (file_at_split d h secs meta Hf) as (Hs & Hdk & Hnd & Hdis).
  destruct (WriteAt_with_spec fill (ByteToSector (S (S fuel))) Hfill h from pos d d secs meta)
    as (n & d' & E & Hd' & Hn & Hb & Ho); try done; [by apply file_finds|].
  exists n, d'. split; [done|]. split; [done|].
  assert (file_at d' h secs meta) as Hf'.
  { apply (file_at_agree d); [|done]. intros m Hm. apply Ho. intros Hin. by apply (Hdis m). }
  split; [done|]. split; [done|]. split; [done|]. split.
  - destruct (ReadAt_with_spec (ByteToSector (S (S fuel))) h n pos d' d' secs meta)
      as (d'' & E2 & _ & _); try done; [by apply file_finds|].
    exists d''. unfold ReadAt. rewrite E2. do 2 f_equal. apply list_eq. intros k.
    destruct (decide (k < Z.to_nat n)%nat) as [Hk|Hk].
    + rewrite !lookup_take_lt by lia. rewrite lookup_drop, Hb, decide_True by lia. f_equal. lia.
    + rewrite !lookup_take_ge by lia. done.
  - intros k Hk. by rewrite Hb, decide_False.
Qed.

(** A header written to a sector is read back unchanged, and every 128-byte
    sector written this way is one full sector. *)
Theorem header_roundtrip {D} `{SectorStore D} (d : D) h sec :
  store_ok d → hdr_wf h → 0 ≤ sec < NumSectors →
  ∃ d1 d2, WriteBack d h sec = Ok d1 ∧ FetchFrom d1 sec = Ok (h, d2) ∧ store_ok d2 ∧
    length (encode h) = 128%nat ∧ (∀ m, m ≠ sec → content d2 m = content d m).
Proof.
  intros Hd Hh Hs. unfold WriteBack, FetchFrom.
  destruct (swrite_law d sec (encode h) Hd Hs (encode_sector h Hh)) as (d1 & -> & Hd1 & Hc1).
  destruct (sread_law d1 sec Hd1 Hs) as (d2 & E2 & Hd2 & Hc2).
  exists d1, d2. split; [done|]. rewrite E2. cbn [mbind outcome_bind].
  rewrite Hc1, decide_True by done. rewrite decode_encode by done. split; [done|]. split; [done|].
  split; [apply (encode_sector h Hh)|]. intros m Hm. by rewrite Hc2, Hc1, decide_False.
Qed.

(** ** A 300-byte file in sectors 10, 20 and 30 of an empty disk *)
Definition demo_header : FileHeader := mkHeader 0 300 3 ([10; 20; 30] ++ replicate 26 0).
Lemma demo_header_wf : hdr_wf demo_header.
Proof.
  split; [by vm_compute|]. split; [by vm_compute|]. split; [by vm_compute|]. split; [done|].
  repeat constructor; by vm_compute.
Qed.
Lemma demo_file : file_at demo_disk demo_header [10; 20; 30] [].
Proof.
  constructor.
  - split; [apply demo_header_wf|]. split; [split; [by vm_compute|reflexivity]|].
    split; [done|]. split; [simpl; lia|done].
  - repeat constructor; by vm_compute.
  - apply (bool_decide_unpack _). by vm_compute.
Qed.

Lemma ReadAt_reads_witness : ∃ d', ReadAt 2 demo_header 50 260 demo_disk =
  Ok (take 50 (drop 260 (file_bytes demo_disk demo_header [10; 20; 30])), d').
Proof.
  destruct (ReadAt_reads 0 demo_disk demo_header [10; 20; 30] [] 50 260 demo_store_ok demo_file)
    as (d' & E & _); [lia|]. exists d'. exact E.
Defined.

Lemma WriteAt_writes_witness : ∃ d' d'',
  WriteAt (λ _, 9) 2 demo_header (replicate 100 5) 250 demo_disk = Ok (50, d') ∧
  ReadAt 2 demo_header 50 250 d' = Ok (replicate 50 5, d'').
Proof.
  destruct (WriteAt_writes (λ _, 9) 0 demo_disk demo_header [10; 20; 30] [] (replicate 100 5) 250)
    as (n & d' & E & _ & _ & Hn & _ & (d'' & E2) & _).
  - intros _. by vm_compute.
  - apply demo_store_ok.
  - apply demo_file.
  - apply Forall_replicate. by vm_compute.
  - lia.
  - assert (n = 50) as -> by (rewrite Hn; by vm_compute). exists d', d''. split; [exact E|exact E2].
Defined.

Lemma header_roundtrip_witness : ∃ d1 d2, WriteBack demo_disk demo_header 7 = Ok d1 ∧
  FetchFrom d1 7 = Ok (demo_header, d2).
Proof.
  destruct (header_roundtrip demo_disk demo_header 7 demo_store_ok demo_header_wf) as (d1 & d2 & E1 & E2 & _).
  - by vm_compute.
  - exists d1, d2. split; [exact E1|exact E2].
Defined.
