(* ===== verification/FileGrow.v ===== *)
(** * filesys/filehdr.cc: growing and freeing files

    [Extend] on a well-formed file with enough free sectors produces a
    well-formed longer file in every case: all blocks direct, a new undirected
    block, an undirected block that grows; [Deallocate] gives back exactly the
    sectors of the file. *)
From S2P Require Import Prelude BitMap Memory Disk FileHdr.

(** The free map of a disk on which the sectors [used] are taken. *)
Record fmap_ok (fm : BitMap) (used : list Z) : Prop := mkFmapOk {
  fm_wf : bm_wf fm;
  fm_bits : numBits fm = NumSectors;
  fm_used : ∀ s, s ∈ used → s ∉ free_set fm
}.

Section search.
Lemma fmap_range fm used s : fmap_ok fm used → s ∈ free_set fm → 0 ≤ s < NumSectors.
Proof. intros Hf [Hs _]%elem_of_free_set. by rewrite (fm_bits _ _ Hf) in Hs. Qed.

Lemma sector_i32 s : 0 ≤ s < NumSectors → is_i32 s.
Proof. intros Hs. change NumSectors with 1024 in Hs. unfold is_i32, two31. lia. Qed.

(** Taking [n] sectors off the free map. *)
Definition takes (fm fm' : BitMap) (new : list Z) : Prop :=
  bm_wf fm' ∧ numBits fm' = numBits fm ∧ NoDup new ∧
  (∀ s, s ∈ new → s ∈ free_set fm) ∧ free_set fm' = free_set fm ∖ list_to_set new.

Lemma takes_nil fm : bm_wf fm → takes fm fm [].
Proof. intros Hw. split_and!; try done; [constructor|set_solver|set_solver]. Qed.

Lemma takes_app fm1 fm2 fm3 l k : takes fm1 fm2 l → takes fm2 fm3 k → takes fm1 fm3 (l ++ k).
Proof.
  intros (H1 & H2 & H3 & H4 & H5) (K1 & K2 & K3 & K4 & K5). split_and!; try done; [congruence|..].
  - apply NoDup_app. split; [done|]. split; [|done]. intros s Hl Hk%K4. rewrite H5 in Hk. set_solver.
  - intros s [Hs|Hs%K4]%elem_of_app; [by apply H4|]. rewrite H5 in Hs. set_solver.
  - rewrite K5, H5, list_to_set_app_L. set_solver.
Qed.

Lemma takes_ok fm fm' new used : fmap_ok fm used → takes fm fm' new → fmap_ok fm' (used ++ new).
Proof.
  intros [H1 H2 H3] (K1 & K2 & K3 & K4 & K5). constructor; [done|congruence|].
  intros s [Hs%H3|Hs]%elem_of_app; rewrite K5; set_solver.
Qed.

Lemma takes_size fm fm' new : takes fm fm' new →
  size (free_set fm') = (size (free_set fm) - length new)%nat ∧
  (length new ≤ size (free_set fm))%nat.
Proof.
  intros (_ & _ & Hnd & Hin & E). assert (list_to_set new ⊆ free_set fm) as Hsub.
  { intros s. rewrite elem_of_list_to_set. apply Hin. }
  pose proof (subseteq_size _ _ Hsub) as Hle. rewrite size_list_to_set in Hle by done.
  rewrite E, size_difference, size_list_to_set by done. lia.
Qed.

Lemma Find_takes fm : bm_wf fm → (1 ≤ size (free_set fm))%nat →
  ∃ s fm', Find fm = Ok (s, fm') ∧ takes fm fm' [s] ∧ s ≠ -1.
Proof.
  intros Hw Hs. destruct (Find_spec fm Hw) as [[_ E]|(r & fm' & -> & Hin & Hr & _ & Hu & Hf)].
  { rewrite E, size_empty in Hs. lia. }
  exists r, fm'. split; [done|]. split; [|lia]. split_and!.
  - by eapply updates_wf.
  - by eapply updates_numBits.
  - apply NoDup_singleton.
  - intros s ->%list_elem_of_singleton. done.
  - rewrite Hf. set_solver.
Qed.

Lemma insert_at (ds : list Z) i s : (i < length ds)%nat →
  <[i := s]> ds = take i ds ++ s :: drop (S i) ds.
Proof. intros Hi. by apply insert_take_drop. Qed.

(** The allocation loop fills entries [i .. i + n - 1] with fresh sectors. *)
Lemma find_sectors_spec n i ds fm : bm_wf fm → (n ≤ size (free_set fm))%nat →
  (i + n ≤ length ds)%nat →
  ∃ new fm', find_sectors n (Z.of_nat i) ds fm =
      Ok (true, take i ds ++ new ++ drop (i + n) ds, fm') ∧
    length new = n ∧ takes fm fm' new.
Proof.
  revert i ds fm. induction n as [|n IH]; intros i ds fm Hw Hs Hi; cbn [find_sectors].
  { exists [], fm. rewrite Nat.add_0_r, app_nil_l, take_drop. split_and!; try done. by apply takes_nil. }
  destruct (Find_takes fm Hw) as (s & fm1 & -> & Ht & Hne); [lia|]. cbn [mbind outcome_bind].
  rewrite arr_set_in by lia. cbn [mbind outcome_bind]. rewrite (proj2 (Z.eqb_neq _ _) Hne).
  rewrite Nat2Z.id. replace (Z.of_nat i + 1) with (Z.of_nat (S i)) by lia.
  destruct (takes_size _ _ _ Ht) as [Hsz _]. simpl in Hsz.
  destruct (IH (S i) (<[i := s]> ds) fm1) as (new & fm' & -> & Hl & Ht2);
    [apply Ht|lia|rewrite length_insert; lia|].
  exists (s :: new), fm'. split; [|split; [simpl; lia|by apply (takes_app fm fm1 fm' [s] new)]].
  do 2 f_equal. f_equal. rewrite insert_at by lia.
  assert (length (take i ds) = i) as Hti by (rewrite length_take; lia).
  rewrite take_app_ge by lia. rewrite Hti. replace (S i - i)%nat with 1%nat by lia. cbn [take].
  rewrite drop_app_ge by lia. rewrite Hti. replace (S i + n - i)%nat with (S n) by lia. cbn [drop].
  rewrite drop_drop. rewrite <- app_assoc. simpl. do 3 f_equal. f_equal. lia.
Qed.
End search.

Section numbers.
Context {D : Type} `{SectorStore D}.
Variable fill : nat → Z.
Hypothesis fill_bytes : ∀ k, is_u8 (fill k).
Implicit Types (d : D) (uh : FileHeader) (isecs : list Z).

Lemma write_numbers_spec fuel n a uh isecs fm d L : store_ok d → direct uh isecs →
  in_disk isecs → NoDup isecs → numBytes uh = 4 * Z.of_nat L → (a + n ≤ L)%nat →
  bm_wf fm → (n ≤ size (free_set fm))%nat →
  ∃ new fm' d', write_numbers fill (S fuel) n (mkOpenFile uh (4 * Z.of_nat a)) fm d =
      Ok (true, fm', d') ∧
    length new = n ∧ takes fm fm' new ∧ store_ok d' ∧
    (∀ m, m ∉ isecs → content d' m = content d m) ∧
    (∀ k, file_bytes d' uh isecs !! k =
       if decide (4 * a ≤ k < 4 * (a + n))%nat then encode_ints new !! (k - 4 * a)%nat
       else file_bytes d uh isecs !! k).
Proof.
  intros Hd Hdir Hdk Hnd HL. revert a fm d Hd. induction n as [|n IH]; intros a fm d Hd Ha Hw Hs; cbn [write_numbers].
  { exists [], fm, d. split_and!; try done; [by apply takes_nil|]. intros k. by rewrite decide_False by lia. }
  destruct (Find_takes fm Hw) as (s & fm1 & -> & Ht & Hne); [lia|]. cbn [mbind outcome_bind].
  rewrite (proj2 (Z.eqb_neq _ _) Hne). unfold Write, WriteAt. cbn [hdr seekPosition].
  destruct (WriteAt_with_spec fill (ByteToSector (S fuel)) fill_bytes uh (le32 s) (4 * Z.of_nat a) d d isecs [])
    as (m & d1 & -> & Hd1 & Hm & Hb & Ho); try done;
    [by apply direct_finds|apply Hdir|set_solver|apply le32_bytes|lia|].
  cbn [mbind outcome_bind]. rewrite le32_length in Hm.
  assert (m = 4) as -> by lia. unfold Seek. cbn [hdr seekPosition].
  replace (4 * Z.of_nat a + 4) with (4 * Z.of_nat (S a)) by lia.
  destruct (takes_size _ _ _ Ht) as [Hsz _]. simpl in Hsz.
  destruct (IH (S a) fm1 d1 Hd1) as (new & fm' & d' & -> & Hl & Ht2 & Hd' & Ho' & Hb'); [lia|apply Ht|lia|].
  exists (s :: new), fm', d'. split; [done|]. split; [simpl; lia|].
  split; [by apply (takes_app fm fm1 fm' [s] new)|]. split; [done|].
  split; [intros x Hx; by rewrite Ho', Ho|].
  intros k. rewrite Hb', Hb. change (encode_ints (s :: new)) with (le32 s ++ encode_ints new).
  case_decide as C1; case_decide as C2; try case_decide; try lia; [| |done].
  - rewrite lookup_app_r by (rewrite le32_length; lia). rewrite le32_length. f_equal. lia.
  - rewrite lookup_app_l by (rewrite le32_length; lia). f_equal. lia.
Qed.

(** The old numbers stay in front of the new ones. *)
Lemma grown_bytes d d2 d' uh uh' isecs newi old new n : store_ok d → store_ok d' → store_ok d2 →
  direct uh isecs → direct uh' (isecs ++ newi) →
  numBytes uh = 4 * Z.of_nat (length old) → numBytes uh' = 4 * Z.of_nat (length old + n) →
  length new = n → file_bytes d uh isecs = encode_ints old →
  (∀ m, m ∈ isecs → content d2 m = content d m) →
  (∀ k, file_bytes d' uh' (isecs ++ newi) !! k =
     if decide (4 * length old ≤ k < 4 * (length old + n))%nat
     then encode_ints new !! (k - 4 * length old)%nat
     else file_bytes d2 uh' (isecs ++ newi) !! k) →
  file_bytes d' uh' (isecs ++ newi) = encode_ints (old ++ new).
Proof.
  intros Hd Hd' Hd2 Hdir Hdir' Hnb Hnb' Hln Hold Hc Hb. apply list_eq. intros k. rewrite Hb.
  rewrite encode_ints_app. pose proof (encode_ints_length old) as Hlo.
  pose proof (encode_ints_length new) as Hlnew.
  case_decide as C; [rewrite lookup_app_r by lia; by rewrite Hlo|].
  destruct (decide (k < 4 * length old)%nat) as [Hk|Hk].
  - rewrite lookup_app_l, <- Hold by lia. unfold file_bytes.
    destruct (sized_blocks d uh isecs Hd) as [Hbl _]; [apply Hdir|].
    rewrite !lookup_take_lt by lia. unfold block_bytes. rewrite fmap_app, concat_app.
    assert (concat (content d2 <$> isecs) = block_bytes d isecs) as ->.
    { unfold block_bytes. f_equal. apply list_fmap_ext. intros j x Hj. apply Hc.
      by eapply list_elem_of_lookup_2. }
    rewrite lookup_app_l by lia. done.
  - destruct (sized_blocks d2 uh' (isecs ++ newi) Hd2) as [_ Hfl]; [apply Hdir'|].
    rewrite lookup_ge_None_2 by lia. rewrite lookup_ge_None_2; [done|]. rewrite length_app. lia.
Qed.

(** A header with all its blocks direct, after [newi] were added. *)
Lemma grown_direct h secs newi fm fm1 used bytes : direct h secs → fmap_ok fm used →
  takes fm fm1 newi → 0 ≤ bytes →
  let total := divRoundUp bytes SectorSize in
  total ≤ 28 → length newi = Z.to_nat (total - Z.of_nat (length secs)) →
  Z.of_nat (length secs) ≤ total →
  direct (mkHeader (ftype h) bytes total
    (secs ++ newi ++ drop (length secs + Z.to_nat (total - Z.of_nat (length secs))) (dataSectors h)))
    (secs ++ newi).
Proof.
  intros (Hwf & _ & Hns & H28 & Htake) Hfm Ht Hb0 total Htot Hln Hmono.
  destruct Hwf as (W1 & W2 & W3 & W4 & W5). change (Z.to_nat NumDirect) with 29%nat in W4.
  pose proof (divRoundUp_spec bytes SectorSize Hb0 eq_refl) as Hx. fold total in Hx.
  unfold SectorSize in Hx. split; [|split; [|split; [|split]]].
  - split; [done|]. cbn [numBytes numSectors dataSectors].
    split; [unfold is_i32, two31; lia|]. split; [unfold is_i32, two31; lia|]. split.
    + rewrite !length_app, length_drop. change (Z.to_nat NumDirect) with 29%nat. lia.
    + rewrite <- Htake at 1. apply Forall_app. split; [by apply Forall_take|]. apply Forall_app.
      split; [|by apply Forall_drop]. apply Forall_forall. intros s Hs.
      destruct Ht as (_ & _ & _ & Hin & _). apply sector_i32, (fmap_range fm used); [done|by apply Hin].
  - split; [simpl; lia|]. rewrite length_app, Hln. cbn [numBytes]. fold total. lia.
  - cbn [numSectors]. rewrite length_app, Hln. lia.
  - rewrite length_app, Hln. lia.
  - cbn [dataSectors]. rewrite app_assoc. by rewrite take_app_length.
Qed.

(** The undirected block after an extension by [n] numbers. *)
Lemma extend_undirected_spec fuel uh isecs ind old n fm d used :
  store_ok d → direct uh isecs → in_disk isecs → NoDup isecs →
  numBytes uh = 4 * Z.of_nat (length old) → file_bytes d uh isecs = encode_ints old →
  0 ≤ ind < NumSectors → ind ∉ isecs → fmap_ok fm used → ind ∈ used →
  (∀ s, s ∈ isecs → s ∈ used) → (0 < n)%nat →
  divRoundUp (4 * Z.of_nat (length old + n)) SectorSize ≤ 28 →
  Z.of_nat n + divRoundUp (4 * Z.of_nat (length old + n)) SectorSize - Z.of_nat (length isecs)
    ≤ Z.of_nat (size (free_set fm)) →
  ∃ uh' newi new fm' d', extend_undirected fill (S fuel) uh ind fm (Z.of_nat n) d = Ok (true, fm', d') ∧
    store_ok d' ∧ takes fm fm' (newi ++ new) ∧ length new = n ∧
    content d' ind = encode uh' ∧ direct uh' (isecs ++ newi) ∧
    numBytes uh' = 4 * Z.of_nat (length (old ++ new)) ∧
    file_bytes d' uh' (isecs ++ newi) = encode_ints (old ++ new) ∧
    (∀ m, m ≠ ind → m ∉ isecs ++ newi → content d' m = content d m).
Proof.
  intros Hd Hdir Hdk Hnd Hnb Hbytes Hind Hindi Hfm Hindu Hiu Hn0 Htot Hfree.
  set (total := divRoundUp (4 * Z.of_nat (length old + n)) SectorSize) in *.
  pose proof Hdir as (Hwf & [_ Hsz] & Hns & H28 & Htake).
  assert (Z.of_nat (length isecs) ≤ total) as Hmono.
  { rewrite Hsz. unfold total. apply divRoundUp_mono; [lia|done]. }
  unfold extend_undirected, ExtendUndirectedBlock.
  replace (numBytes uh + Z.of_nat n * 4) with (4 * Z.of_nat (length old + n)) by lia. fold total.
  unfold NumDirect at 1. rewrite (proj2 (Z.ltb_ge _ _)) by lia. rewrite Hns.
  pose proof (proj1 (proj2 (proj2 (proj2 Hwf)))) as Hl29. change (Z.to_nat NumDirect) with 29%nat in Hl29.
  destruct (find_sectors_spec (Z.to_nat (total - Z.of_nat (length isecs))) (length isecs) (dataSectors uh) fm
    (fm_wf _ _ Hfm)) as (newi & fm1 & -> & Hln & Ht); [lia|lia|]. cbn [mbind outcome_bind negb].
  rewrite Htake.
  set (uh' := mkHeader (ftype uh) (4 * Z.of_nat (length old + n)) total _).
  pose proof (grown_direct uh isecs newi fm fm1 used (4 * Z.of_nat (length old + n))
    Hdir Hfm Ht ltac:(lia) Htot Hln Hmono) as Hdir'. cbv zeta in Hdir'. fold total uh' in Hdir'.
  assert (hdr_wf uh') as Hwf' by apply Hdir'.
  unfold WriteBack. destruct (swrite_law d ind (encode uh') Hd Hind (encode_sector uh' Hwf')) as (d1 & -> & Hd1 & Hc1).
  cbn [mbind outcome_bind]. unfold OpenFile_new, FetchFrom.
  destruct (sread_law d1 ind Hd1 Hind) as (d2 & -> & Hd2 & Hc2). cbn [mbind outcome_bind].
  rewrite Hc1, decide_True, decode_encode by done. cbn [mbind outcome_bind].
  unfold Length, FileLength, Seek. cbn [hdr].
  replace (numBytes uh' - Z.of_nat n * 4) with (4 * Z.of_nat (length old)) by (simpl; lia).
  rewrite Nat2Z.id. destruct (takes_size _ _ _ Ht) as [Hszf _].
  pose proof Ht as (Hwf1 & _ & Hndi & Hini & _).
  assert (NoDup (isecs ++ newi) ∧ in_disk (isecs ++ newi) ∧ ind ∉ isecs ++ newi) as (Hnd2 & Hdk2 & Hind2).
  { split; [|split].
    - apply NoDup_app. split; [done|]. split; [|done]. intros s Hs Hs2%Hini.
      by apply (fm_used _ _ Hfm s); [apply Hiu|].
    - apply Forall_app. split; [done|]. apply Forall_forall. intros s Hs.
      apply (fmap_range fm used); [done|by apply Hini].
    - rewrite not_elem_of_app. split; [done|]. intros Hs%Hini. by apply (fm_used _ _ Hfm ind). }
  destruct (write_numbers_spec fuel n (length old) uh' (isecs ++ newi) fm1 d2 (length old + n))
    as (new & fm' & d' & -> & Hlnew & Ht2 & Hd' & Ho & Hb); try done; [lia|].
  exists uh', newi, new, fm', d'. split; [done|]. split; [done|].
  split; [by apply (takes_app fm fm1 fm')|]. split; [done|].
  split; [by rewrite Ho, Hc2, Hc1, decide_True|]. split; [done|].
  split; [rewrite length_app; simpl; lia|]. split; [|intros m Hm Hm2; by rewrite Ho, Hc2, Hc1, decide_False].
  apply (grown_bytes d d2 d' uh uh' isecs newi old new n); try done.
  intros m Hm. rewrite Hc2, Hc1, decide_False; [done|]. intros ->. done.
Qed.
End numbers.

Section extend.
Context {D : Type} `{SectorStore D}.
Variable junk : list Z.
Variable fill : nat → Z.
Hypothesis fill_bytes : ∀ k, is_u8 (fill k).
Hypothesis junk_ok : length junk = 29%nat ∧ Forall is_i32 junk.
Implicit Types (d : D) (h : FileHeader) (secs meta : list Z).

(** Sectors of the undirected block of a file of [total] blocks. *)
Definition meta_need (total : Z) : Z :=
  if total <=? 28 then 0 else 1 + divRoundUp (4 * (total - 28)) SectorSize.

(** What a successful [Extend] by [newSize] bytes leaves. *)
Definition extended d h secs meta fm newSize h' fm' d' : Prop :=
  ∃ new newm, store_ok d' ∧ file_at d' h' (secs ++ new) (meta ++ newm) ∧
    numBytes h' = numBytes h + newSize ∧ ftype h' = ftype h ∧
    takes fm fm' (new ++ newm) ∧ (∀ m, m ∉ meta ++ newm → content d' m = content d m).

Lemma takes_perm fm fm' l k : l ≡ₚ k → takes fm fm' l → takes fm fm' k.
Proof.
  intros Hp (H1 & H2 & H3 & H4 & H5). split_and!; try done.
  - by rewrite <- Hp.
  - intros s. rewrite <- Hp. apply H4.
  - rewrite H5. apply set_eq. intros s. rewrite !elem_of_difference, !elem_of_list_to_set. by rewrite Hp.
Qed.

Lemma takes_disk fm fm' l used : fmap_ok fm used → takes fm fm' l →
  in_disk l ∧ NoDup l ∧ ∀ s, s ∈ l → s ∉ used.
Proof.
  intros Hf (_ & _ & Hnd & Hin & _). split; [|split; [done|]].
  - apply Forall_forall. intros s Hs%Hin. by apply (fmap_range fm used).
  - intros s Hs%Hin Hu. by apply (fm_used _ _ Hf s).
Qed.

Lemma NoDup_fresh (l k : list Z) : NoDup l → NoDup k → (∀ s, s ∈ k → s ∉ l) → NoDup (l ++ k).
Proof. intros H1 H2 H3. apply NoDup_app. split; [done|]. split; [|done]. intros s Hs Hk. by apply (H3 s). Qed.

(** All blocks stay direct. *)
Lemma Extend_direct fuel d h secs fm newSize : store_ok d → direct h secs → in_disk secs → NoDup secs →
  fmap_ok fm secs → 0 ≤ newSize →
  let total := divRoundUp (numBytes h + newSize) SectorSize in
  total ≤ 28 → total - Z.of_nat (length secs) ≤ Z.of_nat (size (free_set fm)) →
  ∃ h' fm', Extend junk fill fuel h fm newSize d = Ok (true, h', fm', d) ∧
    extended d h secs [] fm newSize h' fm' d.
Proof.
  intros Hd Hdir Hdk Hnd Hfm Hns total Htot Hfree. pose proof Hdir as (Hwf & [Hb0 Hsz] & Hn & H28 & Htake).
  pose proof (divRoundUp_spec (numBytes h + newSize) SectorSize ltac:(lia) eq_refl) as Hx. fold total in Hx.
  unfold SectorSize in Hx.
  assert (Z.of_nat (length secs) ≤ total) as Hmono
    by (rewrite Hsz; apply divRoundUp_mono; [lia|done]).
  unfold Extend. rewrite i32_id by (unfold is_i32, two31; lia). fold total.
  change (NumDirect - 1) with 28. rewrite Z.min_l, Hn by lia.
  pose proof (proj1 (proj2 (proj2 (proj2 Hwf)))) as Hl29. change (Z.to_nat NumDirect) with 29%nat in Hl29.
  destruct (find_sectors_spec (Z.to_nat (total - Z.of_nat (length secs))) (length secs) (dataSectors h) fm
    (fm_wf _ _ Hfm)) as (new & fm1 & -> & Hln & Ht); [lia|lia|]. cbn [mbind outcome_bind negb].
  rewrite (proj2 (Z.ltb_ge _ _)) by lia. rewrite Htake. eexists _, fm1. split; [reflexivity|].
  exists new, []. split; [done|]. rewrite !app_nil_r.
  destruct (takes_disk fm fm1 new secs Hfm Ht) as (Hdk2 & Hnd2 & Hdis).
  split; [|split; [done|split; [done|split; [exact Ht|done]]]]. constructor.
  - exact (grown_direct h secs new fm fm1 secs (numBytes h + newSize) Hdir Hfm Ht ltac:(lia) Htot Hln Hmono).
  - by apply Forall_app.
  - by apply NoDup_fresh.
Qed.

Lemma app_cons_snoc (l k m : list Z) x : (l ++ k) ++ x :: m ≡ₚ (l ++ m) ++ x :: k.
Proof. solve_Permutation. Qed.

Lemma list29 (l : list Z) : length l = 29%nat → ∃ l28 x, l = l28 ++ [x] ∧ length l28 = 28%nat.
Proof.
  intros Hl. destruct l as [|x l _] using rev_ind; [done|]. rewrite length_app in Hl. simpl in Hl.
  exists l, x. split; [done|lia].
Qed.

(** A new undirected block becomes necessary. *)
Lemma Extend_new fuel d h secs fm newSize : store_ok d → direct h secs → in_disk secs → NoDup secs →
  fmap_ok fm secs → 0 ≤ newSize →
  let total := divRoundUp (numBytes h + newSize) SectorSize in
  28 < total ≤ 924 →
  total - Z.of_nat (length secs) + meta_need total ≤ Z.of_nat (size (free_set fm)) →
  ∃ h' fm' d', Extend junk fill (S fuel) h fm newSize d = Ok (true, h', fm', d') ∧
    extended d h secs [] fm newSize h' fm' d'.
Proof.
  intros Hd Hdir Hdk Hnd Hfm Hns total Htot Hfree. pose proof Hdir as (Hwf & [Hb0 Hsz] & Hn & H28 & Htake).
  unfold meta_need in Hfree. rewrite (proj2 (Z.leb_gt _ _)) in Hfree by lia.
  pose proof (divRoundUp_spec (4 * (total - 28)) SectorSize ltac:(lia) eq_refl) as Hy.
  unfold SectorSize in Hy, Hfree.
  pose proof (divRoundUp_spec (numBytes h + newSize) SectorSize ltac:(lia) eq_refl) as Hx. fold total in Hx.
  unfold SectorSize in Hx.
  assert (is_i32 (numBytes h + newSize)) as Hi32 by (unfold is_i32, two31; lia).
  unfold Extend. rewrite i32_id by done. fold total.
  change (NumDirect - 1) with 28. rewrite Z.min_r, Hn by lia.
  pose proof Hwf as (W1 & W2 & W3 & Hl29 & W5). change (Z.to_nat NumDirect) with 29%nat in Hl29.
  destruct (find_sectors_spec (Z.to_nat (28 - Z.of_nat (length secs))) (length secs) (dataSectors h) fm
    (fm_wf _ _ Hfm)) as (new1 & fm1 & -> & Hln & Ht1); [lia|lia|]. cbn [mbind outcome_bind negb].
  rewrite (proj2 (Z.ltb_lt _ total)) by lia. rewrite (proj2 (Z.ltb_ge 28 _)) by lia. rewrite Htake.
  destruct (takes_size _ _ _ Ht1) as [Hsz1 _].
  destruct (Find_takes fm1) as (ind & fm2 & -> & Ht2 & Hne); [apply Ht1|lia|].
  cbn [mbind outcome_bind].
  set (first28 := secs ++ new1).
  assert (length first28 = 28%nat) as Hf28 by (subst first28; rewrite length_app; lia).
  set (rest := drop (length secs + Z.to_nat (28 - Z.of_nat (length secs))) (dataSectors h)).
  assert (∃ z, rest = [z]) as [z Ez].
  { assert (length rest = 1%nat) as Hr by (subst rest; rewrite length_drop; lia).
    destruct rest as [|z [|]]; [done|by exists z|done]. }
  replace (secs ++ new1 ++ rest) with (first28 ++ [z]) by (subst first28; by rewrite Ez, app_assoc).
  rewrite arr_set_in by (rewrite length_app, Hf28; simpl; lia). cbn [mbind outcome_bind].
  rewrite insert_app_r_alt by lia. rewrite Hf28. change (Z.to_nat 28 - 28)%nat with 0%nat. cbn [insert list_insert].
  rewrite (proj2 (Z.eqb_neq _ _) Hne). cbn [negb].
  rewrite (proj2 (arr_get_Ok (first28 ++ [ind]) 28 ind)) by (split; [lia|rewrite lookup_app_r, Hf28 by lia; done]).
  cbn [mbind outcome_bind].
  (* the empty undirected block *)
  set (uh := mkHeader DATA_FILE 0 0 junk).
  assert (direct uh []) as Hduh.
  { destruct junk_ok as [J1 J2].
    split; [|split; [split; [by vm_compute|reflexivity]|split; [done|split; [simpl; lia|done]]]].
    split; [by vm_compute|]. split; [by vm_compute|]. split; [by vm_compute|]. by split. }
  pose proof (takes_app _ _ _ _ _ Ht1 Ht2) as Ht12.
  pose proof (takes_ok _ _ _ _ Hfm Ht12) as Hfm2. pose proof (takes_disk _ _ _ _ Hfm Ht12) as (Hdk12 & Hnd12 & Hdis12).
  destruct (takes_size _ _ _ Ht2) as [Hsz2 _]. cbn [length] in Hsz2.
  assert (0 ≤ ind < NumSectors) as Hind by (unfold in_disk in Hdk12; rewrite Forall_forall in Hdk12; apply Hdk12; set_solver).
  replace (total - Z.of_nat (length secs) - Z.of_nat (Z.to_nat (28 - Z.of_nat (length secs))))
    with (Z.of_nat (Z.to_nat (total - 28))) by lia.
  destruct (extend_undirected_spec fill fill_bytes fuel uh [] ind [] (Z.to_nat (total - 28)) fm2 d (secs ++ new1 ++ [ind]))
    as (uh' & newi & more & fm' & d' & -> & Hd' & Ht3 & Hlm & Hci & Hdu' & Hnbu & Hbytes & Hother); try done.
  { constructor. } { constructor. } { set_solver. } { set_solver. } { set_solver. } { lia. }
  { cbn [length]. replace (4 * Z.of_nat (0 + Z.to_nat (total - 28))) with (4 * (total - 28)) by lia.
    unfold SectorSize. lia. }
  { cbn [length]. replace (4 * Z.of_nat (0 + Z.to_nat (total - 28))) with (4 * (total - 28)) by lia.
    unfold SectorSize. lia. }
  cbn [mbind outcome_bind negb]. eexists _, fm', d'. split; [reflexivity|].
  pose proof (takes_app _ _ _ _ _ Ht12 Ht3) as Hall.
  assert ((new1 ++ [ind]) ++ newi ++ more ≡ₚ (new1 ++ more) ++ ind :: newi) as Hperm by solve_Permutation.
  apply (takes_perm _ _ _ _ Hperm) in Hall.
  pose proof (takes_disk _ _ _ _ Hfm Hall) as (Hdka & Hnda & Hdisa).
  exists (new1 ++ more), (ind :: newi). split; [done|]. split; [|split; [done|split; [done|split; [exact Hall|]]]].
  2: { intros m Hm. cbn [app] in Hm. apply not_elem_of_cons in Hm as [Hm1 Hm2]. by apply Hother. }
  assert (numSectors_eq : Z.of_nat (length (first28 ++ more)) = total) by (rewrite length_app; lia).
  rewrite app_assoc. fold first28. cbn [app].
  assert (in_disk ((first28 ++ more) ++ ind :: newi) ∧ NoDup ((first28 ++ more) ++ ind :: newi)) as [Hdf Hndf].
  { subst first28. rewrite <- app_assoc, <- app_assoc, (app_assoc new1).
    split; [by apply Forall_app|by apply NoDup_fresh]. }
  refine (file_indirect d' _ first28 more ind uh' newi _ _ _ Hf28 _ _ _ Hdu' _ Hbytes _ Hdf Hndf).
  - split; [done|]. split; [done|]. split; [unfold is_i32, two31; simpl; lia|]. split.
    + cbn [dataSectors]. rewrite length_app, Hf28. done.
    + cbn [dataSectors]. subst first28. rewrite <- Htake. rewrite <- app_assoc. apply Forall_app. split; [by apply Forall_take|].
      eapply Forall_impl; [exact Hdk12|]. apply sector_i32.
  - split; [simpl; lia|]. cbn [numBytes]. fold total. done.
  - cbn [numSectors]. by rewrite numSectors_eq.
  - intros ->. cbn in Hlm. lia.
  - reflexivity.
  - rewrite Hci. apply decode_encode, Hdu'.
  - by rewrite Hnbu.
  - apply Forall_app in Hdka as [Hdka _]. apply Forall_app in Hdka as [_ Hdka].
    eapply Forall_impl; [exact Hdka|]. apply sector_i32.
Qed.

(** The undirected block is there already. *)
Lemma Extend_old fuel d h first28 more ind ih isecs fm newSize :
  store_ok d → file_at d h (first28 ++ more) (ind :: isecs) →
  hdr_wf h → sized h (first28 ++ more) → numSectors h = Z.of_nat (length (first28 ++ more)) →
  length first28 = 28%nat → more ≠ [] → dataSectors h = first28 ++ [ind] →
  decode (content d ind) = Ok ih → direct ih isecs →
  numBytes ih = 4 * Z.of_nat (length more) → file_bytes d ih isecs = encode_ints more →
  Forall is_i32 more →
  in_disk ((first28 ++ more) ++ ind :: isecs) → NoDup ((first28 ++ more) ++ ind :: isecs) →
  fmap_ok fm ((first28 ++ more) ++ ind :: isecs) → 0 ≤ newSize →
  let total := divRoundUp (numBytes h + newSize) SectorSize in
  total ≤ 924 →
  total - Z.of_nat (length (first28 ++ more)) + meta_need total - Z.of_nat (length (ind :: isecs))
    ≤ Z.of_nat (size (free_set fm)) →
  ∃ h' fm' d', Extend junk fill (S fuel) h fm newSize d = Ok (true, h', fm', d') ∧
    extended d h (first28 ++ more) (ind :: isecs) fm newSize h' fm' d'.
Proof.
  intros Hd Hfile Hwf [Hb0 Hsz] Hn Hf28 Hmore Hds Hdec Hdih Hib Hbytes Hi32 Hdk Hnd Hfm Hns total Htot Hfree.
  pose proof (divRoundUp_spec (numBytes h + newSize) SectorSize ltac:(lia) eq_refl) as Hx. fold total in Hx.
  unfold SectorSize in Hx.
  assert (Z.of_nat (length (first28 ++ more)) ≤ total) as Hmono
    by (rewrite Hsz; apply divRoundUp_mono; [lia|done]).
  assert (0 < length more)%nat as Hm0 by (destruct more; [done|simpl; lia]).
  rewrite length_app, Hf28 in *.
  assert (is_i32 (numBytes h + newSize)) as Hib32 by (unfold is_i32, two31; lia).
  assert (hdr_wf (mkHeader (ftype h) (numBytes h + newSize) total (dataSectors h))) as Hwf'.
  { destruct Hwf as (W1 & _ & _ & W4 & W5). split_and!; try done; unfold is_i32, two31; simpl; lia. }
  unfold Extend. rewrite i32_id by done. fold total. change (NumDirect - 1) with 28.
  rewrite Z.min_r, Hn by lia.
  replace (Z.to_nat (28 - Z.of_nat (28 + length more))) with 0%nat by lia.
  cbn [find_sectors mbind outcome_bind negb]. rewrite Z.add_0_r.
  destruct (Z.ltb_spec (Z.of_nat (28 + length more)) total) as [Hlt|Hge].
  2: { eexists _, fm, d. split; [reflexivity|]. exists [], []. rewrite !app_nil_r. split; [done|].
       split; [|split; [done|split; [done|split; [apply takes_nil, Hfm|done]]]].
       refine (file_indirect d _ first28 more ind ih isecs Hwf' _ _ Hf28 Hmore Hds Hdec Hdih Hib Hbytes Hi32 Hdk Hnd);
         [split; [simpl; lia|]|]; cbn [numBytes numSectors]; rewrite length_app, Hf28; fold total; lia. }
  rewrite (proj2 (Z.ltb_lt 28 _)) by lia. unfold meta_need in Hfree.
  rewrite (proj2 (Z.leb_gt _ _)) in Hfree by lia. cbn [length] in Hfree.
  assert (arr_get (first28 ++ [ind]) 28 = Ok ind) as Hget
    by (apply arr_get_Ok; split; [lia|rewrite lookup_app_r, Hf28 by lia; done]).
  rewrite Hds, Hget. cbn [mbind outcome_bind]. unfold FetchFrom.
  pose proof Hdk as [_ [Hind Hdki]%Forall_cons]%Forall_app.
  pose proof Hnd as (_ & _ & [Hindi Hndi]%NoDup_cons)%NoDup_app.
  destruct (sread_law d ind Hd Hind) as (d1 & -> & Hd1 & Hc1). cbn [mbind outcome_bind].
  rewrite Hdec. cbn [mbind outcome_bind negb]. rewrite Hget. cbn [mbind outcome_bind].
  set (n := Z.to_nat (total - Z.of_nat (28 + length more))).
  replace (total - Z.of_nat (28 + length more)) with (Z.of_nat n) by lia.
  assert (4 * Z.of_nat (length more + n) = 4 * (total - 28)) as E4 by lia.
  pose proof (divRoundUp_spec (4 * (total - 28)) SectorSize ltac:(lia) eq_refl) as Hy.
  unfold SectorSize in Hy, Hfree.
  destruct (extend_undirected_spec fill fill_bytes fuel ih isecs ind more n fm d1 ((first28 ++ more) ++ ind :: isecs))
    as (uh' & newi & new & fm' & d' & -> & Hd' & Ht & Hlm & Hci & Hdu' & Hnbu & Hbytes' & Hother); try done.
  { rewrite <- Hbytes. unfold file_bytes. by rewrite (same_blocks d d1). }
  { set_solver. } { set_solver. } { lia. }
  { rewrite E4. unfold SectorSize. lia. } { rewrite E4. unfold SectorSize. lia. }
  cbn [mbind outcome_bind negb]. eexists _, fm', d'. split; [reflexivity|].
  apply (takes_perm _ _ _ (new ++ newi)) in Ht; [|solve_Permutation].
  pose proof (takes_disk _ _ _ _ Hfm Ht) as (Hdka & Hnda & Hdisa).
  exists new, newi. split; [done|]. split; [|split; [done|split; [done|split; [exact Ht|]]]].
  2: { intros m Hm. cbn [app] in Hm. apply not_elem_of_cons in Hm as [Hm1 Hm2].
       rewrite Hother by done. apply Hc1. }
  rewrite <- app_assoc. cbn [app].
  assert (((first28 ++ more) ++ ind :: isecs) ++ new ++ newi ≡ₚ
    (first28 ++ more ++ new) ++ ind :: isecs ++ newi) as Hperm by solve_Permutation.
  assert (in_disk ((first28 ++ more ++ new) ++ ind :: isecs ++ newi) ∧
    NoDup ((first28 ++ more ++ new) ++ ind :: isecs ++ newi)) as [Hdf Hndf].
  { unfold in_disk. rewrite <- Hperm. split; [by apply Forall_app|by apply NoDup_fresh]. }
  rewrite <- Hds.
  refine (file_indirect d' _ first28 (more ++ new) ind uh' (isecs ++ newi) Hwf' _ _ Hf28 _ Hds _ Hdu' Hnbu Hbytes' _ Hdf Hndf).
  - split; [simpl; lia|]. cbn [numBytes]. fold total. rewrite !length_app, Hf28. lia.
  - cbn [numSectors]. rewrite !length_app, Hf28. lia.
  - by destruct more.
  - rewrite Hci. apply decode_encode, Hdu'.
  - apply Forall_app. split; [done|]. apply Forall_app in Hdka as [Hdka _].
    eapply Forall_impl; [exact Hdka|]. apply sector_i32.
Qed.

Lemma Extend_spec fuel d h secs meta fm newSize : store_ok d → file_at d h secs meta →
  fmap_ok fm (secs ++ meta) → 0 ≤ newSize →
  let total := divRoundUp (numBytes h + newSize) SectorSize in
  total ≤ 924 →
  total - Z.of_nat (length secs) + meta_need total - Z.of_nat (length meta)
    ≤ Z.of_nat (size (free_set fm)) →
  ∃ h' fm' d', Extend junk fill (S fuel) h fm newSize d = Ok (true, h', fm', d') ∧
    extended d h secs meta fm newSize h' fm' d'.
Proof.
  intros Hd Hf Hfm Hns total Htot Hfree. pose proof Hf as Hfile.
  destruct Hf as [secs Hdir Hdk Hnd|first28 more ind ih isecs].
  - rewrite app_nil_r in Hfm. cbn [length] in Hfree.
    destruct (decide (total ≤ 28)) as [Hle|Hgt].
    + unfold meta_need in Hfree. rewrite (proj2 (Z.leb_le _ _) Hle) in Hfree.
      destruct (Extend_direct (S fuel) d h secs fm newSize) as (h' & fm' & E & He); try done; [lia|].
      by exists h', fm', d.
    + apply Extend_new; try done; fold total; lia.
  - by apply (Extend_old fuel d h first28 more ind ih isecs).
Qed.
End extend.

Lemma meta_need_nonneg total : 0 ≤ meta_need total.
Proof.
  unfold meta_need. destruct (Z.leb_spec total 28); [done|].
  pose proof (divRoundUp_spec (4 * (total - 28)) SectorSize ltac:(lia) ltac:(done)).
  unfold SectorSize in *. lia.
Qed.

(** ** Freeing a file *)
Section free.
Context {D : Type} `{SectorStore D}.
Variable fill : nat → Z.
Implicit Types (d : D) (h : FileHeader) (secs meta : list Z).

(** [l] was marked and is now free. *)
Definition gives (fm fm' : BitMap) (l : list Z) : Prop :=
  bm_wf fm' ∧ numBits fm' = numBits fm ∧ free_set fm' = list_to_set l ∪ free_set fm.

Lemma clear_marked_spec fm s : bm_wf fm → 0 ≤ s < numBits fm → s ∉ free_set fm →
  ∃ fm', clear_marked fm s = Ok fm' ∧ gives fm fm' [s].
Proof.
  intros Hw Hs Hn. unfold clear_marked. rewrite Test_spec by done.
  assert (bit fm s = true) as ->.
  { destruct (bit fm s) eqn:E; [done|]. exfalso. apply Hn. by apply elem_of_free_set. }
  cbn [mbind outcome_bind ASSERT]. destruct (Clear_spec fm s Hw Hs) as (fm' & -> & Hu).
  exists fm'. split; [done|]. split; [by eapply updates_wf|]. split; [by eapply updates_numBits|].
  rewrite (updates_clear_free fm fm' s Hs Hu). set_solver.
Qed.

Lemma gives_app fm1 fm2 fm3 l k : gives fm1 fm2 l → gives fm2 fm3 k → gives fm1 fm3 (l ++ k).
Proof.
  intros (H1 & H2 & H3) (K1 & K2 & K3). split; [done|]. split; [congruence|].
  rewrite K3, H3, list_to_set_app_L. set_solver.
Qed.

(** The sectors [l] are taken, on a free map of the whole disk. *)
Definition taken (fm : BitMap) (l : list Z) : Prop :=
  bm_wf fm ∧ numBits fm = NumSectors ∧ NoDup l ∧ in_disk l ∧ ∀ s, s ∈ l → s ∉ free_set fm.

Lemma taken_step fm fm' s l : taken fm (s :: l) → gives fm fm' [s] → taken fm' l.
Proof.
  intros (H1 & H2 & [Hs Hnd]%NoDup_cons & [_ Hdk]%Forall_cons & H5) (K1 & K2 & K3).
  split; [done|]. split; [congruence|]. split; [done|]. split; [done|].
  intros x Hx. rewrite K3. assert (x ∉ free_set fm) by (apply H5; by right).
  assert (x ≠ s) by (intros ->; done). set_solver.
Qed.

Lemma clear_sectors_spec n i ds fm l rest : taken fm (l ++ rest) → length l = n →
  take n (drop i ds) = l →
  ∃ fm', clear_sectors n (Z.of_nat i) ds fm = Ok fm' ∧ gives fm fm' l ∧ taken fm' rest.
Proof.
  revert n i fm. induction l as [|s l IH]; intros n i fm Ht Hl Ed; simpl in Hl; subst n; cbn [clear_sectors].
  { exists fm. split; [done|]. split; [|done]. split; [apply Ht|]. split; [done|]. set_solver. }
  assert (ds !! i = Some s) as Hs.
  { assert (take (S (length l)) (drop i ds) !! 0%nat = Some s) as E by (by rewrite Ed).
    rewrite lookup_take_lt, lookup_drop, Nat.add_0_r in E by lia. done. }
  rewrite (proj2 (arr_get_Ok ds (Z.of_nat i) s)) by (split; [lia|by rewrite Nat2Z.id]).
  cbn [mbind outcome_bind]. pose proof Ht as (H1 & H2 & H3 & H4 & H5).
  destruct (clear_marked_spec fm s H1) as (fm1 & -> & Hg).
  { rewrite H2. unfold in_disk in H4. rewrite Forall_forall in H4. apply H4. left. }
  { apply H5. left. }
  cbn [mbind outcome_bind]. replace (Z.of_nat i + 1) with (Z.of_nat (S i)) by lia.
  destruct (IH (length l) (S i) fm1) as (fm' & -> & Hg' & Ht'); [by eapply taken_step|done| |].
  { rewrite (drop_S _ _ _ Hs) in Ed. cbn [take] in Ed. congruence. }
  exists fm'. split; [done|]. split; [by apply (gives_app fm fm1 fm' [s] l)|done].
Qed.

Lemma read_int_spec fuel uh isecs more d a s old : store_ok d → direct uh isecs → in_disk isecs →
  file_bytes d uh isecs = encode_ints more → more !! a = Some s → is_i32 s →
  ∃ d', read_int (S fuel) (mkOpenFile uh (4 * Z.of_nat a)) old d =
      Ok (s, mkOpenFile uh (4 * Z.of_nat (S a)), d') ∧ store_ok d' ∧ same_content d d'.
Proof.
  intros Hd Hdir Hdk Hb Hs Hi. unfold read_int, Read, ReadAt. cbn [hdr seekPosition].
  destruct (ReadAt_with_spec (ByteToSector (S fuel)) uh 4 (4 * Z.of_nat a) d d isecs [])
    as (d' & -> & Hd' & Hc); try done; [by apply direct_finds|apply Hdir|lia|].
  rewrite Hb. replace (Z.to_nat (4 * Z.of_nat a)) with (4 * a)%nat by lia.
  change (Z.to_nat 4) with 4%nat. rewrite (slice_ints more a s Hs Hi).
  cbn [mbind outcome_bind]. change (drop (length (le32 s)) (le32 old)) with (@nil Z).
  pose proof (int_at_le32 [] s [] 0 eq_refl Hi) as E. rewrite app_nil_l in E. rewrite E.
  cbn [mbind outcome_bind]. exists d'. split; [|done]. unfold Seek. cbn [hdr seekPosition].
  rewrite le32_length. do 3 f_equal. f_equal. lia.
Qed.

Lemma clear_numbers_spec fuel n a uh isecs more fm d old l rest : store_ok d → direct uh isecs →
  in_disk isecs → file_bytes d uh isecs = encode_ints more → Forall is_i32 more →
  taken fm (l ++ rest) → length l = n → take n (drop a more) = l →
  ∃ fm' d', clear_numbers (S fuel) n (mkOpenFile uh (4 * Z.of_nat a)) old fm d = Ok (fm', d') ∧
    gives fm fm' l ∧ taken fm' rest ∧ store_ok d' ∧ same_content d d'.
Proof.
  intros Hd Hdir Hdk. revert n a fm d old Hd.
  induction l as [|s l IH]; intros n a fm d old Hd Hb Hi Ht Hl Ed; simpl in Hl; subst n; cbn [clear_numbers].
  { exists fm, d. split; [done|]. split; [|done]. split; [apply Ht|]. split; [done|]. set_solver. }
  assert (more !! a = Some s) as Hs.
  { assert (take (S (length l)) (drop a more) !! 0%nat = Some s) as E by (by rewrite Ed).
    rewrite lookup_take_lt, lookup_drop, Nat.add_0_r in E by lia. done. }
  destruct (read_int_spec fuel uh isecs more d a s old) as (d1 & -> & Hd1 & Hc1); try done.
  { by apply (Forall_lookup_1 _ _ _ _ Hi Hs). }
  cbn [mbind outcome_bind]. pose proof Ht as (H1 & H2 & H3 & H4 & H5).
  destruct (clear_marked_spec fm s H1) as (fm1 & -> & Hg).
  { rewrite H2. unfold in_disk in H4. rewrite Forall_forall in H4. apply H4. left. }
  { apply H5. left. }
  cbn [mbind outcome_bind].
  destruct (IH (length l) (S a) fm1 d1 s Hd1) as (fm' & d' & -> & Hg' & Ht' & Hd' & Hc'); try done.
  { rewrite <- Hb. unfold file_bytes. by rewrite (same_blocks d d1). }
  { by eapply taken_step. }
  { rewrite (drop_S _ _ _ Hs) in Ed. cbn [take] in Ed. congruence. }
  exists fm', d'. split; [done|]. split; [by apply (gives_app fm fm1 fm' [s] l)|].
  split; [done|]. split; [done|]. intros m. by rewrite Hc', Hc1.
Qed.

Lemma gives_perm fm fm' l k : l ≡ₚ k → gives fm fm' l → gives fm fm' k.
Proof.
  intros Hp (H1 & H2 & H3). split; [done|]. split; [done|]. rewrite H3. apply set_eq. intros s.
  rewrite !elem_of_union, !elem_of_list_to_set. by rewrite Hp.
Qed.

Lemma Deallocate_spec fuel d h secs meta fm : store_ok d → file_at d h secs meta →
  taken fm (secs ++ meta) → length secs ≠ 28%nat →
  ∃ fm' d', Deallocate fill (S fuel) h fm d = Ok (fm', d') ∧ gives fm fm' (secs ++ meta) ∧
    store_ok d' ∧ same_content d d'.
Proof.
  intros Hd Hf Ht Hne. unfold Deallocate. change (NumDirect - 1) with 28.
  destruct Hf as [secs (_ & _ & Hn & H28 & Htake) Hdk Hnd
                 |first28 more ind ih isecs Hh Hsz Hn H28 Hm Hds Hdec Hdir Hib Hbytes Hi32 Hdisk Hnd].
  - rewrite Z.min_r, Hn, Nat2Z.id by lia.
    destruct (clear_sectors_spec (length secs) 0 (dataSectors h) fm secs []) as (fm' & E & Hg & _); try done.
    change (Z.of_nat 0) with 0 in E. rewrite E. cbn [mbind outcome_bind].
    rewrite (proj2 (Z.leb_gt _ _)) by lia. exists fm', d. by rewrite app_nil_r.
  - rewrite length_app, H28 in Hn. rewrite Z.min_l, Hn by lia. change (Z.to_nat 28) with 28%nat.
    rewrite <- app_assoc in Ht.
    destruct (clear_sectors_spec 28 0 (dataSectors h) fm first28 (more ++ ind :: isecs)) as (fm1 & E & Hg1 & Ht1); try done.
    { rewrite Hds, drop_0, <- H28. by apply take_app_length. }
    change (Z.of_nat 0) with 0 in E. rewrite E. cbn [mbind outcome_bind].
    rewrite (proj2 (Z.leb_le _ _)) by lia. rewrite Hds.
    rewrite (proj2 (arr_get_Ok (first28 ++ [ind]) 28 ind)) by (split; [lia|rewrite lookup_app_r, H28 by lia; done]).
    cbn [mbind outcome_bind]. unfold OpenFile_new, FetchFrom.
    pose proof Hdisk as [_ [Hind Hdki]%Forall_cons]%Forall_app.
    destruct (sread_law d ind Hd Hind) as (d1 & -> & Hd1 & Hc1). cbn [mbind outcome_bind].
    rewrite Hdec. cbn [mbind outcome_bind].
    destruct (sread_law d1 ind Hd1 Hind) as (d2 & -> & Hd2 & Hc2). cbn [mbind outcome_bind].
    rewrite Hc1, Hdec. cbn [mbind outcome_bind].
    replace (Z.to_nat (Z.of_nat (28 + length more) - 28)) with (length more) by lia.
    destruct (clear_numbers_spec fuel (length more) 0 ih isecs more fm1 d2 (fill 0%nat) more (ind :: isecs))
      as (fm2 & d3 & E2 & Hg2 & Ht2 & Hd3 & Hc3); try done.
    { rewrite <- Hbytes. unfold file_bytes. rewrite (same_blocks d d2); [done|]. intros m. by rewrite Hc2, Hc1. }
    { by rewrite drop_0, take_ge by lia. }
    change (4 * Z.of_nat 0) with 0 in E2. rewrite E2. cbn [mbind outcome_bind].
    pose proof Ht2 as (T1 & T2 & T3 & T4 & T5).
    destruct (clear_marked_spec fm2 ind T1) as (fm3 & -> & Hg3); [by rewrite T2|apply T5; left|].
    cbn [mbind outcome_bind]. unfold DeallocateUndirectedBlock.
    destruct Hdir as (_ & _ & Hni & _ & Htki). rewrite Hni, Nat2Z.id.
    assert (taken fm3 (isecs ++ [])) as Ht3 by (rewrite app_nil_r; by eapply taken_step).
    destruct (clear_sectors_spec (length isecs) 0 (dataSectors ih) fm3 isecs []) as (fm4 & E4 & Hg4 & _); try done.
    change (Z.of_nat 0) with 0 in E4. rewrite E4. cbn [mbind outcome_bind].
    exists fm4, d3. split; [done|]. split; [|split; [done|intros m; by rewrite Hc3, Hc2, Hc1]].
    rewrite <- app_assoc. apply (gives_app fm fm1 fm4 first28 (more ++ ind :: isecs)); [done|].
    apply (gives_app fm1 fm2 fm4 more (ind :: isecs)); [done|].
    by apply (gives_app fm2 fm3 fm4 [ind] isecs).
Qed.
End free.

(** C9: Growing a well-formed file of up to 924 blocks succeeds whenever enough
    sectors are free (its new blocks and those of its undirected block): the
    result is a well-formed file of the new length with the same type whose old
    bytes are unchanged, its new sectors were free before and are marked now,
    and no sector outside its undirected block is written. *)
Theorem Extend_grows {D} `{SectorStore D} junk fill fuel (d : D) h secs meta fm newSize :
  (∀ k, is_u8 (fill k)) → length junk = 29%nat ∧ Forall is_i32 junk →
  store_ok d → file_at d h secs meta → fmap_ok fm (secs ++ meta) → 0 ≤ newSize →
  divRoundUp (numBytes h + newSize) SectorSize ≤ 924 →
  divRoundUp (numBytes h + newSize) SectorSize - Z.of_nat (length secs)
    + meta_need (divRoundUp (numBytes h + newSize) SectorSize) - Z.of_nat (length meta)
    ≤ Z.of_nat (size (free_set fm)) →
  ∃ h' fm' d' new newm, Extend junk fill (S fuel) h fm newSize d = Ok (true, h', fm', d') ∧
    store_ok d' ∧ file_at d' h' (secs ++ new) (meta ++ newm) ∧
    numBytes h' = numBytes h + newSize ∧ ftype h' = ftype h ∧
    take (Z.to_nat (numBytes h)) (file_bytes d' h' (secs ++ new)) = file_bytes d h secs ∧
    fmap_ok fm' ((secs ++ new) ++ meta ++ newm) ∧
    (∀ s, s ∈ new ++ newm → s ∈ free_set fm) ∧
    (∀ m, m ∉ meta ++ newm → content d' m = content d m).
Proof.
  intros Hfill Hjunk Hd Hf Hfm Hns Htot Hfree.
  destruct (Extend_spec junk fill Hfill Hjunk fuel d h secs meta fm newSize Hd Hf Hfm Hns Htot Hfree)
    as (h' & fm' & d' & E & new & newm & Hd' & Hf' & Hnb & Hty & Ht & Ho).
  exists h', fm', d', new, newm. split; [exact E|]. split; [exact Hd'|]. split; [exact Hf'|].
  split; [exact Hnb|]. split; [exact Hty|]. split; [|split; [|split; [apply Ht|exact Ho]]].
  - destruct (file_at_split d h secs meta Hf) as (Hsz & _ & _ & Hdis).
    unfold file_bytes, block_bytes. rewrite take_take, Nat.min_l by (destruct Hsz; lia).
    rewrite fmap_app, concat_app.
    assert (concat (content d' <$> secs) = block_bytes d secs) as ->.
    { unfold block_bytes. f_equal. apply list_fmap_ext. intros i s Hs%list_elem_of_lookup_2.
      apply Ho. rewrite not_elem_of_app. split; [by apply Hdis|].
      intros Hn. destruct (takes_disk fm fm' _ _ Hfm Ht) as (_ & _ & Hfr).
      apply (Hfr s); set_solver. }
    destruct (sized_blocks d h secs Hd Hsz) as [Hle _]. by rewrite take_app_le.
  - pose proof (takes_ok _ _ _ _ Hfm Ht) as [F1 F2 F3]. constructor; [done|done|].
    intros s Hs. apply F3. set_solver.
Qed.

(** When [Extend] reports failure (no free sector, or a file too long for its
    undirected block) the header keeps its type, its length and its number of
    blocks. *)
Theorem Extend_failure_keeps_size {D} `{SectorStore D} junk fill fuel (d : D) h fm newSize h' fm' d' :
  Extend junk fill fuel h fm newSize d = Ok (false, h', fm', d') →
  ftype h' = ftype h ∧ numBytes h' = numBytes h ∧ numSectors h' = numSectors h.
Proof.
  unfold Extend. intros E. inv_ok.
  repeat match type of E with
  | (if ?c then _ else _) = _ => destruct c; inv_ok
  end; done.
Qed.

Lemma Allocate_spec {D} `{SectorStore D} junk fill fuel (d : D) fm fileSize which :
  (∀ k, is_u8 (fill k)) → length junk = 29%nat ∧ Forall is_i32 junk → is_i32 which →
  store_ok d → fmap_ok fm [] → 0 ≤ fileSize →
  let total := divRoundUp fileSize SectorSize in
  total ≤ 924 → total + meta_need total ≤ Z.of_nat (size (free_set fm)) →
  ∃ h new newm fm1 d1, Allocate junk fill (S fuel) fm fileSize which d = Ok (true, h, fm1, d1) ∧
    store_ok d1 ∧ file_at d1 h new newm ∧ numBytes h = fileSize ∧ ftype h = which ∧
    takes fm fm1 (new ++ newm) ∧ (∀ m, m ∉ newm → content d1 m = content d m).
Proof.
  intros Hfill Hjunk Hwhich Hd Hfm Hfs total Htot Hfree. unfold Allocate.
  set (h0 := mkHeader which 0 0 junk).
  assert (file_at d h0 [] []) as Hf0.
  { destruct Hjunk as [J1 J2]. constructor; [|constructor|constructor].
    split; [|split; [split; [done|reflexivity]|split; [done|split; [simpl; lia|done]]]].
    split; [done|]. split; [by vm_compute|]. split; [by vm_compute|]. by split. }
  destruct (Extend_spec junk fill Hfill Hjunk fuel d h0 [] [] fm fileSize Hd Hf0)
    as (h & fm1 & d1 & E & new & newm & Hd1 & Hf1 & Hnb & Hty & Ht & Ho); try done.
  { cbn [numBytes h0 length]. rewrite Z.add_0_l. fold total. lia. }
  exists h, new, newm, fm1, d1. split; [exact E|]. split; [done|]. split; [exact Hf1|].
  split; [rewrite Hnb; cbn [numBytes h0]; lia|]. split; [exact Hty|]. split; [exact Ht|exact Ho].
Qed.

(** Creating a file and deleting it gives every sector back: [Allocate]
    followed by [Deallocate] restores the free map, for every size up to 924
    sectors except those of exactly 28 sectors. *)
Theorem Allocate_Deallocate {D} `{SectorStore D} junk fill fuel (d : D) fm fileSize which :
  (∀ k, is_u8 (fill k)) → length junk = 29%nat ∧ Forall is_i32 junk → is_i32 which →
  store_ok d → fmap_ok fm [] → 0 ≤ fileSize →
  let total := divRoundUp fileSize SectorSize in
  total ≤ 924 → total ≠ 28 → total + meta_need total ≤ Z.of_nat (size (free_set fm)) →
  ∃ h fm1 d1 fm2 d2, Allocate junk fill (S fuel) fm fileSize which d = Ok (true, h, fm1, d1) ∧
    numBytes h = fileSize ∧
    Deallocate fill (S fuel) h fm1 d1 = Ok (fm2, d2) ∧ free_set fm2 = free_set fm.
Proof.
  intros Hfill Hjunk Hwhich Hd Hfm Hfs total Htot H28 Hfree.
  destruct (Allocate_spec junk fill fuel d fm fileSize which)
    as (h & new & newm & fm1 & d1 & E & Hd1 & Hf1 & Hnb & _ & Ht & _); try done.
  pose proof (takes_disk _ _ _ _ Hfm Ht) as (Hdk & Hnd & _).
  pose proof (takes_ok _ _ _ _ Hfm Ht) as [F1 F2 F3].
  destruct (Deallocate_spec fill fuel d1 h new newm fm1 Hd1 Hf1) as (fm2 & d2 & E2 & (_ & _ & Hg) & _).
  { split; [done|]. split; [done|]. split; [done|]. split; [done|]. intros s Hs. apply F3. set_solver. }
  { destruct (file_at_facts _ _ _ _ Hf1) as ([_ Hs] & _). rewrite Hnb in Hs. fold total in Hs. lia. }
  exists h, fm1, d1, fm2, d2. split; [exact E|]. split; [done|]. split; [exact E2|].
  destruct Ht as (_ & _ & _ & Hin & Hfr). rewrite Hg, Hfr. apply set_eq. intros s.
  rewrite elem_of_union, elem_of_difference, elem_of_list_to_set.
  destruct (decide (s ∈ new ++ newm)) as [Hs|Hs]; [|naive_solver].
  split; [intros _; by apply Hin|by left].
Qed.

(** A file of exactly 28 blocks has no undirected block, but [Deallocate]
    follows its 29th entry all the same: whenever that entry is not a sector
    number the kernel aborts. *)
Theorem Deallocate_28_blocks {D} `{SectorStore D} fill fuel (d : D) h secs fm x :
  store_ok d → file_at d h secs [] → length secs = 28%nat → taken fm secs →
  dataSectors h !! 28%nat = Some x → ¬ (0 ≤ x < NumSectors) →
  Deallocate fill fuel h fm d = AssertFail.
Proof.
  intros Hd Hf H28 Ht Hx Hr. unfold Deallocate. change (NumDirect - 1) with 28.
  destruct (file_at_facts d h secs [] Hf) as (_ & _ & _ & _ & Hn). rewrite Hn, H28.
  inversion Hf as [secs' (_ & _ & _ & _ & Htake) Hdk Hnd|]; subst.
  change (Z.to_nat (Z.min 28 (Z.of_nat 28))) with 28%nat.
  destruct (clear_sectors_spec fill 28 0 (dataSectors h) fm secs []) as (fm' & E & _ & _); try done.
  { by rewrite app_nil_r. }
  { rewrite drop_0. by rewrite H28 in Htake. }
  change (Z.of_nat 0) with 0 in E. rewrite E. cbn [mbind outcome_bind].
  change (28 <=? Z.of_nat 28) with true.
  rewrite (proj2 (arr_get_Ok (dataSectors h) 28 x)) by (split; [lia|exact Hx]).
  cbn [mbind outcome_bind]. unfold FetchFrom. destruct (range_law d x [] Hd Hr) as [-> _]. done.
Qed.

(** ** An empty disk *)
Definition demo_free : BitMap := mkBitMap 1024 32 (replicate 32 0).
Lemma demo_free_wf : bm_wf demo_free.
Proof.
  split; [by vm_compute|]. split; [reflexivity|]. split; [reflexivity|].
  apply Forall_replicate. by vm_compute.
Qed.
Lemma demo_free_ok : fmap_ok demo_free [].
Proof. constructor; [apply demo_free_wf|reflexivity|]. intros s Hs.
  destruct (not_elem_of_nil s Hs). Qed.
Lemma demo_free_size : size (free_set demo_free) = 1024%nat.
Proof. rewrite size_free_set. by vm_compute. Qed.
Definition demo_junk : list Z := replicate 29 (-7).
Lemma demo_junk_ok : length demo_junk = 29%nat ∧ Forall is_i32 demo_junk.
Proof. split; [reflexivity|]. apply Forall_replicate. by vm_compute. Qed.

Lemma Allocate_Deallocate_witness : ∃ h fm1 d1 fm2 d2,
  Allocate demo_junk (λ _, 3) 1 demo_free 50000 DATA_FILE demo_disk = Ok (true, h, fm1, d1) ∧
  Deallocate (λ _, 3) 1 h fm1 d1 = Ok (fm2, d2) ∧ free_set fm2 = free_set demo_free.
Proof.
  destruct (Allocate_Deallocate demo_junk (λ _, 3) 0 demo_disk demo_free 50000 DATA_FILE)
    as (h & fm1 & d1 & fm2 & d2 & E1 & _ & E2 & E3).
  - intros _. by vm_compute.
  - apply demo_junk_ok.
  - by vm_compute.
  - apply demo_store_ok.
  - apply demo_free_ok.
  - lia.
  - by vm_compute.
  - by vm_compute.
  - rewrite demo_free_size. by vm_compute.
  - exists h, fm1, d1, fm2, d2. split; [exact E1|]. split; [exact E2|exact E3].
Defined.

Definition demo_empty_file : FileHeader := mkHeader DATA_FILE 0 0 demo_junk.
Lemma demo_empty_file_at : file_at demo_disk demo_empty_file [] [].
Proof.
  constructor; [|constructor|constructor].
  split; [|split; [split; [done|reflexivity]|split; [done|split; [simpl; lia|done]]]].
  split; [by vm_compute|]. split; [by vm_compute|]. split; [by vm_compute|]. apply demo_junk_ok.
Qed.

Lemma Extend_grows_witness : ∃ h' fm' d' new newm,
  Extend demo_junk (λ _, 3) 1 demo_empty_file demo_free 5000 demo_disk = Ok (true, h', fm', d') ∧
  file_at d' h' new newm ∧ numBytes h' = 5000.
Proof.
  destruct (Extend_grows demo_junk (λ _, 3) 0 demo_disk demo_empty_file [] [] demo_free 5000)
    as (h' & fm' & d' & new & newm & E & _ & Hf & Hn & _).
  - intros _. by vm_compute.
  - apply demo_junk_ok.
  - apply demo_store_ok.
  - apply demo_empty_file_at.
  - apply demo_free_ok.
  - lia.
  - by vm_compute.
  - rewrite demo_free_size. by vm_compute.
  - exists h', fm', d', new, newm. split; [exact E|]. split; [exact Hf|exact Hn].
Defined.

(** No sector is free. *)
Definition demo_full : BitMap := mkBitMap 1024 32 (replicate 32 4294967295).
Lemma Extend_failure_keeps_size_witness : ∃ h',
  Extend demo_junk (λ _, 3) 1 demo_empty_file demo_full 10 demo_disk = Ok (false, h', demo_full, demo_disk) ∧
  numSectors h' = 0.
Proof.
  eexists. split; [vm_compute; reflexivity|].
  refine (proj2 (proj2 (Extend_failure_keeps_size demo_junk (λ _, 3) 1 demo_disk demo_empty_file demo_full 10
    _ demo_full demo_disk _))). vm_compute. reflexivity.
Defined.

(** A file that fills sectors 0 to 27; its 29th entry is what [new] left. *)
Definition demo_28 : FileHeader := mkHeader DATA_FILE 3584 28 (seqZ 0 28 ++ [-7]).
Lemma demo_28_at : file_at demo_disk demo_28 (seqZ 0 28) [].
Proof.
  constructor.
  - split; [|split; [split; [by vm_compute|reflexivity]|split; [reflexivity|split; [by vm_compute; lia|reflexivity]]]].
    split; [by vm_compute|]. split; [by vm_compute|]. split; [by vm_compute|]. split; [reflexivity|].
    repeat constructor; by vm_compute.
  - repeat constructor; by vm_compute.
  - apply NoDup_seqZ.
Qed.
Lemma Deallocate_28_blocks_witness : Deallocate (λ _, 3) 2 demo_28 demo_full demo_disk = AssertFail.
Proof.
  apply (Deallocate_28_blocks (λ _, 3) 2 demo_disk demo_28 (seqZ 0 28) demo_full (-7)).
  - apply demo_store_ok.
  - apply demo_28_at.
  - reflexivity.
  - split; [|split; [reflexivity|split; [apply NoDup_seqZ|split; [repeat constructor; by vm_compute|]]]].
    + split; [by vm_compute|]. split; [reflexivity|]. split; [reflexivity|].
      apply Forall_replicate. by vm_compute.
    + intros s _. enough (free_set demo_full = ∅) as -> by apply not_elem_of_empty.
      apply leibniz_equiv, size_empty_inv. rewrite size_free_set. by vm_compute.
  - reflexivity.
  - lia.
Defined.
