(* ===== verification/Directory.v ===== *)
(** * filesys/directory.cc: directories

    A directory is a table of entries stored as the contents of a file, 20
    bytes per entry.  Its abstraction is the finite map from names, cut at nine
    characters, to the sectors of the file headers. *)
From S2P Require Import Prelude BitMap Memory Disk FileHdr.

Definition FileNameMaxLen : Z := 9.

(** [bool inUse], three bytes of padding, [int sector], [char name[10]], two
    bytes of padding. *)
Record DirectoryEntry := mkEntry {
  inUse : bool;
  sector : Z;
  name : list Z;
  padding : list Z
}.
Definition sizeof_DirectoryEntry : Z := 20.

(** [table], whose length is [tableSize]. *)
Definition Directory : Type := list DirectoryEntry.

(** ** C strings

    A string argument is the list of its characters before the terminator; an
    array is the list of its bytes. *)

(** [!strncmp(a, b, n)]. *)
Fixpoint strneq (n : nat) (a b : list Z) : bool :=
  match n with
  | O => true
  | S n' =>
      let x := hd 0 a in
      if x =? hd 0 b then if x =? 0 then true else strneq n' (tl a) (tl b) else false
  end.
(** [!strcmp(a, b)]: decided at the latest at the terminator of [b]. *)
Definition streq (a b : list Z) : bool := strneq (S (length b)) a b.
(** [strncpy(dst, src, n)] into an array [dst]. *)
Definition strncpy (dst src : list Z) (n : nat) : list Z :=
  take n (src ++ replicate n 0) ++ drop n dst.

(** [The names "." and ".."]. *)
Definition dot : list Z := [46].
Definition dotdot : list Z := [46; 46].

(** ** Operations *)

(** [Directory::Directory]: the entries come from the heap ([junk]). *)
Definition Directory_new (junk : nat → DirectoryEntry) (size : Z) : Directory :=
  (λ i, mkEntry false (sector (junk i)) (name (junk i)) (padding (junk i))) <$> seq 0 (Z.to_nat size).

Fixpoint Directory_FindIndex_loop (i : Z) (t : Directory) (nm : list Z) : Z :=
  match t with
  | [] => -1
  | e :: t' =>
      if inUse e && strneq (Z.to_nat FileNameMaxLen) (name e) nm then i
      else Directory_FindIndex_loop (i + 1) t' nm
  end.
Definition Directory_FindIndex (t : Directory) (nm : list Z) : Z := Directory_FindIndex_loop 0 t nm.

Definition Directory_Find (t : Directory) (nm : list Z) : outcome Z :=
  let i := Directory_FindIndex t nm in
  if negb (i =? -1) then e ← arr_get t i; Ok (sector e) else Ok (-1).

Fixpoint Directory_Add_loop (t : Directory) (nm : list Z) (newSector : Z) : bool * Directory :=
  match t with
  | [] => (false, [])
  | e :: t' =>
      if negb (inUse e) then
        (true, mkEntry true newSector (strncpy (name e) nm (Z.to_nat FileNameMaxLen)) (padding e) :: t')
      else let '(r, t'') := Directory_Add_loop t' nm newSector in (r, e :: t'')
  end.
Definition Directory_Add (t : Directory) (nm : list Z) (newSector : Z) : bool * Directory :=
  if negb (Directory_FindIndex t nm =? -1) then (false, t) else Directory_Add_loop t nm newSector.

Definition Directory_Remove (t : Directory) (nm : list Z) : outcome (bool * Directory) :=
  let i := Directory_FindIndex t nm in
  if i =? -1 then Ok (false, t)
  else
    e ← arr_get t i;
    t' ← arr_set t i (mkEntry false (sector e) (name e) (padding e));
    Ok (true, t').

Fixpoint Directory_IsEmpty (t : Directory) : bool :=
  match t with
  | [] => true
  | e :: t' =>
      if inUse e && negb (streq (name e) dot || streq (name e) dotdot) then false
      else Directory_IsEmpty t'
  end.

(** ** The table as bytes *)
Definition encode_entry (e : DirectoryEntry) : list Z :=
  (if inUse e then 1 else 0) :: take 3 (padding e) ++ le32 (sector e) ++ name e ++ drop 3 (padding e).
Definition encode_table (t : Directory) : list Z := concat (encode_entry <$> t).
Definition decode_entry (l : list Z) : outcome DirectoryEntry :=
  b ← arr_get l 0; s ← int_at l 4;
  Ok (mkEntry (negb (b =? 0)) s (take 10 (drop 8 l)) (take 3 (drop 1 l) ++ drop 18 l)).
Fixpoint decode_table (n : nat) (l : list Z) : outcome Directory :=
  match n with
  | O => Ok []
  | S n' =>
      e ← decode_entry (take 20 l); t ← decode_table n' (drop 20 l); Ok (e :: t)
  end.

Section directory_io.
Context {D : Type} `{SectorStore D}.
Variable fill : nat → Z.
Variable fuel : nat.

(** Bytes beyond the end of the file leave the table as it was. *)
Definition Directory_FetchFrom (t : Directory) (f : OpenFile) (d : D) : outcome (Directory * D) :=
  '(l, d') ← ReadAt fuel (hdr f) (Z.of_nat (length t) * sizeof_DirectoryEntry) 0 d;
  t' ← decode_table (length t) (l ++ drop (length l) (encode_table t));
  Ok (t', d').
Definition Directory_WriteBack (t : Directory) (f : OpenFile) (d : D) : outcome D :=
  '(_, d') ← WriteAt fill fuel (hdr f) (encode_table t) 0 d; Ok d'.
End directory_io.

(** ** Abstraction *)

(** The characters that count: up to the terminator, at most nine. *)
Fixpoint cstr (n : nat) (s : list Z) : list Z :=
  match n, s with
  | S n', x :: s' => if x =? 0 then [] else x :: cstr n' s'
  | _, _ => []
  end.
Definition key (s : list Z) : list Z := cstr 9 s.

Definition entries (t : list DirectoryEntry) : list DirectoryEntry := filter (λ e, inUse e = true) t.
Definition dir_list (t : Directory) : list (list Z * Z) :=
  (λ e, (key (name e), sector e)) <$> entries t.
Definition dir_map (t : Directory) : gmap (list Z) Z := list_to_map (dir_list t).

Definition entry_ok (e : DirectoryEntry) : Prop :=
  is_i32 (sector e) ∧ length (name e) = 10%nat ∧ Forall is_u8 (name e) ∧
  length (padding e) = 5%nat ∧ Forall is_u8 (padding e).
Definition dir_wf (t : Directory) : Prop := Forall entry_ok t ∧ NoDup (dir_list t).*1.

(** A string that can be passed to the file system. *)
Definition is_string (s : list Z) : Prop := Forall (λ x, 0 < x < 256) s.

Section strings.
Lemma strneq_cstr n a b : strneq n a b = bool_decide (cstr n a = cstr n b).
Proof.
  revert a b. induction n as [|n IH]; intros a b; [done|].
  destruct a as [|x a], b as [|y b]; cbn [strneq hd tl cstr]; [done|..].
  - rewrite Z.eqb_sym. by destruct (y =? 0).
  - destruct (x =? 0); [done|]. by rewrite bool_decide_eq_false_2.
  - destruct (Z.eqb_spec x y) as [->|Hne].
    + destruct (y =? 0); [done|]. rewrite IH. apply bool_decide_ext. split; congruence.
    + destruct (Z.eqb_spec x 0), (Z.eqb_spec y 0); try lia; by rewrite bool_decide_eq_false_2 by congruence.
Qed.

Lemma cstr_string n s : is_string s → cstr n s = take n s.
Proof.
  revert s. induction n as [|n IH]; intros s Hs; [by destruct s|]. destruct s as [|x s]; [done|].
  apply Forall_cons in Hs as [Hx Hs]. cbn [cstr take]. destruct (Z.eqb_spec x 0); [lia|]. by rewrite IH.
Qed.

Lemma cstr_app n s k : is_string s → (n ≤ length s + k)%nat → cstr n (s ++ replicate k 0) = cstr n s.
Proof.
  revert s. induction n as [|n IH]; intros s Hs Hn; [by destruct s, k|].
  destruct s as [|x s]; [by destruct k|]. apply Forall_cons in Hs as [Hx Hs].
  cbn [cstr app]. destruct (Z.eqb_spec x 0); [done|]. rewrite IH; [done|done|simpl in Hn; lia].
Qed.
Lemma cstr_take n s r : length s = n → cstr n (s ++ r) = cstr n s.
Proof.
  intros <-. induction s as [|x s IH]; [by destruct r|]. cbn [cstr app length].
  destruct (x =? 0); [done|]. by rewrite IH.
Qed.
Lemma cstr_take_same n s : cstr n (take n s) = cstr n s.
Proof.
  revert s. induction n as [|n IH]; intros [|x s]; try done. cbn [cstr take]. by rewrite IH.
Qed.

Lemma key_strncpy dst s : is_string s → key (strncpy dst s 9) = key s.
Proof.
  intros Hs. unfold key, strncpy.
  rewrite cstr_take by (rewrite length_take, length_app, length_replicate; lia).
  rewrite cstr_take_same. apply cstr_app; [done|lia].
Qed.

Lemma streq_dot a b : (length b < 9)%nat → is_string b → streq a b = bool_decide (key a = key b).
Proof.
  intros Hl Hb. unfold streq. rewrite strneq_cstr. apply bool_decide_ext. unfold key.
  rewrite !(cstr_string _ b), !take_ge by (done || lia). clear Hb. revert a Hl.
  generalize 9%nat as n. induction b as [|y b IH]; intros n a Hl; destruct n as [|n]; simpl in Hl; try lia.
  - cbn [length cstr]. destruct a as [|x a]; [done|]. by destruct (x =? 0).
  - cbn [length]. destruct a as [|x a]; [done|]. cbn [cstr]. destruct (x =? 0); [done|].
    specialize (IH n a ltac:(lia)). cbn [length] in *.
    split; intros [= -> E]; f_equal; by apply IH.
Qed.
End strings.

Section table.
Implicit Types (t : Directory) (e : DirectoryEntry).

Lemma dir_list_cons e t :
  dir_list (e :: t) = (if inUse e then [(key (name e), sector e)] else []) ++ dir_list t.
Proof. unfold dir_list, entries. rewrite filter_cons. by destruct (inUse e). Qed.
Lemma dir_list_app t1 t2 : dir_list (t1 ++ t2) = dir_list t1 ++ dir_list t2.
Proof. unfold dir_list, entries. by rewrite filter_app, fmap_app. Qed.

Definition matches nm e : bool := inUse e && bool_decide (key (name e) = key nm).

(** [FindIndex] returns the position of the first match. *)
Lemma FindIndex_loop_spec i t nm : 0 ≤ i →
  (Directory_FindIndex_loop i t nm = -1 ∧ Forall (λ e, matches nm e = false) t) ∨
  ∃ t1 e t2, t = t1 ++ e :: t2 ∧ matches nm e = true ∧ Forall (λ e, matches nm e = false) t1 ∧
    Directory_FindIndex_loop i t nm = i + Z.of_nat (length t1).
Proof.
  revert i. induction t as [|e t IH]; intros i Hi; [left; split; [done|constructor]|].
  cbn [Directory_FindIndex_loop]. rewrite strneq_cstr.
  change (inUse e && bool_decide (cstr (Z.to_nat FileNameMaxLen) (name e) = cstr (Z.to_nat FileNameMaxLen) nm))
    with (matches nm e).
  destruct (matches nm e) eqn:E.
  - right. exists [], e, t. split; [done|]. split; [done|]. split; [constructor|]. cbn [length]. lia.
  - destruct (IH (i + 1) ltac:(lia)) as [[Ei Hf]|(t1 & e' & t2 & -> & He & Hf & Ei)].
    + left. split; [done|by constructor].
    + right. exists (e :: t1), e', t2. split; [done|]. split; [done|]. split; [by constructor|].
      rewrite Ei. cbn [length]. lia.
Qed.

Lemma no_match_key t nm : Forall (λ e, matches nm e = false) t → key nm ∉ (dir_list t).*1.
Proof.
  induction t as [|e t IH]; intros Hf; [apply not_elem_of_nil|]. apply Forall_cons in Hf as [He Hf].
  rewrite dir_list_cons, fmap_app, not_elem_of_app. split; [|by apply IH]. unfold matches in He.
  destruct (inUse e); cbn [fmap list_fmap]; [|apply not_elem_of_nil].
  apply bool_decide_eq_false in He. rewrite list_elem_of_singleton. simpl. congruence.
Qed.
Lemma no_match t nm : Forall (λ e, matches nm e = false) t → dir_map t !! key nm = None.
Proof. intros Hf. by apply not_elem_of_list_to_map_1, no_match_key. Qed.

Lemma match_entry t1 e t2 nm : matches nm e = true →
  dir_list (t1 ++ e :: t2) = dir_list t1 ++ (key nm, sector e) :: dir_list t2.
Proof.
  intros [He Hk%bool_decide_eq_true]%andb_true_iff. by rewrite dir_list_app, dir_list_cons, He, Hk.
Qed.
Lemma match_lookup t1 e t2 nm : dir_wf (t1 ++ e :: t2) → matches nm e = true →
  dir_map (t1 ++ e :: t2) !! key nm = Some (sector e).
Proof.
  intros [_ Hnd] He. apply elem_of_list_to_map_1; [done|]. rewrite (match_entry _ _ _ _ He). set_solver.
Qed.

Lemma FindIndex_spec t nm :
  (Directory_FindIndex t nm = -1 ∧ dir_map t !! key nm = None) ∨
  ∃ t1 e t2, t = t1 ++ e :: t2 ∧ matches nm e = true ∧
    Directory_FindIndex t nm = Z.of_nat (length t1).
Proof.
  unfold Directory_FindIndex. destruct (FindIndex_loop_spec 0 t nm) as [[E Hf]|(t1 & e & t2 & E & He & _ & Ei)]; [lia|..].
  - left. split; [done|]. by apply no_match.
  - right. exists t1, e, t2. split; [done|]. split; [done|]. lia.
Qed.

Lemma arr_get_mid {A} (l1 : list A) x l2 : arr_get (l1 ++ x :: l2) (Z.of_nat (length l1)) = Ok x.
Proof. apply arr_get_Ok. split; [lia|]. rewrite Nat2Z.id. by apply list_lookup_middle. Qed.
Lemma arr_set_mid {A} (l1 : list A) x y l2 :
  arr_set (l1 ++ x :: l2) (Z.of_nat (length l1)) y = Ok (l1 ++ y :: l2).
Proof.
  apply arr_set_Ok. split; [rewrite length_app; simpl; lia|]. rewrite Nat2Z.id.
  by rewrite insert_app_r_alt, Nat.sub_diag by lia.
Qed.

Lemma Directory_Find_spec t nm : dir_wf t →
  Directory_Find t nm = Ok (default (-1) (dir_map t !! key nm)).
Proof.
  intros Hw. unfold Directory_Find. destruct (FindIndex_spec t nm) as [[-> ->]|(t1 & e & t2 & -> & He & ->)]; [done|].
  rewrite (proj2 (Z.eqb_neq _ _)) by lia. cbn [negb]. rewrite arr_get_mid. cbn [mbind outcome_bind].
  by rewrite (match_lookup _ _ _ _ Hw He).
Qed.

Lemma dir_map_perm t l : NoDup (dir_list t).*1 → dir_list t ≡ₚ l → dir_map t = list_to_map l.
Proof. intros Hnd Hp. by apply list_to_map_proper. Qed.

Lemma Directory_Remove_spec t nm : dir_wf t →
  (dir_map t !! key nm = None ∧ Directory_Remove t nm = Ok (false, t)) ∨
  ∃ s t', dir_map t !! key nm = Some s ∧ Directory_Remove t nm = Ok (true, t') ∧ dir_wf t' ∧
    length t' = length t ∧ dir_map t' = delete (key nm) (dir_map t).
Proof.
  intros Hw. pose proof Hw as [Hok Hnd]. unfold Directory_Remove.
  destruct (FindIndex_spec t nm) as [[-> E]|(t1 & e & t2 & -> & He & ->)]; [by left|].
  right. rewrite (proj2 (Z.eqb_neq _ _)) by lia. rewrite arr_get_mid. cbn [mbind outcome_bind].
  rewrite arr_set_mid. cbn [mbind outcome_bind].
  exists (sector e), (t1 ++ mkEntry false (sector e) (name e) (padding e) :: t2).
  split; [by apply match_lookup|]. split; [done|].
  assert (dir_list (t1 ++ mkEntry false (sector e) (name e) (padding e) :: t2) = dir_list t1 ++ dir_list t2) as E
    by (by rewrite dir_list_app, dir_list_cons).
  rewrite (match_entry _ _ _ _ He), fmap_app, fmap_cons in Hnd. cbn [fst] in Hnd.
  rewrite <- Permutation_middle, NoDup_cons in Hnd. destruct Hnd as [Hnotin Hnd].
  split; [split|split].
  - apply Forall_app in Hok as [H1 [H2 H3]%Forall_cons]. apply Forall_app. split; [done|]. by constructor.
  - by rewrite E, fmap_app.
  - by rewrite !length_app.
  - unfold dir_map. rewrite E, (match_entry _ _ _ _ He). rewrite !list_to_map_app, list_to_map_cons.
    rewrite <- insert_union_r.
    2: { apply not_elem_of_list_to_map_1. rewrite not_elem_of_app in Hnotin. apply Hnotin. }
    rewrite delete_insert_id; [done|]. rewrite <- list_to_map_app. apply not_elem_of_list_to_map_1.
    by rewrite fmap_app.
Qed.

Lemma Add_loop_spec t nm s : is_string nm → is_i32 s → Forall entry_ok t →
  (Forall (λ e, inUse e = true) t ∧ Directory_Add_loop t nm s = (false, t)) ∨
  ∃ t1 e t2 e', t = t1 ++ e :: t2 ∧ inUse e = false ∧ Directory_Add_loop t nm s = (true, t1 ++ e' :: t2) ∧
    inUse e' = true ∧ entry_ok e' ∧ key (name e') = key nm ∧ sector e' = s.
Proof.
  intros Hnm Hs. induction t as [|e t IH]; intros Hok; [left; split; [constructor|done]|].
  apply Forall_cons in Hok as [He Hok]. cbn [Directory_Add_loop]. destruct (inUse e) eqn:Eu; cbn [negb].
  - destruct (IH Hok) as [[Hf ->]|(t1 & e1 & t2 & e' & -> & Hu & -> & H1 & H2 & H3 & H4)].
    + left. split; [by constructor|done].
    + right. exists (e :: t1), e1, t2, e'. split; [done|]. by split_and!.
  - right. eexists [], e, t, _. split; [done|]. split; [done|]. split; [done|]. split; [done|].
    split; [|split; [by apply key_strncpy|done]]. destruct He as (_ & H1 & H2 & H3 & H4).
    split; [done|]. cbn [name padding]. change (Z.to_nat FileNameMaxLen) with 9%nat. unfold strncpy.
    split; [|split; [|by split]].
    + rewrite length_app, length_take, length_app, length_replicate, length_drop. lia.
    + apply Forall_app. split; [|by apply Forall_drop]. apply Forall_take, Forall_app. split.
      * eapply Forall_impl; [exact Hnm|]. unfold is_u8. intros; lia.
      * apply Forall_replicate. unfold is_u8. lia.
Qed.

Lemma Directory_Add_spec t nm s : dir_wf t → is_string nm → is_i32 s →
  (Directory_Add t nm s = (false, t) ∧
     (is_Some (dir_map t !! key nm) ∨ Forall (λ e, inUse e = true) t)) ∨
  ∃ t', Directory_Add t nm s = (true, t') ∧ dir_map t !! key nm = None ∧
    Exists (λ e, inUse e = false) t ∧ dir_wf t' ∧ length t' = length t ∧
    dir_map t' = <[key nm := s]> (dir_map t).
Proof.
  intros Hw Hnm Hs. pose proof Hw as [Hok Hnd]. unfold Directory_Add.
  destruct (FindIndex_spec t nm) as [[-> E]|(t1 & e & t2 & -> & He & ->)].
  2: { left. rewrite (proj2 (Z.eqb_neq _ _)) by lia. split; [done|]. left.
       rewrite (match_lookup _ _ _ _ Hw He). by eexists. }
  cbn [Z.eqb negb]. destruct (Add_loop_spec t nm s Hnm Hs Hok) as [[Hf ->]|(t1 & e & t2 & e' & -> & Hu & -> & H1 & H2 & H3 & H4)].
  { left. split; [done|by right]. }
  right. exists (t1 ++ e' :: t2). split; [done|]. split; [done|].
  split; [apply Exists_app; right; by apply Exists_cons_hd|].
  assert (dir_list (t1 ++ e :: t2) = dir_list t1 ++ dir_list t2) as El by (by rewrite dir_list_app, dir_list_cons, Hu).
  assert (dir_list (t1 ++ e' :: t2) = dir_list t1 ++ (key nm, s) :: dir_list t2) as El'
    by (by rewrite dir_list_app, dir_list_cons, H1, H3, H4).
  unfold dir_map in E. rewrite El in E. apply not_elem_of_list_to_map_2 in E.
  rewrite El in Hnd. split; [split|split].
  - apply Forall_app in Hok as [K1 [K2 K3]%Forall_cons]. apply Forall_app. split; [done|]. by constructor.
  - rewrite El', fmap_app, fmap_cons. cbn [fst]. rewrite <- Permutation_middle, NoDup_cons. by rewrite <- fmap_app.
  - by rewrite !length_app.
  - unfold dir_map. rewrite El, El', !list_to_map_app, list_to_map_cons.
    rewrite <- insert_union_r; [done|]. apply not_elem_of_list_to_map_1. rewrite fmap_app, not_elem_of_app in E.
    apply E.
Qed.

Lemma dots_cons (x : list Z) l : x = dot ∨ x = dotdot →
  (∀ k, k ∈ l → k = dot ∨ k = dotdot) ↔ ∀ k, k ∈ x :: l → k = dot ∨ k = dotdot.
Proof.
  intros Hx. split; intros Hl k Hk.
  - apply elem_of_cons in Hk as [->|Hk]; [exact Hx|by apply Hl].
  - apply Hl. by right.
Qed.
Lemma Directory_IsEmpty_spec t :
  Directory_IsEmpty t = true ↔ ∀ k, k ∈ (dir_list t).*1 → k = dot ∨ k = dotdot.
Proof.
  assert (is_string dot) as Hd by (repeat constructor; lia).
  assert (is_string dotdot) as Hdd by (repeat constructor; lia).
  induction t as [|e t IH]; [split; [intros _ k Hk; by apply not_elem_of_nil in Hk|done]|].
  cbn [Directory_IsEmpty]. rewrite dir_list_cons, fmap_app.
  destruct (inUse e); cbn [andb fmap list_fmap app fst]; [|done].
  rewrite !streq_dot by (done || (simpl; lia)). change (key dot) with dot. change (key dotdot) with dotdot.
  destruct (bool_decide_reflect (key (name e) = dot)) as [E|N1]; cbn [orb negb].
  { rewrite IH. apply dots_cons. by left. }
  destruct (bool_decide_reflect (key (name e) = dotdot)) as [E|N2]; cbn [negb].
  { rewrite IH. apply dots_cons. by right. }
  split; [done|]. intros Hk. destruct (Hk (key (name e))); [left|done|done].
Qed.
End table.

Section codec.
Lemma encode_entry_length e : entry_ok e → length (encode_entry e) = 20%nat.
Proof.
  intros (_ & H1 & _ & H2 & _). unfold encode_entry. cbn [length].
  rewrite !length_app, length_take, length_drop, le32_length. lia.
Qed.
Lemma encode_entry_bytes e : entry_ok e → Forall is_u8 (encode_entry e).
Proof.
  intros (_ & _ & H1 & _ & H2). unfold encode_entry. constructor; [destruct (inUse e); unfold is_u8; lia|].
  apply Forall_app. split; [by apply Forall_take|]. apply Forall_app. split; [apply le32_bytes|].
  apply Forall_app. split; [done|by apply Forall_drop].
Qed.

Lemma list3 {A} (l : list A) : length l = 5%nat → ∃ a b c r, l = [a; b; c] ++ r ∧ length r = 2%nat.
Proof. destruct l as [|a [|b [|c r]]]; try done. intros [= E]. by exists a, b, c, r. Qed.

Lemma decode_encode_entry e : entry_ok e → decode_entry (encode_entry e) = Ok e.
Proof.
  intros (Hs & Hn & _ & Hp & _). destruct e as [u s n p]. cbn [inUse sector name padding] in *.
  destruct (list3 p Hp) as (a & b & c & r & -> & Hr). unfold decode_entry, encode_entry.
  cbn [inUse sector name padding]. change (take 3 ([a; b; c] ++ r)) with [a; b; c].
  change (drop 3 ([a; b; c] ++ r)) with r.
  rewrite (proj2 (arr_get_Ok _ 0 (if u then 1 else 0))) by done. cbn [mbind outcome_bind].
  pose proof (int_at_le32 [if u then 1 else 0; a; b; c] s (n ++ r) 4 eq_refl Hs) as Hi.
  change ([if u then 1 else 0; a; b; c] ++ le32 s ++ n ++ r) with ((if u then 1 else 0) :: [a; b; c] ++ le32 s ++ n ++ r) in Hi.
  rewrite Hi. cbn [mbind outcome_bind]. f_equal. f_equal.
  - by destruct u.
  - change (drop 8 ((if u then 1 else 0) :: [a; b; c] ++ le32 s ++ n ++ r)) with (n ++ r).
    by apply take_app_length'.
  - change (take 3 (drop 1 ((if u then 1 else 0) :: [a; b; c] ++ le32 s ++ n ++ r))) with [a; b; c].
    change (drop 18 ((if u then 1 else 0) :: [a; b; c] ++ le32 s ++ n ++ r)) with (drop 10 (n ++ r)).
    by rewrite drop_app_length' by done.
Qed.

Lemma encode_table_length t : Forall entry_ok t → length (encode_table t) = (20 * length t)%nat.
Proof.
  unfold encode_table. induction t as [|e t IH]; intros Ht; [done|]. apply Forall_cons in Ht as [He Ht].
  cbn [fmap list_fmap concat length]. rewrite length_app, encode_entry_length, IH by done. lia.
Qed.
Lemma encode_table_bytes t : Forall entry_ok t → Forall is_u8 (encode_table t).
Proof.
  unfold encode_table. induction t as [|e t IH]; intros Ht; [constructor|]. apply Forall_cons in Ht as [He Ht].
  cbn [fmap list_fmap concat]. apply Forall_app. split; [by apply encode_entry_bytes|by apply IH].
Qed.
Lemma decode_encode_table t r : Forall entry_ok t →
  decode_table (length t) (encode_table t ++ r) = Ok t.
Proof.
  induction t as [|e t IH]; intros Ht; [done|]. apply Forall_cons in Ht as [He Ht].
  cbn [length decode_table]. unfold encode_table. cbn [fmap list_fmap concat]. rewrite <- app_assoc.
  rewrite take_app_length', drop_app_length' by (by rewrite encode_entry_length).
  rewrite decode_encode_entry by done. cbn [mbind outcome_bind]. fold (encode_table t).
  rewrite IH by done. done.
Qed.
End codec.

Section directory_io_laws.
Context {D : Type} `{SectorStore D}.
Variable fill : nat → Z.
Hypothesis fill_bytes : ∀ k, is_u8 (fill k).
Implicit Types (d : D) (t : Directory).

(** The file with header [h] holds the directory [t]. *)
Definition holds_dir d h secs t : Prop :=
  take (20 * length t) (file_bytes d h secs) = encode_table t.

Lemma Directory_FetchFrom_spec fuel d f secs meta t0 t : store_ok d → file_at d (hdr f) secs meta →
  length t0 = length t → Forall entry_ok t → holds_dir d (hdr f) secs t →
  ∃ d', Directory_FetchFrom (S (S fuel)) t0 f d = Ok (t, d') ∧ store_ok d' ∧ same_content d d'.
Proof.
  intros Hd Hf Hl Ht Hh. unfold Directory_FetchFrom.
  destruct (ReadAt_prefix fuel d (hdr f) secs meta (Z.of_nat (length t0) * sizeof_DirectoryEntry) Hd Hf)
    as (d' & -> & Hd' & Hc).
  cbn [mbind outcome_bind]. unfold sizeof_DirectoryEntry.
  replace (Z.to_nat (Z.of_nat (length t0) * 20)) with (20 * length t)%nat by lia.
  rewrite Hh, Hl, decode_encode_table by done. cbn [mbind outcome_bind]. by exists d'.
Qed.

Lemma Directory_WriteBack_spec fuel d f secs meta t : store_ok d → file_at d (hdr f) secs meta →
  Forall entry_ok t → 20 * Z.of_nat (length t) ≤ numBytes (hdr f) →
  ∃ d', Directory_WriteBack fill (S (S fuel)) t f d = Ok d' ∧ store_ok d' ∧
    holds_dir d' (hdr f) secs t ∧ (∀ m, m ∉ secs → content d' m = content d m).
Proof.
  intros Hd Hf Ht Hlen. unfold Directory_WriteBack.
  destruct (WriteAt_prefix fill fuel d (hdr f) secs meta (encode_table t) fill_bytes Hd Hf)
    as (n & d' & -> & Hd' & Hb & Ho).
  { by apply encode_table_bytes. } { rewrite encode_table_length by done. lia. }
  cbn [mbind outcome_bind]. exists d'. split; [done|]. split; [done|]. split; [|done].
  unfold holds_dir. by rewrite <- encode_table_length.
Qed.
End directory_io_laws.

(** ** Theorems *)

(** C14: A directory implements a finite map from names, cut at nine characters, to
    sectors: [Find] looks up (-1 when absent), [Add] inserts and fails exactly
    when the name is present or no entry is free, [Remove] deletes and fails
    exactly when the name is absent, and [IsEmpty] holds exactly when no other
    name than "." and ".." is present; no operation leaves the table. *)
Theorem Directory_refines_map t nm s : dir_wf t → is_string nm → is_i32 s →
  Directory_Find t nm = Ok (default (-1) (dir_map t !! key nm)) ∧
  (∃ ok t', Directory_Add t nm s = (ok, t') ∧ dir_wf t' ∧ length t' = length t ∧
     (ok = true ↔ dir_map t !! key nm = None ∧ Exists (λ e, inUse e = false) t) ∧
     dir_map t' = if ok then <[key nm := s]> (dir_map t) else dir_map t) ∧
  (∃ ok t', Directory_Remove t nm = Ok (ok, t') ∧ dir_wf t' ∧ length t' = length t ∧
     (ok = true ↔ is_Some (dir_map t !! key nm)) ∧ dir_map t' = delete (key nm) (dir_map t)) ∧
  (Directory_IsEmpty t = true ↔ ∀ k, is_Some (dir_map t !! k) → k = dot ∨ k = dotdot).
Proof.
  intros Hw Hnm Hs. split; [by apply Directory_Find_spec|]. split; [|split].
  - destruct (Directory_Add_spec t nm s Hw Hnm Hs) as [[-> Hor]|(t' & -> & E & Hex & Hw' & Hl & Hm)].
    + exists false, t. split_and!; try done. split; [done|]. intros [E Hex]. exfalso.
      destruct Hor as [[x Hx]|Hall]; [congruence|].
      apply Exists_exists in Hex as (e & Hin & He). rewrite Forall_forall in Hall.
      apply Hall in Hin. congruence.
    + exists true, t'. by split_and!.
  - destruct (Directory_Remove_spec t nm Hw) as [[E ->]|(x & t' & E & -> & Hw' & Hl & Hm)].
    + exists false, t. split_and!; try done; [|by rewrite delete_id]. rewrite E. by split; [|intros []].
    + exists true, t'. split_and!; try done.
  - rewrite Directory_IsEmpty_spec. split.
    + intros Hk k [x Hx]. apply Hk. apply list_elem_of_fmap. exists (k, x).
      split; [done|]. by apply elem_of_list_to_map_2.
    + intros Hk k ([k' x] & -> & Hin)%list_elem_of_fmap. apply Hk. exists x.
      apply elem_of_list_to_map_1; [apply Hw|done].
Qed.

(** A directory written to its file is what a later fetch returns, entry by
    entry, and only the data blocks of that file change on disk. *)
Theorem Directory_roundtrip {D} `{SectorStore D} fill fuel (d : D) f secs meta t t0 :
  (∀ k, is_u8 (fill k)) → store_ok d → file_at d (hdr f) secs meta → dir_wf t →
  20 * Z.of_nat (length t) ≤ numBytes (hdr f) → length t0 = length t →
  ∃ d' d'', Directory_WriteBack fill (S (S fuel)) t f d = Ok d' ∧
    Directory_FetchFrom (S (S fuel)) t0 f d' = Ok (t, d'') ∧ store_ok d'' ∧
    (∀ m, m ∉ secs → content d'' m = content d m).
Proof.
  intros Hfill Hd Hf [Ht _] Hlen Hl.
  destruct (Directory_WriteBack_spec fill Hfill fuel d f secs meta t Hd Hf Ht Hlen) as (d' & -> & Hd' & Hh & Ho).
  destruct (Directory_FetchFrom_spec fuel d' f secs meta t0 t Hd') as (d'' & E & Hd'' & Hc); try done.
  { apply (file_at_agree d); [|done]. intros m Hm. apply Ho. intros Hin.
    destruct (file_at_split d _ secs meta Hf) as (_ & _ & _ & Hdis). by apply (Hdis m). }
  exists d', d''. split; [done|]. split; [exact E|]. split; [done|]. intros m Hm. by rewrite Hc, Ho.
Qed.

(** A table with "a.txt" in use in its second entry. *)
Definition demo_entry : DirectoryEntry := mkEntry false 7 (replicate 10 120) (replicate 5 0).
Definition demo_dir : Directory :=
  [demo_entry; mkEntry true 12 [97; 46; 116; 120; 116; 0; 0; 0; 0; 120] (replicate 5 0); demo_entry].
Lemma demo_dir_wf : dir_wf demo_dir.
Proof.
  split; [|apply NoDup_singleton].
  repeat constructor; cbn; unfold is_i32, two31; lia.
Qed.
Lemma Directory_refines_map_witness :
  Directory_Find demo_dir [97; 46; 116; 120; 116] = Ok 12 ∧
  ∃ t', Directory_Remove demo_dir [97; 46; 116; 120; 116] = Ok (true, t') ∧ dir_map t' = ∅.
Proof.
  destruct (Directory_refines_map demo_dir [97; 46; 116; 120; 116] 20) as (Hf & _ & (ok & t' & Hr & _ & _ & Hok & Hm) & _).
  - exact demo_dir_wf.
  - repeat constructor; lia.
  - unfold is_i32, two31. lia.
  - split; [rewrite Hf; reflexivity|]. exists t'. assert (ok = true) as -> by (apply Hok; by eexists).
    split; [exact Hr|]. rewrite Hm. reflexivity.
Defined.
Definition demo_dir_file : OpenFile := mkOpenFile (mkHeader DIRECTORY 200 2 ([10; 20] ++ replicate 27 0)) 0.
Lemma demo_dir_file_at : file_at demo_disk (hdr demo_dir_file) [10; 20] [].
Proof.
  constructor.
  - split; [|split; [split; [by vm_compute|reflexivity]|split; [reflexivity|split; [simpl; lia|reflexivity]]]].
    split; [by vm_compute|]. split; [by vm_compute|]. split; [by vm_compute|]. split; [reflexivity|].
    repeat (apply Forall_cons; split; [by vm_compute|]). by apply Forall_nil.
  - repeat (apply Forall_cons; split; [by vm_compute|]). by apply Forall_nil.
  - repeat constructor; set_solver.
Qed.
Lemma Directory_roundtrip_witness : ∃ d' d'',
  Directory_WriteBack (λ _, 0) 2 demo_dir demo_dir_file demo_disk = Ok d' ∧
  Directory_FetchFrom 2 (replicate 3 demo_entry) demo_dir_file d' = Ok (demo_dir, d'').
Proof.
  destruct (Directory_roundtrip (λ _, 0) 0 demo_disk demo_dir_file [10; 20] [] demo_dir (replicate 3 demo_entry))
    as (d' & d'' & E1 & E2 & _).
  - intros _. unfold is_u8. lia.
  - exact demo_store_ok.
  - exact demo_dir_file_at.
  - exact demo_dir_wf.
  - cbn. lia.
  - reflexivity.
  - exists d', d''. split; [exact E1|exact E2].
Defined.
