(* ===== verification/FileSys.v ===== *)
(** * filesys/filesys.cc: the file system

    The state of the class [FileSystem] with the disk it works on.  Every
    public operation is here with its locks; a caller runs alone, so a lock
    that is held when it is wanted would never be released ([Blocked]).  The
    printing operations have no effect on the state and are left out. *)
From S2P Require Import Prelude BitMap Memory Disk FileHdr FileGrow Directory.

Definition FreeMapSector : Z := 0.
Definition RootSector : Z := 1.
Definition FreeMapFileSize : Z := NumSectors / BitsInByte.
Definition NumDirEntries : Z := 10.
Definition DirectoryFileSize : Z := sizeof_DirectoryEntry * NumDirEntries.
Definition MaxOpenedFiles : Z := 10.

(** An entry of [openedFiles]; [None] is a pointer that is not valid. *)
Record UserFile := mkUserFile {
  object : option OpenFile;
  id : Z;
  umutex : option mutex
}.

Record FileSystem (D : Type) := mkFS {
  freeMapFile : OpenFile;
  freeMapMutex : mutex;
  directoryFile : OpenFile;
  directoryMutex : mutex;
  DirectorySector : Z;
  openedFileMap : BitMap;
  openedFileMutex : mutex;
  openedFiles : list UserFile;
  fdisk : D
}.
Arguments mkFS {D}.
Arguments freeMapFile {D}.
Arguments freeMapMutex {D}.
Arguments directoryFile {D}.
Arguments directoryMutex {D}.
Arguments DirectorySector {D}.
Arguments openedFileMap {D}.
Arguments openedFileMutex {D}.
Arguments openedFiles {D}.
Arguments fdisk {D}.

(** ** Bitmaps in files (userprog/bitmap.cc) *)
Fixpoint decode_words (n : nat) (l : list Z) (off : nat) : outcome (list Z) :=
  match n with
  | O => Ok []
  | S n' => x ← word_at l off; xs ← decode_words n' l (off + 4)%nat; Ok (x :: xs)
  end.

Section bitmap_io.
Context {D : Type} `{SectorStore D}.
Variable fill : nat → Z.
Variable fuel : nat.

(** Bytes beyond the end of the file leave the words as they were. *)
Definition BitMap_FetchFrom (b : BitMap) (f : OpenFile) (d : D) : outcome (BitMap * D) :=
  '(l, d') ← ReadAt fuel (hdr f) (numWords b * 4) 0 d;
  m ← decode_words (length (bmap b)) (l ++ drop (length l) (encode_ints (bmap b))) 0;
  Ok (set_word b m, d').
Definition BitMap_WriteBack (b : BitMap) (f : OpenFile) (d : D) : outcome D :=
  '(_, d') ← WriteAt fill fuel (hdr f) (encode_ints (bmap b)) 0 d; Ok d'.
End bitmap_io.

Section filesystem.
Context {D : Type} `{SectorStore D}.
(** What [new] leaves in headers, bitmaps, buffers and directory entries. *)
Variable junk : list Z.
Variable junkB : nat → Z.
Variable fill : nat → Z.
Variable junkE : nat → DirectoryEntry.
Variable fuel : nat.
(** The calling thread. *)
Variable tid : Z.
Implicit Types (fs : FileSystem D) (nm : list Z).

(** ** Access to the fields *)
Definition with_disk fs (d : D) := mkFS (freeMapFile fs) (freeMapMutex fs) (directoryFile fs)
  (directoryMutex fs) (DirectorySector fs) (openedFileMap fs) (openedFileMutex fs) (openedFiles fs) d.
Definition with_mapMutex fs m := mkFS (freeMapFile fs) m (directoryFile fs)
  (directoryMutex fs) (DirectorySector fs) (openedFileMap fs) (openedFileMutex fs) (openedFiles fs) (fdisk fs).
Definition with_dirMutex fs m := mkFS (freeMapFile fs) (freeMapMutex fs) (directoryFile fs)
  m (DirectorySector fs) (openedFileMap fs) (openedFileMutex fs) (openedFiles fs) (fdisk fs).
Definition with_openMutex fs m := mkFS (freeMapFile fs) (freeMapMutex fs) (directoryFile fs)
  (directoryMutex fs) (DirectorySector fs) (openedFileMap fs) m (openedFiles fs) (fdisk fs).
Definition with_cwd fs f s := mkFS (freeMapFile fs) (freeMapMutex fs) f
  (directoryMutex fs) s (openedFileMap fs) (openedFileMutex fs) (openedFiles fs) (fdisk fs).
Definition with_opened fs b l := mkFS (freeMapFile fs) (freeMapMutex fs) (directoryFile fs)
  (directoryMutex fs) (DirectorySector fs) b (openedFileMutex fs) l (fdisk fs).

(** [freeMapMutex->Acquire()] and so on. *)
Definition lock_map fs : outcome (FileSystem D) :=
  m ← mutex_acquire (freeMapMutex fs) tid; Ok (with_mapMutex fs m).
Definition unlock_map fs : outcome (FileSystem D) :=
  m ← mutex_release (freeMapMutex fs) tid; Ok (with_mapMutex fs m).
Definition lock_dir fs : outcome (FileSystem D) :=
  m ← mutex_acquire (directoryMutex fs) tid; Ok (with_dirMutex fs m).
Definition unlock_dir fs : outcome (FileSystem D) :=
  m ← mutex_release (directoryMutex fs) tid; Ok (with_dirMutex fs m).
Definition lock_open fs : outcome (FileSystem D) :=
  m ← mutex_acquire (openedFileMutex fs) tid; Ok (with_openMutex fs m).
Definition unlock_open fs : outcome (FileSystem D) :=
  m ← mutex_release (openedFileMutex fs) tid; Ok (with_openMutex fs m).
Definition unlock_both {A} (r : A) fs : outcome (A * FileSystem D) :=
  fs1 ← unlock_map fs; fs2 ← unlock_dir fs1; Ok (r, fs2).
Definition unlock_dir_ret {A} (r : A) fs : outcome (A * FileSystem D) :=
  fs1 ← unlock_dir fs; Ok (r, fs1).

(** [freeMap = new BitMap(NumSectors); freeMap->FetchFrom(freeMapFile)]. *)
Definition fetch_map fs : outcome (BitMap * FileSystem D) :=
  b ← BitMap_new junkB NumSectors;
  '(fm, d) ← BitMap_FetchFrom fuel b (freeMapFile fs) (fdisk fs);
  Ok (fm, with_disk fs d).
Definition store_map fs fm : outcome (FileSystem D) :=
  d ← BitMap_WriteBack fill fuel fm (freeMapFile fs) (fdisk fs); Ok (with_disk fs d).
(** [directory = new Directory(NumDirEntries); directory->FetchFrom(f)]. *)
Definition fetch_dir fs (f : OpenFile) : outcome (Directory * FileSystem D) :=
  '(t, d) ← Directory_FetchFrom fuel (Directory_new junkE NumDirEntries) f (fdisk fs);
  Ok (t, with_disk fs d).
Definition store_dir fs (f : OpenFile) t : outcome (FileSystem D) :=
  d ← Directory_WriteBack fill fuel t f (fdisk fs); Ok (with_disk fs d).
Definition fetch_header fs (sec : Z) : outcome (FileHeader * FileSystem D) :=
  '(h, d) ← FetchFrom (fdisk fs) sec; Ok (h, with_disk fs d).
Definition store_header fs (h : FileHeader) (sec : Z) : outcome (FileSystem D) :=
  d ← WriteBack (fdisk fs) h sec; Ok (with_disk fs d).
Definition open_file fs (sec : Z) : outcome (OpenFile * FileSystem D) :=
  '(f, d) ← OpenFile_new (fdisk fs) sec; Ok (f, with_disk fs d).
Definition allocate fs fm (fileSize which : Z) : outcome (bool * FileHeader * BitMap * FileSystem D) :=
  '(ok, h, fm', d) ← Allocate junk fill fuel fm fileSize which (fdisk fs);
  Ok (ok, h, fm', with_disk fs d).

(** ** [FileSystem::FileSystem] *)
Definition FileSystem_new (format : bool) (junkU : list UserFile) (f0 : OpenFile) (d0 : D)
    : outcome (FileSystem D) :=
  om ← BitMap_new junkB 10;
  let fs0 := mkFS f0 None f0 None RootSector om None junkU d0 in
  if format then
    fm ← BitMap_new junkB NumSectors;
    let directory := Directory_new junkE NumDirEntries in
    fm1 ← Mark fm FreeMapSector;
    fm2 ← Mark fm1 RootSector;
    '(ok1, mapHdr, fm3, fs1) ← allocate fs0 fm2 FreeMapFileSize DATA_FILE;
    _ ← ASSERT ok1;
    '(ok2, dirHdr, fm4, fs2) ← allocate fs1 fm3 DirectoryFileSize ROOT;
    _ ← ASSERT ok2;
    fs3 ← store_header fs2 mapHdr FreeMapSector;
    fs4 ← store_header fs3 dirHdr RootSector;
    '(mf, fs5) ← open_file fs4 FreeMapSector;
    '(df, fs6) ← open_file fs5 RootSector;
    let fs7 := mkFS mf None df None RootSector om None junkU (fdisk fs6) in
    fs8 ← store_map fs7 fm4;
    store_dir fs8 df directory
  else
    '(mf, fs5) ← open_file fs0 FreeMapSector;
    '(df, fs6) ← open_file fs5 RootSector;
    Ok (mkFS mf None df None RootSector om None junkU (fdisk fs6)).

(** ** Creating files and directories *)
Definition protected nm : bool := streq nm dot || streq nm dotdot.

Definition FileSystem_Create fs nm (initialSize : Z) : outcome (bool * FileSystem D) :=
  if protected nm then Ok (false, fs)
  else
    fs1 ← lock_dir fs;
    '(directory, fs2) ← fetch_dir fs1 (directoryFile fs1);
    r ← Directory_Find directory nm;
    if negb (r =? -1) then unlock_dir_ret false fs2
    else
      fs3 ← lock_map fs2;
      '(freeMap, fs4) ← fetch_map fs3;
      '(sec, freeMap1) ← Find freeMap;
      if sec =? -1 then unlock_both false fs4
      else
        let '(added, directory1) := Directory_Add directory nm sec in
        if negb added then unlock_both false fs4
        else
          '(ok, h, freeMap2, fs5) ← allocate fs4 freeMap1 initialSize DATA_FILE;
          if negb ok then unlock_both false fs5
          else
            fs6 ← store_header fs5 h sec;
            fs7 ← store_dir fs6 (directoryFile fs6) directory1;
            fs8 ← store_map fs7 freeMap2;
            unlock_both true fs8.

Definition FileSystem_CreateDir fs nm : outcome (bool * FileSystem D) :=
  if protected nm then Ok (false, fs)
  else
    fs1 ← lock_dir fs;
    '(directory, fs2) ← fetch_dir fs1 (directoryFile fs1);
    r ← Directory_Find directory nm;
    if negb (r =? -1) then unlock_dir_ret false fs2
    else
      fs3 ← lock_map fs2;
      '(freeMap, fs4) ← fetch_map fs3;
      '(sec, freeMap1) ← Find freeMap;
      if sec =? -1 then unlock_both false fs4
      else
        '(ok, dirHdr, freeMap2, fs5) ← allocate fs4 freeMap1 DirectoryFileSize DIRECTORY;
        if negb ok then unlock_both false fs5
        else
          let '(added, directory1) := Directory_Add directory nm sec in
          if negb added then unlock_both false fs5
          else
            fs6 ← store_header fs5 dirHdr sec;
            fs7 ← store_map fs6 freeMap2;
            fs8 ← store_dir fs7 (directoryFile fs7) directory1;
            '(nf, fs9) ← open_file fs8 sec;
            let newDirectory := Directory_new junkE NumDirEntries in
            let newDirectory1 := (Directory_Add newDirectory dot sec).2 in
            let newDirectory2 := (Directory_Add newDirectory1 dotdot (DirectorySector fs9)).2 in
            fs10 ← store_dir fs9 nf newDirectory2;
            unlock_both true fs10.

(** ** Opening and closing files *)
Definition FileSystem_Open fs nm : outcome (option OpenFile * FileSystem D) :=
  fs1 ← lock_dir fs;
  '(directory, fs2) ← fetch_dir fs1 (directoryFile fs1);
  sec ← Directory_Find directory nm;
  '(f, fs3) ← (if 0 <=? sec then '(f, fs') ← open_file fs2 sec; Ok (Some f, fs') else Ok (None, fs2));
  unlock_dir_ret f fs3.

(** [for (i = 0; i < MaxOpenedFiles; i++) if (openedFileMap->Test(i) &&
    openedFiles[i].id == sector)]: whether the loop finds such an [i]. *)
Fixpoint opened_loop (n : nat) (i : Z) (m : BitMap) (l : list UserFile) (sec : Z) : outcome bool :=
  match n with
  | O => Ok false
  | S n' =>
      b ← Test m i;
      if (b : bool) then
        u ← arr_get l i;
        if id u =? sec then Ok true else opened_loop n' (i + 1) m l sec
      else opened_loop n' (i + 1) m l sec
  end.
Definition is_opened fs (sec : Z) : outcome bool :=
  opened_loop (Z.to_nat MaxOpenedFiles) 0 (openedFileMap fs) (openedFiles fs) sec.

Definition FileSystem_OpenUser fs nm : outcome (Z * FileSystem D) :=
  fs1 ← lock_dir fs;
  '(directory, fs2) ← fetch_dir fs1 (directoryFile fs1);
  sec ← Directory_Find directory nm;
  if sec <? 0 then unlock_dir_ret (-1) fs2
  else
    '(openFile, fs3) ← open_file fs2 sec;
    fs4 ← unlock_dir fs3;
    '(fileHdr, fs5) ← fetch_header fs4 sec;
    if negb (IsDataFile fileHdr) then Ok (-1, fs5)
    else
      fs6 ← lock_open fs5;
      already ← is_opened fs6 sec;
      if (already : bool) then fs7 ← unlock_open fs6; Ok (-1, fs7)
      else
        '(index, m) ← Find (openedFileMap fs6);
        let fs7 := with_opened fs6 m (openedFiles fs6) in
        if index =? -1 then fs8 ← unlock_open fs7; Ok (-1, fs8)
        else
          l ← arr_set (openedFiles fs7) index (mkUserFile (Some openFile) sec (Some None));
          fs8 ← unlock_open (with_opened fs7 m l);
          Ok (index, fs8).

(** A dereference of one of the pointers of a [UserFile]. *)
Definition deref {A} (p : option A) : outcome A := match p with Some x => Ok x | None => Fault end.
(** [openedFiles[index].mutex->Acquire()] and [->Release()]. *)
Definition lock_file fs (index : Z) : outcome (FileSystem D) :=
  u ← arr_get (openedFiles fs) index;
  m ← deref (umutex u); m' ← mutex_acquire m tid;
  l ← arr_set (openedFiles fs) index (mkUserFile (object u) (id u) (Some m'));
  Ok (with_opened fs (openedFileMap fs) l).
Definition unlock_file fs (index : Z) : outcome (FileSystem D) :=
  u ← arr_get (openedFiles fs) index;
  m ← deref (umutex u); m' ← mutex_release m tid;
  l ← arr_set (openedFiles fs) index (mkUserFile (object u) (id u) (Some m'));
  Ok (with_opened fs (openedFileMap fs) l).
(** [openedFiles[index].object = f]. *)
Definition set_object fs (index : Z) (f : option OpenFile) : outcome (FileSystem D) :=
  u ← arr_get (openedFiles fs) index;
  l ← arr_set (openedFiles fs) index (mkUserFile f (id u) (umutex u));
  Ok (with_opened fs (openedFileMap fs) l).

Definition FileSystem_CloseUser fs (index : Z) : outcome (Z * FileSystem D) :=
  fs1 ← lock_open fs;
  open ← (if index <? MaxOpenedFiles then Test (openedFileMap fs1) index else Ok false);
  if (open : bool) then
    fs2 ← lock_file fs1 index;
    m ← Clear (openedFileMap fs2) index;
    fs3 ← set_object (with_opened fs2 m (openedFiles fs2)) index None;
    fs4 ← unlock_file fs3 index;
    u ← arr_get (openedFiles fs4) index;
    l ← arr_set (openedFiles fs4) index (mkUserFile (object u) (id u) None);
    fs5 ← unlock_open (with_opened fs4 (openedFileMap fs4) l);
    Ok (0, fs5)
  else fs2 ← unlock_open fs1; Ok (-1, fs2).

(** ** Reading and writing *)

(** The two guards the operations on a descriptor start with. *)
Definition valid_fd fs (index : Z) : outcome bool :=
  if MaxOpenedFiles <=? index then Ok false else Test (openedFileMap fs) index.

Definition FileSystem_WriteUser fs (buffer : list Z) (index : Z) : outcome (Z * FileSystem D) :=
  valid ← valid_fd fs index;
  if negb valid then Ok (-1, fs)
  else
    fs1 ← lock_file fs index;
    fs2 ← lock_map fs1;
    '(freeMap, fs3) ← fetch_map fs2;
    u ← arr_get (openedFiles fs3) index;
    '(fileHdr, fs4) ← fetch_header fs3 (id u);
    old ← deref (object u);
    let sizeToExtend := i32 (seekPosition old + Z.of_nat (length buffer) - numBytes fileHdr) in
    '(ok, fileHdr1, freeMap1, fs5) ←
      (if 0 <? sizeToExtend then
         '(ok, h, m, d) ← Extend junk fill fuel fileHdr freeMap sizeToExtend (fdisk fs4);
         Ok (ok, h, m, with_disk fs4 d)
       else Ok (true, fileHdr, freeMap, fs4));
    if negb ok then
      fs6 ← unlock_map fs5; fs7 ← unlock_file fs6 index; Ok (-1, fs7)
    else
      fs6 ← store_map fs5 freeMap1;
      fs7 ← store_header fs6 fileHdr1 (id u);
      fs8 ← unlock_map fs7;
      '(file, fs9) ← open_file fs8 (id u);
      '(_, fs10) ← fetch_header fs9 (id u);
      '(value, file', d) ← Write fill fuel (Seek file (seekPosition old)) buffer (fdisk fs10);
      fs11 ← set_object (with_disk fs10 d) index (Some file');
      fs12 ← unlock_file fs11 index;
      Ok (value, fs12).

(** The bytes read; their number is the result ([None] is the result -1). *)
Definition FileSystem_ReadUser fs (size index : Z) : outcome (option (list Z) * FileSystem D) :=
  valid ← valid_fd fs index;
  if negb valid then Ok (None, fs)
  else
    fs1 ← lock_file fs index;
    u ← arr_get (openedFiles fs1) index;
    f ← deref (object u);
    '(l, f', d) ← Read fuel f size (fdisk fs1);
    fs2 ← set_object (with_disk fs1 d) index (Some f');
    fs3 ← unlock_file fs2 index;
    Ok (Some l, fs3).

Definition FileSystem_SeekUser fs (index nbBytes : Z) : outcome (Z * FileSystem D) :=
  valid ← valid_fd fs index;
  if negb valid then Ok (-1, fs)
  else
    fs1 ← lock_file fs index;
    u ← arr_get (openedFiles fs1) index;
    f ← deref (object u);
    fs2 ← (if Length f =? 0 then Fault
           else set_object fs1 index (Some (Seek f (Z.rem nbBytes (Length f)))));
    fs3 ← unlock_file fs2 index;
    Ok (0, fs3).

(** ** Removing files and directories *)

(** The common end of [Remove] and [RemoveDir]. *)
Definition remove_entry fs (directory : Directory) (fileHdr : FileHeader) nm (sec : Z)
    : outcome (bool * FileSystem D) :=
  fs1 ← lock_map fs;
  '(freeMap, fs2) ← fetch_map fs1;
  '(freeMap1, d) ← Deallocate fill fuel fileHdr freeMap (fdisk fs2);
  freeMap2 ← Clear freeMap1 sec;
  '(_, directory1) ← Directory_Remove directory nm;
  fs3 ← store_map (with_disk fs2 d) freeMap2;
  fs4 ← store_dir fs3 (directoryFile fs3) directory1;
  unlock_both true fs4.

Definition FileSystem_Remove fs nm : outcome (bool * FileSystem D) :=
  fs1 ← lock_dir fs;
  '(directory, fs2) ← fetch_dir fs1 (directoryFile fs1);
  sec ← Directory_Find directory nm;
  if sec =? -1 then unlock_dir_ret false fs2
  else
    '(fileHdr, fs3) ← fetch_header fs2 sec;
    if negb (IsDataFile fileHdr) then unlock_dir_ret false fs3
    else
      fs4 ← lock_open fs3;
      already ← is_opened fs4 sec;
      fs5 ← unlock_open fs4;
      if (already : bool) then unlock_dir_ret false fs5
      else remove_entry fs5 directory fileHdr nm sec.

Definition FileSystem_RemoveDir fs nm : outcome (bool * FileSystem D) :=
  fs1 ← lock_dir fs;
  '(directory, fs2) ← fetch_dir fs1 (directoryFile fs1);
  sec ← Directory_Find directory nm;
  if sec =? -1 then unlock_dir_ret false fs2
  else
    '(fileHdr, fs3) ← fetch_header fs2 sec;
    if negb (IsDirectory fileHdr) || IsRoot fileHdr then unlock_dir_ret false fs3
    else
      '(toDeleteFile, fs4) ← open_file fs3 sec;
      '(toDelete, fs5) ← fetch_dir fs4 toDeleteFile;
      if negb (Directory_IsEmpty toDelete) then unlock_dir_ret false fs5
      else remove_entry fs5 directory fileHdr nm sec.

(** ** Walking the tree *)
Definition slash : Z := 47.

(** [strtok(s, "/")]: the next word, without the separators before it, and what
    is left behind the separator that ends it. *)
Fixpoint skip_slashes (s : list Z) : list Z :=
  match s with c :: s' => if c =? slash then skip_slashes s' else s | [] => [] end.
Fixpoint cut_word (s : list Z) : list Z * list Z :=
  match s with
  | [] => ([], [])
  | c :: s' => if c =? slash then ([], s') else let '(w, r) := cut_word s' in (c :: w, r)
  end.
Definition strtok (s : list Z) : option (list Z * list Z) :=
  match skip_slashes s with [] => None | s' => Some (cut_word s') end.

Fixpoint count_slashes (s : list Z) : Z :=
  match s with [] => 0 | c :: s' => (if c =? slash then 1 else 0) + count_slashes s' end.

(** [while (word != NULL) { path[nbFolders] = word; ... }] over the array
    [path]. *)
Fixpoint cut_path (n : nat) (s : list Z) (path : list (option (list Z))) (nbFolders : Z)
    : outcome (list (option (list Z)) * Z) :=
  match n with
  | O => Blocked
  | S n' =>
      match strtok s with
      | None => Ok (path, nbFolders)
      | Some (word, r) =>
          path' ← arr_set path nbFolders (Some word); cut_path n' r path' (nbFolders + 1)
      end
  end.

(** The array of words, of which the first [nbFolders] are set. *)
Record PathParsed := mkPath { path : list (option (list Z)); nbFolders : Z }.

Definition ParsePath (pathName : list Z) : outcome (option PathParsed) :=
  let nbWord := 1 + count_slashes pathName in
  match pathName with
  | [] => Ok None
  | _ =>
      '(p, n) ← cut_path (S (length pathName)) pathName (replicate (Z.to_nat nbWord) None) 0;
      Ok (Some (mkPath p n))
  end.

(** [n] bounds the number of folders left, [len - to]. *)
Fixpoint FileSystem_ChangeDirRec (n : nat) fs (from : OpenFile) (paths : list (option (list Z)))
    (len to : Z) : outcome (bool * FileSystem D) :=
  '(directory, fs1) ← fetch_dir fs from;
  match n with
  | O => if len <=? to then Ok (true, fs1) else Blocked
  | S n' =>
      if len <=? to then Ok (true, fs1)
      else
        p ← arr_get paths to; nm ← deref p;
        sec ← Directory_Find directory nm;
        if sec <? 0 then Ok (false, fs1)
        else
          '(h, fs2) ← fetch_header fs1 sec;
          if negb (IsDirectory h) && negb (IsRoot h) then Ok (false, fs2)
          else
            '(newDirectoryFile, fs3) ← open_file fs2 sec;
            FileSystem_ChangeDirRec n' (with_cwd fs3 newDirectoryFile sec) newDirectoryFile paths len (to + 1)
  end.

Definition FileSystem_ChangeDir fs (pathName : list Z) : outcome (bool * FileSystem D) :=
  parsed ← ParsePath pathName;
  match parsed with
  | None => Ok (false, fs)
  | Some pp =>
      fs1 ← lock_dir fs;
      '(tmpFile, fs2) ← open_file fs1 (DirectorySector fs1);
      let tmpSector := DirectorySector fs1 in
      '(success, fs3) ← FileSystem_ChangeDirRec (Z.to_nat (nbFolders pp)) fs2 (directoryFile fs2)
                          (path pp) (nbFolders pp) 0;
      unlock_dir_ret success (if (success : bool) then fs3 else with_cwd fs3 tmpFile tmpSector)
  end.

(** ** Queries *)
Definition FileSystem_FileExists fs nm : outcome (bool * FileSystem D) :=
  fs1 ← lock_dir fs;
  '(directory, fs2) ← fetch_dir fs1 (directoryFile fs1);
  sec ← Directory_Find directory nm;
  unlock_dir_ret (negb (sec =? -1)) fs2.

Definition FileSystem_GetFileSize fs nm : outcome (Z * FileSystem D) :=
  fs1 ← lock_dir fs;
  '(directory, fs2) ← fetch_dir fs1 (directoryFile fs1);
  sec ← Directory_Find directory nm;
  if sec =? -1 then unlock_dir_ret (-1) fs2
  else '(h, fs3) ← fetch_header fs2 sec; unlock_dir_ret (FileLength h) fs3.

Definition FileSystem_IsDataFile fs nm : outcome (bool * FileSystem D) :=
  fs1 ← lock_dir fs;
  '(directory, fs2) ← fetch_dir fs1 (directoryFile fs1);
  sec ← Directory_Find directory nm;
  if sec =? -1 then unlock_dir_ret false fs2
  else '(h, fs3) ← fetch_header fs2 sec; unlock_dir_ret (IsDataFile h) fs3.

(** The lines [List] prints: the length of each file, whether it is a data file
    (directories are in colour) and the array that holds its name. *)
Fixpoint Directory_List (table : Directory) (d : D) : outcome (list (Z * bool * list Z) * D) :=
  match table with
  | [] => Ok ([], d)
  | e :: rest =>
      if inUse e then
        '(h, d1) ← FetchFrom d (sector e);
        '(rows, d2) ← Directory_List rest d1;
        Ok ((FileLength h, IsDataFile h, name e) :: rows, d2)
      else Directory_List rest d
  end.
Definition FileSystem_List fs : outcome (list (Z * bool * list Z) * FileSystem D) :=
  fs1 ← lock_dir fs;
  '(directory, fs2) ← fetch_dir fs1 (directoryFile fs1);
  '(rows, d) ← Directory_List directory (fdisk fs2);
  unlock_dir_ret rows (with_disk fs2 d).
End filesystem.
