(* ===== verification/FileSysInv.v ===== *)
(** * The file system's invariant

    Every sector of the disk is either free in the free map or belongs to
    exactly one file; every directory file holds a table whose entries name
    files; open descriptors refer to data files whose header is up to date.
    The operations of filesys/filesys.cc keep this invariant and act on the
    abstract state (files, directories, free map) as their names say. *)
From S2P Require Import Prelude BitMap Memory Disk FileHdr FileGrow Directory FileSys.

(** ** The free map in its file *)
Section map_io.
Context {D : Type} `{SectorStore D}.
Implicit Types (d : D) (fm : BitMap).

Lemma decode_words_encode l pre r : Forall is_u32 l →
  decode_words (length l) (pre ++ encode_ints l ++ r) (length pre) = Ok l.
Proof.
  revert pre. induction l as [|x l IH]; intros pre Hl; [done|]. apply Forall_cons in Hl as [Hx Hl].
  cbn [length decode_words]. change (encode_ints (x :: l)) with (le32 x ++ encode_ints l).
  rewrite <- app_assoc, word_at_le32 by done. cbn [mbind outcome_bind].
  replace (length pre + 4)%nat with (length (pre ++ le32 x)) by (by rewrite length_app).
  rewrite (app_assoc pre). rewrite IH by done. done.
Qed.

Definition holds_map d h secs fm : Prop :=
  take (4 * length (bmap fm)) (file_bytes d h secs) = encode_ints (bmap fm).

Lemma bitmap_eq b b' : bm_wf b → bm_wf b' → numBits b = numBits b' → set_word b (bmap b') = b'.
Proof.
  destruct b as [n w m], b' as [n' w' m']. intros (_ & E & _) (_ & E' & _). cbn in *. intros ->.
  unfold set_word. cbn. congruence.
Qed.

Lemma BitMap_FetchFrom_spec fuel d f secs meta b0 fm : store_ok d → file_at d (hdr f) secs meta →
  bm_wf b0 → bm_wf fm → numBits b0 = numBits fm → holds_map d (hdr f) secs fm →
  ∃ d', BitMap_FetchFrom (S (S fuel)) b0 f d = Ok (fm, d') ∧ store_ok d' ∧ same_content d d'.
Proof.
  intros Hd Hf Hb Hm En Hh. unfold BitMap_FetchFrom.
  destruct (ReadAt_prefix fuel d (hdr f) secs meta (numWords b0 * 4) Hd Hf) as (d' & -> & Hd' & Hc).
  pose proof Hb as (_ & Ew & El & _). pose proof Hm as (_ & Ew' & El' & Hu).
  assert (length (bmap b0) = length (bmap fm)) as Elen by (rewrite En in Ew; lia).
  cbn [mbind outcome_bind]. replace (Z.to_nat (numWords b0 * 4)) with (4 * length (bmap fm))%nat by lia.
  rewrite Hh, Elen. pose proof (decode_words_encode (bmap fm) [] (drop (length (encode_ints (bmap fm))) (encode_ints (bmap b0))) Hu) as Hdec.
  cbn [app length] in Hdec. rewrite Hdec. cbn [mbind outcome_bind].
  rewrite bitmap_eq by done. by exists d'.
Qed.

Lemma BitMap_WriteBack_spec fill fuel d f secs meta fm : (∀ k, is_u8 (fill k)) → store_ok d →
  file_at d (hdr f) secs meta → 4 * Z.of_nat (length (bmap fm)) ≤ numBytes (hdr f) →
  ∃ d', BitMap_WriteBack fill (S (S fuel)) fm f d = Ok d' ∧ store_ok d' ∧
    holds_map d' (hdr f) secs fm ∧ (∀ m, m ∉ secs → content d' m = content d m).
Proof.
  intros Hfill Hd Hf Hl. unfold BitMap_WriteBack.
  destruct (WriteAt_prefix fill fuel d (hdr f) secs meta (encode_ints (bmap fm)) Hfill Hd Hf)
    as (n & d' & -> & Hd' & Hb & Ho).
  { apply encode_ints_bytes. } { rewrite encode_ints_length. lia. }
  cbn [mbind outcome_bind]. exists d'. split; [done|]. split; [done|]. split; [|done].
  unfold holds_map. by rewrite <- encode_ints_length.
Qed.
End map_io.

(** ** The abstract state *)
Record file := mkFile { fhdr : FileHeader; fsecs : list Z; fmeta : list Z }.
Definition sectors (s : Z) (x : file) : list Z := s :: fsecs x ++ fmeta x.
Definition in_use (files : gmap Z file) (m : Z) : Prop :=
  ∃ s x, files !! s = Some x ∧ m ∈ sectors s x.

Section invariant.
Context {D : Type} `{SectorStore D}.
Implicit Types (d : D) (files : gmap Z file) (dirs : gmap Z Directory) (x : file) (t : Directory).

Definition file_ok d s x : Prop :=
  0 ≤ s < NumSectors ∧ content d s = encode (fhdr x) ∧
  file_at d (fhdr x) (fsecs x) (fmeta x) ∧ s ∉ fsecs x ++ fmeta x.

Record layout d files : Prop := mkLayout {
  lay_file s x : files !! s = Some x → file_ok d s x;
  lay_disjoint s1 x1 s2 x2 m : files !! s1 = Some x1 → files !! s2 = Some x2 →
    m ∈ sectors s1 x1 → m ∈ sectors s2 x2 → s1 = s2
}.

Definition dir_at d files s t : Prop := ∃ x, files !! s = Some x ∧ IsDirectory (fhdr x) = true ∧
  numBytes (fhdr x) = DirectoryFileSize ∧ length t = Z.to_nat NumDirEntries ∧ dir_wf t ∧
  holds_dir d (fhdr x) (fsecs x) t.
Record good d files dirs : Prop := mkGood {
  g_layout : layout d files;
  g_dirs s t : dirs !! s = Some t → dir_at d files s t;
  g_all s x : files !! s = Some x → IsDirectory (fhdr x) = true → is_Some (dirs !! s)
}.

(** Which files the entries of the directories name. *)
Record links files dirs : Prop := mkLinks {
  ln_entry s t k r : dirs !! s = Some t → dir_map t !! k = Some r →
    r ≠ FreeMapSector ∧ ∃ x, files !! r = Some x ∧ (k = dot ∨ k = dotdot → IsDirectory (fhdr x) = true);
  ln_unique s1 t1 k1 s2 t2 k2 r x : dirs !! s1 = Some t1 → dirs !! s2 = Some t2 →
    dir_map t1 !! k1 = Some r → dir_map t2 !! k2 = Some r → files !! r = Some x →
    IsDirectory (fhdr x) = false → s1 = s2 ∧ k1 = k2
}.

(** No sector is lost and none is used twice. *)
Definition exact files (fm : BitMap) : Prop :=
  bm_wf fm ∧ numBits fm = NumSectors ∧
  ∀ m, m ∈ free_set fm ↔ 0 ≤ m < NumSectors ∧ ¬ in_use files m.
Definition map_at d files (fm : BitMap) : Prop := ∃ x, files !! FreeMapSector = Some x ∧
  IsDataFile (fhdr x) = true ∧ FreeMapFileSize ≤ numBytes (fhdr x) ∧ holds_map d (fhdr x) (fsecs x) fm.

(** *** Frames *)
Lemma data_not_dir h : IsDataFile h = true → IsDirectory h = false.
Proof. unfold IsDataFile, IsDirectory. intros ->%Z.eqb_eq. done. Qed.

Lemma sectors_in_use files s x m : files !! s = Some x → m ∈ sectors s x → in_use files m.
Proof. intros. by exists s, x. Qed.

Lemma file_bytes_ext d d' h secs : (∀ m, m ∈ secs → content d' m = content d m) →
  file_bytes d' h secs = file_bytes d h secs.
Proof.
  intros Hc. unfold file_bytes, block_bytes. f_equal. f_equal. apply list_fmap_ext.
  intros i m Hm%list_elem_of_lookup_2. by apply Hc.
Qed.

Lemma file_ok_frame d d' s x : (∀ m, m = s ∨ m ∈ fmeta x → content d' m = content d m) →
  file_ok d s x → file_ok d' s x.
Proof.
  intros Hc (H1 & H2 & H3 & H4). split; [done|]. split; [rewrite Hc by (by left); done|].
  split; [|done]. apply (file_at_agree d); [|done]. intros m Hm. apply Hc. by right.
Qed.

Lemma data_sector_others d files s x s2 x2 m : layout d files → files !! s = Some x →
  files !! s2 = Some x2 → m ∈ fsecs x → m = s2 ∨ m ∈ fmeta x2 ∨ (s2 ≠ s ∧ m ∈ fsecs x2) → False.
Proof.
  intros Hl Hx Hx2 Hm Ho.
  assert (s2 = s) as ->.
  { apply (lay_disjoint _ _ Hl s2 x2 s x m Hx2 Hx); unfold sectors; [|set_solver]. set_solver. }
  rewrite Hx in Hx2. injection Hx2 as <-. destruct (lay_file _ _ Hl s x Hx) as (_ & _ & Hf & Hs).
  destruct Ho as [->|[Ho|[? _]]]; [set_solver| |done].
  destruct (file_at_split d _ _ _ Hf) as (_ & _ & _ & Hdis). by apply (Hdis m).
Qed.

(** Rewriting the data of one file. *)
Lemma layout_data d d' files s x : layout d files → files !! s = Some x →
  (∀ m, m ∉ fsecs x → content d' m = content d m) → layout d' files.
Proof.
  intros Hl Hx Hc. constructor; [|apply Hl]. intros s2 x2 Hx2.
  apply (file_ok_frame d); [|by apply Hl]. intros m Hm. apply Hc. intros Hin.
  eapply (data_sector_others d files s x s2 x2 m); try done. set_solver.
Qed.

Lemma dir_at_data d d' files s x s2 t : layout d files → files !! s = Some x →
  (∀ m, m ∉ fsecs x → content d' m = content d m) → s2 ≠ s → dir_at d files s2 t → dir_at d' files s2 t.
Proof.
  intros Hl Hx Hc Hne (x2 & Hx2 & H1 & H2 & H3 & H4 & H5). exists x2. split_and!; try done.
  unfold holds_dir. rewrite (file_bytes_ext d d'); [done|]. intros m Hm. apply Hc. intros Hin.
  eapply (data_sector_others d files s x s2 x2 m); try done. set_solver.
Qed.

Lemma map_at_data d d' files s x fm : layout d files → files !! s = Some x → s ≠ FreeMapSector →
  (∀ m, m ∉ fsecs x → content d' m = content d m) → map_at d files fm → map_at d' files fm.
Proof.
  intros Hl Hx Hne Hc (x2 & Hx2 & H1 & H2 & H3). exists x2. split_and!; try done.
  unfold holds_map. rewrite (file_bytes_ext d d'); [done|]. intros m Hm. apply Hc. intros Hin.
  eapply (data_sector_others d files s x FreeMapSector x2 m); try done. set_solver.
Qed.

(** Storing a new table in a directory. *)
Lemma good_store_dir d d' files dirs s x t : good d files dirs → files !! s = Some x →
  (∀ m, m ∉ fsecs x → content d' m = content d m) → dir_at d' files s t →
  good d' files (<[s := t]> dirs).
Proof.
  intros [Hl Hds Hall] Hx Hc Ht. constructor.
  - by apply (layout_data d d' files s x).
  - intros s2 t2 [[<- <-]|[Hne H2]]%lookup_insert_Some; [done|].
    apply (dir_at_data d d' files s x); try done. by apply Hds.
  - intros s2 x2 Hx2 Hd. destruct (decide (s2 = s)) as [->|Hne].
    + rewrite lookup_insert_eq. by eexists.
    + rewrite lookup_insert_ne by done. by apply (Hall s2 x2).
Qed.

(** Rewriting the data of a file that is not a directory. *)
Lemma good_store_data d d' files dirs s x : good d files dirs → files !! s = Some x →
  IsDirectory (fhdr x) = false → (∀ m, m ∉ fsecs x → content d' m = content d m) →
  good d' files dirs.
Proof.
  intros [Hl Hds Hall] Hx Hd Hc. constructor; [by apply (layout_data d d' files s x)| |done].
  intros s2 t2 H2. apply (dir_at_data d d' files s x); try done; [|by apply Hds].
  intros ->. destruct (Hds s t2 H2) as (x2 & Hx2 & E & _). congruence.
Qed.
End invariant.

Section changes.
Context {D : Type} `{SectorStore D}.
Implicit Types (d : D) (files : gmap Z file) (dirs : gmap Z Directory) (x : file) (t : Directory).

Lemma in_use_delete files s s2 x2 m : files !! s2 = Some x2 → s2 ≠ s → m ∈ sectors s2 x2 →
  in_use (delete s files) m.
Proof. intros Hx Hne Hm. exists s2, x2. by rewrite lookup_delete_ne. Qed.

(** Adding a file, or replacing one, whose sectors nobody else uses. *)
Lemma layout_put d d' files s x : layout d files →
  (∀ m, in_use (delete s files) m → content d' m = content d m) →
  (∀ m, m ∈ sectors s x → ¬ in_use (delete s files) m) → file_ok d' s x →
  layout d' (<[s := x]> files).
Proof.
  intros Hl Hc Hfree Hok. constructor.
  - intros s2 x2 [[<- <-]|[Hne Hx2]]%lookup_insert_Some; [done|].
    apply (file_ok_frame d); [|by apply Hl]. intros m Hm. apply Hc.
    apply (in_use_delete files s s2 x2); [done|done|]. unfold sectors. set_solver.
  - intros s1 x1 s2 x2 m [[<- <-]|[Hne1 Hx1]]%lookup_insert_Some [[<- <-]|[Hne2 Hx2]]%lookup_insert_Some H1 H2.
    + done.
    + exfalso. apply (Hfree m H1). by apply (in_use_delete files s s2 x2).
    + exfalso. apply (Hfree m H2). by apply (in_use_delete files s s1 x1).
    + by apply (lay_disjoint _ _ Hl s1 x1 s2 x2 m).
Qed.

Lemma dir_at_other d d' files s x s2 t :
  (∀ m, in_use (delete s files) m → content d' m = content d m) → s2 ≠ s →
  dir_at d files s2 t → dir_at d' (<[s := x]> files) s2 t.
Proof.
  intros Hc Hne (x2 & Hx2 & H1 & H2 & H3 & H4 & H5). exists x2. rewrite lookup_insert_ne by done.
  split_and!; try done. unfold holds_dir. rewrite (file_bytes_ext d d'); [done|].
  intros m Hm. apply Hc. apply (in_use_delete files s s2 x2); [done|done|]. unfold sectors. set_solver.
Qed.

Lemma good_put d d' files dirs s x : good d files dirs → dirs !! s = None →
  IsDirectory (fhdr x) = false →
  (∀ m, in_use (delete s files) m → content d' m = content d m) →
  (∀ m, m ∈ sectors s x → ¬ in_use (delete s files) m) → file_ok d' s x →
  good d' (<[s := x]> files) dirs.
Proof.
  intros [Hl Hds Hall] Hn Hd Hc Hfree Hok. constructor; [by apply (layout_put d)| |].
  - intros s2 t2 H2. apply (dir_at_other d); [done| |by apply Hds]. congruence.
  - intros s2 x2 [[<- <-]|[Hne Hx2]]%lookup_insert_Some E; [congruence|]. by apply (Hall s2 x2).
Qed.

(** A new directory with its table. *)
Lemma good_put_dir d d' files dirs s x t : good d files dirs →
  (∀ m, in_use (delete s files) m → content d' m = content d m) →
  (∀ m, m ∈ sectors s x → ¬ in_use (delete s files) m) → file_ok d' s x →
  dir_at d' (<[s := x]> files) s t →
  good d' (<[s := x]> files) (<[s := t]> dirs).
Proof.
  intros [Hl Hds Hall] Hc Hfree Hok Ht. constructor; [by apply (layout_put d)| |].
  - intros s2 t2 [[<- <-]|[Hne H2]]%lookup_insert_Some; [done|].
    apply (dir_at_other d); [done|done|by apply Hds].
  - intros s2 x2 [[<- <-]|[Hne Hx2]]%lookup_insert_Some E; [rewrite lookup_insert_eq; by eexists|].
    rewrite lookup_insert_ne by done. by apply (Hall s2 x2).
Qed.

Lemma map_at_other d d' files s x fm :
  (∀ m, in_use (delete s files) m → content d' m = content d m) → s ≠ FreeMapSector →
  map_at d files fm → map_at d' (<[s := x]> files) fm.
Proof.
  intros Hc Hne (x2 & Hx2 & H1 & H2 & H3). exists x2. rewrite lookup_insert_ne by done.
  split_and!; try done. unfold holds_map. rewrite (file_bytes_ext d d'); [done|].
  intros m Hm. apply Hc. apply (in_use_delete files s FreeMapSector x2); [done|done|]. unfold sectors. set_solver.
Qed.

(** Forgetting a file that is not a directory. *)
Lemma good_delete d files dirs s x : good d files dirs → files !! s = Some x →
  IsDirectory (fhdr x) = false → good d (delete s files) dirs.
Proof.
  intros [Hl Hds Hall] Hx Hd. constructor; [constructor| |].
  - intros s2 x2 [_ Hx2]%lookup_delete_Some. by apply Hl.
  - intros s1 x1 s2 x2 m [_ H1]%lookup_delete_Some [_ H2]%lookup_delete_Some. by apply Hl.
  - intros s2 t2 H2. destruct (Hds s2 t2 H2) as (x2 & Hx2 & H3). exists x2.
    rewrite lookup_delete_ne; [done|]. intros ->. destruct H3. congruence.
  - intros s2 x2 [_ Hx2]%lookup_delete_Some. by apply Hall.
Qed.

(** Only sectors nobody uses have changed. *)
Lemma good_free d d' files dirs : good d files dirs →
  (∀ m, in_use files m → content d' m = content d m) → good d' files dirs.
Proof.
  intros [Hl Hds Hall] Hc. constructor; [constructor; [|apply Hl]| |done].
  - intros s x Hx. apply (file_ok_frame d); [|by apply Hl]. intros m Hm. apply Hc.
    apply (sectors_in_use files s x); [done|]. unfold sectors. set_solver.
  - intros s t Ht. destruct (Hds s t Ht) as (x & Hx & H1 & H2 & H3 & H4 & H5). exists x.
    split_and!; try done. unfold holds_dir. rewrite (file_bytes_ext d d'); [done|]. intros m Hm. apply Hc.
    apply (sectors_in_use files s x); [done|]. unfold sectors. set_solver.
Qed.
Lemma map_at_free d d' files fm : (∀ m, in_use files m → content d' m = content d m) →
  map_at d files fm → map_at d' files fm.
Proof.
  intros Hc (x & Hx & H1 & H2 & H3). exists x. split_and!; try done. unfold holds_map.
  rewrite (file_bytes_ext d d'); [done|]. intros m Hm. apply Hc.
  apply (sectors_in_use files FreeMapSector x); [done|]. unfold sectors. set_solver.
Qed.

(** *** The free map *)
Lemma in_use_insert files s x m :
  in_use (<[s := x]> files) m ↔ m ∈ sectors s x ∨ in_use (delete s files) m.
Proof.
  split.
  - intros (s2 & x2 & [[<- <-]|[Hne Hx2]]%lookup_insert_Some & Hm); [by left|]. right.
    by apply (in_use_delete files s s2 x2).
  - intros [Hm|(s2 & x2 & [Hne Hx2]%lookup_delete_Some & Hm)].
    + exists s, x. by rewrite lookup_insert_eq.
    + exists s2, x2. by rewrite lookup_insert_ne.
Qed.
Lemma in_use_split files s x m : files !! s = Some x →
  in_use files m ↔ m ∈ sectors s x ∨ in_use (delete s files) m.
Proof. intros Hx. by rewrite <- in_use_insert, insert_id. Qed.

(** Taking the sectors of a new file, or more sectors for an old one. *)
Lemma exact_take files fm fm' s x l : exact files fm → takes fm fm' l →
  (∀ m, in_use (<[s := x]> files) m ↔ m ∈ l ∨ in_use files m) → exact (<[s := x]> files) fm'.
Proof.
  intros (H1 & H2 & H3) (K1 & K2 & K3 & K4 & K5) Hu. split; [done|]. split; [congruence|].
  intros m. rewrite K5, elem_of_difference, elem_of_list_to_set, H3, Hu. tauto.
Qed.
Lemma exact_give d files fm fm' s x : layout d files → files !! s = Some x → exact files fm →
  gives fm fm' (sectors s x) → exact (delete s files) fm'.
Proof.
  intros Hl Hx (H1 & H2 & H3) (K1 & K2 & K3). split; [done|]. split; [congruence|].
  intros m. rewrite K3, elem_of_union, elem_of_list_to_set, H3, (in_use_split files s x m Hx).
  split; [|destruct (decide (m ∈ sectors s x)); tauto].
  intros [Hm|[? ?]]; [|tauto]. split.
  - destruct (lay_file _ _ Hl s x Hx) as (Hs & _ & Hf & _). unfold sectors in Hm.
    apply elem_of_cons in Hm as [->|Hm]; [done|].
    destruct (file_at_facts _ _ _ _ Hf) as (_ & Hd & _). unfold in_disk in Hd.
    rewrite Forall_forall in Hd. by apply Hd.
  - intros (s2 & x2 & [Hne Hx2]%lookup_delete_Some & Hm2). apply Hne.
    by apply (lay_disjoint _ _ Hl s x s2 x2 m).
Qed.
Lemma exact_ok files fm l : exact files fm → (∀ m, m ∈ l → in_use files m) → fmap_ok fm l.
Proof. intros (H1 & H2 & H3) Hl. constructor; [done|done|]. intros m Hm. rewrite H3. naive_solver. Qed.
End changes.

(** ** Well-formed file systems *)
Record astate := mkA { a_files : gmap Z file; a_dirs : gmap Z Directory; a_free : BitMap }.

(** The table of open descriptors. *)
Record opened_ok (om : BitMap) (uf : list UserFile) (files : gmap Z file) : Prop := mkOpened {
  op_map : bm_wf om ∧ numBits om = MaxOpenedFiles ∧ length uf = Z.to_nat MaxOpenedFiles;
  op_file i : 0 ≤ i < MaxOpenedFiles → bit om i = true → ∃ u x f,
    uf !! Z.to_nat i = Some u ∧ files !! id u = Some x ∧ IsDataFile (fhdr x) = true ∧
    id u ≠ FreeMapSector ∧ object u = Some f ∧ hdr f = fhdr x ∧ umutex u = Some None;
  op_inj i j u v : 0 ≤ i < MaxOpenedFiles → 0 ≤ j < MaxOpenedFiles → bit om i = true → bit om j = true →
    uf !! Z.to_nat i = Some u → uf !! Z.to_nat j = Some v → id u = id v → i = j
}.

Section wf.
Context {D : Type} `{SectorStore D}.
Implicit Types (d : D) (fs : FileSystem D) (A : astate).

Record disk_wf d A : Prop := mkDiskWf {
  dw_store : store_ok d;
  dw_good : good d (a_files A) (a_dirs A);
  dw_links : links (a_files A) (a_dirs A);
  dw_exact : exact (a_files A) (a_free A);
  dw_map : map_at d (a_files A) (a_free A)
}.
Record fs_wf fs A : Prop := mkFsWf {
  fw_disk : disk_wf (fdisk fs) A;
  fw_locks : freeMapMutex fs = None ∧ directoryMutex fs = None ∧ openedFileMutex fs = None;
  fw_map : ∃ x, a_files A !! FreeMapSector = Some x ∧ hdr (freeMapFile fs) = fhdr x;
  fw_cwd : ∃ x t, a_files A !! DirectorySector fs = Some x ∧ hdr (directoryFile fs) = fhdr x ∧
    a_dirs A !! DirectorySector fs = Some t;
  fw_open : opened_ok (openedFileMap fs) (openedFiles fs) (a_files A)
}.

Lemma disk_wf_same d d' A : disk_wf d A → store_ok d' → same_content d d' → disk_wf d' A.
Proof.
  intros [H1 H2 H3 H4 H5] Hd' Hc. constructor; try done.
  - apply (good_free d); [done|]. intros m _. apply Hc.
  - apply (map_at_free d); [|done]. intros m _. apply Hc.
Qed.
Lemma fs_wf_same fs d' A : fs_wf fs A → store_ok d' → same_content (fdisk fs) d' →
  fs_wf (with_disk fs d') A.
Proof.
  intros [H1 H2 H3 H4 H5] Hd' Hc. constructor; try done. by apply (disk_wf_same (fdisk fs)).
Qed.

Lemma opened_put om uf files s x : opened_ok om uf files → files !! s = None →
  opened_ok om uf (<[s := x]> files).
Proof.
  intros [H1 H2 H3] Hs. constructor; [done| |done]. intros i Hi Hb.
  destruct (H2 i Hi Hb) as (u & y & f & E1 & E2 & E3). exists u, y, f. split; [done|].
  split; [|done]. rewrite lookup_insert_ne; [done|]. congruence.
Qed.

Variable junk : list Z.
Variable junkB fill : nat → Z.
Variable junkE : nat → DirectoryEntry.
Hypothesis fill_bytes : ∀ k, is_u8 (fill k).
Hypothesis junk_ok : length junk = 29%nat ∧ Forall is_i32 junk.
Hypothesis junkE_ok : ∀ i, entry_ok (junkE i).

Lemma Directory_new_length n : length (Directory_new junkE n) = Z.to_nat n.
Proof. unfold Directory_new. by rewrite length_fmap, length_seq. Qed.

Lemma fetch_dir_spec fuel fs f A s x t : disk_wf (fdisk fs) A → a_files A !! s = Some x →
  a_dirs A !! s = Some t → hdr f = fhdr x →
  ∃ d', fetch_dir junkE (S (S fuel)) fs f = Ok (t, with_disk fs d') ∧ store_ok d' ∧
    same_content (fdisk fs) d'.
Proof.
  intros Hw Hx Ht Hh. unfold fetch_dir. destruct (g_dirs _ _ _ (dw_good _ _ Hw) s t Ht) as (x' & Hx' & _ & _ & Hl & [Hok _] & Hd).
  rewrite Hx in Hx'. injection Hx' as <-.
  destruct (lay_file _ _ (g_layout _ _ _ (dw_good _ _ Hw)) s x Hx) as (_ & _ & Hf & _).
  rewrite <- Hh in Hd, Hf.
  destruct (Directory_FetchFrom_spec fuel (fdisk fs) f (fsecs x) (fmeta x) (Directory_new junkE NumDirEntries) t)
    as (d' & -> & Hd' & Hc); try done; [apply Hw|].
  cbn [mbind outcome_bind]. by exists d'.
Qed.

Lemma fetch_map_spec fuel fs A x : disk_wf (fdisk fs) A → a_files A !! FreeMapSector = Some x →
  hdr (freeMapFile fs) = fhdr x →
  ∃ d', fetch_map junkB (S (S fuel)) fs = Ok (a_free A, with_disk fs d') ∧ store_ok d' ∧
    same_content (fdisk fs) d'.
Proof.
  intros Hw Hx Hh. unfold fetch_map.
  destruct (BitMap_new_spec junkB NumSectors) as (b & -> & Hb & Hn & _); [by vm_compute|].
  cbn [mbind outcome_bind]. destruct (dw_map _ _ Hw) as (x' & Hx' & _ & _ & Hm).
  rewrite Hx in Hx'. injection Hx' as <-.
  destruct (lay_file _ _ (g_layout _ _ _ (dw_good _ _ Hw)) _ x Hx) as (_ & _ & Hf & _).
  rewrite <- Hh in Hm, Hf. destruct (dw_exact _ _ Hw) as (Hb' & Hn' & _).
  destruct (BitMap_FetchFrom_spec fuel (fdisk fs) (freeMapFile fs) (fsecs x) (fmeta x) b (a_free A))
    as (d' & -> & Hd' & Hc); try done; [apply Hw|congruence|].
  cbn [mbind outcome_bind]. by exists d'.
Qed.

Lemma FetchFrom_file d s x : store_ok d → file_ok d s x →
  ∃ d', FetchFrom d s = Ok (fhdr x, d') ∧ store_ok d' ∧ same_content d d'.
Proof.
  intros Hd (Hs & Hc & Hf & _). unfold FetchFrom.
  destruct (sread_law d s Hd Hs) as (d' & -> & Hd' & Hc').
  cbn [mbind outcome_bind]. rewrite Hc, decode_encode by apply (file_at_facts _ _ _ _ Hf).
  cbn [mbind outcome_bind]. by exists d'.
Qed.
Lemma open_file_ok fs s x : store_ok (fdisk fs) → file_ok (fdisk fs) s x →
  ∃ d', open_file fs s = Ok (mkOpenFile (fhdr x) 0, with_disk fs d') ∧ store_ok d' ∧
    same_content (fdisk fs) d'.
Proof.
  intros Hd Hx. unfold open_file, OpenFile_new.
  destruct (FetchFrom_file (fdisk fs) s x Hd Hx) as (d' & -> & Hd' & Hc).
  cbn [mbind outcome_bind]. by exists d'.
Qed.
Lemma disk_file d A s x : disk_wf d A → a_files A !! s = Some x → file_ok d s x.
Proof. intros Hw. apply (lay_file _ _ (g_layout _ _ _ (dw_good _ _ Hw))). Qed.
Lemma fetch_header_spec fs A s x : disk_wf (fdisk fs) A → a_files A !! s = Some x →
  ∃ d', fetch_header fs s = Ok (fhdr x, with_disk fs d') ∧ store_ok d' ∧ same_content (fdisk fs) d'.
Proof.
  intros Hw Hx. unfold fetch_header.
  destruct (FetchFrom_file (fdisk fs) s x (dw_store _ _ Hw) (disk_file _ _ _ _ Hw Hx)) as (d' & -> & Hd' & Hc).
  cbn [mbind outcome_bind]. by exists d'.
Qed.
Lemma open_file_spec fs A s x : disk_wf (fdisk fs) A → a_files A !! s = Some x →
  ∃ d', open_file fs s = Ok (mkOpenFile (fhdr x) 0, with_disk fs d') ∧ store_ok d' ∧
    same_content (fdisk fs) d'.
Proof. intros Hw Hx. apply open_file_ok; [apply Hw|]. by apply (disk_file _ A). Qed.

Lemma store_header_spec fs h s : store_ok (fdisk fs) → hdr_wf h → 0 ≤ s < NumSectors →
  ∃ d', store_header fs h s = Ok (with_disk fs d') ∧ store_ok d' ∧
    content d' s = encode h ∧ (∀ m, m ≠ s → content d' m = content (fdisk fs) m).
Proof.
  intros Hd Hh Hs. unfold store_header, WriteBack.
  destruct (swrite_law (fdisk fs) s (encode h) Hd Hs (encode_sector h Hh)) as (d' & -> & Hd' & Hc).
  cbn [mbind outcome_bind]. exists d'. split; [done|]. split; [done|].
  split; [by rewrite Hc, decide_True|]. intros m Hm. by rewrite Hc, decide_False.
Qed.

Lemma store_dir_spec fuel fs f files dirs s x t : store_ok (fdisk fs) → good (fdisk fs) files dirs →
  files !! s = Some x → hdr f = fhdr x → IsDirectory (fhdr x) = true →
  numBytes (fhdr x) = DirectoryFileSize → length t = Z.to_nat NumDirEntries → dir_wf t →
  ∃ d', store_dir fill (S (S fuel)) fs f t = Ok (with_disk fs d') ∧ store_ok d' ∧
    good d' files (<[s := t]> dirs) ∧ (∀ m, m ∉ fsecs x → content d' m = content (fdisk fs) m).
Proof.
  intros Hd Hg Hx Hh Hdir Hn Hl Ht. unfold store_dir.
  destruct (lay_file _ _ (g_layout _ _ _ Hg) _ x Hx) as (_ & _ & Hf & _). rewrite <- Hh in Hf.
  destruct (Directory_WriteBack_spec fill fill_bytes fuel (fdisk fs) f (fsecs x) (fmeta x) t)
    as (d' & -> & Hd' & Hh' & Ho); try done; [apply Ht|rewrite Hl, Hh, Hn; by vm_compute|].
  cbn [mbind outcome_bind]. exists d'. split; [done|]. split; [done|]. split; [|done].
  apply (good_store_dir (fdisk fs) d' files dirs s x t); try done.
  exists x. rewrite Hh in Hh'. by split_and!.
Qed.

Lemma store_map_spec fuel fs files dirs x fm : store_ok (fdisk fs) → good (fdisk fs) files dirs →
  files !! FreeMapSector = Some x → hdr (freeMapFile fs) = fhdr x → IsDataFile (fhdr x) = true →
  FreeMapFileSize ≤ numBytes (fhdr x) → bm_wf fm → numBits fm = NumSectors →
  ∃ d', store_map fill (S (S fuel)) fs fm = Ok (with_disk fs d') ∧ store_ok d' ∧
    good d' files dirs ∧ map_at d' files fm ∧ (∀ m, m ∉ fsecs x → content d' m = content (fdisk fs) m).
Proof.
  intros Hd Hg Hx Hh Hdat Hn Hb Hbits. unfold store_map.
  destruct (lay_file _ _ (g_layout _ _ _ Hg) _ x Hx) as (_ & _ & Hf & _). rewrite <- Hh in Hf.
  destruct (BitMap_WriteBack_spec fill fuel (fdisk fs) (freeMapFile fs) (fsecs x) (fmeta x) fm)
    as (d' & -> & Hd' & Hh' & Ho); try done.
  { destruct Hb as (_ & E1 & E2 & _). rewrite E2, E1, Hbits, Hh.
    change (4 * divRoundUp NumSectors BitsInWord) with FreeMapFileSize. done. }
  cbn [mbind outcome_bind]. exists d'. split; [done|]. split; [done|].
  split; [|split; [|done]].
  - apply (good_store_data (fdisk fs) d' files dirs FreeMapSector x); try done. by apply data_not_dir.
  - exists x. rewrite Hh in Hh'. by split_and!.
Qed.
End wf.
