(* ===== verification/FileSysOps.v ===== *)
(** * What the operations of the file system do

    [Create], [Remove], [WriteUser], [ReadUser] and the look-ups on a
    well-formed file system, in terms of the abstract state of FileSysInv. *)
From S2P Require Import Prelude BitMap Memory Disk FileHdr FileGrow Directory FileSys FileSysInv.

Section links.
Implicit Types (files : gmap Z file) (dirs : gmap Z Directory).

(** One more entry [k] in directory [c], naming the new file [s]. *)
Lemma links_add files dirs c t t' k s x : links files dirs → files !! s = None →
  dirs !! c = Some t → dir_map t' = <[k := s]> (dir_map t) → k ≠ dot → k ≠ dotdot →
  s ≠ FreeMapSector → links (<[s := x]> files) (<[c := t']> dirs).
Proof.
  intros [He Hu] Hs Ht Hm Hk1 Hk2 Hs0.
  assert (∀ s1 t1 k1 r, <[c := t']> dirs !! s1 = Some t1 → dir_map t1 !! k1 = Some r →
    (r = s ∧ s1 = c ∧ k1 = k) ∨ (r ≠ s ∧ ∃ t2, dirs !! s1 = Some t2 ∧ dir_map t2 !! k1 = Some r)) as Hold.
  { intros s1 t1 k1 r H1 H2.
    assert (∀ t2, dirs !! s1 = Some t2 → dir_map t2 !! k1 = Some r → r ≠ s) as Hne.
    { intros t2 H3 H4 ->. destruct (He s1 t2 k1 s H3 H4) as (_ & y & Hy & _). congruence. }
    apply lookup_insert_Some in H1 as [[<- <-]|[Hc H1]].
    - rewrite Hm in H2. apply lookup_insert_Some in H2 as [[<- <-]|[Hk H2]]; [by left|].
      right. split; [by apply (Hne t)|]. by exists t.
    - right. split; [by apply (Hne t1)|]. by exists t1. }
  constructor.
  - intros s1 t1 k1 r H1 H2. destruct (Hold s1 t1 k1 r H1 H2) as [(-> & -> & ->)|(Hr & t2 & H3 & H4)].
    + split; [done|]. exists x. rewrite lookup_insert_eq. split; [done|]. intros [-> | ->]; done.
    + destruct (He s1 t2 k1 r H3 H4) as (H5 & y & H6 & H7). split; [done|]. exists y.
      by rewrite lookup_insert_ne.
  - intros s1 t1 k1 s2 t2 k2 r y H1 H2 K1 K2 Hy Hd.
    destruct (Hold s1 t1 k1 r H1 K1) as [(-> & -> & ->)|(Hr & u1 & L1 & L2)];
      destruct (Hold s2 t2 k2 _ H2 K2) as [(E & -> & ->)|(Hr2 & u2 & L3 & L4)]; try done.
    rewrite lookup_insert_ne in Hy by done. by apply (Hu s1 u1 k1 s2 u2 k2 r y).
Qed.

(** Entry [k] of directory [c] and the file it names are gone. *)
Lemma links_remove files dirs c t t' k s x : links files dirs → files !! s = Some x →
  IsDirectory (fhdr x) = false → dirs !! c = Some t → dir_map t !! k = Some s →
  dir_map t' = delete k (dir_map t) → links (delete s files) (<[c := t']> dirs).
Proof.
  intros [He Hu] Hx Hd Ht Hk Hm.
  assert (∀ s1 t1 k1 r, <[c := t']> dirs !! s1 = Some t1 → dir_map t1 !! k1 = Some r →
    r ≠ s ∧ ∃ t2, dirs !! s1 = Some t2 ∧ dir_map t2 !! k1 = Some r) as Hold.
  { intros s1 t1 k1 r H1 H2. apply lookup_insert_Some in H1 as [[<- <-]|[Hc H1]].
    - rewrite Hm in H2. apply lookup_delete_Some in H2 as [Hne H2]. split; [|by exists t].
      intros ->. destruct (Hu c t k c t k1 s x) as [_ ?]; try done.
    - split; [|by exists t1]. intros ->. destruct (Hu c t k s1 t1 k1 s x) as [? _]; try done. }
  constructor.
  - intros s1 t1 k1 r H1 H2. destruct (Hold s1 t1 k1 r H1 H2) as (Hr & t2 & H3 & H4).
    destruct (He s1 t2 k1 r H3 H4) as (H5 & y & H6 & H7). split; [done|]. exists y.
    by rewrite lookup_delete_ne.
  - intros s1 t1 k1 s2 t2 k2 r y H1 H2 K1 K2 [_ Hy]%lookup_delete_Some Hdy.
    destruct (Hold s1 t1 k1 r H1 K1) as (_ & u1 & L1 & L2).
    destruct (Hold s2 t2 k2 r H2 K2) as (_ & u2 & L3 & L4). by apply (Hu s1 u1 k1 s2 u2 k2 r y).
Qed.

Lemma protected_key nm : is_string nm → protected nm = false ↔ key nm ≠ dot ∧ key nm ≠ dotdot.
Proof.
  intros Hs. unfold protected. rewrite !streq_dot by ((repeat constructor; lia) || (simpl; lia)).
  change (key dot) with dot. change (key dotdot) with dotdot.
  rewrite orb_false_iff, !bool_decide_eq_false. done.
Qed.
End links.

Section steps.
Context {D : Type} `{SectorStore D}.
Implicit Types (d : D) (fs : FileSystem D) (A : astate) (nm : list Z).

(** Locking and unlocking around a change of the disk. *)
Lemma lock_dir_free fs tid : directoryMutex fs = None → lock_dir tid fs = Ok (with_dirMutex fs (Some tid)).
Proof. unfold lock_dir. by intros ->. Qed.
Lemma lock_map_free fs tid : freeMapMutex fs = None → lock_map tid fs = Ok (with_mapMutex fs (Some tid)).
Proof. unfold lock_map. by intros ->. Qed.
Lemma lock_open_free fs tid : openedFileMutex fs = None → lock_open tid fs = Ok (with_openMutex fs (Some tid)).
Proof. unfold lock_open. by intros ->. Qed.
Lemma unlock_dir_held {R} (r : R) fs tid d : directoryMutex fs = None →
  unlock_dir_ret tid r (with_disk (with_dirMutex fs (Some tid)) d) = Ok (r, with_disk fs d).
Proof.
  intros E. unfold unlock_dir_ret, unlock_dir, mutex_release. cbn. rewrite Z.eqb_refl. cbn.
  destruct fs; cbn in *; by subst.
Qed.
Lemma unlock_both_held {R} (r : R) fs tid d : directoryMutex fs = None → freeMapMutex fs = None →
  unlock_both tid r (with_disk (with_mapMutex (with_dirMutex fs (Some tid)) (Some tid)) d) =
  Ok (r, with_disk fs d).
Proof.
  intros E1 E2. unfold unlock_both, unlock_map, unlock_dir, mutex_release. cbn. rewrite Z.eqb_refl. cbn.
  rewrite Z.eqb_refl. cbn. destruct fs; cbn in *; by subst.
Qed.
Lemma with_disk_twice fs d d' : with_disk (with_disk fs d) d' = with_disk fs d'.
Proof. done. Qed.
Lemma with_disk_id fs : with_disk fs (fdisk fs) = fs.
Proof. by destruct fs. Qed.
Lemma lock_after_disk fs l d m :
  with_mapMutex (with_disk (with_dirMutex fs l) d) m = with_disk (with_mapMutex (with_dirMutex fs l) m) d.
Proof. done. Qed.

(** A sector taken off the free map, and a file made of such sectors. *)
Lemma fresh_sector A fm1 s : exact (a_files A) (a_free A) → takes (a_free A) fm1 [s] →
  0 ≤ s < NumSectors ∧ ¬ in_use (a_files A) s ∧ a_files A !! s = None ∧ fmap_ok fm1 [s].
Proof.
  intros Hex Htk. assert (s ∈ free_set (a_free A)) as Hsf by (apply Htk; by left).
  apply Hex in Hsf as [Hr Hu]. split; [done|]. split; [done|]. split.
  - destruct (a_files A !! s) as [y|] eqn:E; [|done]. exfalso. apply Hu. exists s, y. split; [done|left].
  - apply (takes_ok (a_free A) fm1 [s] []); [|done].
    apply (exact_ok (a_files A)); [done|]. intros m Hm. by apply not_elem_of_nil in Hm.
Qed.

Lemma new_file_good d d1 d2 files dirs fm fm2 s h new newm : good d files dirs → exact files fm →
  takes fm fm2 (s :: new ++ newm) → files !! s = None → file_at d1 h new newm →
  IsDirectory h = false → (∀ m, m ∉ newm → content d1 m = content d m) →
  content d2 s = encode h → (∀ m, m ≠ s → content d2 m = content d1 m) →
  let x := mkFile h new newm in
  good d2 (<[s := x]> files) dirs ∧ exact (<[s := x]> files) fm2 ∧
  (∀ m, in_use files m → content d2 m = content d m).
Proof.
  intros Hg Hex Htk Hs Hf Hdir Ho1 Hc2 Ho2 x.
  assert (∀ m, m ∈ sectors s x → 0 ≤ m < NumSectors ∧ ¬ in_use files m) as Hfr.
  { intros m Hm. destruct Htk as (_ & _ & _ & Hin & _). by apply Hin, Hex in Hm. }
  assert (s ∉ new ++ newm) as Hsn by (destruct Htk as (_ & _ & [? _]%NoDup_cons & _); done).
  assert (∀ m, in_use files m → content d2 m = content d m) as Hc.
  { intros m Hm. rewrite Ho2; [apply Ho1|]; intros Hin.
    - destruct (Hfr m) as [_ Hn]; [|done]. unfold sectors. cbn [fsecs fmeta x]. set_solver.
    - subst m. destruct (Hfr s) as [_ Hn]; [left|done]. }
  split; [|split; [|exact Hc]].
  - apply (good_put d); try done; rewrite ?delete_id by done; try done.
    + destruct (dirs !! s) as [u|] eqn:Eu; [|done].
      destruct (g_dirs _ _ _ Hg s u Eu) as (y & Hy & _). congruence.
    + intros m Hm. by apply Hfr.
    + split; [apply Hfr; left|]. split; [done|]. split; [|done]. cbn [fhdr fsecs fmeta x].
      apply (file_at_agree d1); [|done]. intros m Hm. apply Ho2. set_solver.
  - apply (exact_take files fm fm2 s x (s :: new ++ newm)); [done|exact Htk|].
    intros m. by rewrite in_use_insert, delete_id.
Qed.

(** Rewriting the data of the free map and of a directory leaves every other
    file as it is. *)
Lemma other_data d d' files c xc x0 r y : layout d files → files !! c = Some xc →
  IsDirectory (fhdr xc) = true → files !! FreeMapSector = Some x0 →
  files !! r = Some y → IsDataFile (fhdr y) = true → r ≠ FreeMapSector →
  (∀ m, in_use files m → m ∉ fsecs xc → m ∉ fsecs x0 → content d' m = content d m) →
  file_bytes d' (fhdr y) (fsecs y) = file_bytes d (fhdr y) (fsecs y).
Proof.
  intros Hl Hxc Hdir Hx0 Hy Hdy Hr Hc. apply file_bytes_ext. intros m Hm. apply Hc.
  - exists r, y. split; [done|]. unfold sectors. set_solver.
  - intros Hin. apply (data_sector_others d files c xc r y m Hl Hxc Hy Hin).
    right. right. split; [|done]. intros ->. rewrite Hxc in Hy. injection Hy as <-.
    apply data_not_dir in Hdy. congruence.
  - intros Hin. apply (data_sector_others d files FreeMapSector x0 r y m Hl Hx0 Hy Hin).
    right. by right.
Qed.

End steps.

Section operations.
Context {D : Type} `{SectorStore D}.
Variable junk : list Z.
Variable fill : nat → Z.
Hypothesis fill_bytes : ∀ k, is_u8 (fill k).
Hypothesis junk_ok : length junk = 29%nat ∧ Forall is_i32 junk.
Implicit Types (d : D) (fs : FileSystem D) (A : astate) (nm : list Z).

(** The disk part of a successful creation: sector [s] for the header, a file
    of [size] bytes, entry [k] of directory [c]. *)
Lemma create_disk fuel fs A nm c xc t t' s fm1 x0 size :
  disk_wf (fdisk fs) A → a_files A !! c = Some xc → a_dirs A !! c = Some t →
  hdr (directoryFile fs) = fhdr xc → a_files A !! FreeMapSector = Some x0 →
  hdr (freeMapFile fs) = fhdr x0 → takes (a_free A) fm1 [s] →
  dir_wf t' → length t' = length t → dir_map t' = <[key nm := s]> (dir_map t) →
  key nm ≠ dot → key nm ≠ dotdot → 0 ≤ size →
  divRoundUp size SectorSize ≤ 924 →
  divRoundUp size SectorSize + meta_need (divRoundUp size SectorSize) ≤ Z.of_nat (base.size (free_set fm1)) →
  ∃ h fm2 fs5 fs6 fs7 d x, allocate junk fill (S (S fuel)) fs fm1 size DATA_FILE = Ok (true, h, fm2, fs5) ∧
    store_header fs5 h s = Ok fs6 ∧ store_dir fill (S (S fuel)) fs6 (directoryFile fs6) t' = Ok fs7 ∧
    store_map fill (S (S fuel)) fs7 fm2 = Ok (with_disk fs d) ∧
    a_files A !! s = None ∧ numBytes (fhdr x) = size ∧ ftype (fhdr x) = DATA_FILE ∧
    disk_wf d (mkA (<[s := x]> (a_files A)) (<[c := t']> (a_dirs A)) fm2) ∧
    (∀ r y, a_files A !! r = Some y → IsDataFile (fhdr y) = true → r ≠ FreeMapSector →
       file_bytes d (fhdr y) (fsecs y) = file_bytes (fdisk fs) (fhdr y) (fsecs y)).
Proof.
  intros Hw Hxc Ht Hhc Hx0 Hh0 Htk Hw' Hlt Hm Hk1 Hk2 Hsz Htot Hfree.
  pose proof (dw_exact _ _ Hw) as Hex. pose proof (dw_good _ _ Hw) as Hg.
  destruct (fresh_sector A fm1 s Hex Htk) as (Hsr & Hsu & Hs & Hok1).
  destruct (Allocate_spec junk fill (S fuel) (fdisk fs) fm1 size DATA_FILE)
    as (h & new & newm & fm2 & d1 & E & Hd1 & Hf1 & Hnb & Hty & Ht1 & Ho1); try done; [apply Hw|..].
  { constructor; [apply Hok1|apply Hok1|intros m Hm'; by apply not_elem_of_nil in Hm']. }
  pose proof (takes_app _ _ _ _ _ Htk Ht1) as Ht2. cbn [app] in Ht2.
  unfold allocate. rewrite E. cbn [mbind outcome_bind].
  destruct (store_header_spec (with_disk fs d1) h s) as (d2 & E2 & Hd2 & Hc2 & Ho2); try done;
    [apply (file_at_facts _ _ _ _ Hf1)|].
  destruct (new_file_good (fdisk fs) d1 d2 (a_files A) (a_dirs A) (a_free A) fm2 s h new newm)
    as (Hg2 & Hex2 & Hold); try done; [unfold IsDirectory; by rewrite Hty|].
  set (x := mkFile h new newm) in *.
  assert (c ≠ s) as Hcs by congruence. assert (FreeMapSector ≠ s) as H0s by congruence.
  destruct (g_dirs _ _ _ Hg c t Ht) as (xc' & Hxc' & Hdir & Hnd' & Hlen & _). rewrite Hxc in Hxc'. injection Hxc' as <-.
  destruct (store_dir_spec fill fill_bytes fuel (with_disk (with_disk fs d1) d2) (directoryFile fs) (<[s := x]> (a_files A)) (a_dirs A) c xc t')
    as (d3 & E3 & Hd3 & Hg3 & Ho3); try done; [by rewrite lookup_insert_ne|congruence|].
  destruct (dw_map _ _ Hw) as (x0' & Hx0' & Hdat & Hsz0 & _). rewrite Hx0 in Hx0'. injection Hx0' as <-.
  destruct (store_map_spec fill fill_bytes fuel (with_disk (with_disk (with_disk fs d1) d2) d3) (<[s := x]> (a_files A)) (<[c := t']> (a_dirs A)) x0 fm2)
    as (d4 & E4 & Hd4 & Hg4 & Hm4 & Ho4); try done; [by rewrite lookup_insert_ne|apply Hex2|apply Hex2|].
  exists h, fm2, (with_disk fs d1), (with_disk (with_disk fs d1) d2), (with_disk (with_disk (with_disk fs d1) d2) d3), d4, x.
  split; [done|]. split; [exact E2|]. split; [exact E3|]. split; [exact E4|]. split; [done|].
  split; [done|]. split; [done|]. split.
  - constructor; cbn [a_files a_dirs a_free]; try done.
    apply (links_add (a_files A) (a_dirs A) c t t' (key nm)); try done; apply Hw.
  - intros r y Hy Hdy Hr. apply (other_data (fdisk fs) d4 (a_files A) c xc x0 r y); try done; [apply Hg|].
    intros m Hmu Hn1 Hn2. rewrite Ho4, Ho3 by done. by apply Hold.
Qed.
End operations.

(** ** Formatting *)
Section format.
Context {D : Type} `{SectorStore D}.
Variable junk : list Z.
Variable junkB fill : nat → Z.
Variable junkE : nat → DirectoryEntry.
Hypothesis fill_bytes : ∀ k, is_u8 (fill k).
Hypothesis junk_ok : length junk = 29%nat ∧ Forall is_i32 junk.
Hypothesis junkE_ok : ∀ i, entry_ok (junkE i).
Implicit Types (d : D) (fs : FileSystem D) (A : astate) (nm : list Z).

Lemma Mark_takes fm s : bm_wf fm → 0 ≤ s < numBits fm → s ∈ free_set fm →
  ∃ fm', Mark fm s = Ok fm' ∧ takes fm fm' [s].
Proof.
  intros Hw Hs Hf. destruct (Mark_spec fm s Hw Hs) as (fm' & -> & Hu). exists fm'. split; [done|].
  split; [by eapply updates_wf|]. split; [by eapply updates_numBits|]. split; [apply NoDup_singleton|].
  split; [by intros m ->%list_elem_of_singleton|].
  rewrite (updates_mark_free fm fm' s Hs Hu). set_solver.
Qed.

Lemma new_directory : let t := Directory_new junkE NumDirEntries in
  dir_wf t ∧ length t = Z.to_nat NumDirEntries ∧ dir_map t = ∅.
Proof.
  cbv zeta. assert (dir_list (Directory_new junkE NumDirEntries) = []) as E by done.
  split; [split|split; [done|unfold dir_map; by rewrite E]].
  - unfold Directory_new. apply Forall_fmap, Forall_true. intros i. exact (junkE_ok i).
  - rewrite E. constructor.
Qed.

(** The two files of a fresh disk. *)
Definition two_files (x0 x1 : file) : gmap Z file :=
  <[RootSector := x1]> (<[FreeMapSector := x0]> ∅).

Lemma in_use_two x0 x1 m :
  in_use (two_files x0 x1) m ↔ m ∈ sectors FreeMapSector x0 ++ sectors RootSector x1.
Proof.
  unfold two_files. rewrite in_use_insert, delete_insert_ne, delete_empty, in_use_insert, delete_empty by done.
  rewrite elem_of_app. split; [|tauto]. intros [?|[?|(s & x & Hs & _)]]; [tauto|tauto|].
  by rewrite lookup_empty in Hs.
Qed.

Lemma layout_two d x0 x1 : file_ok d FreeMapSector x0 → file_ok d RootSector x1 →
  NoDup (sectors FreeMapSector x0 ++ sectors RootSector x1) → layout d (two_files x0 x1).
Proof.
  intros H0 H1 (_ & Hdis & _)%NoDup_app. unfold two_files.
  apply (layout_put d); [apply (layout_put d); [constructor|done| |done]|done| |done].
  - intros s x Hs. by rewrite lookup_empty in Hs.
  - intros s1 x s2 y m Hs. by rewrite lookup_empty in Hs.
  - rewrite delete_empty. intros m _ (s & x & Hs & _). by rewrite lookup_empty in Hs.
  - rewrite delete_insert_ne, delete_empty by done. intros m Hm1 (s & x & Hs & Hm).
    rewrite insert_empty in Hs. apply lookup_singleton_Some in Hs as [<- <-]. by apply (Hdis m).
Qed.

Lemma short_file d h secs meta : file_at d h secs meta → (length secs ≤ 28)%nat → meta = [].
Proof.
  intros Hf. destruct Hf as [secs|first28 more ind ih isecs Hh Hsz Hn H28 Hm]; [done|].
  rewrite length_app, H28. destruct more; [done|]. simpl. lia.
Qed.

Lemma fmap_ok_nil fm : bm_wf fm → numBits fm = NumSectors → fmap_ok fm [].
Proof. intros H1 H2. constructor; [exact H1|exact H2|]. intros m Hm. by apply not_elem_of_nil in Hm. Qed.

Lemma fresh_map : ∃ fm, BitMap_new junkB NumSectors = Ok fm ∧ fmap_ok fm [] ∧
  (∀ m, m ∈ free_set fm ↔ 0 ≤ m < NumSectors) ∧ size (free_set fm) = 1024%nat.
Proof.
  destruct (BitMap_new_spec junkB NumSectors) as (fm & E & Hw & Hn & _ & Hf); [by vm_compute|].
  exists fm. split; [exact E|]. clear E. split; [exact (fmap_ok_nil fm Hw Hn)|]. rewrite Hf. clear. split.
  - intros m. rewrite elem_of_list_to_set, elem_of_seqZ. lia.
  - rewrite size_list_to_set by apply NoDup_seqZ. apply length_seqZ.
Qed.

(** The state after the two allocations: the free map that will be stored. *)
Lemma format_alloc fuel d0 fm : store_ok d0 → fmap_ok fm [] →
  (∀ m, m ∈ free_set fm ↔ 0 ≤ m < NumSectors) → size (free_set fm) = 1024%nat →
  ∃ fm1 fm2 h0 n0 m0 fm3 d1 h1 n1 m1 fm4 d2,
    Mark fm FreeMapSector = Ok fm1 ∧
    Mark fm1 RootSector = Ok fm2 ∧
    Allocate junk fill (S (S fuel)) fm2 FreeMapFileSize DATA_FILE d0 = Ok (true, h0, fm3, d1) ∧
    Allocate junk fill (S (S fuel)) fm3 DirectoryFileSize ROOT d1 = Ok (true, h1, fm4, d2) ∧
    store_ok d2 ∧ file_at d2 h0 n0 m0 ∧ file_at d2 h1 n1 m1 ∧
    numBytes h0 = FreeMapFileSize ∧ ftype h0 = DATA_FILE ∧ numBytes h1 = DirectoryFileSize ∧ ftype h1 = ROOT ∧
    NoDup ((FreeMapSector :: n0 ++ m0) ++ RootSector :: n1 ++ m1) ∧
    bm_wf fm4 ∧ numBits fm4 = NumSectors ∧ size (free_set fm4) = 1019%nat ∧
    ∀ m, m ∈ free_set fm4 ↔ 0 ≤ m < NumSectors ∧ m ∉ (FreeMapSector :: n0 ++ m0) ++ RootSector :: n1 ++ m1.
Proof.
  intros Hd Hok Hall Hsz. pose proof (fm_wf _ _ Hok) as Hw.
  pose proof (fm_bits _ _ Hok) as Hn.
  destruct (Mark_takes fm FreeMapSector Hw) as (fm1 & E1 & T1); [rewrite Hn; by vm_compute|apply Hall; by vm_compute|].
  destruct (Mark_takes fm1 RootSector) as (fm2 & E2 & T2); [apply T1| | |].
  { destruct T1 as (_ & -> & _). rewrite Hn. by vm_compute. }
  { destruct T1 as (_ & _ & _ & _ & ->). apply elem_of_difference. split; [apply Hall; by vm_compute|set_solver]. }
  pose proof (takes_app _ _ _ _ _ T1 T2) as T12. cbn [app] in T12.
  pose proof (takes_ok _ _ _ _ Hok T12) as Hok2.
  destruct (takes_size _ _ _ T12) as [Hsz2 _]. cbn [length] in Hsz2.
  destruct (Allocate_spec junk fill (S fuel) d0 fm2 FreeMapFileSize DATA_FILE)
    as (h0 & n0 & m0 & fm3 & d1 & E3 & Hd1 & Hf0 & Hb0 & Hy0 & T3 & Ho1); try done.
  { apply fmap_ok_nil; apply Hok2. }
  { rewrite Hsz2, Hsz. by vm_compute. }
  destruct (takes_size _ _ _ T3) as [Hsz3 _].
  assert (length (n0 ++ m0) = 1%nat) as Hl0.
  { destruct (file_at_facts _ _ _ _ Hf0) as ([_ Hs] & _). rewrite Hb0 in Hs.
    change (divRoundUp FreeMapFileSize SectorSize) with 1 in Hs.
    rewrite (short_file d1 h0 n0 m0 Hf0), app_nil_r by lia. lia. }
  pose proof (takes_ok _ _ _ _ Hok2 T3) as Hok3.
  destruct (Allocate_spec junk fill (S fuel) d1 fm3 DirectoryFileSize ROOT)
    as (h1 & n1 & m1 & fm4 & d2 & E4 & Hd2 & Hf1 & Hb1 & Hy1 & T4 & Ho2); try done.
  { apply fmap_ok_nil; apply Hok3. }
  { rewrite Hsz3, Hl0, Hsz2, Hsz. by vm_compute. }
  destruct (takes_size _ _ _ T4) as [Hsz4 _].
  assert (length (n1 ++ m1) = 2%nat) as Hl1.
  { destruct (file_at_facts _ _ _ _ Hf1) as ([_ Hs] & _). rewrite Hb1 in Hs.
    change (divRoundUp DirectoryFileSize SectorSize) with 2 in Hs.
    rewrite (short_file d2 h1 n1 m1 Hf1), app_nil_r by lia. lia. }
  pose proof (takes_app _ _ _ _ _ (takes_app _ _ _ _ _ T12 T3) T4) as T.
  apply (takes_perm _ _ _ ((FreeMapSector :: n0 ++ m0) ++ RootSector :: n1 ++ m1)) in T; [|solve_Permutation].
  pose proof (takes_ok _ _ _ _ Hok T) as [F1 F2 _]. destruct (takes_disk _ _ _ _ Hok3 T4) as (_ & _ & Hdis).
  exists fm1, fm2, h0, n0, m0, fm3, d1, h1, n1, m1, fm4, d2.
  split; [exact E1|]. split; [exact E2|]. split; [exact E3|]. split; [exact E4|].
  split; [exact Hd2|]. split.
  { apply (file_at_agree d1); [|exact Hf0]. intros m Hm. apply Ho2. intros Hin. apply (Hdis m); set_solver. }
  split; [exact Hf1|]. split; [exact Hb0|]. split; [exact Hy0|]. split; [exact Hb1|]. split; [exact Hy1|].
  destruct T as (_ & _ & Hnd & _ & Hfr). split; [exact Hnd|]. split; [exact F1|]. split; [exact F2|].
  split; [rewrite Hsz4, Hl1, Hsz3, Hl0, Hsz2, Hsz; reflexivity|].
  intros m. rewrite Hfr, elem_of_difference, elem_of_list_to_set, Hall. done.
Qed.

(** The end of the formatting: headers, free map and empty root on disk. *)
Lemma format_store fuel d2 h0 n0 m0 h1 n1 m1 fm4 : store_ok d2 → file_at d2 h0 n0 m0 → file_at d2 h1 n1 m1 →
  numBytes h0 = FreeMapFileSize → ftype h0 = DATA_FILE → numBytes h1 = DirectoryFileSize → ftype h1 = ROOT →
  NoDup ((FreeMapSector :: n0 ++ m0) ++ RootSector :: n1 ++ m1) → bm_wf fm4 → numBits fm4 = NumSectors →
  (∀ m, m ∈ free_set fm4 ↔ 0 ≤ m < NumSectors ∧ m ∉ (FreeMapSector :: n0 ++ m0) ++ RootSector :: n1 ++ m1) →
  let t0 := Directory_new junkE NumDirEntries in
  let x0 := mkFile h0 n0 m0 in let x1 := mkFile h1 n1 m1 in
  ∃ d3 d4 d5 d6 d7 d8, WriteBack d2 h0 FreeMapSector = Ok d3 ∧ WriteBack d3 h1 RootSector = Ok d4 ∧
    FetchFrom d4 FreeMapSector = Ok (h0, d5) ∧ FetchFrom d5 RootSector = Ok (h1, d6) ∧
    BitMap_WriteBack fill (S (S fuel)) fm4 (mkOpenFile h0 0) d6 = Ok d7 ∧
    Directory_WriteBack fill (S (S fuel)) t0 (mkOpenFile h1 0) d7 = Ok d8 ∧
    disk_wf d8 (mkA (two_files x0 x1) {[RootSector := t0]} fm4).
Proof.
  intros Hd2 Hf0 Hf1 Hb0 Hy0 Hb1 Hy1 Hnd Hw4 Hn4 Hfree t0 x0 x1.
  pose proof Hnd as ([Hs0 _]%NoDup_cons & Hdis & [Hs1 _]%NoDup_cons)%NoDup_app.
  destruct (swrite_law d2 FreeMapSector (encode h0) Hd2) as (d3 & E3 & Hd3 & Hc3); [by vm_compute|apply encode_sector, (file_at_facts _ _ _ _ Hf0)|].
  destruct (swrite_law d3 RootSector (encode h1) Hd3) as (d4 & E4 & Hd4 & Hc4); [by vm_compute|apply encode_sector, (file_at_facts _ _ _ _ Hf1)|].
  assert (∀ m, m ≠ FreeMapSector → m ≠ RootSector → content d4 m = content d2 m) as Hc42.
  { intros m H0 H1. by rewrite Hc4, decide_False, Hc3, decide_False. }
  assert (∀ m, m ∈ n0 ++ m0 ∨ m ∈ n1 ++ m1 → content d4 m = content d2 m) as Hsame.
  { intros m Hm. apply Hc42; intros ->; destruct Hm as [Hm|Hm]; try done.
    - apply (Hdis FreeMapSector); set_solver.
    - apply (Hdis RootSector); set_solver. }
  assert (file_ok d4 FreeMapSector x0) as Hok0.
  { split; [by vm_compute|]. split; [by rewrite Hc4, decide_False, Hc3, decide_True|]. split; [|done].
    apply (file_at_agree d2); [|done]. intros m Hm. apply Hsame. set_solver. }
  assert (file_ok d4 RootSector x1) as Hok1.
  { split; [by vm_compute|]. split; [by rewrite Hc4, decide_True|]. split; [|done].
    apply (file_at_agree d2); [|done]. intros m Hm. apply Hsame. set_solver. }
  pose proof (layout_two d4 x0 x1 Hok0 Hok1 Hnd) as Hl4.
  destruct (FetchFrom_file d4 FreeMapSector x0 Hd4 Hok0) as (d5 & E5 & Hd5 & Hc5).
  assert (file_ok d5 RootSector x1) as Hok1' by (by apply (file_ok_frame d4)).
  destruct (FetchFrom_file d5 RootSector x1 Hd5 Hok1') as (d6 & E6 & Hd6 & Hc6).
  assert (layout d6 (two_files x0 x1)) as Hl6.
  { constructor; [|apply Hl4]. intros s x Hx. apply (file_ok_frame d4); [|by apply Hl4].
    intros m _. by rewrite Hc6, Hc5. }
  assert (two_files x0 x1 !! FreeMapSector = Some x0) as Hx0 by done.
  assert (two_files x0 x1 !! RootSector = Some x1) as Hx1 by done.
  destruct (lay_file _ _ Hl6 _ _ Hx0) as (_ & _ & Hfa0 & _).
  destruct (BitMap_WriteBack_spec fill fuel d6 (mkOpenFile h0 0) n0 m0 fm4) as (d7 & E7 & Hd7 & Hm7 & Ho7); try done.
  { destruct Hw4 as (_ & W1 & W2 & _). cbn [hdr]. rewrite W2, W1, Hn4, Hb0. by vm_compute. }
  pose proof (layout_data d6 d7 _ _ x0 Hl6 Hx0 Ho7) as Hl7.
  destruct (lay_file _ _ Hl7 _ _ Hx1) as (_ & _ & Hfa1 & _). destruct new_directory as (Hdw & Hdl & Hdm).
  destruct (Directory_WriteBack_spec fill fill_bytes fuel d7 (mkOpenFile h1 0) n1 m1 t0) as (d8 & E8 & Hd8 & Hh8 & Ho8); try done.
  { apply Hdw. } { cbn [hdr]. rewrite Hb1, (Hdl : length t0 = Z.to_nat NumDirEntries). by vm_compute. }
  pose proof (layout_data d7 d8 _ _ x1 Hl7 Hx1 Ho8) as Hl8.
  exists d3, d4, d5, d6, d7, d8. split; [exact E3|]. split; [exact E4|]. split; [exact E5|]. split; [exact E6|].
  split; [exact E7|]. split; [exact E8|].
  assert (IsDirectory h0 = false) as Hi0 by (unfold IsDirectory; by rewrite Hy0).
  constructor; cbn [a_files a_dirs a_free]; [exact Hd8|constructor; [exact Hl8|..]|constructor|..].
  - intros s t [<- <-]%lookup_singleton_Some. exists x1. split; [done|].
    split; [unfold IsDirectory, x1; cbn [fhdr]; by rewrite Hy1|]. split; [done|]. split; [exact Hdl|]. by split.
  - unfold two_files. intros s x [[<- _]|[_ [[_ <-]|[_ Hx]]%lookup_insert_Some]]%lookup_insert_Some Hdir.
    + rewrite lookup_singleton_eq. by eexists.
    + unfold x0 in Hdir. cbn [fhdr] in Hdir. congruence.
    + by rewrite lookup_empty in Hx.
  - intros s t k r [<- <-]%lookup_singleton_Some Hk.
    rewrite (Hdm : dir_map t0 = ∅), lookup_empty in Hk. done.
  - intros s1 t1 k1 s2 t2 k2 r x [<- <-]%lookup_singleton_Some _ Hk.
    rewrite (Hdm : dir_map t0 = ∅), lookup_empty in Hk. done.
  - split; [done|]. split; [done|]. intros m. by rewrite in_use_two.
  - exists x0. split; [done|]. split; [unfold IsDataFile, x0; cbn [fhdr]; by rewrite Hy0|].
    split; [unfold x0; cbn [fhdr]; lia|]. unfold holds_map. rewrite (file_bytes_ext d7 d8); [exact Hm7|].
    intros m Hm. apply Ho8. intros Hin. apply (Hdis m); [|]; unfold x0 in Hm; cbn [fsecs] in Hm; set_solver.
Qed.

(** The file system that [FileSystem::FileSystem(TRUE)] leaves. *)
Lemma format_wf fuel junkU f0 d0 : store_ok d0 → length junkU = Z.to_nat MaxOpenedFiles →
  ∃ fs A, FileSystem_new junk junkB fill junkE (S (S fuel)) true junkU f0 d0 = Ok fs ∧ fs_wf fs A ∧
    DirectorySector fs = RootSector ∧ a_dirs A = {[RootSector := Directory_new junkE NumDirEntries]} ∧
    dom (a_files A) = {[FreeMapSector; RootSector]} ∧ size (free_set (a_free A)) = 1019%nat ∧
    (∀ i, 0 ≤ i < MaxOpenedFiles → bit (openedFileMap fs) i = false).
Proof.
  intros Hd Hu. unfold FileSystem_new.
  destruct (BitMap_new_spec junkB 10) as (om & -> & How & Hon & Hob & _); [lia|]. cbn [mbind outcome_bind].
  destruct fresh_map as (fm & -> & Hok & Hall & Hsz). cbn [mbind outcome_bind].
  destruct (format_alloc fuel d0 fm Hd Hok Hall Hsz)
    as (fm1 & fm2 & h0 & n0 & m0 & fm3 & d1 & h1 & n1 & m1 & fm4 & d2 & -> & E2 & E3 & E4 & Hd2 & Hf0 & Hf1 & Hb0 & Hy0 & Hb1 & Hy1 & Hnd & Hw4 & Hn4 & Hs4 & Hfree).
  cbn [mbind outcome_bind]. rewrite E2. cbn [mbind outcome_bind]. unfold allocate. cbn [fdisk with_disk].
  rewrite E3. cbn [mbind outcome_bind ASSERT fdisk with_disk]. rewrite E4. cbn [mbind outcome_bind ASSERT].
  destruct (format_store fuel d2 h0 n0 m0 h1 n1 m1 fm4) as (d3 & d4 & d5 & d6 & d7 & d8 & W3 & W4 & W5 & W6 & W7 & W8 & Hw); try done.
  unfold store_header, open_file, OpenFile_new, store_map, store_dir. cbn [fdisk with_disk].
  rewrite W3. cbn [mbind outcome_bind fdisk with_disk]. rewrite W4. cbn [mbind outcome_bind fdisk with_disk].
  rewrite W5. cbn [mbind outcome_bind fdisk with_disk]. rewrite W6. cbn [mbind outcome_bind fdisk with_disk freeMapFile].
  rewrite W7. cbn [mbind outcome_bind fdisk with_disk freeMapFile]. rewrite W8. cbn [mbind outcome_bind].
  eexists _, _. split; [reflexivity|]. split.
  - constructor; [exact Hw|done|..].
    + exists (mkFile h0 n0 m0). done.
    + exists (mkFile h1 n1 m1), (Directory_new junkE NumDirEntries). split; [done|]. split; [done|].
      apply lookup_singleton_eq.
    + constructor; [done|..].
      * intros i Hi Hb. cbn [openedFileMap with_disk] in Hb. rewrite Hob in Hb by done. done.
      * intros i j u v Hi Hj Hb. cbn [openedFileMap with_disk] in Hb. rewrite Hob in Hb by done. done.
  - split; [done|]. split; [done|]. split; [|split; [exact Hs4|exact Hob]].
    cbn [a_files]. unfold two_files. rewrite !dom_insert_L, dom_empty_L. set_solver.
Qed.
End format.

(** ** Theorems *)

(** C10: Formatting any disk leaves a well-formed file system: an empty root
    directory, exactly two files, 1019 of the 1024 sectors free, no descriptor
    open. *)
Theorem format_ok {D} `{SectorStore D} junk junkB fill junkE fuel junkU f0 (d0 : D) :
  (∀ k, is_u8 (fill k)) → length junk = 29%nat ∧ Forall is_i32 junk → (∀ i, entry_ok (junkE i)) →
  store_ok d0 → length junkU = Z.to_nat MaxOpenedFiles →
  ∃ fs A t, FileSystem_new junk junkB fill junkE (S (S fuel)) true junkU f0 d0 = Ok fs ∧ fs_wf fs A ∧
    DirectorySector fs = RootSector ∧ a_dirs A = {[RootSector := t]} ∧ dir_map t = ∅ ∧
    dom (a_files A) = {[FreeMapSector; RootSector]} ∧ size (free_set (a_free A)) = 1019%nat ∧
    (∀ i, 0 ≤ i < MaxOpenedFiles → bit (openedFileMap fs) i = false).
Proof.
  intros Hfill Hjunk HjunkE Hd Hu.
  destruct (format_wf junk junkB fill junkE Hfill Hjunk HjunkE fuel junkU f0 d0 Hd Hu)
    as (fs & A & E & Hw & H1 & H2 & H3 & H4 & H5).
  exists fs, A, (Directory_new junkE NumDirEntries). split; [exact E|]. split; [exact Hw|].
  split; [exact H1|]. split; [exact H2|]. split; [by apply new_directory|].
  split; [exact H3|]. split; [exact H4|exact H5].
Qed.

(** ** How every operation on the current directory starts *)
Section start.
Context {D : Type} `{SectorStore D}.
Variable junkE : nat → DirectoryEntry.
Implicit Types (d : D) (fs : FileSystem D) (A : astate) (nm : list Z).

Lemma enter_dir fuel tid fs A t : fs_wf fs A → a_dirs A !! DirectorySector fs = Some t →
  ∃ d, lock_dir tid fs = Ok (with_dirMutex fs (Some tid)) ∧
    fetch_dir junkE (S (S fuel)) (with_dirMutex fs (Some tid)) (directoryFile fs) =
      Ok (t, with_disk (with_dirMutex fs (Some tid)) d) ∧
    store_ok d ∧ same_content (fdisk fs) d ∧ disk_wf d A ∧ dir_wf t ∧ length t = Z.to_nat NumDirEntries.
Proof.
  intros Hw Ht. pose proof Hw as [Hdw (L1 & L2 & L3) _ (xc & tc & Hxc & Hhc & _) _].
  destruct (fetch_dir_spec junkE fuel (with_dirMutex fs (Some tid)) (directoryFile fs) A _ xc t Hdw Hxc Ht Hhc)
    as (d & E & Hd & Hc).
  destruct (g_dirs _ _ _ (dw_good _ _ Hdw) _ t Ht) as (_ & _ & _ & _ & Hlen & Hwt & _).
  exists d. split; [by apply lock_dir_free|]. split; [exact E|]. split; [done|]. split; [done|].
  split; [by apply (disk_wf_same (fdisk fs))|]. by split.
Qed.

Lemma find_entry d A s t nm : disk_wf d A → a_dirs A !! s = Some t → dir_wf t →
  (dir_map t !! key nm = None ∧ Directory_Find t nm = Ok (-1)) ∨
  ∃ r x, dir_map t !! key nm = Some r ∧ Directory_Find t nm = Ok r ∧ a_files A !! r = Some x ∧
    0 ≤ r ∧ r ≠ FreeMapSector ∧ (key nm = dot ∨ key nm = dotdot → IsDirectory (fhdr x) = true).
Proof.
  intros Hw Ht Hwt. rewrite Directory_Find_spec by done.
  destruct (dir_map t !! key nm) as [r|] eqn:Ek; [right|by left].
  destruct (ln_entry _ _ (dw_links _ _ Hw) _ t _ _ Ht Ek) as (H0 & y & Hy & Hd).
  destruct (disk_file _ _ _ _ Hw Hy) as ([? _] & _). exists r, y. by split_and!.
Qed.
End start.

(** When [Create] can succeed: an unprotected, new name and a free entry. *)
Definition creatable (t : Directory) (nm : list Z) : Prop :=
  key nm ≠ dot ∧ key nm ≠ dotdot ∧ dir_map t !! key nm = None ∧ Exists (λ e, inUse e = false) t.

#[global] Instance creatable_dec t nm : Decision (creatable t nm).
Proof. unfold creatable. apply _. Defined.

(** [s] is the new file [nm] of [size] bytes that a call has added to [fs]. *)
Definition created {D} `{SectorStore D} (fs : FileSystem D) (A : astate) (t : Directory) (nm : list Z)
    (size : Z) (d : D) (A' : astate) (s : Z) : Prop :=
  ∃ x t' fm, A' = mkA (<[s := x]> (a_files A)) (<[DirectorySector fs := t']> (a_dirs A)) fm ∧
    fs_wf (with_disk fs d) A' ∧ a_files A !! s = None ∧ numBytes (fhdr x) = size ∧ ftype (fhdr x) = DATA_FILE ∧
    dir_map t' = <[key nm := s]> (dir_map t) ∧
    (∀ r y, a_files A !! r = Some y → IsDataFile (fhdr y) = true → r ≠ FreeMapSector →
       file_bytes d (fhdr y) (fsecs y) = file_bytes (fdisk fs) (fhdr y) (fsecs y)).

Section create.
Context {D : Type} `{SectorStore D}.
Variable junk : list Z.
Variable junkB fill : nat → Z.
Variable junkE : nat → DirectoryEntry.
Hypothesis fill_bytes : ∀ k, is_u8 (fill k).
Hypothesis junk_ok : length junk = 29%nat ∧ Forall is_i32 junk.
Implicit Types (d : D) (fs : FileSystem D) (A : astate) (nm : list Z).

Lemma Create_spec fuel tid fs A nm size t : fs_wf fs A → a_dirs A !! DirectorySector fs = Some t →
  is_string nm → 0 ≤ size → divRoundUp size SectorSize ≤ 924 →
  1 + divRoundUp size SectorSize + meta_need (divRoundUp size SectorSize)
    ≤ Z.of_nat (base.size (free_set (a_free A))) → creatable t nm →
  ∃ d A' s, FileSystem_Create junk junkB fill junkE (S (S fuel)) tid fs nm size = Ok (true, with_disk fs d) ∧
     created fs A t nm size d A' s.
Proof.
  intros Hw Ht Hnm Hsz Htot Hfree (K1 & K2 & K3 & K4). unfold FileSystem_Create.
  rewrite (proj2 (protected_key nm Hnm)) by done.
  pose proof Hw as [Hdw (L1 & L2 & L3) (x0 & Hx0 & Hh0) (xc & tc & Hxc & Hhc & _) Hop].
  destruct (enter_dir junkE fuel tid fs A t Hw Ht) as (d1 & -> & E1 & Hd1 & Hc1 & Hdw1 & Hwt & Hlen).
  cbn [mbind outcome_bind]. cbn [directoryFile with_dirMutex]. rewrite E1. cbn [mbind outcome_bind].
  destruct (find_entry d1 A _ t nm Hdw1 Ht Hwt) as [[Ek ->]|(r & y & Ek & _)]; cbn [mbind outcome_bind]; [|congruence].
  cbn [Z.eqb negb]. rewrite lock_map_free by done. cbn [mbind outcome_bind]. rewrite lock_after_disk.
  set (fsl := with_mapMutex (with_dirMutex fs (Some tid)) (Some tid)).
  destruct (fetch_map_spec junkB fuel (with_disk fsl d1) A x0 Hdw1 Hx0 Hh0) as (d2 & -> & Hd2 & Hc2).
  cbn [mbind outcome_bind]. pose proof (disk_wf_same d1 d2 A Hdw1 Hd2 Hc2) as Hdw2.
  assert (same_content (fdisk fs) d2) as Hc by (intros m; by rewrite Hc2, Hc1).
  destruct (Find_takes (a_free A)) as (s & fm1 & -> & Htk & Hs); [apply Hdw| |].
  { pose proof (divRoundUp_spec size SectorSize Hsz ltac:(done)).
    pose proof (meta_need_nonneg (divRoundUp size SectorSize)). unfold SectorSize in *. lia. }
  cbn [mbind outcome_bind]. rewrite (proj2 (Z.eqb_neq s (-1))) by done.
  destruct (fresh_sector A fm1 s (dw_exact _ _ Hdw) Htk) as (Hsr & _ & _ & _).
  destruct (Directory_Add_spec t nm s Hwt Hnm (sector_i32 s Hsr)) as [[-> Hno]|(t' & -> & _ & Hex & Hwt' & Hlt & Hm)];
    cbn [negb].
  { exfalso. destruct Hno as [[r Hr]|Hall]; [congruence|].
    apply Exists_exists in K4 as (e & Hin & He). rewrite Forall_forall in Hall. apply Hall in Hin. congruence. }
  destruct (create_disk junk fill fill_bytes junk_ok fuel (with_disk fsl d2) A nm (DirectorySector fs) xc t t' s fm1 x0 size)
    as (h & fm2 & fs5 & fs6 & fs7 & d & x & E5 & E6 & E7 & E8 & Hs0 & Hnb & Hty & Hdw' & Hkeep); try done.
  { destruct (takes_size _ _ _ Htk) as [E _]. rewrite E. cbn [length]. lia. }
  rewrite !with_disk_twice, E5. cbn [mbind outcome_bind negb]. rewrite E6. cbn [mbind outcome_bind]. rewrite E7. cbn [mbind outcome_bind].
  rewrite E8. cbn [mbind outcome_bind]. rewrite with_disk_twice.
  exists d, (mkA (<[s := x]> (a_files A)) (<[DirectorySector fs := t']> (a_dirs A)) fm2), s.
  split; [by apply unlock_both_held|]. exists x, t', fm2. split; [done|]. split.
  - constructor; cbn [a_files a_dirs]; [exact Hdw'|done|..].
    + exists x0. rewrite lookup_insert_ne; [done|congruence].
    + exists xc, t'. cbn [DirectorySector with_disk]. rewrite lookup_insert_ne by congruence.
      by rewrite lookup_insert_eq.
    + by apply opened_put.
  - split; [done|]. split; [done|]. split; [done|]. split; [done|].
    intros r y Hy Hdy Hr. rewrite (Hkeep r y Hy Hdy Hr). apply file_bytes_ext. intros m _. apply Hc.
Qed.

Lemma Create_refused fuel tid fs A nm size t : fs_wf fs A → a_dirs A !! DirectorySector fs = Some t →
  is_string nm → (1 ≤ base.size (free_set (a_free A)))%nat → ¬ creatable t nm →
  ∃ d, FileSystem_Create junk junkB fill junkE (S (S fuel)) tid fs nm size = Ok (false, with_disk fs d) ∧
     fs_wf (with_disk fs d) A ∧ same_content (fdisk fs) d.
Proof.
  intros Hw Ht Hnm Hfree Hno. unfold FileSystem_Create.
  destruct (protected nm) eqn:Ep; [exists (fdisk fs); rewrite with_disk_id; by split_and!|].
  apply protected_key in Ep as [K1 K2]; [|done].
  pose proof Hw as [Hdw (L1 & L2 & L3) (x0 & Hx0 & Hh0) _ Hop].
  destruct (enter_dir junkE fuel tid fs A t Hw Ht) as (d1 & -> & E1 & Hd1 & Hc1 & Hdw1 & Hwt & Hlen).
  cbn [mbind outcome_bind]. cbn [directoryFile with_dirMutex]. rewrite E1. cbn [mbind outcome_bind].
  destruct (find_entry d1 A _ t nm Hdw1 Ht Hwt) as [[Ek ->]|(r & y & Ek & -> & _ & Hr & _)]; cbn [mbind outcome_bind].
  2: { exists d1. rewrite (proj2 (Z.eqb_neq r (-1))) by lia. cbn [negb].
       split; [by apply unlock_dir_held|]. split; [by apply fs_wf_same|done]. }
  cbn [Z.eqb negb]. rewrite lock_map_free by done. cbn [mbind outcome_bind]. rewrite lock_after_disk.
  set (fsl := with_mapMutex (with_dirMutex fs (Some tid)) (Some tid)).
  destruct (fetch_map_spec junkB fuel (with_disk fsl d1) A x0 Hdw1 Hx0 Hh0) as (d2 & -> & Hd2 & Hc2).
  cbn [mbind outcome_bind].
  assert (same_content (fdisk fs) d2) as Hc by (intros m; by rewrite Hc2, Hc1).
  destruct (Find_takes (a_free A)) as (s & fm1 & -> & Htk & Hs); [apply Hdw|lia|].
  cbn [mbind outcome_bind]. rewrite (proj2 (Z.eqb_neq s (-1))) by done.
  destruct (fresh_sector A fm1 s (dw_exact _ _ Hdw) Htk) as (Hsr & _ & _ & _).
  destruct (Directory_Add_spec t nm s Hwt Hnm (sector_i32 s Hsr)) as [[-> _]|(t' & -> & _ & Hex & _)];
    cbn [negb]; [|exfalso; apply Hno; by split_and!].
  exists d2. split; [by apply unlock_both_held|]. split; [by apply fs_wf_same|done].
Qed.
End create.

(** C11: With enough free sectors and for a file of at most 924 blocks, [Create]
    succeeds exactly when the name is not protected, not taken and an entry is
    free; then the file system is again
    well formed with one more data file of the given size, reached under the
    name from the current directory, and no byte of another file has changed.
    Otherwise it returns FALSE and changes no sector. *)
Theorem Create_creates {D} `{SectorStore D} junk junkB fill junkE fuel tid (fs : FileSystem D) A nm size t :
  (∀ k, is_u8 (fill k)) → length junk = 29%nat ∧ Forall is_i32 junk → fs_wf fs A → a_dirs A !! DirectorySector fs = Some t → is_string nm → 0 ≤ size →
  divRoundUp size SectorSize ≤ 924 →
  1 + divRoundUp size SectorSize + meta_need (divRoundUp size SectorSize)
    ≤ Z.of_nat (base.size (free_set (a_free A))) →
  if decide (creatable t nm) then ∃ d A' s,
     FileSystem_Create junk junkB fill junkE (S (S fuel)) tid fs nm size = Ok (true, with_disk fs d) ∧
     created fs A t nm size d A' s
  else ∃ d,
     FileSystem_Create junk junkB fill junkE (S (S fuel)) tid fs nm size = Ok (false, with_disk fs d) ∧
     fs_wf (with_disk fs d) A ∧ same_content (fdisk fs) d.
Proof.
  intros Hfill Hjunk Hw Ht Hnm Hsz Htot Hfree. destruct (decide _).
  - by apply Create_spec.
  - eapply Create_refused; try done.
    pose proof (divRoundUp_spec size SectorSize Hsz ltac:(done)).
    pose proof (meta_need_nonneg (divRoundUp size SectorSize)). unfold SectorSize in *. lia.
Qed.

(** ** Witnesses, on a disk of zeros *)
Definition demo_users : list UserFile := replicate 10 (mkUserFile None 0 None).
Definition demo_name : list Z := [97; 46; 116; 120; 116].
Lemma demo_name_string : is_string demo_name.
Proof. repeat constructor; lia. Qed.
Lemma demo_entry_ok : entry_ok demo_entry.
Proof. repeat constructor; cbn; unfold is_i32, two31; lia. Qed.
Lemma three_byte (k : nat) : is_u8 3.
Proof. unfold is_u8. lia. Qed.
Definition demo_file0 : OpenFile := mkOpenFile demo_empty_file 0.
Definition demo_format : outcome (FileSystem SynchDisk) :=
  FileSystem_new demo_junk (λ _, 5) (λ _, 3) (λ _, demo_entry) 2 true demo_users demo_file0 demo_disk.
Lemma demo_format_wf : ∃ fs A, demo_format = Ok fs ∧ fs_wf fs A ∧
  a_dirs A !! DirectorySector fs = Some (Directory_new (λ _, demo_entry) NumDirEntries) ∧
  size (free_set (a_free A)) = 1019%nat ∧ (∀ i, 0 ≤ i < MaxOpenedFiles → bit (openedFileMap fs) i = false).
Proof.
  destruct (format_wf demo_junk (λ _, 5) (λ _, 3) (λ _, demo_entry) three_byte demo_junk_ok (λ _, demo_entry_ok)
    0 demo_users demo_file0 demo_disk demo_store_ok eq_refl) as (fs & A & E & Hw & Hs & Hd & _ & Hsz & Hop).
  exists fs, A. split; [exact E|]. split; [exact Hw|]. split; [|split; [exact Hsz|exact Hop]]. rewrite Hs, Hd. apply lookup_singleton_eq.
Qed.

Lemma format_ok_witness : ∃ fs A, demo_format = Ok fs ∧ fs_wf fs A ∧ DirectorySector fs = RootSector.
Proof.
  destruct (format_ok demo_junk (λ _, 5) (λ _, 3) (λ _, demo_entry) 0 demo_users demo_file0 demo_disk
    three_byte demo_junk_ok (λ _, demo_entry_ok) demo_store_ok eq_refl) as (fs & A & t & E & Hw & Hs & _).
  exists fs, A. split; [exact E|]. split; [exact Hw|exact Hs].
Defined.

(** The formatted disk with the file [a.txt]. *)
Definition demo_created : outcome (bool * FileSystem SynchDisk) :=
  fs ← demo_format; FileSystem_Create demo_junk (λ _, 5) (λ _, 3) (λ _, demo_entry) 2 7 fs demo_name 300.
Lemma demo_creatable : creatable (Directory_new (λ _, demo_entry) NumDirEntries) demo_name.
Proof. split; [by vm_compute|]. split; [by vm_compute|]. split; [by vm_compute|]. by apply Exists_cons_hd. Qed.
Lemma demo_created_wf : ∃ fs A s x t, demo_created = Ok (true, fs) ∧ fs_wf fs A ∧
  a_dirs A !! DirectorySector fs = Some t ∧ dir_map t !! key demo_name = Some s ∧ a_files A !! s = Some x ∧
  numBytes (fhdr x) = 300 ∧ IsDataFile (fhdr x) = true ∧
  (∀ i, 0 ≤ i < MaxOpenedFiles → bit (openedFileMap fs) i = false).
Proof.
  unfold demo_created.
  destruct demo_format_wf as (fs & A & -> & Hw & Ht & Hsz & Hop). cbn [mbind outcome_bind].
  destruct (Create_spec demo_junk (λ _, 5) (λ _, 3) (λ _, demo_entry) three_byte demo_junk_ok 0 7 fs A demo_name 300
    (Directory_new (λ _, demo_entry) NumDirEntries) Hw Ht demo_name_string)
    as (d & A' & s & E' & x & t' & fm & -> & Hw' & _ & Hnb & Hty & Hm & _).
  - lia.
  - by vm_compute.
  - rewrite Hsz. by vm_compute.
  - exact demo_creatable.
  - exists (with_disk fs d). eexists _, s, x, t'. split; [exact E'|]. split; [exact Hw'|].
    split; [apply lookup_insert_eq|]. split; [rewrite Hm; apply lookup_insert_eq|].
    split; [apply lookup_insert_eq|]. split; [exact Hnb|]. split; [unfold IsDataFile; by rewrite Hty|exact Hop].
Qed.

Lemma Create_creates_witness : ∃ fs d A s, demo_format = Ok fs ∧
  FileSystem_Create demo_junk (λ _, 5) (λ _, 3) (λ _, demo_entry) 2 7 fs demo_name 300 = Ok (true, with_disk fs d) ∧
  fs_wf (with_disk fs d) A ∧ is_Some (a_files A !! s).
Proof.
  destruct demo_format_wf as (fs & A & E & Hw & Ht & Hsz & _).
  pose proof (Create_creates demo_junk (λ _, 5) (λ _, 3) (λ _, demo_entry) 0 7 fs A demo_name 300
    (Directory_new (λ _, demo_entry) NumDirEntries) three_byte demo_junk_ok Hw Ht demo_name_string) as Hc.
  rewrite Hsz, decide_True in Hc by exact demo_creatable.
  destruct Hc as (d & A' & s & E' & x & t' & fm & -> & Hw' & _); [lia|by vm_compute|by vm_compute|].
  exists fs, d. eexists _, s. split; [exact E|]. split; [exact E'|]. split; [exact Hw'|].
  cbn [a_files]. rewrite lookup_insert_eq. by exists x.
Defined.
