(* ===== verification/FileSysUse.v ===== *)
(** * Removing and using files

    [Remove], and the descriptors of user programs: [OpenUser], [WriteUser],
    [ReadUser], [SeekUser] and [CloseUser] on a well-formed file system. *)
From S2P Require Import Prelude BitMap Memory Disk FileHdr FileGrow Directory FileSys FileSysInv FileSysOps.

(** ** Removing *)
Section remove.
Context {D : Type} `{SectorStore D}.
Variable junkB fill : nat → Z.
Hypothesis fill_bytes : ∀ k, is_u8 (fill k).
Implicit Types (d : D) (fs : FileSystem D) (A : astate) (nm : list Z).

Lemma Clear_gives fm s : bm_wf fm → 0 ≤ s < numBits fm → ∃ fm', Clear fm s = Ok fm' ∧ gives fm fm' [s].
Proof.
  intros Hw Hs. destruct (Clear_spec fm s Hw Hs) as (fm' & -> & Hu). exists fm'. split; [done|].
  split; [by eapply updates_wf|]. split; [by eapply updates_numBits|].
  rewrite (updates_clear_free fm fm' s Hs Hu). set_solver.
Qed.

Lemma file_taken d A r x : disk_wf d A → a_files A !! r = Some x →
  taken (a_free A) (fsecs x ++ fmeta x).
Proof.
  intros Hw Hx. destruct (disk_file _ _ _ _ Hw Hx) as (_ & _ & Hf & _).
  destruct (file_at_facts _ _ _ _ Hf) as (_ & Hdk & Hnd & _). destruct (dw_exact _ _ Hw) as (H1 & H2 & H3).
  split; [done|]. split; [done|]. split; [done|]. split; [done|]. intros m Hm. rewrite H3.
  intros [_ Hu]. apply Hu. exists r, x. split; [done|]. unfold sectors. by right.
Qed.

Lemma opened_delete om uf files r : opened_ok om uf files →
  (∀ i u, 0 ≤ i < MaxOpenedFiles → bit om i = true → uf !! Z.to_nat i = Some u → id u ≠ r) →
  opened_ok om uf (delete r files).
Proof.
  intros [H1 H2 H3] Hr. constructor; [done| |done]. intros i Hi Hb.
  destruct (H2 i Hi Hb) as (u & y & f & E1 & E2 & E3). exists u, y, f. split; [done|].
  split; [|done]. rewrite lookup_delete_ne; [done|]. intros E. by apply (Hr i u Hi Hb E1).
Qed.

(** [remove_entry] for a data file [r] named [nm] in the current directory. *)
Lemma remove_disk fuel tid fs A t nm r x : fs_wf fs A → a_dirs A !! DirectorySector fs = Some t →
  dir_map t !! key nm = Some r → a_files A !! r = Some x → IsDataFile (fhdr x) = true →
  length (fsecs x) ≠ 28%nat →
  (∀ i u, 0 ≤ i < MaxOpenedFiles → bit (openedFileMap fs) i = true →
     openedFiles fs !! Z.to_nat i = Some u → id u ≠ r) →
  ∃ d fm t', remove_entry junkB fill (S (S fuel)) tid (with_dirMutex fs (Some tid)) t (fhdr x) nm r =
      Ok (true, with_disk fs d) ∧
    fs_wf (with_disk fs d) (mkA (delete r (a_files A)) (<[DirectorySector fs := t']> (a_dirs A)) fm) ∧
    dir_map t' = delete (key nm) (dir_map t) ∧
    free_set fm = list_to_set (sectors r x) ∪ free_set (a_free A) ∧
    (∀ q y, a_files A !! q = Some y → IsDataFile (fhdr y) = true → q ≠ FreeMapSector →
       file_bytes d (fhdr y) (fsecs y) = file_bytes (fdisk fs) (fhdr y) (fsecs y)).
Proof.
  intros Hw Ht Hk Hx Hdat H28 Hopen. pose proof Hw as [Hdw (L1 & L2 & L3) (x0 & Hx0 & Hh0) (xc & tc & Hxc & Hhc & _) Hop].
  pose proof (data_not_dir _ Hdat) as Hnd. unfold remove_entry. rewrite lock_map_free by done. cbn [mbind outcome_bind].
  set (fsl := with_mapMutex (with_dirMutex fs (Some tid)) (Some tid)).
  destruct (fetch_map_spec junkB fuel fsl A x0 Hdw Hx0 Hh0) as (d1 & -> & Hd1 & Hc1). cbn [mbind outcome_bind fdisk with_disk].
  pose proof (disk_wf_same _ d1 A Hdw Hd1 Hc1) as Hdw1. pose proof (dw_exact _ _ Hdw) as (F1 & F2 & F3).
  pose proof (disk_file _ _ _ _ Hdw1 Hx) as (Hr & _ & Hf & _).
  destruct (Deallocate_spec fill (S fuel) d1 (fhdr x) (fsecs x) (fmeta x) (a_free A) Hd1 Hf (file_taken _ _ _ _ Hdw1 Hx) H28)
    as (fm1 & d2 & -> & Hg1 & Hd2 & Hc2). cbn [mbind outcome_bind].
  destruct (Clear_gives fm1 r) as (fm2 & -> & Hg2); [apply Hg1|destruct Hg1 as (_ & -> & _); by rewrite F2|].
  cbn [mbind outcome_bind]. pose proof (gives_app _ _ _ _ _ Hg1 Hg2) as Hg.
  apply (gives_perm _ _ _ (sectors r x)) in Hg; [|unfold sectors; solve_Permutation].
  destruct (g_dirs _ _ _ (dw_good _ _ Hdw) _ t Ht) as (xc' & Hxc' & Hdc & Hbc & Hlen & Hwt & _).
  rewrite Hxc in Hxc'. injection Hxc' as <-.
  destruct (Directory_Remove_spec t nm Hwt) as [[? _]|(r' & t' & Er & -> & Hwt' & Hlt & Hm)]; [congruence|].
  cbn [mbind outcome_bind]. pose proof (disk_wf_same _ d2 A Hdw1 Hd2 Hc2) as Hdw2.
  assert (DirectorySector fs ≠ r) as Hcr by congruence.
  destruct (ln_entry _ _ (dw_links _ _ Hdw) _ t _ _ Ht Hk) as (Hr0 & _).
  pose proof (good_delete d2 _ _ r x (dw_good _ _ Hdw2) Hx Hnd) as Hg3.
  pose proof (exact_give d2 _ _ fm2 r x (g_layout _ _ _ (dw_good _ _ Hdw2)) Hx (dw_exact _ _ Hdw2) Hg) as Hex.
  destruct (dw_map _ _ Hdw) as (x0' & Hx0' & Hdat0 & Hsz0 & _). rewrite Hx0 in Hx0'. injection Hx0' as <-.
  rewrite with_disk_twice.
  destruct (store_map_spec fill fill_bytes fuel (with_disk fsl d2) (delete r (a_files A)) (a_dirs A) x0 fm2)
    as (d3 & -> & Hd3 & Hg4 & Hm3 & Ho3); try done; [by rewrite lookup_delete_ne|apply Hex|apply Hex|].
  cbn [mbind outcome_bind]. rewrite with_disk_twice.
  destruct (store_dir_spec fill fill_bytes fuel (with_disk fsl d3) (directoryFile fs) (delete r (a_files A)) (a_dirs A) (DirectorySector fs) xc t')
    as (d4 & E4 & Hd4 & Hg5 & Ho4); try done; [by rewrite lookup_delete_ne|congruence|].
  cbn [directoryFile with_disk fsl with_mapMutex with_dirMutex]. rewrite E4. cbn [mbind outcome_bind].
  rewrite with_disk_twice. exists d4, fm2, t'. split; [by apply unlock_both_held|].
  split; [constructor|split; [done|split; [apply Hg|]]]; cbn [a_files a_dirs a_free].
  - constructor; cbn [a_files a_dirs a_free]; [done|done| |done|].
    + apply (links_remove (a_files A) (a_dirs A) (DirectorySector fs) t t' (key nm) r x); try done. apply Hdw.
    + apply (map_at_data d3 d4 _ (DirectorySector fs) xc); try done; [apply Hg4|by rewrite lookup_delete_ne|].
      intros E. rewrite E, Hx0 in Hxc. injection Hxc as <-. apply data_not_dir in Hdat0. congruence.
  - done.
  - exists x0. by rewrite lookup_delete_ne.
  - exists xc, t'. cbn [DirectorySector with_disk]. by rewrite lookup_delete_ne, lookup_insert_eq.
  - by apply opened_delete.
  - intros q y Hy Hdy Hq. apply (other_data (fdisk fs) d4 (a_files A) (DirectorySector fs) xc x0 q y); try done; [apply Hdw|].
    intros m Hmu Hn1 Hn2. rewrite Ho4, Ho3 by done. cbn. by rewrite Hc2, Hc1.
Qed.
End remove.

Section opened.
Context {D : Type} `{SectorStore D}.
Implicit Types (fs : FileSystem D) (A : astate).

(** The loop over the open descriptors. *)
Lemma opened_loop_spec n i om uf files sec : opened_ok om uf files → 0 ≤ i → i + Z.of_nat n = MaxOpenedFiles →
  ∃ b, opened_loop n i om uf sec = Ok b ∧
    (b = true ↔ ∃ j u, i ≤ j < MaxOpenedFiles ∧ bit om j = true ∧ uf !! Z.to_nat j = Some u ∧ id u = sec).
Proof.
  intros Hop. revert i. induction n as [|n IH]; intros i Hi Hn.
  { exists false. split; [done|]. split; [done|]. intros (j & u & Hj & _). lia. }
  cbn [opened_loop]. destruct (op_map _ _ _ Hop) as (Hw & Hb & Hl). unfold MaxOpenedFiles in *.
  rewrite Test_spec by (done || lia). cbn [mbind outcome_bind].
  destruct (IH (i + 1) ltac:(lia) ltac:(lia)) as (b & Eb & Hbb).
  assert (¬ (bit om i = true ∧ ∃ u, uf !! Z.to_nat i = Some u ∧ id u = sec) →
    ∃ b', Ok b = Ok b' ∧ (b' = true ↔ ∃ j u, i ≤ j < 10 ∧ bit om j = true ∧ uf !! Z.to_nat j = Some u ∧ id u = sec)) as Hskip.
  { intros Hno. exists b. split; [done|]. rewrite Hbb. split.
    - intros (j & u & Hj & H2). exists j, u. split; [lia|done].
    - intros (j & u & Hj & H1 & H2 & H3). exists j, u. split; [|done].
      destruct (decide (j = i)) as [->|]; [|lia]. exfalso. apply Hno. eauto. }
  destruct (bit om i) eqn:Ei; [|rewrite Eb; apply Hskip; by intros []].
  destruct (op_file _ _ _ Hop i) as (u & x & f & Hu & _); [unfold MaxOpenedFiles; lia|done|].
  rewrite (proj2 (arr_get_Ok _ _ u)) by (split; [lia|done]). cbn [mbind outcome_bind].
  destruct (Z.eqb_spec (id u) sec) as [E|E].
  - exists true. split; [done|]. split; [|done]. intros _. exists i, u. split; [lia|done].
  - rewrite Eb. apply Hskip. intros (_ & v & Hv & Ev). congruence.
Qed.

Lemma is_opened_spec fs A sec : fs_wf fs A → ∃ b, is_opened fs sec = Ok b ∧
  (b = true ↔ ∃ j u, 0 ≤ j < MaxOpenedFiles ∧ bit (openedFileMap fs) j = true ∧
    openedFiles fs !! Z.to_nat j = Some u ∧ id u = sec).
Proof. intros Hw. by apply (opened_loop_spec _ 0 _ _ (a_files A)); [apply Hw|..]. Qed.

Lemma open_locked fs tid d : openedFileMutex fs = None →
  unlock_open tid (with_openMutex (with_disk (with_dirMutex fs (Some tid)) d) (Some tid)) =
  Ok (with_disk (with_dirMutex fs (Some tid)) d).
Proof.
  intros E. unfold unlock_open, mutex_release. cbn. rewrite Z.eqb_refl. cbn. destruct fs; cbn in *; by subst.
Qed.
End opened.

(** The name [nm] of directory [t] is that of a data file [r] that no descriptor
    refers to. *)
Definition closed_file {D} (fs : FileSystem D) (A : astate) (t : Directory) (nm : list Z) (r : Z) (x : file) : Prop :=
  dir_map t !! key nm = Some r ∧ a_files A !! r = Some x ∧ IsDataFile (fhdr x) = true ∧
  ∀ i u, 0 ≤ i < MaxOpenedFiles → bit (openedFileMap fs) i = true →
    openedFiles fs !! Z.to_nat i = Some u → id u ≠ r.

(** *** [Remove] *)
Section remove.
Context {D : Type} `{SectorStore D}.
Variables (junkB fill : nat → Z) (junkE : nat → DirectoryEntry).
Hypothesis fill_bytes : ∀ k, is_u8 (fill k).
Implicit Types (fs : FileSystem D) (A : astate) (t : Directory) (x : file).

Lemma closed_or_not fs A t nm : fs_wf fs A → (∃ r x, closed_file fs A t nm r x) ∨ (∀ r x, ¬ closed_file fs A t nm r x).
Proof using Type.
  intros Hw. destruct (dir_map t !! key nm) as [r|] eqn:Er; [|right; intros r x (E & _); congruence].
  destruct (a_files A !! r) as [x|] eqn:Ex; [|right; intros r' x (E & E' & _); congruence].
  destruct (IsDataFile (fhdr x)) eqn:Ed; [|right; intros r' x' (E & E' & E'' & _); congruence].
  destruct (is_opened_spec fs A r Hw) as ([] & _ & Hb).
  - right. intros r' x' (E & _ & _ & Hn). destruct (proj1 Hb eq_refl) as (j & u & Hj & Hbj & Hu & Hid).
    apply (Hn j u Hj Hbj Hu). congruence.
  - left. exists r, x. split; [done|]. split; [done|]. split; [done|]. intros i u Hi Hbi Hu Hid. enough (false = true) by done.
    apply Hb. by exists i, u.
Qed.

Lemma closed_unopened fs A t nm r x b : closed_file fs A t nm r x →
  (b = true ↔ ∃ i u, 0 ≤ i < MaxOpenedFiles ∧ bit (openedFileMap fs) i = true ∧
     openedFiles fs !! Z.to_nat i = Some u ∧ id u = r) → b = false.
Proof using Type.
  intros (_ & _ & _ & Hn) Hb. destruct b; [|done]. destruct (proj1 Hb eq_refl) as (j & u & Hj & Hbj & Hu & Hid).
  by destruct (Hn j u Hj Hbj Hu).
Qed.

Lemma Remove_closed fuel tid fs A t nm r x : fs_wf fs A → a_dirs A !! DirectorySector fs = Some t →
  closed_file fs A t nm r x → length (fsecs x) ≠ 28%nat →
  ∃ d fm t', FileSystem_Remove junkB fill junkE (S (S fuel)) tid fs nm = Ok (true, with_disk fs d) ∧
    fs_wf (with_disk fs d) (mkA (delete r (a_files A)) (<[DirectorySector fs := t']> (a_dirs A)) fm) ∧
    dir_map t' = delete (key nm) (dir_map t) ∧
    free_set fm = list_to_set (sectors r x) ∪ free_set (a_free A) ∧
    (∀ q y, a_files A !! q = Some y → IsDataFile (fhdr y) = true → q ≠ FreeMapSector →
       file_bytes d (fhdr y) (fsecs y) = file_bytes (fdisk fs) (fhdr y) (fsecs y)).
Proof using fill_bytes.
  intros Hw Ht Hcl H28. pose proof Hw as [Hdw (L1 & L2 & L3) _ _ _]. pose proof Hcl as (K1 & K2 & K3 & K4).
  unfold FileSystem_Remove.
  destruct (enter_dir junkE fuel tid fs A t Hw Ht) as (d1 & -> & E1 & Hd1 & Hc1 & Hdw1 & Hwt & Hlen).
  cbn [mbind outcome_bind]. cbn [directoryFile with_dirMutex]. rewrite E1. cbn [mbind outcome_bind].
  destruct (find_entry d1 A _ t nm Hdw1 Ht Hwt) as [[Ek _]|(r' & x' & Ek & -> & Hx' & Hr & _)]; [congruence|]. simplify_eq.
  cbn [mbind outcome_bind]. rewrite (proj2 (Z.eqb_neq r (-1))) by lia.
  destruct (fetch_header_spec (with_disk (with_dirMutex fs (Some tid)) d1) A r x Hdw1 K2) as (d2 & -> & Hd2 & Hc2).
  cbn [mbind outcome_bind]. rewrite with_disk_twice, K3. cbn [negb].
  assert (same_content (fdisk fs) d2) as Hc by (intros m; by rewrite Hc2, Hc1).
  rewrite lock_open_free by done. cbn [mbind outcome_bind].
  destruct (is_opened_spec fs A r Hw) as (b & Eb & Hb). rewrite (closed_unopened fs A t nm r x b Hcl Hb) in Eb.
  change (is_opened (with_openMutex (with_disk (with_dirMutex fs (Some tid)) d2) (Some tid)) r) with (is_opened fs r).
  rewrite Eb. cbn [mbind outcome_bind]. rewrite open_locked by done. cbn [mbind outcome_bind].
  destruct (remove_disk junkB fill fill_bytes fuel tid (with_disk fs d2) A t nm r x)
    as (d & fm & t' & E & Hw' & Hm & Hfr & Hkeep); try done; [by apply fs_wf_same|].
  exists d, fm, t'. split; [exact E|]. split; [done|]. split; [done|]. split; [done|].
  intros q y Hy Hdy Hq. rewrite (Hkeep q y Hy Hdy Hq). apply file_bytes_ext. intros m _. apply Hc.
Qed.

Lemma Remove_other fuel tid fs A t nm : fs_wf fs A → a_dirs A !! DirectorySector fs = Some t →
  (∀ r x, ¬ closed_file fs A t nm r x) →
  ∃ d, FileSystem_Remove junkB fill junkE (S (S fuel)) tid fs nm = Ok (false, with_disk fs d) ∧
    fs_wf (with_disk fs d) A ∧ same_content (fdisk fs) d.
Proof using Type.
  intros Hw Ht Hno. pose proof Hw as [Hdw (L1 & L2 & L3) _ _ _]. unfold FileSystem_Remove.
  destruct (enter_dir junkE fuel tid fs A t Hw Ht) as (d1 & -> & E1 & Hd1 & Hc1 & Hdw1 & Hwt & Hlen).
  cbn [mbind outcome_bind]. cbn [directoryFile with_dirMutex]. rewrite E1. cbn [mbind outcome_bind].
  destruct (find_entry d1 A _ t nm Hdw1 Ht Hwt) as [[Ek ->]|(r & x & Ek & -> & Hx & Hr & Hr0 & _)]; cbn [mbind outcome_bind].
  { exists d1. split; [by apply unlock_dir_held|]. split; [by apply fs_wf_same|done]. }
  rewrite (proj2 (Z.eqb_neq r (-1))) by lia.
  destruct (fetch_header_spec (with_disk (with_dirMutex fs (Some tid)) d1) A r x Hdw1 Hx) as (d2 & -> & Hd2 & Hc2).
  cbn [mbind outcome_bind]. rewrite with_disk_twice.
  assert (same_content (fdisk fs) d2) as Hc by (intros m; by rewrite Hc2, Hc1). exists d2.
  destruct (IsDataFile (fhdr x)) eqn:Edat; cbn [negb].
  2: { split; [by apply unlock_dir_held|]. split; [by apply fs_wf_same|done]. }
  rewrite lock_open_free by done. cbn [mbind outcome_bind]. destruct (is_opened_spec fs A r Hw) as (b & Eb & Hb).
  change (is_opened (with_openMutex (with_disk (with_dirMutex fs (Some tid)) d2) (Some tid)) r) with (is_opened fs r).
  rewrite Eb. cbn [mbind outcome_bind]. rewrite open_locked by done. cbn [mbind outcome_bind].
  destruct b; [split; [by apply unlock_dir_held|]; split; [by apply fs_wf_same|done]|].
  destruct (Hno r x). split; [done|]. split; [done|]. split; [done|]. intros i u Hi Hbi Hu Hid. enough (false = true) by done.
  apply Hb. by exists i, u.
Qed.
End remove.

(** C13: [Remove] of a name of the current directory that is a data file no
    descriptor refers to and that has not exactly 28 blocks (for such a file
    [Deallocate] frees a sector that is not the file's,
    [FileGrow.Deallocate_28_blocks]) returns TRUE: the name
    is gone, exactly the sectors of the file are free again, no byte of another
    file has changed and the file system is well formed.  For any other name it
    returns FALSE and changes no sector. *)
Theorem Remove_removes {D} `{SectorStore D} junkB fill junkE fuel tid (fs : FileSystem D) A nm t :
  (∀ k, is_u8 (fill k)) → fs_wf fs A → a_dirs A !! DirectorySector fs = Some t →
  (∀ r x, closed_file fs A t nm r x → length (fsecs x) ≠ 28%nat) →
  (∃ r x d fm t', closed_file fs A t nm r x ∧
     FileSystem_Remove junkB fill junkE (S (S fuel)) tid fs nm = Ok (true, with_disk fs d) ∧
     fs_wf (with_disk fs d) (mkA (delete r (a_files A)) (<[DirectorySector fs := t']> (a_dirs A)) fm) ∧
     dir_map t' = delete (key nm) (dir_map t) ∧
     free_set fm = list_to_set (sectors r x) ∪ free_set (a_free A) ∧
     (∀ q y, a_files A !! q = Some y → IsDataFile (fhdr y) = true → q ≠ FreeMapSector →
        file_bytes d (fhdr y) (fsecs y) = file_bytes (fdisk fs) (fhdr y) (fsecs y))) ∨
  ((∀ r x, ¬ closed_file fs A t nm r x) ∧ ∃ d,
     FileSystem_Remove junkB fill junkE (S (S fuel)) tid fs nm = Ok (false, with_disk fs d) ∧
     fs_wf (with_disk fs d) A ∧ same_content (fdisk fs) d).
Proof.
  intros Hfill Hw Ht H28. destruct (closed_or_not fs A t nm Hw) as [(r & x & Hcl)|Hno].
  - left. destruct (Remove_closed junkB fill junkE Hfill fuel tid fs A t nm r x Hw Ht Hcl (H28 r x Hcl)) as (d & fm & t' & Hrem).
    by exists r, x, d, fm, t'.
  - right. split; [done|]. exact (Remove_other junkB fill junkE fuel tid fs A t nm Hw Ht Hno).
Qed.
Lemma Remove_removes_witness : ∃ fs d s x, demo_created = Ok (true, fs) ∧
  FileSystem_Remove (λ _, 5) (λ _, 3) (λ _, demo_entry) 2 7 fs demo_name = Ok (true, with_disk fs d) ∧
  ∃ A, fs_wf (with_disk fs d) A ∧ list_to_set (sectors s x) ⊆ free_set (a_free A).
Proof.
  destruct demo_created_wf as (fs & A & s & x & t & E & Hw & Ht & Hk & Hx & Hnb & Hdat & Hop).
  destruct (disk_file _ _ _ _ (fw_disk _ _ Hw) Hx) as (_ & _ & Hf & _).
  destruct (file_at_facts _ _ _ _ Hf) as ([_ Hlen] & _).
  destruct (Remove_removes (λ _, 5) (λ _, 3) (λ _, demo_entry) 0 7 fs A demo_name t three_byte Hw Ht)
    as [(r & y & d & fm & t' & (Hk' & Hy & _) & E' & Hw' & _ & Hfr & _)|[Hn _]].
  - intros r y (Hk' & Hy & _). assert (r = s) as -> by congruence. assert (y = x) as -> by congruence.
    rewrite Hnb in Hlen. intros E28. rewrite E28 in Hlen. discriminate Hlen.
  - assert (r = s) as -> by congruence. assert (y = x) as -> by congruence.
    exists fs, d, s, x. split; [exact E|]. split; [exact E'|]. eexists. split; [exact Hw'|].
    cbn [a_free]. rewrite Hfr. apply union_subseteq_l.
  - exfalso. apply (Hn s x). split; [exact Hk|]. split; [exact Hx|]. split; [exact Hdat|].
    intros i u Hi Hb. rewrite (Hop i Hi) in Hb. discriminate.
Defined.
