(* ===== verification/FileSysRW.v ===== *)
(** * Descriptors of user programs

    [WriteUser], [ReadUser] and [SeekUser] on a well-formed file system: a write
    grows the file when it must, stores exactly its bytes and keeps every other
    file. *)
From S2P Require Import Prelude BitMap Memory Disk FileHdr FileGrow Directory FileSys FileSysInv FileSysOps FileSysUse.

(** ** Writing through a descriptor *)
Section write.
Context {D : Type} `{SectorStore D}.
Variable junk : list Z.
Variable junkB fill : nat → Z.
Hypothesis fill_bytes : ∀ k, is_u8 (fill k).
Hypothesis junk_ok : length junk = 29%nat ∧ Forall is_i32 junk.
Implicit Types (d : D) (fs : FileSystem D) (A : astate) (x : file).

(** The bytes a write of [len] at [pos] adds to a file of header [h]. *)
Definition growth (h : FileHeader) (pos len : Z) : Z := Z.max 0 (pos + len - numBytes h).
(** There is room for a file to grow by [newSize] bytes. *)
Definition room (x : file) (fm : BitMap) (newSize : Z) : Prop :=
  let total := divRoundUp (numBytes (fhdr x) + newSize) SectorSize in
  total ≤ 924 ∧ total - Z.of_nat (length (fsecs x)) + meta_need total - Z.of_nat (length (fmeta x))
    ≤ Z.of_nat (size (free_set fm)).

Lemma extended_zero d h secs meta fm : store_ok d → file_at d h secs meta → bm_wf fm →
  extended d h secs meta fm 0 h fm d.
Proof.
  intros Hd Hf Hw. exists [], []. rewrite !app_nil_r. split; [done|]. split; [done|]. split; [lia|].
  split; [done|]. split; [by apply takes_nil|done].
Qed.

(** The conditional [Extend] of [WriteUser]. *)
Lemma extend_step fuel fs x fm pos len : store_ok (fdisk fs) →
  file_at (fdisk fs) (fhdr x) (fsecs x) (fmeta x) → fmap_ok fm (fsecs x ++ fmeta x) →
  0 ≤ pos → 0 ≤ len → is_i32 (pos + len) → room x fm (growth (fhdr x) pos len) →
  ∃ h' fm' d', (if 0 <? i32 (pos + len - numBytes (fhdr x)) then
      '(ok, h1, m, d) ← Extend junk fill (S fuel) (fhdr x) fm (i32 (pos + len - numBytes (fhdr x))) (fdisk fs);
      Ok (ok, h1, m, with_disk fs d)
    else Ok (true, fhdr x, fm, fs)) = Ok (true, h', fm', with_disk fs d') ∧
    extended (fdisk fs) (fhdr x) (fsecs x) (fmeta x) fm (growth (fhdr x) pos len) h' fm' d'.
Proof.
  intros Hd Hf Hfm Hpos Hlen Hi [Ht Hr]. destruct (file_at_facts _ _ _ _ Hf) as ([H0 _] & _ & _ & (_ & Hb & _) & _).
  rewrite i32_id by (unfold is_i32 in *; lia). unfold growth in *.
  destruct (Z.ltb_spec 0 (pos + len - numBytes (fhdr x))) as [Hlt|Hge].
  - rewrite Z.max_r in * by lia.
    destruct (Extend_spec junk fill fill_bytes junk_ok fuel (fdisk fs) (fhdr x) (fsecs x) (fmeta x) fm (pos + len - numBytes (fhdr x)))
      as (h' & fm' & d' & E & He); try done; [lia|]. exists h', fm', d'. rewrite E. done.
  - rewrite Z.max_l in * by lia. exists (fhdr x), fm, (fdisk fs). rewrite with_disk_id. split; [done|].
    apply extended_zero; [done|done|apply Hfm].
Qed.

(** The entries of the directories do not see a file grow. *)
Lemma links_grow files dirs s x x' : links files dirs → files !! s = Some x →
  IsDirectory (fhdr x') = IsDirectory (fhdr x) → links (<[s := x']> files) dirs.
Proof.
  intros [H1 H2] Hx Hd. constructor.
  - intros c t k r Ht Hk. destruct (H1 c t k r Ht Hk) as (Hr & y & Hy & Hdir). split; [done|].
    destruct (decide (r = s)) as [->|Hne].
    + exists x'. rewrite lookup_insert_eq, Hd. assert (y = x) as -> by congruence. done.
    + exists y. by rewrite lookup_insert_ne.
  - intros c1 t1 k1 c2 t2 k2 r y Ht1 Ht2 Hk1 Hk2 Hy Hnd.
    destruct (decide (r = s)) as [->|Hne].
    + rewrite lookup_insert_eq in Hy. injection Hy as <-. apply (H2 c1 t1 k1 c2 t2 k2 s x); try done. congruence.
    + rewrite lookup_insert_ne in Hy by done. by apply (H2 c1 t1 k1 c2 t2 k2 r y).
Qed.

(** The sectors of a grown file stay apart from those of the other files. *)
Lemma grown_apart d A s x fm' l : disk_wf d A → a_files A !! s = Some x → takes (a_free A) fm' l →
  ∀ m, m ∈ sectors s x ∨ m ∈ l → ¬ in_use (delete s (a_files A)) m.
Proof.
  intros Hw Hx (_ & _ & _ & Hl & _) m Hm (r & y & [Hne Hy]%lookup_delete_Some & Hin).
  destruct Hm as [Hm|Hm].
  - apply Hne. by apply (lay_disjoint _ _ (g_layout _ _ _ (dw_good _ _ Hw)) s x r y m).
  - destruct (dw_exact _ _ Hw) as (_ & _ & He). apply Hl in Hm. apply He in Hm as [_ Hu]. apply Hu. by exists r, y.
Qed.

(** A file grown in place: the free map and the header are stored. *)
Lemma grow_disk fuel fs d0 A s x x0 h' fm' n : disk_wf d0 A → a_files A !! s = Some x →
  IsDirectory (fhdr x) = false → s ≠ FreeMapSector → a_files A !! FreeMapSector = Some x0 →
  hdr (freeMapFile fs) = fhdr x0 →
  extended d0 (fhdr x) (fsecs x) (fmeta x) (a_free A) n h' fm' (fdisk fs) →
  ∃ d1 d2 x', store_map fill (S (S fuel)) fs fm' = Ok (with_disk fs d1) ∧
    store_header (with_disk fs d1) h' s = Ok (with_disk fs d2) ∧ fhdr x' = h' ∧
    numBytes h' = numBytes (fhdr x) + n ∧ ftype h' = ftype (fhdr x) ∧
    disk_wf d2 (mkA (<[s := x']> (a_files A)) (a_dirs A) fm') ∧
    (∃ new, fsecs x' = fsecs x ++ new) ∧
    (∀ m, m ∈ fsecs x ∨ in_use (delete s (a_files A)) m → m ∉ fsecs x0 → content d2 m = content d0 m).
Proof.
  clear junk_ok junkB junk. intros Hw Hx Hnd Hs0 Hx0 Hh0 (new & newm & Hd & Hf & Hnb & Hty & Htk & Hoth).
  pose proof (grown_apart _ _ _ _ _ _ Hw Hx Htk) as Hap.
  pose proof (disk_file _ _ _ _ Hw Hx) as (Hsr & _ & Hfx & Hsx).
  assert (∀ m, in_use (delete s (a_files A)) m → content (fdisk fs) m = content d0 m) as Hc0.
  { intros m Hm. apply Hoth. intros Hin. apply (Hap m); [|done]. unfold sectors. set_solver. }
  pose proof (good_free _ (fdisk fs) _ _ (good_delete _ _ _ _ _ (dw_good _ _ Hw) Hx Hnd) Hc0) as Hg.
  destruct (dw_map _ _ Hw) as (x0' & Hx0' & Hdat0 & Hsz0 & _). rewrite Hx0 in Hx0'. injection Hx0' as <-.
  destruct (dw_exact _ _ Hw) as (_ & Hbits & Hfree). pose proof Htk as (Hbw & Hbn & _ & Hl & _).
  assert (delete s (a_files A) !! FreeMapSector = Some x0) as Hx0d by (by rewrite lookup_delete_ne).
  destruct (store_map_spec fill fill_bytes fuel fs (delete s (a_files A)) (a_dirs A) x0 fm')
    as (d1 & E1 & Hd1 & Hg1 & Hm1 & Ho1); try done; [congruence|].
  destruct (store_header_spec (with_disk fs d1) h' s) as (d2 & E2 & Hd2 & Hc2 & Ho2); try done;
    [apply (file_at_facts _ _ _ _ Hf)|]. cbn [fdisk with_disk] in Ho2. rewrite with_disk_twice in E2.
  assert (∀ m, m ∈ fsecs x0 → in_use (delete s (a_files A)) m) as Hx0u.
  { intros m Hm. exists FreeMapSector, x0. split; [done|]. unfold sectors. set_solver. }
  assert (∀ m, m ∈ new ++ newm → ¬ in_use (a_files A) m) as Hnew by (intros m Hm; by apply Hfree, Hl).
  assert (s ∉ (fsecs x ++ new) ++ fmeta x ++ newm) as Hs'.
  { intros Hin. destruct (decide (s ∈ new ++ newm)) as [Hn|Hn]; [|set_solver].
    apply (Hnew s Hn). exists s, x. split; [done|]. unfold sectors. set_solver. }
  set (x' := mkFile h' (fsecs x ++ new) (fmeta x ++ newm)).
  assert (∀ m, m ∈ sectors s x' → m ∈ sectors s x ∨ m ∈ new ++ newm) as Hsec.
  { intros m. unfold sectors, x'. cbn. set_solver. }
  exists d1, d2, x'. split; [exact E1|]. split; [exact E2|]. split; [done|]. split; [done|]. split; [done|].
  split; [|split; [by exists new|]].
  - constructor; cbn [a_files a_dirs a_free]; [done|..].
    + rewrite <- insert_delete_eq. apply (good_put d1); try done.
      * destruct (a_dirs A !! s) as [t|] eqn:Et; [|done].
        destruct (g_dirs _ _ _ Hg s t Et) as (y & Hy & _). by rewrite lookup_delete_eq in Hy.
      * unfold IsDirectory. cbn. rewrite Hty. exact Hnd.
      * rewrite delete_delete_eq. intros m Hm. apply Ho2. intros ->. apply (Hap s); [left; apply list_elem_of_here|done].
      * rewrite delete_delete_eq. intros m Hm%Hsec. by apply Hap.
      * split; [done|]. split; [exact Hc2|]. split; [|exact Hs'].
        apply (file_at_agree (fdisk fs)); [|exact Hf]. intros m Hm.
        rewrite Ho2 by (intros ->; set_solver). apply Ho1. intros Hin. apply (Hap m); [|by apply Hx0u].
        unfold sectors. set_solver.
    + apply (links_grow _ _ s x); [apply Hw|done|]. unfold IsDirectory. cbn. by rewrite Hty.
    + apply (exact_take _ (a_free A) fm' s x' (new ++ newm)); [apply Hw|done|]. intros m.
      rewrite in_use_insert, (in_use_split (a_files A) s x) by done. unfold sectors, x'. cbn. set_solver.
    + rewrite <- insert_delete_eq. apply (map_at_other d1); try done.
      rewrite delete_delete_eq. intros m Hm. apply Ho2. intros ->. apply (Hap s); [left; apply list_elem_of_here|done].
  - intros m Hm Hm0. assert (m ≠ s) as Hms.
    { intros ->. destruct Hm as [Hm|Hm]; [set_solver|]. apply (Hap s); [left; apply list_elem_of_here|done]. }
    rewrite Ho2, Ho1 by done. apply Hoth. destruct Hm as [Hm|Hm].
    + intros [Hin|Hin]%elem_of_app.
      * destruct (file_at_split d0 _ _ _ Hfx) as (_ & _ & _ & Hdis). by apply (Hdis m).
      * apply (Hnew m); [set_solver|]. exists s, x. split; [done|]. unfold sectors. set_solver.
    + intros Hin. apply (Hap m); [|done]. unfold sectors. set_solver.
Qed.
End write.

(** ** The entry of a descriptor *)
Section descriptor.
Context {D : Type} `{SectorStore D}.
Implicit Types (d : D) (fs : FileSystem D) (A : astate) (x : file) (f : OpenFile).

(** Descriptor [i] is open on file [s] through the object [f]. *)
Record opens fs A (i s : Z) x f : Prop := mkOpens {
  o_index : 0 ≤ i < MaxOpenedFiles;
  o_bit : bit (openedFileMap fs) i = true;
  o_entry : openedFiles fs !! Z.to_nat i = Some (mkUserFile (Some f) s (Some None));
  o_file : a_files A !! s = Some x;
  o_data : IsDataFile (fhdr x) = true;
  o_not_map : s ≠ FreeMapSector;
  o_hdr : hdr f = fhdr x
}.

(** [fs] with object [f] and lock [m] in entry [i], [mm] for the lock of the
    free map and the disk [d]. *)
Definition with_user fs (i s : Z) f (m mm : mutex) d : FileSystem D :=
  mkFS (freeMapFile fs) mm (directoryFile fs) (directoryMutex fs) (DirectorySector fs) (openedFileMap fs)
    (openedFileMutex fs) (<[Z.to_nat i := mkUserFile (Some f) s (Some m)]> (openedFiles fs)) d.

Lemma every_open fs A i : fs_wf fs A → 0 ≤ i < MaxOpenedFiles → bit (openedFileMap fs) i = true →
  ∃ s x f, opens fs A i s x f.
Proof.
  intros Hw Hi Hb. destruct (op_file _ _ _ (fw_open _ _ Hw) i Hi Hb) as (u & x & f & E1 & E2 & E3 & E4 & E5 & E6 & E7).
  exists (id u), x, f. constructor; try done. rewrite E1. destruct u. cbn in *. congruence.
Qed.

Section one.
Context {fs : FileSystem D} {A : astate} {i s : Z} {x : file} {f : OpenFile}.
Hypothesis Hw : fs_wf fs A.
Hypothesis Ho : opens fs A i s x f.

Lemma user_valid : valid_fd fs i = Ok true.
Proof.
  destruct (o_index _ _ _ _ _ _ Ho) as [H1 H2]. destruct (op_map _ _ _ (fw_open _ _ Hw)) as (Hm & Hn & _).
  unfold valid_fd. destruct (Z.leb_spec MaxOpenedFiles i); [lia|]. rewrite Test_spec by (done || lia).
  f_equal. apply Ho.
Qed.
Lemma user_range : 0 ≤ i < Z.of_nat (length (openedFiles fs)).
Proof.
  destruct (o_index _ _ _ _ _ _ Ho). destruct (op_map _ _ _ (fw_open _ _ Hw)) as (_ & _ & ->). unfold MaxOpenedFiles in *. lia.
Qed.
Lemma user_get f1 m mm d : arr_get (openedFiles (with_user fs i s f1 m mm d)) i = Ok (mkUserFile (Some f1) s (Some m)).
Proof.
  pose proof user_range. apply arr_get_Ok. split; [lia|]. cbn. apply list_lookup_insert_eq. lia.
Qed.
Lemma user_set f1 m mm d f2 m2 : arr_set (openedFiles (with_user fs i s f1 m mm d)) i (mkUserFile (Some f2) s (Some m2)) =
  Ok (openedFiles (with_user fs i s f2 m2 mm d)).
Proof.
  pose proof user_range. rewrite arr_set_in by (cbn; rewrite length_insert; lia). cbn. by rewrite list_insert_insert_eq.
Qed.
Lemma user_lock tid : lock_file tid fs i = Ok (with_user fs i s f (Some tid) None (fdisk fs)).
Proof.
  pose proof user_range. unfold lock_file.
  rewrite (proj2 (arr_get_Ok _ _ _)) by (split; [lia|apply (o_entry _ _ _ _ _ _ Ho)]). cbn.
  rewrite arr_set_in by done. cbn. unfold with_user. destruct (fw_locks _ _ Hw) as (<- & _). done.
Qed.
Lemma user_unlock tid f1 mm d : unlock_file tid (with_user fs i s f1 (Some tid) mm d) i = Ok (with_user fs i s f1 None mm d).
Proof.
  unfold unlock_file, mutex_release. rewrite user_get. cbn [mbind outcome_bind deref umutex object id].
  rewrite Z.eqb_refl. cbn [ASSERT mbind outcome_bind]. by rewrite user_set.
Qed.
Lemma user_object f1 f2 m mm d : set_object (with_user fs i s f1 m mm d) i (Some f2) = Ok (with_user fs i s f2 m mm d).
Proof. unfold set_object. rewrite user_get. cbn [mbind outcome_bind umutex id]. by rewrite user_set. Qed.
Lemma user_lock_map tid f1 m d : lock_map tid (with_user fs i s f1 m None d) = Ok (with_user fs i s f1 m (Some tid) d).
Proof. done. Qed.
Lemma user_unlock_map tid f1 m d : unlock_map tid (with_user fs i s f1 m (Some tid) d) = Ok (with_user fs i s f1 m None d).
Proof. unfold unlock_map, mutex_release. cbn. by rewrite Z.eqb_refl. Qed.

(** The table after the file of the descriptor got the header of [x']. *)
Lemma user_opened x' f' : IsDataFile (fhdr x') = true → hdr f' = fhdr x' →
  opened_ok (openedFileMap fs) (<[Z.to_nat i := mkUserFile (Some f') s (Some None)]> (openedFiles fs)) (<[s := x']> (a_files A)).
Proof.
  intros Hdat Hh. pose proof user_range as Hr. destruct (fw_open _ _ Hw) as [Hm Hf Hinj].
  assert (∀ j u, 0 ≤ j < MaxOpenedFiles → <[Z.to_nat i := mkUserFile (Some f') s (Some None)]> (openedFiles fs) !! Z.to_nat j = Some u →
    (j = i ∧ u = mkUserFile (Some f') s (Some None)) ∨ (j ≠ i ∧ openedFiles fs !! Z.to_nat j = Some u)) as Hcase.
  { intros j u Hj Hu. destruct (decide (j = i)) as [->|Hne].
    - left. rewrite list_lookup_insert_eq in Hu by lia. by injection Hu.
    - right. rewrite list_lookup_insert_ne in Hu by lia. done. }
  assert (∀ j u, 0 ≤ j < MaxOpenedFiles → bit (openedFileMap fs) j = true → j ≠ i →
    openedFiles fs !! Z.to_nat j = Some u → id u ≠ s) as Hns.
  { intros j u Hj Hb Hne Hu E. apply Hne. apply (Hinj j i u _ Hj (o_index _ _ _ _ _ _ Ho) Hb (o_bit _ _ _ _ _ _ Ho) Hu (o_entry _ _ _ _ _ _ Ho)). done. }
  constructor.
  - by rewrite length_insert.
  - intros j Hj Hb. destruct (decide (j = i)) as [->|Hne].
    + exists (mkUserFile (Some f') s (Some None)), x', f'. rewrite list_lookup_insert_eq by lia.
      cbn [id]. rewrite lookup_insert_eq. split_and!; try done. apply Ho.
    + destruct (Hf j Hj Hb) as (u & y & g & E1 & E2 & E3). exists u, y, g.
      rewrite list_lookup_insert_ne by lia. split; [done|]. split; [|done].
      rewrite lookup_insert_ne; [done|]. intros E. by apply (Hns j u).
  - intros j k u v Hj Hk Hbj Hbk Hu Hv E.
    destruct (Hcase j u Hj Hu) as [[-> ->]|[Hne Hu']], (Hcase k v Hk Hv) as [[-> ->]|[Hne' Hv']]; cbn [id] in E.
    + done.
    + exfalso. by apply (Hns k v).
    + exfalso. by apply (Hns j u).
    + by apply (Hinj j k u v).
Qed.
Lemma user_opens f' x' d A' : a_files A' !! s = Some x' → IsDataFile (fhdr x') = true → hdr f' = fhdr x' →
  opens (with_user fs i s f' None None d) A' i s x' f'.
Proof.
  intros Hx Hd Hh. pose proof user_range. constructor; try done; [apply Ho|apply Ho| |apply Ho].
  cbn. by rewrite list_lookup_insert_eq by lia.
Qed.
End one.
End descriptor.

(** ** Writing *)
Section writing.
Context {D : Type} `{SectorStore D}.
Variable fill : nat → Z.
Hypothesis fill_bytes : ∀ k, is_u8 (fill k).
Implicit Types (d : D) (fs : FileSystem D) (A : astate) (x : file) (f : OpenFile).

(** A write inside a data file. *)
Lemma write_data fuel d A s x buf pos : disk_wf d A → a_files A !! s = Some x →
  IsDataFile (fhdr x) = true → s ≠ FreeMapSector → Forall is_u8 buf → 0 ≤ pos →
  pos + Z.of_nat (length buf) ≤ numBytes (fhdr x) →
  ∃ d', WriteAt fill (S (S fuel)) (fhdr x) buf pos d = Ok (Z.of_nat (length buf), d') ∧ disk_wf d' A ∧
    (∀ k, file_bytes d' (fhdr x) (fsecs x) !! k =
       if decide (pos ≤ Z.of_nat k < pos + Z.of_nat (length buf)) then buf !! (k - Z.to_nat pos)%nat
       else file_bytes d (fhdr x) (fsecs x) !! k) ∧
    (∀ m, m ∉ fsecs x → content d' m = content d m).
Proof.
  intros Hw Hx Hdat Hs Hbuf Hpos Hlen. destruct (disk_file _ _ _ _ Hw Hx) as (_ & _ & Hf & _).
  destruct (file_at_split d _ _ _ Hf) as (Hsz & Hdk & Hnd & Hdis). unfold WriteAt.
  destruct (WriteAt_with_spec fill (ByteToSector (S (S fuel))) fill_bytes (fhdr x) buf pos d d (fsecs x) (fmeta x))
    as (n & d' & -> & Hd' & Hn & Hb & Ho); try done; [apply Hw|by apply file_finds|].
  assert (n = Z.of_nat (length buf)) as -> by lia. exists d'. split; [done|]. split; [|done].
  constructor; [done| |apply Hw|apply Hw|].
  - apply (good_store_data d d' _ _ s x); try done; [apply Hw|by apply data_not_dir].
  - apply (map_at_data d d' _ s x); try done; [apply Hw|apply Hw].
Qed.

(** The old bytes of a file that has grown. *)
Lemma old_bytes_kept d0 d2 A s x x0 x' new : disk_wf d0 A → store_ok d2 → a_files A !! s = Some x →
  a_files A !! FreeMapSector = Some x0 → s ≠ FreeMapSector → fsecs x' = fsecs x ++ new →
  numBytes (fhdr x) ≤ numBytes (fhdr x') →
  (∀ m, m ∈ fsecs x → m ∉ fsecs x0 → content d2 m = content d0 m) →
  ∀ k, Z.of_nat k < numBytes (fhdr x) →
    file_bytes d2 (fhdr x') (fsecs x') !! k = file_bytes d0 (fhdr x) (fsecs x) !! k.
Proof.
  intros Hw Hd2 Hx Hx0 Hs Es Hn Hc k Hk. destruct (disk_file _ _ _ _ Hw Hx) as (_ & _ & Hf & _).
  destruct (file_at_split d0 _ _ _ Hf) as (Hsz & _). destruct (sized_blocks d2 _ _ Hd2 Hsz) as [Hbl _].
  rewrite <- (file_bytes_ext d0 d2 (fhdr x)).
  - unfold file_bytes. rewrite Es. rewrite !lookup_take_lt by lia. unfold block_bytes in *.
    rewrite fmap_app, concat_app, lookup_app_l by lia. done.
  - intros m Hm. apply Hc; [done|]. intros Hin.
    eapply (data_sector_others d0 (a_files A) s x FreeMapSector x0 m); try done; [apply Hw|]. auto.
Qed.
End writing.

(** The bytes of every data file but [s] and the free map are the same. *)
Definition others_kept {D} `{SectorStore D} (A : astate) (s : Z) (d d' : D) : Prop :=
  ∀ r y, a_files A !! r = Some y → IsDataFile (fhdr y) = true → r ≠ s → r ≠ FreeMapSector →
    file_bytes d' (fhdr y) (fsecs y) = file_bytes d (fhdr y) (fsecs y).

(** Sectors of another file survive growing and writing [s]. *)
Lemma others_write {D} `{SectorStore D} (d0 d2 d3 : D) A s x x0 x' fm' : disk_wf d0 A → a_files A !! FreeMapSector = Some x0 →
  disk_wf d2 (mkA (<[s := x']> (a_files A)) (a_dirs A) fm') →
  (∀ m, m ∈ fsecs x ∨ in_use (delete s (a_files A)) m → m ∉ fsecs x0 → content d2 m = content d0 m) →
  (∀ m, m ∉ fsecs x' → content d3 m = content d2 m) → others_kept A s d0 d3.
Proof.
  intros Hw Hx0 Hw2 Hc2 Hc3 r y Hy Hdat Hrs Hr0. apply file_bytes_ext. intros m Hm.
  assert (m ∈ sectors r y) as Hin by (unfold sectors; set_solver).
  rewrite Hc3.
  - apply Hc2; [right; by apply (in_use_delete _ s r y)|]. intros Hm0.
    eapply (data_sector_others d0 (a_files A) r y FreeMapSector x0 m); try done; [apply Hw|]. auto.
  - intros Hmx. apply Hrs. symmetry.
    apply (lay_disjoint _ _ (g_layout _ _ _ (dw_good _ _ Hw2)) s x' r y m); cbn [a_files];
      [apply lookup_insert_eq|by rewrite lookup_insert_ne|unfold sectors; set_solver|done].
Qed.

(** What a write of [buf] through descriptor [i] on file [s] leaves. *)
Record written {D} `{SectorStore D} (fs : FileSystem D) (A : astate) (i s : Z) (x : file) (f : OpenFile)
    (buf : list Z) (fs' : FileSystem D) (A' : astate) (x' : file) : Prop := mkWritten {
  wr_wf : fs_wf fs' A';
  wr_opens : opens fs' A' i s x' (mkOpenFile (fhdr x') (seekPosition f + Z.of_nat (length buf)));
  wr_files : a_files A' = <[s := x']> (a_files A);
  wr_dirs : a_dirs A' = a_dirs A ∧ DirectorySector fs' = DirectorySector fs;
  wr_length : numBytes (fhdr x') = Z.max (numBytes (fhdr x)) (seekPosition f + Z.of_nat (length buf));
  wr_new k : (k < length buf)%nat →
    file_bytes (fdisk fs') (fhdr x') (fsecs x') !! (Z.to_nat (seekPosition f) + k)%nat = buf !! k;
  wr_old k : Z.of_nat k < numBytes (fhdr x) →
    ¬ (seekPosition f ≤ Z.of_nat k < seekPosition f + Z.of_nat (length buf)) →
    file_bytes (fdisk fs') (fhdr x') (fsecs x') !! k = file_bytes (fdisk fs) (fhdr x) (fsecs x) !! k;
  wr_others : others_kept A s (fdisk fs) (fdisk fs')
}.

Section write_user.
Context {D : Type} `{SectorStore D}.
Variable junk : list Z.
Variable junkB fill : nat → Z.
Hypothesis fill_bytes : ∀ k, is_u8 (fill k).
Hypothesis junk_ok : length junk = 29%nat ∧ Forall is_i32 junk.
Implicit Types (d : D) (fs : FileSystem D) (A : astate) (x : file) (f : OpenFile).

Lemma WriteUser_spec fuel tid fs A i s x f buf : fs_wf fs A → opens fs A i s x f → Forall is_u8 buf →
  0 ≤ seekPosition f → is_i32 (seekPosition f + Z.of_nat (length buf)) →
  room x (a_free A) (growth (fhdr x) (seekPosition f) (Z.of_nat (length buf))) →
  ∃ fs' A' x', FileSystem_WriteUser junk junkB fill (S (S fuel)) tid fs buf i = Ok (Z.of_nat (length buf), fs') ∧
    written fs A i s x f buf fs' A' x'.
Proof.
  intros Hw Ho Hbuf Hpos Hi Hroom. pose proof Hw as [Hdw (L1 & L2 & L3) (x0 & Hx0 & Hh0) Hcwd Hop].
  unfold FileSystem_WriteUser. rewrite (user_valid Hw Ho). cbn [mbind outcome_bind negb].
  rewrite (user_lock Hw Ho). cbn [mbind outcome_bind]. rewrite user_lock_map. cbn [mbind outcome_bind].
  set (u := with_user fs i s f (Some tid) (Some tid)).
  destruct (fetch_map_spec junkB fuel (u (fdisk fs)) A x0 Hdw Hx0 Hh0) as (d1 & -> & Hd1 & Hc1). cbn [mbind outcome_bind].
  change (with_disk (u (fdisk fs)) d1) with (u d1). rewrite (user_get Hw Ho f (Some tid) (Some tid) d1 : arr_get (openedFiles (u d1)) i = _). cbn [mbind outcome_bind id object deref].
  pose proof (disk_wf_same _ d1 A Hdw Hd1 Hc1) as Hdw1. pose proof (o_file _ _ _ _ _ _ Ho) as Hx.
  destruct (fetch_header_spec (u d1) A s x Hdw1 Hx) as (d2 & -> & Hd2 & Hc2). cbn [mbind outcome_bind].
  change (with_disk (u d1) d2) with (u d2). pose proof (disk_wf_same _ d2 A Hdw1 Hd2 Hc2) as Hdw2.
  assert (same_content (fdisk fs) d2) as Hc by (intros m; by rewrite Hc2, Hc1).
  pose proof (disk_file _ _ _ _ Hdw2 Hx) as (_ & _ & Hf & _). pose proof (data_not_dir _ (o_data _ _ _ _ _ _ Ho)) as Hnd.
  destruct (extend_step junk fill fill_bytes junk_ok (S fuel) (u d2) x (a_free A) (seekPosition f) (Z.of_nat (length buf)))
    as (h' & fm' & d3 & -> & He); try done; [|lia|].
  { apply (exact_ok (a_files A)); [apply Hdw|]. intros m Hm. exists s, x. split; [done|]. unfold sectors. by right. }
  cbn [mbind outcome_bind negb]. change (with_disk (u d2) d3) with (u d3).
  destruct (grow_disk fill fill_bytes fuel (u d3) d2 A s x x0 h' fm' _ Hdw2 Hx Hnd (o_not_map _ _ _ _ _ _ Ho) Hx0 Hh0 He)
    as (d4 & d5 & x' & -> & E5 & <- & Hnb & Hty & Hdw5 & [new Hsec] & Hc5).
  cbn [mbind outcome_bind]. rewrite E5. cbn [mbind outcome_bind]. change (with_disk (u d3) d5) with (u d5).
  unfold u. rewrite user_unlock_map. cbn [mbind outcome_bind]. set (v := with_user fs i s f (Some tid) None).
  set (A' := mkA (<[s := x']> (a_files A)) (a_dirs A) fm') in *.
  assert (a_files A' !! s = Some x') as Hx' by apply lookup_insert_eq.
  destruct (open_file_spec (v d5) A' s x' Hdw5 Hx') as (d6 & -> & Hd6 & Hc6). cbn [mbind outcome_bind].
  change (with_disk (v d5) d6) with (v d6). pose proof (disk_wf_same _ d6 A' Hdw5 Hd6 Hc6) as Hdw6.
  destruct (fetch_header_spec (v d6) A' s x' Hdw6 Hx') as (d7 & -> & Hd7 & Hc7). cbn [mbind outcome_bind].
  change (with_disk (v d6) d7) with (v d7). pose proof (disk_wf_same _ d7 A' Hdw6 Hd7 Hc7) as Hdw7.
  assert (same_content d5 d7) as Hc57 by (intros m; by rewrite Hc7, Hc6).
  assert (IsDataFile (fhdr x') = true) as Hdat' by (unfold IsDataFile; rewrite Hty; apply Ho).
  assert (numBytes (fhdr x') = Z.max (numBytes (fhdr x)) (seekPosition f + Z.of_nat (length buf))) as Hlen
    by (unfold growth in Hnb; lia).
  destruct (write_data fill fill_bytes fuel d7 A' s x' buf (seekPosition f)) as (d8 & E8 & Hdw8 & Hb8 & Hc8); try done;
    [apply Ho|lia|]. unfold Write, Seek. cbn [hdr seekPosition]. change (fdisk (v d7)) with d7. rewrite E8. cbn [mbind outcome_bind].
  change (with_disk (v d7) d8) with (v d8). unfold v.
  rewrite (user_object Hw Ho). cbn [mbind outcome_bind]. rewrite (user_unlock Hw Ho). cbn [mbind outcome_bind].
  eexists _, A', x'. split; [reflexivity|]. constructor; cbn [fdisk with_user hdr]; try done.
  - constructor; [exact Hdw8|done|..].
    + exists x0. cbn [a_files A']. by rewrite lookup_insert_ne by apply Ho.
    + destruct Hcwd as (xc & tc & E1 & E2 & E3). exists xc, tc. cbn [a_files a_dirs A' DirectorySector with_user].
      rewrite lookup_insert_ne; [done|]. intros Es. rewrite <- Es, Hx in E1. injection E1 as <-.
      destruct (g_dirs _ _ _ (dw_good _ _ Hdw) _ _ E3) as (y & Hy & Hdy & _). rewrite <- Es in Hy. congruence.
    + by apply (user_opened Hw Ho).
  - by apply (user_opens Hw Ho).
  - intros k Hk. rewrite Hb8, decide_True by lia. f_equal. lia.
  - intros k Hk Hout. rewrite Hb8, decide_False by done.
    rewrite (file_bytes_ext d5 d7) by (intros m _; apply Hc57).
    rewrite (old_bytes_kept d2 d5 A s x x0 x' new Hdw2 (dw_store _ _ Hdw5) Hx Hx0 (o_not_map _ _ _ _ _ _ Ho) Hsec)
      by (done || lia || (intros m ? ?; apply Hc5; auto)).
    by rewrite (file_bytes_ext (fdisk fs) d2) by (intros m _; apply Hc).
  - intros r y Hy Hdy Hrs Hr0. trans (file_bytes d2 (fhdr y) (fsecs y)); [|apply file_bytes_ext; intros m _; apply Hc].
    revert r y Hy Hdy Hrs Hr0. apply (others_write d2 d5 d8 A s x x0 x' fm' Hdw2 Hx0 Hdw5 Hc5).
    intros m Hm. by rewrite Hc8, Hc57.
Qed.
End write_user.

(** ** Reading and seeking *)
Section read_user.
Context {D : Type} `{SectorStore D}.
Implicit Types (d : D) (fs : FileSystem D) (A : astate) (x : file) (f : OpenFile).

(** Only the position of an open file changes. *)
Lemma user_moved fs A i s x f d p : fs_wf fs A → opens fs A i s x f → store_ok d → same_content (fdisk fs) d →
  fs_wf (with_user fs i s (Seek f p) None None d) A ∧
  opens (with_user fs i s (Seek f p) None None d) A i s x (Seek f p).
Proof.
  intros Hw Ho Hd Hc. pose proof Hw as [Hdw (L1 & L2 & L3) Hm Hcwd _]. split.
  - constructor; try done; [by apply (disk_wf_same (fdisk fs))|]. cbn [openedFileMap openedFiles with_user].
    rewrite <- (insert_id (a_files A) s x) by apply Ho. apply (user_opened Hw Ho); apply Ho.
  - apply (user_opens Hw Ho); apply Ho.
Qed.

Lemma ReadUser_spec fuel tid fs A i s x f n : fs_wf fs A → opens fs A i s x f → 0 ≤ seekPosition f →
  let l := take (Z.to_nat n) (drop (Z.to_nat (seekPosition f)) (file_bytes (fdisk fs) (fhdr x) (fsecs x))) in
  ∃ fs', FileSystem_ReadUser (S (S fuel)) tid fs n i = Ok (Some l, fs') ∧ fs_wf fs' A ∧
    opens fs' A i s x (Seek f (seekPosition f + Z.of_nat (length l))) ∧ same_content (fdisk fs) (fdisk fs') ∧
    DirectorySector fs' = DirectorySector fs.
Proof.
  intros Hw Ho Hpos l. unfold FileSystem_ReadUser. rewrite (user_valid Hw Ho). cbn [mbind outcome_bind negb].
  rewrite (user_lock Hw Ho). cbn [mbind outcome_bind]. rewrite (user_get Hw Ho). cbn [mbind outcome_bind object deref].
  destruct (disk_file _ _ _ _ (fw_disk _ _ Hw) (o_file _ _ _ _ _ _ Ho)) as (_ & _ & Hf & _).
  destruct (file_at_split (fdisk fs) _ _ _ Hf) as (Hsz & Hdk & _). unfold Read, ReadAt.
  destruct (ReadAt_with_spec (ByteToSector (S (S fuel))) (fhdr x) n (seekPosition f) (fdisk fs) (fdisk fs) (fsecs x) (fmeta x))
    as (d' & E & Hd' & Hc); try done; [apply Hw|by apply file_finds|]. fold l in E.
  cbn [fdisk with_user]. rewrite (o_hdr _ _ _ _ _ _ Ho), E. cbn [mbind outcome_bind].
  match goal with |- context [with_disk ?a d'] => change (with_disk a d') with (with_user fs i s f (Some tid) None d') end.
  rewrite (user_object Hw Ho). cbn [mbind outcome_bind]. rewrite (user_unlock Hw Ho). cbn [mbind outcome_bind].
  destruct (user_moved fs A i s x f d' (seekPosition f + Z.of_nat (length l)) Hw Ho Hd' Hc). by eexists.
Qed.

Lemma SeekUser_spec tid fs A i s x f n : fs_wf fs A → opens fs A i s x f → 0 < numBytes (fhdr x) →
  ∃ fs', FileSystem_SeekUser tid fs i n = Ok (0, fs') ∧ fs_wf fs' A ∧
    opens fs' A i s x (Seek f (Z.rem n (numBytes (fhdr x)))) ∧ fdisk fs' = fdisk fs.
Proof.
  intros Hw Ho Hlen. unfold FileSystem_SeekUser. rewrite (user_valid Hw Ho). cbn [mbind outcome_bind negb].
  rewrite (user_lock Hw Ho). cbn [mbind outcome_bind]. rewrite (user_get Hw Ho). cbn [mbind outcome_bind object deref].
  unfold Length, FileLength. rewrite (o_hdr _ _ _ _ _ _ Ho), (proj2 (Z.eqb_neq _ 0)) by lia.
  rewrite (user_object Hw Ho). cbn [mbind outcome_bind]. rewrite (user_unlock Hw Ho). cbn [mbind outcome_bind].
  destruct (user_moved fs A i s x f (fdisk fs) (Z.rem n (numBytes (fhdr x))) Hw Ho); [apply Hw|done|]. by eexists.
Qed.
End read_user.

(** ** Opening and closing *)
Section open_user.
Context {D : Type} `{SectorStore D}.
Variable junkE : nat → DirectoryEntry.
Implicit Types (d : D) (fs : FileSystem D) (A : astate) (x : file) (f : OpenFile).

(** A new entry in the table. *)
Lemma opened_add om om' uf files i s x f : opened_ok om uf files → updates om om' i true →
  0 ≤ i < MaxOpenedFiles → files !! s = Some x → IsDataFile (fhdr x) = true → s ≠ FreeMapSector → hdr f = fhdr x →
  (∀ j u, 0 ≤ j < MaxOpenedFiles → bit om j = true → uf !! Z.to_nat j = Some u → id u ≠ s) →
  opened_ok om' (<[Z.to_nat i := mkUserFile (Some f) s (Some None)]> uf) files.
Proof.
  intros [(Hm & Hn & Hl) Hf Hinj] (Hw' & Hn' & Hbit) Hi Hx Hdat Hs Hh Hnew.
  assert (∀ j u, 0 ≤ j < MaxOpenedFiles → bit om' j = true →
    <[Z.to_nat i := mkUserFile (Some f) s (Some None)]> uf !! Z.to_nat j = Some u →
    (j = i ∧ id u = s) ∨ (j ≠ i ∧ bit om j = true ∧ uf !! Z.to_nat j = Some u ∧ id u ≠ s)) as Hcase.
  { intros j u Hj Hb Hu. rewrite Hbit in Hb by lia. case_decide as Hji.
    - subst j. left. rewrite list_lookup_insert_eq in Hu by lia. by injection Hu as <-.
    - right. rewrite list_lookup_insert_ne in Hu by lia. split_and!; try done. by apply (Hnew j u). }
  constructor.
  - rewrite length_insert. split; [done|]. split; [congruence|done].
  - intros j Hj Hb. rewrite Hbit in Hb by lia. case_decide as Hji.
    + subst j. exists (mkUserFile (Some f) s (Some None)), x, f. rewrite list_lookup_insert_eq by lia. by split_and!.
    + destruct (Hf j Hj Hb) as (u & y & g & E1 & E2). exists u, y, g. rewrite list_lookup_insert_ne by lia. done.
  - intros j k u v Hj Hk Hbj Hbk Hu Hv E.
    destruct (Hcase j u Hj Hbj Hu) as [[-> Eu]|(Hne & Hbj' & Hu' & Nu)], (Hcase k v Hk Hbk Hv) as [[-> Ev]|(Hne' & Hbk' & Hv' & Nv)].
    + done.
    + congruence.
    + congruence.
    + by apply (Hinj j k u v).
Qed.

Lemma unlock_opened fs tid d m l : openedFileMutex fs = None →
  unlock_open tid (with_opened (with_openMutex (with_disk fs d) (Some tid)) m l) = Ok (with_opened (with_disk fs d) m l).
Proof.
  intros L. unfold unlock_open, mutex_release. cbn. rewrite Z.eqb_refl. cbn. unfold with_openMutex, with_opened. cbn. by rewrite L.
Qed.

Definition with_fd fs (m : BitMap) (i s : Z) f d : FileSystem D :=
  with_opened (with_disk fs d) m (<[Z.to_nat i := mkUserFile (Some f) s (Some None)]> (openedFiles fs)).

Lemma OpenUser_spec fuel tid fs A t nm : fs_wf fs A → a_dirs A !! DirectorySector fs = Some t →
  (∃ s x i m d, closed_file fs A t nm s x ∧ bit (openedFileMap fs) i = false ∧
     let f := mkOpenFile (fhdr x) 0 in let fs' := with_fd fs m i s f d in
     FileSystem_OpenUser junkE (S (S fuel)) tid fs nm = Ok (i, fs') ∧ fs_wf fs' A ∧ opens fs' A i s x f ∧
     same_content (fdisk fs) d) ∨
  ((∀ s x, closed_file fs A t nm s x → free_set (openedFileMap fs) = ∅) ∧ ∃ d,
     FileSystem_OpenUser junkE (S (S fuel)) tid fs nm = Ok (-1, with_disk fs d) ∧
     fs_wf (with_disk fs d) A ∧ same_content (fdisk fs) d).
Proof.
  intros Hw Ht. pose proof Hw as [Hdw (L1 & L2 & L3) Hmap Hcwd Hop]. unfold FileSystem_OpenUser.
  destruct (enter_dir junkE fuel tid fs A t Hw Ht) as (d1 & -> & E1 & Hd1 & Hc1 & Hdw1 & Hwt & Hlen).
  cbn [mbind outcome_bind]. cbn [directoryFile with_dirMutex]. rewrite E1. cbn [mbind outcome_bind].
  destruct (find_entry d1 A _ t nm Hdw1 Ht Hwt) as [[Ek ->]|(r & x & Ek & -> & Hx & Hr & Hr0 & _)]; cbn [mbind outcome_bind].
  { right. split; [intros s x (E & _); congruence|]. exists d1.
    split; [by apply unlock_dir_held|]. split; [by apply fs_wf_same|done]. }
  destruct (Z.ltb_spec r 0); [lia|].
  destruct (open_file_spec (with_disk (with_dirMutex fs (Some tid)) d1) A r x Hdw1 Hx) as (d2 & -> & Hd2 & Hc2).
  cbn [mbind outcome_bind]. rewrite with_disk_twice.
  pose proof (disk_wf_same d1 d2 A Hdw1 Hd2 Hc2) as Hdw2.
  pose proof (unlock_dir_held tt fs tid d2 L2) as Eu. unfold unlock_dir_ret in Eu.
  destruct (unlock_dir tid (with_disk (with_dirMutex fs (Some tid)) d2)) as [fs4| | |] eqn:E4; try discriminate Eu.
  injection Eu as ->. cbn [mbind outcome_bind].
  destruct (fetch_header_spec (with_disk fs d2) A r x Hdw2 Hx) as (d3 & -> & Hd3 & Hc3).
  cbn [mbind outcome_bind]. rewrite with_disk_twice.
  assert (same_content (fdisk fs) d3) as Hc by (intros m; by rewrite Hc3, Hc2, Hc1).
  pose proof (fs_wf_same fs d3 A Hw Hd3 Hc) as Hw3.
  destruct (IsDataFile (fhdr x)) eqn:Edat; cbn [negb].
  2: { right. split; [intros s y (E & E' & E'' & _); congruence|]. by exists d3. }
  rewrite lock_open_free by done. cbn [mbind outcome_bind].
  destruct (is_opened_spec fs A r Hw) as (b & Eb & Hb).
  change (is_opened (with_openMutex (with_disk fs d3) (Some tid)) r) with (is_opened fs r).
  rewrite Eb. cbn [mbind outcome_bind].
  pose proof (λ m l, unlock_opened fs tid d3 m l L3) as Hun.
  assert (with_opened (with_disk fs d3) (openedFileMap fs) (openedFiles fs) = with_disk fs d3) as Hid by done.
  destruct b.
  { right. split.
    - intros s y (E & _ & _ & Hn). destruct (proj1 Hb eq_refl) as (j & u & Hj & Hbj & Hu & Hid').
      exfalso. apply (Hn j u Hj Hbj Hu). congruence.
    - exists d3. pose proof (Hun (openedFileMap fs) (openedFiles fs)) as Hun'.
      change (with_opened (with_openMutex (with_disk fs d3) (Some tid)) (openedFileMap fs) (openedFiles fs))
        with (with_openMutex (with_disk fs d3) (Some tid)) in Hun'. rewrite Hun', Hid. done. }
  assert (closed_file fs A t nm r x) as Hcl.
  { split; [done|]. split; [done|]. split; [done|]. intros i u Hi Hbi Hu Hid'. enough (false = true) by done.
    apply Hb. by exists i, u. }
  destruct (op_map _ _ _ Hop) as (Hom & Hon & Hol). cbn [openedFileMap with_openMutex with_disk openedFiles].
  destruct (Find_spec (openedFileMap fs) Hom) as [[-> Ee]|(i & m & -> & Hin & Hi & _ & Hup & _)]; cbn [mbind outcome_bind].
  { right. split; [done|]. exists d3. rewrite Hun. done. }
  left. apply elem_of_free_set in Hin as [_ Hbi]. rewrite (proj2 (Z.eqb_neq i (-1))) by lia. cbn [openedFiles with_opened].
  rewrite arr_set_in by (rewrite Hol; unfold MaxOpenedFiles in *; lia). cbn [mbind outcome_bind].
  pose proof (Hun m (<[Z.to_nat i := mkUserFile (Some (mkOpenFile (fhdr x) 0)) r (Some None)]> (openedFiles fs))) as Hun'.
  match goal with |- context [unlock_open tid ?a] =>
    change (unlock_open tid a) with (unlock_open tid (with_opened (with_openMutex (with_disk fs d3) (Some tid)) m (<[Z.to_nat i := mkUserFile (Some (mkOpenFile (fhdr x) 0)) r (Some None)]> (openedFiles fs)))) end.
  rewrite Hun'. cbn [mbind outcome_bind]. exists r, x, i, m, d3. split; [done|]. split; [done|].
  set (f := mkOpenFile (fhdr x) 0). cbv zeta. split; [done|].
  split; [|split; [|done]].
  - destruct Hw3 as [W1 W2 W3 W4 W5]. constructor; try done. cbn [openedFileMap openedFiles with_fd with_opened].
    apply (opened_add (openedFileMap fs) m _ _ i r x f); try done; [congruence|apply Hcl].
  - constructor; try done; [lia| |].
    + destruct Hup as (_ & _ & Hup). cbn. rewrite Hup, decide_True by done. done.
    + cbn. rewrite list_lookup_insert_eq; [done|]. rewrite Hol. unfold MaxOpenedFiles in *. lia.
Qed.
End open_user.

(** ** Theorems *)

(** [OpenUser] of the name of a data file that is not open takes a free
    descriptor, positioned at the start of the file; every other name, an open file or a full table gives -1.  No sector
    changes and the file system stays well formed. *)
Theorem OpenUser_opens {D} `{SectorStore D} junkE fuel tid (fs : FileSystem D) A t nm :
  fs_wf fs A → a_dirs A !! DirectorySector fs = Some t →
  ∃ i fs', FileSystem_OpenUser junkE (S (S fuel)) tid fs nm = Ok (i, fs') ∧ fs_wf fs' A ∧
    same_content (fdisk fs) (fdisk fs') ∧
    ((i = -1 ∧ ∀ s x, closed_file fs A t nm s x → free_set (openedFileMap fs) = ∅) ∨
     (bit (openedFileMap fs) i = false ∧ ∃ s x, closed_file fs A t nm s x ∧ opens fs' A i s x (mkOpenFile (fhdr x) 0))).
Proof.
  intros Hw Ht. destruct (OpenUser_spec junkE fuel tid fs A t nm Hw Ht)
    as [(s & x & i & m & d & Hcl & Hb & E & Hw' & Ho & Hc)|(Hn & d & E & Hw' & Hc)].
  - eexists i, _. split; [exact E|]. split; [done|]. split; [exact Hc|]. right. split; [done|]. by exists s, x.
  - eexists (-1), _. split; [exact E|]. split; [done|]. split; [exact Hc|]. by left.
Qed.

(** C12: [WriteUser] through an open descriptor, with room on the disk, writes the
    whole buffer: the file grows to hold it, the written range holds the buffer,
    every older byte and every other file keep their values, the descriptor
    moves behind the range and the file system is well formed. *)
Theorem WriteUser_writes {D} `{SectorStore D} junk junkB fill fuel tid (fs : FileSystem D) A i s x f buf :
  (∀ k, is_u8 (fill k)) → length junk = 29%nat ∧ Forall is_i32 junk →
  fs_wf fs A → opens fs A i s x f → Forall is_u8 buf →
  0 ≤ seekPosition f → is_i32 (seekPosition f + Z.of_nat (length buf)) →
  room x (a_free A) (growth (fhdr x) (seekPosition f) (Z.of_nat (length buf))) →
  ∃ fs' A' x', FileSystem_WriteUser junk junkB fill (S (S fuel)) tid fs buf i = Ok (Z.of_nat (length buf), fs') ∧
    written fs A i s x f buf fs' A' x'.
Proof. intros. by apply WriteUser_spec. Qed.

(** What a program writes it reads back: after a write of a non-empty buffer
    at the position of the descriptor, seeking to that position and reading as
    many bytes returns the buffer. *)
Theorem user_roundtrip {D} `{SectorStore D} junk junkB fill fuel tid (fs : FileSystem D) A i s x f buf :
  (∀ k, is_u8 (fill k)) → length junk = 29%nat ∧ Forall is_i32 junk →
  fs_wf fs A → opens fs A i s x f → Forall is_u8 buf → buf ≠ [] →
  0 ≤ seekPosition f → is_i32 (seekPosition f + Z.of_nat (length buf)) →
  room x (a_free A) (growth (fhdr x) (seekPosition f) (Z.of_nat (length buf))) →
  ∃ fs1 fs2 fs3 A', FileSystem_WriteUser junk junkB fill (S (S fuel)) tid fs buf i = Ok (Z.of_nat (length buf), fs1) ∧
    FileSystem_SeekUser tid fs1 i (seekPosition f) = Ok (0, fs2) ∧
    FileSystem_ReadUser (S (S fuel)) tid fs2 (Z.of_nat (length buf)) i = Ok (Some buf, fs3) ∧ fs_wf fs3 A'.
Proof.
  intros Hfill Hjunk Hw Ho Hbuf Hne Hpos Hi Hroom.
  destruct (WriteUser_spec junk junkB fill Hfill Hjunk fuel tid fs A i s x f buf Hw Ho Hbuf Hpos Hi Hroom)
    as (fs1 & A' & x' & E1 & [Hw1 Ho1 _ _ Hlen Hnew _ _]).
  assert (0 < Z.of_nat (length buf)) as Hlb by (destruct buf; [done|cbn; lia]).
  destruct (SeekUser_spec tid fs1 A' i s x' _ (seekPosition f) Hw1 Ho1) as (fs2 & E2 & Hw2 & Ho2 & Hd2); [lia|].
  rewrite Z.rem_small in Ho2 by lia.
  destruct (ReadUser_spec fuel tid fs2 A' i s x' _ (Z.of_nat (length buf)) Hw2 Ho2) as (fs3 & E3 & Hw3 & _ & _); [done|].
  exists fs1, fs2, fs3, A'. split; [exact E1|]. split; [exact E2|]. split; [|exact Hw3]. rewrite E3.
  f_equal. f_equal. f_equal. unfold Seek. cbn [seekPosition]. rewrite Hd2, Nat2Z.id. apply list_eq. intros k.
  destruct (decide (k < length buf)%nat) as [Hk|Hk].
  - rewrite lookup_take_lt, lookup_drop by done. by apply Hnew.
  - rewrite lookup_take_ge by lia. symmetry. apply lookup_ge_None. lia.
Qed.

(** ** Witnesses *)
Definition demo_opened : outcome (Z * FileSystem SynchDisk) :=
  '(_, fs) ← demo_created; FileSystem_OpenUser (λ _, demo_entry) 2 7 fs demo_name.
Lemma demo_closed fs A s x t : dir_map t !! key demo_name = Some s → a_files A !! s = Some x →
  IsDataFile (fhdr x) = true → (∀ i, 0 ≤ i < MaxOpenedFiles → bit (openedFileMap fs) i = false) →
  @closed_file SynchDisk fs A t demo_name s x.
Proof.
  intros Hk Hx Hdat Hop. split; [done|]. split; [done|]. split; [done|]. intros i u Hi Hb. by rewrite (Hop i Hi) in Hb.
Qed.
Lemma nothing_open {D : Type} `{SectorStore D} (fs : FileSystem D) (A : astate) : fs_wf fs A →
  (∀ i, 0 ≤ i < MaxOpenedFiles → bit (openedFileMap fs) i = false) → free_set (openedFileMap fs) ≠ ∅.
Proof.
  intros Hw Hop He. destruct (op_map _ _ _ (fw_open _ _ Hw)) as (_ & Hn & _).
  apply (not_elem_of_empty (C := gset Z) 0). rewrite <- He. apply elem_of_free_set. rewrite Hn.
  split; [done|]. by apply Hop.
Qed.
Lemma demo_opened_wf : ∃ fs A i s x, demo_opened = Ok (i, fs) ∧ fs_wf fs A ∧
  opens fs A i s x (mkOpenFile (fhdr x) 0) ∧ numBytes (fhdr x) = 300.
Proof.
  destruct demo_created_wf as (fs & A & s & x & t & E & Hw & Ht & Hk & Hx & Hnb & Hdat & Hop).
  unfold demo_opened. rewrite E. cbn [mbind outcome_bind].
  destruct (OpenUser_spec (λ _, demo_entry) 0 7 fs A t demo_name Hw Ht)
    as [(s' & x' & i & m & d & (Hk' & Hx' & _) & _ & E' & Hw' & Ho & _)|(Hn & _)].
  - assert (s' = s) as -> by congruence. assert (x' = x) as -> by congruence.
    eexists _, A, i, s, x. split; [exact E'|]. split; [exact Hw'|]. split; [exact Ho|exact Hnb].
  - exfalso. apply (nothing_open fs A Hw Hop), (Hn s x). by apply demo_closed.
Qed.
Lemma demo_room x fm : numBytes (fhdr x) = 300 → length (fsecs x) = 3%nat → room x fm (growth (fhdr x) 0 3).
Proof.
  intros Hn Hl. unfold room, growth. rewrite Hn, Hl. change (divRoundUp (300 + 0 `max` (0 + 3 - 300)) SectorSize) with 3.
  change (meta_need 3) with 0. lia.
Qed.
Lemma demo_blocks fs A i s x : @fs_wf SynchDisk _ fs A → opens fs A i s x (mkOpenFile (fhdr x) 0) →
  numBytes (fhdr x) = 300 → length (fsecs x) = 3%nat.
Proof.
  intros Hw Ho Hn. destruct (disk_file _ _ _ _ (fw_disk _ _ Hw) (o_file _ _ _ _ _ _ Ho)) as (_ & _ & Hf & _).
  destruct (file_at_facts _ _ _ _ Hf) as ([_ Hl] & _). rewrite Hn in Hl. change (divRoundUp 300 SectorSize) with 3 in Hl. lia.
Qed.
Lemma demo_buf_bytes : Forall is_u8 [104; 105; 33].
Proof. repeat constructor; unfold is_u8; lia. Qed.

Lemma OpenUser_opens_witness : ∃ fs i fs', demo_created = Ok (true, fs) ∧
  FileSystem_OpenUser (λ _, demo_entry) 2 7 fs demo_name = Ok (i, fs') ∧ i ≠ -1.
Proof.
  destruct demo_created_wf as (fs & A & s & x & t & E & Hw & Ht & Hk & Hx & Hnb & Hdat & Hop).
  destruct (OpenUser_opens (λ _, demo_entry) 0 7 fs A t demo_name Hw Ht) as (i & fs' & E' & _ & _ & [[_ Hn]|[_ (s' & x' & _ & Ho)]]).
  - exfalso. apply (nothing_open fs A Hw Hop), (Hn s x). by apply demo_closed.
  - exists fs, i, fs'. split; [exact E|]. split; [exact E'|]. destruct (o_index _ _ _ _ _ _ Ho). lia.
Defined.
Lemma WriteUser_writes_witness : ∃ fs i fs', demo_opened = Ok (i, fs) ∧
  FileSystem_WriteUser demo_junk (λ _, 5) (λ _, 3) 2 7 fs [104; 105; 33] i = Ok (3, fs').
Proof.
  destruct demo_opened_wf as (fs & A & i & s & x & E & Hw & Ho & Hn).
  destruct (WriteUser_writes demo_junk (λ _, 5) (λ _, 3) 0 7 fs A i s x _ [104; 105; 33] three_byte demo_junk_ok Hw Ho demo_buf_bytes)
    as (fs' & A' & x' & E' & _).
  - cbn. lia.
  - cbn. unfold is_i32, two31. lia.
  - apply demo_room; [exact Hn|]. by apply (demo_blocks fs A i s).
  - exists fs, i, fs'. split; [exact E|exact E'].
Defined.
Lemma user_roundtrip_witness : ∃ fs i fs1 fs2 fs3, demo_opened = Ok (i, fs) ∧
  FileSystem_WriteUser demo_junk (λ _, 5) (λ _, 3) 2 7 fs [104; 105; 33] i = Ok (3, fs1) ∧
  FileSystem_SeekUser 7 fs1 i 0 = Ok (0, fs2) ∧
  FileSystem_ReadUser 2 7 fs2 3 i = Ok (Some [104; 105; 33], fs3).
Proof.
  destruct demo_opened_wf as (fs & A & i & s & x & E & Hw & Ho & Hn).
  destruct (user_roundtrip demo_junk (λ _, 5) (λ _, 3) 0 7 fs A i s x _ [104; 105; 33] three_byte demo_junk_ok Hw Ho demo_buf_bytes)
    as (fs1 & fs2 & fs3 & A' & E1 & E2 & E3 & _).
  - discriminate.
  - cbn. lia.
  - cbn. unfold is_i32, two31. lia.
  - apply demo_room; [exact Hn|]. by apply (demo_blocks fs A i s).
  - exists fs, i, fs1, fs2, fs3. split; [exact E|]. split; [exact E1|]. split; [exact E2|exact E3].
Defined.
