(* ===== verification/FileSysPath.v ===== *)
(** * Path names and the current directory

    [ParsePath] cuts a path at its slashes as a reference definition does, and
    never writes outside the array it allocates; [ChangeDir] follows the names
    through the tables of the directories, and stays where it was when one of
    them is missing. *)
From S2P Require Import Prelude BitMap Memory Disk FileHdr FileGrow Directory FileSys FileSysInv FileSysOps.

(** ** Cutting at slashes *)

(** The parts between the slashes, in order, the empty ones too. *)
Fixpoint split_slash (s : list Z) : list (list Z) :=
  match s with
  | [] => [[]]
  | c :: s' =>
      if c =? slash then [] :: split_slash s'
      else match split_slash s' with w :: ws => (c :: w) :: ws | [] => [[c]] end
  end.
Definition components (s : list Z) : list (list Z) := filter (λ w, w ≠ []) (split_slash s).

Lemma count_slashes_nonneg s : 0 ≤ count_slashes s.
Proof. induction s as [|c s IH]; cbn [count_slashes]; [done|]. destruct (c =? slash); lia. Qed.
Lemma split_slash_length s : Z.of_nat (length (split_slash s)) = 1 + count_slashes s.
Proof.
  induction s as [|c s IH]; [done|]. cbn [split_slash count_slashes]. pose proof (count_slashes_nonneg s).
  destruct (c =? slash); cbn [length]; [lia|].
  destruct (split_slash s); cbn [length] in *; lia.
Qed.
Lemma components_length s : Z.of_nat (length (components s)) ≤ 1 + count_slashes s.
Proof.
  rewrite <- split_slash_length. pose proof (length_filter (λ w : list Z, w ≠ []) (split_slash s)). unfold components. lia.
Qed.

Lemma components_slash s : components (slash :: s) = components s.
Proof. unfold components. cbn [split_slash]. rewrite Z.eqb_refl, filter_cons_False; [done|]. by intros []. Qed.
Lemma components_skip s : components s = components (skip_slashes s).
Proof.
  induction s as [|c s IH]; [done|]. cbn [skip_slashes]. destruct (Z.eqb_spec c slash) as [->|]; [|done].
  by rewrite components_slash.
Qed.
(** The first part and the rest, as [strtok] sees them. *)
Lemma cut_word_split s w r : cut_word s = (w, r) →
  (split_slash s = [w] ∧ r = []) ∨ split_slash s = w :: split_slash r.
Proof.
  revert w r. induction s as [|c s IH]; intros w r; cbn [cut_word split_slash].
  - intros [= <- <-]. by left.
  - destruct (c =? slash); [intros [= <- <-]; by right|].
    destruct (cut_word s) as [w' r'] eqn:E. intros [= <- <-].
    destruct (IH w' r' eq_refl) as [[-> ->]| ->]; auto.
Qed.
Lemma cut_word_length s w r : cut_word s = (w, r) → s ≠ [] → (length r < length s)%nat.
Proof.
  revert w r. induction s as [|c s IH]; intros w r; [done|]. cbn [cut_word]. intros E _.
  destruct (c =? slash); [injection E as _ <-; cbn; lia|].
  destruct (cut_word s) as [w' r'] eqn:E'. injection E as _ <-. destruct s as [|c' s]; [by injection E' as _ <-; cbn; lia|].
  specialize (IH w' r' eq_refl ltac:(done)). cbn in *. lia.
Qed.
Lemma skip_slashes_spec s : (length (skip_slashes s) ≤ length s)%nat ∧
  match skip_slashes s with [] => True | c :: _ => c ≠ slash end.
Proof.
  induction s as [|c s [IH1 IH2]]; [done|]. cbn [skip_slashes]. destruct (Z.eqb_spec c slash); [|done].
  split; [cbn; lia|done].
Qed.

(** One call of [strtok]. *)
Lemma strtok_spec s : match strtok s with
  | None => components s = []
  | Some (w, r) => components s = w :: components r ∧ (length r < length s)%nat
  end.
Proof.
  unfold strtok. rewrite (components_skip s). destruct (skip_slashes_spec s) as [Hl Hc].
  destruct (skip_slashes s) as [|c s'] eqn:E; [done|]. destruct (cut_word (c :: s')) as [w r] eqn:Ew.
  pose proof (cut_word_length _ _ _ Ew ltac:(done)). split; [|cbn in *; lia].
  assert (w ≠ []) as Hw.
  { cbn [cut_word] in Ew. rewrite (proj2 (Z.eqb_neq c slash) Hc) in Ew. destruct (cut_word s'). by injection Ew as <- _. }
  unfold components. destruct (cut_word_split _ _ _ Ew) as [[-> ->]| ->]; by rewrite filter_cons_True.
Qed.

(** The loop fills the array with the components; [n] is more than the length
    of the string, which every round shortens. *)
Lemma cut_path_spec n s pre : (length s < n)%nat → ∀ k, (length (components s) ≤ k)%nat →
  cut_path n s (pre ++ replicate k None) (Z.of_nat (length pre)) =
  Ok (pre ++ map Some (components s) ++ replicate (k - length (components s)) None,
      Z.of_nat (length pre + length (components s))).
Proof.
  revert s pre. induction n as [|n IH]; intros s pre Hn k Hk; [lia|]. cbn [cut_path].
  pose proof (strtok_spec s) as Hs. destruct (strtok s) as [[w r]|].
  - destruct Hs as [Hc Hl]. rewrite Hc in *. cbn [length] in Hk. destruct k as [|k]; [lia|].
    rewrite arr_set_in by (rewrite length_app, length_replicate; lia). cbn [mbind outcome_bind].
    rewrite Nat2Z.id, insert_app_r_alt by lia. rewrite Nat.sub_diag. cbn [replicate insert list_insert].
    replace (pre ++ Some w :: replicate k None) with ((pre ++ [Some w]) ++ replicate k None) by (by rewrite <- app_assoc).
    replace (Z.of_nat (length pre) + 1) with (Z.of_nat (length (pre ++ [Some w]))) by (rewrite length_app; cbn; lia).
    rewrite IH by lia. rewrite <- app_assoc, length_app. cbn [app map length]. do 2 f_equal. lia.
  - rewrite Hs. cbn [map app length]. by rewrite Nat.sub_0_r, Nat.add_0_r.
Qed.

Lemma ParsePath_spec s :
  ParsePath s = match s with
    | [] => Ok None
    | _ => Ok (Some (mkPath (map Some (components s) ++
                 replicate (Z.to_nat (1 + count_slashes s) - length (components s)) None)
               (Z.of_nat (length (components s)))))
    end.
Proof.
  unfold ParsePath. destruct s as [|c s]; [done|]. set (s' := c :: s).
  pose proof (components_length s'). pose proof (cut_path_spec (S (length s')) s' [] ltac:(lia)
    (Z.to_nat (1 + count_slashes s')) ltac:(lia)) as E. cbn [app length Nat.add] in E. change (Z.of_nat 0) with 0 in E. by rewrite E.
Qed.

Lemma split_slash_concat s : concat (split_slash s) = filter (λ c, c ≠ slash) s.
Proof.
  induction s as [|c s IH]; [done|]. cbn [split_slash]. destruct (Z.eqb_spec c slash) as [->|Hc].
  - rewrite filter_cons_False by (by intros []). exact IH.
  - rewrite filter_cons_True by done. rewrite <- IH. by destruct (split_slash s).
Qed.
Lemma concat_components s : concat (components s) = filter (λ c, c ≠ slash) s.
Proof.
  rewrite <- split_slash_concat. unfold components. induction (split_slash s) as [|w l IH]; [done|].
  rewrite filter_cons. case_decide as Hw; cbn [concat]; [by rewrite IH|].
  destruct w; [exact IH|]. discriminate Hw.
Qed.
Lemma components_words s : Forall (λ w, w ≠ [] ∧ slash ∉ w) (components s).
Proof.
  unfold components. apply Forall_forall. intros w [Hw Hin]%list_elem_of_filter. split; [done|].
  intros Hs. assert (slash ∈ concat (split_slash s)) as Hc.
  { apply list_elem_of_In, in_concat. exists w. by rewrite <- !list_elem_of_In. }
  rewrite split_slash_concat in Hc. apply list_elem_of_filter in Hc as [Hc _]. done.
Qed.

(** [ParsePath] of a non-empty path always succeeds and stays inside the array
    it allocates: the words it yields are not empty, hold no slash, and are in
    order all the characters of the path but its slashes. *)
Theorem ParsePath_cuts s : s ≠ [] →
  ∃ pp ws, ParsePath s = Ok (Some pp) ∧ nbFolders pp = Z.of_nat (length ws) ∧
    take (length ws) (path pp) = map Some ws ∧ Forall (λ w, w ≠ [] ∧ slash ∉ w) ws ∧
    concat ws = filter (λ c, c ≠ slash) s.
Proof.
  intros Hs. rewrite ParsePath_spec. destruct s as [|c s]; [done|]. eexists _, (components (c :: s)).
  split; [reflexivity|]. split; [done|]. split; [|split; [apply components_words|apply concat_components]].
  cbn [path]. rewrite take_app_length'; [done|]. by rewrite length_map.
Qed.
Lemma ParsePath_cuts_witness : ∃ pp, ParsePath [47; 97; 47; 47; 98] = Ok (Some pp) ∧ nbFolders pp = 2.
Proof.
  destruct (ParsePath_cuts [47; 97; 47; 47; 98] ltac:(discriminate)) as (pp & ws & E & Hn & _).
  exists pp. split; [exact E|]. vm_compute in E. injection E as <-. reflexivity.
Defined.

(** ** Changing the current directory *)

(** The directory that names [ws] lead to from directory [s]. *)
Fixpoint resolve (dirs : gmap Z Directory) (s : Z) (ws : list (list Z)) : option Z :=
  match ws with
  | [] => Some s
  | w :: ws' => t ← dirs !! s; c ← dir_map t !! key w; _ ← dirs !! c; resolve dirs c ws'
  end.

Section change_dir.
Context {D : Type} `{SectorStore D}.
Variable junkE : nat → DirectoryEntry.
Implicit Types (d : D) (fs : FileSystem D) (A : astate).

(** The current directory is [s], reached through a fresh [OpenFile]. *)
Definition at_dir A (s : Z) (f : OpenFile) : Prop :=
  ∃ x t, a_files A !! s = Some x ∧ hdr f = fhdr x ∧ a_dirs A !! s = Some t.

Lemma directory_listed d A c x : disk_wf d A → a_files A !! c = Some x →
  (negb (IsDirectory (fhdr x)) && negb (IsRoot (fhdr x)) = false ↔ is_Some (a_dirs A !! c)).
Proof.
  intros Hw Hx. unfold IsRoot. split.
  - intros E. apply (g_all _ _ _ (dw_good _ _ Hw) c x Hx). unfold IsDirectory in *.
    destruct (ftype (fhdr x) =? DIRECTORY), (ftype (fhdr x) =? ROOT); done.
  - intros [t Ht]. destruct (g_dirs _ _ _ (dw_good _ _ Hw) c t Ht) as (y & Hy & Hd & _).
    assert (y = x) as -> by congruence. by rewrite Hd.
Qed.

(** What the walk along [ws] from directory [s] returns and where it ends. *)
Definition walked A fs (s : Z) (ws : list (list Z)) (r : outcome (bool * FileSystem D)) : Prop :=
  ∃ d g c, r = Ok (bool_decide (is_Some (resolve (a_dirs A) s ws)), with_disk (with_cwd fs g c) d) ∧
    store_ok d ∧ same_content (fdisk fs) d ∧
    ∀ c', resolve (a_dirs A) s ws = Some c' → c = c' ∧ at_dir A c g.
Lemma walk_fails A fs s ws d : store_ok d → same_content (fdisk fs) d → resolve (a_dirs A) s ws = None →
  walked A fs s ws (Ok (false, with_disk fs d)).
Proof.
  intros Hd Hc E. exists d, (directoryFile fs), (DirectorySector fs). rewrite E, bool_decide_eq_false_2 by (by intros []).
  split; [by destruct fs|]. by split_and!.
Qed.
Lemma resolve_cons dirs s t w ws c : dirs !! s = Some t → dir_map t !! key w = c →
  resolve dirs s (w :: ws) = (c' ← c; _ ← dirs !! c'; resolve dirs c' ws).
Proof. intros Ht <-. cbn [resolve]. by rewrite Ht. Qed.

Lemma ChangeDirRec_spec fuel A pre ws post fs s f : disk_wf (fdisk fs) A → at_dir A s f → f = directoryFile fs →
  s = DirectorySector fs →
  walked A fs s ws (FileSystem_ChangeDirRec junkE (S (S fuel)) (length ws) fs f (pre ++ map Some ws ++ post)
    (Z.of_nat (length pre + length ws)) (Z.of_nat (length pre))).
Proof.
  revert pre fs s f. induction ws as [|w ws IH]; intros pre fs s f Hw (x & t & Hx & Hh & Ht) Ef Es.
  - cbn [length FileSystem_ChangeDirRec]. destruct (fetch_dir_spec junkE fuel fs f A s x t Hw Hx Ht Hh) as (d & -> & Hd & Hc).
    cbn [mbind outcome_bind]. rewrite Nat.add_0_r, Z.leb_refl.
    exists d, (directoryFile fs), (DirectorySector fs). cbn [resolve]. rewrite bool_decide_eq_true_2 by done.
    split; [by destruct fs|]. split; [done|]. split; [done|]. intros c' [= <-]. split; [done|].
    rewrite <- Es, <- Ef. by exists x, t.
  - cbn [length FileSystem_ChangeDirRec]. destruct (fetch_dir_spec junkE fuel fs f A s x t Hw Hx Ht Hh) as (d & -> & Hd & Hc).
    cbn [mbind outcome_bind]. destruct (Z.leb_spec (Z.of_nat (length pre + S (length ws))) (Z.of_nat (length pre))); [lia|].
    pose proof (disk_wf_same _ d A Hw Hd Hc) as Hw1.
    rewrite (proj2 (arr_get_Ok _ _ (Some w))) by (split; [lia|]; rewrite Nat2Z.id, lookup_app_r, Nat.sub_diag by lia; done).
    cbn [mbind outcome_bind deref].
    destruct (g_dirs _ _ _ (dw_good _ _ Hw) s t Ht) as (_ & _ & _ & _ & _ & Hwt & _).
    destruct (find_entry d A s t w Hw1 Ht Hwt) as [[Ek ->]|(c & y & Ek & -> & Hy & Hc0 & _)]; cbn [mbind outcome_bind].
    { apply walk_fails; try done. by rewrite (resolve_cons _ s t w ws None). }
    destruct (Z.ltb_spec c 0); [lia|].
    destruct (fetch_header_spec (with_disk fs d) A c y Hw1 Hy) as (d2 & -> & Hd2 & Hc2). cbn [mbind outcome_bind].
    rewrite with_disk_twice. assert (same_content (fdisk fs) d2) as Hc02 by (intros m; by rewrite Hc2, Hc).
    pose proof (disk_wf_same _ d2 A Hw Hd2 Hc02) as Hw2.
    destruct (a_dirs A !! c) as [tc|] eqn:Etc; cycle 1.
    { destruct (negb (IsDirectory (fhdr y)) && negb (IsRoot (fhdr y))) eqn:Ed.
      - apply walk_fails; try done. rewrite (resolve_cons _ s t w ws (Some c)) by done. cbn [mbind option_bind]. by rewrite Etc.
      - apply (directory_listed d A c y Hw1 Hy) in Ed as [? ?]. congruence. }
    rewrite (proj2 (directory_listed d A c y Hw1 Hy)) by (by eexists).
    destruct (open_file_spec (with_disk fs d2) A c y Hw2 Hy) as (d3 & -> & Hd3 & Hc3). cbn [mbind outcome_bind].
    rewrite with_disk_twice. assert (same_content (fdisk fs) d3) as Hc03 by (intros m; by rewrite Hc3, Hc02).
    set (g := mkOpenFile (fhdr y) 0). set (fs' := with_cwd (with_disk fs d3) g c).
    destruct (IH (pre ++ [Some w]) fs' c g) as (d4 & g' & c' & E4 & Hd4 & Hc4 & Hr); try done.
    { by apply (disk_wf_same (fdisk fs)). } { by exists y, tc. }
    rewrite length_app, <- app_assoc in E4. cbn [length app] in E4.
    replace (length pre + 1 + length ws)%nat with (length pre + S (length ws))%nat in E4 by lia.
    replace (Z.of_nat (length pre + 1)) with (Z.of_nat (length pre) + 1) in E4 by lia.
    cbn [map app]. fold fs'. rewrite E4.
    assert (resolve (a_dirs A) s (w :: ws) = resolve (a_dirs A) c ws) as Er.
    { rewrite (resolve_cons _ s t w ws (Some c)) by done. cbn [mbind option_bind]. by rewrite Etc. }
    exists d4, g', c'. rewrite Er. split; [done|]. split; [done|].
    split; [intros m; rewrite Hc4; apply Hc03|exact Hr].
Qed.
End change_dir.

Lemma fs_wf_cwd {D} `{SectorStore D} (fs : FileSystem D) A g c d : fs_wf fs A → at_dir A c g → store_ok d →
  same_content (fdisk fs) d → fs_wf (with_disk (with_cwd fs g c) d) A.
Proof. intros [H1 H2 H3 H4 H5] Hc Hd Hs. constructor; try done. by apply (disk_wf_same (fdisk fs)). Qed.

(** C30: [ChangeDir] follows the components of the path through the directories:
    it returns TRUE exactly when the path is not empty and every component names
    a directory, and then the current directory is the one they lead to; in
    every other case the current directory is as before.  No sector changes and
    the file system stays well formed. *)
Theorem ChangeDir_resolves {D} `{SectorStore D} junkE fuel tid (fs : FileSystem D) A p :
  fs_wf fs A →
  let target := match p with [] => None | _ => resolve (a_dirs A) (DirectorySector fs) (components p) end in
  ∃ fs', FileSystem_ChangeDir junkE (S (S fuel)) tid fs p = Ok (bool_decide (is_Some target), fs') ∧
    fs_wf fs' A ∧ same_content (fdisk fs) (fdisk fs') ∧
    DirectorySector fs' = default (DirectorySector fs) target.
Proof.
  intros Hw. unfold FileSystem_ChangeDir. rewrite ParsePath_spec. destruct p as [|ch p]; cbn [mbind outcome_bind].
  { exists fs. rewrite bool_decide_eq_false_2 by (by intros []). by split_and!. }
  set (s := ch :: p). pose proof Hw as [Hdw (L1 & L2 & L3) _ (xc & tc & Hxc & Hhc & Htc) _].
  rewrite lock_dir_free by done. cbn [mbind outcome_bind]. set (fsl := with_dirMutex fs (Some tid)).
  destruct (open_file_spec fsl A (DirectorySector fsl) xc Hdw Hxc) as (d1 & -> & Hd1 & Hc1). cbn [mbind outcome_bind nbFolders path].
  destruct (ChangeDirRec_spec junkE fuel A [] (components s) (replicate (Z.to_nat (1 + count_slashes s) - length (components s)) None)
    (with_disk fsl d1) (DirectorySector fs) (directoryFile fs)) as (d & g & c & E & Hd & Hc & Hr); try done.
  { by apply (disk_wf_same (fdisk fs)). } { by exists xc, tc. }
  cbn [length app Nat.add] in E. rewrite Nat2Z.id. change (Z.of_nat 0) with 0 in E.
  change (directoryFile (with_disk fsl d1)) with (directoryFile fs). rewrite E. cbn [mbind outcome_bind].
  assert (same_content (fdisk fs) d) as Hc' by (intros m; rewrite Hc; apply Hc1).
  destruct (resolve (a_dirs A) (DirectorySector fs) (components s)) as [c'|].
  - rewrite bool_decide_eq_true_2 by done. destruct (Hr c' eq_refl) as [-> Hat].
    exists (with_disk (with_cwd fs g c') d). split; [|split; [by apply fs_wf_cwd|done]].
    apply (unlock_dir_held true (with_cwd fs g c') tid d L2).
  - rewrite bool_decide_eq_false_2 by (by intros []).
    exists (with_disk (with_cwd fs (mkOpenFile (fhdr xc) 0) (DirectorySector fs)) d). split.
    + apply (unlock_dir_held false (with_cwd fs (mkOpenFile (fhdr xc) 0) (DirectorySector fs)) tid d L2).
    + split; [apply fs_wf_cwd; try done; by exists xc, tc|done].
Qed.

Lemma ChangeDir_resolves_witness : ∃ fs fs', demo_format = Ok fs ∧
  FileSystem_ChangeDir (λ _, demo_entry) 2 7 fs [47; 97; 47] = Ok (false, fs') ∧ DirectorySector fs' = DirectorySector fs.
Proof.
  destruct demo_format_wf as (fs & A & E & Hw & Ht & _).
  destruct (ChangeDir_resolves (λ _, demo_entry) 0 7 fs A [47; 97; 47] Hw) as (fs' & E' & _ & _ & Hs).
  assert (resolve (a_dirs A) (DirectorySector fs) (components [47; 97; 47]) = None) as Hr.
  { change (components [47; 97; 47]) with [[97]]. rewrite (resolve_cons _ _ _ [97] [] None Ht); [done|by vm_compute]. }
  rewrite Hr in E', Hs. exists fs, fs'. split; [exact E|]. split; [exact E'|exact Hs].
Defined.
