(* ===== verification/Network.v ===== *)
(** * machine/network.cc: the network device

    A packet on the wire is a buffer of [MaxWireSize] bytes that starts with its
    [PacketHeader]; the UNIX socket between two machines is the queue of the
    buffers sent and not yet read.  Whether the device loses a packet is an
    argument of [Send].  Main property: what one device sends and another reads
    is the header and the data that were given. *)
From S2P Require Import Prelude Memory FileHdr.

Record PacketHeader := mkPkt { pto : Z; pfrom : Z; plength : Z }.
Definition sizeof_PacketHeader : Z := 12.
Definition MaxWireSize : Z := 64.
Definition MaxPacketSize : Z := MaxWireSize - sizeof_PacketHeader.

Definition encode_pkt (h : PacketHeader) : list Z := encode_ints [pto h; pfrom h; plength h].
Definition decode_pkt (l : list Z) : outcome PacketHeader :=
  t ← int_at l 0; f ← int_at l 4; n ← word_at l 8; Ok (mkPkt t f n).

Record Network := mkNet { ident : Z; sendBusy : bool; inHdr : PacketHeader; inbox : list Z }.

(** What the constructor leaves, on top of uninitialised fields. *)
Definition Network_new (addr : Z) (junkH : PacketHeader) (junkI : list Z) : Network :=
  mkNet addr false (mkPkt (pto junkH) (pfrom junkH) 0) junkI.

(** The device after a poll, what is left in the socket, and whether the read
    handler is called. *)
Definition CheckPktAvail (n : Network) (sock : list (list Z)) : outcome (Network * list (list Z) * bool) :=
  if negb (plength (inHdr n) =? 0) then Ok (n, sock, false)
  else match sock with
  | [] => Ok (n, sock, false)
  | buffer :: sock' =>
      h ← decode_pkt buffer;
      _ ← ASSERT ((pto h =? ident n) && (plength h <=? MaxPacketSize));
      l ← slice buffer sizeof_PacketHeader (plength h);
      b ← overlay (inbox n) 0 l;
      Ok (mkNet (ident n) (sendBusy n) h b, sock', true)
  end.

Definition SendDone (n : Network) : Network := mkNet (ident n) false (inHdr n) (inbox n).

(** [works] is the outcome of the draw against [chanceToWork]; [fill] is what
    [new char[MaxWireSize]] leaves behind the data.  The result is the buffer put
    into the socket of machine [pto hdr], if any. *)
Definition Network_Send (fill : list Z) (works : bool) (n : Network) (hdr : PacketHeader) (data : list Z)
    : outcome (option (list Z)) :=
  _ ← ASSERT (negb (sendBusy n));
  _ ← ASSERT (0 <? plength hdr);
  _ ← ASSERT (plength hdr <=? MaxPacketSize);
  _ ← ASSERT (pfrom hdr =? ident n);
  if works then
    b ← overlay fill 0 (encode_pkt hdr);
    l ← slice data 0 (plength hdr);
    b' ← overlay b sizeof_PacketHeader l;
    Ok (Some b')
  else Ok None.

Definition Network_Receive (n : Network) (data : list Z) : outcome (PacketHeader * list Z * Network) :=
  let hdr := inHdr n in
  let n' := mkNet (ident n) (sendBusy n) (mkPkt (pto hdr) (pfrom hdr) 0) (inbox n) in
  if plength hdr =? 0 then Ok (hdr, data, n')
  else l ← slice (inbox n) 0 (plength hdr); d ← overlay data 0 l; Ok (hdr, d, n').

(** ** Properties *)
Definition pkt_ok (h : PacketHeader) : Prop := is_i32 (pto h) ∧ is_i32 (pfrom h) ∧ 0 < plength h ≤ MaxPacketSize.
Definition net_wf (n : Network) : Prop := length (inbox n) = Z.to_nat MaxPacketSize ∧ sendBusy n = false.
(** No packet is buffered. *)
Definition idle (n : Network) : Prop := net_wf n ∧ plength (inHdr n) = 0.

Lemma slice_ok l i n : 0 ≤ i → i + n ≤ Z.of_nat (length l) →
  slice l i n = Ok (take (Z.to_nat n) (drop (Z.to_nat i) l)).
Proof. intros. unfold slice. by rewrite (proj2 (Z.leb_le 0 i)), (proj2 (Z.leb_le _ _)). Qed.
Lemma overlay_ok b i l : 0 ≤ i → i + Z.of_nat (length l) ≤ Z.of_nat (length b) →
  overlay b i l = Ok (take (Z.to_nat i) b ++ l ++ drop (Z.to_nat i + length l) b).
Proof. intros. unfold overlay. by rewrite (proj2 (Z.leb_le 0 i)), (proj2 (Z.leb_le _ _)). Qed.
Lemma overlay_head b l : (length l ≤ length b)%nat → overlay b 0 l = Ok (l ++ drop (length l) b).
Proof. intros. rewrite overlay_ok by lia. done. Qed.

Lemma decode_encode_pkt h r : pkt_ok h → decode_pkt (encode_pkt h ++ r) = Ok h.
Proof.
  intros (H1 & H2 & H3). unfold decode_pkt, encode_pkt, encode_ints. cbn [fmap list_fmap concat].
  rewrite <- !app_assoc. rewrite (int_at_le32 [] (pto h) _ 0 eq_refl H1 : int_at (le32 (pto h) ++ _) 0 = _). cbn [mbind outcome_bind].
  rewrite (int_at_le32 (le32 (pto h)) (pfrom h)) by done. cbn [mbind outcome_bind].
  rewrite (app_assoc (le32 (pto h))). rewrite (word_at_le32 (le32 (pto h) ++ le32 (pfrom h)) (plength h)); [|done|].
  - by destruct h.
  - unfold is_u32, two32, MaxPacketSize, MaxWireSize, sizeof_PacketHeader in *. lia.
Qed.

(** The buffer of a packet. *)
Definition wire (fill : list Z) (h : PacketHeader) (data : list Z) : list Z :=
  encode_pkt h ++ take (Z.to_nat (plength h)) data ++ drop (12 + Z.to_nat (plength h)) fill.

Lemma Network_Send_spec fill n h data : net_wf n → pkt_ok h → pfrom h = ident n →
  length fill = Z.to_nat MaxWireSize → plength h ≤ Z.of_nat (length data) →
  Network_Send fill true n h data = Ok (Some (wire fill h data)) ∧ Network_Send fill false n h data = Ok None.
Proof.
  intros [Hi Hb] (_ & _ & H1 & H2) Hf Hl Hd. unfold Network_Send. rewrite Hb, Hf, Z.eqb_refl.
  rewrite (proj2 (Z.ltb_lt _ _) H1), (proj2 (Z.leb_le _ _) H2). cbn [ASSERT mbind outcome_bind negb].
  split; [|done]. unfold MaxPacketSize, MaxWireSize, sizeof_PacketHeader in *.
  rewrite overlay_head by (rewrite Hl; cbn; lia). cbn [mbind outcome_bind].
  rewrite slice_ok by lia. cbn [mbind outcome_bind]. change (Z.to_nat 0) with 0%nat. rewrite drop_0.
  assert (length (take (Z.to_nat (plength h)) data) = Z.to_nat (plength h)) as El by (rewrite length_take; lia).
  assert (length (encode_pkt h) = 12%nat) as E12 by done.
  rewrite overlay_ok by (rewrite ?length_app, ?length_drop, ?E12, ?El; lia). cbn [mbind outcome_bind].
  do 2 f_equal. rewrite El. unfold wire. change (Z.to_nat 12) with 12%nat.
  rewrite take_app_length' by done. do 2 f_equal. rewrite drop_app_ge by lia. rewrite drop_drop, E12.
  f_equal. lia.
Qed.

(** Reading a packet sent to this machine. *)
Lemma Network_arrives fill n h data sock buf : idle n → pkt_ok h → pto h = ident n →
  length fill = Z.to_nat MaxWireSize → plength h ≤ Z.of_nat (length data) → plength h ≤ Z.of_nat (length buf) →
  ∃ n1 n2, CheckPktAvail n (wire fill h data :: sock) = Ok (n1, sock, true) ∧
    Network_Receive n1 buf = Ok (h, take (Z.to_nat (plength h)) data ++ drop (Z.to_nat (plength h)) buf, n2) ∧
    idle n2 ∧ ident n2 = ident n.
Proof.
  intros [[Hi Hb] Hz] Hok Ht Hl Hd Hbuf. pose proof Hok as (_ & _ & H1 & H2). unfold CheckPktAvail. rewrite Hz. cbn [Z.eqb negb].
  unfold wire. rewrite decode_encode_pkt by done. cbn [mbind outcome_bind]. rewrite Ht, Z.eqb_refl, (proj2 (Z.leb_le _ _) H2).
  cbn [andb ASSERT mbind outcome_bind]. unfold MaxPacketSize, MaxWireSize, sizeof_PacketHeader in *.
  assert (length (take (Z.to_nat (plength h)) data) = Z.to_nat (plength h)) as El by (rewrite length_take; lia).
  assert (length (encode_pkt h) = 12%nat) as E12 by done.
  rewrite slice_ok by (rewrite ?length_app, ?El, ?E12; lia). change (Z.to_nat 12) with (length (encode_pkt h)).
  rewrite drop_app_length. rewrite take_app_length' by done. cbn [mbind outcome_bind].
  rewrite overlay_head by lia. cbn [mbind outcome_bind]. eexists _, _. split; [reflexivity|].
  unfold Network_Receive. cbn [inHdr inbox]. rewrite (proj2 (Z.eqb_neq _ 0)) by lia.
  rewrite slice_ok by (rewrite ?length_app, ?length_drop, ?El; lia). change (Z.to_nat 0) with 0%nat. rewrite drop_0.
  rewrite take_app_length' by done. cbn [mbind outcome_bind]. rewrite overlay_head by lia. cbn [mbind outcome_bind].
  rewrite El. split; [done|]. split; [|done]. split; [|done]. split; [|done]. cbn [inbox].
  rewrite length_app, length_drop, El, Hi. change (Z.to_nat MaxPacketSize) with 52%nat. lia.
Qed.
