(* ===== verification/Post.v ===== *)
(** * network/post.cc: the post office

    Mailboxes, the delivery of arriving packets, the division of a message into
    segments, and the reliable transmission of a segment.  [PostalDelivery] and
    [ReliableSendSegment] wait for events of the machine; their state between two
    waits is explicit here ([phase]), and one definition is the code that runs
    from one wait to the next.  The synchronised list of a mailbox
    (threads/synchlist.cc) is a queue whose [Remove] waits when it is empty. *)
From S2P Require Import Prelude BitMap Memory FileHdr Network.

Definition LISTEN_BOX : Z := 0.
Definition MAXREEMISSIONS : Z := 50.

(** [MessageType]; a received header may hold any other number too. *)
Definition ACK : Z := 0.
Definition DATA : Z := 1.
Definition CONN : Z := 2.
Definition FIN : Z := 3.

Record MailHeader := mkMailHdr { mto : Z; mfrom : Z; mlength : Z; messageType : Z; messageId : Z }.
Definition sizeof_MailHeader : Z := 20.
Definition MaxSegmentSize : Z := MaxPacketSize - sizeof_MailHeader.

Definition encode_mail (h : MailHeader) : list Z :=
  encode_ints [mto h; mfrom h; mlength h; messageType h; messageId h].
Definition decode_mail (l : list Z) : outcome MailHeader :=
  t ← int_at l 0; f ← int_at l 4; n ← word_at l 8; y ← int_at l 12; i ← int_at l 16;
  Ok (mkMailHdr t f n y i).

(** ** [SynchList] (threads/synchlist.cc) *)
Definition SynchList_Append {A} (l : list A) (item : A) : list A := l ++ [item].
Definition SynchList_Remove {A} (l : list A) : outcome (A * list A) :=
  match l with [] => Blocked | item :: l' => Ok (item, l') end.
Definition SynchList_RemoveNoWaiting {A} (l : list A) : option A * list A :=
  match l with [] => (None, []) | item :: l' => (Some item, l') end.
Definition SynchList_IsEmpty {A} (l : list A) : bool := match l with [] => true | _ => false end.

(** ** [Payload] *)
Record Payload := mkPayload { msgSize : Z; nbSegments : Z; remainder : Z; pktHdr : PacketHeader; mailHdr : MailHeader }.

Definition Payload_zero : Payload := mkPayload 0 0 0 (mkPkt 0 0 0) (mkMailHdr 0 0 0 DATA 0).

(** The message identifier is the only field that stays. *)
Definition UpdatePayload (p : Payload) (netFrom netTo mailFrom mailTo len messageType : Z) : Payload :=
  let r := len mod MaxSegmentSize in
  mkPayload (i32 len) (i32 (if r =? 0 then len / MaxSegmentSize else len / MaxSegmentSize + 1)) r
    (mkPkt netTo netFrom (MaxSegmentSize + sizeof_MailHeader))
    (mkMailHdr mailTo mailFrom len messageType (messageId (mailHdr p))).
Definition UpdatePayloadSize (p : Payload) (len : Z) : Payload :=
  UpdatePayload p (pfrom (pktHdr p)) (pto (pktHdr p)) (mfrom (mailHdr p)) (mto (mailHdr p)) len DATA.
Definition with_id (p : Payload) (i : Z) : Payload :=
  let h := mailHdr p in
  mkPayload (msgSize p) (nbSegments p) (remainder p) (pktHdr p)
    (mkMailHdr (mto h) (mfrom h) (mlength h) (messageType h) i).

(** ** Mailboxes *)
Record Mail := mkMail { mpkt : PacketHeader; mmail : MailHeader; mdata : list Z }.
Definition Mail_new (p : Payload) (msgData : list Z) : outcome Mail :=
  l ← slice msgData 0 MaxSegmentSize; Ok (mkMail (pktHdr p) (mailHdr p) l).

Record MailBox := mkBox { messages : list Mail; waitedId : Z; ackId : Z }.
Definition MailBox_new : MailBox := mkBox [] 0 (-1).

Definition MailBox_Put (b : MailBox) (p : Payload) (data : list Z) : outcome MailBox :=
  mail ← Mail_new p data; Ok (mkBox (SynchList_Append (messages b) mail) (waitedId b) (ackId b)).

(** [Get(p, segmentIndex, data + off)]. *)
Definition MailBox_Get (b : MailBox) (p : Payload) (segmentIndex : Z) (data : list Z) (off : Z)
    : outcome (MailBox * Payload * list Z) :=
  '(mail, l) ← SynchList_Remove (messages b);
  let h := mmail mail in
  let p1 := with_id (UpdatePayload p (pfrom (mpkt mail)) (pto (mpkt mail)) (mfrom h) (mto h) (mlength h) (messageType h))
              (messageId h) in
  let n := if segmentIndex =? nbSegments p1 - 1 then remainder p1 else MaxSegmentSize in
  s ← slice (mdata mail) 0 n;
  data1 ← overlay data off s;
  Ok (mkBox l (waitedId b) (ackId b), p1, data1).

(** ** The post office *)
Record ConnReminder := mkConn { netFrom : Z; netTo : Z; mailFrom : Z; mailTo : Z; connTimestamp : Z }.

Record PostOffice := mkPO {
  boxes : list MailBox;
  numBoxes : Z;
  usedBoxes : BitMap;
  network : Network;
  netAddr : Z;
  connections : list ConnReminder
}.

Definition PostOffice_new (junkB : nat → Z) (junkH : PacketHeader) (junkI : list Z) (addr nBoxes : Z) : outcome PostOffice :=
  u ← BitMap_new junkB nBoxes;
  u' ← Mark u LISTEN_BOX;
  Ok (mkPO (replicate (Z.to_nat nBoxes) MailBox_new) nBoxes u' (Network_new addr junkH junkI) addr []).

Definition with_network (po : PostOffice) (n : Network) : PostOffice :=
  mkPO (boxes po) (numBoxes po) (usedBoxes po) n (netAddr po) (connections po).
Definition with_boxes (po : PostOffice) (l : list MailBox) : PostOffice :=
  mkPO l (numBoxes po) (usedBoxes po) (network po) (netAddr po) (connections po).
Definition with_used (po : PostOffice) (u : BitMap) : PostOffice :=
  mkPO (boxes po) (numBoxes po) u (network po) (netAddr po) (connections po).

(** [boxes[i] = f(boxes[i])]. *)
Definition on_box (po : PostOffice) (i : Z) (f : MailBox → outcome MailBox) : outcome PostOffice :=
  b ← arr_get (boxes po) i; b' ← f b; l ← arr_set (boxes po) i b'; Ok (with_boxes po l).

Definition same_conn (a b : ConnReminder) : bool :=
  (netFrom a =? netFrom b) && (netTo a =? netTo b) && (mailFrom a =? mailFrom b) &&
  (mailTo a =? mailTo b) && (connTimestamp b <=? connTimestamp a).
Definition ValidConn (po : PostOffice) (c : ConnReminder) : bool * PostOffice :=
  if existsb (λ e, same_conn e c) (connections po) then (false, po)
  else (true, mkPO (boxes po) (numBoxes po) (usedBoxes po) (network po) (netAddr po) (connections po ++ [c])).

(** The headers of the acknowledgement of a packet. *)
Definition ack_pkt (h : PacketHeader) : PacketHeader := mkPkt (pfrom h) (pto h) sizeof_MailHeader.
Definition ack_mail (h : MailHeader) : MailHeader := mkMailHdr (mfrom h) (mto h) 0 ACK (messageId h).

(** One round of the loop of [PostalDelivery], after [messageAvailable->P()]:
    [buffer] is the buffer of the worker, the result has the packet that was put
    on the wire. *)
Definition PostalDelivery (fill : list Z) (works : bool) (po : PostOffice) (buffer : list Z)
    : outcome (PostOffice * list Z * option (list Z)) :=
  '(pkt, buf, net) ← Network_Receive (network po) buffer;
  let po0 := with_network po net in
  h ← decode_mail buf;
  _ ← ASSERT ((0 <=? mto h) && (mto h <? numBoxes po));
  let p := with_id (UpdatePayload Payload_zero (pfrom pkt) (pto pkt) (mfrom h) (mto h) (mlength h) (messageType h)) (messageId h) in
  box ← arr_get (boxes po) (mto h);
  po1 ← (if (messageType h =? CONN) && (mto h =? LISTEN_BOX) then
           ts ← int_at buf 20;
           let '(valid, po') := ValidConn po0 (mkConn (pfrom pkt) (pto pkt) (mfrom h) (mto h) ts) in
           if (valid : bool) then on_box po' (mto h) (λ b, MailBox_Put b p (drop 20 buf)) else Ok po'
         else if (messageType h =? DATA) && (messageId h =? waitedId box) then
           po' ← on_box po0 (mto h) (λ b, MailBox_Put b p (drop 20 buf));
           on_box po' (mto h) (λ b, Ok (mkBox (messages b) (i32 (waitedId b + 1)) (ackId b)))
         else if messageType h =? ACK then
           on_box po0 (mto h) (λ b, Ok (mkBox (messages b) (waitedId b) (messageId h)))
         else Ok po0);
  if negb (messageType h =? ACK) then
    out ← Network_Send fill works (network po1) (ack_pkt pkt) (encode_mail (ack_mail h));
    Ok (po1, buf, out)
  else Ok (po1, buf, None).

(** ** Sending a message *)

(** Where the sending thread is: about to send for the [n]-th time, waiting for
    an acknowledgement or the timer, or back in the caller. *)
Inductive phase := Emit (n : Z) | Await (n : Z) | Returned (r : bool).
Record sending := mkSending { out : Payload; segIndex : Z; sbuffer : list Z; sphase : phase }.

(** The buffer of segment [i]: header, data and zeros. *)
Definition segment_buffer (p : Payload) (data : list Z) (i : Z) : outcome (list Z) :=
  let n := if i =? nbSegments p - 1 then remainder p else MaxSegmentSize in
  s ← slice data (i * MaxSegmentSize) n;
  b ← overlay (replicate (Z.to_nat MaxPacketSize) 0) 0 (encode_mail (mailHdr p));
  overlay b sizeof_MailHeader s.
(** The head of the loop over the segments. *)
Definition next_segment (p : Payload) (data : list Z) (i : Z) : outcome sending :=
  if i <? nbSegments p then b ← segment_buffer p data i; Ok (mkSending p i b (Emit 0))
  else Ok (mkSending p i [] (Returned true)).

Definition SendPayload (po : PostOffice) (p : Payload) (data : list Z) : outcome sending :=
  _ ← ASSERT ((0 <=? mto (mailHdr p)) && (mto (mailHdr p) <? numBoxes po));
  _ ← ASSERT (pfrom (pktHdr p) =? netAddr po);
  _ ← ASSERT (plength (pktHdr p) =? MaxSegmentSize + sizeof_MailHeader);
  next_segment p data 0.

(** [ReliableSendSegment] up to the wait for [ackCond]. *)
Definition send_emit (fill : list Z) (works : bool) (po : PostOffice) (s : sending) (n : Z)
    : outcome (option (list Z) * sending) :=
  o ← Network_Send fill works (network po) (pktHdr (out s)) (sbuffer s);
  Ok (o, mkSending (out s) (segIndex s) (sbuffer s) (Await n)).
(** [ReliableSendSegment] after that wait, and the loop of [SendPayload] around it. *)
Definition send_wake (po : PostOffice) (data : list Z) (s : sending) (n : Z) : outcome sending :=
  b ← arr_get (boxes po) (mfrom (mailHdr (out s)));
  let id := messageId (mailHdr (out s)) in
  if ackId b =? id then next_segment (with_id (out s) (i32 (id + 1))) data (segIndex s + 1)
  else if n + 1 <? MAXREEMISSIONS then Ok (mkSending (out s) (segIndex s) (sbuffer s) (Emit (n + 1)))
  else Ok (mkSending (out s) (segIndex s) (sbuffer s) (Returned false)).

(** ** Receiving a message *)

(** [bzero(data, strlen(data) + 1)]. *)
Fixpoint bzero_string (data : list Z) : outcome (list Z) :=
  match data with
  | [] => Fault
  | c :: l => if c =? 0 then Ok (0 :: l) else l' ← bzero_string l; Ok (0 :: l')
  end.
(** The loop over the other segments; [n] bounds the messages there are. *)
Fixpoint receive_loop (n : nat) (b : MailBox) (p : Payload) (i : Z) (data : list Z) : outcome (MailBox * Payload * list Z) :=
  if i <? nbSegments p then
    match n with
    | O => Blocked
    | S n' => '(b', p', data') ← MailBox_Get b p i data (i * MaxSegmentSize); receive_loop n' b' p' (i + 1) data'
    end
  else Ok (b, p, data).
Definition ReceivePayload (po : PostOffice) (p : Payload) (box : Z) (data : list Z) : outcome (PostOffice * Payload * list Z) :=
  _ ← ASSERT ((0 <=? box) && (box <? numBoxes po));
  data0 ← bzero_string data;
  b ← arr_get (boxes po) box;
  '(b1, p1, data1) ← MailBox_Get b p 0 data0 0;
  '(b2, p2, data2) ← receive_loop (length (messages b1)) b1 p1 1 data1;
  l ← arr_set (boxes po) box b2;
  Ok (with_boxes po l, p2, data2).

(** ** Connections *)
Record Connection := mkConnection { pIn : Payload; pOut : Payload }.

(** [Connect] up to [SendPayload], and after [ReceivePayload] has filled [buffer]. *)
Definition Connect_start (po : PostOffice) (addr timestamp : Z) : outcome (option (Z * sending * list Z) * PostOffice) :=
  if addr =? netAddr po then Ok (None, po)
  else
    '(box, u) ← Find (usedBoxes po);
    if box =? -1 then Ok (None, with_used po u)
    else
      po1 ← on_box (with_used po u) box (λ b, Ok (mkBox (messages b) 0 (ackId b)));
      let p := UpdatePayload Payload_zero (netAddr po) addr box LISTEN_BOX 4 CONN in
      s ← SendPayload po1 p (le32 timestamp);
      Ok (Some (box, s, le32 timestamp), po1).
(** [p] is the payload the send has left, [pin] the one received. *)
Definition Connect_finish (po : PostOffice) (addr box : Z) (p pin : Payload) (buffer : list Z) : outcome Connection :=
  _ ← ASSERT (match buffer with c :: 0 :: _ => c =? 67 | _ => false end);
  Ok (mkConnection pin (UpdatePayload p (netAddr po) addr box (mfrom (mailHdr pin)) 0 DATA)).

Definition Listen_start (po : PostOffice) : outcome (option Z * PostOffice) :=
  '(box, u) ← Find (usedBoxes po);
  if box =? -1 then Ok (None, with_used po u)
  else
    po1 ← on_box (with_used po u) box (λ b, Ok (mkBox (messages b) 1 (ackId b)));
    Ok (Some box, po1).
Definition Listen_finish (po : PostOffice) (box : Z) (pin : Payload) : outcome (Connection * sending) :=
  _ ← ASSERT (messageType (mailHdr pin) =? CONN);
  let p := UpdatePayload Payload_zero (netAddr po) (pfrom (pktHdr pin)) box (mfrom (mailHdr pin)) 2 DATA in
  s ← SendPayload po p [67; 0];
  Ok (mkConnection pin p, s).

Definition PostOffice_Send (po : PostOffice) (conn : option Connection) (data : list Z) (data_size : Z) : outcome (option sending) :=
  match conn with
  | None => Ok None
  | Some c => s ← SendPayload po (UpdatePayloadSize (pOut c) data_size) data; Ok (Some s)
  end.
Definition PostOffice_Receive (po : PostOffice) (conn : option Connection) (data : list Z)
    : outcome (option (PostOffice * Connection * list Z)) :=
  match conn with
  | None => Ok None
  | Some c =>
      '(po', p, d) ← ReceivePayload po (pIn c) (mfrom (mailHdr (pOut c))) data;
      Ok (Some (po', mkConnection p (pOut c), d))
  end.

(** The second loop of [DisconnectPayload]: [late] is what arrives before each
    wake-up of [disconnectCond]. *)
Fixpoint disconnect_loop (late : list (list Mail)) (l : list Mail) : outcome (list Mail) :=
  match late with
  | [] => Blocked
  | new :: late' =>
      match SynchList_RemoveNoWaiting (l ++ new) with
      | (None, l') => Ok l'
      | (Some _, l') => disconnect_loop late' l'
      end
  end.
(** [first] arrives during the first wait. *)
Definition DisconnectPayload (po : PostOffice) (p : Payload) (first : list Mail) (late : list (list Mail)) : outcome PostOffice :=
  let box := mto (mailHdr p) in
  b ← arr_get (boxes po) box;
  l ← disconnect_loop late first;
  po1 ← on_box po box (λ b, Ok (mkBox l 0 (ackId b)));
  u ← Clear (usedBoxes po) box;
  Ok (with_used po1 u).
