(* ===== verification/PostNet.v ===== *)
(** * Reliable transmission over a lossy network

    Two machines: a thread of the first sends a message through [SendPayload],
    the postal workers of both deliver what arrives, a thread of the second takes
    mail out of its box, and the network loses any packet it likes.  Every
    interleaving is a path of [link_step].  In every reachable state the second
    machine has got the segments of the message in order, none twice and none
    left out; when [SendPayload] returns TRUE it has got them all. *)
From S2P Require Import Prelude BitMap Memory FileHdr Network Post.

(** ** Headers and buffers *)
Definition mail_ok (h : MailHeader) : Prop :=
  is_i32 (mto h) ∧ is_i32 (mfrom h) ∧ is_u32 (mlength h) ∧ is_i32 (messageType h) ∧ is_i32 (messageId h).

Lemma decode_encode_mail h r : mail_ok h → decode_mail (encode_mail h ++ r) = Ok h.
Proof.
  intros (H1 & H2 & H3 & H4 & H5). unfold decode_mail, encode_mail, encode_ints. cbn [fmap list_fmap concat].
  rewrite <- !app_assoc.
  rewrite (int_at_le32 [] (mto h) _ 0 eq_refl H1 : int_at (le32 (mto h) ++ _) 0 = _). cbn [mbind outcome_bind].
  rewrite (int_at_le32 (le32 (mto h)) (mfrom h) _ 4) by done. cbn [mbind outcome_bind].
  rewrite (app_assoc (le32 (mto h))).
  rewrite (word_at_le32 (le32 (mto h) ++ le32 (mfrom h)) (mlength h) _ 8) by done. cbn [mbind outcome_bind].
  rewrite (app_assoc _ (le32 (mlength h))).
  rewrite (int_at_le32 ((le32 (mto h) ++ le32 (mfrom h)) ++ le32 (mlength h)) (messageType h) _ 12) by done. cbn [mbind outcome_bind].
  rewrite (app_assoc _ (le32 (messageType h))).
  rewrite (int_at_le32 (((le32 (mto h) ++ le32 (mfrom h)) ++ le32 (mlength h)) ++ le32 (messageType h)) (messageId h) _ 16) by done.
  cbn [mbind outcome_bind]. by destruct h.
Qed.
Lemma encode_mail_length h : length (encode_mail h) = 20%nat.
Proof. done. Qed.

(** ** The message and its segments *)

(** What a sender needs to know: the two addresses and boxes, the identifier of
    the first segment and the data. *)
Record job := mkJob { ja : Z; jb : Z; jba : Z; jbb : Z; jid : Z; jdata : list Z }.
Definition job_payload (j : job) : Payload :=
  with_id (UpdatePayload Payload_zero (ja j) (jb j) (jba j) (jbb j) (Z.of_nat (length (jdata j))) DATA) (jid j).
Definition segments (j : job) : Z := nbSegments (job_payload j).

Record job_ok (j : job) : Prop := mkJobOk {
  jo_addr : is_i32 (ja j) ∧ is_i32 (jb j);
  jo_box : 0 ≤ jba j ∧ is_i32 (jba j) ∧ 0 ≤ jbb j ∧ is_i32 (jbb j);
  jo_len : Z.of_nat (length (jdata j)) < two31;
  jo_id : 0 ≤ jid j ∧ jid j + segments j < two31
}.

(** The bytes of segment [k], zeros behind them. *)
Definition chunk (j : job) (k : Z) : list Z :=
  take (Z.to_nat (if k =? segments j - 1 then remainder (job_payload j) else MaxSegmentSize))
    (drop (Z.to_nat (k * MaxSegmentSize)) (jdata j)).
Definition padded (j : job) (k : Z) : list Z :=
  chunk j k ++ replicate (Z.to_nat MaxSegmentSize - length (chunk j k)) 0.
Definition seg_header (j : job) (k : Z) : MailHeader := mailHdr (with_id (job_payload j) (jid j + k)).
Definition seg_packet (j : job) : PacketHeader := pktHdr (job_payload j).
Definition seg_bytes (j : job) (k : Z) : list Z := encode_mail (seg_header j k) ++ padded j k.
(** The mail the receiver makes of it. *)
Definition seg_mail (j : job) (k : Z) : Mail := mkMail (seg_packet j) (seg_header j k) (padded j k).

Section job.
Context (j : job) (Hj : job_ok j).

Lemma segments_spec : let len := Z.of_nat (length (jdata j)) in
  segments j = (len + 31) / 32 ∧ remainder (job_payload j) = len mod 32 ∧ 0 ≤ segments j.
Proof.
  destruct Hj as [_ _ Hlen _]. intros len. unfold segments, job_payload, UpdatePayload. cbn [nbSegments with_id remainder].
  change MaxSegmentSize with 32. fold len. fold len in Hlen.
  assert ((if len mod 32 =? 0 then len / 32 else len / 32 + 1) = (len + 31) / 32) as ->.
  { destruct (Z.eqb_spec (len mod 32) 0); zcases. }
  unfold two31 in *. rewrite i32_id by (unfold is_i32, two31; zcases). split; [done|]. split; [done|]. zcases.
Qed.

Lemma chunk_range k : 0 ≤ k < segments j →
  let n := if k =? segments j - 1 then remainder (job_payload j) else MaxSegmentSize in
  0 ≤ n ≤ 32 ∧ k * MaxSegmentSize + n ≤ Z.of_nat (length (jdata j)).
Proof.
  destruct segments_spec as (E & Er & _). intros Hk n. subst n. rewrite Er. change MaxSegmentSize with 32.
  destruct (Z.eqb_spec k (segments j - 1)) as [->|]; zcases.
Qed.
Lemma chunk_length k : 0 ≤ k < segments j → (length (chunk j k) ≤ 32)%nat.
Proof.
  intros Hk. destruct (chunk_range k Hk) as [H1 _]. unfold chunk. rewrite length_take. lia.
Qed.
Lemma padded_length k : 0 ≤ k < segments j → length (padded j k) = 32%nat.
Proof.
  intros Hk. pose proof (chunk_length k Hk). unfold padded. rewrite length_app, length_replicate.
  change (Z.to_nat MaxSegmentSize) with 32%nat. lia.
Qed.
Lemma seg_bytes_length k : 0 ≤ k < segments j → length (seg_bytes j k) = 52%nat.
Proof. intros Hk. unfold seg_bytes. by rewrite length_app, encode_mail_length, padded_length. Qed.

Lemma segment_buffer_spec k : 0 ≤ k < segments j →
  segment_buffer (with_id (job_payload j) (jid j + k)) (jdata j) k = Ok (seg_bytes j k).
Proof.
  intros Hk. pose proof (chunk_range k Hk) as [Hn Hl]. pose proof (chunk_length k Hk) as Hc. unfold segment_buffer.
  change (nbSegments (with_id (job_payload j) (jid j + k))) with (segments j).
  change (remainder (with_id (job_payload j) (jid j + k))) with (remainder (job_payload j)).
  set (n := if k =? segments j - 1 then _ else _) in *. change MaxSegmentSize with 32 in *.
  rewrite slice_ok by lia. change 32 with MaxSegmentSize. fold (chunk j k). cbn [mbind outcome_bind].
  change (take (Z.to_nat n) (drop (Z.to_nat (k * MaxSegmentSize)) (jdata j))) with (chunk j k).
  fold (seg_header j k). rewrite overlay_head by (rewrite encode_mail_length; vm_compute; lia). cbn [mbind outcome_bind].
  rewrite encode_mail_length. change (drop 20 (replicate (Z.to_nat MaxPacketSize) 0)) with (replicate 32 0).
  change sizeof_MailHeader with 20. rewrite overlay_ok by (rewrite ?length_app, ?encode_mail_length, ?length_replicate; lia).
  change (Z.to_nat 20) with 20%nat. unfold seg_bytes, padded. f_equal.
  rewrite take_app_length' by done. do 2 f_equal.
  rewrite drop_app_ge by (rewrite encode_mail_length; lia). rewrite drop_replicate, encode_mail_length. f_equal.
  change (Z.to_nat MaxSegmentSize) with 32%nat. lia.
Qed.

Lemma seg_header_ok k : 0 ≤ k ≤ segments j → mail_ok (seg_header j k).
Proof.
  intros Hk. destruct Hj as [_ (H1 & H2 & H3 & H4) Hlen [H5 H6]]. unfold mail_ok, seg_header, job_payload, UpdatePayload.
  cbn [mailHdr with_id mto mfrom mlength messageType messageId]. unfold is_u32, is_i32, DATA, two32, two31 in *. lia.
Qed.
Lemma seg_packet_ok : pkt_ok (seg_packet j) ∧ pkt_ok (ack_pkt (seg_packet j)).
Proof.
  destruct Hj as [[H1 H2] _ _ _]. split; (split; [done|]); (split; [done|]); vm_compute; by split.
Qed.
End job.

(** ** The two machines and their steps *)
Record link := mkLink {
  la : PostOffice;          (* the sending machine *)
  lb : PostOffice;          (* the receiving machine *)
  bufa : list Z; bufb : list Z;   (* the buffers of the postal workers *)
  tob : list (list Z); toa : list (list Z);   (* packets on their way *)
  snd : sending;            (* the thread in [SendPayload] *)
  taken : list Mail         (* what the receiving thread has taken *)
}.

Section link.
(** What [new char[MaxWireSize]] leaves. *)
Context (fill : list Z) (j : job).

Inductive link_step : link → link → Prop :=
| step_emit works l n o s : sphase (snd l) = Emit n → send_emit fill works (la l) (snd l) n = Ok (o, s) →
    link_step l (mkLink (la l) (lb l) (bufa l) (bufb l) (tob l ++ option_list o) (toa l) s (taken l))
| step_wake l n s : sphase (snd l) = Await n → send_wake (la l) (jdata j) (snd l) n = Ok s →
    link_step l (mkLink (la l) (lb l) (bufa l) (bufb l) (tob l) (toa l) s (taken l))
| step_deliver_b works l net q po buf o : CheckPktAvail (network (lb l)) (tob l) = Ok (net, q, true) →
    PostalDelivery fill works (with_network (lb l) net) (bufb l) = Ok (po, buf, o) →
    link_step l (mkLink (la l) po (bufa l) buf q (toa l ++ option_list o) (snd l) (taken l))
| step_deliver_a works l net q po buf o : CheckPktAvail (network (la l)) (toa l) = Ok (net, q, true) →
    PostalDelivery fill works (with_network (la l) net) (bufa l) = Ok (po, buf, o) →
    link_step l (mkLink po (lb l) buf (bufb l) (tob l ++ option_list o) q (snd l) (taken l))
| step_take l b m ms po : arr_get (boxes (lb l)) (jbb j) = Ok b → SynchList_Remove (messages b) = Ok (m, ms) →
    on_box (lb l) (jbb j) (λ b, Ok (mkBox ms (waitedId b) (ackId b))) = Ok po →
    link_step l (mkLink (la l) po (bufa l) (bufb l) (tob l) (toa l) (snd l) (taken l ++ [m])).

(** The start: [SendPayload] has just been entered, nothing is on the way and the
    receiving box waits for the first identifier. *)
Record link_start (l : link) : Prop := mkStart {
  ls_snd : SendPayload (la l) (job_payload j) (jdata j) = Ok (snd l);
  ls_quiet : tob l = [] ∧ toa l = [] ∧ taken l = [];
  ls_net : idle (network (la l)) ∧ idle (network (lb l)) ∧ ident (network (la l)) = ja j ∧ ident (network (lb l)) = jb j;
  ls_buf : length (bufa l) = 52%nat ∧ length (bufb l) = 52%nat;
  ls_range : numBoxes (la l) = Z.of_nat (length (boxes (la l))) ∧ numBoxes (lb l) = Z.of_nat (length (boxes (lb l)));
  ls_boxa : ∃ ms w y, arr_get (boxes (la l)) (jba j) = Ok (mkBox ms w y) ∧ ¬ (jid j ≤ y < jid j + segments j);
  ls_boxb : ∃ y, arr_get (boxes (lb l)) (jbb j) = Ok (mkBox [] (jid j) y)
}.

(** The mail of the first [w] segments. *)
Definition mails (w : Z) : list Mail := seg_mail j <$> seqZ 0 w.

(** Where the sender is: segment [k] of the message. *)
Definition at_segment (k : Z) (s : sending) : Prop :=
  out s = with_id (job_payload j) (jid j + k) ∧ segIndex s = k ∧
  match sphase s with
  | Emit n | Await n => k < segments j ∧ sbuffer s = seg_bytes j k ∧ 0 ≤ n < MAXREEMISSIONS
  | Returned true => k = segments j
  | Returned false => k < segments j
  end.

(** [k] segments are acknowledged, [w] are delivered. *)
Record link_inv (k w : Z) (l : link) : Prop := mkInv {
  li_order : 0 ≤ k ≤ w ∧ w ≤ k + 1 ∧ w ≤ segments j;
  li_snd : at_segment k (snd l);
  li_net : idle (network (la l)) ∧ idle (network (lb l)) ∧ ident (network (la l)) = ja j ∧ ident (network (lb l)) = jb j;
  li_buf : length (bufa l) = 52%nat ∧ length (bufb l) = 52%nat;
  li_range : numBoxes (la l) = Z.of_nat (length (boxes (la l))) ∧ numBoxes (lb l) = Z.of_nat (length (boxes (lb l)));
  li_boxa : ∃ ms v y, arr_get (boxes (la l)) (jba j) = Ok (mkBox ms v y) ∧ (jid j ≤ y < jid j + segments j → y < jid j + w);
  li_boxb : ∃ ms y, arr_get (boxes (lb l)) (jbb j) = Ok (mkBox ms (jid j + w) y) ∧ taken l ++ ms = mails w;
  li_tob : Forall (λ pk, ∃ i, 0 ≤ i ≤ k ∧ i < segments j ∧ pk = wire fill (seg_packet j) (seg_bytes j i)) (tob l);
  li_toa : Forall (λ pk, ∃ i, 0 ≤ i < w ∧
    pk = wire fill (ack_pkt (seg_packet j)) (encode_mail (ack_mail (seg_header j i)))) (toa l)
}.
End link.

(** ** Deliveries *)
Lemma on_box_ok po i b b' f : arr_get (boxes po) i = Ok b → f b = Ok b' →
  on_box po i f = Ok (with_boxes po (<[Z.to_nat i := b']> (boxes po))).
Proof.
  intros Hb Hf. unfold on_box. rewrite Hb. cbn [mbind outcome_bind]. rewrite Hf. cbn [mbind outcome_bind].
  rewrite arr_set_in by (by eapply arr_get_dom). done.
Qed.
Lemma arr_get_insert {A} (l : list A) i b b' : arr_get l i = Ok b → arr_get (<[Z.to_nat i := b']> l) i = Ok b'.
Proof.
  intros Hb. pose proof (arr_get_dom _ _ _ Hb). apply arr_get_Ok. split; [lia|]. apply list_lookup_insert_eq. lia.
Qed.

Section delivery.
Context (fill : list Z) (j : job) (Hfill : length fill = Z.to_nat MaxWireSize) (Hj : job_ok j).

Lemma seg_bytes_take i buf : 0 ≤ i < segments j → length buf = 52%nat →
  take (Z.to_nat (plength (seg_packet j))) (seg_bytes j i) ++ drop (Z.to_nat (plength (seg_packet j))) buf = seg_bytes j i.
Proof.
  intros Hi Hb. change (Z.to_nat (plength (seg_packet j))) with 52%nat.
  rewrite take_ge by (rewrite seg_bytes_length by done; lia). rewrite drop_ge by lia. apply app_nil_r.
Qed.

(** A segment reaches the receiving machine. *)
Lemma deliver_data works po buf q i b : idle (network po) → ident (network po) = jb j → length buf = 52%nat →
  numBoxes po = Z.of_nat (length (boxes po)) → arr_get (boxes po) (jbb j) = Ok b → 0 ≤ i < segments j →
  ∃ n1 po', CheckPktAvail (network po) (wire fill (seg_packet j) (seg_bytes j i) :: q) = Ok (n1, q, true) ∧
    PostalDelivery fill works (with_network po n1) buf = Ok (po', seg_bytes j i,
      if works then Some (wire fill (ack_pkt (seg_packet j)) (encode_mail (ack_mail (seg_header j i)))) else None) ∧
    idle (network po') ∧ ident (network po') = jb j ∧ numBoxes po' = Z.of_nat (length (boxes po')) ∧
    arr_get (boxes po') (jbb j) = Ok (if jid j + i =? waitedId b
      then mkBox (messages b ++ [seg_mail j i]) (i32 (waitedId b + 1)) (ackId b) else b).
Proof.
  intros Hn Hid Hbuf Hnum Hb Hi. destruct (seg_packet_ok j Hj) as [Hpk Hak].
  destruct (Network_arrives fill (network po) (seg_packet j) (seg_bytes j i) q buf Hn Hpk) as (n1 & n2 & E1 & E2 & Hn2 & Hid2);
    [done|done|rewrite seg_bytes_length by done; by vm_compute|rewrite Hbuf; by vm_compute|].
  rewrite seg_bytes_take in E2 by done. exists n1. unfold PostalDelivery. cbn [network with_network]. rewrite E2. cbn [mbind outcome_bind].
  rewrite (decode_encode_mail _ _ (seg_header_ok j Hj i ltac:(lia)) : decode_mail (seg_bytes j i) = _). cbn [mbind outcome_bind].
  change (mto (seg_header j i)) with (jbb j). change (messageType (seg_header j i)) with DATA.
  change (messageId (seg_header j i)) with (jid j + i).
  pose proof (arr_get_dom _ _ _ Hb) as Hd. cbn [numBoxes with_network]. rewrite Hnum, (proj2 (Z.leb_le _ _)), (proj2 (Z.ltb_lt _ _)) by lia.
  cbn [andb ASSERT mbind outcome_bind boxes with_network]. rewrite Hb. cbn [mbind outcome_bind].
  change (DATA =? CONN) with false. change (DATA =? DATA) with true. change (DATA =? ACK) with false. cbn [andb negb].
  assert (slice (drop 20 (seg_bytes j i)) 0 MaxSegmentSize = Ok (padded j i)) as Esl.
  { unfold seg_bytes. change 20%nat with (length (encode_mail (seg_header j i))). rewrite drop_app_length.
    pose proof (padded_length j Hj i Hi) as El. rewrite slice_ok by (rewrite ?El; by vm_compute). f_equal. cbn [drop].
    change (Z.to_nat MaxSegmentSize) with 32%nat. change (Z.to_nat 0) with 0%nat. rewrite drop_0. apply take_ge. lia. }
  assert (∀ po1, network po1 = n2 → Network_Send fill works (network po1) (ack_pkt (seg_packet j)) (encode_mail (ack_mail (seg_header j i))) =
    Ok (if works then Some (wire fill (ack_pkt (seg_packet j)) (encode_mail (ack_mail (seg_header j i)))) else None)) as Hsend.
  { intros po1 ->. destruct (Network_Send_spec fill n2 (ack_pkt (seg_packet j)) (encode_mail (ack_mail (seg_header j i)))) as [S1 S2];
      [apply Hn2|done|by rewrite Hid2, Hid|done|by vm_compute|]. by destruct works. }
  destruct (jid j + i =? waitedId b).
  - rewrite (on_box_ok _ _ b (mkBox (messages b ++ [seg_mail j i]) (waitedId b) (ackId b))); cycle 1.
    { exact Hb. }
    { unfold MailBox_Put, Mail_new. rewrite Esl. done. }
    cbn [mbind outcome_bind boxes with_boxes with_network].
    erewrite on_box_ok; [|cbn [boxes with_boxes]; by eapply arr_get_insert|reflexivity].
    cbn [mbind outcome_bind boxes with_boxes messages waitedId ackId]. rewrite Hsend by done. cbn [mbind outcome_bind].
    eexists. split; [done|]. split; [reflexivity|]. cbn [network boxes with_boxes with_network numBoxes]. rewrite !length_insert.
    split; [done|]. split; [congruence|]. split; [done|]. eapply arr_get_insert, arr_get_insert, Hb.
  - cbn [mbind outcome_bind]. rewrite Hsend by done. cbn [mbind outcome_bind].
    eexists. split; [done|]. split; [reflexivity|]. cbn [network boxes with_network numBoxes]. split; [done|]. split; [congruence|]. done.
Qed.

(** An acknowledgement reaches the sending machine. *)
Lemma deliver_ack works po buf q i b : idle (network po) → ident (network po) = ja j → length buf = 52%nat →
  numBoxes po = Z.of_nat (length (boxes po)) → arr_get (boxes po) (jba j) = Ok b → 0 ≤ i < segments j →
  ∃ n1 po' buf', CheckPktAvail (network po) (wire fill (ack_pkt (seg_packet j)) (encode_mail (ack_mail (seg_header j i))) :: q) = Ok (n1, q, true) ∧
    PostalDelivery fill works (with_network po n1) buf = Ok (po', buf', None) ∧ length buf' = 52%nat ∧
    idle (network po') ∧ ident (network po') = ja j ∧ numBoxes po' = Z.of_nat (length (boxes po')) ∧
    arr_get (boxes po') (jba j) = Ok (mkBox (messages b) (waitedId b) (jid j + i)).
Proof.
  intros Hn Hid Hbuf Hnum Hb Hi. destruct (seg_packet_ok j Hj) as [Hpk Hak].
  destruct (Network_arrives fill (network po) (ack_pkt (seg_packet j)) (encode_mail (ack_mail (seg_header j i))) q buf Hn Hak)
    as (n1 & n2 & E1 & E2 & Hn2 & Hid2); [done|done|by vm_compute|rewrite Hbuf; by vm_compute|].
  change (Z.to_nat (plength (ack_pkt (seg_packet j)))) with 20%nat in E2.
  exists n1. unfold PostalDelivery. cbn [network with_network]. rewrite E2. cbn [mbind outcome_bind].
  rewrite take_ge by done. rewrite decode_encode_mail; cycle 1.
  { destruct (seg_header_ok j Hj i) as (H1 & H2 & H3 & H4 & H5); [lia|]. unfold ack_mail, mail_ok. cbn [mto mfrom mlength messageType messageId].
    split_and!; try done. }
  cbn [mbind outcome_bind]. change (mto (ack_mail (seg_header j i))) with (jba j). change (messageType (ack_mail (seg_header j i))) with ACK.
  change (messageId (ack_mail (seg_header j i))) with (jid j + i).
  pose proof (arr_get_dom _ _ _ Hb) as Hd. cbn [numBoxes with_network]. rewrite Hnum, (proj2 (Z.leb_le _ _)), (proj2 (Z.ltb_lt _ _)) by lia.
  cbn [andb ASSERT mbind outcome_bind boxes with_network]. rewrite Hb. cbn [mbind outcome_bind].
  change (ACK =? CONN) with false. change (ACK =? DATA) with false. change (ACK =? ACK) with true. cbn [andb negb].
  erewrite on_box_ok; [|exact Hb|reflexivity]. cbn [mbind outcome_bind].
  eexists _, _. split; [done|]. split; [reflexivity|]. cbn [network boxes with_boxes with_network numBoxes].
  rewrite length_app, length_drop, Hbuf, length_insert. split; [done|]. split; [done|]. split; [congruence|]. split; [done|].
  by eapply arr_get_insert.
Qed.
End delivery.

(** ** The invariant *)
Section invariant.
Context (fill : list Z) (j : job) (Hfill : length fill = Z.to_nat MaxWireSize) (Hj : job_ok j).

Lemma next_segment_spec k : 0 ≤ k ≤ segments j →
  ∃ s, next_segment (with_id (job_payload j) (jid j + k)) (jdata j) k = Ok s ∧ at_segment j k s ∧
    sphase s = (if k <? segments j then Emit 0 else Returned true).
Proof.
  intros Hk. unfold next_segment. change (nbSegments (with_id (job_payload j) (jid j + k))) with (segments j).
  destruct (Z.ltb_spec k (segments j)).
  - rewrite segment_buffer_spec by (done || lia). cbn [mbind outcome_bind]. eexists. split; [done|]. split; [|done].
    by split_and!.
  - eexists. split; [done|]. split; [|done]. split; [done|]. split; [done|]. cbn [sphase]. lia.
Qed.

Lemma inv_start l : link_start j l → link_inv fill j 0 0 l.
Proof.
  intros [Hs (Q1 & Q2 & Q3) Hn Hb Hr (ms & v & y & Ha & Hy) (y' & Hbb)].
  destruct (segments_spec j Hj) as (_ & _ & H0). destruct (next_segment_spec 0 ltac:(lia)) as (s & Es & Hat & _).
  constructor; try done.
  - unfold SendPayload in Hs. inv_ok. rewrite Z.add_0_r in Es.
    change (with_id (job_payload j) (jid j)) with (job_payload j) in Es. congruence.
  - exists ms, v, y. split; [done|]. lia.
  - exists [], y'. rewrite Z.add_0_r, Q3. done.
  - by rewrite Q1.
  - by rewrite Q2.
Qed.

(** The sender emits its segment. *)
Lemma inv_emit works k w l n : link_inv fill j k w l → sphase (snd l) = Emit n →
  ∃ o s, send_emit fill works (la l) (snd l) n = Ok (o, s) ∧ sphase s = Await n ∧
    o = (if works then Some (wire fill (seg_packet j) (seg_bytes j k)) else None) ∧
    link_inv fill j k w (mkLink (la l) (lb l) (bufa l) (bufb l) (tob l ++ option_list o) (toa l) s (taken l)).
Proof.
  intros Hi Hp. pose proof Hi as [Hord (Ho & Hk & Hph) (Na & Nb & Ia & Ib) Hb Hr Hba Hbb Htb Hta]. rewrite Hp in Hph.
  destruct Hph as (Hlt & Hbuf & Hn). unfold send_emit. rewrite Ho, Hbuf.
  change (pktHdr (with_id (job_payload j) (jid j + k))) with (seg_packet j).
  destruct (seg_packet_ok j Hj) as [Hpk _].
  destruct (Network_Send_spec fill (network (la l)) (seg_packet j) (seg_bytes j k)) as [S1 S2]; [apply Na|done|done|done| |].
  { rewrite seg_bytes_length by (done || lia). by vm_compute. }
  assert (Network_Send fill works (network (la l)) (seg_packet j) (seg_bytes j k) =
    Ok (if works then Some (wire fill (seg_packet j) (seg_bytes j k)) else None)) as -> by (by destruct works).
  cbn [mbind outcome_bind]. eexists _, _. split; [done|]. split; [done|]. split; [done|].
  constructor; cbn [la lb bufa bufb tob toa snd taken]; try done.
  apply Forall_app. split; [done|]. destruct works; cbn [option_list]; [|done].
  apply Forall_singleton. exists k. by split_and!; try lia.
Qed.

(** The sender wakes up. *)
Lemma inv_wake k w l n : link_inv fill j k w l → sphase (snd l) = Await n →
  ∃ s k', send_wake (la l) (jdata j) (snd l) n = Ok s ∧ k ≤ k' ∧
    link_inv fill j k' w (mkLink (la l) (lb l) (bufa l) (bufb l) (tob l) (toa l) s (taken l)) ∧
    (∀ b, arr_get (boxes (la l)) (jba j) = Ok b → ackId b = jid j + k → k' = k + 1 ∧
       sphase s = if k + 1 <? segments j then Emit 0 else Returned true).
Proof.
  intros Hi Hp. pose proof Hi as [Hord (Ho & Hk & Hph) Hnet Hb Hr (ms & v & y & Ha & Hy) Hbb Htb Hta]. rewrite Hp in Hph.
  destruct Hph as (Hlt & Hbuf & Hn). unfold send_wake. rewrite Ho, Hk.
  change (mfrom (mailHdr (with_id (job_payload j) (jid j + k)))) with (jba j).
  change (messageId (mailHdr (with_id (job_payload j) (jid j + k)))) with (jid j + k).
  rewrite Ha. cbn [mbind outcome_bind ackId]. destruct (Z.eqb_spec y (jid j + k)) as [->|Hne].
  - destruct (jo_id _ Hj). rewrite i32_id by (unfold is_i32, two31 in *; lia).
    rewrite <- Z.add_assoc. change (with_id (with_id (job_payload j) (jid j + k)) (jid j + (k + 1))) with (with_id (job_payload j) (jid j + (k + 1))).
    destruct (next_segment_spec (k + 1) ltac:(lia)) as (s & -> & Hat & Hps). exists s, (k + 1).
    split; [done|]. split; [lia|]. split; [|intros b _ _; done].
    constructor; cbn [la lb bufa bufb tob toa snd taken]; try done; [lia|by exists ms, v, (jid j + k)|].
    eapply Forall_impl; [exact Htb|]. intros pk (i & H1 & H2). exists i. split; [lia|done].
  - set (s := if n + 1 <? MAXREEMISSIONS then mkSending (with_id (job_payload j) (jid j + k)) k (sbuffer (snd l)) (Emit (n + 1))
      else mkSending (with_id (job_payload j) (jid j + k)) k (sbuffer (snd l)) (Returned false)).
    exists s, k. split; [unfold s; by destruct (n + 1 <? MAXREEMISSIONS)|]. split; [lia|]. split; [|intros b [= <-]; done].
    constructor; cbn [la lb bufa bufb tob toa snd taken]; try done; [|by exists ms, v, y].
    unfold s, at_segment. destruct (Z.ltb_spec (n + 1) MAXREEMISSIONS); cbn [out segIndex sphase sbuffer];
      split_and!; try done; lia.
Qed.

Lemma mails_snoc w : 0 ≤ w → mails j (w + 1) = mails j w ++ [seg_mail j w].
Proof. intros. unfold mails. rewrite seqZ_app by lia. by rewrite fmap_app. Qed.

(** A packet arrives at the receiver: the next segment is put into the box, any
    other is dropped; both are acknowledged. *)
Lemma inv_deliver_b works k w l pk q : link_inv fill j k w l → tob l = pk :: q →
  ∃ n1 po buf o w', CheckPktAvail (network (lb l)) (tob l) = Ok (n1, q, true) ∧
    PostalDelivery fill works (with_network (lb l) n1) (bufb l) = Ok (po, buf, o) ∧ w ≤ w' ∧
    link_inv fill j k w' (mkLink (la l) po (bufa l) buf q (toa l ++ option_list o) (snd l) (taken l)) ∧
    (pk = wire fill (seg_packet j) (seg_bytes j k) → k < segments j →
       o = if works then Some (wire fill (ack_pkt (seg_packet j)) (encode_mail (ack_mail (seg_header j k)))) else None).
Proof.
  intros Hi Eq. pose proof Hi as [Hord Hat (Na & Nb & Ia & Ib) [Ba Bb] [Ra Rb] Hba (ms & y & Hbx & Htk) Htb Hta].
  rewrite Eq in Htb. apply Forall_cons in Htb as [(i & Hik & Hi2 & ->) Htb]. rewrite Eq.
  destruct (deliver_data fill j Hfill Hj works (lb l) (bufb l) q i _ Nb Ib Bb Rb Hbx) as (n1 & po & E1 & E2 & Hn & Hid & Hnum & Hget); [lia|].
  cbn [waitedId messages ackId] in Hget. eexists n1, po, _, _, (if i =? w then w + 1 else w).
  split; [exact E1|]. split; [exact E2|]. split; [destruct (i =? w); lia|]. split.
  - constructor; cbn [la lb bufa bufb tob toa snd taken]; try done.
    + destruct (Z.eqb_spec i w); lia.
    + split; [done|]. rewrite seg_bytes_length by (done || lia). done.
    + destruct Hba as (ms' & v & y' & E & Hy). exists ms', v, y'. split; [done|]. destruct (i =? w); lia.
    + destruct (Z.eqb_spec i w) as [->|Hne].
      * rewrite Z.eqb_refl in Hget. destruct (jo_id _ Hj). rewrite i32_id in Hget by (unfold is_i32, two31 in *; lia).
        exists (ms ++ [seg_mail j w]), y. rewrite Hget. split; [do 2 f_equal; lia|]. by rewrite app_assoc, Htk, mails_snoc by lia.
      * exists ms, y. rewrite Hget, (proj2 (Z.eqb_neq _ _)) by lia. done.
    + apply Forall_app. split.
      * eapply Forall_impl; [exact Hta|]. intros pk (i' & H1 & H2). exists i'. split; [destruct (i =? w); lia|done].
      * destruct works; cbn [option_list]; [|done]. apply Forall_singleton. exists i. split; [|done].
        destruct (Z.eqb_spec i w); lia.
  - intros E Hk. assert (seg_header j i = seg_header j k) as ->; [|done].
    assert (decode_mail (seg_bytes j i) = decode_mail (seg_bytes j k)) as Ed.
    { pose proof (seg_bytes_length j Hj i ltac:(lia)) as Li. pose proof (seg_bytes_length j Hj k ltac:(lia)) as Lk.
      unfold wire in E. apply app_inj_1 in E as [_ E]; [|done]. change (Z.to_nat (plength (seg_packet j))) with 52%nat in E.
      rewrite (take_ge (seg_bytes j i)), (take_ge (seg_bytes j k)) in E by lia.
      apply app_inj_1 in E as [E _]; [by rewrite E|congruence]. }
    unfold seg_bytes in Ed. rewrite !decode_encode_mail in Ed by (apply seg_header_ok; [done|lia]). congruence.
Qed.

(** An acknowledgement arrives at the sender. *)
Lemma inv_deliver_a works k w l pk q : link_inv fill j k w l → toa l = pk :: q →
  ∃ n1 po buf i, CheckPktAvail (network (la l)) (toa l) = Ok (n1, q, true) ∧
    PostalDelivery fill works (with_network (la l) n1) (bufa l) = Ok (po, buf, None) ∧
    0 ≤ i < w ∧ pk = wire fill (ack_pkt (seg_packet j)) (encode_mail (ack_mail (seg_header j i))) ∧
    (∃ ms v, arr_get (boxes po) (jba j) = Ok (mkBox ms v (jid j + i))) ∧
    link_inv fill j k w (mkLink po (lb l) buf (bufb l) (tob l) q (snd l) (taken l)).
Proof.
  intros Hi Eq. pose proof Hi as [Hord Hat (Na & Nb & Ia & Ib) [Ba Bb] [Ra Rb] (ms & v & y & Hbx & Hy) Hbb Htb Hta].
  rewrite Eq in Hta. apply Forall_cons in Hta as [(i & Hiw & ->) Hta]. rewrite Eq.
  destruct (deliver_ack fill j Hfill Hj works (la l) (bufa l) q i _ Na Ia Ba Ra Hbx) as (n1 & po & buf' & E1 & E2 & Hl & Hn & Hid & Hnum & Hget); [lia|].
  exists n1, po, buf', i. split; [exact E1|]. split; [exact E2|]. split; [done|]. split; [done|]. split; [by exists ms, v|].
  constructor; cbn [la lb bufa bufb tob toa snd taken]; try done. exists ms, v, (jid j + i). split; [exact Hget|]. lia.
Qed.

(** The receiving thread takes a mail. *)
Lemma inv_take k w l b m ms po : link_inv fill j k w l → arr_get (boxes (lb l)) (jbb j) = Ok b →
  SynchList_Remove (messages b) = Ok (m, ms) →
  on_box (lb l) (jbb j) (λ b, Ok (mkBox ms (waitedId b) (ackId b))) = Ok po →
  link_inv fill j k w (mkLink (la l) po (bufa l) (bufb l) (tob l) (toa l) (snd l) (taken l ++ [m])).
Proof.
  intros Hi Hb Hm Hpo. pose proof Hi as [Hord Hat (Na & Nb & Ia & Ib) [Ba Bb] [Ra Rb] Hba (ms0 & y & Hbx & Htk) Htb Hta].
  rewrite Hbx in Hb. injection Hb as <-. cbn [messages] in Hm. destruct ms0 as [|m0 ms0]; [discriminate Hm|]. injection Hm as -> ->.
  erewrite on_box_ok in Hpo; [|exact Hbx|reflexivity]. injection Hpo as <-. cbn [waitedId ackId].
  constructor; cbn [la lb bufa bufb tob toa snd taken boxes with_boxes numBoxes network]; try done.
  - by rewrite length_insert.
  - exists ms, y. split; [by eapply arr_get_insert|]. by rewrite <- app_assoc.
Qed.

Lemma inv_step k w l l' : link_inv fill j k w l → link_step fill j l l' →
  ∃ k' w', k ≤ k' ∧ w ≤ w' ∧ link_inv fill j k' w' l'.
Proof.
  intros Hi Hs. destruct Hs as [works l n o s Hp E|l n s Hp E|works l net q po buf o E1 E2|works l net q po buf o E1 E2|l b m ms po E1 E2 E3].
  - destruct (inv_emit works k w l n Hi Hp) as (o' & s' & E' & _ & _ & Hi'). rewrite E in E'. injection E' as <- <-.
    exists k, w. split_and!; [lia..|done].
  - destruct (inv_wake k w l n Hi Hp) as (s' & k' & E' & Hk & Hi' & _). rewrite E in E'. injection E' as <-.
    exists k', w. split_and!; [lia..|done].
  - assert (∃ pk, tob l = pk :: q) as [pk Eq].
    { unfold CheckPktAvail in E1. destruct (negb _); [discriminate E1|]. destruct (tob l); [discriminate E1|].
      inv_ok. by eexists. }
    destruct (inv_deliver_b works k w l pk q Hi Eq) as (n1 & po' & buf' & o' & w' & F1 & F2 & Hw & Hi' & _).
    rewrite E1 in F1. injection F1 as <-. rewrite E2 in F2. injection F2 as <- <- <-. exists k, w'. split_and!; [lia..|done].
  - assert (∃ pk, toa l = pk :: q) as [pk Eq].
    { unfold CheckPktAvail in E1. destruct (negb _); [discriminate E1|]. destruct (toa l); [discriminate E1|].
      inv_ok. by eexists. }
    destruct (inv_deliver_a works k w l pk q Hi Eq) as (n1 & po' & buf' & i & F1 & F2 & _ & _ & _ & Hi').
    rewrite E1 in F1. injection F1 as <-. rewrite E2 in F2. injection F2 as <- <- ->. cbn [option_list]. rewrite app_nil_r.
    exists k, w. split_and!; [lia..|done].
  - exists k, w. split_and!; [lia..|]. by eapply inv_take.
Qed.

Lemma inv_reachable l l' : link_start j l → rtc (link_step fill j) l l' → ∃ k w, link_inv fill j k w l'.
Proof.
  intros Hs Hr. assert (∃ k w, link_inv fill j k w l) as (k & w & Hi) by (exists 0, 0; by apply inv_start).
  clear Hs. revert k w Hi. induction Hr as [l|l l1 l2 Hst Hr IH]; intros k w Hi; [by eauto|].
  destruct (inv_step k w l l1 Hi Hst) as (k' & w' & _ & _ & Hi'). by apply (IH k' w').
Qed.
End invariant.

(** ** A network that loses nothing *)
Section lossless.
Context (fill : list Z) (j : job) (Hfill : length fill = Z.to_nat MaxWireSize) (Hj : job_ok j).

(** Nothing is on the way and the sender is about to send segment [k]. *)
Definition quiet (k : Z) (l : link) : Prop :=
  tob l = [] ∧ toa l = [] ∧ sphase (snd l) = if k <? segments j then Emit 0 else Returned true.

(** One segment: emission, delivery, acknowledgement, wake-up. *)
Lemma one_segment k w l : link_inv fill j k w l → quiet k l → k < segments j →
  ∃ l' w', rtc (link_step fill j) l l' ∧ link_inv fill j (k + 1) w' l' ∧ quiet (k + 1) l' ∧
    taken l' = taken l.
Proof.
  intros Hi (Q1 & Q2 & Q3) Hk. rewrite (proj2 (Z.ltb_lt _ _) Hk) in Q3.
  destruct (inv_emit fill j Hfill Hj true k w l 0 Hi Q3) as (o & s & E1 & P1 & -> & I1). cbn [option_list] in *.
  rewrite Q1 in I1. set (l1 := mkLink _ _ _ _ _ _ _ _) in I1.
  destruct (inv_deliver_b fill j Hfill Hj true k w l1 _ [] I1 eq_refl) as (n2 & po2 & buf2 & o2 & w2 & C2 & D2 & _ & I2 & O2).
  rewrite (O2 eq_refl Hk) in *. cbn [option_list] in *. set (l2 := mkLink _ _ _ _ _ _ _ _) in I2.
  assert (toa l2 = [wire fill (ack_pkt (seg_packet j)) (encode_mail (ack_mail (seg_header j k)))]) as Ea by (cbn; by rewrite Q2).
  destruct (inv_deliver_a fill j Hfill Hj true k w2 l2 _ [] I2 Ea) as (n3 & po3 & buf3 & i & C3 & D3 & Hi3 & Ew & (ms & v & G3) & I3).
  set (l3 := mkLink _ _ _ _ _ _ _ _) in I3. pose proof (li_order _ _ _ _ _ I2) as Hord2.
  assert (i = k) as ->.
  { unfold wire in Ew. apply app_inj_1 in Ew as [_ Ew]; [|done]. apply app_inj_1 in Ew as [Ew _]; [|done].
    rewrite !take_ge in Ew by done. assert (∀ i', 0 ≤ i' < segments j → mail_ok (ack_mail (seg_header j i'))) as Hok.
    { intros i' Hi'. destruct (seg_header_ok j Hj i') as (H1 & H2 & H3 & H4 & H5); [lia|]. by split_and!. }
    apply (f_equal decode_mail) in Ew. rewrite <- (app_nil_r (encode_mail (ack_mail (seg_header j k)))) in Ew.
    rewrite <- (app_nil_r (encode_mail (ack_mail (seg_header j i)))) in Ew. rewrite !decode_encode_mail in Ew by (apply Hok; lia).
    injection Ew. lia. }
  destruct (inv_wake fill j Hfill Hj k w2 l3 0 I3) as (s4 & k4 & E4 & _ & I4 & K4); [exact P1|].
  destruct (K4 _ G3 eq_refl) as [-> P4]. set (l4 := mkLink _ _ _ _ _ _ _ _) in I4. exists l4, w2. split; [|split; [exact I4|split; [by split_and!|done]]].
  eapply rtc_l; [apply (step_emit fill j true l 0 _ s Q3 E1)|]. cbn [option_list]. rewrite Q1. fold l1.
  eapply rtc_l; [apply (step_deliver_b fill j true l1 n2 [] po2 buf2 _ C2 D2)|]. cbn [option_list]. fold l2.
  eapply rtc_l; [apply (step_deliver_a fill j true l2 n3 [] po3 buf3 _ C3 D3)|]. cbn [option_list]. rewrite app_nil_r. fold l3.
  eapply rtc_l; [apply (step_wake fill j l3 0 s4 P1 E4)|]. apply rtc_refl.
Qed.

Lemma all_segments m k w l : segments j - k = Z.of_nat m → link_inv fill j k w l → quiet k l →
  ∃ l', rtc (link_step fill j) l l' ∧ sphase (snd l') = Returned true ∧ taken l' = taken l.
Proof.
  revert k w l. induction m as [|m IH]; intros k w l Hm Hi Hq.
  - exists l. split; [apply rtc_refl|]. destruct Hq as (_ & _ & ->). by rewrite (proj2 (Z.ltb_ge _ _)) by lia.
  - destruct (one_segment k w l Hi Hq) as (l1 & w1 & R1 & I1 & Q1 & T1); [lia|].
    destruct (IH (k + 1) w1 l1 ltac:(lia) I1 Q1) as (l2 & R2 & P2 & T2).
    exists l2. split; [by etrans|]. split; [done|congruence].
Qed.
End lossless.

(** ** The segments put together again *)
Section receive.
Context (j : job) (Hj : job_ok j) (Hrem : Z.of_nat (length (jdata j)) mod 32 ≠ 0).

(** How much of the message the first [k] segments hold. *)
Definition upto (k : Z) : nat := Z.to_nat (Z.min (32 * k) (Z.of_nat (length (jdata j)))).

Lemma Get_segment k ms v y p d : 0 ≤ k < segments j → (length (jdata j) ≤ length d)%nat →
  take (upto k) d = take (upto k) (jdata j) →
  ∃ p' d', MailBox_Get (mkBox (seg_mail j k :: ms) v y) p k d (k * MaxSegmentSize) = Ok (mkBox ms v y, p', d') ∧
    nbSegments p' = segments j ∧ length d' = length d ∧ take (upto (k + 1)) d' = take (upto (k + 1)) (jdata j).
Proof.
  intros Hk Hl Ht. destruct (segments_spec j Hj) as (Es & Er & _). destruct (chunk_range j Hj k Hk) as [Hn Hc].
  unfold MailBox_Get. cbn [SynchList_Remove messages mbind outcome_bind]. set (p1 := with_id _ _).
  change (nbSegments p1) with (segments j). change (remainder p1) with (remainder (job_payload j)).
  pose proof (padded_length j Hj k Hk) as Hp. cbn [mdata seg_mail].
  set (n := if k =? segments j - 1 then remainder (job_payload j) else MaxSegmentSize) in *.
  assert (length (chunk j k) = Z.to_nat n) as Hcl.
  { unfold chunk. fold n. rewrite length_take, length_drop. change MaxSegmentSize with 32 in *. lia. }
  rewrite slice_ok by lia. change (Z.to_nat 0) with 0%nat. rewrite drop_0. unfold padded. rewrite take_app_length' by done.
  cbn [mbind outcome_bind]. change MaxSegmentSize with 32 in *. rewrite overlay_ok by lia. cbn [mbind outcome_bind].
  assert (Z.to_nat (k * 32) = upto k) as Ek by (unfold upto; lia).
  assert ((upto k + Z.to_nat n)%nat = upto (k + 1)) as En.
  { unfold upto, n. rewrite Er. change MaxSegmentSize with 32. destruct (Z.eqb_spec k (segments j - 1)); zcases. }
  eexists p1, _. split; [done|]. split; [done|].
  rewrite Ek, Hcl. split; [rewrite !length_app, length_take, length_drop, Hcl; lia|].
  rewrite app_assoc, take_app_length' by (rewrite length_app, length_take, Hcl; lia).
  rewrite Ht, <- En, <- take_take_drop. unfold chunk. fold n. change MaxSegmentSize with 32. by rewrite Ek.
Qed.

Lemma receive_loop_spec m : ∀ k ms v y p d, segments j - k = Z.of_nat m → 1 ≤ k → nbSegments p = segments j →
  (length (jdata j) ≤ length d)%nat → take (upto k) d = take (upto k) (jdata j) → ∀ n, (m ≤ n)%nat →
  ∃ p' d', receive_loop n (mkBox ((seg_mail j <$> seqZ k (segments j - k)) ++ ms) v y) p k d = Ok (mkBox ms v y, p', d') ∧
    length d' = length d ∧ take (length (jdata j)) d' = jdata j.
Proof.
  destruct (segments_spec j Hj) as (Es & _ & _).
  induction m as [|m IH]; intros k ms v y p d Hm Hk Hp Hl Ht n Hn.
  - assert (k = segments j) as -> by lia. rewrite Z.sub_diag. cbn [seqZ fmap app].
    destruct n; cbn [receive_loop]; rewrite Hp, Z.ltb_irrefl; exists p, d;
      (split; [done|]); (split; [done|]); unfold upto in Ht;
      (replace (Z.to_nat _) with (length (jdata j)) in Ht by zcases); rewrite Ht; by apply take_ge.
  - destruct n as [|n]; [lia|]. cbn [receive_loop]. rewrite Hp, (proj2 (Z.ltb_lt _ _)) by lia.
    rewrite seqZ_cons by lia. rewrite fmap_cons. cbn [app].
    destruct (Get_segment k ((seg_mail j <$> seqZ (Z.succ k) (Z.pred (segments j - k))) ++ ms) v y p d) as (p' & d' & -> & Hp' & Hl' & Ht'); [lia|done|done|].
    cbn [mbind outcome_bind]. replace (Z.succ k) with (k + 1) by lia. replace (Z.pred (segments j - k)) with (segments j - (k + 1)) by lia.
    destruct (IH (k + 1) ms v y p' d' ltac:(lia) ltac:(lia) Hp' ltac:(lia) Ht' n ltac:(lia)) as (p2 & d2 & E & Hl2 & Ht2).
    exists p2, d2. split; [exact E|]. split; [congruence|done].
Qed.
End receive.
Lemma bzero_string_ok d : 0 ∈ d → ∃ d', bzero_string d = Ok d' ∧ length d' = length d.
Proof.
  induction d as [|c d IH]; [by intros ?%elem_of_nil|]. cbn [bzero_string]. destruct (Z.eqb_spec c 0) as [->|Hc].
  - intros _. by eexists.
  - intros [E|Hin]%elem_of_cons; [by subst|]. destruct (IH Hin) as (d' & -> & Hl). cbn [mbind outcome_bind]. eexists. split; [done|]. cbn. lia.
Qed.

Lemma ReceivePayload_spec j po p box d ms v y : job_ok j → Z.of_nat (length (jdata j)) mod 32 ≠ 0 →
  numBoxes po = Z.of_nat (length (boxes po)) → arr_get (boxes po) box = Ok (mkBox (mails j (segments j) ++ ms) v y) →
  0 ∈ d → (length (jdata j) ≤ length d)%nat →
  ∃ po' p' d', ReceivePayload po p box d = Ok (po', p', d') ∧ length d' = length d ∧
    take (length (jdata j)) d' = jdata j ∧ arr_get (boxes po') box = Ok (mkBox ms v y).
Proof.
  intros Hj Hrem Hnum Hb Hz Hl. pose proof (arr_get_dom _ _ _ Hb) as Hd. destruct (segments_spec j Hj) as (Es & _ & _).
  unfold ReceivePayload. rewrite Hnum, (proj2 (Z.leb_le _ _)), (proj2 (Z.ltb_lt _ _)) by lia. cbn [andb ASSERT mbind outcome_bind].
  destruct (bzero_string_ok d Hz) as (d0 & -> & Hl0). cbn [mbind outcome_bind]. rewrite Hb. cbn [mbind outcome_bind].
  assert (1 ≤ segments j) as H1 by zcases. unfold mails. rewrite seqZ_cons by lia. rewrite fmap_cons. cbn [app].
  set (rest := (seg_mail j <$> seqZ (Z.succ 0) (Z.pred (segments j))) ++ ms).
  destruct (Get_segment j Hj Hrem 0 rest v y p d0) as (p1 & d1 & E1 & Hp1 & Hl1 & Ht1); [lia|lia| |].
  { assert (upto j 0 = 0%nat) as -> by (unfold upto; lia). done. }
  change (0 * MaxSegmentSize) with 0 in E1. rewrite E1. cbn [mbind outcome_bind messages].
  destruct (receive_loop_spec j Hj Hrem (Z.to_nat (segments j - 1)) 1 ms v y p1 d1 ltac:(lia) ltac:(lia) Hp1 ltac:(lia) Ht1 (length rest))
    as (p2 & d2 & E2 & Hl2 & Ht2).
  { unfold rest. rewrite length_app, length_fmap, length_seqZ. lia. }
  change (Z.succ 0) with 1 in rest. unfold rest in *. replace (Z.pred (segments j)) with (segments j - 1) in * by lia.
  rewrite E2. cbn [mbind outcome_bind]. rewrite arr_set_in by done. cbn [mbind outcome_bind].
  eexists _, p2, d2. split; [done|]. split; [congruence|]. split; [done|]. cbn [boxes with_boxes]. by eapply arr_get_insert.
Qed.

(** ** Theorems *)

(** C7: Reliable delivery.  Whatever the network loses and however the steps of
    the two machines interleave, the receiver has got a prefix of the segments of
    the message, in order, each once; when [SendPayload] has returned TRUE it has
    got all of them.  No arriving packet makes a postal worker fail. *)
Theorem reliable_delivery fill j l l' : length fill = Z.to_nat MaxWireSize → job_ok j →
  link_start j l → rtc (link_step fill j) l l' →
  ∃ w b, arr_get (boxes (lb l')) (jbb j) = Ok b ∧ taken l' ++ messages b = mails j w ∧ 0 ≤ w ≤ segments j ∧
    (sphase (snd l') = Returned true → w = segments j) ∧
    (∀ works pk q, tob l' = pk :: q → ∃ n r, CheckPktAvail (network (lb l')) (tob l') = Ok (n, q, true) ∧
       PostalDelivery fill works (with_network (lb l') n) (bufb l') = Ok r) ∧
    (∀ works pk q, toa l' = pk :: q → ∃ n r, CheckPktAvail (network (la l')) (toa l') = Ok (n, q, true) ∧
       PostalDelivery fill works (with_network (la l') n) (bufa l') = Ok r).
Proof.
  intros Hf Hj Hs Hr. destruct (inv_reachable fill j Hf Hj l l' Hs Hr) as (k & w & Hi).
  pose proof Hi as [Hord (_ & _ & Hph) _ _ _ _ (ms & y & Hb & Ht) _ _]. exists w, (mkBox ms (jid j + w) y).
  split; [exact Hb|]. split; [exact Ht|]. split; [lia|]. split; [intros E; rewrite E in Hph; lia|]. split.
  - intros works pk q Eq. destruct (inv_deliver_b fill j Hf Hj works k w l' pk q Hi Eq) as (n & po & buf & o & w' & E1 & E2 & _).
    by exists n, (po, buf, o).
  - intros works pk q Eq. destruct (inv_deliver_a fill j Hf Hj works k w l' pk q Hi Eq) as (n & po & buf & i & E1 & E2 & _).
    by exists n, (po, buf, None).
Qed.

(** When the network loses nothing, [SendPayload] can return TRUE: from every
    start there is a run in which each segment is sent once and acknowledged. *)
Theorem lossless_completes fill j l : length fill = Z.to_nat MaxWireSize → job_ok j → link_start j l →
  ∃ l', rtc (link_step fill j) l l' ∧ sphase (snd l') = Returned true.
Proof.
  intros Hf Hj Hs. pose proof (inv_start fill j Hf Hj l Hs) as Hi. destruct (segments_spec j Hj) as (_ & _ & H0).
  destruct (all_segments fill j Hf Hj (Z.to_nat (segments j)) 0 0 l) as (l' & R & P & _); [lia|done| |by exists l'].
  destruct Hs as [Hs (Q1 & Q2 & _) _ _ _ _ _]. split; [done|]. split; [done|].
  destruct (next_segment_spec fill j Hf Hj 0 ltac:(lia)) as (s & Es & _ & <-). unfold SendPayload in Hs. inv_ok.
  rewrite Z.add_0_r in Es. change (with_id (job_payload j) (jid j)) with (job_payload j) in Es. congruence.
Qed.

(** End to end: once [SendPayload] has returned TRUE for a message whose length
    is not a multiple of the segment size, [ReceivePayload] on the receiving
    machine fills the buffer with exactly the bytes of the message. *)
Theorem message_received fill j l l' p d : length fill = Z.to_nat MaxWireSize → job_ok j →
  Z.of_nat (length (jdata j)) mod 32 ≠ 0 → link_start j l → rtc (link_step fill j) l l' →
  sphase (snd l') = Returned true → taken l' = [] → 0 ∈ d → (length (jdata j) ≤ length d)%nat →
  ∃ po' p' d', ReceivePayload (lb l') p (jbb j) d = Ok (po', p', d') ∧ take (length (jdata j)) d' = jdata j.
Proof.
  intros Hf Hj Hrem Hs Hr Hph Htk Hz Hl. destruct (inv_reachable fill j Hf Hj l l' Hs Hr) as (k & w & Hi).
  pose proof Hi as [Hord (_ & _ & Hp) _ _ [_ Hnum] _ (ms & y & Hb & Ht) _ _]. rewrite Hph in Hp. rewrite Htk in Ht. cbn [app] in Ht.
  assert (w = segments j) as -> by lia. rewrite Ht, <- (app_nil_r (mails j (segments j))) in Hb.
  destruct (ReceivePayload_spec j (lb l') p (jbb j) d [] _ y Hj Hrem Hnum Hb Hz Hl) as (po' & p' & d' & E & _ & Hd & _).
  by exists po', p', d'.
Qed.

(** The last segment of a message whose length is a positive multiple of the
    segment size is sent as zeros: the number of bytes copied is the remainder,
    which is 0. *)
Theorem last_full_segment_dropped j : job_ok j → jdata j ≠ [] → Z.of_nat (length (jdata j)) mod 32 = 0 →
  segment_buffer (with_id (job_payload j) (jid j + (segments j - 1))) (jdata j) (segments j - 1) =
    Ok (encode_mail (seg_header j (segments j - 1)) ++ replicate 32 0).
Proof.
  intros Hj Hne Hz. destruct (segments_spec j Hj) as (Es & Er & _).
  assert (0 < Z.of_nat (length (jdata j))) by (destruct (jdata j); [done|cbn; lia]).
  rewrite segment_buffer_spec by (done || zcases). unfold seg_bytes, padded, chunk. do 2 f_equal.
  rewrite Z.eqb_refl, Er, Hz. done.
Qed.

(** ** Witnesses: 40 bytes from box 1 of machine 1 to box 1 of machine 2 *)
Definition demo_job : job := mkJob 1 2 1 1 1 (seqZ 1 40).
Definition demo_fill : list Z := replicate 64 7.
Definition demo_net (a : Z) : Network := mkNet a false (mkPkt 0 0 0) (replicate 52 9).
Definition demo_po (a : Z) (b : MailBox) : PostOffice := mkPO [MailBox_new; b; MailBox_new] 3 (mkBitMap 3 1 [3]) (demo_net a) a [].
Definition demo_sending : sending :=
  mkSending (job_payload demo_job) 0 (seg_bytes demo_job 0) (Emit 0).
Definition demo_link : link :=
  mkLink (demo_po 1 MailBox_new) (demo_po 2 (mkBox [] 1 (-1))) (replicate 52 9) (replicate 52 9) [] [] demo_sending [].

Lemma demo_job_ok : job_ok demo_job.
Proof. constructor; vm_compute; repeat split; discriminate. Qed.
Lemma demo_link_start : link_start demo_job demo_link.
Proof.
  constructor.
  - vm_compute. reflexivity.
  - repeat split.
  - repeat split.
  - repeat split.
  - repeat split.
  - exists [], 0, (-1). split; [reflexivity|]. vm_compute. intros [H _]. by apply H.
  - exists (-1). reflexivity.
Qed.

Lemma demo_run : ∃ l', rtc (link_step demo_fill demo_job) demo_link l' ∧ sphase (snd l') = Returned true ∧ taken l' = [].
Proof.
  apply (all_segments demo_fill demo_job eq_refl demo_job_ok 2 0 0 demo_link eq_refl); [|by repeat split].
  apply inv_start; [reflexivity|exact demo_job_ok|exact demo_link_start].
Qed.

Lemma reliable_delivery_witness : ∃ l' b, rtc (link_step demo_fill demo_job) demo_link l' ∧
  arr_get (boxes (lb l')) 1 = Ok b ∧ taken l' ++ messages b = mails demo_job 2.
Proof.
  destruct demo_run as (l' & Hr & Hp & _).
  destruct (reliable_delivery demo_fill demo_job demo_link l' eq_refl demo_job_ok demo_link_start Hr) as (w & b & E & Ht & _ & Hw & _).
  exists l', b. split; [exact Hr|]. split; [exact E|]. rewrite Ht, (Hw Hp). reflexivity.
Defined.
Lemma lossless_completes_witness : ∃ l', rtc (link_step demo_fill demo_job) demo_link l' ∧ sphase (snd l') = Returned true.
Proof. apply lossless_completes; [reflexivity|exact demo_job_ok|exact demo_link_start]. Defined.
Lemma last_full_segment_dropped_witness :
  segment_buffer (with_id (job_payload (mkJob 1 2 1 1 1 (seqZ 1 32))) 1) (seqZ 1 32) 0 =
    Ok (encode_mail (seg_header (mkJob 1 2 1 1 1 (seqZ 1 32)) 0) ++ replicate 32 0).
Proof.
  apply (last_full_segment_dropped (mkJob 1 2 1 1 1 (seqZ 1 32))).
  - constructor; vm_compute; repeat split; discriminate.
  - discriminate.
  - reflexivity.
Defined.
Lemma message_received_witness : ∃ l' po' p' d', rtc (link_step demo_fill demo_job) demo_link l' ∧
  ReceivePayload (lb l') Payload_zero 1 (replicate 100 0) = Ok (po', p', d') ∧ take 40 d' = seqZ 1 40.
Proof.
  destruct demo_run as (l' & Hr & Hp & Ht).
  destruct (message_received demo_fill demo_job demo_link l' Payload_zero (replicate 100 0) eq_refl demo_job_ok)
    as (po' & p' & d' & E & Hd).
  - discriminate.
  - exact demo_link_start.
  - exact Hr.
  - exact Hp.
  - exact Ht.
  - apply list_elem_of_here.
  - vm_compute. lia.
  - exists l', po', p', d'. split; [exact Hr|]. split; [exact E|exact Hd].
Defined.
