(* ===== verification/Channel.v ===== *)
(** * Messages between two machines

    What a connection of the post office gives to the programs that use it:
    messages go through whole, in order, each once ([PostNet.reliable_delivery]),
    and a receiver's buffer gets the bytes of the message the way
    [ReceivePayload] copies them ([received]; [ReceivePayload_received] shows
    that the post office computes exactly this).

    A program that talks over a connection is a tree of its communications
    ([proc]); between two of them it works on the state of its machine.  A
    [Send] is acknowledged, or given up after 50 emissions of a segment
    ([reply]), and the program goes on with the answer ([advance]).

    Two programs run in any interleaving in which no [Send] gives up
    ([net_step]).  The others are not followed: [SendPayload] uses the
    identifier of the segment it gave up again, while the receiver may have
    moved on to the next one or may still wait for the rest of the message, so
    that the messages that come after it are dropped or mixed with it.  Since
    each side has its own state and the queues are first in, first out, the
    schedule does not matter: when one schedule ends, every schedule ends, in
    the same state ([net_ends]). *)
From S2P Require Import Prelude BitMap Memory FileHdr Network Post PostNet.

(** A message: the machine it comes from, its [MessageType] and its bytes. *)
Record msg := mkMsg { msg_from : Z; msg_type : Z; msg_bytes : list Z }.

(** The part of a message that [SendPayload] transmits. *)
Definition arrived (m : list Z) : list Z :=
  if Z.of_nat (length m) mod MaxSegmentSize =? 0 then take (length m - Z.to_nat MaxSegmentSize) m else m.
(** The buffer [data] after [ReceivePayload] of the message [m]. *)
Definition received (data m : list Z) : outcome (list Z) :=
  d ← bzero_string data; overlay d 0 (arrived m).

(** ** Programs that communicate *)
Inductive proc (S A : Type) : Type :=
| Done (a : A)
| Halt                                           (* [interrupt->Halt()] *)
| Local {X : Type} (f : M S X) (k : X → proc S A)
| Send (m : msg) (k : bool → proc S A)           (* the result of [PostOffice::Send] *)
| Recv (data : list Z) (k : list Z → msg → proc S A).
Arguments Done {S A} a.
Arguments Halt {S A}.
Arguments Local {S A X} f k.
Arguments Send {S A} m k.
Arguments Recv {S A} data k.

Fixpoint proc_bind {S A B} (k : A → proc S B) (p : proc S A) : proc S B :=
  match p with
  | Done a => k a
  | Halt => Halt
  | Local f g => Local f (λ x, proc_bind k (g x))
  | Send m g => Send m (λ b, proc_bind k (g b))
  | Recv d g => Recv d (λ l m, proc_bind k (g l m))
  end.
#[global] Instance proc_ret {S} : MRet (proc S) := λ A a, Done a.
#[global] Instance proc_mbind {S} : MBind (proc S) := λ A B k p, proc_bind k p.

(** A step of the machine alone, an expression on its state, a check. *)
Definition local {S A} (f : M S A) : proc S A := Local f Done.
Definition check {S} (c : bool) : proc S unit := local (assertM c).
Definition try {S A} (m : outcome A) : proc S A := local (lift m).

(** What becomes of a [SendPayload]: it is acknowledged, or the sender gives up
    after [MAXREEMISSIONS] emissions of a segment; the message may then have
    arrived, its last acknowledgements being lost, or not. *)
Inductive reply := Acknowledged | GivenUp (arrives : bool).
Definition answer (r : reply) : bool := match r with Acknowledged => true | GivenUp _ => false end.
Definition arrives (r : reply) : bool := match r with Acknowledged => true | GivenUp b => b end.

(** One step of a program, with [r] in case it sends: what it becomes, its
    state, what is left of the messages for it and what it sends. *)
Definition advance {S A} (r : reply) (p : proc S A) (s : S) (inq : list msg) : option (proc S A * S * list msg * list msg) :=
  match p with
  | Done _ | Halt => None
  | Local f k => match f s with Ok (x, s') => Some (k x, s', inq, []) | _ => None end
  | Send m k => Some (k (answer r), s, inq, if arrives r then [m] else [])
  | Recv data k =>
      match inq with
      | [] => None
      | m :: q => match received data (msg_bytes m) with Ok d => Some (k d m, s, q, []) | _ => None end
      end
  end.
(** Whether the next step fails: an assertion, undefined behaviour or a lock
    that is never released. *)
Definition stops {S A} (p : proc S A) (s : S) (inq : list msg) : option (outcome unit) :=
  match p with
  | Local f k => match f s with Ok _ => None | AssertFail => Some AssertFail | Fault => Some Fault | Blocked => Some Blocked end
  | Recv data k =>
      match inq with
      | [] => None
      | m :: q => match received data (msg_bytes m) with
                  | Ok _ => None | AssertFail => Some AssertFail | Fault => Some Fault | Blocked => Some Blocked end
      end
  | _ => None
  end.

(** ** Two machines *)
Record net (SA A SB B : Type) := mkLinked {
  pa : proc SA A; sa : SA; pb : proc SB B; sb : SB;
  a2b : list msg; b2a : list msg
}.
Arguments mkLinked {SA A SB B}.
Arguments pa {SA A SB B}.
Arguments sa {SA A SB B}.
Arguments pb {SA A SB B}.
Arguments sb {SA A SB B}.
Arguments a2b {SA A SB B}.
Arguments b2a {SA A SB B}.

Section net.
Context {SA A SB B : Type}.
Implicit Types n : net SA A SB B.

(** A step of either machine; a message that is sent is acknowledged. *)
Inductive net_step : relation (net SA A SB B) :=
| step_a n p s q out : advance Acknowledged (pa n) (sa n) (b2a n) = Some (p, s, q, out) →
    net_step n (mkLinked p s (pb n) (sb n) (a2b n ++ out) q)
| step_b n p s q out : advance Acknowledged (pb n) (sb n) (a2b n) = Some (p, s, q, out) →
    net_step n (mkLinked (pa n) (sa n) p s q (b2a n ++ out)).

(** A step does not depend on messages that come in later. *)
Lemma advance_more {S X} (p : proc S X) s q more p' s' q' out :
  advance Acknowledged p s q = Some (p', s', q', out) → advance Acknowledged p s (q ++ more) = Some (p', s', q' ++ more, out).
Proof.
  destruct p as [x| |Y f k|m k|d k]; cbn [advance]; try done.
  - destruct (f s) as [[x t]| | |]; naive_solver.
  - naive_solver.
  - destruct q as [|m q]; [done|]. cbn [app]. destruct (received d _); naive_solver.
Qed.

Lemma net_step_diamond n n1 n2 : net_step n n1 → net_step n n2 →
  n1 = n2 ∨ ∃ n3, net_step n1 n3 ∧ net_step n2 n3.
Proof.
  assert (∀ n p s q out p2 s2 q2 out2,
    advance Acknowledged (pa n) (sa n) (b2a n) = Some (p, s, q, out) →
    advance Acknowledged (pb n) (sb n) (a2b n) = Some (p2, s2, q2, out2) →
    let n3 := mkLinked p s p2 s2 (q2 ++ out) (q ++ out2) in
    net_step (mkLinked p s (pb n) (sb n) (a2b n ++ out) q) n3 ∧
    net_step (mkLinked (pa n) (sa n) p2 s2 q2 (b2a n ++ out2)) n3) as Hab.
  { intros m p s q out p2 s2 q2 out2 Ea Eb. split.
    - apply (step_b (mkLinked p s (pb m) (sb m) (a2b m ++ out) q)). by apply advance_more.
    - apply (step_a (mkLinked (pa m) (sa m) p2 s2 q2 (b2a m ++ out2))). by apply advance_more. }
  intros H1 H2. destruct H1 as [n p s q out E1|n p s q out E1]; inversion H2 as [m p2 s2 q2 out2 E2|m p2 s2 q2 out2 E2]; subst.
  - left. congruence.
  - right. eexists. by eapply Hab.
  - right. destruct (Hab n _ _ _ _ _ _ _ _ E2 E1). by eexists.
  - left. congruence.
Qed.

(** Both programs have come to their end. *)
Definition finished n (a : A) (b : B) : Prop := pa n = Done a ∧ pb n = Done b.
Lemma finished_nf n a b : finished n a b → nf net_step n.
Proof.
  intros [Ea Eb] [n' H]. inversion H as [m p s q out E|m p s q out E]; subst; [rewrite Ea in E|rewrite Eb in E]; discriminate E.
Qed.

(** One step of one schedule can be made up for in another, in one step less. *)
Lemma nsteps_swap k n z n1 : nsteps net_step k n z → nf net_step z → net_step n n1 →
  ∃ j, k = S j ∧ nsteps net_step j n1 z.
Proof.
  intros Hk Hz. revert n1. induction Hk as [z|k n n2 z Hs Hk IH]; intros n1 H1.
  - destruct Hz. by exists n1.
  - exists k. split; [done|]. destruct (net_step_diamond _ _ _ Hs H1) as [<-|(n3 & H23 & H13)]; [done|].
    destruct (IH Hz n3 H23) as (j & -> & Hj). by econstructor.
Qed.

(** When one schedule ends, every schedule ends and in the same state. *)
Lemma net_ends n z : rtc net_step n z → nf net_step z →
  sn net_step n ∧ ∀ n', rtc net_step n n' → rtc net_step n' z.
Proof.
  intros [k Hk]%rtc_nsteps Hz. split.
  - revert n Hk. induction k as [|k IH]; intros n Hk; constructor; intros n1 H1;
      destruct (nsteps_swap _ _ _ _ Hk Hz H1) as (j & Ej & Hj); [done|].
    injection Ej as <-. by apply IH.
  - intros n' Hn'. revert k Hk. induction Hn' as [n|n n1 n' H1 _ IH]; intros k Hk; [by eapply rtc_nsteps_2|].
    destruct (nsteps_swap _ _ _ _ Hk Hz H1) as (j & _ & Hj). by eapply IH.
Qed.

(** Whatever the schedule, the two programs come to a standstill that
    satisfies [Q]. *)
Definition always n (Q : net SA A SB B → Prop) : Prop :=
  ∃ z, Q z ∧ nf net_step z ∧ sn net_step n ∧ ∀ n', rtc net_step n n' → rtc net_step n' z.
(** Both programs have ended, with results and in states that satisfy [Q]. *)
Definition ended (Q : A → SA → B → SB → Prop) n : Prop := ∃ a b, finished n a b ∧ Q a (sa n) b (sb n).

Lemma always_ended n z a b (Q : A → SA → B → SB → Prop) : rtc net_step n z → finished z a b →
  Q a (sa z) b (sb z) → always n (ended Q).
Proof.
  intros Hr Hf HQ. pose proof (finished_nf z a b Hf) as Hn. destruct (net_ends n z Hr Hn).
  exists z. split; [by exists a, b|done].
Qed.
Lemma always_mono n (P Q : net SA A SB B → Prop) : (∀ z, P z → Q z) → always n P → always n Q.
Proof. intros HPQ (z & HP & H). exists z. split; [by apply HPQ|done]. Qed.

End net.

(** ** One side at a time *)

(** The program [p] of one machine gets to [p'] on its own, taking messages from
    [q] and sending [o]. *)
Inductive runs {S A : Type} : proc S A → S → list msg → proc S A → S → list msg → list msg → Prop :=
| runs_refl p s q : runs p s q p s q []
| runs_step p s q p1 s1 q1 o1 p2 s2 q2 o2 : advance Acknowledged p s q = Some (p1, s1, q1, o1) →
    runs p1 s1 q1 p2 s2 q2 o2 → runs p s q p2 s2 q2 (o1 ++ o2).

Lemma runs_trans {S A} (p1 p2 p3 : proc S A) s1 s2 s3 q1 q2 q3 o1 o2 : runs p1 s1 q1 p2 s2 q2 o1 → runs p2 s2 q2 p3 s3 q3 o2 →
  runs p1 s1 q1 p3 s3 q3 (o1 ++ o2).
Proof. induction 1; intros Hr; [done|]. rewrite <- app_assoc. eapply runs_step; eauto. Qed.

Section runs.
Context {S A B : Type}.
Implicit Types (s t : S) (q r o : list msg).

Lemma advance_bind (k : A → proc S B) (p p' : proc S A) s s' q q' o : advance Acknowledged p s q = Some (p', s', q', o) →
  advance Acknowledged (proc_bind k p) s q = Some (proc_bind k p', s', q', o).
Proof.
  destruct p as [a| |X f g|m g|d g]; cbn [advance proc_bind]; try done.
  - destruct (f s) as [[x t]| | |]; naive_solver.
  - naive_solver.
  - destruct q as [|m q]; [done|]. destruct (received d _); naive_solver.
Qed.
Lemma runs_bind (k : A → proc S B) (p p' : proc S A) s s' q q' o : runs p s q p' s' q' o →
  runs (proc_bind k p) s q (proc_bind k p') s' q' o.
Proof. induction 1; [constructor|]. eapply runs_step; [by apply advance_bind|done]. Qed.
(** A call that returns, and what comes behind it. *)
Lemma runs_seq (k : A → proc S B) (p : proc S A) a p2 s s1 s2 q q1 q2 o1 o2 : runs p s q (Done a) s1 q1 o1 →
  runs (k a) s1 q1 p2 s2 q2 o2 → runs (proc_bind k p) s q p2 s2 q2 (o1 ++ o2).
Proof. intros H1 H2. eapply runs_trans; [by apply runs_bind|exact H2]. Qed.

(** The call sends nothing, or one message. *)
Lemma runs_quiet (k : A → proc S B) (p : proc S A) a p2 s s1 s2 q q1 q2 o : runs p s q (Done a) s1 q1 [] →
  runs (k a) s1 q1 p2 s2 q2 o → runs (proc_bind k p) s q p2 s2 q2 o.
Proof. intros H1 H2. apply (runs_seq k p a p2 s s1 s2 q q1 q2 [] o H1 H2). Qed.
Lemma runs_sends (k : A → proc S B) (p : proc S A) a p2 s s1 s2 q q1 q2 m m' o : runs p s q (Done a) s1 q1 [m'] →
  m' = m → runs (k a) s1 q1 p2 s2 q2 o → runs (proc_bind k p) s q p2 s2 q2 (m :: o).
Proof. intros H1 <- H2. apply (runs_seq k p a p2 s s1 s2 q q1 q2 [m'] o H1 H2). Qed.
End runs.

Lemma runs_local {S A} (f : M S A) s a s' q : f s = Ok (a, s') → runs (local f) s q (Done a) s' q [].
Proof. intros E. apply (runs_step (local f) s q (Done a) s' q []); [cbn; by rewrite E|constructor]. Qed.
Lemma runs_try {S A} (m : outcome A) (s : S) a q : m = Ok a → runs (try m) s q (Done a) s q [].
Proof. intros ->. by apply runs_local. Qed.
Lemma runs_check {S} (c : bool) (s : S) q : c = true → runs (check c) s q (Done tt) s q [].
Proof. intros ->. by apply runs_local. Qed.
Lemma runs_send {S A} m (k : bool → proc S A) s q : runs (Send m k) s q (k true) s q [m].
Proof. apply (runs_step (Send m k) s q (k true) s q [m]); [done|constructor]. Qed.
Lemma runs_recv {S A} d (k : list Z → msg → proc S A) m s q l : received d (msg_bytes m) = Ok l →
  runs (Recv d k) s (m :: q) (k l m) s q [].
Proof. intros E. apply (runs_step (Recv d k) s (m :: q) (k l m) s q []); [cbn; by rewrite E|constructor]. Qed.

Section lift.
Context {SA A SB B : Type}.
Lemma runs_net_a (p p' : proc SA A) s s' q q' o (b : proc SB B) t x z : runs p s q p' s' q' o →
  rtc net_step (mkLinked p' s' b t (x ++ o) q') z → rtc net_step (mkLinked p s b t x q) z.
Proof.
  intros Hr. revert x. induction Hr as [p s q|p s q p1 s1 q1 o1 p2 s2 q2 o2 E _ IH]; intros x Hz; [by rewrite app_nil_r in Hz|].
  eapply rtc_l; [by apply (step_a (mkLinked p s b t x q))|]. apply IH. by rewrite <- app_assoc.
Qed.
Lemma runs_net_b (p p' : proc SB B) s s' q q' o (a : proc SA A) t y z : runs p s q p' s' q' o →
  rtc net_step (mkLinked a t p' s' q' (y ++ o)) z → rtc net_step (mkLinked a t p s q y) z.
Proof.
  intros Hr. revert y. induction Hr as [p s q|p s q p1 s1 q1 o1 p2 s2 q2 o2 E _ IH]; intros y Hz; [by rewrite app_nil_r in Hz|].
  eapply rtc_l; [by apply (step_b (mkLinked a t p s q y))|]. apply IH. by rewrite <- app_assoc.
Qed.
End lift.

(** ** Conversations *)

(** The whole run of a program, cut where it waits: what it takes in and what it
    then sends, up to its result. *)
Inductive script {S A : Type} : proc S A → S → list (list msg * list msg) → A → S → Prop :=
| script_last p s q a s' o : runs p s q (Done a) s' [] o → script p s [(q, o)] a s'
| script_more p s q p1 s1 o l a s' : runs p s q p1 s1 [] o → script p1 s1 l a s' → script p s ((q, o) :: l) a s'.

(** The first program has sent [o]; what one sends is what the other takes in. *)
Fixpoint dual (o : list msg) (la lb : list (list msg * list msg)) {struct lb} : Prop :=
  match lb with
  | [] => la = [] ∧ o = []
  | (i', o') :: lb' => i' = o ∧
      match la with
      | [] => lb' = [] ∧ o' = []
      | (i2, o2) :: la' => i2 = o' ∧ dual o2 la' lb'
      end
  end.

Section script.
Context {S A B : Type}.
Lemma script_prefix (p p1 : proc S A) s s1 q q1 o l a s' : runs p s q p1 s1 q1 [] → script p1 s1 ((q1, o) :: l) a s' →
  script p s ((q, o) :: l) a s'.
Proof.
  intros Hr Hs. inversion Hs; subst; [apply script_last|eapply script_more; [|done]];
    change o with ([] ++ o); by eapply runs_trans.
Qed.
Lemma script_bind (k : A → proc S B) (p : proc S A) s l a b s' : script p s l a s' → k a = Done b →
  script (proc_bind k p) s l b s'.
Proof.
  intros Hs Hk. induction Hs as [p s q a s' o Hr|p s q p1 s1 o l a s' Hr _ IH].
  - apply script_last. rewrite <- (app_nil_r o). eapply runs_seq; [exact Hr|]. rewrite Hk. constructor.
  - eapply script_more; [by apply runs_bind|by apply IH].
Qed.
End script.

(** Two conversations that fit together are a run of the two machines. *)
Lemma talk {SA A SB B} (a : A) (b : B) (tb : SB) (lb : list (list msg * list msg)) : ∀ (pA : proc SA A) s ta i o la (pB : proc SB B) t,
  script pA s ((i, o) :: la) a ta → script pB t lb b tb → dual o la lb →
  rtc net_step (mkLinked pA s pB t [] i) (mkLinked (Done a) ta (Done b) tb [] []).
Proof.
  induction lb as [|[i' o'] lb IH]; intros pA s ta i o la pB t HA HB Hd; [by inversion HB|].
  cbn in Hd. destruct la as [|[i2 o2] la].
  - destruct Hd as (-> & -> & ->). inversion HA as [? ? ? ? ? ? RA|? ? ? ? ? ? ? ? ? RA NA]; subst; [|by inversion NA].
    inversion HB as [? ? ? ? ? ? RB|? ? ? ? ? ? ? ? ? RB NB]; subst; [|by inversion NB].
    eapply runs_net_a; [exact RA|]. eapply runs_net_b; [exact RB|]. apply rtc_refl.
  - destruct Hd as (-> & -> & Hd). inversion HA as [|? ? ? p1 s1 ? ? ? ? RA NA]; subst.
    eapply runs_net_a; [exact RA|]. cbn [app].
    inversion HB as [? ? ? ? ? ? RB|? ? ? p2 t2 ? ? ? ? RB NB]; subst; (eapply runs_net_b; [exact RB|]); cbn [app].
    + cbn in Hd. destruct Hd as [-> ->]. inversion NA as [? ? ? ? ? ? RA2|? ? ? ? ? ? ? ? ? RA2 NA2]; subst; [|by inversion NA2].
      eapply runs_net_a; [exact RA2|]. apply rtc_refl.
    + by apply (IH _ _ _ _ _ _ _ _ NA NB).
Qed.

(** ** The post office implements the channel *)
Lemma overlay_step (d a b : list Z) : (length a ≤ length d)%nat →
  overlay (a ++ drop (length a) d) (Z.of_nat (length a)) b =
    if decide (length a + length b ≤ length d)%nat then Ok ((a ++ b) ++ drop (length (a ++ b)) d) else Fault.
Proof.
  intros Ha. unfold overlay. rewrite (proj2 (Z.leb_le 0 _)) by lia. cbn [andb].
  rewrite !length_app, length_drop, Nat2Z.id. case_decide as Hd.
  - rewrite (proj2 (Z.leb_le _ _)) by lia. f_equal. rewrite take_app_length, <- app_assoc. do 2 f_equal.
    rewrite drop_app_ge by lia. rewrite drop_drop. f_equal. lia.
  - by rewrite (proj2 (Z.leb_gt _ _)) by lia.
Qed.

Section receive.
Context (j : job) (Hj : job_ok j) (Hne : jdata j ≠ []).

Lemma arrived_length : let n := Z.of_nat (length (jdata j)) in
  Z.of_nat (length (arrived (jdata j))) = (if n mod 32 =? 0 then n - 32 else n) ∧ 0 < n ∧
  arrived (jdata j) = take (length (arrived (jdata j))) (jdata j).
Proof.
  intros n. assert (0 < n) as Hn by (unfold n; destruct (jdata j); [done|cbn; lia]). unfold arrived.
  change MaxSegmentSize with 32. fold n. destruct (Z.eqb_spec (n mod 32) 0) as [E|E].
  - rewrite length_take. split_and!; [|done|].
    + unfold n in *. change (Z.to_nat 32) with 32%nat. zcases.
    + f_equal. lia.
  - split_and!; [done|done|]. by rewrite take_ge.
Qed.

(** What the first [k] segments bring. *)
Definition brought (k : Z) : nat := Nat.min (Z.to_nat (32 * k)) (length (arrived (jdata j))).

Lemma chunk_brought k : 0 ≤ k < segments j →
  take (brought k) (jdata j) ++ chunk j k = take (brought (k + 1)) (jdata j) ∧
  brought k = Z.to_nat (k * 32) ∧ (brought (k + 1) ≤ length (jdata j))%nat ∧
  length (chunk j k) = Z.to_nat (if k =? segments j - 1 then remainder (job_payload j) else 32).
Proof.
  intros Hk. destruct (segments_spec j Hj) as (Es & Er & _). destruct arrived_length as (Ea & Hn & _).
  destruct (chunk_range j Hj k Hk) as [Hn' Hc]. unfold chunk, brought. change MaxSegmentSize with 32 in *.
  set (n := if k =? segments j - 1 then _ else _) in *.
  assert (length (take (Z.to_nat n) (drop (Z.to_nat (k * 32)) (jdata j))) = Z.to_nat n) as El
    by (rewrite length_take, length_drop; lia).
  assert (Z.to_nat (32 * k) ≤ length (arrived (jdata j)) ∧
    Nat.min (Z.to_nat (32 * (k + 1))) (length (arrived (jdata j))) = Z.to_nat (k * 32) + Z.to_nat n)%nat as [E1 E2].
  { unfold n. rewrite Er. destruct (Z.eqb_spec k (segments j - 1)), (Z.eqb_spec (Z.of_nat (length (jdata j)) mod 32) 0); zcases. }
  rewrite E2, Nat.min_l by lia. replace (32 * k) with (k * 32) by lia. split_and!; [|done|lia|done].
  by rewrite take_take_drop.
Qed.

Lemma Get_received k ms v y p d0 : 0 ≤ k < segments j → (brought k ≤ length d0)%nat →
  let d := take (brought k) (jdata j) ++ drop (brought k) d0 in
  if decide (brought (k + 1) ≤ length d0)%nat then
    MailBox_Get (mkBox (seg_mail j k :: ms) v y) p k d (k * MaxSegmentSize) =
      Ok (mkBox ms v y, with_id (job_payload j) (jid j + k), take (brought (k + 1)) (jdata j) ++ drop (brought (k + 1)) d0)
  else MailBox_Get (mkBox (seg_mail j k :: ms) v y) p k d (k * MaxSegmentSize) = Fault.
Proof.
  intros Hk Hl d. destruct (chunk_brought k Hk) as (Et & Eb & Hb & El). unfold MailBox_Get.
  cbn [SynchList_Remove messages mbind outcome_bind].
  match goal with |- context [nbSegments ?P - 1] => change P with (with_id (job_payload j) (jid j + k)) end.
  change (nbSegments (with_id (job_payload j) (jid j + k))) with (segments j).
  change (remainder (with_id (job_payload j) (jid j + k))) with (remainder (job_payload j)).
  change MaxSegmentSize with 32 in *. set (n := if k =? segments j - 1 then remainder (job_payload j) else 32) in *.
  destruct (chunk_range j Hj k Hk) as [Hn _]. change MaxSegmentSize with 32 in Hn. fold n in Hn.
  pose proof (padded_length j Hj k Hk) as Hp. cbn [mdata seg_mail].
  rewrite slice_ok by lia. change (Z.to_nat 0) with 0%nat. rewrite drop_0. unfold padded.
  rewrite take_app_length' by done. cbn [mbind outcome_bind].
  assert (length (take (brought k) (jdata j)) = brought k) as Elt.
  { rewrite length_take. unfold brought in *. lia. }
  pose proof (overlay_step d0 (take (brought k) (jdata j)) (chunk j k)) as Ho. rewrite Elt in Ho. specialize (Ho Hl).
  fold d in Ho. replace (Z.of_nat (brought k)) with (k * 32) in Ho by lia. rewrite Ho.
  rewrite Et in Ho |- *. assert (length (take (brought (k + 1)) (jdata j)) = brought (k + 1)) as Elt'
    by (rewrite length_take; lia).
  assert ((brought k + length (chunk j k))%nat = brought (k + 1)) as Ebk.
  { rewrite <- Elt', <- Et, length_app. lia. }
  rewrite Ebk. clear Ho. case_decide; [|reflexivity]. cbn [mbind outcome_bind]. by rewrite Elt'.
Qed.

Lemma brought_all : brought (segments j) = length (arrived (jdata j)) ∧ 1 ≤ segments j.
Proof.
  destruct (segments_spec j Hj) as (Es & _ & _). destruct arrived_length as (Ea & Hn & _). unfold brought. rewrite Es.
  destruct (Z.eqb_spec (Z.of_nat (length (jdata j)) mod 32) 0); split; zcases.
Qed.

(** The payload once the last segment is in. *)
Definition last_payload : Payload := with_id (job_payload j) (jid j + (segments j - 1)).

Lemma loop_received m : ∀ k ms v y d0 n, segments j - k = Z.of_nat m → 1 ≤ k → (m ≤ n)%nat → (brought k ≤ length d0)%nat →
  receive_loop n (mkBox ((seg_mail j <$> seqZ k (segments j - k)) ++ ms) v y) (with_id (job_payload j) (jid j + (k - 1))) k
    (take (brought k) (jdata j) ++ drop (brought k) d0) =
  if decide (length (arrived (jdata j)) ≤ length d0)%nat then
    Ok (mkBox ms v y, last_payload, arrived (jdata j) ++ drop (length (arrived (jdata j))) d0) else Fault.
Proof.
  destruct brought_all as [Eb Hs]. destruct arrived_length as (_ & _ & Et).
  induction m as [|m IH]; intros k ms v y d0 n Hm Hk Hn Hl.
  - assert (k = segments j) as -> by lia. rewrite Z.sub_diag. cbn [seqZ fmap app].
    rewrite Eb in *. rewrite decide_True, <- Et by done.
    destruct n; cbn [receive_loop]; change (nbSegments (with_id _ _)) with (segments j); by rewrite Z.ltb_irrefl.
  - destruct n as [|n]; [lia|]. cbn [receive_loop]. change (nbSegments (with_id _ _)) with (segments j).
    rewrite (proj2 (Z.ltb_lt _ _)) by lia. rewrite seqZ_cons by lia. rewrite fmap_cons. cbn [app].
    pose proof (Get_received k ((seg_mail j <$> seqZ (Z.succ k) (Z.pred (segments j - k))) ++ ms) v y
      (with_id (job_payload j) (jid j + (k - 1))) d0 ltac:(lia) Hl) as HG. cbv zeta in HG.
    assert (brought (k + 1) ≤ brought (segments j))%nat as Hmono by (unfold brought; lia). rewrite Eb in Hmono.
    destruct (decide (brought (k + 1) ≤ length d0)%nat) as [Hd|Hd]; rewrite HG; cbn [mbind outcome_bind].
    + replace (Z.succ k) with (k + 1) by lia. replace (Z.pred (segments j - k)) with (segments j - (k + 1)) by lia.
      replace k with (k + 1 - 1) at 3 by lia. apply IH; [lia|lia|lia|done].
    + by rewrite decide_False by lia.
Qed.

Lemma ReceivePayload_received po p box d ms v y : numBoxes po = Z.of_nat (length (boxes po)) →
  arr_get (boxes po) box = Ok (mkBox (mails j (segments j) ++ ms) v y) →
  ReceivePayload po p box d = (d' ← received d (jdata j);
    Ok (with_boxes po (<[Z.to_nat box := mkBox ms v y]> (boxes po)), last_payload, d')).
Proof.
  intros Hnum Hb. pose proof (arr_get_dom _ _ _ Hb) as Hd. destruct brought_all as [Eb Hs]. unfold ReceivePayload, received.
  rewrite Hnum, (proj2 (Z.leb_le _ _)), (proj2 (Z.ltb_lt _ _)) by lia. cbn [andb ASSERT mbind outcome_bind].
  destruct (bzero_string d) as [d0| | |]; try done. cbn [mbind outcome_bind]. rewrite Hb. cbn [mbind outcome_bind].
  unfold mails. rewrite seqZ_cons by lia. rewrite fmap_cons. cbn [app].
  set (rest := (seg_mail j <$> seqZ (Z.succ 0) (Z.pred (segments j))) ++ ms).
  pose proof (Get_received 0 rest v y p d0 ltac:(lia)) as HG. change (brought 0) with 0%nat in HG.
  specialize (HG ltac:(lia)). cbv zeta in HG. rewrite take_0, drop_0 in HG. cbn [app] in HG. change (0 * MaxSegmentSize) with 0 in HG.
  unfold overlay. change (0 <=? 0) with true. cbn [andb]. rewrite Z.add_0_l.
  assert (brought (0 + 1) ≤ length (arrived (jdata j)))%nat as Hmono by (unfold brought; lia).
  destruct (decide (brought (0 + 1) ≤ length d0)%nat) as [H1|H1]; rewrite HG; cbn [mbind outcome_bind messages].
  - assert (rest = (seg_mail j <$> seqZ 1 (segments j - 1)) ++ ms) as -> by (unfold rest; do 3 f_equal; lia).
    change (0 + 1) with 1 in *. change (with_id (job_payload j) (jid j + 0)) with (with_id (job_payload j) (jid j + (1 - 1))).
    rewrite (loop_received (Z.to_nat (segments j - 1)) 1); [|lia|lia| |done].
    2: { rewrite length_app, length_fmap, length_seqZ. lia. }
    case_decide.
    + cbn [mbind outcome_bind]. rewrite arr_set_in by done. cbn [mbind outcome_bind].
      rewrite (proj2 (Z.leb_le _ _)) by lia. reflexivity.
    + by rewrite (proj2 (Z.leb_gt _ _)) by lia.
  - by rewrite (proj2 (Z.leb_gt _ _)) by lia.
Qed.
End receive.

(** C20: The post office implements the channel.  Over a network that loses what
    it likes, once [SendPayload] has returned TRUE, [ReceivePayload] on the
    other machine does exactly what a [Recv] of the message does with its
    buffer, for every message and every buffer: it fails when the buffer holds
    no zero byte or is too short, and otherwise copies the message, without its
    last 32 bytes when its length is a multiple of 32. *)
Theorem channel_implemented fill j l l' p d : length fill = Z.to_nat MaxWireSize → job_ok j → jdata j ≠ [] →
  link_start j l → rtc (link_step fill j) l l' → sphase (snd l') = Returned true → taken l' = [] →
  ∃ po, ReceivePayload (lb l') p (jbb j) d = (d' ← received d (jdata j); Ok (po, last_payload j, d')).
Proof.
  intros Hf Hj Hne Hs Hr Hph Htk. destruct (inv_reachable fill j Hf Hj l l' Hs Hr) as (k & w & Hi).
  pose proof Hi as [Hord (_ & _ & Hp) _ _ [_ Hnum] _ (ms & y & Hb & Ht) _ _]. rewrite Hph in Hp. rewrite Htk in Ht. cbn [app] in Ht.
  assert (w = segments j) as -> by lia. rewrite Ht, <- (app_nil_r (mails j (segments j))) in Hb.
  eexists. apply (ReceivePayload_received j Hj Hne (lb l') p (jbb j) d [] _ y Hnum Hb).
Qed.
Lemma channel_implemented_witness : ∃ l' po, rtc (link_step demo_fill demo_job) demo_link l' ∧
  ReceivePayload (lb l') Payload_zero 1 (replicate 42 0) = Ok (po, last_payload demo_job, seqZ 1 40 ++ [0; 0]).
Proof.
  destruct demo_run as (l' & Hr & Hp & Ht).
  destruct (channel_implemented demo_fill demo_job demo_link l' Payload_zero (replicate 42 0) eq_refl demo_job_ok) as (po & E).
  - discriminate.
  - exact demo_link_start.
  - exact Hr.
  - exact Hp.
  - exact Ht.
  - exists l', po. split; [exact Hr|]. exact E.
Defined.
