(* ===== verification/Connection.v ===== *)
(** * A machine with a connection

    [PostOffice::Connect], [Listen], [Send], [Receive] and [Disconnect] as
    programs (Channel.v) of a machine with one connection.  The rest of the
    machine is a parameter: a file system (Transfer.v) or processes
    (Migrate.v). *)
From S2P Require Import Prelude BitMap Memory FileHdr Directory Network Post PostNet Channel.

(** A [char *] used as a string. *)
Fixpoint string_of (l : list Z) : outcome (list Z) :=
  match l with
  | [] => Fault
  | c :: l' => if c =? 0 then Ok [] else s ← string_of l'; Ok (c :: s)
  end.

(** [new char[n]], or an array of variable length, with the bytes [g n]. *)
Definition array_of (g : Z → list Z) (n : Z) : outcome (list Z) := if n <? 0 then Fault else Ok (g n).

(** A machine with a connection: its box ([pOut->mailHdr.from]), and from the
    [Payload] [pIn] the box of the last message, its sender and its size.  The
    first message of an accepted connection comes in [LISTEN_BOX]. *)
Record Node (H T : Type) := mkNode {
  host : H;
  usedBoxes : BitMap;
  netAddr : Z;
  cbox : Z; inBox : Z; from : Z; msgSize : Z;
  self : T
}.
Arguments mkNode {H T}.
Arguments host {H T}.
Arguments usedBoxes {H T}.
Arguments netAddr {H T}.
Arguments cbox {H T}.
Arguments inBox {H T}.
Arguments from {H T}.
Arguments msgSize {H T}.
Arguments self {H T}.

Section node.
Context {H T : Type}.
Implicit Types nd : Node H T.

Definition with_host nd (f : H) : Node H T :=
  mkNode f (usedBoxes nd) (netAddr nd) (cbox nd) (inBox nd) (from nd) (msgSize nd) (self nd).
Definition with_usedBoxes nd (m : BitMap) : Node H T :=
  mkNode (host nd) m (netAddr nd) (cbox nd) (inBox nd) (from nd) (msgSize nd) (self nd).
Definition with_box nd (box : Z) : Node H T :=
  mkNode (host nd) (usedBoxes nd) (netAddr nd) box (inBox nd) (from nd) (msgSize nd) (self nd).
(** [pIn] after the message [m] that came in the box. *)
Definition with_pIn nd (box : Z) (m : msg) : Node H T :=
  mkNode (host nd) (usedBoxes nd) (netAddr nd) (cbox nd) box (msg_from m) (i32 (Z.of_nat (length (msg_bytes m)))) (self nd).
Definition with_self nd (a : T) : Node H T :=
  mkNode (host nd) (usedBoxes nd) (netAddr nd) (cbox nd) (inBox nd) (from nd) (msgSize nd) a.

(** [postOffice->Send(c, data, size)] of all [size] bytes, with its answer:
    FALSE when [SendPayload] gives up ([Channel.reply]). *)
Definition PO_Send (messageType : Z) (data : list Z) : proc (Node H T) bool :=
  a ← local (gets netAddr); Send (mkMsg a messageType data) Done.
(** [postOffice->Receive(c, data)]. *)
Definition PO_Receive (data : list Z) : proc (Node H T) (list Z) :=
  '(d, m) ← Recv data (λ d m, Done (d, m));
  _ ← local (modify (λ nd, with_pIn nd (cbox nd) m));
  Done d.

(** [usedBoxes->Find()]. *)
Definition find_box : M (Node H T) Z := λ nd,
  '(box, m) ← Find (usedBoxes nd); Ok (box, with_usedBoxes nd m).
(** [PostOffice::Connect]: whether there is a connection. *)
Definition PO_Connect (g : Z → list Z) (addr timestamp : Z) : proc (Node H T) bool :=
  me ← local (gets netAddr);
  if addr =? me then Done false
  else
    box ← local find_box;
    if box =? -1 then Done false
    else
      buffer ← try (array_of g MaxSegmentSize);
      _ ← PO_Send CONN (le32 timestamp);
      _ ← local (modify (λ nd, with_box nd box));
      d ← PO_Receive buffer;
      s ← try (string_of d);
      _ ← check (bool_decide (s = [67]));
      Done true.
Definition PO_Listen (g : Z → list Z) : proc (Node H T) bool :=
  buffer ← try (array_of g MaxSegmentSize);
  box ← local find_box;
  if box =? -1 then Done false
  else
    _ ← local (modify (λ nd, with_box nd box));
    '(_, m) ← Recv buffer (λ d m, Done (d, m));
    _ ← local (modify (λ nd, with_pIn nd LISTEN_BOX m));
    _ ← check (msg_type m =? CONN);
    _ ← PO_Send DATA [67; 0];
    Done true.
(** The box that is given back is that of the last message; the messages that
    are still in it are dropped with it. *)
Definition PO_Disconnect : proc (Node H T) unit :=
  local (λ nd, m ← Clear (usedBoxes nd) (inBox nd); Ok (tt, with_usedBoxes nd m)).
End node.

(** ** Buffers *)

(** A message that fits into the array. *)
Lemma received_prefix d m : 0 ∈ d → (length m ≤ length d)%nat → Z.of_nat (length m) mod 32 ≠ 0 →
  ∃ r, received d m = Ok (m ++ r) ∧ (length r = length d - length m)%nat.
Proof.
  intros Hz Hl Hm. destruct (bzero_string_ok d Hz) as (d' & E & El). unfold received, arrived.
  rewrite E. cbn [mbind outcome_bind]. change MaxSegmentSize with 32. rewrite (proj2 (Z.eqb_neq _ 0)) by done.
  rewrite overlay_head by lia. eexists. split; [done|]. rewrite length_drop. lia.
Qed.
Lemma received_exact d m : 0 ∈ d → length d = length m → Z.of_nat (length m) mod 32 ≠ 0 → received d m = Ok m.
Proof.
  intros Hz Hl Hm. destruct (received_prefix d m Hz) as (r & -> & Hr); [lia|done|].
  rewrite Hl, Nat.sub_diag in Hr. apply nil_length_inv in Hr as ->. by rewrite app_nil_r.
Qed.

Lemma string_of_spec s r : is_string s → string_of (s ++ 0 :: r) = Ok s.
Proof.
  induction s as [|c s IH]; [done|]. intros [Hc Hs]%Forall_cons. cbn [app string_of].
  rewrite (proj2 (Z.eqb_neq c 0)) by lia. by rewrite IH.
Qed.

(** Run the first call of the program with [t], go on behind it. *)
Ltac quiet t := eapply runs_quiet; [t|].
Ltac sends t := eapply runs_sends; [t|reflexivity|].

(** ** The calls on one machine *)
Section calls.
Context {H T : Type}.
Implicit Types (nd : Node H T) (q : list msg).

Lemma send_runs ty data nd q : runs (PO_Send ty data) nd q (Done true) nd q [mkMsg (netAddr nd) ty data].
Proof. quiet ltac:(by apply runs_local). apply runs_send. Qed.
(** After the message [m]. *)
Definition heard nd (m : msg) : Node H T :=
  with_pIn nd (cbox nd) m.
Lemma receive_runs d m l nd q : received d (msg_bytes m) = Ok l →
  runs (PO_Receive d) nd (m :: q) (Done l) (heard nd m) q [].
Proof.
  intros E. quiet ltac:(by apply (runs_recv d (λ d m, Done (d, m)))). quiet ltac:(by apply runs_local). constructor.
Qed.
Lemma array_of_ok (g : Z → list Z) n : 0 ≤ n → array_of g n = Ok (g n).
Proof. intros Hn. unfold array_of. by rewrite (proj2 (Z.ltb_ge _ _)). Qed.

(** [Listen] takes the first free box. *)
Lemma listen_runs (nd : Node H T) (g : Z → list Z) w t box m q r : Find (usedBoxes nd) = Ok (box, m) → 0 ≤ box →
  received (g MaxSegmentSize) (le32 t) = Ok (le32 t ++ r) →
  runs (PO_Listen g) nd (mkMsg w CONN (le32 t) :: q) (Done true)
    (with_pIn (with_box (with_usedBoxes nd m) box) LISTEN_BOX (mkMsg w CONN (le32 t))) q [mkMsg (netAddr nd) DATA [67; 0]].
Proof.
  intros Ef Hbox Hr. unfold PO_Listen. quiet ltac:(by apply runs_try, array_of_ok).
  quiet ltac:(apply runs_local; unfold find_box; rewrite Ef; reflexivity).
  rewrite (proj2 (Z.eqb_neq box (-1))) by lia. quiet ltac:(by apply runs_local).
  quiet ltac:(by apply (runs_recv _ (λ d m, Done (d, m)))). quiet ltac:(by apply runs_local).
  quiet ltac:(by apply runs_check). sends ltac:(apply send_runs). apply runs_refl.
Qed.

(** [Connect]: the request, and the way on when the other side accepts. *)
Lemma connect_runs (nd : Node H T) (g : Z → list Z) box m addr t q : addr ≠ netAddr nd → Find (usedBoxes nd) = Ok (box, m) → 0 ≤ box →
  runs (PO_Connect g addr t) nd q
    (d ← PO_Receive (g MaxSegmentSize); s ← try (string_of d); _ ← check (bool_decide (s = [67])); Done true)
    (with_box (with_usedBoxes nd m) box) q [mkMsg (netAddr nd) CONN (le32 t)].
Proof.
  intros Ha Ef Hbox. unfold PO_Connect. quiet ltac:(by apply runs_local). rewrite (proj2 (Z.eqb_neq _ _)) by done.
  quiet ltac:(apply runs_local; unfold find_box; rewrite Ef; reflexivity). rewrite (proj2 (Z.eqb_neq box (-1))) by lia.
  quiet ltac:(by apply runs_try, array_of_ok). sends ltac:(apply send_runs). quiet ltac:(by apply runs_local). apply runs_refl.
Qed.
(** When the request is given up, whether it has arrived or not, [Connect] does
    not notice: it goes on to wait for the answer, for ever if none comes. *)
Lemma connect_given_up (nd : Node H T) (g : Z → list Z) box m addr t arrived : addr ≠ netAddr nd → Find (usedBoxes nd) = Ok (box, m) → 0 ≤ box →
  ∃ p p' nd1 out, runs (PO_Connect g addr t) nd [] p nd1 [] [] ∧
    advance (GivenUp arrived) p nd1 [] = Some (p', nd1, [], out) ∧
    runs p' nd1 [] (d ← PO_Receive (g MaxSegmentSize); s ← try (string_of d); _ ← check (bool_decide (s = [67])); Done true)
      (with_box nd1 box) [] [].
Proof.
  intros Ha Ef Hbox. eexists _, _, _, _. split; [|split].
  - unfold PO_Connect. quiet ltac:(by apply runs_local). rewrite (proj2 (Z.eqb_neq _ _)) by done.
    quiet ltac:(apply runs_local; unfold find_box; rewrite Ef; reflexivity). rewrite (proj2 (Z.eqb_neq box (-1))) by lia.
    quiet ltac:(by apply runs_try, array_of_ok).
    apply runs_bind. quiet ltac:(by apply runs_local). apply runs_refl.
  - reflexivity.
  - cbn [answer]. quiet ltac:(by apply runs_local). apply runs_refl.
Qed.
Lemma waits_for_answer (nd : Node H T) d (k : list Z → proc (Node H T) bool) r :
  advance r (x ← PO_Receive d; k x) nd [] = None ∧ stops (x ← PO_Receive d; k x) nd [] = None.
Proof. done. Qed.

Lemma connected_runs (nd : Node H T) d w q : 0 ∈ d → (2 ≤ length d)%nat →
  let m := mkMsg w DATA [67; 0] in
  runs (d ← PO_Receive d; s ← try (string_of d); _ ← check (bool_decide (s = [67])); Done true) nd (m :: q)
    (Done true) (heard nd m) q [].
Proof.
  intros Hz Hl m. destruct (received_prefix d [67; 0] Hz) as (r & Hr & _); [done|done|].
  quiet ltac:(by apply receive_runs). quiet ltac:(apply runs_try, (string_of_spec [67] r); by repeat constructor). quiet ltac:(by apply runs_check). apply runs_refl.
Qed.
End calls.
