(* ===== verification/FileHandler.v ===== *)
(** * network/ftp.cc: the class [FileHandler]

    What the file transfer does to the file system of its machine: it asks for
    the size of a file and reads it whole, or creates a file and writes it
    whole.  On a well-formed file system both succeed and do just that
    ([load_spec], [store_spec]); the queries and [CloseUser] of the file system
    that they rest on have their specifications here too. *)
From S2P Require Import Prelude BitMap Memory Disk FileHdr FileGrow Directory FileSys FileSysInv FileSysOps FileSysUse FileSysRW Network.

(** ** Queries and closing *)
Section queries.
Context {D : Type} `{SectorStore D}.
Variable junkE : nat → DirectoryEntry.
Implicit Types (d : D) (fs : FileSystem D) (A : astate) (x : file) (f : OpenFile).

(** The data file a name of the current directory stands for. *)
Definition data_file A (t : Directory) (nm : list Z) : option (Z * file) :=
  match dir_map t !! key nm with
  | Some r => match a_files A !! r with
              | Some x => if IsDataFile (fhdr x) then Some (r, x) else None
              | None => None
              end
  | None => None
  end.

(** What a query leaves: the state with other timing on the disk. *)
Definition asked fs A fs' : Prop :=
  ∃ d, fs' = with_disk fs d ∧ fs_wf fs' A ∧ same_content (fdisk fs) d.
Lemma asked_trans fs A fs1 fs2 : asked fs A fs1 → asked fs1 A fs2 → asked fs A fs2.
Proof.
  intros (d1 & -> & _ & H1) (d2 & -> & Hw & H2). exists d2. rewrite with_disk_twice in *. split; [done|]. split; [done|].
  intros m. rewrite H2. apply H1.
Qed.

Lemma FileExists_spec fuel tid fs A t nm : fs_wf fs A → a_dirs A !! DirectorySector fs = Some t →
  ∃ fs', FileSystem_FileExists junkE (S (S fuel)) tid fs nm = Ok (bool_decide (is_Some (dir_map t !! key nm)), fs') ∧ asked fs A fs'.
Proof.
  intros Hw Ht. pose proof Hw as [Hdw (L1 & L2 & L3) _ _ _]. unfold FileSystem_FileExists.
  destruct (enter_dir junkE fuel tid fs A t Hw Ht) as (d & -> & E & Hd & Hc & Hdw1 & Hwt & _).
  cbn [mbind outcome_bind]. cbn [directoryFile with_dirMutex]. rewrite E. cbn [mbind outcome_bind].
  exists (with_disk fs d). destruct (find_entry d A _ t nm Hdw1 Ht Hwt) as [[-> ->]|(r & y & -> & -> & _ & Hr & _)];
    cbn [mbind outcome_bind]; (split; [|by exists d; split_and!; [|apply fs_wf_same|]]).
  - by apply unlock_dir_held.
  - rewrite bool_decide_true by done. rewrite (proj2 (Z.eqb_neq r (-1))) by lia. by apply unlock_dir_held.
Qed.

(** [IsDataFile] and [GetFileSize] read the header the name leads to. *)
Lemma header_query {R} fuel tid fs A t nm (none : R) (some : FileHeader → R) :
  fs_wf fs A → a_dirs A !! DirectorySector fs = Some t →
  ∃ fs', (fs1 ← lock_dir tid fs; '(directory, fs2) ← fetch_dir junkE (S (S fuel)) fs1 (directoryFile fs1);
    sec ← Directory_Find directory nm;
    if sec =? -1 then unlock_dir_ret tid none fs2
    else '(h, fs3) ← fetch_header fs2 sec; unlock_dir_ret tid (some h) fs3) =
  Ok (match dir_map t !! key nm with
      | Some r => match a_files A !! r with Some x => some (fhdr x) | None => none end
      | None => none end, fs') ∧ asked fs A fs'.
Proof.
  intros Hw Ht. pose proof Hw as [Hdw (L1 & L2 & L3) _ _ _].
  destruct (enter_dir junkE fuel tid fs A t Hw Ht) as (d & -> & E & Hd & Hc & Hdw1 & Hwt & _).
  cbn [mbind outcome_bind]. cbn [directoryFile with_dirMutex]. rewrite E. cbn [mbind outcome_bind].
  destruct (find_entry d A _ t nm Hdw1 Ht Hwt) as [[-> ->]|(r & x & -> & -> & Hx & Hr & _)]; cbn [mbind outcome_bind].
  - exists (with_disk fs d). split; [by apply unlock_dir_held|]. exists d. by split_and!; [|apply fs_wf_same|].
  - rewrite (proj2 (Z.eqb_neq r (-1))) by lia. rewrite Hx.
    destruct (fetch_header_spec (with_disk (with_dirMutex fs (Some tid)) d) A r x Hdw1 Hx) as (d2 & -> & Hd2 & Hc2).
    cbn [mbind outcome_bind]. rewrite with_disk_twice. exists (with_disk fs d2). split; [by apply unlock_dir_held|].
    assert (same_content (fdisk fs) d2) by (intros m; by rewrite Hc2, Hc). exists d2. by split_and!; [|apply fs_wf_same|].
Qed.

(** [CloseUser] frees the descriptor and touches nothing else. *)
Lemma CloseUser_spec tid fs A i s x f : fs_wf fs A → opens fs A i s x f →
  ∃ m l, FileSystem_CloseUser tid fs i = Ok (0, with_opened fs m l) ∧ fs_wf (with_opened fs m l) A ∧
    updates (openedFileMap fs) m i false ∧ l = <[Z.to_nat i := mkUserFile None s None]> (openedFiles fs).
Proof.
  intros Hw Ho. pose proof Hw as [Hdw (L1 & L2 & L3) Hmap Hcwd [(Hom & Hon & Hol) Hof Hinj]].
  pose proof (o_index _ _ _ _ _ _ Ho) as Hi. pose proof (o_entry _ _ _ _ _ _ Ho) as He.
  unfold FileSystem_CloseUser. rewrite lock_open_free by done. cbn [mbind outcome_bind].
  rewrite (proj2 (Z.ltb_lt i _)) by lia. cbn [openedFileMap with_openMutex].
  rewrite Test_spec by (done || lia). rewrite (o_bit _ _ _ _ _ _ Ho). cbn [mbind outcome_bind].
  assert (∀ (l : list UserFile) u, length l = length (openedFiles fs) → arr_get (<[Z.to_nat i := u]> l) i = Ok u) as Hget.
  { intros l u Hl. apply arr_get_Ok. split; [lia|]. apply list_lookup_insert_eq. unfold MaxOpenedFiles in *. lia. }
  assert (∀ (l : list UserFile) u, length l = length (openedFiles fs) → arr_set l i u = Ok (<[Z.to_nat i := u]> l)) as Hset.
  { intros l u Hl. apply arr_set_in. unfold MaxOpenedFiles in *. lia. }
  assert (arr_get (openedFiles fs) i = Ok (mkUserFile (Some f) s (Some None))) as He'
    by (apply arr_get_Ok; split; [lia|done]).
  unfold lock_file. cbn [openedFiles with_openMutex]. rewrite He'. cbn [mbind outcome_bind deref umutex mutex_acquire object id].
  rewrite Hset by done. cbn [mbind outcome_bind openedFileMap with_opened with_openMutex].
  destruct (Clear_spec (openedFileMap fs) i Hom) as (m & -> & Hu); [lia|]. cbn [mbind outcome_bind].
  unfold set_object. cbn [openedFiles with_opened]. rewrite Hget by done. cbn [mbind outcome_bind id umutex object].
  rewrite Hset by (by rewrite length_insert). cbn [mbind outcome_bind]. unfold unlock_file. cbn [openedFiles with_opened].
  rewrite list_insert_insert_eq, Hget by done. cbn [mbind outcome_bind deref umutex mutex_release].
  unfold mutex_release at 1. rewrite Z.eqb_refl. cbn [ASSERT mbind outcome_bind object id]. rewrite Hset by (by rewrite length_insert).
  cbn [mbind outcome_bind openedFiles with_opened]. rewrite list_insert_insert_eq, Hget by done. cbn [mbind outcome_bind object id].
  rewrite Hset by (by rewrite length_insert). cbn [mbind outcome_bind]. unfold unlock_open, mutex_release.
  cbn [openedFileMutex with_opened with_openMutex]. rewrite Z.eqb_refl. cbn [ASSERT mbind outcome_bind].
  rewrite list_insert_insert_eq. exists m, (<[Z.to_nat i := mkUserFile None s None]> (openedFiles fs)).
  split; [|split; [|by split]].
  - do 2 f_equal. unfold with_opened, with_openMutex. cbn. by rewrite L3.
  - destruct Hu as (Hm & Hmn & Hb). constructor; cbn [fdisk freeMapMutex directoryMutex openedFileMutex freeMapFile directoryFile DirectorySector openedFileMap openedFiles with_opened]; try done.
    assert (∀ j, 0 ≤ j < MaxOpenedFiles → bit m j = true → j ≠ i ∧ bit (openedFileMap fs) j = true) as Hold.
    { intros j Hj Hbj. rewrite Hb in Hbj by lia. by case_decide. }
    constructor.
    + split; [done|]. split; [congruence|]. by rewrite length_insert.
    + intros j Hj Hbj. destruct (Hold j Hj Hbj) as [Hne Hbj']. rewrite list_lookup_insert_ne by lia. by apply Hof.
    + intros j k u v Hj Hk Hbj Hbk Hju Hkv Eid. destruct (Hold j Hj Hbj), (Hold k Hk Hbk).
      rewrite list_lookup_insert_ne in Hju by lia. rewrite list_lookup_insert_ne in Hkv by lia. by apply (Hinj j k u v).
Qed.

(** The file can be opened again. *)
Lemma CloseUser_closed tid fs A i s x f t nm : fs_wf fs A → opens fs A i s x f → dir_map t !! key nm = Some s →
  ∃ fs', FileSystem_CloseUser tid fs i = Ok (0, fs') ∧ fs_wf fs' A ∧ fdisk fs' = fdisk fs ∧
    DirectorySector fs' = DirectorySector fs ∧ closed_file fs' A t nm s x ∧ free_set (openedFileMap fs') ≠ ∅.
Proof.
  intros Hw Ho Hnm. destruct (CloseUser_spec tid fs A i s x f Hw Ho) as (m & l & E & Hw' & (Hm & Hmn & Hb) & ->).
  pose proof (fw_open _ _ Hw) as [(_ & Hon & _) _ Hinj]. pose proof (o_index _ _ _ _ _ _ Ho) as Hi.
  eexists. split; [exact E|]. split; [done|]. split; [done|]. split; [done|]. split.
  - split; [done|]. split; [apply Ho|]. split; [apply Ho|]. intros j u Hj Hbj Hu Hid. cbn in Hbj, Hu.
    rewrite Hb in Hbj by lia. destruct (decide (j = i)) as [|Hne]; [done|]. rewrite list_lookup_insert_ne in Hu by lia.
    apply Hne. apply (Hinj j i u _ Hj Hi Hbj (o_bit _ _ _ _ _ _ Ho) Hu (o_entry _ _ _ _ _ _ Ho) Hid).
  - change (free_set m ≠ ∅). intros He. assert (i ∈ free_set m) as Hin; [|rewrite He in Hin; set_solver].
    apply elem_of_free_set. split; [lia|]. rewrite Hb by lia. by rewrite decide_True.
Qed.
End queries.

(** ** The class [FileHandler] *)
Section file_handler.
Context {D : Type} `{SectorStore D}.
Variable junk : list Z.
Variable junkB fill : nat → Z.
Variable junkE : nat → DirectoryEntry.
Variable fuel : nat.
Variable tid : Z.
Implicit Types (fs : FileSystem D) (nm : list Z).

Definition FileHandler_FileExists nm fs : outcome (bool * FileSystem D) :=
  '(data, fs1) ← FileSystem_IsDataFile junkE fuel tid fs nm;
  if (data : bool) then FileSystem_FileExists junkE fuel tid fs1 nm else Ok (false, fs1).

Definition FileHandler_CreateFile nm fs : outcome (Z * FileSystem D) :=
  '(exists_, fs1) ← FileSystem_FileExists junkE fuel tid fs nm;
  if (exists_ : bool) then Ok (-1, fs1)
  else
    '(ok, fs2) ← FileSystem_Create junk junkB fill junkE fuel tid fs1 nm 0;
    Ok (if (ok : bool) then 0 else -1, fs2).

Definition FileHandler_FileSize nm fs : outcome (Z * FileSystem D) :=
  '(exists_, fs1) ← FileHandler_FileExists nm fs;
  if negb exists_ then Ok (-1, fs1) else FileSystem_GetFileSize junkE fuel tid fs1 nm.

Definition FileHandler_OpenFile nm fs : outcome (Z * FileSystem D) := FileSystem_OpenUser junkE fuel tid fs nm.

(** The result and the array [buffer], which two reads write. *)
Definition FileHandler_ReadFile (fd : Z) (buffer : list Z) (fileSize : Z) fs : outcome (Z * list Z * FileSystem D) :=
  let result (r : option (list Z)) := match r with Some l => Z.of_nat (length l) | None => -1 end in
  '(r1, fs1) ← FileSystem_ReadUser fuel tid fs fileSize fd;
  buffer1 ← overlay buffer 0 (default [] r1);
  if negb (result r1 =? fileSize) then Ok (-1, buffer1, fs1)
  else
    '(r2, fs2) ← FileSystem_ReadUser fuel tid fs1 fileSize fd;
    buffer2 ← overlay buffer1 0 (default [] r2);
    if negb (result r2 =? 0) then Ok (-1, buffer2, fs2) else Ok (0, buffer2, fs2).

(** [buffer] has at least [fileSize] bytes, of which these are written. *)
Definition FileHandler_WriteFile (fd : Z) (buffer : list Z) (fileSize : Z) fs : outcome (Z * FileSystem D) :=
  data ← slice buffer 0 fileSize;
  '(bytesWritten, fs1) ← FileSystem_WriteUser junk junkB fill fuel tid fs data fd;
  Ok (if negb (bytesWritten =? fileSize) then -1 else 0, fs1).

Definition FileHandler_CloseFile (fd : Z) fs : outcome (Z * FileSystem D) := FileSystem_CloseUser tid fs fd.

Definition FileHandler_RemoveFile nm fs : outcome (unit * FileSystem D) :=
  '(_, fs1) ← FileSystem_Remove junkB fill junkE fuel tid fs nm; Ok (tt, fs1).
End file_handler.

(** ** What they do on a well-formed file system *)
Section spec.
Context {D : Type} `{SectorStore D}.
Variable junkE : nat → DirectoryEntry.
Implicit Types (d : D) (fs : FileSystem D) (A : astate) (x : file) (f : OpenFile).

Lemma asked_cwd fs A fs' t : asked fs A fs' → a_dirs A !! DirectorySector fs = Some t →
  fs_wf fs' A ∧ a_dirs A !! DirectorySector fs' = Some t ∧ openedFileMap fs' = openedFileMap fs ∧ openedFiles fs' = openedFiles fs.
Proof. by intros (d & -> & Hw & _) Ht. Qed.
Lemma data_file_closed fs A fs' t nm r x : asked fs A fs' → closed_file fs A t nm r x → closed_file fs' A t nm r x.
Proof. intros (d & -> & _). done. Qed.

(** The size of a data file, or -1. *)
Lemma FileSize_spec fuel tid fs A t nm : fs_wf fs A → a_dirs A !! DirectorySector fs = Some t →
  ∃ fs', FileHandler_FileSize junkE (S (S fuel)) tid nm fs =
    Ok (match data_file A t nm with Some (_, x) => numBytes (fhdr x) | None => -1 end, fs') ∧ asked fs A fs'.
Proof.
  intros Hw Ht. unfold FileHandler_FileSize, FileHandler_FileExists, data_file.
  destruct (header_query junkE fuel tid fs A t nm false IsDataFile Hw Ht) as (fs1 & E1 & Ha1).
  unfold FileSystem_IsDataFile. rewrite E1. clear E1. cbn [mbind outcome_bind].
  destruct (asked_cwd fs A fs1 t Ha1 Ht) as (Hw1 & Ht1 & _).
  destruct (dir_map t !! key nm) as [r|] eqn:Er; [destruct (a_files A !! r) as [x|] eqn:Ex|]; cbn [negb]; try by exists fs1.
  destruct (IsDataFile (fhdr x)); cbn [negb mbind outcome_bind]; [|by exists fs1].
  destruct (FileExists_spec junkE fuel tid fs1 A t nm Hw1 Ht1) as (fs2 & -> & Ha2). cbn [mbind outcome_bind].
  rewrite Er, bool_decide_true by done. cbn [negb]. destruct (asked_cwd fs1 A fs2 t Ha2 Ht1) as (Hw2 & Ht2 & _).
  destruct (header_query junkE fuel tid fs2 A t nm (-1) FileLength Hw2 Ht2) as (fs3 & E3 & Ha3).
  unfold FileSystem_GetFileSize. rewrite E3, Er, Ex. exists fs3. split; [done|].
  eapply asked_trans; [exact Ha1|]. by eapply asked_trans.
Qed.
End spec.

Section load_store.
Context {D : Type} `{SectorStore D}.
Variable junkE : nat → DirectoryEntry.
Implicit Types (d : D) (fs : FileSystem D) (A : astate) (x : file) (f : OpenFile).

Definition bytes_of_file d x : list Z := file_bytes d (fhdr x) (fsecs x).

Lemma bytes_length fs A s x : fs_wf fs A → a_files A !! s = Some x →
  Z.of_nat (length (bytes_of_file (fdisk fs) x)) = numBytes (fhdr x) ∧ 0 ≤ numBytes (fhdr x).
Proof.
  intros Hw Hx. destruct (disk_file _ _ _ _ (fw_disk _ _ Hw) Hx) as (_ & _ & Hf & _).
  destruct (file_at_split _ _ _ _ Hf) as (Hs & _). pose proof Hs as (Hn & _).
  destruct (sized_blocks (fdisk fs) (fhdr x) (fsecs x) (dw_store _ _ (fw_disk _ _ Hw)) Hs) as [_ E].
  unfold bytes_of_file. rewrite E. lia.
Qed.
Lemma bytes_same d d' x : same_content d d' → bytes_of_file d' x = bytes_of_file d x.
Proof. intros Hc. apply file_bytes_ext. intros m _. apply Hc. Qed.

(** The whole of an open file is read. *)
Lemma ReadFile_spec fuel tid fs A i s x buffer : fs_wf fs A → opens fs A i s x (mkOpenFile (fhdr x) 0) →
  Z.of_nat (length buffer) = numBytes (fhdr x) →
  ∃ fs' f, FileHandler_ReadFile (S (S fuel)) tid i buffer (numBytes (fhdr x)) fs =
      Ok (0, bytes_of_file (fdisk fs) x, fs') ∧ fs_wf fs' A ∧ opens fs' A i s x f ∧
    same_content (fdisk fs) (fdisk fs') ∧ DirectorySector fs' = DirectorySector fs.
Proof.
  intros Hw Ho Hb. destruct (bytes_length fs A s x Hw (o_file _ _ _ _ _ _ Ho)) as [Hl Hn]. unfold FileHandler_ReadFile.
  destruct (ReadUser_spec fuel tid fs A i s x _ (numBytes (fhdr x)) Hw Ho) as (fs1 & E1 & Hw1 & Ho1 & Hc1 & Hcwd1); [done|].
  cbn [seekPosition] in E1, Ho1. change (Z.to_nat 0) with 0%nat in E1, Ho1. rewrite drop_0 in E1, Ho1.
  fold (bytes_of_file (fdisk fs) x) in E1, Ho1. rewrite take_ge in E1, Ho1 by lia.
  rewrite E1. cbn [mbind outcome_bind default Datatypes.id]. rewrite overlay_head by lia.
  cbn [mbind outcome_bind]. rewrite (drop_ge buffer) by lia. rewrite app_nil_r.
  rewrite Hl, Z.eqb_refl. cbn [negb].
  destruct (ReadUser_spec fuel tid fs1 A i s x _ (numBytes (fhdr x)) Hw1 Ho1) as (fs2 & E2 & Hw2 & Ho2 & Hc2 & Hcwd2); [cbn; lia|].
  cbn [seekPosition Seek] in E2, Ho2. fold (bytes_of_file (fdisk fs1) x) in E2, Ho2.
  assert (length (bytes_of_file (fdisk fs1) x) = length (bytes_of_file (fdisk fs) x)) as El by (f_equal; by apply bytes_same).
  rewrite drop_ge in E2, Ho2 by lia. rewrite take_nil in E2, Ho2. rewrite E2. cbn [mbind outcome_bind default Datatypes.id].
  rewrite overlay_head by (cbn; lia). cbn [mbind outcome_bind length Z.of_nat Z.eqb negb app]. rewrite drop_0.
  eexists fs2, _. split; [done|]. split; [done|]. split; [exact Ho2|]. split; [|congruence]. intros m. by rewrite Hc2, Hc1.
Qed.

(** A file that no descriptor refers to is opened when one is free. *)
Lemma OpenFile_spec fuel tid fs A t nm s x : fs_wf fs A → a_dirs A !! DirectorySector fs = Some t →
  closed_file fs A t nm s x → free_set (openedFileMap fs) ≠ ∅ →
  ∃ i fs', FileHandler_OpenFile junkE (S (S fuel)) tid nm fs = Ok (i, fs') ∧ 0 ≤ i ∧ fs_wf fs' A ∧
    opens fs' A i s x (mkOpenFile (fhdr x) 0) ∧ same_content (fdisk fs) (fdisk fs') ∧ DirectorySector fs' = DirectorySector fs.
Proof.
  intros Hw Ht Hcl Hfree. destruct (OpenUser_spec junkE fuel tid fs A t nm Hw Ht)
    as [(s' & x' & i & m & d & Hcl' & Hb & E & Hw' & Ho & Hc)|(Hno & _)].
  - destruct Hcl as (K1 & K2 & _), Hcl' as (K1' & K2' & _). simplify_eq.
    eexists i, _. split; [exact E|]. split; [apply Ho|]. split; [done|]. split; [done|]. by split.
  - by destruct Hfree, (Hno s x Hcl).
Qed.

(** Closing a descriptor, [CloseFile]. *)
Lemma CloseFile_spec tid fs A i s x f : fs_wf fs A → opens fs A i s x f →
  ∃ fs', FileHandler_CloseFile tid i fs = Ok (0, fs') ∧ fs_wf fs' A ∧ fdisk fs' = fdisk fs ∧ DirectorySector fs' = DirectorySector fs.
Proof. intros Hw Ho. destruct (CloseUser_spec tid fs A i s x f Hw Ho) as (m & l & E & Hw' & _). by eexists. Qed.
End load_store.

(** ** Creating and filling a file *)

(** The file [s], [x] under the name [nm] is new in [fs'], has the given bytes,
    and the other data files are what they were. *)
Record new_file {D} `{SectorStore D} (fs : FileSystem D) (A : astate) (t : Directory) (nm : list Z)
    (fs' : FileSystem D) (A' : astate) (s : Z) (x : file) (bytes : list Z) : Prop := mkNewFile {
  nf_wf : fs_wf fs' A';
  nf_cwd : DirectorySector fs' = DirectorySector fs;
  nf_files : a_files A !! s = None ∧ a_files A' = <[s := x]> (a_files A) ∧ ftype (fhdr x) = DATA_FILE;
  nf_dirs : ∃ t', a_dirs A' = <[DirectorySector fs := t']> (a_dirs A) ∧ dir_map t' = <[key nm := s]> (dir_map t);
  nf_bytes : bytes_of_file (fdisk fs') x = bytes;
  nf_others r y : a_files A !! r = Some y → IsDataFile (fhdr y) = true → r ≠ FreeMapSector →
    bytes_of_file (fdisk fs') y = bytes_of_file (fdisk fs) y
}.

Section store.
Context {D : Type} `{SectorStore D}.
Variable junk : list Z.
Variable junkB fill : nat → Z.
Variable junkE : nat → DirectoryEntry.
Hypothesis fill_bytes : ∀ k, is_u8 (fill k).
Hypothesis junk_ok : length junk = 29%nat ∧ Forall is_i32 junk.
Implicit Types (d : D) (fs : FileSystem D) (A : astate) (x : file) (f : OpenFile).

(** A new file takes its sectors from the free ones. *)
Lemma free_with_file d files fm fm' s x : exact files fm → exact (<[s := x]> files) fm' →
  layout d (<[s := x]> files) → files !! s = None →
  (size (free_set fm') + length (sectors s x))%nat = size (free_set fm).
Proof.
  intros (_ & _ & E) (_ & _ & E') Hl Hs. destruct (lay_file _ _ Hl s x) as (Hr & _ & Hf & Hn); [apply lookup_insert_eq|].
  destruct (file_at_facts d _ _ _ Hf) as (_ & Hd & Hnd & _).
  assert (NoDup (sectors s x)) as HND by (by constructor).
  assert ((list_to_set (sectors s x) : gset Z) ⊆ free_set fm) as Hsub.
  { intros m Hm%elem_of_list_to_set. apply E. split.
    - unfold sectors in Hm. apply elem_of_cons in Hm as [->|Hm]; [done|]. by apply (proj1 (Forall_forall _ _) Hd).
    - intros (r & y & Hy & Hmy). assert (r ≠ s) as Hne by congruence. apply Hne.
      by apply (lay_disjoint _ _ Hl r y s x m); [rewrite lookup_insert_ne|apply lookup_insert_eq| |]. }
  assert (free_set fm' = free_set fm ∖ list_to_set (sectors s x)) as ->.
  { apply set_eq. intros m. rewrite E', elem_of_difference, E, in_use_insert, delete_id, elem_of_list_to_set by done. tauto. }
  pose proof (subseteq_size _ _ Hsub) as Hle. rewrite size_difference by done. rewrite size_list_to_set in * by done. lia.
Qed.

Lemma Create_new_file fuel tid fs A nm t : fs_wf fs A → a_dirs A !! DirectorySector fs = Some t →
  is_string nm → creatable t nm → (1 ≤ size (free_set (a_free A)))%nat →
  ∃ fs' A' s x t', FileSystem_Create junk junkB fill junkE (S (S fuel)) tid fs nm 0 = Ok (true, fs') ∧
    new_file fs A t nm fs' A' s x [] ∧ a_dirs A' !! DirectorySector fs' = Some t' ∧ closed_file fs' A' t' nm s x ∧
    openedFileMap fs' = openedFileMap fs.
Proof.
  intros Hw Ht Hnm Hcr Hfree.
  destruct (Create_spec junk junkB fill junkE fill_bytes junk_ok fuel tid fs A nm 0 t Hw Ht Hnm)
    as (d & A' & s & E & (x & t' & fm & -> & Hw' & Hs & Hlen & Hty & Hdm & Ho)); [lia|by vm_compute| |done|].
  { change (divRoundUp 0 SectorSize) with 0. change (meta_need 0) with 0. lia. }
  rewrite E. cbn [a_files a_dirs DirectorySector with_disk] in *.
  exists (with_disk fs d), (mkA (<[s := x]> (a_files A)) (<[DirectorySector fs := t']> (a_dirs A)) fm), s, x, t'.
  split; [done|]. split; [|split; [apply lookup_insert_eq|split; [|done]]].
  - constructor; try done; cbn [a_files a_dirs].
    + by exists t'.
    + unfold bytes_of_file, file_bytes. by rewrite Hlen.
  - split; [by rewrite Hdm, lookup_insert_eq|]. split; [apply lookup_insert_eq|]. split; [unfold IsDataFile; by rewrite Hty|].
    intros i u Hi Hb Hu Hid. destruct (op_file _ _ _ (fw_open _ _ Hw) i Hi Hb) as (u' & y & f & Hu' & Hy & _).
    cbn in Hu. by simplify_eq.
Qed.

Lemma new_file_from fs A t nm fs1 fs' A' s x bytes : asked fs A fs1 → new_file fs1 A t nm fs' A' s x bytes →
  new_file fs A t nm fs' A' s x bytes.
Proof.
  intros (d & -> & _ & Hc) [N1 N2 N3 N4 N5 N6]. constructor; try done.
  intros r y Hy Hd Hr. rewrite (N6 r y Hy Hd Hr). by apply bytes_same.
Qed.

Lemma CreateFile_spec fuel tid fs A nm t : fs_wf fs A → a_dirs A !! DirectorySector fs = Some t →
  is_string nm → creatable t nm → (1 ≤ size (free_set (a_free A)))%nat →
  ∃ fs' A' s x t', FileHandler_CreateFile junk junkB fill junkE (S (S fuel)) tid nm fs = Ok (0, fs') ∧
    new_file fs A t nm fs' A' s x [] ∧ a_dirs A' !! DirectorySector fs' = Some t' ∧ closed_file fs' A' t' nm s x ∧
    openedFileMap fs' = openedFileMap fs.
Proof.
  intros Hw Ht Hnm Hcr Hfree. pose proof Hcr as (_ & _ & Hnew & _). unfold FileHandler_CreateFile.
  destruct (FileExists_spec junkE fuel tid fs A t nm Hw Ht) as (fs1 & -> & Ha). cbn [mbind outcome_bind].
  rewrite bool_decide_false by (rewrite Hnew; by intros [? ?]).
  destruct (asked_cwd fs A fs1 t Ha Ht) as (Hw1 & Ht1 & Hom & _).
  destruct (Create_new_file fuel tid fs1 A nm t Hw1 Ht1 Hnm Hcr Hfree) as (fs' & A' & s & x & t' & -> & Hn & Ht' & Hcl & Hom').
  cbn [mbind outcome_bind]. exists fs', A', s, x, t'. split; [done|]. split; [by eapply new_file_from|].
  split; [done|]. split; [done|congruence].
Qed.

(** There is room for a new file of [n] bytes. *)
Definition space_for A (n : Z) : Prop :=
  let total := divRoundUp n SectorSize in
  total ≤ 924 ∧ 1 + total + meta_need total ≤ Z.of_nat (size (free_set (a_free A))).

Lemma space_for_one A n : 0 ≤ n → space_for A n → (1 ≤ size (free_set (a_free A)))%nat.
Proof using.
  clear junk_ok. intros Hn [_ Hsp]. pose proof (divRoundUp_spec n SectorSize Hn eq_refl).
  pose proof (meta_need_nonneg (divRoundUp n SectorSize)). unfold SectorSize in *. lia.
Qed.

(** Opening and closing keep a new file new. *)
Lemma new_file_same fs A t nm fs1 fs2 A' s x bytes : new_file fs A t nm fs1 A' s x bytes → fs_wf fs2 A' →
  same_content (fdisk fs1) (fdisk fs2) → DirectorySector fs2 = DirectorySector fs1 → new_file fs A t nm fs2 A' s x bytes.
Proof.
  intros [N1 N2 N3 N4 N5 N6] Hw Hc Hd. constructor; try done; [congruence|rewrite <- N5; by apply bytes_same|].
  intros r y Hy Hdat Hr. rewrite <- (N6 r y Hy Hdat Hr). by apply bytes_same.
Qed.

(** A new file grows at its end by what is written there. *)
Lemma WriteUser_extends fuel tid fs0 A0 t nm fs A s x i bytes buf : fs_wf fs0 A0 → new_file fs0 A0 t nm fs A s x bytes →
  opens fs A i s x (mkOpenFile (fhdr x) (Z.of_nat (length bytes))) →
  Forall is_u8 buf → space_for A0 (Z.of_nat (length (bytes ++ buf))) →
  ∃ fs' A' x', FileSystem_WriteUser junk junkB fill (S (S fuel)) tid fs buf i = Ok (Z.of_nat (length buf), fs') ∧
    new_file fs0 A0 t nm fs' A' s x' (bytes ++ buf) ∧
    opens fs' A' i s x' (mkOpenFile (fhdr x') (Z.of_nat (length (bytes ++ buf)))).
Proof.
  intros Hw0 [N1 N2 (N3 & N3' & N3'') (t' & N4 & N4') N5 N6] Ho Hb [Htot Hsp].
  destruct (bytes_length fs A s x N1 (o_file _ _ _ _ _ _ Ho)) as [Hlen _]. rewrite N5 in Hlen.
  assert (Z.of_nat (length (bytes ++ buf)) = numBytes (fhdr x) + Z.of_nat (length buf)) as El by (rewrite length_app; lia).
  assert (Z.of_nat (length (bytes ++ buf)) ≤ 924 * 128) as Hmax.
  { pose proof (divRoundUp_spec (Z.of_nat (length (bytes ++ buf))) SectorSize ltac:(lia) eq_refl). unfold SectorSize in *. lia. }
  assert (growth (fhdr x) (Z.of_nat (length bytes)) (Z.of_nat (length buf)) = Z.of_nat (length buf)) as Hg by (unfold growth; lia).
  destruct (WriteUser_spec junk junkB fill fill_bytes junk_ok fuel tid fs A i s x _ buf N1 Ho Hb)
    as (fs' & A' & x' & E & [W1 W2 W3 [W4 W4'] W5 W6 W7 W8]).
  - cbn. lia.
  - cbn. unfold is_i32, two31. lia.
  - cbn [seekPosition]. rewrite Hg. unfold room. rewrite <- El. split; [done|].
    pose proof (free_with_file (fdisk fs) (a_files A0) (a_free A0) (a_free A) s x (dw_exact _ _ (fw_disk _ _ Hw0))) as Hsz.
    rewrite <- N3' in Hsz. specialize (Hsz (dw_exact _ _ (fw_disk _ _ N1)) (g_layout _ _ _ (dw_good _ _ (fw_disk _ _ N1))) N3).
    unfold sectors in Hsz. cbn [length] in Hsz. rewrite length_app in Hsz. lia.
  - exists fs', A', x'. split; [exact E|]. cbn [seekPosition] in *.
    split; [|by rewrite length_app, Nat2Z.inj_add]. assert (a_files A' !! s = Some x') as Hx' by apply W2.
    destruct (bytes_length fs' A' s x' W1 Hx') as [Hl _]. constructor; [done|congruence| | | |].
    + split; [done|]. split; [by rewrite W3, N3', insert_insert_eq|]. pose proof (o_data _ _ _ _ _ _ W2) as Hdat.
      unfold IsDataFile in Hdat. by apply Z.eqb_eq in Hdat.
    + exists t'. by rewrite W4.
    + apply list_eq. intros k. unfold bytes_of_file in *. destruct (decide (k < length bytes)%nat) as [Hk|Hk].
      * rewrite W7, lookup_app_l by lia. by rewrite N5.
      * destruct (decide (k < length (bytes ++ buf))%nat) as [Hk2|Hk2].
        -- rewrite length_app in Hk2. rewrite lookup_app_r by lia. rewrite <- W6 by lia. f_equal. lia.
        -- rewrite !lookup_ge_None_2; [done|lia|]. lia.
    + intros r y Hy Hdat Hr. rewrite <- (N6 r y Hy Hdat Hr). assert (r ≠ s) by congruence.
      apply (W8 r y); [|done..]. by rewrite N3', lookup_insert_ne.
Qed.

Lemma WriteFile_spec fuel tid fs0 A0 t nm fs A s x i bytes : fs_wf fs0 A0 → new_file fs0 A0 t nm fs A s x [] →
  opens fs A i s x (mkOpenFile (fhdr x) 0) → Forall is_u8 bytes → space_for A0 (Z.of_nat (length bytes)) →
  ∃ fs' A' x' f, FileHandler_WriteFile junk junkB fill (S (S fuel)) tid i bytes (Z.of_nat (length bytes)) fs = Ok (0, fs') ∧
    new_file fs0 A0 t nm fs' A' s x' bytes ∧ opens fs' A' i s x' f.
Proof.
  intros Hw0 Hn Ho Hb Hsp. unfold FileHandler_WriteFile.
  rewrite slice_ok by lia. change (Z.to_nat 0) with 0%nat. rewrite drop_0, take_ge by lia. cbn [mbind outcome_bind].
  destruct (WriteUser_extends fuel tid fs0 A0 t nm fs A s x i [] bytes Hw0 Hn Ho Hb Hsp) as (fs' & A' & x' & -> & Hn' & Ho').
  cbn [mbind outcome_bind]. rewrite Z.eqb_refl. by eexists fs', A', x', _.
Qed.
End store.

(** ** A file read whole, a file created and written *)
Section whole.
Context {D : Type} `{SectorStore D}.
Variable junk : list Z.
Variable junkB fill : nat → Z.
Variable junkE : nat → DirectoryEntry.
Hypothesis fill_bytes : ∀ k, is_u8 (fill k).
Hypothesis junk_ok : length junk = 29%nat ∧ Forall is_i32 junk.
Implicit Types (fs : FileSystem D) (A : astate) (x : file).

(** [nm] is a data file nobody has open, and a descriptor is free. *)
Definition loadable fs A t nm s x : Prop := fs_wf fs A ∧ a_dirs A !! DirectorySector fs = Some t ∧
  closed_file fs A t nm s x ∧ free_set (openedFileMap fs) ≠ ∅.
(** A file [nm] of [n] bytes can be created and a descriptor is free. *)
Definition storable fs A t nm (n : Z) : Prop := fs_wf fs A ∧ a_dirs A !! DirectorySector fs = Some t ∧
  is_string nm ∧ creatable t nm ∧ space_for A n ∧ free_set (openedFileMap fs) ≠ ∅.
(** [fs'] is [fs] at another time, with other descriptors. *)
Definition kept fs A fs' : Prop := fs_wf fs' A ∧ same_content (fdisk fs) (fdisk fs') ∧ DirectorySector fs' = DirectorySector fs.

Lemma kept_trans fs A fs1 fs2 : kept fs A fs1 → kept fs1 A fs2 → kept fs A fs2.
Proof. intros (_ & H1 & H2) (Hw & H3 & H4). split; [done|]. split; [intros m; by rewrite H3, H1|congruence]. Qed.
Lemma asked_kept fs A fs' : asked fs A fs' → kept fs A fs'.
Proof. by intros (d & -> & Hw & Hc). Qed.

Lemma FileSize_load fuel tid fs A t nm s x : loadable fs A t nm s x →
  ∃ fs', FileHandler_FileSize junkE (S (S fuel)) tid nm fs = Ok (numBytes (fhdr x), fs') ∧ loadable fs' A t nm s x ∧
    kept fs A fs' ∧ 0 ≤ numBytes (fhdr x).
Proof.
  intros (Hw & Ht & Hcl & Hfree). pose proof Hcl as (K1 & K2 & K3 & _).
  destruct (FileSize_spec junkE fuel tid fs A t nm Hw Ht) as (fs1 & E1 & Ha). unfold data_file in E1. rewrite K1, K2, K3 in E1.
  destruct (asked_cwd fs A fs1 t Ha Ht) as (Hw1 & Ht1 & Hom1 & _). exists fs1. split; [done|].
  split; [|split; [by apply asked_kept|by apply (bytes_length fs A s x)]].
  split; [done|]. split; [done|]. split; [by apply (data_file_closed fs)|]. by rewrite Hom1.
Qed.

Lemma load_spec fuel tid fs A t nm s x buffer : loadable fs A t nm s x → Z.of_nat (length buffer) = numBytes (fhdr x) →
  ∃ fs1 fd fs2 fs3 fs4,
    FileHandler_FileSize junkE (S (S fuel)) tid nm fs = Ok (numBytes (fhdr x), fs1) ∧
    FileHandler_OpenFile junkE (S (S fuel)) tid nm fs1 = Ok (fd, fs2) ∧ 0 ≤ fd ∧
    FileHandler_ReadFile (S (S fuel)) tid fd buffer (numBytes (fhdr x)) fs2 = Ok (0, bytes_of_file (fdisk fs) x, fs3) ∧
    FileHandler_CloseFile tid fd fs3 = Ok (0, fs4) ∧ kept fs A fs4.
Proof.
  intros Hload Hb. destruct (FileSize_load fuel tid fs A t nm s x Hload) as (fs1 & E1 & (Hw1 & Ht1 & Hcl1 & Hf1) & Hk1 & _).
  destruct (OpenFile_spec junkE fuel tid fs1 A t nm s x Hw1 Ht1 Hcl1 Hf1) as (fd & fs2 & E2 & Hfd & Hw2 & Ho2 & Hc2 & Hd2).
  destruct (ReadFile_spec fuel tid fs2 A fd s x buffer Hw2 Ho2 Hb) as (fs3 & f & E3 & Hw3 & Ho3 & Hc3 & Hd3).
  destruct (CloseFile_spec tid fs3 A fd s x f Hw3 Ho3) as (fs4 & E4 & Hw4 & Hdisk & Hd4).
  assert (kept fs A fs2) as Hk2 by (by eapply kept_trans; [exact Hk1|]).
  exists fs1, fd, fs2, fs3, fs4. split_and!; try done.
  - rewrite E3. do 3 f_equal. apply bytes_same, Hk2.
  - eapply kept_trans; [exact Hk2|]. split; [done|]. rewrite Hdisk. split; [done|congruence].
Qed.

Lemma store_spec fuel tid fs A t nm bytes : storable fs A t nm (Z.of_nat (length bytes)) → Forall is_u8 bytes →
  ∃ fs1 fd fs2 fs3 fs4 A' s x,
    FileHandler_CreateFile junk junkB fill junkE (S (S fuel)) tid nm fs = Ok (0, fs1) ∧
    FileHandler_OpenFile junkE (S (S fuel)) tid nm fs1 = Ok (fd, fs2) ∧ 0 ≤ fd ∧
    FileHandler_WriteFile junk junkB fill (S (S fuel)) tid fd bytes (Z.of_nat (length bytes)) fs2 = Ok (0, fs3) ∧
    FileHandler_CloseFile tid fd fs3 = Ok (0, fs4) ∧ new_file fs A t nm fs4 A' s x bytes.
Proof.
  intros (Hw & Ht & Hnm & Hcr & Hsp & Hfree) Hb.
  pose proof (space_for_one A _ (Nat2Z.is_nonneg _) Hsp) as H1.
  destruct (CreateFile_spec junk junkB fill junkE fill_bytes junk_ok fuel tid fs A nm t Hw Ht Hnm Hcr H1)
    as (fs1 & A1 & s & x1 & t1 & E1 & Hn1 & Ht1 & Hcl1 & Hom).
  destruct (OpenFile_spec junkE fuel tid fs1 A1 t1 nm s x1 (nf_wf _ _ _ _ _ _ _ _ _ Hn1) Ht1 Hcl1) as (fd & fs2 & E2 & Hfd & Hw2 & Ho2 & Hc2 & Hd2).
  { by rewrite Hom. }
  pose proof (new_file_same fs A t nm fs1 fs2 A1 s x1 [] Hn1 Hw2 Hc2 Hd2) as Hn2.
  destruct (WriteFile_spec junk junkB fill fill_bytes junk_ok fuel tid fs A t nm fs2 A1 s x1 fd bytes Hw Hn2 Ho2 Hb Hsp)
    as (fs3 & A3 & x3 & f & E3 & Hn3 & Ho3).
  destruct (CloseFile_spec tid fs3 A3 fd s x3 f (nf_wf _ _ _ _ _ _ _ _ _ Hn3) Ho3) as (fs4 & E4 & Hw4 & Hdisk & Hd4).
  exists fs1, fd, fs2, fs3, fs4, A3, s, x3. split_and!; try done.
  apply (new_file_same fs A t nm fs3); try done. intros m. by rewrite Hdisk.
Qed.
End whole.

(** A formatted disk takes a file of any size up to the limit that leaves
    room for its headers. *)
Lemma demo_format_storable nm n : is_string nm → creatable (Directory_new (λ _, demo_entry) NumDirEntries) nm →
  divRoundUp n SectorSize ≤ 924 → 1 + divRoundUp n SectorSize + meta_need (divRoundUp n SectorSize) ≤ 1019 →
  ∃ fs A t, demo_format = Ok fs ∧ storable fs A t nm n.
Proof.
  intros Hnm Hcr H1 H2.
  destruct demo_format_wf as (fs & A & E & Hw & Ht & Hsz & Hop). exists fs, A, (Directory_new (λ _, demo_entry) NumDirEntries).
  split; [exact E|]. split; [exact Hw|]. split; [exact Ht|]. split; [exact Hnm|]. split; [exact Hcr|].
  split; [|by apply (nothing_open fs A)]. split; [exact H1|]. rewrite Hsz. exact H2.
Qed.

(** ** [List]: a line for each entry of the current directory, in its order *)
Section list_files.
Context {D : Type} `{SectorStore D}.
Variable junkE : nat → DirectoryEntry.

Definition line_of (A : astate) (e : DirectoryEntry) : option (Z * bool * list Z) :=
  (λ x, (FileLength (fhdr x), IsDataFile (fhdr x), name e)) <$> a_files A !! sector e.

Lemma entry_file d A s t e : disk_wf d A → a_dirs A !! s = Some t → dir_wf t → e ∈ t → inUse e = true →
  ∃ x, a_files A !! sector e = Some x.
Proof.
  intros Hw Ht Hd He Hu. apply list_elem_of_split in He as (t1 & t2 & ->).
  assert (matches (name e) e = true) as Hm by (unfold matches; rewrite Hu; by apply bool_decide_eq_true).
  destruct (ln_entry _ _ (dw_links _ _ Hw) s _ _ _ Ht (match_lookup t1 e t2 (name e) Hd Hm)) as (_ & x & Hx & _). by exists x.
Qed.

Lemma Directory_List_spec A t d : disk_wf d A → (∀ e, e ∈ t → inUse e = true → is_Some (a_files A !! sector e)) →
  ∃ rows d', Directory_List t d = Ok (rows, d') ∧ store_ok d' ∧ same_content d d' ∧ Some <$> rows = line_of A <$> entries t.
Proof.
  revert d. induction t as [|e t IH]; intros d Hw Hin; cbn [Directory_List].
  { exists [], d. split; [done|]. split; [apply Hw|done]. }
  destruct (inUse e) eqn:Eu.
  - destruct (Hin e (list_elem_of_here _ _) Eu) as [x Hx].
    destruct (FetchFrom_file d _ x (dw_store _ _ Hw) (disk_file _ _ _ _ Hw Hx)) as (d1 & -> & Hd1 & Hc1). cbn [mbind outcome_bind].
    destruct (IH d1) as (rows & d2 & -> & Hd2 & Hc2 & Hr); [by apply (disk_wf_same d)|intros; apply Hin; [by right|done]|].
    cbn [mbind outcome_bind]. eexists _, d2. split; [reflexivity|]. split; [done|]. split; [intros m; by rewrite Hc2, Hc1|].
    unfold entries in *. rewrite filter_cons_True by done. cbn. rewrite Hr. f_equal. unfold line_of. by rewrite Hx.
  - destruct (IH d) as (rows & d2 & -> & Hd2 & Hc2 & Hr); [done|intros; apply Hin; [by right|done]|].
    exists rows, d2. split_and!; try done. unfold entries in *. rewrite filter_cons_False by congruence. exact Hr.
Qed.

(** On a well-formed file system [List] prints every name of the current
    directory once, with the length and the kind of its file, and changes nothing. *)
Lemma List_lists fuel tid fs A t : fs_wf fs A → a_dirs A !! DirectorySector fs = Some t →
  ∃ rows fs', FileSystem_List junkE (S (S fuel)) tid fs = Ok (rows, fs') ∧ asked fs A fs' ∧ Some <$> rows = line_of A <$> entries t.
Proof.
  intros Hw Ht. pose proof Hw as [Hdw (L1 & L2 & L3) _ _ _]. unfold FileSystem_List.
  destruct (enter_dir junkE fuel tid fs A t Hw Ht) as (d & -> & E & Hd & Hc & Hdw1 & Hwt & _).
  cbn [mbind outcome_bind]. cbn [directoryFile with_dirMutex]. rewrite E. cbn [mbind outcome_bind fdisk with_disk].
  destruct (Directory_List_spec A t d Hdw1) as (rows & d2 & -> & Hd2 & Hc2 & Hr).
  { intros e He Hu. by eapply entry_file. }
  cbn [mbind outcome_bind]. rewrite with_disk_twice. exists rows, (with_disk fs d2). split; [by apply unlock_dir_held|].
  split; [|done]. assert (same_content (fdisk fs) d2) by (intros m; by rewrite Hc2, Hc). exists d2. by split_and!; [|apply fs_wf_same|].
Qed.
End list_files.
