(* ===== verification/FsTest.v ===== *)
(** * filesys/fstest.cc: copying, printing and stressing files

    The commands of the kernel's command line that use the file system: [Copy]
    brings a UNIX file into it in pieces of [TransferSize] bytes, [Print] shows
    a file, [PerformanceTest] writes, reads and removes a large one.  A UNIX
    file is its bytes, read from the front; the progress messages are left out. *)
From stdpp Require Import strings.
From S2P Require Import Prelude BitMap Memory Disk FileHdr FileGrow Directory FileSys FileSysInv FileSysOps FileSysUse FileSysRW Network FileHandler.
Open Scope Z_scope.

Definition TransferSize : Z := 100.
Definition chunk (rest : list Z) : list Z := take (Z.to_nat TransferSize) rest.
Definition behind (rest : list Z) : list Z := drop (Z.to_nat TransferSize) rest.

(** "TestFile", "1234567890" and their sizes. *)
Definition FileName : list Z := bytes_of "TestFile"%string.
Definition Contents : list Z := bytes_of "1234567890"%string.
Definition ContentSize : Z := Z.of_nat (length Contents).
Definition FileSize : Z := ContentSize * 5000.

(** What the tests print when they give up. *)
Inductive complaint :=
| NoInput | NoOutput               (* Copy: couldn't open, couldn't create *)
| CannotOpen | CannotCreate | CannotWrite | CannotRead (numBytes : Z) | CannotRemove.

Section fstest.
Context {D : Type} `{SectorStore D}.
Variable junk : list Z.
Variable junkB fill : nat → Z.
Variable junkE : nat → DirectoryEntry.
Variable fuel : nat.
Variable tid : Z.
Implicit Types (fs : FileSystem D) (nm : list Z).

(** The loops of [Copy], which leave when [fread] returns 0; [n] is at least
    the number of rounds. *)
Fixpoint write_chunks (n : nat) (rest : list Z) (openFile : Z) fs : outcome (FileSystem D) :=
  match n with
  | O => Blocked
  | S n' =>
      let buffer := chunk rest in
      if 0 <? Z.of_nat (length buffer) then
        '(_, fs1) ← FileSystem_WriteUser junk junkB fill fuel tid fs buffer openFile;
        write_chunks n' (behind rest) openFile fs1
      else Ok fs
  end.
Fixpoint read_chunks (n : nat) (rest : list Z) (openFile : Z) fs : outcome (FileSystem D) :=
  match n with
  | O => Blocked
  | S n' =>
      let amountRead := Z.of_nat (length (chunk rest)) in
      if 0 <? amountRead then
        '(_, fs1) ← FileSystem_ReadUser fuel tid fs amountRead openFile;
        read_chunks n' (behind rest) openFile fs1
      else Ok fs
  end.

Definition Copy (unix : gmap (list Z) (list Z)) (from to : list Z) fs : outcome (option complaint * FileSystem D) :=
  match unix !! from with
  | None => Ok (Some NoInput, fs)
  | Some contents =>
      let rounds := S (length contents) in
      '(ok, fs1) ← FileSystem_Create junk junkB fill junkE fuel tid fs to 0;
      if negb ok then Ok (Some NoOutput, fs1)
      else
        '(openFile, fs2) ← FileSystem_OpenUser junkE fuel tid fs1 to;
        _ ← ASSERT (negb (openFile =? -1));
        fs3 ← write_chunks rounds contents openFile fs2;
        '(_, fs4) ← FileSystem_CloseUser tid fs3 openFile;
        '(openFile', fs5) ← FileSystem_OpenUser junkE fuel tid fs4 to;
        _ ← ASSERT (negb (openFile' =? -1));
        fs6 ← read_chunks rounds contents openFile' fs5;
        '(_, fs7) ← FileSystem_CloseUser tid fs6 openFile';
        Ok (None, fs7)
  end.

(** The characters printed; [n] is more than the pieces of the file. *)
Fixpoint print_loop (n : nat) (openFile : OpenFile) (d : D) : outcome (list Z * D) :=
  match n with
  | O => Blocked
  | S n' =>
      '(buffer, openFile1, d1) ← Read fuel openFile TransferSize d;
      if 0 <? Z.of_nat (length buffer) then
        '(l, d2) ← print_loop n' openFile1 d1; Ok (buffer ++ l, d2)
      else Ok ([], d1)
  end.
Definition Print (rounds : nat) (name : list Z) fs : outcome (option (list Z) * FileSystem D) :=
  '(openFile, fs1) ← FileSystem_Open junkE fuel tid fs name;
  match openFile with
  | None => Ok (None, fs1)
  | Some f => '(l, d) ← print_loop rounds f (fdisk fs1); Ok (Some l, with_disk fs1 d)
  end.

(** The loops of the stress test, [n] rounds of [ContentSize] bytes. *)
Fixpoint FileWrite_loop (n : nat) (openFile : Z) fs : outcome (option complaint * FileSystem D) :=
  match n with
  | O => '(_, fs1) ← FileSystem_CloseUser tid fs openFile; Ok (None, fs1)
  | S n' =>
      '(numBytes, fs1) ← FileSystem_WriteUser junk junkB fill fuel tid fs Contents openFile;
      if numBytes <? 10 then '(_, fs2) ← FileSystem_CloseUser tid fs1 openFile; Ok (Some CannotWrite, fs2)
      else FileWrite_loop n' openFile fs1
  end.
Definition rounds : nat := Z.to_nat (FileSize / ContentSize).
Definition FileWrite fs : outcome (option complaint * FileSystem D) :=
  '(ok, fs1) ← FileSystem_Create junk junkB fill junkE fuel tid fs FileName 0;
  if negb ok then Ok (Some CannotCreate, fs1)
  else
    '(openFile, fs2) ← FileSystem_OpenUser junkE fuel tid fs1 FileName;
    if openFile =? -1 then Ok (Some CannotOpen, fs2) else FileWrite_loop rounds openFile fs2.

(** [buffer] keeps what a read leaves alone. *)
Fixpoint FileRead_loop (n : nat) (buffer : list Z) (openFile : Z) fs : outcome (option complaint * FileSystem D) :=
  match n with
  | O => '(_, fs1) ← FileSystem_CloseUser tid fs openFile; Ok (None, fs1)
  | S n' =>
      '(r, fs1) ← FileSystem_ReadUser fuel tid fs ContentSize openFile;
      let numBytes := match r with Some l => Z.of_nat (length l) | None => -1 end in
      buffer1 ← overlay buffer 0 (default [] r);
      if (numBytes <? 10) || negb (bool_decide (take (Z.to_nat ContentSize) buffer1 = Contents)) then
        '(_, fs2) ← FileSystem_CloseUser tid fs1 openFile; Ok (Some (CannotRead numBytes), fs2)
      else FileRead_loop n' buffer1 openFile fs1
  end.
Definition FileRead (junkC : nat → Z) fs : outcome (option complaint * FileSystem D) :=
  '(openFile, fs1) ← FileSystem_OpenUser junkE fuel tid fs FileName;
  if openFile =? -1 then Ok (Some CannotOpen, fs1)
  else FileRead_loop rounds (junkC <$> seq 0 (Z.to_nat ContentSize)) openFile fs1.

(** The complaints, in order. *)
Definition PerformanceTest (junkC : nat → Z) fs : outcome (list complaint * FileSystem D) :=
  '(c1, fs1) ← FileWrite fs;
  '(c2, fs2) ← FileRead junkC fs1;
  '(ok, fs3) ← FileSystem_Remove junkB fill junkE fuel tid fs2 FileName;
  Ok (option_list c1 ++ option_list c2 ++ (if negb ok then [CannotRemove] else []), fs3).
End fstest.

(** ** What they do on a well-formed file system *)
Lemma meta_need_mono a b : a ≤ b → meta_need a ≤ meta_need b.
Proof.
  intros Hab. unfold meta_need. destruct (Z.leb_spec a 28), (Z.leb_spec b 28); try lia.
  - pose proof (divRoundUp_spec (4 * (b - 28)) SectorSize ltac:(lia) eq_refl). unfold SectorSize in *. lia.
  - pose proof (divRoundUp_mono (4 * (a - 28)) (4 * (b - 28)) SectorSize ltac:(lia) eq_refl). lia.
Qed.
Lemma space_for_mono A m n : 0 ≤ m ≤ n → space_for A n → space_for A m.
Proof.
  intros Hmn [H1 H2]. unfold space_for. pose proof (divRoundUp_mono m n SectorSize Hmn eq_refl) as Hd.
  pose proof (meta_need_mono _ _ Hd). lia.
Qed.

Lemma chunk_behind rest : chunk rest ++ behind rest = rest.
Proof. apply take_drop. Qed.
Lemma chunk_empty rest : length (chunk rest) = 0%nat → rest = [].
Proof. unfold chunk. rewrite length_take. change (Z.to_nat TransferSize) with 100%nat. intros. apply nil_length_inv. lia. Qed.
Lemma behind_shorter rest : (0 < length (chunk rest))%nat → (length (behind rest) < length rest)%nat.
Proof. unfold chunk, behind. rewrite length_take, length_drop. change (Z.to_nat TransferSize) with 100%nat. lia. Qed.

Section copying.
Context {D : Type} `{SectorStore D}.
Variable junk : list Z.
Variable junkB fill : nat → Z.
Variable junkE : nat → DirectoryEntry.
Hypothesis fill_bytes : ∀ k, is_u8 (fill k).
Hypothesis junk_ok : length junk = 29%nat ∧ Forall is_i32 junk.
Variable fuel : nat.
Variable tid : Z.
Implicit Types (fs : FileSystem D) (A : astate) (x : file) (f : OpenFile).

Lemma write_chunks_ok n rest fs0 A0 t nm fs A s x i bytes : fs_wf fs0 A0 → new_file fs0 A0 t nm fs A s x bytes →
  opens fs A i s x (mkOpenFile (fhdr x) (Z.of_nat (length bytes))) → Forall is_u8 rest →
  space_for A0 (Z.of_nat (length (bytes ++ rest))) → (length rest < n)%nat →
  ∃ fs' A' x' f, write_chunks junk junkB fill (S (S fuel)) tid n rest i fs = Ok fs' ∧
    new_file fs0 A0 t nm fs' A' s x' (bytes ++ rest) ∧ opens fs' A' i s x' f.
Proof using fill_bytes junk_ok.
  revert rest fs A x bytes. induction n as [|n IH]; intros rest fs A x bytes Hw0 Hn Ho Hb Hsp Hlen; [lia|].
  cbn [write_chunks]. destruct (Z.ltb_spec 0 (Z.of_nat (length (chunk rest)))) as [Hpos|Hpos].
  - rewrite <- (chunk_behind rest) in Hb, Hsp. apply Forall_app in Hb as [Hb1 Hb2]. rewrite app_assoc in Hsp.
    destruct (WriteUser_extends junk junkB fill fill_bytes junk_ok fuel tid fs0 A0 t nm fs A s x i bytes (chunk rest) Hw0 Hn Ho Hb1)
      as (fs1 & A1 & x1 & -> & Hn1 & Ho1).
    { apply (space_for_mono A0 _ (Z.of_nat (length ((bytes ++ chunk rest) ++ behind rest)))); [rewrite (length_app (_ ++ _)); lia|done]. }
    cbn [mbind outcome_bind].
    destruct (IH (behind rest) fs1 A1 x1 (bytes ++ chunk rest) Hw0 Hn1 Ho1 Hb2 Hsp) as (fs2 & A2 & x2 & f & E & Hn2 & Ho2).
    { pose proof (behind_shorter rest). lia. }
    rewrite <- app_assoc, chunk_behind in Hn2. by exists fs2, A2, x2, f.
  - rewrite (chunk_empty rest) by lia. rewrite app_nil_r. by eexists fs, A, x, _.
Qed.

Lemma read_chunks_ok n rest fs A i s x f : fs_wf fs A → opens fs A i s x f → 0 ≤ seekPosition f → (length rest < n)%nat →
  ∃ fs' f', read_chunks (S (S fuel)) tid n rest i fs = Ok fs' ∧ kept fs A fs' ∧ opens fs' A i s x f'.
Proof using Type.
  clear junk_ok. revert rest fs f. induction n as [|n IH]; intros rest fs f Hw Ho Hp Hlen; [lia|].
  cbn [read_chunks]. destruct (Z.ltb_spec 0 (Z.of_nat (length (chunk rest)))) as [Hpos|Hpos].
  - destruct (ReadUser_spec fuel tid fs A i s x f (Z.of_nat (length (chunk rest))) Hw Ho Hp) as (fs1 & -> & Hw1 & Ho1 & Hc1 & Hd1).
    cbn [mbind outcome_bind]. destruct (IH (behind rest) fs1 _ Hw1 Ho1) as (fs2 & f2 & -> & Hk2 & Ho2).
    { cbn. lia. }
    { pose proof (behind_shorter rest). lia. }
    exists fs2, f2. split; [done|]. split; [|done]. by eapply kept_trans; [|exact Hk2].
  - exists fs, f. by split_and!.
Qed.

(** Opening, and closing again, the new file. *)
Lemma open_new fs0 A0 t nm fs A t' s x bytes : new_file fs0 A0 t nm fs A s x bytes → a_dirs A !! DirectorySector fs = Some t' →
  closed_file fs A t' nm s x → free_set (openedFileMap fs) ≠ ∅ →
  ∃ i fs', FileSystem_OpenUser junkE (S (S fuel)) tid fs nm = Ok (i, fs') ∧ 0 ≤ i ∧
    new_file fs0 A0 t nm fs' A s x bytes ∧ opens fs' A i s x (mkOpenFile (fhdr x) 0).
Proof using Type.
  intros Hn Ht Hcl Hfree. destruct (OpenFile_spec junkE fuel tid fs A t' nm s x (nf_wf _ _ _ _ _ _ _ _ _ Hn) Ht Hcl Hfree)
    as (i & fs1 & E & Hi & Hw & Ho & Hc & Hd).
  exists i, fs1. split; [exact E|]. split; [done|]. split; [|done]. by apply (new_file_same fs0 A0 t nm fs).
Qed.
Lemma close_new fs0 A0 t nm fs A i s x f bytes : new_file fs0 A0 t nm fs A s x bytes → opens fs A i s x f →
  ∃ fs' t', FileSystem_CloseUser tid fs i = Ok (0, fs') ∧ new_file fs0 A0 t nm fs' A s x bytes ∧
    a_dirs A !! DirectorySector fs' = Some t' ∧ closed_file fs' A t' nm s x ∧ free_set (openedFileMap fs') ≠ ∅.
Proof using Type.
  intros Hn Ho. pose proof (nf_dirs _ _ _ _ _ _ _ _ _ Hn) as (t' & Et' & Em).
  destruct (CloseUser_closed tid fs A i s x f t' nm (nf_wf _ _ _ _ _ _ _ _ _ Hn) Ho) as (fs1 & E & Hw & Hdk & Hd & Hcl & Hfr).
  { by rewrite Em, lookup_insert_eq. }
  exists fs1, t'. split; [exact E|]. split; [apply (new_file_same fs0 A0 t nm fs); [done|done|intros m; by rewrite Hdk|done]|].
  split; [|by split]. rewrite Et', Hd, (nf_cwd _ _ _ _ _ _ _ _ _ Hn). apply lookup_insert_eq.
Qed.

Lemma negb_minus_one i : 0 ≤ i → negb (i =? -1) = true.
Proof using Type. clear junk_ok. intros. apply negb_true_iff, Z.eqb_neq. lia. Qed.

Lemma Copy_stores unix from to fs A t bytes : unix !! from = Some bytes → Forall is_u8 bytes →
  storable fs A t to (Z.of_nat (length bytes)) →
  ∃ fs' A' t' s x, Copy junk junkB fill junkE (S (S fuel)) tid unix from to fs = Ok (None, fs') ∧
    new_file fs A t to fs' A' s x bytes ∧ a_dirs A' !! DirectorySector fs' = Some t' ∧
    closed_file fs' A' t' to s x ∧ free_set (openedFileMap fs') ≠ ∅.
Proof using fill_bytes junk_ok.
  intros Hu Hb (Hw & Ht & Hnm & Hcr & Hsp & Hfree). unfold Copy. rewrite Hu.
  pose proof (space_for_one A _ (Nat2Z.is_nonneg _) Hsp) as H1.
  destruct (Create_new_file junk junkB fill junkE fill_bytes junk_ok fuel tid fs A to t Hw Ht Hnm Hcr H1)
    as (fs1 & A1 & s & x1 & t1 & -> & Hn1 & Ht1 & Hcl1 & Hom). cbn [mbind outcome_bind negb].
  destruct (open_new fs A t to fs1 A1 t1 s x1 [] Hn1 Ht1 Hcl1) as (i & fs2 & -> & Hi & Hn2 & Ho2); [by rewrite Hom|].
  cbn [mbind outcome_bind]. rewrite negb_minus_one by done. cbn [ASSERT mbind outcome_bind].
  destruct (write_chunks_ok (S (length bytes)) bytes fs A t to fs2 A1 s x1 i [] Hw Hn2 Ho2 Hb Hsp ltac:(lia))
    as (fs3 & A3 & x3 & f3 & -> & Hn3 & Ho3). cbn [mbind outcome_bind app] in *.
  destruct (close_new fs A t to fs3 A3 i s x3 f3 bytes Hn3 Ho3) as (fs4 & t4 & -> & Hn4 & Ht4 & Hcl4 & Hfr4). cbn [mbind outcome_bind].
  destruct (open_new fs A t to fs4 A3 t4 s x3 bytes Hn4 Ht4 Hcl4 Hfr4) as (j & fs5 & -> & Hj & Hn5 & Ho5).
  cbn [mbind outcome_bind]. rewrite negb_minus_one by done. cbn [ASSERT mbind outcome_bind].
  destruct (read_chunks_ok (S (length bytes)) bytes fs5 A3 j s x3 _ (nf_wf _ _ _ _ _ _ _ _ _ Hn5) Ho5)
    as (fs6 & f6 & -> & (Hw6 & Hc6 & Hd6) & Ho6); [done|lia|]. cbn [mbind outcome_bind].
  destruct (close_new fs A t to fs6 A3 j s x3 f6 bytes) as (fs7 & t7 & -> & Hn7 & Ht7 & Hcl7 & Hfr7);
    [by apply (new_file_same fs A t to fs5)|done|]. cbn [mbind outcome_bind].
  by exists fs7, A3, t7, s, x3.
Qed.
End copying.

(** ** The stress test *)
Definition repeated (n : nat) : list Z := concat (replicate n Contents).
Lemma repeated_length n : length (repeated n) = (10 * n)%nat.
Proof. unfold repeated. induction n as [|n IH]; [done|]. cbn [replicate concat]. rewrite length_app, IH. change (length Contents) with 10%nat. lia. Qed.
Lemma rounds_size : Z.of_nat (10 * rounds) = FileSize.
Proof. unfold rounds. rewrite Nat2Z.inj_mul, Z2Nat.id by (by vm_compute). by vm_compute. Qed.
Lemma repeated_bytes n : Forall is_u8 (repeated n).
Proof. unfold repeated. induction n as [|n IH]; [by constructor|]. cbn [replicate concat]. apply Forall_app. split; [repeat constructor; by vm_compute|done]. Qed.

Section stress.
Context {D : Type} `{SectorStore D}.
Variable junk : list Z.
Variable junkB fill : nat → Z.
Variable junkE : nat → DirectoryEntry.
Hypothesis fill_bytes : ∀ k, is_u8 (fill k).
Hypothesis junk_ok : length junk = 29%nat ∧ Forall is_i32 junk.
Variable fuel : nat.
Variable tid : Z.
Implicit Types (fs : FileSystem D) (A : astate) (x : file) (f : OpenFile).

Lemma FileWrite_loop_ok n fs0 A0 t nm fs A s x i bytes : fs_wf fs0 A0 → new_file fs0 A0 t nm fs A s x bytes →
  opens fs A i s x (mkOpenFile (fhdr x) (Z.of_nat (length bytes))) →
  space_for A0 (Z.of_nat (length (bytes ++ repeated n))) →
  ∃ fs' A' t' x', FileWrite_loop junk junkB fill (S (S fuel)) tid n i fs = Ok (None, fs') ∧
    new_file fs0 A0 t nm fs' A' s x' (bytes ++ repeated n) ∧
    a_dirs A' !! DirectorySector fs' = Some t' ∧ closed_file fs' A' t' nm s x' ∧ free_set (openedFileMap fs') ≠ ∅.
Proof using fill_bytes junk_ok.
  revert fs A x bytes. induction n as [|n IH]; intros fs A x bytes Hw0 Hn Ho Hsp; cbn [FileWrite_loop].
  - change (repeated 0) with (@nil Z). rewrite app_nil_r.
    destruct (close_new tid fs0 A0 t nm fs A i s x _ bytes Hn Ho) as (fs1 & t1 & -> & Hn1 & Ht1 & Hcl & Hfr).
    cbn [mbind outcome_bind]. by exists fs1, A, t1, x.
  - change (repeated (S n)) with (Contents ++ repeated n) in *. rewrite app_assoc in *.
    destruct (WriteUser_extends junk junkB fill fill_bytes junk_ok fuel tid fs0 A0 t nm fs A s x i bytes Contents Hw0 Hn Ho)
      as (fs1 & A1 & x1 & -> & Hn1 & Ho1).
    { repeat constructor; by vm_compute. }
    { apply (space_for_mono A0 _ (Z.of_nat (length ((bytes ++ Contents) ++ repeated n)))); [rewrite (length_app (_ ++ _)); lia|done]. }
    cbn [mbind outcome_bind]. change (Z.of_nat (length Contents) <? 10) with false. cbn iota.
    exact (IH fs1 A1 x1 (bytes ++ Contents) Hw0 Hn1 Ho1 Hsp).
Qed.

Lemma FileRead_loop_ok n buffer fs0 A0 t nm fs A s x i f bytes : new_file fs0 A0 t nm fs A s x bytes →
  opens fs A i s x f → 0 ≤ seekPosition f → drop (Z.to_nat (seekPosition f)) bytes = repeated n → length buffer = 10%nat →
  ∃ fs' t', FileRead_loop (S (S fuel)) tid n buffer i fs = Ok (None, fs') ∧
    new_file fs0 A0 t nm fs' A s x bytes ∧
    a_dirs A !! DirectorySector fs' = Some t' ∧ closed_file fs' A t' nm s x ∧ free_set (openedFileMap fs') ≠ ∅.
Proof using Type.
  clear junk_ok. revert buffer fs f. induction n as [|n IH]; intros buffer fs f Hn Ho Hp Hd Hb; cbn [FileRead_loop].
  - destruct (close_new tid fs0 A0 t nm fs A i s x f bytes Hn Ho) as (fs1 & t1 & -> & Hn1 & Ht1 & Hcl & Hfr).
    cbn [mbind outcome_bind]. by exists fs1, t1.
  - destruct (ReadUser_spec fuel tid fs A i s x f ContentSize (nf_wf _ _ _ _ _ _ _ _ _ Hn) Ho Hp) as (fs1 & E & Hw1 & Ho1 & Hc1 & Hd1).
    pose proof (nf_bytes _ _ _ _ _ _ _ _ _ Hn) as Eb. unfold bytes_of_file in Eb. rewrite Eb, Hd in E, Ho1.
    change (take (Z.to_nat ContentSize) (repeated (S n))) with (take 10 (Contents ++ repeated n)) in E, Ho1.
    rewrite take_app_length' in E, Ho1 by done. rewrite E. cbn [mbind outcome_bind default from_option Datatypes.id].
    rewrite overlay_head by (rewrite Hb; done). cbn [mbind outcome_bind]. change (Z.of_nat (length Contents) <? 10) with false.
    change (Z.to_nat ContentSize) with 10%nat. rewrite take_app_length' by done. rewrite bool_decide_true by done. cbn [orb negb].
    rewrite drop_ge, app_nil_r by (rewrite Hb; done).
    apply (IH Contents fs1 _ (new_file_same fs0 A0 t nm fs fs1 A s x bytes Hn Hw1 Hc1 Hd1) Ho1); [cbn; lia| |done].
    cbn [seekPosition Seek]. rewrite Z2Nat.inj_add by lia. rewrite Nat2Z.id, <- drop_drop, Hd.
    change (repeated (S n)) with (Contents ++ repeated n). by rewrite drop_app_length'.
Qed.

Lemma FileWrite_ok fs A t : storable fs A t FileName FileSize →
  ∃ fs' A' t' s x, FileWrite junk junkB fill junkE (S (S fuel)) tid fs = Ok (None, fs') ∧
    new_file fs A t FileName fs' A' s x (repeated rounds) ∧
    a_dirs A' !! DirectorySector fs' = Some t' ∧ closed_file fs' A' t' FileName s x ∧ free_set (openedFileMap fs') ≠ ∅.
Proof using fill_bytes junk_ok.
  intros (Hw & Ht & Hnm & Hcr & Hsp & Hfree). pose proof (space_for_one A FileSize (ltac:(by vm_compute)) Hsp) as H1. unfold FileWrite.
  destruct (Create_new_file junk junkB fill junkE fill_bytes junk_ok fuel tid fs A FileName t Hw Ht Hnm Hcr H1)
    as (fs1 & A1 & s & x1 & t1 & -> & Hn1 & Ht1 & Hcl1 & Hom). cbn [mbind outcome_bind negb].
  destruct (open_new junkE fuel tid fs A t FileName fs1 A1 t1 s x1 [] Hn1 Ht1 Hcl1) as (i & fs2 & -> & Hi & Hn2 & Ho2); [by rewrite Hom|].
  cbn [mbind outcome_bind]. rewrite (proj2 (Z.eqb_neq i (-1))) by lia.
  destruct (FileWrite_loop_ok rounds fs A t FileName fs2 A1 s x1 i [] Hw Hn2 Ho2) as (fs3 & A3 & t3 & x3 & E & Hrest).
  { cbn [app]. by rewrite repeated_length, rounds_size. }
  rewrite app_nil_l in Hrest. rewrite E. exists fs3, A3, t3, s, x3. split; [reflexivity|exact Hrest].
Qed.

Lemma FileRead_ok junkC fs0 A0 t fs A t' s x : new_file fs0 A0 t FileName fs A s x (repeated rounds) →
  a_dirs A !! DirectorySector fs = Some t' → closed_file fs A t' FileName s x → free_set (openedFileMap fs) ≠ ∅ →
  ∃ fs' t', FileRead junkE (S (S fuel)) tid junkC fs = Ok (None, fs') ∧
    new_file fs0 A0 t FileName fs' A s x (repeated rounds) ∧
    a_dirs A !! DirectorySector fs' = Some t' ∧ closed_file fs' A t' FileName s x ∧ free_set (openedFileMap fs') ≠ ∅.
Proof using Type.
  clear junk_ok. intros Hn Ht Hcl Hfr. unfold FileRead.
  destruct (open_new junkE fuel tid fs0 A0 t FileName fs A t' s x _ Hn Ht Hcl Hfr) as (i & fs1 & -> & Hi & Hn1 & Ho1).
  cbn [mbind outcome_bind]. rewrite (proj2 (Z.eqb_neq i (-1))) by lia.
  eapply FileRead_loop_ok; [exact Hn1|exact Ho1|done|apply drop_0|by rewrite length_fmap, length_seq].
Qed.
End stress.

(** ** Printing *)
Section printing.
Context {D : Type} `{SectorStore D}.
Variable junkE : nat → DirectoryEntry.
Variable fuel : nat.
Variable tid : Z.
Implicit Types (d : D) (fs : FileSystem D) (A : astate) (x : file) (f : OpenFile).

Lemma print_loop_ok n h pos d secs meta : store_ok d → file_at d h secs meta → 0 ≤ pos →
  (length (drop (Z.to_nat pos) (file_bytes d h secs)) < n)%nat →
  ∃ d', print_loop (S (S fuel)) n (mkOpenFile h pos) d = Ok (drop (Z.to_nat pos) (file_bytes d h secs), d') ∧
    store_ok d' ∧ same_content d d'.
Proof.
  revert pos d. induction n as [|n IH]; intros pos d Hd Hf Hp Hn; [lia|]. cbn [print_loop]. unfold Read, ReadAt. cbn [hdr seekPosition].
  destruct (file_at_split d h secs meta Hf) as (Hs & Hdk & _).
  destruct (ReadAt_with_spec (ByteToSector (S (S fuel))) h TransferSize pos d d secs meta) as (d1 & -> & Hd1 & Hc1);
    [done|done|by apply file_finds|done..|]. cbn [mbind outcome_bind].
  set (rest := drop (Z.to_nat pos) (file_bytes d h secs)) in *. fold (chunk rest).
  destruct (Z.ltb_spec 0 (Z.of_nat (length (chunk rest)))) as [Hpos|Hpos].
  - destruct (same_file d d1 h secs meta Hc1 Hf) as [Hf1 Eb].
    assert (drop (Z.to_nat (pos + Z.of_nat (length (chunk rest)))) (file_bytes d1 h secs) = behind rest) as Er.
    { rewrite Eb, Z2Nat.inj_add, Nat2Z.id, <- drop_drop by lia. fold rest. rewrite <- (chunk_behind rest) at 2. by rewrite drop_app_length. }
    destruct (IH (pos + Z.of_nat (length (chunk rest))) d1 Hd1 Hf1) as (d2 & E & Hd2 & Hc2); [lia| |].
    { rewrite Er. pose proof (behind_shorter rest). lia. }
    unfold Seek in *. cbn [hdr] in *. rewrite E, Er. cbn [mbind outcome_bind]. rewrite chunk_behind. exists d2. split; [done|]. split; [done|].
    intros m. by rewrite Hc2, Hc1.
  - rewrite (chunk_empty rest) by lia. by exists d1.
Qed.

Lemma Open_ok fs A t nm s x : fs_wf fs A → a_dirs A !! DirectorySector fs = Some t → closed_file fs A t nm s x →
  ∃ fs', FileSystem_Open junkE (S (S fuel)) tid fs nm = Ok (Some (mkOpenFile (fhdr x) 0), fs') ∧ asked fs A fs'.
Proof.
  intros Hw Ht (K1 & K2 & _). pose proof Hw as [_ (L1 & L2 & L3) _ _ _]. unfold FileSystem_Open.
  destruct (enter_dir junkE fuel tid fs A t Hw Ht) as (d1 & -> & E1 & Hd1 & Hc1 & Hdw1 & Hwt & Hlen).
  cbn [mbind outcome_bind]. cbn [directoryFile with_dirMutex]. rewrite E1. cbn [mbind outcome_bind].
  destruct (find_entry d1 A _ t nm Hdw1 Ht Hwt) as [[Ek _]|(r & y & Ek & -> & Hy & H0 & _)]; [congruence|]. simplify_eq.
  cbn [mbind outcome_bind]. rewrite (proj2 (Z.leb_le 0 s)) by done.
  destruct (open_file_spec (with_disk (with_dirMutex fs (Some tid)) d1) A s x Hdw1 K2) as (d2 & -> & Hd2 & Hc2).
  cbn [mbind outcome_bind]. rewrite with_disk_twice.
  assert (same_content (fdisk fs) d2) as Hc by (intros m; by rewrite Hc2, Hc1).
  rewrite unlock_dir_held by done. exists (with_disk fs d2). split; [done|]. exists d2. split; [done|]. split; [|done]. by apply fs_wf_same.
Qed.

Lemma Print_ok rounds fs A t nm s x : fs_wf fs A → a_dirs A !! DirectorySector fs = Some t → closed_file fs A t nm s x →
  (length (bytes_of_file (fdisk fs) x) < rounds)%nat →
  ∃ fs', Print junkE (S (S fuel)) tid rounds nm fs = Ok (Some (bytes_of_file (fdisk fs) x), fs') ∧ kept fs A fs'.
Proof.
  intros Hw Ht Hcl Hr. unfold Print. destruct (Open_ok fs A t nm s x Hw Ht Hcl) as (fs1 & -> & d2 & -> & Hw2 & Hc).
  cbn [mbind outcome_bind fdisk with_disk].
  destruct (disk_file _ _ _ _ (fw_disk _ _ Hw2) (proj1 (proj2 Hcl))) as (_ & _ & Hf2 & _). cbn [fdisk with_disk] in Hf2.
  pose proof (bytes_same (fdisk fs) d2 x Hc) as Eb. unfold bytes_of_file in *.
  destruct (print_loop_ok rounds (fhdr x) 0 d2 (fsecs x) (fmeta x) (dw_store _ _ (fw_disk _ _ Hw2)) Hf2) as (d3 & E & Hd3 & Hc3); [done|by rewrite drop_0, Eb|].
  change (Z.to_nat 0) with 0%nat in E. rewrite drop_0, Eb in E. rewrite E. cbn [mbind outcome_bind]. rewrite with_disk_twice.
  exists (with_disk fs d3). split; [done|]. assert (same_content (fdisk fs) d3) as Hc' by (intros m; by rewrite Hc3, Hc).
  split; [by apply fs_wf_same|]. by split.
Qed.
End printing.

(** A UNIX file copied into the file system and printed.  With room for it,
    for its name and for one open file, [Copy] stores the file byte for byte in
    its pieces of 100 bytes, [Print] then shows exactly these bytes, the data of
    every other file is what it was and the file system is well formed. *)
Theorem Copy_Print {D : Type} `{SectorStore D} (junk : list Z) (junkB fill : nat → Z) (junkE : nat → DirectoryEntry) (fuel : nat) (tid : Z) (unix : gmap (list Z) (list Z)) (from to : list Z)
    (fs : FileSystem D) A t bytes n :
  (∀ k, is_u8 (fill k)) → length junk = 29%nat ∧ Forall is_i32 junk →
  unix !! from = Some bytes → Forall is_u8 bytes → storable fs A t to (Z.of_nat (length bytes)) → (length bytes < n)%nat →
  ∃ fs1 fs2 A' s x, Copy junk junkB fill junkE (S (S fuel)) tid unix from to fs = Ok (None, fs1) ∧
    Print junkE (S (S fuel)) tid n to fs1 = Ok (Some bytes, fs2) ∧ new_file fs A t to fs2 A' s x bytes.
Proof.
  intros Hfill Hj Hu Hb Hst Hn.
  destruct (Copy_stores junk junkB fill junkE Hfill Hj fuel tid unix from to fs A t bytes Hu Hb Hst)
    as (fs1 & A' & t' & s & x & E1 & Hnew & Ht & Hcl & _).
  pose proof (nf_bytes _ _ _ _ _ _ _ _ _ Hnew) as Eb.
  destruct (Print_ok junkE fuel tid n fs1 A' t' to s x (nf_wf _ _ _ _ _ _ _ _ _ Hnew) Ht Hcl) as (fs2 & E2 & Hw2 & Hc2 & Hd2);
    [by rewrite Eb|]. rewrite Eb in E2.
  exists fs1, fs2, A', s, x. split; [done|]. split; [done|]. by apply (new_file_same fs A t to fs1).
Qed.

(** C40: The stress test passes.  On a well-formed file system with room for its
    50000 bytes, where the name is new and a descriptor free, [PerformanceTest]
    prints no complaint whatever its buffer holds, and leaves the files, the
    names of the directory, the free sectors and the data as they were. *)
Theorem PerformanceTest_passes {D} `{SectorStore D} junk junkB fill junkE fuel tid junkC (fs : FileSystem D) A t :
  (∀ k, is_u8 (fill k)) → length junk = 29%nat ∧ Forall is_i32 junk → storable fs A t FileName FileSize →
  ∃ fs' A' t', PerformanceTest junk junkB fill junkE (S (S fuel)) tid junkC fs = Ok ([], fs') ∧ fs_wf fs' A' ∧
    a_files A' = a_files A ∧ a_dirs A' = <[DirectorySector fs := t']> (a_dirs A) ∧ dir_map t' = dir_map t ∧
    free_set (a_free A') = free_set (a_free A) ∧
    (∀ r y, a_files A !! r = Some y → IsDataFile (fhdr y) = true → r ≠ FreeMapSector →
      bytes_of_file (fdisk fs') y = bytes_of_file (fdisk fs) y).
Proof.
  intros Hfill Hj Hst. pose proof Hst as (Hw & _ & _ & (_ & _ & Hnew & _) & _). unfold PerformanceTest.
  destruct (FileWrite_ok junk junkB fill junkE Hfill Hj fuel tid fs A t Hst) as (fs1 & A1 & t1 & s & x & -> & Hn1 & Ht1 & Hcl1 & Hfr1).
  cbn [mbind outcome_bind].
  destruct (FileRead_ok junkE fuel tid junkC fs A t fs1 A1 t1 s x Hn1 Ht1 Hcl1 Hfr1) as (fs2 & t2 & -> & Hn2 & Ht2 & Hcl2 & _).
  cbn [mbind outcome_bind]. destruct Hn2 as [N1 N2 (N3 & N3' & _) (t' & N4 & N4') N5 N6].
  assert (numBytes (fhdr x) = FileSize) as Elen.
  { rewrite <- (proj1 (bytes_length fs2 A1 s x N1 (proj1 (proj2 Hcl2)))), N5, repeated_length. apply rounds_size. }
  destruct (Remove_closed junkB fill junkE Hfill fuel tid fs2 A1 t2 FileName s x N1 Ht2 Hcl2) as (d & fm & t3 & -> & Hw3 & Hm3 & _ & Hk).
  { destruct (disk_file _ _ _ _ (fw_disk _ _ N1) (proj1 (proj2 Hcl2))) as (_ & _ & Hf & _).
    destruct (file_at_split _ _ _ _ Hf) as ([_ El] & _). rewrite Elen in El. change (divRoundUp FileSize SectorSize) with 391 in El. lia. }
  cbn [mbind outcome_bind option_list app negb].
  assert (delete s (a_files A1) = a_files A) as Ef by (rewrite N3'; by apply delete_insert_id).
  rewrite N2, N4, lookup_insert_eq in Ht2. injection Ht2 as <-. rewrite Ef, N2, N4, insert_insert_eq in Hw3.
  exists (with_disk fs2 d), (mkA (a_files A) (<[DirectorySector fs := t3]> (a_dirs A)) fm), t3. cbn [a_files a_dirs a_free].
  split; [done|]. split; [exact Hw3|]. split; [done|]. split; [done|]. split; [rewrite Hm3, N4'; by apply delete_insert_id|].
  split; [|intros r y Hy Hd Hr; rewrite <- (N6 r y Hy Hd Hr); apply (Hk r y); [|done..]; rewrite N3', lookup_insert_ne; [done|congruence]].
  pose proof (dw_exact _ _ (fw_disk _ _ Hw)) as (_ & _ & E0). pose proof (dw_exact _ _ (fw_disk _ _ Hw3)) as (_ & _ & E3).
  apply set_eq. intros m. by rewrite E0, E3.
Qed.

(** ** Witnesses, on a formatted disk *)
Lemma Copy_Print_witness : ∃ fs fs1 fs2, demo_format = Ok fs ∧
  Copy demo_junk (λ _, 5) (λ _, 3) (λ _, demo_entry) 2 7 {[ [97] := [1; 2; 3] ]} [97] demo_name fs = Ok (None, fs1) ∧
  Print (λ _, demo_entry) 2 7 4 demo_name fs1 = Ok (Some [1; 2; 3], fs2).
Proof.
  destruct (demo_format_storable demo_name 3 demo_name_string demo_creatable ltac:(by vm_compute) ltac:(by vm_compute))
    as (fs & A & t & E & Hst).
  destruct (Copy_Print demo_junk (λ _, 5) (λ _, 3) (λ _, demo_entry) 0 7 {[ [97] := [1; 2; 3] ]} [97] demo_name fs A t [1; 2; 3] 4
    three_byte demo_junk_ok (lookup_singleton_eq _ _) ltac:(repeat constructor; by vm_compute) Hst ltac:(simpl; lia)) as (fs1 & fs2 & _ & _ & _ & E1 & E2 & _).
  exists fs, fs1, fs2. split; [exact E|]. split; [exact E1|exact E2].
Defined.

Lemma PerformanceTest_passes_witness : ∃ fs fs', demo_format = Ok fs ∧
  PerformanceTest demo_junk (λ _, 5) (λ _, 3) (λ _, demo_entry) 2 7 (λ _, 0) fs = Ok ([], fs').
Proof.
  assert (is_string FileName) as Hnm by (repeat constructor; by vm_compute).
  assert (creatable (Directory_new (λ _, demo_entry) NumDirEntries) FileName) as Hcr.
  { split; [by vm_compute|]. split; [by vm_compute|]. split; [by vm_compute|]. by apply Exists_cons_hd. }
  destruct (demo_format_storable FileName FileSize Hnm Hcr ltac:(by vm_compute) ltac:(by vm_compute)) as (fs & A & t & E & Hst).
  destruct (PerformanceTest_passes demo_junk (λ _, 5) (λ _, 3) (λ _, demo_entry) 0 7 (λ _, 0) fs A t three_byte demo_junk_ok Hst)
    as (fs' & _ & _ & E' & _).
  exists fs, fs'. split; [exact E|exact E'].
Defined.
