(* ===== verification/Transfer.v ===== *)
(** * network/ftp.cc: the file transfer protocol

    The classes [Server] and [Client] as programs over a connection
    (Channel.v), each on a machine with its file system (FileHandler.v).  A
    message is an [FTPHeader] and data.  Arrays on the stack and from [new]
    start with arbitrary bytes ([Garbage]); printing is left out. *)
From stdpp Require Import strings.
From S2P Require Import Prelude BitMap Memory Disk FileHdr FileGrow Directory FileSys FileHandler Network Post PostNet Channel Connection.

Definition MAXCLIENTS : Z := 50.

(** [FTPType]; a received header may hold any other number too. *)
Definition READFILE : Z := 0.
Definition WRITEFILE : Z := 1.
Definition CONNECT : Z := 2.
Definition DISCONNECT : Z := 3.
Definition OK : Z := 4.
Definition ERROR : Z := 5.
Definition FILEDATA : Z := 6.

Record FTPHeader := mkFTP { type : Z; fileSize : Z }.
Definition sizeof_FTPHeader : Z := 8.
Definition encode_ftp (h : FTPHeader) : list Z := encode_ints [type h; fileSize h].
(** [*(FTPHeader * )buffer]. *)
Definition decode_ftp (buffer : list Z) : outcome FTPHeader :=
  t ← int_at buffer 0; n ← int_at buffer 4; Ok (mkFTP t n).

(** The arrays, by the function and the name they have in the code. *)
Inductive array :=
| Connect_buffer | Listen_buffer | clientAnswer | HandleClient_buffer | HandleClient_data
| SendFile_buffer | ReceiveFile_buffer | ReceiveFile_fileData | Connect_serverAnswer
| Confirmation_serverAnswer | Disconnect_serverAnswer.

(** The [Connection *] of a [clients] entry and of a [Client] is the connection
    of the machine, or NULL. *)
Record Server := mkServer { serverAddr : Z; clientMap : BitMap; clients : list bool; nbClients : Z }.
Record Client := mkClient { cl_serverAddr : Z; conn : bool }.

(** What [new] leaves in headers, bitmaps, buffers of sectors and directory
    entries, and what an array of a given size holds before it is written. *)
Record Garbage := mkGarbage {
  g_header : list Z; g_bitmap : nat → Z; g_sector : nat → Z; g_entry : nat → DirectoryEntry;
  g_array : array → Z → list Z
}.

Section transfer.
Context {D : Type} `{SectorStore D}.
Variable u : Garbage.
Variable fuel : nat.
Variable tid : Z.

(** ** The machine *)
Section node.
Context {T : Type}.
Implicit Types nd : Node (FileSystem D) T.

(** A call of [FileHandler]. *)
Definition on_files {A} (f : FileSystem D → outcome (A * FileSystem D)) : M (Node (FileSystem D) T) A := λ nd,
  '(a, fs) ← f (host nd); Ok (a, with_host nd fs).
Definition files {A} (f : FileSystem D → outcome (A * FileSystem D)) : proc (Node (FileSystem D) T) A := local (on_files f).

Definition new_array (a : array) (n : Z) : outcome (list Z) := array_of (g_array u a) n.

(** A notification: header and text. *)
Definition notify (h : FTPHeader) (text : list Z) : proc (Node (FileSystem D) T) unit :=
  _ ← PO_Send DATA (encode_ftp h ++ text ++ [0]); Done tt.
Definition server_text : list Z := bytes_of "Server notification".
Definition client_text : list Z := bytes_of "Client notification".

(** Waiting for an answer in the array [a]. *)
Definition receive_header (a : array) (size : Z) : proc (Node (FileSystem D) T) FTPHeader :=
  answer ← try (new_array a size);
  d ← PO_Receive answer;
  try (decode_ftp d).

Definition FileSize_ nm := files (FileHandler_FileSize (g_entry u) fuel tid nm).
Definition CreateFile_ nm := files (FileHandler_CreateFile (g_header u) (g_bitmap u) (g_sector u) (g_entry u) fuel tid nm).
Definition OpenFile_ nm := files (FileHandler_OpenFile (g_entry u) fuel tid nm).
Definition ReadFile_ fd buffer size := files (λ fs,
  '(r, b, fs') ← FileHandler_ReadFile fuel tid fd buffer size fs; Ok ((r, b), fs')).
Definition WriteFile_ fd buffer size := files (FileHandler_WriteFile (g_header u) (g_bitmap u) (g_sector u) fuel tid fd buffer size).
Definition CloseFile_ fd := files (FileHandler_CloseFile tid fd).
Definition RemoveFile_ nm := files (FileHandler_RemoveFile (g_bitmap u) (g_sector u) (g_entry u) fuel tid nm).
End node.

(** ** The server *)
Section server.
Implicit Types nd : Node (FileSystem D) Server.

Definition Server_new (addr : Z) : outcome Server :=
  m ← BitMap_new (g_bitmap u) MAXCLIENTS;
  m' ← Mark m addr;
  Ok (mkServer addr m' (replicate (Z.to_nat MAXCLIENTS) false) 0).

Definition ClientConnect : M (Node (FileSystem D) Server) unit := λ nd,
  let s := self nd in
  if MAXCLIENTS <=? nbClients s then Ok (tt, nd)
  else
    m ← Mark (clientMap s) (from nd);
    l ← arr_set (clients s) (from nd) true;
    Ok (tt, with_self nd (mkServer (serverAddr s) m l (u32 (nbClients s + 1)))).
Definition ClientDisconnect : M (Node (FileSystem D) Server) unit := λ nd,
  let s := self nd in
  b ← Test (clientMap s) (from nd);
  _ ← ASSERT b;
  m ← Clear (clientMap s) (from nd);
  l ← arr_set (clients s) (from nd) false;
  Ok (tt, with_self nd (mkServer (serverAddr s) m l (u32 (nbClients s - 1)))).

Definition NotifyClient (t n : Z) : proc (Node (FileSystem D) Server) unit := notify (mkFTP t n) server_text.
Definition ClientConfirmation : proc (Node (FileSystem D) Server) bool :=
  h ← receive_header clientAnswer (sizeof_FTPHeader + Z.of_nat (length client_text) + 1);
  _ ← check ((type h =? OK) || (type h =? ERROR));
  Done (negb (type h =? ERROR)).

(** [Server::SendFile]. *)
Definition Server_SendFile (fileName : list Z) : proc (Node (FileSystem D) Server) bool :=
  fileSize ← FileSize_ fileName;
  if fileSize <? 0 then _ ← NotifyClient ERROR 0; Done false
  else
    fd ← OpenFile_ fileName;
    if fd <? 0 then _ ← NotifyClient ERROR 0; Done false
    else
      buffer0 ← try (new_array SendFile_buffer fileSize);
      '(r, buffer) ← ReadFile_ fd buffer0 fileSize;
      if r <? 0 then _ ← NotifyClient ERROR 0; _ ← CloseFile_ fd; Done false
      else
        _ ← NotifyClient OK fileSize;
        ready ← ClientConfirmation;
        if negb ready then _ ← CloseFile_ fd; Done false
        else
          _ ← PO_Send DATA (encode_ftp (mkFTP FILEDATA fileSize) ++ buffer);
          written ← ClientConfirmation;
          if negb written then _ ← CloseFile_ fd; Done false
          else
            closed ← CloseFile_ fd;
            if closed <? 0 then _ ← NotifyClient ERROR 0; Done false
            else _ ← NotifyClient OK 0; Done true.

(** What both [ReceiveFile]s do with the message that has the data. *)
Definition receive_data {T} (size : Z) : proc (Node (FileSystem D) T) (list Z) :=
  buffer ← try (new_array ReceiveFile_buffer (sizeof_FTPHeader + size));
  fileData ← try (new_array ReceiveFile_fileData size);
  d ← PO_Receive buffer;
  h ← try (decode_ftp d);
  l ← try (slice d sizeof_FTPHeader size);
  data ← try (overlay fileData 0 l);
  _ ← check (type h =? FILEDATA);
  _ ← check (fileSize h =? size);
  Done data.

(** [Server::ReceiveFile]. *)
Definition Server_ReceiveFile (fileName : list Z) (size : Z) : proc (Node (FileSystem D) Server) bool :=
  created ← CreateFile_ fileName;
  if created <? 0 then _ ← NotifyClient ERROR 0; Done false
  else
    fd ← OpenFile_ fileName;
    if fd <? 0 then _ ← NotifyClient ERROR 0; Done false
    else
      _ ← NotifyClient OK 0;
      ready ← ClientConfirmation;
      if negb ready then _ ← CloseFile_ fd; _ ← RemoveFile_ fileName; Done false
      else
        data ← receive_data size;
        written ← WriteFile_ fd data size;
        if written <? 0 then _ ← NotifyClient ERROR 0; _ ← CloseFile_ fd; _ ← RemoveFile_ fileName; Done false
        else
          _ ← NotifyClient OK 0;
          confirmed ← ClientConfirmation;
          if negb confirmed then _ ← CloseFile_ fd; _ ← RemoveFile_ fileName; Done false
          else
            closed ← CloseFile_ fd;
            if closed <? 0 then _ ← RemoveFile_ fileName; Done false else Done true.

(** The switch of [HandleClient]: whether the loop goes on. *)
Definition serve_request (h : FTPHeader) (data : list Z) : proc (Node (FileSystem D) Server) bool :=
  if type h =? READFILE then
    name ← try (string_of data); _ ← Server_SendFile name; Done true
  else if type h =? WRITEFILE then
    name ← try (string_of data); _ ← Server_ReceiveFile name (fileSize h); Done true
  else if type h =? DISCONNECT then
    _ ← NotifyClient DISCONNECT 0;
    _ ← local ClientDisconnect;
    _ ← PO_Disconnect;
    Done false
  else _ ← NotifyClient ERROR 0; Done true.

(** One round of the loop of [HandleClient].  Both arrays have the size of the
    message before; the size of the second is an unsigned difference, which
    wraps when it is negative. *)
Definition HandleClient_turn : proc (Node (FileSystem D) Server) bool :=
  old ← local (gets msgSize);
  buffer ← try (new_array HandleClient_buffer old);
  data0 ← try (new_array HandleClient_data (old - sizeof_FTPHeader));
  d ← PO_Receive buffer;
  h ← try (decode_ftp d);
  size ← local (gets msgSize);
  l ← try (if size <? sizeof_FTPHeader then Fault else slice d sizeof_FTPHeader (size - sizeof_FTPHeader));
  data ← try (overlay data0 0 l);
  serve_request h data.

(** [HandleClient] for at most [n] requests. *)
Fixpoint HandleClient_loop (n : nat) : proc (Node (FileSystem D) Server) unit :=
  match n with
  | O => try Blocked
  | S n' => go ← HandleClient_turn; if (go : bool) then HandleClient_loop n' else Done tt
  end.
Definition HandleClient (n : nat) : proc (Node (FileSystem D) Server) unit :=
  _ ← NotifyClient OK 0; HandleClient_loop n.

(** One round of the loop of [ServerRoutine]: whether a thread is forked that
    runs [HandleClient]. *)
Definition ServerRoutine_turn : proc (Node (FileSystem D) Server) bool :=
  c ← PO_Listen (g_array u Listen_buffer);
  if negb c then Done false
  else
    taken ← local (λ nd, b ← Test (clientMap (self nd)) (from nd); Ok (b, nd));
    if (taken : bool) then _ ← NotifyClient DISCONNECT 0; _ ← PO_Disconnect; Done false
    else _ ← local ClientConnect; Done true.
End server.

(** ** The client *)
Section client.
Definition Client_new : Client := mkClient (-1) false.
(** [ASSERT(conn != NULL)]. *)
Definition connected : proc (Node (FileSystem D) Client) unit := c ← local (gets (λ nd, conn (self nd))); check c.
Definition set_client (addr : Z) (c : bool) : proc (Node (FileSystem D) Client) unit :=
  local (modify (λ nd, with_self nd (mkClient addr c))).
Definition answer_size : Z := sizeof_FTPHeader + Z.of_nat (length server_text) + 1.

Definition Client_Connect (addr timestamp : Z) : proc (Node (FileSystem D) Client) unit :=
  c ← PO_Connect (g_array u Connect_buffer) addr timestamp;
  if negb c then Halt
  else
    h ← receive_header Connect_serverAnswer answer_size;
    _ ← check ((type h =? OK) || (type h =? DISCONNECT));
    if type h =? DISCONNECT then PO_Disconnect else set_client addr true.

Definition NotifyServer (t : Z) : proc (Node (FileSystem D) Client) unit := _ ← connected; notify (mkFTP t 0) client_text.
(** The size in an OK, [None] for an ERROR. *)
Definition ServerConfirmation : proc (Node (FileSystem D) Client) (option Z) :=
  _ ← connected;
  h ← receive_header Confirmation_serverAnswer answer_size;
  _ ← check ((type h =? OK) || (type h =? ERROR));
  Done (if type h =? ERROR then None else Some (fileSize h)).

Definition SendDisconnectRequest : proc (Node (FileSystem D) Client) unit :=
  _ ← connected;
  serverAnswer ← try (new_array Disconnect_serverAnswer (Z.of_nat (length server_text) + 1));
  _ ← PO_Send DATA (encode_ftp (mkFTP DISCONNECT 0) ++ bytes_of "Client request" ++ [0]);
  d ← PO_Receive serverAnswer;
  h ← try (decode_ftp d);
  check (type h =? DISCONNECT).
Definition Client_Disconnect : proc (Node (FileSystem D) Client) unit :=
  _ ← connected;
  _ ← SendDisconnectRequest;
  _ ← set_client (-1) true;
  PO_Disconnect.

(** [Client::SendFile]. *)
Definition Client_SendFile (fileName : list Z) : proc (Node (FileSystem D) Client) bool :=
  _ ← connected;
  fileSize ← FileSize_ fileName;
  if fileSize <? 0 then _ ← NotifyServer ERROR; Done false
  else
    fd ← OpenFile_ fileName;
    if fd <? 0 then _ ← NotifyServer ERROR; Done false
    else
      buffer0 ← try (new_array SendFile_buffer fileSize);
      '(r, buffer) ← ReadFile_ fd buffer0 fileSize;
      if r <? 0 then _ ← NotifyServer ERROR; _ ← CloseFile_ fd; Done false
      else
        _ ← NotifyServer OK;
        _ ← PO_Send DATA (encode_ftp (mkFTP FILEDATA fileSize) ++ buffer);
        written ← ServerConfirmation;
        match written with
        | None => _ ← CloseFile_ fd; Done false
        | Some _ =>
            closed ← CloseFile_ fd;
            if closed <? 0 then _ ← NotifyServer ERROR; Done false
            else _ ← NotifyServer OK; Done true
        end.

(** [Client::ReceiveFile]. *)
Definition Client_ReceiveFile (fileName : list Z) (size : Z) : proc (Node (FileSystem D) Client) bool :=
  _ ← connected;
  created ← CreateFile_ fileName;
  if created <? 0 then _ ← NotifyServer ERROR; Done false
  else
    fd ← OpenFile_ fileName;
    if fd <? 0 then _ ← NotifyServer ERROR; Done false
    else
      _ ← NotifyServer OK;
      data ← receive_data size;
      written ← WriteFile_ fd data size;
      if written <? 0 then _ ← NotifyServer ERROR; _ ← CloseFile_ fd; _ ← RemoveFile_ fileName; Done false
      else
        _ ← NotifyServer OK;
        confirmed ← ServerConfirmation;
        match confirmed with
        | None => _ ← CloseFile_ fd; _ ← RemoveFile_ fileName; Done false
        | Some _ =>
            closed ← CloseFile_ fd;
            if closed <? 0 then _ ← RemoveFile_ fileName; Done false else Done true
        end.

Definition SendFileRequest (requestType : Z) (fileName : list Z) : proc (Node (FileSystem D) Client) bool :=
  _ ← connected;
  _ ← check ((requestType =? READFILE) || (requestType =? WRITEFILE));
  size ← (if requestType =? READFILE then Done 0 else FileSize_ fileName);
  if size <? 0 then Done false
  else
    _ ← PO_Send DATA (encode_ftp (mkFTP requestType size) ++ fileName ++ [0]);
    answer ← ServerConfirmation;
    match answer with
    | None => Done false
    | Some n => if requestType =? READFILE then Client_ReceiveFile fileName n else Client_SendFile fileName
    end.

(** 114 is the character r, 119 is w; with any other the result is never set. *)
Definition FTPClientAction (servAddr timestamp readwrite : Z) (fileName : list Z) : proc (Node (FileSystem D) Client) bool :=
  _ ← set_client (-1) false;
  _ ← Client_Connect servAddr timestamp;
  res ← (if readwrite =? 114 then r ← SendFileRequest READFILE fileName; Done (Some r)
         else if readwrite =? 119 then r ← SendFileRequest WRITEFILE fileName; Done (Some r)
         else Done None);
  _ ← Client_Disconnect;
  match res with Some r => Done r | None => try Fault end.
End client.
End transfer.
