(* ===== verification/Session.v ===== *)
(** * A file transfer from request to answer

    A client that asks for a file, or offers one, and the server's
    [HandleClient] on the other side of the connection.  Whatever the order in
    which the two machines proceed, as long as no [Send] gives up, a request
    that fits into the server's array ends with the file there, byte for byte;
    when the server does not have the file both sides go on as they were.  The
    array has the size of the message before, so the first request of a
    connection never fits: it is undefined behaviour. *)
From S2P Require Import Prelude BitMap Memory Disk FileHdr FileGrow Directory FileSys FileSysInv FileSysOps FileSysUse FileSysRW FileHandler Network Post PostNet Channel Connection Transfer.

(** ** Messages *)
Definition ftp_ok (h : FTPHeader) : Prop := is_i32 (type h) ∧ is_i32 (fileSize h).

Lemma decode_encode_ftp h r : ftp_ok h → decode_ftp (encode_ftp h ++ r) = Ok h.
Proof.
  intros [H1 H2]. unfold decode_ftp, encode_ftp, encode_ints. cbn [fmap list_fmap concat]. rewrite <- !app_assoc.
  rewrite (int_at_le32 [] (type h) _ 0 eq_refl H1 : int_at (le32 (type h) ++ _) 0 = _). cbn [mbind outcome_bind].
  rewrite (int_at_le32 (le32 (type h)) (fileSize h) _ 4) by done. cbn [mbind outcome_bind]. by destruct h.
Qed.
Lemma encode_ftp_length h : length (encode_ftp h) = 8%nat.
Proof. done. Qed.

(** A notification. *)
Definition note (h : FTPHeader) (text : list Z) : list Z := encode_ftp h ++ text ++ [0].
Lemma note_length h : length (note h server_text) = 28%nat ∧ length (note h client_text) = 28%nat.
Proof. done. Qed.

(** ** What the programs do on one machine *)
Section node.
Context {D : Type} `{SectorStore D} {T : Type}.
Variable u : Garbage.
(** Bytes are bytes, and an array has its size and holds a zero byte somewhere,
    which is where the [strlen] of [ReceivePayload] stops. *)
Record garbage_ok : Prop := mkGarbageOk {
  go_sector k : is_u8 (g_sector u k);
  go_header : length (g_header u) = 29%nat ∧ Forall is_i32 (g_header u);
  go_array a n : 0 ≤ n → Z.of_nat (length (g_array u a n)) = n ∧ (0 < n → 0 ∈ g_array u a n)
}.
Hypothesis Hu : garbage_ok.
Implicit Types (nd : Node (FileSystem D) T) (q : list msg).

Lemma files_runs {A} (f : FileSystem D → outcome (A * FileSystem D)) a fs nd q : f (host nd) = Ok (a, fs) →
  runs (files f) nd q (Done a) (with_host nd fs) q [].
Proof. intros E. apply runs_local. unfold on_files. by rewrite E. Qed.

Lemma notify_runs h text nd q : runs (notify h text) nd q (Done tt) nd q [mkMsg (netAddr nd) DATA (note h text)].
Proof. sends ltac:(apply send_runs). constructor. Qed.
Lemma new_array_ok a n : 0 ≤ n → new_array u a n = Ok (g_array u a n).
Proof. intros Hn. unfold new_array, array_of. by rewrite (proj2 (Z.ltb_ge _ _)). Qed.

(** An answer is received. *)
Lemma header_runs a h text w nd q : length text = 19%nat → ftp_ok h →
  runs (receive_header u a 28) nd (mkMsg w DATA (note h text) :: q) (Done h)
    (heard nd (mkMsg w DATA (note h text))) q [].
Proof.
  intros Ht Hh. destruct (go_array Hu a 28 ltac:(done)) as [Hl Hz]. unfold receive_header.
  assert (length (note h text) = 28%nat) as En by (unfold note; rewrite !length_app, Ht; done).
  quiet ltac:(by apply runs_try, new_array_ok).
  quiet ltac:(apply receive_runs, received_exact; [by apply Hz|cbn [msg_bytes]; lia|cbn [msg_bytes]; by rewrite En]).
  apply runs_try. cbn [msg_bytes]. by apply decode_encode_ftp.
Qed.
End node.

(** ** The two sides of a transfer, up to each wait *)
Section sides.
Context {D : Type} `{SectorStore D}.
Variable u : Garbage.
Hypothesis Hu : garbage_ok u.
Variable fuel : nat.
Variable tid : Z.

Definition request (h : FTPHeader) (nm : list Z) : list Z := encode_ftp h ++ nm ++ [0].
(** The request fits into the array of the server, whose size is that of the
    message before, and is not a multiple of the segment size. *)
Definition request_fits (sz : Z) (nm : list Z) : Prop :=
  is_string nm ∧ 9 + Z.of_nat (length nm) ≤ sz < two31 ∧ (9 + Z.of_nat (length nm)) mod 32 ≠ 0.

Lemma request_length h nm : Z.of_nat (length (request h nm)) = 9 + Z.of_nat (length nm).
Proof. unfold request. rewrite !length_app, encode_ftp_length. cbn [length]. lia. Qed.

(** The server takes a request. *)
Lemma turn_runs (nd : Node (FileSystem D) Server) h nm w q : ftp_ok h → request_fits (msgSize nd) nm →
  ∃ r, let m := mkMsg w DATA (request h nm) in
  runs (HandleClient_turn u (S (S fuel)) tid) nd (m :: q)
    (serve_request u (S (S fuel)) tid h (nm ++ 0 :: r)) (heard nd m) q [].
Proof.
  intros Hh (Hnm & Hsz & Hmod). pose proof (request_length h nm) as Hlen.
  destruct (go_array u Hu HandleClient_buffer (msgSize nd)) as [Hl1 Hz1]; [lia|].
  destruct (go_array u Hu HandleClient_data (msgSize nd - 8)) as [Hl2 _]; [lia|].
  destruct (received_prefix (g_array u HandleClient_buffer (msgSize nd)) (request h nm)) as (r1 & Hr & _);
    [apply Hz1; lia|lia|by rewrite Hlen|].
  exists (drop (length nm + 1) (g_array u HandleClient_data (msgSize nd - 8))). intros m. unfold HandleClient_turn.
  quiet ltac:(by apply runs_local). quiet ltac:(by apply runs_try, new_array_ok; lia).
  quiet ltac:(by apply runs_try, new_array_ok; unfold sizeof_FTPHeader; lia).
  quiet ltac:(by apply receive_runs). quiet ltac:(apply runs_try; unfold request; rewrite <- app_assoc; by apply decode_encode_ftp).
  quiet ltac:(by apply runs_local). cbn [msgSize heard with_pIn msg_bytes m].
  rewrite i32_id by (rewrite Hlen; unfold is_i32, two31 in *; lia). rewrite Hlen.
  unfold sizeof_FTPHeader. rewrite (proj2 (Z.ltb_ge _ 8)) by lia.
  quiet ltac:(apply runs_try; rewrite slice_ok by (rewrite ?length_app; lia); reflexivity).
  assert (take (Z.to_nat (9 + Z.of_nat (length nm) - 8)) (drop (Z.to_nat 8) (request h nm ++ r1)) = nm ++ [0]) as ->.
  { unfold request. rewrite <- app_assoc. change (Z.to_nat 8) with (length (encode_ftp h)). rewrite drop_app_length.
    apply take_app_length'. rewrite length_app. cbn. lia. }
  quiet ltac:(apply runs_try, overlay_head; rewrite length_app; cbn; lia).
  rewrite <- app_assoc, length_app. constructor.
Qed.

(** *** Confirmations *)
Lemma client_confirms (nd : Node (FileSystem D) Server) w q (ok : bool) :
  let m := mkMsg w DATA (note (mkFTP (if ok then OK else ERROR) 0) client_text) in
  runs (ClientConfirmation u) nd (m :: q) (Done ok) (heard nd m) q [].
Proof.
  intros m. unfold ClientConfirmation. change (sizeof_FTPHeader + Z.of_nat (length client_text) + 1) with 28.
  quiet ltac:(by apply (header_runs u Hu clientAnswer (mkFTP (if ok then OK else ERROR) 0) client_text); [|by destruct ok]).
  destruct ok; (quiet ltac:(by apply runs_check); constructor).
Qed.
Lemma server_confirms (nd : Node (FileSystem D) Client) w q (ok : bool) n : conn (self nd) = true → is_i32 n →
  let m := mkMsg w DATA (note (mkFTP (if ok then OK else ERROR) n) server_text) in
  runs (ServerConfirmation u) nd (m :: q) (Done (if ok then Some n else None)) (heard nd m) q [].
Proof.
  intros Hc Hn m. unfold ServerConfirmation, connected. quiet ltac:(quiet ltac:(by apply runs_local); by apply runs_check).
  change answer_size with 28.
  quiet ltac:(by apply (header_runs u Hu Confirmation_serverAnswer (mkFTP (if ok then OK else ERROR) n) server_text); [|by destruct ok]).
  destruct ok; (quiet ltac:(by apply runs_check); constructor).
Qed.
Lemma notify_server (nd : Node (FileSystem D) Client) t q : conn (self nd) = true →
  runs (NotifyServer t) nd q (Done tt) nd q [mkMsg (netAddr nd) DATA (note (mkFTP t 0) client_text)].
Proof.
  intros Hc. unfold NotifyServer, connected. quiet ltac:(quiet ltac:(by apply runs_local); by apply runs_check). apply notify_runs.
Qed.

(** *** The data of the file *)
Definition data_message (l : list Z) : list Z := encode_ftp (mkFTP FILEDATA (Z.of_nat (length l))) ++ l.

Lemma receive_data_runs {T} (nd : Node (FileSystem D) T) w l q : (8 + Z.of_nat (length l)) mod 32 ≠ 0 → is_i32 (Z.of_nat (length l)) →
  runs (receive_data u (Z.of_nat (length l))) nd (mkMsg w DATA (data_message l) :: q) (Done l)
    (heard nd (mkMsg w DATA (data_message l))) q [].
Proof.
  intros Hmod Hi. assert (Z.of_nat (length (data_message l)) = 8 + Z.of_nat (length l)) as Hlen.
  { unfold data_message. rewrite length_app, encode_ftp_length. lia. }
  destruct (go_array u Hu ReceiveFile_buffer (8 + Z.of_nat (length l))) as [Hl1 Hz1]; [lia|].
  destruct (go_array u Hu ReceiveFile_fileData (Z.of_nat (length l))) as [Hl2 _]; [lia|]. unfold receive_data.
  quiet ltac:(by apply runs_try, new_array_ok; unfold sizeof_FTPHeader; lia). quiet ltac:(by apply runs_try, new_array_ok; lia).
  quiet ltac:(apply receive_runs, received_exact; cbn [msg_bytes]; unfold sizeof_FTPHeader; [apply Hz1; lia|lia|by rewrite Hlen]).
  cbn [msg_bytes]. quiet ltac:(by apply runs_try, decode_encode_ftp).
  quiet ltac:(apply runs_try; rewrite slice_ok by (unfold sizeof_FTPHeader; lia); reflexivity).
  change (Z.to_nat sizeof_FTPHeader) with (length (encode_ftp (mkFTP FILEDATA (Z.of_nat (length l))))).
  unfold data_message at 1. rewrite drop_app_length, Nat2Z.id, firstn_all.
  quiet ltac:(apply runs_try, overlay_head; lia). rewrite drop_ge, app_nil_r by lia.
  quiet ltac:(by apply runs_check). quiet ltac:(by apply runs_check, Z.eqb_refl). constructor.
Qed.
End sides.

(** ** The four roles in a transfer that succeeds *)
Section roles.
Context {D : Type} `{SectorStore D}.
Variable u : Garbage.
Hypothesis Hu : garbage_ok u.
Variable fuel : nat.
Variable tid : Z.

(** Messages of the server and of the client. *)
Definition from_server (me : Z) (t n : Z) : msg := mkMsg me DATA (note (mkFTP t n) server_text).
Definition from_client (me : Z) (t : Z) : msg := mkMsg me DATA (note (mkFTP t 0) client_text).
Definition data_from (me : Z) (l : list Z) : msg := mkMsg me DATA (data_message l).

Lemma server_sends (nd : Node (FileSystem D) Server) A t nm s x w : loadable (host nd) A t nm s x →
  let n := numBytes (fhdr x) in let me := netAddr nd in
  ∃ nd', script (Server_SendFile u (S (S fuel)) tid nm) nd
    [([], [from_server me OK n]); ([from_client w OK], [data_from me (bytes_of_file (fdisk (host nd)) x)]);
     ([from_client w OK], [from_server me OK 0])] true nd' ∧ kept (host nd) A (host nd') ∧ msgSize nd' = 28.
Proof.
  intros Hload n me. destruct (FileSize_load (g_entry u) fuel tid _ A t nm s x Hload) as (_ & _ & _ & _ & Hn).
  destruct (go_array u Hu SendFile_buffer n Hn) as [Hl _].
  destruct (load_spec (g_entry u) fuel tid _ A t nm s x (g_array u SendFile_buffer n) Hload Hl)
    as (fs1 & fd & fs2 & fs3 & fs4 & E1 & E2 & Hfd & E3 & E4 & Hk). fold n in E1, E3.
  destruct Hload as (Hw & _ & (_ & Hx & _) & _). destruct (bytes_length _ _ _ _ Hw Hx) as [Hbl _]. fold n in Hbl.
  set (bytes := bytes_of_file _ x) in *.
  eexists. split; [unfold Server_SendFile|].
  - eapply script_more.
    { quiet ltac:(by apply files_runs). rewrite (proj2 (Z.ltb_ge n 0)) by done.
      quiet ltac:(by apply files_runs). rewrite (proj2 (Z.ltb_ge fd 0)) by done.
      quiet ltac:(by apply runs_try, new_array_ok).
      quiet ltac:(apply files_runs; cbn [host with_host]; rewrite E3; reflexivity).
      cbn [Z.ltb Z.compare]. sends ltac:(apply notify_runs). apply runs_refl. }
    eapply script_more.
    { quiet ltac:(apply (client_confirms u Hu _ w [] true)). cbn [negb]. rewrite <- Hbl.
      sends ltac:(apply send_runs). apply runs_refl. }
    apply script_last. quiet ltac:(apply (client_confirms u Hu _ w [] true)). cbn [negb].
    quiet ltac:(by apply files_runs). cbn [Z.ltb Z.compare]. sends ltac:(apply notify_runs). apply runs_refl.
  - by split.
Qed.

Lemma client_receives (nd : Node (FileSystem D) Client) A t nm bytes w : conn (self nd) = true → Forall is_u8 bytes →
  storable (host nd) A t nm (Z.of_nat (length bytes)) → (8 + Z.of_nat (length bytes)) mod 32 ≠ 0 →
  is_i32 (Z.of_nat (length bytes)) → let me := netAddr nd in
  ∃ nd' A' s x, script (Client_ReceiveFile u (S (S fuel)) tid nm (Z.of_nat (length bytes))) nd
    [([], [from_client me OK]); ([data_from w bytes], [from_client me OK]); ([from_server w OK 0], [])] true nd' ∧
    new_file (host nd) A t nm (host nd') A' s x bytes ∧ self nd' = self nd.
Proof.
  intros Hc Hb Hst Hmod Hi me.
  destruct (store_spec (g_header u) (g_bitmap u) (g_sector u) (g_entry u) (go_sector u Hu) (go_header u Hu) fuel tid _ A t nm bytes Hst Hb)
    as (fs1 & fd & fs2 & fs3 & fs4 & A' & s & x & E1 & E2 & Hfd & E3 & E4 & Hnew).
  eexists _, A', s, x. split; [unfold Client_ReceiveFile|].
  - eapply script_more.
    { unfold connected. quiet ltac:(quiet ltac:(by apply runs_local); by apply runs_check).
      quiet ltac:(by apply files_runs). cbn [Z.ltb Z.compare].
      quiet ltac:(by apply files_runs). rewrite (proj2 (Z.ltb_ge fd 0)) by done.
      sends ltac:(by apply notify_server). apply runs_refl. }
    eapply script_more.
    { quiet ltac:(by apply receive_data_runs). quiet ltac:(by apply files_runs). cbn [Z.ltb Z.compare].
      sends ltac:(by apply notify_server). apply runs_refl. }
    apply script_last. quiet ltac:(by apply (server_confirms u Hu _ w [] true)).
    quiet ltac:(by apply files_runs). cbn [Z.ltb Z.compare]. apply runs_refl.
  - by split.
Qed.

Lemma server_receives (nd : Node (FileSystem D) Server) A t nm bytes w : Forall is_u8 bytes →
  storable (host nd) A t nm (Z.of_nat (length bytes)) → (8 + Z.of_nat (length bytes)) mod 32 ≠ 0 →
  is_i32 (Z.of_nat (length bytes)) → let me := netAddr nd in
  ∃ nd' A' s x, script (Server_ReceiveFile u (S (S fuel)) tid nm (Z.of_nat (length bytes))) nd
    [([], [from_server me OK 0]); ([from_client w OK; data_from w bytes], [from_server me OK 0]); ([from_client w OK], [])] true nd' ∧
    new_file (host nd) A t nm (host nd') A' s x bytes ∧ msgSize nd' = 28.
Proof.
  intros Hb Hst Hmod Hi me.
  destruct (store_spec (g_header u) (g_bitmap u) (g_sector u) (g_entry u) (go_sector u Hu) (go_header u Hu) fuel tid _ A t nm bytes Hst Hb)
    as (fs1 & fd & fs2 & fs3 & fs4 & A' & s & x & E1 & E2 & Hfd & E3 & E4 & Hnew).
  eexists _, A', s, x. split; [unfold Server_ReceiveFile|].
  - eapply script_more.
    { quiet ltac:(by apply files_runs). cbn [Z.ltb Z.compare].
      quiet ltac:(by apply files_runs). rewrite (proj2 (Z.ltb_ge fd 0)) by done.
      sends ltac:(apply notify_runs). apply runs_refl. }
    eapply script_more.
    { quiet ltac:(apply (client_confirms u Hu _ w _ true)). cbn [negb].
      quiet ltac:(by apply receive_data_runs). quiet ltac:(by apply files_runs). cbn [Z.ltb Z.compare].
      sends ltac:(apply notify_runs). apply runs_refl. }
    apply script_last. quiet ltac:(apply (client_confirms u Hu _ w [] true)). cbn [negb].
    quiet ltac:(by apply files_runs). cbn [Z.ltb Z.compare]. apply runs_refl.
  - by split.
Qed.

Lemma client_sends (nd : Node (FileSystem D) Client) A t nm s x w : conn (self nd) = true → loadable (host nd) A t nm s x →
  let n := numBytes (fhdr x) in let me := netAddr nd in
  ∃ nd', script (Client_SendFile u (S (S fuel)) tid nm) nd
    [([], [from_client me OK; data_from me (bytes_of_file (fdisk (host nd)) x)]); ([from_server w OK 0], [from_client me OK])]
    true nd' ∧ kept (host nd) A (host nd') ∧ self nd' = self nd.
Proof.
  intros Hc Hload n me. destruct (FileSize_load (g_entry u) fuel tid _ A t nm s x Hload) as (_ & _ & _ & _ & Hn).
  destruct (go_array u Hu SendFile_buffer n Hn) as [Hl _].
  destruct (load_spec (g_entry u) fuel tid _ A t nm s x (g_array u SendFile_buffer n) Hload Hl)
    as (fs1 & fd & fs2 & fs3 & fs4 & E1 & E2 & Hfd & E3 & E4 & Hk). fold n in E1, E3.
  destruct Hload as (Hw & _ & (_ & Hx & _) & _). destruct (bytes_length _ _ _ _ Hw Hx) as [Hbl _]. fold n in Hbl.
  set (bytes := bytes_of_file _ x) in *.
  eexists. split; [unfold Client_SendFile|].
  - eapply script_more.
    { unfold connected. quiet ltac:(quiet ltac:(by apply runs_local); by apply runs_check).
      quiet ltac:(by apply files_runs). rewrite (proj2 (Z.ltb_ge n 0)) by done.
      quiet ltac:(by apply files_runs). rewrite (proj2 (Z.ltb_ge fd 0)) by done.
      quiet ltac:(by apply runs_try, new_array_ok).
      quiet ltac:(apply files_runs; cbn [host with_host]; rewrite E3; reflexivity).
      cbn [Z.ltb Z.compare]. sends ltac:(by apply notify_server). rewrite <- Hbl. sends ltac:(apply send_runs). apply runs_refl. }
    apply script_last. quiet ltac:(by apply (server_confirms u Hu _ w [] true)).
    quiet ltac:(by apply files_runs). cbn [Z.ltb Z.compare]. sends ltac:(by apply notify_server). apply runs_refl.
  - by split.
Qed.
End roles.

(** ** The requests *)
Section requests.
Context {D : Type} `{SectorStore D}.
Variable u : Garbage.
Hypothesis Hu : garbage_ok u.
Variable fuel : nat.
Variable tid : Z.

Definition request_from (me : Z) (t n : Z) (nm : list Z) : msg := mkMsg me DATA (request (mkFTP t n) nm).

Lemma client_reads (nd : Node (FileSystem D) Client) A t nm bytes w : conn (self nd) = true → Forall is_u8 bytes →
  storable (host nd) A t nm (Z.of_nat (length bytes)) → (8 + Z.of_nat (length bytes)) mod 32 ≠ 0 →
  is_i32 (Z.of_nat (length bytes)) → let me := netAddr nd in
  ∃ nd' A' s x, script (SendFileRequest u (S (S fuel)) tid READFILE nm) nd
    [([], [request_from me READFILE 0 nm]); ([from_server w OK (Z.of_nat (length bytes))], [from_client me OK]);
     ([data_from w bytes], [from_client me OK]); ([from_server w OK 0], [])] true nd' ∧
    new_file (host nd) A t nm (host nd') A' s x bytes ∧ self nd' = self nd.
Proof.
  intros Hc Hb Hst Hmod Hi me. set (m := from_server w OK (Z.of_nat (length bytes))).
  destruct (client_receives u Hu fuel tid (heard nd m) A t nm bytes w Hc Hb Hst Hmod Hi) as (nd' & A' & s & x & Hs & Hnew).
  exists nd', A', s, x. split; [unfold SendFileRequest|exact Hnew].
  eapply script_more.
  { unfold connected. quiet ltac:(quiet ltac:(by apply runs_local); by apply runs_check). quiet ltac:(by apply runs_check).
    change (READFILE =? READFILE) with true. quiet ltac:(apply runs_refl). cbn [Z.ltb Z.compare].
    sends ltac:(apply send_runs). apply runs_refl. }
  eapply script_prefix; [|exact Hs]. quiet ltac:(by apply (server_confirms u Hu _ w [] true)). apply runs_refl.
Qed.

Lemma client_writes (nd : Node (FileSystem D) Client) A t nm s x w : conn (self nd) = true → loadable (host nd) A t nm s x →
  let n := numBytes (fhdr x) in let me := netAddr nd in
  ∃ nd', script (SendFileRequest u (S (S fuel)) tid WRITEFILE nm) nd
    [([], [request_from me WRITEFILE n nm]);
     ([from_server w OK 0], [from_client me OK; data_from me (bytes_of_file (fdisk (host nd)) x)]);
     ([from_server w OK 0], [from_client me OK])] true nd' ∧ kept (host nd) A (host nd') ∧ self nd' = self nd.
Proof.
  intros Hc Hload n me. destruct (FileSize_load (g_entry u) fuel tid _ A t nm s x Hload) as (fs1 & E1 & Hload1 & Hk1 & Hn).
  set (m := from_server w OK 0). pose proof (client_sends u Hu fuel tid (heard (with_host nd fs1) m) A t nm s x w Hc Hload1) as Hcs.
  cbv zeta in Hcs. destruct Hcs as (nd' & Hs & Hk & Hself). exists nd'. split; [unfold SendFileRequest|split; [by eapply kept_trans|exact Hself]].
  cbn [host heard with_pIn with_host netAddr] in Hs.
  rewrite (bytes_same (fdisk (host nd)) (fdisk fs1)) in Hs by apply Hk1.
  eapply script_more.
  { unfold connected. quiet ltac:(quiet ltac:(by apply runs_local); by apply runs_check). quiet ltac:(by apply runs_check).
    change (WRITEFILE =? READFILE) with false. quiet ltac:(by apply files_runs). rewrite (proj2 (Z.ltb_ge _ 0)) by done.
    sends ltac:(apply send_runs). apply runs_refl. }
  eapply script_prefix; [|exact Hs]. quiet ltac:(by apply (server_confirms u Hu _ w [] true)). apply runs_refl.
Qed.

Lemma server_reads (nd : Node (FileSystem D) Server) A t nm s x w : loadable (host nd) A t nm s x → request_fits (msgSize nd) nm →
  let n := numBytes (fhdr x) in let me := netAddr nd in
  ∃ nd', script (HandleClient_turn u (S (S fuel)) tid) nd
    [([request_from w READFILE 0 nm], [from_server me OK n]);
     ([from_client w OK], [data_from me (bytes_of_file (fdisk (host nd)) x)]);
     ([from_client w OK], [from_server me OK 0])] true nd' ∧ kept (host nd) A (host nd') ∧ msgSize nd' = 28.
Proof.
  intros Hload Hfit n me.
  destruct (turn_runs u Hu fuel tid nd (mkFTP READFILE 0) nm w [] ltac:(done) Hfit) as (r & Hr).
  set (m := request_from w READFILE 0 nm).
  destruct (server_sends u Hu fuel tid (heard nd m) A t nm s x w Hload) as (nd' & Hs & Hk).
  exists nd'. split; [|exact Hk]. eapply script_prefix; [exact Hr|]. unfold serve_request.
  change (type (mkFTP READFILE 0) =? READFILE) with true. eapply script_prefix.
  { quiet ltac:(apply runs_try, string_of_spec; apply Hfit). apply runs_refl. }
  by eapply script_bind; [exact Hs|].
Qed.

Lemma server_writes (nd : Node (FileSystem D) Server) A t nm bytes w : Forall is_u8 bytes → request_fits (msgSize nd) nm →
  storable (host nd) A t nm (Z.of_nat (length bytes)) → (8 + Z.of_nat (length bytes)) mod 32 ≠ 0 →
  is_i32 (Z.of_nat (length bytes)) → let me := netAddr nd in
  ∃ nd' A' s x, script (HandleClient_turn u (S (S fuel)) tid) nd
    [([request_from w WRITEFILE (Z.of_nat (length bytes)) nm], [from_server me OK 0]);
     ([from_client w OK; data_from w bytes], [from_server me OK 0]); ([from_client w OK], [])] true nd' ∧
    new_file (host nd) A t nm (host nd') A' s x bytes ∧ msgSize nd' = 28.
Proof.
  intros Hb Hfit Hst Hmod Hi me. set (h := mkFTP WRITEFILE (Z.of_nat (length bytes))).
  destruct (turn_runs u Hu fuel tid nd h nm w [] ltac:(done) Hfit) as (r & Hr). set (m := mkMsg w DATA (request h nm)) in *.
  destruct (server_receives u Hu fuel tid (heard nd m) A t nm bytes w Hb Hst Hmod Hi) as (nd' & A' & s & x & Hs & Hnew).
  exists nd', A', s, x. split; [|exact Hnew]. eapply script_prefix; [exact Hr|]. unfold serve_request.
  change (type h =? READFILE) with false. change (type h =? WRITEFILE) with true. eapply script_prefix.
  { quiet ltac:(apply runs_try, string_of_spec; apply Hfit). apply runs_refl. }
  by eapply script_bind; [exact Hs|].
Qed.
End requests.

(** ** Theorems *)
Section theorems.
Context {D : Type} `{SectorStore D}.
(** The two machines have different arrays and threads. *)
Variables uc us : Garbage.
Hypothesis Huc : garbage_ok uc.
Hypothesis Hus : garbage_ok us.
Variable fuel : nat.
Variables tc ts : Z.

(** The client's request and the server's turn, with nothing on the way. *)
Definition session (requestType : Z) (nm : list Z) (c : Node (FileSystem D) Client) (s : Node (FileSystem D) Server) :
    net (Node (FileSystem D) Client) bool (Node (FileSystem D) Server) bool :=
  mkLinked (SendFileRequest uc (S (S fuel)) tc requestType nm) c (HandleClient_turn us (S (S fuel)) ts) s [] [].

(** The client is connected and the server's array has room for a request with a
    name of up to 19 characters. *)
Definition ready_again (c : Node (FileSystem D) Client) (s : Node (FileSystem D) Server) : Prop :=
  conn (self c) = true ∧ ∀ nm, is_string nm → (length nm ≤ 19)%nat → request_fits (msgSize s) nm.
Lemma confirmed_ready (c c' : Node (FileSystem D) Client) (s' : Node (FileSystem D) Server) : conn (self c) = true →
  self c' = self c → msgSize s' = 28 → ready_again c' s'.
Proof.
  intros Hc Ec Es. split; [by rewrite Ec|]. intros nm Hnm Hl. rewrite Es. split; [done|]. split; [unfold two31; lia|].
  rewrite Z.mod_small; lia.
Qed.

Lemma file_bytes_ok fs A s x : fs_wf fs A → a_files A !! s = Some x →
  Forall is_u8 (bytes_of_file (fdisk fs) x) ∧ Z.of_nat (length (bytes_of_file (fdisk fs) x)) = numBytes (fhdr x).
Proof.
  intros Hw Hx. split; [|by apply (bytes_length fs A s x)]. apply file_bytes_u8, (dw_store _ _ (fw_disk _ _ Hw)).
Qed.

(** The client asks for a file the server has. *)
Lemma receive_transfers (c : Node (FileSystem D) Client) (s : Node (FileSystem D) Server) Ac tc' As ts' nm r x :
  conn (self c) = true → request_fits (msgSize s) nm →
  loadable (host s) As ts' nm r x → storable (host c) Ac tc' nm (numBytes (fhdr x)) →
  (8 + numBytes (fhdr x)) mod 32 ≠ 0 → is_i32 (numBytes (fhdr x)) →
  always (session READFILE nm c s) (ended (λ res c' go s', res = true ∧ go = true ∧
    (∃ A' s0 x0, new_file (host c) Ac tc' nm (host c') A' s0 x0 (bytes_of_file (fdisk (host s)) x)) ∧
    kept (host s) As (host s') ∧ ready_again c' s')).
Proof.
  intros Hc Hfit Hload Hst Hmod Hi. pose proof Hload as (Hw & _ & (_ & Hx & _) & _).
  destruct (file_bytes_ok _ _ _ _ Hw Hx) as [Hb Hl]. set (bytes := bytes_of_file _ x) in *. rewrite <- Hl in Hst, Hmod, Hi.
  destruct (client_reads uc Huc fuel tc c Ac tc' nm bytes (netAddr s) Hc Hb Hst Hmod Hi) as (c' & A' & s0 & x0 & Sc & Hnew & Hself).
  destruct (server_reads us Hus fuel ts s As ts' nm r x (netAddr c) Hload Hfit) as (s' & Ss & Hk & Hsz).
  eapply always_ended; [eapply talk; [exact Sc|exact Ss|]|by split|].
  - cbn [dual]. rewrite Hl. split_and!; done.
  - split; [done|]. split; [done|]. split; [by exists A', s0, x0|split; [done|by apply (confirmed_ready c)]].
Qed.

(** The client offers a file it has. *)
Lemma send_transfers (c : Node (FileSystem D) Client) (s : Node (FileSystem D) Server) Ac tc' As ts' nm r x :
  conn (self c) = true → request_fits (msgSize s) nm →
  loadable (host c) Ac tc' nm r x → storable (host s) As ts' nm (numBytes (fhdr x)) →
  (8 + numBytes (fhdr x)) mod 32 ≠ 0 → is_i32 (numBytes (fhdr x)) →
  always (session WRITEFILE nm c s) (ended (λ res c' go s', res = true ∧ go = true ∧
    (∃ A' s0 x0, new_file (host s) As ts' nm (host s') A' s0 x0 (bytes_of_file (fdisk (host c)) x)) ∧
    kept (host c) Ac (host c') ∧ ready_again c' s')).
Proof.
  intros Hc Hfit Hload Hst Hmod Hi. pose proof Hload as (Hw & _ & (_ & Hx & _) & _).
  destruct (file_bytes_ok _ _ _ _ Hw Hx) as [Hb Hl]. set (bytes := bytes_of_file _ x) in *. rewrite <- Hl in Hst, Hmod, Hi.
  destruct (client_writes uc Huc fuel tc c Ac tc' nm r x (netAddr s) Hc Hload) as (c' & Sc & Hk & Hself).
  destruct (server_writes us Hus fuel ts s As ts' nm bytes (netAddr c) Hb Hfit Hst Hmod Hi) as (s' & A' & s0 & x0 & Ss & Hnew & Hsz).
  eapply always_ended; [eapply talk; [exact Sc|exact Ss|]|by split|].
  - cbn [dual]. rewrite Hl. split_and!; done.
  - split; [done|]. split; [done|]. split; [by exists A', s0, x0|split; [done|by apply (confirmed_ready c)]].
Qed.

(** C15: A file transfer, either way.  Let a client be connected and its request
    fit into the server's array, that is, have at most the size of the message
    the server received before (so it is not the first request of the
    connection, see [first_request_undefined]).  If the client asks for a file
    that is closed on the server and that it can store (new name, free entry,
    room on the disk), and the size of the file and the 8 bytes of the header
    are not a multiple of 32, then in every schedule in which no [Send] gives
    up both machines end, the client with TRUE and a new file with exactly the
    bytes of the server's; its other files and all of the server's are
    unchanged, and the server goes on to the next request, which fits in turn if
    its name has at most 19 characters.  The same holds with the roles exchanged
    when the client offers a file. *)
Theorem session_transfers (c : Node (FileSystem D) Client) (s : Node (FileSystem D) Server) Ac tc' As ts' nm :
  conn (self c) = true → request_fits (msgSize s) nm →
  (∀ r x, loadable (host s) As ts' nm r x → storable (host c) Ac tc' nm (numBytes (fhdr x)) →
    (8 + numBytes (fhdr x)) mod 32 ≠ 0 → is_i32 (numBytes (fhdr x)) →
    always (session READFILE nm c s) (ended (λ res c' go s', res = true ∧ go = true ∧
      (∃ A' s0 x0, new_file (host c) Ac tc' nm (host c') A' s0 x0 (bytes_of_file (fdisk (host s)) x)) ∧
      kept (host s) As (host s') ∧ ready_again c' s'))) ∧
  (∀ r x, loadable (host c) Ac tc' nm r x → storable (host s) As ts' nm (numBytes (fhdr x)) →
    (8 + numBytes (fhdr x)) mod 32 ≠ 0 → is_i32 (numBytes (fhdr x)) →
    always (session WRITEFILE nm c s) (ended (λ res c' go s', res = true ∧ go = true ∧
      (∃ A' s0 x0, new_file (host s) As ts' nm (host s') A' s0 x0 (bytes_of_file (fdisk (host c)) x)) ∧
      kept (host c) Ac (host c') ∧ ready_again c' s'))).
Proof. intros Hc Hfit. split; intros r x Hload Hst Hmod Hi; [by eapply receive_transfers|by eapply send_transfers]. Qed.

(** A file the server does not have.  The request for a name that is not a data
    file of the server ends, in whatever order the machines run: the client gets
    FALSE and has sent and created nothing, no file of either has changed, and
    the server goes on to the next request. *)
Theorem receive_missing (c : Node (FileSystem D) Client) (s : Node (FileSystem D) Server) As ts' nm :
  conn (self c) = true → request_fits (msgSize s) nm → fs_wf (host s) As →
  a_dirs As !! DirectorySector (host s) = Some ts' → data_file As ts' nm = None →
  always (session READFILE nm c s) (ended (λ res c' go s', res = false ∧ go = true ∧
    host c' = host c ∧ kept (host s) As (host s'))).
Proof.
  intros Hc Hfit Hw Ht Hno.
  destruct (FileSize_spec (g_entry us) fuel ts (host s) As ts' nm Hw Ht) as (fs1 & E1 & Ha). rewrite Hno in E1.
  destruct (turn_runs us Hus fuel ts s (mkFTP READFILE 0) nm (netAddr c) [] ltac:(done) Hfit) as (r & Hr).
  eapply always_ended; [eapply (talk false true); [| |]|by split|].
  - unfold SendFileRequest. eapply script_more.
    { unfold connected. quiet ltac:(quiet ltac:(by apply runs_local); by apply runs_check). quiet ltac:(by apply runs_check).
      change (READFILE =? READFILE) with true. quiet ltac:(apply runs_refl). cbn [Z.ltb Z.compare].
      sends ltac:(apply send_runs). apply runs_refl. }
    apply script_last. quiet ltac:(by apply (server_confirms uc Huc c (netAddr s) [] false 0)). apply runs_refl.
  - eapply script_prefix; [exact Hr|]. apply script_last. unfold serve_request.
    change (type (mkFTP READFILE 0) =? READFILE) with true.
    quiet ltac:(apply runs_try, string_of_spec; apply Hfit). unfold Server_SendFile.
    eapply (runs_sends _ _ false); [|reflexivity|apply runs_refl].
    quiet ltac:(by apply files_runs). cbn [Z.ltb Z.compare]. sends ltac:(apply notify_runs). apply runs_refl.
  - cbn [dual]. split_and!; reflexivity.
  - split; [done|]. split; [done|]. split; [done|]. by apply asked_kept.
Qed.
End theorems.

(** ** Where the protocol breaks *)
Section errors.
Context {D : Type} `{SectorStore D}.
Variable u : Garbage.
Hypothesis Hu : garbage_ok u.
Variable fuel : nat.
Variable tid : Z.

(** A server that can take the client at address [w]: a box is free, the client is
    not connected yet. *)
Definition can_accept (s : Node (FileSystem D) Server) (w : Z) : Prop :=
  bm_wf (usedBoxes s) ∧ free_set (usedBoxes s) ≠ ∅ ∧
  bm_wf (clientMap (self s)) ∧ numBits (clientMap (self s)) = MAXCLIENTS ∧
  Z.of_nat (length (clients (self s))) = MAXCLIENTS ∧ 0 ≤ nbClients (self s) < MAXCLIENTS ∧
  0 ≤ w < MAXCLIENTS ∧ bit (clientMap (self s)) w = false.

Lemma accept_runs (s : Node (FileSystem D) Server) w t q : can_accept s w →
  ∃ s', runs (ServerRoutine_turn u) s (mkMsg w CONN (le32 t) :: q) (Done true) s' q [mkMsg (netAddr s) DATA [67; 0]] ∧
    msgSize s' = 4 ∧ from s' = w ∧ netAddr s' = netAddr s ∧ bit (clientMap (self s')) w = true ∧
    nbClients (self s') = nbClients (self s) + 1.
Proof.
  intros (Hb & Hfree & Hm & Hn & Hcl & Hnb & Hw & Hbit).
  destruct (go_array u Hu Listen_buffer 32 ltac:(done)) as [Hl Hz].
  destruct (received_prefix (g_array u Listen_buffer 32) (le32 t)) as (r & Hr & _); [by apply Hz|rewrite le32_length; lia|done|].
  destruct (Find_spec (usedBoxes s) Hb) as [[_ Hno]|(box & m & Ef & _ & Hbox & _)]; [done|].
  destruct (Mark_spec (clientMap (self s)) w Hm) as (cm & Em & Hup); [lia|].
  eexists. split.
  - unfold ServerRoutine_turn. eapply (runs_sends _ _ true); [|reflexivity|].
    { apply (listen_runs s (g_array u Listen_buffer) w t box m q r); [done|lia|done]. }
    cbn [negb]. quiet ltac:(apply runs_local; cbn; rewrite Test_spec, Hbit by (done || lia); reflexivity). cbn match.
    quiet ltac:(apply runs_local; unfold ClientConnect; cbn [self with_pIn with_box with_usedBoxes from msg_from];
      rewrite (proj2 (Z.leb_gt MAXCLIENTS _)) by lia; rewrite Em; cbn [mbind outcome_bind];
      rewrite arr_set_in by lia; reflexivity). apply runs_refl.
  - cbn. split; [done|]. split; [done|]. split; [done|]. destruct Hup as (_ & _ & Hbit'). rewrite Hbit' by lia.
    rewrite decide_True by done. split; [done|]. rewrite u32_id; [done|]. unfold is_u32, two32, MAXCLIENTS in *. lia.
Qed.

(** C16: The first request after a connection is undefined behaviour.  A client that
    can be accepted is accepted and told OK; then, whatever it sends, the first
    round of [HandleClient] declares an array of 4 - 8 bytes, because the last
    message of the connection is the 4-byte connection request. *)
Theorem first_request_undefined (s : Node (FileSystem D) Server) w t n : can_accept s w →
  ∃ p s', runs (go ← ServerRoutine_turn u; if (go : bool) then HandleClient u (S (S fuel)) tid (S n) else Done tt)
      s [mkMsg w CONN (le32 t)] p s' [] [mkMsg (netAddr s) DATA [67; 0]; from_server (netAddr s) OK 0] ∧
    ∀ q, stops p s' q = Some Fault.
Proof.
  intros Hs. destruct (accept_runs s w t [] Hs) as (s' & Hr & Hsz & _ & Hme & _).
  eexists _, _. split.
  - sends ltac:(exact Hr). cbn match. unfold HandleClient. eapply runs_sends; [apply notify_runs|by rewrite Hme|].
    cbn [HandleClient_loop]. apply runs_bind. unfold HandleClient_turn. quiet ltac:(by apply runs_local).
    rewrite Hsz. quiet ltac:(by apply runs_try, new_array_ok). apply runs_refl.
  - done.
Qed.

(** A second connection of a client costs the server its listening box.  The
    client is told to disconnect and the table of clients stays, but
    [Disconnect] gives back the box of the last message, which is the one every
    connection request comes in: the box taken for the connection stays taken,
    and the next [Find] hands out [LISTEN_BOX]. *)
Theorem second_connection_frees_listen_box (s : Node (FileSystem D) Server) w t q : bm_wf (usedBoxes s) →
  free_set (usedBoxes s) ≠ ∅ → LISTEN_BOX < numBits (usedBoxes s) → bm_wf (clientMap (self s)) →
  numBits (clientMap (self s)) = MAXCLIENTS → 0 ≤ w < MAXCLIENTS → bit (clientMap (self s)) w = true →
  ∃ s' box m, runs (ServerRoutine_turn u) s (mkMsg w CONN (le32 t) :: q) (Done false) s' q
      [mkMsg (netAddr s) DATA [67; 0]; from_server (netAddr s) DISCONNECT 0] ∧
    self s' = self s ∧ host s' = host s ∧ box ∈ free_set (usedBoxes s) ∧
    free_set (usedBoxes s') = {[LISTEN_BOX]} ∪ free_set (usedBoxes s) ∖ {[box]} ∧ Find (usedBoxes s') = Ok (LISTEN_BOX, m).
Proof.
  intros Hb Hfree Hlb Hm Hn Hw Hbit. destruct (go_array u Hu Listen_buffer 32 ltac:(done)) as [Hl Hz].
  destruct (received_prefix (g_array u Listen_buffer 32) (le32 t)) as (r & Hr & _); [by apply Hz|rewrite le32_length; lia|done|].
  destruct (Find_spec (usedBoxes s) Hb) as [[_ Hno]|(box & m & Ef & Hin & Hbox & _ & Hup & Efree)]; [done|].
  pose proof Hup as (Hwm & Hnm & _).
  destruct (Clear_spec m LISTEN_BOX Hwm) as (m' & Ec & Hup'); [by rewrite Hnm|]. pose proof Hup' as (Hwm' & _).
  assert (free_set m' = {[LISTEN_BOX]} ∪ free_set (usedBoxes s) ∖ {[box]}) as Em'.
  { rewrite (updates_clear_free m m' LISTEN_BOX), Efree; [done|by rewrite Hnm|done]. }
  assert (∃ b, Find m' = Ok (LISTEN_BOX, b)) as (b & Eb).
  { destruct (Find_spec m' Hwm') as [[_ Hno]|(k & b & E & _ & Hk & Hmin & _)]; [set_solver|].
    pose proof (Hmin LISTEN_BOX ltac:(set_solver)). assert (k = LISTEN_BOX) as -> by (unfold LISTEN_BOX in *; lia). by exists b. }
  eexists _, box, b. split.
  - unfold ServerRoutine_turn. eapply (runs_sends _ _ true); [|reflexivity|].
    { apply (listen_runs s (g_array u Listen_buffer) w t box m q r); [done|lia|done]. }
    cbn [negb]. quiet ltac:(apply runs_local; cbn; rewrite Test_spec, Hbit by (done || lia); reflexivity). cbn match.
    sends ltac:(apply notify_runs). quiet ltac:(apply runs_local; cbn; rewrite Ec; reflexivity). apply runs_refl.
  - done.
Qed.

(** The answer to the request to disconnect, 28 bytes, is received into an array
    of 20. *)
Lemma disconnect_overflows (nd : Node (FileSystem D) Client) w q : conn (self nd) = true →
  let answer := from_server w DISCONNECT 0 in
  ∃ p o, runs (Client_Disconnect u) nd (answer :: q) p nd (answer :: q) [o] ∧ stops p nd (answer :: q) = Some Fault.
Proof.
  intros Hc answer. eexists _, _. split.
  - unfold Client_Disconnect, connected. quiet ltac:(quiet ltac:(by apply runs_local); by apply runs_check). apply runs_bind.
    unfold SendDisconnectRequest, connected. quiet ltac:(quiet ltac:(by apply runs_local); by apply runs_check).
    quiet ltac:(by apply runs_try, new_array_ok). sends ltac:(apply send_runs). apply runs_refl.
  - cbn [stops proc_bind mbind proc_mbind PO_Receive]. change (Z.of_nat (length server_text) + 1) with 20.
    destruct (go_array u Hu Disconnect_serverAnswer 20 ltac:(done)) as [Hl Hz].
    destruct (bzero_string_ok _ (Hz ltac:(done))) as (d & E & El).
    unfold received. rewrite E. cbn [mbind outcome_bind]. unfold overlay, arrived. cbn [msg_bytes answer from_server].
    change (Z.of_nat (length (note (mkFTP DISCONNECT 0) server_text))) with 28. change (28 mod MaxSegmentSize =? 0) with false.
    change (length (note (mkFTP DISCONNECT 0) server_text)) with 28%nat. rewrite El.
    change (0 <=? 0) with true. cbn [andb]. destruct (note_length (mkFTP DISCONNECT 0)) as [-> _]. by rewrite (proj2 (Z.leb_gt _ _)) by lia.
Qed.
End errors.

(** ** Witnesses: machine 2 asks machine 1 *)
Definition demo_garbage : Garbage := mkGarbage demo_junk (λ _, 5) (λ _, 3) (λ _, demo_entry) (λ _ n, replicate (Z.to_nat n) 0).
Lemma demo_garbage_ok : garbage_ok demo_garbage.
Proof.
  constructor; [exact three_byte|exact demo_junk_ok|]. intros a n Hn. cbn. rewrite length_replicate. split; [lia|].
  intros H0. destruct (Z.to_nat n) eqn:E; [lia|]. apply list_elem_of_here.
Qed.
Definition demo_clients : Server := mkServer 1 (mkBitMap 50 2 [2; 0]) (replicate 50 false) 0.
Definition demo_server (fs : FileSystem SynchDisk) : Node (FileSystem SynchDisk) Server := mkNode fs (mkBitMap 3 1 [1]) 1 1 1 2 28 demo_clients.
Definition demo_client (fs : FileSystem SynchDisk) : Node (FileSystem SynchDisk) Client := mkNode fs (mkBitMap 3 1 [3]) 2 1 1 1 28 (mkClient 1 true).

Lemma demo_fits : request_fits 28 demo_name.
Proof. split; [exact demo_name_string|]. by vm_compute. Qed.
Lemma demo_storable : ∃ fs A t, demo_format = Ok fs ∧ storable fs A t demo_name 300.
Proof. apply demo_format_storable; [exact demo_name_string|exact demo_creatable|by vm_compute..]. Qed.
Lemma demo_loadable : ∃ fs A t s x, demo_created = Ok (true, fs) ∧ loadable fs A t demo_name s x ∧ numBytes (fhdr x) = 300.
Proof.
  destruct demo_created_wf as (fs & A & s & x & t & E & Hw & Ht & Hk & Hx & Hnb & Hdat & Hop). exists fs, A, t, s, x.
  split; [exact E|]. split; [|exact Hnb]. split; [exact Hw|]. split; [exact Ht|]. split; [by apply demo_closed|by apply (nothing_open fs A)].
Qed.

Lemma demo_sizes n : n = 300 → (8 + n) mod 32 ≠ 0 ∧ is_i32 n.
Proof. intros ->. by vm_compute. Qed.

Lemma session_transfers_witness : ∃ c s, demo_format = Ok c ∧ demo_created = Ok (true, s) ∧
  always (session demo_garbage demo_garbage 0 7 7 READFILE demo_name (demo_client c) (demo_server s))
    (ended (λ res c' go s', res = true ∧ go = true)) ∧
  always (session demo_garbage demo_garbage 0 7 7 WRITEFILE demo_name (demo_client s) (demo_server c))
    (ended (λ res c' go s', res = true ∧ go = true)).
Proof.
  destruct demo_storable as (c & Ac & tc & Ec & Hst). destruct demo_loadable as (s & As & ts & r & x & Es & Hload & Hn).
  exists c, s. split; [exact Ec|]. split; [exact Es|]. rewrite <- Hn in Hst. destruct (demo_sizes _ Hn) as [Hmod Hi]. split.
  - destruct (session_transfers demo_garbage demo_garbage demo_garbage_ok demo_garbage_ok 0 7 7 (demo_client c) (demo_server s)
      Ac tc As ts demo_name eq_refl demo_fits) as [Hread _].
    eapply always_mono; [|exact (Hread r x Hload Hst Hmod Hi)]. intros z (a & b & Hf & Ha & Hb & _). exact (ex_intro _ a (ex_intro _ b (conj Hf (conj Ha Hb)))).
  - destruct (session_transfers demo_garbage demo_garbage demo_garbage_ok demo_garbage_ok 0 7 7 (demo_client s) (demo_server c)
      As ts Ac tc demo_name eq_refl demo_fits) as [_ Hwrite].
    eapply always_mono; [|exact (Hwrite r x Hload Hst Hmod Hi)]. intros z (a & b & Hf & Ha & Hb & _). exact (ex_intro _ a (ex_intro _ b (conj Hf (conj Ha Hb)))).
Defined.
Lemma receive_missing_witness : ∃ s Q, demo_format = Ok s ∧
  always (session demo_garbage demo_garbage 0 7 7 READFILE demo_name (demo_client s) (demo_server s)) (ended Q).
Proof.
  destruct demo_format_wf as (s & A & E & Hw & Ht & _). exists s. eexists. split; [exact E|].
  apply (receive_missing demo_garbage demo_garbage demo_garbage_ok demo_garbage_ok 0 7 7 (demo_client s) (demo_server s)
    A _ demo_name eq_refl demo_fits Hw Ht eq_refl).
Defined.
Lemma demo_can_accept fs : can_accept (demo_server fs) 2.
Proof.
  assert (bm_wf (mkBitMap 3 1 [1]) ∧ bm_wf (mkBitMap 50 2 [2; 0])) as [H1 H2].
  { clear fs. by split; (split; [done|]); (split; [done|]); (split; [done|]); repeat (apply Forall_cons; split); try apply Forall_nil. }
  split; [exact H1|]. split; [|split; [exact H2|by vm_compute]]. intros E.
  apply (not_elem_of_empty (C := gset Z) 1). rewrite <- E. apply elem_of_free_set. by vm_compute.
Qed.
Lemma first_request_undefined_witness : ∃ fs p s', demo_format = Ok fs ∧
  runs (go ← ServerRoutine_turn demo_garbage; if (go : bool) then HandleClient demo_garbage 2 7 3 else Done tt)
    (demo_server fs) [mkMsg 2 CONN (le32 99)] p s' [] [mkMsg 1 DATA [67; 0]; from_server 1 OK 0] ∧ stops p s' [] = Some Fault.
Proof.
  destruct demo_format_wf as (fs & _ & E & _).
  destruct (first_request_undefined demo_garbage demo_garbage_ok 0 7 (demo_server fs) 2 99 2 (demo_can_accept fs)) as (p & s' & Hr & Hst).
  exists fs, p, s'. split; [exact E|]. split; [exact Hr|]. apply Hst.
Defined.
Lemma second_connection_frees_listen_box_witness : ∃ fs s' m, demo_format = Ok fs ∧
  runs (ServerRoutine_turn demo_garbage) (with_self (demo_server fs) (mkServer 1 (mkBitMap 50 2 [6; 0]) (replicate 50 true) 1))
    [mkMsg 2 CONN (le32 99)] (Done false) s' [] [mkMsg 1 DATA [67; 0]; from_server 1 DISCONNECT 0] ∧
  Find (usedBoxes s') = Ok (LISTEN_BOX, m).
Proof.
  destruct demo_format_wf as (fs & _ & E & _).
  assert (bm_wf (mkBitMap 50 2 [6; 0])) as H2.
  { clear fs E. split; [done|]. split; [done|]. split; [done|]. repeat (apply Forall_cons; split); try apply Forall_nil; by vm_compute. }
  destruct (demo_can_accept fs) as (Hb & Hf & _).
  destruct (second_connection_frees_listen_box demo_garbage demo_garbage_ok
    (with_self (demo_server fs) (mkServer 1 (mkBitMap 50 2 [6; 0]) (replicate 50 true) 1)) 2 99 [] Hb Hf eq_refl H2 eq_refl
    (conj (Z.le_0_1) eq_refl) eq_refl)
    as (s' & box & m & Hr & _ & _ & _ & _ & Hfind).
  exists fs, s', m. split; [exact E|]. split; [exact Hr|exact Hfind].
Defined.
