(* ===== verification/UserThread.v ===== *)
(** * userprog/userthread.cc, threads/thread.cc: threads of user programs

    The system calls on threads, semaphores and processes, on the kernel state
    they share: the memory system and thread tables (AddrSpace.v, ThreadData.v),
    the lock [threadsLock], the queues of the conditions and of the semaphores a
    program creates, and the ready list.  A call that waits is two definitions:
    up to the wait, and from the wake-up on; [Waits] says that the caller sleeps
    and has given up the lock. *)
From S2P Require Import Prelude BitMap Memory Frames AddrSpace ThreadData Synch.

(** The arguments of [StartUserThread]. *)
Record thread_arg := mkThreadArg { f_wrapper : Z; f_f : Z; f_arg : Z }.
Record Thread := mkThread { t_space : option nat; isMain : bool; t_arg : thread_arg }.

Record Kernel := mkKernel {
  vm : VM;
  threadsLock : mutex;
  lastTid : Z;                              (* static lastId of GetNewThreadId *)
  kthreads : gmap Z Thread;                 (* Thread *threads[] *)
  ready : list Z;                           (* threads made ready, oldest first *)
  nThreadsCond : gmap nat (list Z);         (* queues, by address space *)
  processJoinCond : gmap nat (list Z);
  semLists : gmap nat (list (option Semaphore));   (* Semaphore *semList[MAX_SEM] *)
  nUsedAddrSpace : Z;
  nUsedAddrSpaceLock : mutex;
  semFORK : Semaphore
}.

Definition with_vm (k : Kernel) v := mkKernel v (threadsLock k) (lastTid k) (kthreads k) (ready k)
  (nThreadsCond k) (processJoinCond k) (semLists k) (nUsedAddrSpace k) (nUsedAddrSpaceLock k) (semFORK k).
Definition with_lock (k : Kernel) l := mkKernel (vm k) l (lastTid k) (kthreads k) (ready k)
  (nThreadsCond k) (processJoinCond k) (semLists k) (nUsedAddrSpace k) (nUsedAddrSpaceLock k) (semFORK k).
Definition with_kthreads (k : Kernel) l t := mkKernel (vm k) (threadsLock k) l t (ready k)
  (nThreadsCond k) (processJoinCond k) (semLists k) (nUsedAddrSpace k) (nUsedAddrSpaceLock k) (semFORK k).
Definition with_ready (k : Kernel) r := mkKernel (vm k) (threadsLock k) (lastTid k) (kthreads k) r
  (nThreadsCond k) (processJoinCond k) (semLists k) (nUsedAddrSpace k) (nUsedAddrSpaceLock k) (semFORK k).
Definition with_conds (k : Kernel) n p := mkKernel (vm k) (threadsLock k) (lastTid k) (kthreads k) (ready k)
  n p (semLists k) (nUsedAddrSpace k) (nUsedAddrSpaceLock k) (semFORK k).
Definition with_sems (k : Kernel) s := mkKernel (vm k) (threadsLock k) (lastTid k) (kthreads k) (ready k)
  (nThreadsCond k) (processJoinCond k) s (nUsedAddrSpace k) (nUsedAddrSpaceLock k) (semFORK k).
Definition with_used_spaces (k : Kernel) n l := mkKernel (vm k) (threadsLock k) (lastTid k) (kthreads k) (ready k)
  (nThreadsCond k) (processJoinCond k) (semLists k) n l (semFORK k).
Definition with_fork (k : Kernel) s := mkKernel (vm k) (threadsLock k) (lastTid k) (kthreads k) (ready k)
  (nThreadsCond k) (processJoinCond k) (semLists k) (nUsedAddrSpace k) (nUsedAddrSpaceLock k) s.

(** [threadsLock->Acquire()] and [->Release()] by thread [cur]. *)
Definition lock_threads (cur : Z) (k : Kernel) : outcome Kernel :=
  m ← mutex_acquire (threadsLock k) cur; Ok (with_lock k m).
Definition unlock_threads (cur : Z) (k : Kernel) : outcome Kernel :=
  m ← mutex_release (threadsLock k) cur; Ok (with_lock k m).

(** [currentThread->space]. *)
Definition current_space (cur : Z) (k : Kernel) : outcome nat :=
  match kthreads k !! cur with
  | Some t => match t_space t with Some a => Ok a | None => Fault end
  | None => Fault
  end.

(** The result of a call that may wait. *)
Inductive waiting (A : Type) := Returns (r : A) | Waits.
Arguments Returns {A}.
Arguments Waits {A}.

(** ** threads/thread.cc *)
Definition GetNewThreadId (t : Thread) (k : Kernel) : outcome (Z * Kernel) :=
  '(tid, b) ← FindStart (tidMap (vm k)) (lastTid k);
  let v := with_threads (vm k) b (threadsInfos (vm k)) (tinfos (vm k)) in
  Ok (tid, with_kthreads (with_vm k v) (tid + 1)
             (if negb (tid =? -1) then <[tid := t]> (kthreads k) else kthreads k)).

(** [Thread::Fork]: the new thread shares the address space of the caller. *)
Definition Thread_Fork (cur tid : Z) (k : Kernel) : outcome Kernel :=
  match kthreads k !! tid, kthreads k !! cur with
  | Some t, Some c =>
      Ok (with_ready (with_kthreads k (lastTid k) (<[tid := mkThread (t_space c) (isMain t) (t_arg t)]> (kthreads k)))
            (ready k ++ [tid]))
  | _, _ => Fault
  end.

Definition GetUserThreadId (tid : Z) (k : Kernel) : outcome Z :=
  '(p, _) ← GetThreadInfoFromTid tid (vm k);
  match p with
  | None => Ok (-1)
  | Some _ => '(_, t) ← get_tinfo (vm k) p; Ok (userthread_id t)
  end.

Fixpoint SaveUserState (n : nat) (i : Z) (m : Machine) : outcome (list Z) :=
  match n with
  | O => Ok []
  | S n' => r ← ReadRegister m i; l ← SaveUserState n' (i + 1) m; Ok (r :: l)
  end.
Fixpoint RestoreUserState (userRegisters : list Z) (i : Z) (m : Machine) : outcome Machine :=
  match userRegisters with
  | [] => Ok m
  | r :: l => m' ← WriteRegister m i r; RestoreUserState l (i + 1) m'
  end.

(** ** Threads of a process *)

(** [currentThread->space->nThreads += n]. *)
Definition with_nThreads (s : AddrSpace) n := mkAddrSpace (pid s) (numPages s) (as_pageTable s) (brk s) n
  (nextUserThreadid s) (threadsBitmap s) (localThreadsInfos s) (stackStartAddrs s) (semBitmap s).
Definition add_threads (self : nat) (n : Z) (k : Kernel) : outcome Kernel :=
  s ← get_space (vm k) self;
  Ok (with_vm k (put_space (vm k) self (with_nThreads s (i32 (nThreads s + n))))).

Definition StartUserThread (cur : Z) (k : Kernel) : outcome Kernel :=
  t ← (match kthreads k !! cur with Some t => Ok t | None => Fault end);
  '(p, _) ← GetThreadInfoFromTid cur (vm k);
  '(_, info) ← get_tinfo (vm k) p;
  self ← current_space cur k;
  '(newSP, v0) ← GetStackStartAddr self (addrspace_idx info) (vm k);
  '(_, v1) ← InitRegisters self v0;
  '(_, v2) ← RestoreState self v1;
  let a := t_arg t in
  m1 ← WriteRegister (vm_machine v2) PCReg (f_wrapper a);
  m2 ← WriteRegister m1 NextPCReg (i32 (f_wrapper a + 4));
  m3 ← WriteRegister m2 StackReg newSP;
  m4 ← WriteRegister m3 4 (f_arg a);
  m5 ← WriteRegister m4 5 (f_f a);
  Ok (with_vm k (with_machine v2 m5)).

(** [do_UserThreadCreate_wrapper] and [do_UserThreadCreate]. *)
Definition do_UserThreadCreate (cur : Z) (wrapper f arg : Z) (k : Kernel) : outcome (Z * Kernel) :=
  k1 ← lock_threads cur k;
  '(tid, k2) ← GetNewThreadId (mkThread None false (mkThreadArg wrapper f arg)) k1;
  self ← current_space cur k2;
  '(bitmapIdx, v) ← AllocateThreadData self tid (vm k2);
  let k3 := with_vm k2 v in
  if (bitmapIdx =? -1) || (tid =? -1) then k4 ← unlock_threads cur k3; Ok (-1, k4)
  else
    k4 ← add_threads self 1 k3;
    k5 ← Thread_Fork cur tid k4;
    k6 ← unlock_threads cur k5;
    u ← GetUserThreadId tid k6;
    Ok (u, k6).

(** [threadCond->Broadcast] and [->Wait] on the descriptor at [a]. *)
Definition put_cond (k : Kernel) (a : nat) (t : thread_info) (q : list Z) : Kernel :=
  let v := vm k in
  with_vm k (with_threads v (tidMap v) (threadsInfos v)
    (<[a := mkThreadInfo (addrspace_idx t) (userthread_id t) (thread_id t) (Some q)]> (tinfos v))).
Definition broadcast_thread (a : nat) (t : thread_info) (k : Kernel) : outcome Kernel :=
  match threadCond t with
  | Some q => Ok (with_ready (put_cond k a t []) (ready k ++ q))
  | None => Fault
  end.
(** [nThreadsCond->Signal]. *)
Definition signal_main (self : nat) (k : Kernel) : Kernel :=
  match nThreadsCond k !!! self with
  | [] => k
  | t :: q => with_ready (with_conds k (<[self := q]> (nThreadsCond k)) (processJoinCond k)) (ready k ++ [t])
  end.

(** Up to [Thread::Finish]. *)
Definition do_UserThreadExit (cur : Z) (k : Kernel) : outcome Kernel :=
  k1 ← lock_threads cur k;
  '(p, _) ← GetThreadInfoFromTid cur (vm k1);
  _ ← ASSERT (match p with Some _ => true | None => false end);
  '(a, t) ← get_tinfo (vm k1) p;
  k2 ← broadcast_thread a t k1;
  self ← current_space cur k2;
  '(_, v) ← DeleteThreadData self cur (vm k2);
  k3 ← add_threads self (-1) (with_vm k2 v);
  s ← get_space (vm k3) self;
  let k4 := if nThreads s =? 0 then signal_main self k3 else k3 in
  unlock_threads cur k4.

(** The loop of [do_UserThreadJoin] with the lock held and [tinfo = p]: the
    caller returns, or waits on a descriptor which is [tinfo] when it wakes up. *)
Definition join_loop (cur utid : Z) (p : option nat) (k : Kernel) : outcome (waiting unit * option nat * Kernel) :=
  self ← current_space cur k;
  again ← (match p with
           | None => Ok false
           | Some _ =>
               '(_, t) ← get_tinfo (vm k) p;
               if thread_id t <? MaxThreads then Test (tidMap (vm k)) (thread_id t) else Ok false
           end);
  if (again : bool) then
    '(p', _) ← GetThreadInfoFromUserthreadId self utid (vm k);
    '(a, t) ← get_tinfo (vm k) p';
    match threadCond t with
    | Some q => k1 ← unlock_threads cur (put_cond k a t (q ++ [cur])); Ok (Waits, Some a, k1)
    | None => Fault
    end
  else k1 ← unlock_threads cur k; Ok (Returns tt, p, k1).
Definition do_UserThreadJoin (cur utid : Z) (k : Kernel) : outcome (waiting unit * option nat * Kernel) :=
  k1 ← lock_threads cur k;
  self ← current_space cur k1;
  '(p, _) ← GetThreadInfoFromUserthreadId self utid (vm k1);
  join_loop cur utid p k1.
(** After the wake-up. *)
Definition do_UserThreadJoin_resume (cur utid : Z) (p : option nat) (k : Kernel) : outcome (waiting unit * option nat * Kernel) :=
  k1 ← lock_threads cur k; join_loop cur utid p k1.

(** ** Semaphores of user programs *)
Definition get_sems (k : Kernel) (self : nat) : outcome (list (option Semaphore)) :=
  match semLists k !! self with Some l => Ok l | None => Fault end.
Definition put_semBitmap (k : Kernel) (self : nat) (s : AddrSpace) (b : BitMap) : Kernel :=
  with_vm k (put_space (vm k) self (mkAddrSpace (pid s) (numPages s) (as_pageTable s) (brk s) (nThreads s)
    (nextUserThreadid s) (threadsBitmap s) (localThreadsInfos s) (stackStartAddrs s) b)).

Definition do_SemInit (cur initValue : Z) (k : Kernel) : outcome (Z * Kernel) :=
  self ← current_space cur k;
  s ← get_space (vm k) self;
  l ← get_sems k self;
  '(semId, b) ← Find (semBitmap s);
  let k1 := put_semBitmap k self s b in
  if negb (semId =? -1) then
    l' ← arr_set l semId (Some (Semaphore_new initValue));
    Ok (semId, with_sems k1 (<[self := l']> (semLists k1)))
  else Ok (semId, k1).

(** [semId < MAX_SEM && semBitmap->Test(semId) && semList[semId] != NULL]. *)
Definition valid_sem (s : AddrSpace) (l : list (option Semaphore)) (semId : Z) : outcome (option Semaphore) :=
  if semId <? MAX_SEM then
    b ← Test (semBitmap s) semId;
    if (b : bool) then arr_get l semId else Ok None
  else Ok None.

Definition do_SemPost (cur semId : Z) (k : Kernel) : outcome Kernel :=
  self ← current_space cur k;
  s ← get_space (vm k) self;
  l ← get_sems k self;
  o ← valid_sem s l semId;
  match o with
  | None => Ok k
  | Some x =>
      let '(woken, q) := match queue x with [] => ([], []) | t :: q => ([t], q) end in
      l' ← arr_set l semId (Some (mkSemaphore (value x + 1) q));
      Ok (with_ready (with_sems k (<[self := l']> (semLists k))) (ready k ++ woken))
  end.

(** [P]: the caller sleeps while the value is 0, and tries again when woken. *)
Definition do_SemWait (cur semId : Z) (k : Kernel) : outcome (waiting unit * Kernel) :=
  self ← current_space cur k;
  s ← get_space (vm k) self;
  l ← get_sems k self;
  o ← valid_sem s l semId;
  match o with
  | None => Ok (Returns tt, k)
  | Some x =>
      if value x =? 0 then
        l' ← arr_set l semId (Some (mkSemaphore (value x) (queue x ++ [cur])));
        Ok (Waits, with_sems k (<[self := l']> (semLists k)))
      else
        l' ← arr_set l semId (Some (mkSemaphore (value x - 1) (queue x)));
        Ok (Returns tt, with_sems k (<[self := l']> (semLists k)))
  end.

(** Another turn of the loop of [P] after the wake-up, on the same semaphore. *)
Definition do_SemWait_resume (cur semId : Z) (k : Kernel) : outcome (waiting unit * Kernel) :=
  self ← current_space cur k;
  l ← get_sems k self;
  o ← arr_get l semId;
  match o with
  | None => Fault
  | Some x =>
      if value x =? 0 then
        l' ← arr_set l semId (Some (mkSemaphore (value x) (queue x ++ [cur])));
        Ok (Waits, with_sems k (<[self := l']> (semLists k)))
      else
        l' ← arr_set l semId (Some (mkSemaphore (value x - 1) (queue x)));
        Ok (Returns tt, with_sems k (<[self := l']> (semLists k)))
  end.

Definition do_SemDestroy (cur semId : Z) (k : Kernel) : outcome Kernel :=
  self ← current_space cur k;
  s ← get_space (vm k) self;
  l ← get_sems k self;
  o ← valid_sem s l semId;
  match o with
  | None => Ok k
  | Some _ =>
      l' ← arr_set l semId None;
      b ← Clear (semBitmap s) semId;
      Ok (put_semBitmap (with_sems k (<[self := l']> (semLists k))) self s b)
  end.

(** ** Processes *)

(** Up to [semFORK->P()]; [junk] is the uninitialised [thread_info]. *)
Definition do_ForkExec (junk : thread_info) (cur : Z) (k : Kernel) : outcome (option Z * Kernel) :=
  '(tid, k1) ← GetNewThreadId (mkThread None true (mkThreadArg 0 0 0)) k;
  m ← mutex_acquire (nUsedAddrSpaceLock k1) cur;
  let k2 := with_used_spaces k1 (nUsedAddrSpace k1) m in
  if MaxProcesses <=? nUsedAddrSpace k2 then
    m' ← mutex_release m cur; Ok (None, with_used_spaces k2 (nUsedAddrSpace k2) m')
  else
    m' ← mutex_release m cur;
    k3 ← lock_threads cur (with_used_spaces k2 (nUsedAddrSpace k2 + 1) m');
    let v := vm k3 in
    let a := vm_nextptr v in
    ti ← arr_set (threadsInfos v) tid (Some a);
    let t := mkThreadInfo (addrspace_idx junk) (userthread_id junk) (thread_id junk) (Some []) in
    k4 ← Thread_Fork cur tid (with_vm k3 (with_threads (with_nextptr v (S a)) (tidMap v) ti (<[a := t]> (tinfos v))));
    k5 ← unlock_threads cur k4;
    Ok (Some tid, k5).
(** [semFORK->P()] and the result, for the new thread [tid]. *)
Definition do_ForkExec_finish (cur tid : Z) (k : Kernel) : outcome (waiting Z * Kernel) :=
  if value (semFORK k) =? 0 then
    Ok (Waits, with_fork k (mkSemaphore (value (semFORK k)) (queue (semFORK k) ++ [cur])))
  else
    let k1 := with_fork k (mkSemaphore (value (semFORK k) - 1) (queue (semFORK k))) in
    match kthreads k1 !! tid with
    | Some t => match t_space t with
                | None => Ok (Returns (-1), k1)
                | Some self => s ← get_space (vm k1) self; Ok (Returns (pid s), k1)
                end
    | None => Fault
    end.

(** The loop of [do_ProcessJoin] with the lock held and [space = p]. *)
Definition process_join_loop (cur p : Z) (space : option nat) (k : Kernel) : outcome (waiting unit * Kernel) :=
  again ← (match space with None => Ok false | Some _ => Test (pidMap (vm k)) p end);
  match space, again with
  | Some a, true =>
      k1 ← unlock_threads cur (with_conds k (nThreadsCond k) (<[a := (processJoinCond k !!! a) ++ [cur]]> (processJoinCond k)));
      Ok (Waits, k1)
  | _, _ => k1 ← unlock_threads cur k; Ok (Returns tt, k1)
  end.
Definition do_ProcessJoin (cur p : Z) (k : Kernel) : outcome (waiting unit * option nat * Kernel) :=
  k1 ← lock_threads cur k;
  if (p <? 0) || (MaxProcesses <? p) then k2 ← unlock_threads cur k1; Ok (Returns tt, None, k2)
  else
    space ← arr_get (addrspaces (vm k1)) p;
    '(w, k2) ← process_join_loop cur p space k1; Ok (w, space, k2).
Definition do_ProcessJoin_resume (cur p : Z) (space : option nat) (k : Kernel) : outcome (waiting unit * Kernel) :=
  k1 ← lock_threads cur k; process_join_loop cur p space k1.

(** ** The invariant of a process's threads *)

(** Occupied thread slots. *)
Definition live (s : AddrSpace) : Z :=
  MaxThreadsPerProcess - Z.of_nat (size (free_set (threadsBitmap s))).

Record proc_wf (k : Kernel) (self : nat) (s : AddrSpace) : Prop := mkProcWf {
  pw_space : spaces (vm k) !! self = Some s;
  pw_threads : threads_wf (vm k) s;
  pw_count : nThreads s = live s;
  pw_zero : bit (tidMap (vm k)) 0 = true;
  pw_last : 0 ≤ lastTid k;
  pw_live : ∀ i a t, slot (vm k) s i a t → thread_id t ≠ 0 ∧ is_Some (threadCond t)
}.

(** Thread [cur] is alive and belongs to process [self]. *)
Record runs (k : Kernel) (cur : Z) (self : nat) : Prop := mkRuns {
  rn_space : ∃ c, kthreads k !! cur = Some c ∧ t_space c = Some self;
  rn_tid : 0 ≤ cur < MaxThreads;
  rn_bit : bit (tidMap (vm k)) cur = true
}.

Lemma SaveUserState_all n i m : (Z.to_nat i + n = length (registers m))%nat → 0 ≤ i →
  length (registers m) = Z.to_nat NumTotalRegs → SaveUserState n i m = Ok (drop (Z.to_nat i) (registers m)).
Proof.
  revert i. induction n as [|n IH]; intros i Hn Hi Hl; cbn [SaveUserState]; [by rewrite drop_ge by lia|].
  destruct (lookup_lt_is_Some_2 (registers m) (Z.to_nat i)) as [r Hr]; [lia|]. unfold ReadRegister.
  assert (i < NumTotalRegs) as Hi2 by (unfold NumTotalRegs in *; lia).
  rewrite (proj2 (Z.leb_le 0 i)), (proj2 (Z.ltb_lt i NumTotalRegs)) by lia. cbn [andb ASSERT mbind outcome_bind].
  rewrite (proj2 (arr_get_Ok (registers m) i r)) by (split; [lia|done]). cbn [mbind outcome_bind].
  rewrite IH by (done || lia). cbn [mbind outcome_bind]. rewrite (drop_S (registers m) r (Z.to_nat i)) by done.
  do 3 f_equal. lia.
Qed.
Lemma RestoreUserState_all l i m : 0 ≤ i → length (registers m) = Z.to_nat NumTotalRegs →
  (Z.to_nat i + length l = length (registers m))%nat →
  RestoreUserState l i m = Ok (set_regs m (take (Z.to_nat i) (registers m) ++ l)).
Proof.
  revert i m. induction l as [|r l IH]; intros i m Hi Hl Hn; cbn [RestoreUserState].
  { cbn in Hn. rewrite app_nil_r, take_ge by lia. by destruct m. }
  cbn [length] in Hn. unfold WriteRegister. assert (i < NumTotalRegs) as Hi2 by (unfold NumTotalRegs in *; lia).
  rewrite (proj2 (Z.leb_le 0 i)), (proj2 (Z.ltb_lt i NumTotalRegs)) by lia. cbn [andb ASSERT mbind outcome_bind].
  rewrite arr_set_in by lia. cbn [mbind outcome_bind]. rewrite IH; cbn; rewrite ?length_insert; try lia.
  unfold set_regs. cbn. do 2 f_equal. replace (Z.to_nat (i + 1)) with (S (Z.to_nat i)) by lia.
  rewrite (take_S_r _ _ r) by (apply list_lookup_insert_eq; lia). rewrite take_insert_ge by lia. by rewrite <- app_assoc.
Qed.

Section tables.
Implicit Types (k : Kernel) (s : AddrSpace) (v : VM).

Lemma threads_wf_mark v s tm tid : threads_wf v s → 0 ≤ tid < MaxThreads →
  updates (tidMap v) tm tid true → threads_wf (with_threads v tm (threadsInfos v) (tinfos v)) s.
Proof.
  intros Hwf Htid Hu. pose proof (tw_tid _ _ Hwf) as (_ & Hn & Hl).
  constructor; try apply Hwf.
  - cbn. split; [by eapply updates_wf|]. split; [|done]. rewrite <- Hn. by eapply updates_numBits.
  - intros i a t Hs. pose proof (tw_slot _ _ Hwf i a t Hs) as (E & Hid & Ht & Hb & Hi).
    cbn. split; [done|]. split; [done|]. split; [done|]. split; [|done].
    destruct Hu as (_ & _ & Hu). rewrite Hu by lia. by case_decide.
Qed.

Lemma threads_wf_cond v s i a t q : threads_wf v s → slot v s i a t →
  let v' := with_threads v (tidMap v) (threadsInfos v)
    (<[a := mkThreadInfo (addrspace_idx t) (userthread_id t) (thread_id t) q]> (tinfos v)) in
  let t' := mkThreadInfo (addrspace_idx t) (userthread_id t) (thread_id t) q in
  threads_wf v' s ∧ slot v' s i a t' ∧
  ∀ j b u, slot v' s j b u → j = i ∧ b = a ∧ u = t' ∨ j ≠ i ∧ slot v s j b u.
Proof.
  intros Hwf Hs v' t'.
  assert (∀ j b u, slot v' s j b u → j = i ∧ b = a ∧ u = t' ∨ j ≠ i ∧ slot v s j b u) as Hinv.
  { intros j b u (Hj & Hb & Hl & Ht). cbn in Ht.
    destruct (tw_full _ _ Hwf j Hj Hb) as (b' & u' & Hs'). pose proof Hs' as (_ & _ & Hl' & _).
    assert (b' = b) as -> by congruence.
    apply lookup_insert_Some in Ht as [[<- <-]|[Hne Ht]].
    - left. by destruct (slot_addr_inj v s j a u' i t Hwf Hs' Hs) as [-> _].
    - right. split; [|exact (conj Hj (conj Hb (conj Hl Ht)))]. intros ->. destruct Hs as (_ & _ & L & _). congruence. }
  assert (slot v' s i a t') as Hi.
  { destruct Hs as (? & ? & ? & ?). repeat split; try done; try lia. apply lookup_insert_eq. }
  split; [|by split]. constructor; try apply Hwf.
  - cbn. intros b u [[<- _]|[_ Hb]]%lookup_insert_Some; [by apply (slot_dom v s i a t)|by apply (tw_ptr _ _ Hwf b u)].
  - intros j Hj Hb. destruct (decide (j = i)) as [->|Hne]; [by exists a, t'|].
    destruct (tw_full _ _ Hwf j Hj Hb) as (b & u & Hs'). exists b, u.
    destruct Hs' as (? & ? & ? & ?). repeat split; try done; try lia. cbn.
    rewrite lookup_insert_ne; [done|]. intros <-. apply Hne.
    by apply (slot_addr_inj v s j a u i t Hwf).
  - intros j b u [(-> & -> & ->)|[_ Hu]]%Hinv; [apply (tw_slot _ _ Hwf i a t Hs)|by apply (tw_slot _ _ Hwf j b u)].
  - intros j b u l c w [(-> & -> & ->)|[_ Hu]]%Hinv [(-> & -> & ->)|[_ Hw]]%Hinv E; cbn in E; [done|..].
    + by apply (tw_inj _ _ Hwf i a t l c w).
    + by apply (tw_inj _ _ Hwf j b u i a t).
    + by apply (tw_inj _ _ Hwf j b u l c w).
Qed.

Lemma threads_wf_same v v' s s' : threads_wf v s →
  tinfos v' = tinfos v → threadsInfos v' = threadsInfos v → tidMap v' = tidMap v → vm_nextptr v' = vm_nextptr v →
  threadsBitmap s' = threadsBitmap s → localThreadsInfos s' = localThreadsInfos s →
  nextUserThreadid s' = nextUserThreadid s → threads_wf v' s'.
Proof.
  intros Hwf E1 E2 E3 E4 E5 E6 E7.
  assert (∀ i a t, slot v' s' i a t ↔ slot v s i a t) as Hs by (intros; unfold slot; rewrite E1, E5, E6; done).
  constructor; rewrite ?E1, ?E2, ?E3, ?E4, ?E5, ?E6, ?E7; try apply Hwf.
  - intros i Hi Hb. destruct (tw_full _ _ Hwf i Hi Hb) as (a & t & H). exists a, t. by apply Hs.
  - intros i a t H%Hs. by apply (tw_slot _ _ Hwf i a t).
  - intros i a t j b u H1%Hs H2%Hs. by apply (tw_inj _ _ Hwf i a t j b u).
Qed.

Lemma GetNewThreadId_spec t k : bm_wf (tidMap (vm k)) → 0 ≤ lastTid k → free_set (tidMap (vm k)) ≠ ∅ →
  ∃ tid tm, GetNewThreadId t k = Ok (tid, with_kthreads
      (with_vm k (with_threads (vm k) tm (threadsInfos (vm k)) (tinfos (vm k)))) (tid + 1) (<[tid := t]> (kthreads k))) ∧
    0 ≤ tid < numBits (tidMap (vm k)) ∧ tid ∈ free_set (tidMap (vm k)) ∧ updates (tidMap (vm k)) tm tid true ∧
    free_set tm = free_set (tidMap (vm k)) ∖ {[tid]}.
Proof.
  intros Hwf Hl Hne. unfold GetNewThreadId.
  destruct (FindStart_spec (tidMap (vm k)) (lastTid k) Hwf Hl) as [[_ E]|(j & tm & E & Hin & _ & _ & Hu & Hf)]; [done|].
  rewrite E. cbn [mbind outcome_bind]. pose proof Hin as [Hr _]%elem_of_free_set.
  set (r := (lastTid k + j) mod numBits (tidMap (vm k))) in *.
  exists r, tm. split; [|done]. destruct (Z.eqb_spec r (-1)); [lia|done].
Qed.

Lemma current_space_ok k cur self : runs k cur self → current_space cur k = Ok self.
Proof. intros [(c & Hc & Hs) _ _]. unfold current_space. by rewrite Hc, Hs. Qed.

Lemma info_from_tid k s i a t : threads_wf (vm k) s → slot (vm k) s i a t → thread_id t ≠ 0 →
  GetThreadInfoFromTid (thread_id t) (vm k) = Ok (Some a, vm k) ∧ get_tinfo (vm k) (Some a) = Ok (a, t).
Proof.
  intros Hwf Hs Hnz. pose proof (tw_slot _ _ Hwf i a t Hs) as (_ & _ & Hid & Hb & Hi).
  pose proof (tw_tid _ _ Hwf) as (Htm & Htn & Htl). destruct Hs as (_ & _ & _ & Ht).
  unfold GetThreadInfoFromTid.
  destruct (Z.ltb_spec 0 (thread_id t)); [|lia]. destruct (Z.leb_spec (thread_id t) MaxThreads); [|lia].
  cbn [andb]. rewrite Test_spec, Hb by (done || lia). cbn [mbind outcome_bind].
  rewrite (proj2 (arr_get_Ok _ _ (Some a))) by (split; [lia|done]). cbn [mbind outcome_bind].
  split; [done|]. cbn [get_tinfo]. by rewrite Ht.
Qed.
End tables.

Section create.
Implicit Types (k : Kernel) (s : AddrSpace) (v : VM).

Lemma live_range v s : threads_wf v s → 0 ≤ live s ≤ 7.
Proof.
  intros Hwf. unfold live. rewrite size_free_set. unfold free_list.
  pose proof (length_filter (λ i, bit (threadsBitmap s) i = false) (seqZ 0 (numBits (threadsBitmap s)))) as Hf.
  rewrite length_seqZ, (tw_bits _ _ Hwf) in *. change MaxThreadsPerProcess with 7 in *. lia.
Qed.

Lemma nThreads_small v s d : threads_wf v s → nThreads s = live s → -1 ≤ d ≤ 1 →
  i32 (nThreads s + d) = nThreads s + d.
Proof. intros Hwf -> Hd. pose proof (live_range v s Hwf). apply i32_id. unfold is_i32, two31. lia. Qed.

Lemma live_take s s' i : i ∈ free_set (threadsBitmap s) →
  free_set (threadsBitmap s') = free_set (threadsBitmap s) ∖ {[i]} → live s' = live s + 1.
Proof.
  intros Hi E. unfold live. rewrite E, size_difference by set_solver. rewrite size_singleton.
  assert (size (free_set (threadsBitmap s)) ≠ 0%nat); [|lia].
  intros H%size_empty_inv. set_solver.
Qed.
Lemma live_give s s' i : i ∉ free_set (threadsBitmap s) →
  free_set (threadsBitmap s') = {[i]} ∪ free_set (threadsBitmap s) → live s' = live s - 1.
Proof. intros Hi E. unfold live. rewrite E, size_union by set_solver. rewrite size_singleton. lia. Qed.

(** What a new thread looks like in the kernel state. *)
Record created_thread k k' self s s' (tid : Z) (arg : thread_arg) : Prop := mkCreatedThread {
  ct_wf : proc_wf k' self s';
  ct_lock : threadsLock k' = None;
  ct_ready : ready k' = ready k ++ [tid];
  ct_thread : kthreads k' !! tid = Some (mkThread (Some self) false arg);
  ct_fresh : tid ∈ free_set (tidMap (vm k)) ∧ free_set (tidMap (vm k')) = free_set (tidMap (vm k)) ∖ {[tid]};
  ct_count : nThreads s' = nThreads s + 1;
  ct_slots : ∃ i a t, thread_id t = tid ∧ userthread_id t = nextUserThreadid s ∧
    ∀ j b u, slot (vm k') s' j b u ↔ (j = i ∧ b = a ∧ u = t) ∨ slot (vm k) s j b u;
  ct_others : ∀ other, other ≠ self → spaces (vm k') !! other = spaces (vm k) !! other
}.

Lemma fresh_tid k s tid i a t : threads_wf (vm k) s → slot (vm k) s i a t →
  tid ∈ free_set (tidMap (vm k)) → thread_id t ≠ tid.
Proof.
  intros Hwf Hs [_ Hf]%elem_of_free_set <-. pose proof (tw_slot _ _ Hwf i a t Hs) as (_ & _ & _ & Hb & _). congruence.
Qed.

(** The state in which [AllocateThreadData] runs. *)
Definition with_new_thread k (cur tid : Z) (tm : BitMap) (t : Thread) : Kernel :=
  with_kthreads (with_vm (with_lock k (Some cur)) (with_threads (vm k) tm (threadsInfos (vm k)) (tinfos (vm k))))
    (tid + 1) (<[tid := t]> (kthreads k)).

Lemma new_thread_refused k self s cur tid tm t : proc_wf k self s →
  0 ≤ tid < MaxThreads → updates (tidMap (vm k)) tm tid true →
  proc_wf (with_lock (with_new_thread k cur tid tm t) None) self s.
Proof.
  intros Hwf Htid Hu. pose proof (pw_threads _ _ _ Hwf) as Ht. constructor; try apply Hwf.
  - by apply (threads_wf_mark _ _ tm tid).
  - cbn. pose proof (tw_tid _ _ Ht) as (_ & Hn & _). destruct Hu as (_ & _ & Hu).
    rewrite Hu by (rewrite Hn; by vm_compute). case_decide; [done|apply Hwf].
  - cbn. lia.
Qed.
End create.

(** The rest of the call once the slot is allocated. *)
Lemma create_finish (k : Kernel) self s cur tid tm arg idx v' s' a t :
  proc_wf k self s → runs k cur self → 0 < tid < MaxThreads →
  tid ∈ free_set (tidMap (vm k)) → updates (tidMap (vm k)) tm tid true →
  free_set tm = free_set (tidMap (vm k)) ∖ {[tid]} →
  let k2 := with_new_thread k cur tid tm (mkThread None false arg) in
  spaces v' !! self = Some s' → threads_wf v' s' → slot v' s' idx a t →
  thread_id t = tid → userthread_id t = nextUserThreadid s → threadCond t = Some [] →
  (∀ j b u, slot v' s' j b u ↔ (j = idx ∧ b = a ∧ u = t) ∨ slot (vm k2) s j b u) →
  thread_frame (vm k2) v' self s s' → tidMap v' = tm → idx ∈ free_set (threadsBitmap s) →
  free_set (threadsBitmap s') = free_set (threadsBitmap s) ∖ {[idx]} →
  ∃ k' s2, (k4 ← add_threads self 1 (with_vm k2 v'); k5 ← Thread_Fork cur tid k4; k6 ← unlock_threads cur k5;
            u ← GetUserThreadId tid k6; Ok (u, k6)) = Ok (nextUserThreadid s, k') ∧
    created_thread k k' self s s2 tid arg.
Proof.
  intros Hwf Hr Htid Hin Hu Hfree k2 Hsp Htw Hsl Et Eu Ec Hslots [Es Ev] Etm Hidx Hfs.
  pose proof (pw_threads _ _ _ Hwf) as Hw0.
  assert (nThreads s' = nThreads s) as En by (by rewrite Es).
  unfold add_threads, get_space. cbn [vm with_vm]. rewrite Hsp. cbn [mbind outcome_bind].
  rewrite En, (nThreads_small (vm k) s 1 Hw0 (pw_count _ _ _ Hwf)) by lia.
  set (s2 := with_nThreads s' (nThreads s + 1)).
  destruct (rn_space _ _ _ Hr) as (c & Hc & Hcs).
  assert (cur ≠ tid) as Hct.
  { intros ->. apply elem_of_free_set in Hin as [_ Hin]. pose proof (rn_bit _ _ _ Hr). congruence. }
  unfold Thread_Fork. cbn [kthreads with_vm with_kthreads k2 with_new_thread].
  rewrite lookup_insert_eq, lookup_insert_ne, Hc by done. rewrite Hcs. cbn [mbind outcome_bind isMain t_arg].
  unfold unlock_threads. cbn [threadsLock with_ready with_kthreads with_vm with_lock k2 with_new_thread].
  unfold mutex_release. rewrite Z.eqb_refl. cbn [ASSERT mbind outcome_bind].
  rewrite insert_insert_eq.
  set (k6 := with_lock _ None).
  assert (threads_wf (vm k6) s2) as Hw6 by (by apply (threads_wf_same v' _ s' _)).
  assert (∀ j b u, slot (vm k6) s2 j b u ↔ slot v' s' j b u) as Hsl6 by done.
  destruct (info_from_tid k6 s2 idx a t Hw6 (proj2 (Hsl6 _ _ _) Hsl)) as [E1 E2]; [lia|].
  unfold GetUserThreadId. rewrite Et in E1. rewrite E1. cbn [mbind outcome_bind].
  cbn [get_tinfo] in E2 |- *. rewrite E2. cbn [mbind outcome_bind]. rewrite Eu.
  exists k6, s2. split; [done|].
  assert (spaces v' = <[self := s']> (spaces (vm k))) as Esp by (by rewrite Ev).
  split.
  - constructor.
    + cbn. apply lookup_insert_eq.
    + exact Hw6.
    + cbn. change (nThreads s + 1 = live s'). rewrite (pw_count _ _ _ Hwf). symmetry. by apply (live_take s s' idx).
    + cbn. rewrite Etm. pose proof (tw_tid _ _ Hw0) as (_ & Hn & _). destruct Hu as (_ & _ & Hu).
      rewrite Hu by (rewrite Hn; by vm_compute). case_decide; [done|apply Hwf].
    + cbn. lia.
    + intros i b u [(-> & -> & ->)|H]%Hsl6%Hslots; [split; [lia|by rewrite Ec]|].
      by apply (pw_live _ _ _ Hwf i b u).
  - done.
  - done.
  - cbn. apply lookup_insert_eq.
  - split; [done|]. cbn. by rewrite Etm.
  - done.
  - exists idx, a, t. split; [done|]. split; [done|]. intros j b u. by rewrite Hsl6, Hslots.
  - intros other Hne. cbn. rewrite Esp. by rewrite !lookup_insert_ne.
Qed.

(** C23: [UserThreadCreate], called by a live thread of a well-formed process
    while a kernel thread identifier is free, releases the lock and keeps the
    process well formed.  When all seven slots are taken it returns -1, starts
    nothing and keeps the kernel identifier it took; otherwise it returns a
    user identifier never used before, the new thread is ready, runs in the
    caller's address space with the given function and argument, and occupies
    a slot that was free; every other slot and process is as before. *)
Theorem do_UserThreadCreate_spec (k : Kernel) self s cur wrapper f arg :
  proc_wf k self s → runs k cur self → threadsLock k = None →
  free_set (tidMap (vm k)) ≠ ∅ → nextUserThreadid s + 1 < two31 →
  (∃ tid k', do_UserThreadCreate cur wrapper f arg k = Ok (-1, k') ∧ proc_wf k' self s ∧
     threadsLock k' = None ∧ ready k' = ready k ∧ spaces (vm k') = spaces (vm k) ∧
     tid ∈ free_set (tidMap (vm k)) ∧ free_set (tidMap (vm k')) = free_set (tidMap (vm k)) ∖ {[tid]} ∧
     ∀ i, 0 ≤ i < MaxThreadsPerProcess → ∃ a t, slot (vm k) s i a t) ∨
  (∃ tid k' s', do_UserThreadCreate cur wrapper f arg k = Ok (nextUserThreadid s, k') ∧
     created_thread k k' self s s' tid (mkThreadArg wrapper f arg)).
Proof.
  intros Hwf Hr Hlock Hne Hnext. unfold do_UserThreadCreate, lock_threads. rewrite Hlock.
  cbn [mutex_acquire mbind outcome_bind]. pose proof (pw_threads _ _ _ Hwf) as Hw.
  pose proof (tw_tid _ _ Hw) as (Htm & Htn & _).
  destruct (GetNewThreadId_spec (mkThread None false (mkThreadArg wrapper f arg)) (with_lock k (Some cur)) Htm
    (pw_last _ _ _ Hwf) Hne) as (tid & tm & -> & Htid & Hin & Hu & Hfree).
  cbn [mbind outcome_bind]. cbn [vm with_lock] in Htid, Hin, Hu, Hfree. rewrite Htn in Htid.
  set (t0 := mkThread None false _).
  change (with_kthreads _ (tid + 1) _) with (with_new_thread k cur tid tm t0).
  assert (tid ≠ 0) as Hnz.
  { intros ->. apply elem_of_free_set in Hin as [_ Hb]. pose proof (pw_zero _ _ _ Hwf). congruence. }
  assert (runs (with_new_thread k cur tid tm t0) cur self) as Hr2.
  { destruct Hr as [(c & Hc & Hcs) Hcur Hbit]. constructor; [|done|].
    - exists c. split; [|done]. cbn. rewrite lookup_insert_ne; [done|].
      intros ->. apply elem_of_free_set in Hin as [_ Hb]. congruence.
    - cbn. destruct Hu as (_ & _ & Hu). rewrite Hu by lia. by case_decide. }
  rewrite (current_space_ok _ _ _ Hr2). cbn [mbind outcome_bind].
  assert (bit tm tid = true) as Hbit by (destruct Hu as (_ & _ & Hu); rewrite Hu by lia; by rewrite decide_True).
  destruct (AllocateThreadData_spec self (vm (with_new_thread k cur tid tm t0)) s tid (pw_space _ _ _ Hwf)
    (threads_wf_mark _ _ _ _ Hw Htid Hu) Htid Hbit) as [[-> Hfull]|H]; [|done|..].
  - intros i a t Hs. by apply (fresh_tid k s tid i a t).
  - left. exists tid, (with_lock (with_new_thread k cur tid tm t0) None).
    cbn [mbind outcome_bind Z.eqb orb]. unfold unlock_threads. cbn [threadsLock with_vm with_new_thread with_kthreads with_lock].
    unfold mutex_release. rewrite Z.eqb_refl. split; [done|].
    split; [by apply new_thread_refused|]. done.
  - right. destruct H as (idx & v' & s' & a & t & -> & Hsp & Htw & Hsl & Et & Eu & _ & Hslots & _ & Hfr & _ & Etm & Hidx & Hfs
      & _ & Ec & _).
    cbn [mbind outcome_bind]. pose proof Hidx as [Hix _]%elem_of_free_set.
    destruct (Z.eqb_spec idx (-1)); [lia|]. destruct (Z.eqb_spec tid (-1)); [lia|]. cbn [orb].
    destruct (create_finish k self s cur tid tm (mkThreadArg wrapper f arg) idx v' s' a t)
      as (k' & s2 & E & Hc); try done; [lia|].
    exists tid, k', s2. split; [exact E|exact Hc].
Qed.

(** ** The end of a thread *)
Section exit.
Implicit Types (k : Kernel) (s : AddrSpace) (v : VM).

(** Thread [cur] in slot [i] at [a], with the waiting threads [q], has ended. *)
Record exited k k' self s s' (cur i : Z) (a : nat) (q : list Z) : Prop := mkExited {
  ex_wf : proc_wf k' self s';
  ex_lock : threadsLock k' = None;
  ex_ready : ready k' = ready k ++ q ++ (if nThreads s' =? 0 then take 1 (nThreadsCond k !!! self) else []);
  ex_slots : ∀ j b u, slot (vm k') s' j b u ↔ j ≠ i ∧ slot (vm k) s j b u;
  ex_count : nThreads s' = nThreads s - 1;
  ex_free : free_set (tidMap (vm k')) = {[cur]} ∪ free_set (tidMap (vm k));
  ex_others : ∀ other, other ≠ self → spaces (vm k') !! other = spaces (vm k) !! other;
  ex_threads : kthreads k' = kthreads k;
  ex_descr : ∃ t, tinfos (vm k') !! a = Some t ∧ thread_id t = cur;
  ex_conds : nThreadsCond k' !!! self = (if nThreads s' =? 0 then drop 1 else id) (nThreadsCond k !!! self)
}.

Lemma bit_not_free b i : 0 ≤ i < numBits b → (bit b i = true ↔ i ∉ free_set b).
Proof. intros Hi. rewrite elem_of_free_set. destruct (bit b i); naive_solver. Qed.

Lemma unlock_held cur k : threadsLock k = Some cur → unlock_threads cur k = Ok (with_lock k None).
Proof. intros E. unfold unlock_threads, mutex_release. rewrite E, Z.eqb_refl. done. Qed.

Lemma signal_main_ready self k :
  signal_main self k = with_ready (with_conds k (nThreadsCond (signal_main self k)) (processJoinCond k))
    (ready k ++ take 1 (nThreadsCond k !!! self)).
Proof.
  unfold signal_main. destruct (nThreadsCond k !!! self) as [|t q]; [|done].
  rewrite app_nil_r. by destruct k.
Qed.

Lemma unlock_signal self cur (b : bool) k : threadsLock k = Some cur →
  ∃ k', unlock_threads cur (if b then signal_main self k else k) = Ok k' ∧
    vm k' = vm k ∧ lastTid k' = lastTid k ∧ threadsLock k' = None ∧ kthreads k' = kthreads k ∧
    ready k' = ready k ++ (if b then take 1 (nThreadsCond k !!! self) else []) ∧
    nThreadsCond k' !!! self = (if b then drop 1 else id) (nThreadsCond k !!! self).
Proof.
  intros Hl. destruct b.
  - exists (with_lock (signal_main self k) None).
    assert (nThreadsCond (signal_main self k) !!! self = drop 1 (nThreadsCond k !!! self)) as Hc.
    { unfold signal_main. destruct (nThreadsCond k !!! self) as [|t q] eqn:E; cbn; [by rewrite E|].
      by rewrite lookup_total_insert_eq. }
    rewrite <- Hc. rewrite signal_main_ready. split; [by apply unlock_held|done].
  - exists (with_lock k None). split; [by apply unlock_held|]. do 4 (split; [done|]). by rewrite app_nil_r.
Qed.

Lemma exit_spec k self s i a t q :
  proc_wf k self s → runs k (thread_id t) self → threadsLock k = None →
  slot (vm k) s i a t → threadCond t = Some q →
  ∃ k' s', do_UserThreadExit (thread_id t) k = Ok k' ∧ exited k k' self s s' (thread_id t) i a q.
Proof.
  intros Hwf Hr Hlock Hs Hq. pose proof (pw_threads _ _ _ Hwf) as Hw.
  destruct (pw_live _ _ _ Hwf i a t Hs) as [Hnz _].
  unfold do_UserThreadExit, lock_threads. rewrite Hlock. cbn [mutex_acquire mbind outcome_bind vm with_lock].
  destruct (info_from_tid k s i a t Hw Hs Hnz) as [-> E2]. cbn [mbind outcome_bind ASSERT].
  rewrite E2. cbn [mbind outcome_bind]. unfold broadcast_thread. rewrite Hq. cbn [mbind outcome_bind].
  destruct (threads_wf_cond (vm k) s i a t (Some []) Hw Hs) as (Hw2 & Hs2 & Hinv).
  set (t2 := mkThreadInfo (addrspace_idx t) (userthread_id t) (thread_id t) (Some [])) in *.
  set (v2 := with_threads (vm k) _ _ _) in *.
  set (k2 := with_ready _ _).
  assert (current_space (thread_id t) k2 = Ok self) as -> by (exact (current_space_ok k _ _ Hr)).
  cbn [mbind outcome_bind]. change (vm k2) with v2. change (thread_id t) with (thread_id t2).
  destruct (DeleteThreadData_spec self v2 s i a t2 (pw_space _ _ _ Hwf) Hw2 Hs2)
    as (v3 & s3 & -> & Hsp & Hw3 & Hsl3 & Hfs & Hft & _ & [Es Ev] & Eti & Etn).
  cbn [mbind outcome_bind]. unfold add_threads, get_space. cbn [vm with_vm]. rewrite Hsp. cbn [mbind outcome_bind].
  assert (nThreads s3 = nThreads s) as -> by (by rewrite Es).
  rewrite (nThreads_small (vm k) s (-1) Hw (pw_count _ _ _ Hwf)) by lia.
  set (s4 := with_nThreads s3 (nThreads s + -1)).
  cbn [put_space with_spaces spaces with_vm vm]. rewrite lookup_insert_eq. cbn [mbind outcome_bind].
  set (k4 := with_vm _ _).
  assert (spaces v3 = <[self := s3]> (spaces (vm k))) as Esp by (by rewrite Ev).
  assert (∀ j b u, slot v3 s3 j b u ↔ j ≠ i ∧ slot (vm k) s j b u) as Hsl.
  { intros j b u. rewrite Hsl3. split.
    - intros [Hne [(-> & _)|[_ H]]%Hinv]; done.
    - intros [Hne H]. split; [done|]. pose proof H as (? & ? & ? & Hb). split; [done|]. split; [done|]. split; [done|].
      cbn. rewrite lookup_insert_ne; [done|]. intros <-. apply Hne. symmetry.
      by apply (slot_addr_inj (vm k) s i a t j u Hw). }
  assert (i ∉ free_set (threadsBitmap s)) as Hnf.
  { destruct Hs as (Hi & Hb & _). apply bit_not_free; [rewrite (tw_bits _ _ Hw)|]; done. }
  pose proof (tw_tid _ _ Hw) as (_ & Htn & _). pose proof (tw_tid _ _ Hw3) as (_ & Htn3 & _).
  assert (proc_wf (with_lock k4 None) self s4) as Hwf4.
  { constructor; cbn [vm with_lock k4 with_vm lastTid k2 with_ready put_cond].
    - cbn. apply lookup_insert_eq.
    - by apply (threads_wf_same v3 _ s3 _).
    - change (nThreads s + -1 = live s3). rewrite (pw_count _ _ _ Hwf), (live_give s s3 i) by done. lia.
    - change (bit (tidMap v3) 0 = true). apply bit_not_free; [rewrite Htn3; by vm_compute|].
      rewrite Hft. pose proof (pw_zero _ _ _ Hwf) as Hz. apply bit_not_free in Hz; [|rewrite Htn; by vm_compute].
      change (tidMap v2) with (tidMap (vm k)). change (thread_id t2) with (thread_id t). set_solver.
    - apply Hwf.
    - intros j b u [_ H]%Hsl. by apply (pw_live _ _ _ Hwf j b u). }
  destruct (unlock_signal self (thread_id t) (nThreads s4 =? 0) k4 eq_refl) as (k' & Ek & Evm & Elt & El & Ekt & Er & Eco).
  exists k', s4. split; [exact Ek|]. constructor; rewrite ?Evm; try done.
  - destruct Hwf4. constructor; rewrite ?Evm, ?Elt; done.
  - rewrite Er. cbn. by rewrite <- app_assoc.
  - intros other Hne. cbn. rewrite Esp. by rewrite !lookup_insert_ne.
  - cbn. rewrite Etn. eexists. split; [apply lookup_insert_eq|done].
Qed.
End exit.

(** ** Joining a thread *)
Section join.
Implicit Types (k : Kernel) (s : AddrSpace).

Lemma relock k cur : threadsLock k = None → with_lock (with_lock k (Some cur)) None = k.
Proof. destruct k; cbn. by intros ->. Qed.

Lemma lock_free cur k : threadsLock k = None → lock_threads cur k = Ok (with_lock k (Some cur)).
Proof. intros E. unfold lock_threads. by rewrite E. Qed.

(** The loop ends when the kernel identifier of the descriptor is free. *)
Lemma join_done cur utid self k a t : current_space cur k = Ok self → threadsLock k = Some cur →
  bm_wf (tidMap (vm k)) → numBits (tidMap (vm k)) = MaxThreads →
  tinfos (vm k) !! a = Some t → thread_id t ∈ free_set (tidMap (vm k)) →
  join_loop cur utid (Some a) k = Ok (Returns tt, Some a, with_lock k None).
Proof.
  intros Hr Hl Hb Hn Ht [Hi Hf]%elem_of_free_set. unfold join_loop.
  rewrite Hr. cbn [mbind outcome_bind get_tinfo]. rewrite Ht. cbn [mbind outcome_bind].
  destruct (Z.ltb_spec (thread_id t) MaxThreads); [|lia]. rewrite Test_spec, Hf by (done || lia).
  cbn [mbind outcome_bind]. by rewrite (unlock_held cur) by done.
Qed.

Lemma join_wait cur utid self k s i a t q : runs k cur self → threadsLock k = Some cur →
  spaces (vm k) !! self = Some s → threads_wf (vm k) s → slot (vm k) s i a t →
  userthread_id t = utid → threadCond t = Some q →
  join_loop cur utid (Some a) k = Ok (Waits, Some a, with_lock (put_cond k a t (q ++ [cur])) None).
Proof.
  intros Hr Hl Hsp Hw Hs Eu Hq. unfold join_loop.
  pose proof (tw_slot _ _ Hw i a t Hs) as (_ & _ & Hid & Hb & _). pose proof (tw_tid _ _ Hw) as (Htm & Htn & _).
  rewrite (current_space_ok _ _ _ Hr). cbn [mbind outcome_bind].
  assert (get_tinfo (vm k) (Some a) = Ok (a, t)) as Hg by (destruct Hs as (_ & _ & _ & Ht); cbn; by rewrite Ht).
  rewrite Hg. cbn [mbind outcome_bind].
  destruct (Z.ltb_spec (thread_id t) MaxThreads); [|lia]. rewrite Test_spec, Hb by (done || lia).
  cbn [mbind outcome_bind].
  destruct (lookup_utid self (vm k) s utid Hsp Hw) as ([b|] & -> & Hx); cbn [mbind outcome_bind].
  2: { by exfalso; apply (Hx i a t). }
  destruct Hx as (j & u & Hj & E). assert (j = i) as -> by (apply (tw_inj _ _ Hw j b u i a t Hj Hs); congruence).
  assert (b = a) as -> by (destruct Hj as (_ & _ & L1 & _), Hs as (_ & _ & L2 & _); congruence).
  rewrite Hg. cbn [mbind outcome_bind]. rewrite Hq. by rewrite (unlock_held cur) by done.
Qed.

Lemma put_cond_wf k self s i a t q : proc_wf k self s → slot (vm k) s i a t →
  proc_wf (put_cond k a t q) self s ∧
  slot (vm (put_cond k a t q)) s i a (mkThreadInfo (addrspace_idx t) (userthread_id t) (thread_id t) (Some q)).
Proof.
  intros Hwf Hs.
  destruct (threads_wf_cond (vm k) s i a t (Some q) (pw_threads _ _ _ Hwf) Hs) as (Hw & Hs1 & Hinv).
  split; [|exact Hs1]. constructor; try apply Hwf; [exact Hw|].
  intros j b u [(-> & -> & ->)|[_ H]]%Hinv; [|by apply (pw_live _ _ _ Hwf j b u)].
  split; [apply (pw_live _ _ _ Hwf i a t Hs)|by eexists].
Qed.

Lemma proc_wf_lock k self s l : proc_wf k self s → proc_wf (with_lock k l) self s.
Proof. intros []. by constructor. Qed.
End join.

(** A joiner that runs after the thread it waits for has ended: it returns when
    the kernel identifier in the descriptor is still free; when the identifier
    has been given to another thread, it looks up a user identifier that no
    thread has any more and dereferences NULL. *)
Lemma join_after_end cur utid self k s a t :
  proc_wf k self s → current_space cur k = Ok self → threadsLock k = None →
  tinfos (vm k) !! a = Some t → 0 ≤ thread_id t < MaxThreads →
  (∀ i b u, slot (vm k) s i b u → userthread_id u ≠ utid) →
  do_UserThreadJoin_resume cur utid (Some a) k =
    if decide (thread_id t ∈ free_set (tidMap (vm k))) then Ok (Returns tt, Some a, k) else Fault.
Proof.
  intros Hwf Hc Hl Ht Hid Hno. pose proof (pw_threads _ _ _ Hwf) as Hw.
  pose proof (tw_tid _ _ Hw) as (Htm & Htn & _).
  unfold do_UserThreadJoin_resume. rewrite (lock_free cur k Hl). cbn [mbind outcome_bind].
  destruct (decide _) as [Hf|Hf].
  - rewrite <- (relock k cur Hl) at 2. by apply (join_done cur utid self _ a t).
  - apply bit_not_free in Hf; [|by rewrite Htn]. unfold join_loop.
    assert (current_space cur (with_lock k (Some cur)) = Ok self) as -> by exact Hc.
    cbn [mbind outcome_bind get_tinfo vm with_lock]. rewrite Ht. cbn [mbind outcome_bind].
    destruct (Z.ltb_spec (thread_id t) MaxThreads); [|lia]. rewrite Test_spec, Hf by (done || lia).
    cbn [mbind outcome_bind].
    destruct (lookup_utid self (vm k) s utid (pw_space _ _ _ Hwf) Hw) as ([b|] & -> & Hx); [|done].
    destruct Hx as (i & u & Hs & E). by destruct (Hno i b u Hs).
Qed.

(** C24: [UserThreadJoin] returns at once, changing nothing, exactly when no
    live thread of the process has the given identifier.  Otherwise the caller
    sleeps in the queue of that thread with the lock released, the process
    stays well formed, and when that thread calls [UserThreadExit] the caller,
    with all others that wait for it, becomes ready, the thread's slot, stack
    and kernel identifier are free again and the main thread is woken when it
    was the last one.  The join then returns when the joiner runs before
    anything else; when it runs later, in any state in which the lock is free
    and no live thread has the awaited identifier, it returns if the kernel
    identifier of the ended thread is still free, and otherwise dereferences
    NULL. *)
Theorem UserThreadJoin_waits (k : Kernel) self s cur utid :
  proc_wf k self s → runs k cur self → threadsLock k = None →
  (do_UserThreadJoin cur utid k = Ok (Returns tt, None, k) ∧
     ∀ i a t, slot (vm k) s i a t → userthread_id t ≠ utid) ∨
  ∃ i a t q k1, slot (vm k) s i a t ∧ userthread_id t = utid ∧ threadCond t = Some q ∧
    do_UserThreadJoin cur utid k = Ok (Waits, Some a, k1) ∧ proc_wf k1 self s ∧
    ready k1 = ready k ∧ threadsLock k1 = None ∧
    (runs k (thread_id t) self →
       ∃ k2 s2, do_UserThreadExit (thread_id t) k1 = Ok k2 ∧
         exited k1 k2 self s s2 (thread_id t) i a (q ++ [cur]) ∧ cur ∈ ready k2 ∧
         do_UserThreadJoin_resume cur utid (Some a) k2 = Ok (Returns tt, Some a, k2) ∧
         ∀ k3 s3, proc_wf k3 self s3 → current_space cur k3 = Ok self → threadsLock k3 = None →
           tinfos (vm k3) !! a = tinfos (vm k2) !! a →
           (∀ j b u, slot (vm k3) s3 j b u → userthread_id u ≠ utid) →
           do_UserThreadJoin_resume cur utid (Some a) k3 =
             if decide (thread_id t ∈ free_set (tidMap (vm k3))) then Ok (Returns tt, Some a, k3) else Fault).
Proof.
  intros Hwf Hr Hlock. pose proof (pw_threads _ _ _ Hwf) as Hw. unfold do_UserThreadJoin.
  rewrite (lock_free cur k Hlock). set (kl := with_lock k (Some cur)). cbn [mbind outcome_bind].
  assert (runs kl cur self) as Hrl by (destruct Hr; by constructor).
  rewrite (current_space_ok _ _ _ Hrl). cbn [mbind outcome_bind vm kl with_lock].
  destruct (lookup_utid self (vm k) s utid (pw_space _ _ _ Hwf) Hw) as ([a|] & -> & Hx); cbn [mbind outcome_bind].
  2: { left. split; [|exact Hx]. unfold join_loop. rewrite (current_space_ok _ _ _ Hrl). cbn [mbind outcome_bind].
       rewrite (unlock_held cur) by done. cbn [mbind outcome_bind]. unfold kl. by rewrite relock. }
  right. destruct Hx as (i & t & Hs & Eu). destruct (pw_live _ _ _ Hwf i a t Hs) as [Hnz [q Hq]].
  rewrite (join_wait cur utid self kl s i a t q) by (done || apply Hwf).
  set (k1 := with_lock (put_cond kl a t (q ++ [cur])) None).
  destruct (put_cond_wf kl self s i a t (q ++ [cur]) (proc_wf_lock _ _ _ _ Hwf) Hs) as [Hwf1 Hs1].
  set (t1 := mkThreadInfo _ _ _ _) in Hs1.
  exists i, a, t, q, k1. do 4 (split; [done|]). split; [by apply proc_wf_lock|]. split; [done|]. split; [done|].
  intros Hrt. destruct (exit_spec k1 self s i a t1 (q ++ [cur])) as (k2 & s2 & E & Hex); try done.
  { by apply proc_wf_lock. }
  { destruct Hrt; by constructor. }
  exists k2, s2. split; [exact E|]. split; [exact Hex|]. destruct Hex as [Hwf2 Hl2 Hready Hsl2 _ Hfree _ Hkt (t2 & Ht2 & Eid) _].
  pose proof (tw_slot _ _ Hw i a t Hs) as (_ & _ & Hid & _).
  split; [rewrite Hready; set_solver|]. split.
  - rewrite (join_after_end cur utid self k2 s2 a t2), decide_True; try done; rewrite ?Eid.
    + rewrite Hfree. set_solver.
    + unfold current_space. rewrite Hkt. exact (current_space_ok _ _ _ Hr).
    + done.
    + intros j b u [Hne Hsl]%Hsl2 E'. apply Hne.
      apply (tw_inj _ _ (pw_threads _ _ _ Hwf1) j b u i a t1 Hsl Hs1). by rewrite E'.
  - intros k3 s3 Hwf3 Hc3 Hl3 Ht3 Hno3. rewrite (join_after_end cur utid self k3 s3 a t2) by (rewrite ?Eid; congruence || done).
    by rewrite Eid.
Qed.

(** ** The process of ThreadData.v, whose main thread is thread 0 *)
Definition demo_kernel : Kernel :=
  mkKernel demo_threads None 3
    {[0 := mkThread (Some 3%nat) true (mkThreadArg 0 0 0); 1 := mkThread (Some 3%nat) false (mkThreadArg 64 128 5)]}
    [] {[3%nat := []]} ∅ {[3%nat := replicate 128 None]} 1 None (Semaphore_new (-1)).

Lemma demo_kernel_wf : proc_wf demo_kernel 3 demo_process.
Proof.
  constructor.
  - apply lookup_singleton_eq.
  - exact demo_threads_wf.
  - by vm_compute.
  - reflexivity.
  - by vm_compute.
  - intros i a t (-> & -> & ->)%demo_slot. split; [done|by eexists].
Qed.

Lemma demo_kernel_runs tid : tid = 0 ∨ tid = 1 → runs demo_kernel tid 3.
Proof.
  intros H. constructor; [|by destruct H as [-> | ->]; vm_compute|by destruct H as [-> | ->]].
  destruct H as [-> | ->]; eexists (mkThread (Some 3%nat) _ _); (split; [reflexivity|done]).
Qed.

Lemma demo_kernel_tids : free_set (tidMap (vm demo_kernel)) ≠ ∅.
Proof.
  intros E. apply (not_elem_of_empty (C := gset Z) 5). rewrite <- E. clear E.
  apply elem_of_free_set. split; [by vm_compute|reflexivity].
Qed.

Lemma do_UserThreadCreate_spec_witness : ∃ k' s' tid,
  do_UserThreadCreate 0 64 128 9 demo_kernel = Ok (2, k') ∧ ready k' = [tid] ∧ proc_wf k' 3 s' ∧ nThreads s' = 2.
Proof.
  destruct (do_UserThreadCreate_spec demo_kernel 3 demo_process 0 64 128 9 demo_kernel_wf
    (demo_kernel_runs 0 (or_introl eq_refl)) eq_refl demo_kernel_tids ltac:(reflexivity))
    as [(tid & k' & _ & _ & _ & _ & _ & _ & _ & Hfull)|(tid & k' & s' & E & H)].
  - exfalso. destruct (Hfull 1) as (a & t & (Ei & _)%demo_slot); [by vm_compute|done].
  - exists k', s', tid. split; [exact E|]. split; [exact (ct_ready _ _ _ _ _ _ _ H)|].
    split; [exact (ct_wf _ _ _ _ _ _ _ H)|exact (ct_count _ _ _ _ _ _ _ H)].
Defined.

Lemma UserThreadJoin_waits_witness : ∃ k1 k2,
  do_UserThreadJoin 0 1 demo_kernel = Ok (Waits, Some 5%nat, k1) ∧
  do_UserThreadExit 1 k1 = Ok k2 ∧ 0 ∈ ready k2 ∧
  do_UserThreadJoin_resume 0 1 (Some 5%nat) k2 = Ok (Returns tt, Some 5%nat, k2).
Proof.
  destruct (UserThreadJoin_waits demo_kernel 3 demo_process 0 1 demo_kernel_wf
    (demo_kernel_runs 0 (or_introl eq_refl)) eq_refl)
    as [[_ Hno]|(i & a & t & q & k1 & (-> & -> & ->)%demo_slot & _ & Eq & E1 & _ & _ & _ & H)].
  - exfalso. by apply (Hno 0 5%nat demo_thread); [apply demo_slot|].
  - destruct (H (demo_kernel_runs 1 (or_intror eq_refl))) as (k2 & s2 & E2 & _ & Hin & E3 & _).
    exists k1, k2. exact (conj E1 (conj E2 (conj Hin E3))).
Defined.

(** The joiner that loses the race: identifiers have come round to 1 again, and
    another process takes it before the joiner runs. *)
Lemma join_loses_race : ∃ k1 k2 k3,
  do_UserThreadJoin 0 1 demo_kernel = Ok (Waits, Some 5%nat, k1) ∧
  do_UserThreadExit 1 k1 = Ok k2 ∧
  GetNewThreadId (mkThread None true (mkThreadArg 0 0 0)) (with_kthreads k2 1 (kthreads k2)) = Ok (1, k3) ∧
  do_UserThreadJoin_resume 0 1 (Some 5%nat) k3 = Fault.
Proof. do 3 eexists. repeat (split; [by vm_compute|]). by vm_compute. Qed.

(** ** The semaphores of a process as a finite map *)

(** The semaphores of process [self] are those of [m], by identifier. *)
Record sem_rel (k : Kernel) (self : nat) (m : gmap Z Semaphore) : Prop := mkSemRel {
  sr_state : ∃ s l, spaces (vm k) !! self = Some s ∧ semLists k !! self = Some l ∧
    bm_wf (semBitmap s) ∧ numBits (semBitmap s) = MAX_SEM ∧ Z.of_nat (length l) = MAX_SEM ∧
    (∀ id, 0 ≤ id < MAX_SEM → bit (semBitmap s) id = true → ∃ x, l !! Z.to_nat id = Some (Some x)) ∧
    ∀ id x, m !! id = Some x ↔ 0 ≤ id < MAX_SEM ∧ bit (semBitmap s) id = true ∧ l !! Z.to_nat id = Some (Some x)
}.

(** What the calls mean on one semaphore. *)
Definition posted (x : Semaphore) : Semaphore := mkSemaphore (value x + 1) (tail (queue x)).
Definition waited (cur : Z) (x : Semaphore) : Semaphore :=
  if value x =? 0 then mkSemaphore (value x) (queue x ++ [cur]) else mkSemaphore (value x - 1) (queue x).
Definition wait_result (x : option Semaphore) : waiting unit :=
  match x with Some y => if value y =? 0 then Waits else Returns tt | None => Returns tt end.

Section sems.
Implicit Types (k : Kernel) (s : AddrSpace) (m : gmap Z Semaphore).

(** Only the semaphores of [self] and the ready list may differ. *)
Definition others_sems k k' self (woken : list Z) : Prop :=
  ready k' = ready k ++ woken ∧ ∀ other m, other ≠ self → sem_rel k other m → sem_rel k' other m.

Lemma others_put k k' self woken : ready k' = ready k ++ woken →
  (∀ other, other ≠ self → spaces (vm k') !! other = spaces (vm k) !! other ∧ semLists k' !! other = semLists k !! other) →
  others_sems k k' self woken.
Proof.
  intros Hr Ho. split; [done|]. intros other m Hne [(s & l & Hs & Hl & H)].
  destruct (Ho other Hne) as [E1 E2]. constructor. exists s, l. by rewrite E1, E2.
Qed.

Lemma valid_sem_rel k self m s l id : sem_rel k self m → 0 ≤ id →
  spaces (vm k) !! self = Some s → semLists k !! self = Some l → valid_sem s l id = Ok (m !! id).
Proof.
  intros [(s' & l' & Hs & Hl & Hb & Hn & Hlen & Hfull & Hm)] Hid E1 E2.
  assert (s' = s ∧ l' = l) as [-> ->] by (split; congruence).
  unfold valid_sem. destruct (Z.ltb_spec id MAX_SEM) as [Hlt|Hge].
  - rewrite Test_spec by (done || lia). cbn [mbind outcome_bind].
    destruct (bit (semBitmap s) id) eqn:E.
    + destruct (Hfull id) as (x & Hx); [lia|done|].
      rewrite (proj2 (arr_get_Ok _ _ (Some x))) by (split; [lia|done]). f_equal. symmetry. by apply Hm.
    + destruct (m !! id) as [x|] eqn:Ex; [|done]. apply Hm in Ex as (_ & E' & _). congruence.
  - destruct (m !! id) as [x|] eqn:Ex; [|done]. apply Hm in Ex as (? & _). lia.
Qed.

Lemma valid_sem_negative k self m s l id : sem_rel k self m → id < 0 →
  spaces (vm k) !! self = Some s → valid_sem s l id = AssertFail.
Proof.
  intros [(s' & l' & Hs & _ & Hb & Hn & _)] Hid E. assert (s' = s) as -> by congruence.
  unfold valid_sem. destruct (Z.ltb_spec id MAX_SEM); [|by unfold MAX_SEM in *; lia].
  unfold Test, in_range. destruct (Z.leb_spec 0 id); [lia|done].
Qed.

(** Replacing the semaphore of a valid identifier. *)
Lemma sem_rel_update k k' self m id x y s l : sem_rel k self m → m !! id = Some x →
  spaces (vm k) !! self = Some s → semLists k !! self = Some l →
  spaces (vm k') = spaces (vm k) → semLists k' = <[self := <[Z.to_nat id := Some y]> l]> (semLists k) →
  sem_rel k' self (<[id := y]> m).
Proof.
  intros [(s' & l' & Hs & Hl & Hb & Hn & Hlen & Hfull & Hm)] Hx E1 E2 E3 E4.
  assert (s' = s ∧ l' = l) as [-> ->] by (split; congruence).
  pose proof (proj1 (Hm id x) Hx) as (Hid & Hbit & _).
  constructor. exists s, (<[Z.to_nat id := Some y]> l). rewrite E3, E4, lookup_insert_eq, length_insert.
  do 5 (split; [done|]). split.
  - intros j Hj Hjb. destruct (decide (j = id)) as [->|Hne].
    + exists y. apply list_lookup_insert_eq. lia.
    + rewrite list_lookup_insert_ne by lia. by apply Hfull.
  - intros j z. destruct (decide (j = id)) as [->|Hne].
    + rewrite lookup_insert_eq, list_lookup_insert_eq by lia. naive_solver.
    + rewrite lookup_insert_ne by done. rewrite Hm. split; intros (Hj & Hjb & Hjl); (split; [done|split; [done|]]);
        [rewrite list_lookup_insert_ne by lia|rewrite list_lookup_insert_ne in Hjl by lia]; done.
Qed.
End sems.

Section sem_calls.
Context (k : Kernel) (self : nat) (cur : Z) (m : gmap Z Semaphore).
Hypothesis Hcur : current_space cur k = Ok self.
Hypothesis Hrel : sem_rel k self m.

(** The common first steps of the calls. *)
Lemma sem_lookup : ∃ s l, get_space (vm k) self = Ok s ∧ get_sems k self = Ok l ∧
  spaces (vm k) !! self = Some s ∧ semLists k !! self = Some l ∧ Z.of_nat (length l) = MAX_SEM.
Proof using Hrel.
  destruct Hrel as [(s & l & Hs & Hl & _ & _ & Hlen & _)]. exists s, l. unfold get_space, get_sems.
  by rewrite Hs, Hl.
Qed.

Lemma sem_id_range id x : m !! id = Some x → 0 ≤ id < MAX_SEM.
Proof using Hrel. destruct Hrel as [(s & l & _ & _ & _ & _ & _ & _ & H)]. intros Hx%H. apply Hx. Qed.

Lemma SemPost_rel id : 0 ≤ id → ∃ k', do_SemPost cur id k = Ok k' ∧
  sem_rel k' self (alter posted id m) ∧
  others_sems k k' self (match m !! id with Some x => take 1 (queue x) | None => [] end).
Proof using Hcur Hrel.
  intros Hid. destruct sem_lookup as (s & l & E1 & E2 & Hs & Hl & Hlen). unfold do_SemPost.
  rewrite Hcur. cbn [mbind outcome_bind]. rewrite E1. cbn [mbind outcome_bind]. rewrite E2. cbn [mbind outcome_bind].
  rewrite (valid_sem_rel k self m s l id) by done. cbn [mbind outcome_bind].
  destruct (m !! id) as [x|] eqn:Ex.
  - pose proof (sem_id_range id x Ex). rewrite (alter_alt_Some _ _ _ x) by done.
    assert (∀ woken q, queue x = woken ++ q → (∃ k', (l' ← arr_set l id (Some (mkSemaphore (value x + 1) q));
      Ok (with_ready (with_sems k (<[self := l']> (semLists k))) (ready k ++ woken))) = Ok k' ∧
      sem_rel k' self (<[id := mkSemaphore (value x + 1) q]> m) ∧ others_sems k k' self woken)) as Hstep.
    { intros woken q Hq. rewrite arr_set_in by lia. cbn [mbind outcome_bind]. eexists. split; [done|].
      split; [by apply (sem_rel_update k _ self m id x _ s l)|]. apply others_put; [done|].
      intros other Hne. split; [done|]. cbn. by rewrite lookup_insert_ne. }
    unfold posted. destruct (queue x) as [|t q] eqn:Eq; [by apply (Hstep [] [])|by apply (Hstep [t] q)].
  - exists k. split; [done|]. rewrite alter_id by (intros y Hy; congruence). split; [done|].
    apply others_put; [by rewrite app_nil_r|done].
Qed.
Lemma SemWait_rel id : 0 ≤ id → ∃ k', do_SemWait cur id k = Ok (wait_result (m !! id), k') ∧
  sem_rel k' self (alter (waited cur) id m) ∧ others_sems k k' self [].
Proof using Hcur Hrel.
  intros Hid. destruct sem_lookup as (s & l & E1 & E2 & Hs & Hl & Hlen). unfold do_SemWait.
  rewrite Hcur. cbn [mbind outcome_bind]. rewrite E1. cbn [mbind outcome_bind]. rewrite E2. cbn [mbind outcome_bind].
  rewrite (valid_sem_rel k self m s l id) by done. cbn [mbind outcome_bind].
  destruct (m !! id) as [x|] eqn:Ex.
  - pose proof (sem_id_range id x Ex). rewrite (alter_alt_Some _ _ _ x) by done.
    assert (∀ y, let k' := with_sems k (<[self := <[Z.to_nat id := Some y]> l]> (semLists k)) in
      sem_rel k' self (<[id := y]> m) ∧ others_sems k k' self []) as Hstep.
    { intros y k'. split; [by apply (sem_rel_update k _ self m id x _ s l)|]. apply others_put; [by rewrite app_nil_r|].
      intros other Hne. split; [done|]. cbn. by rewrite lookup_insert_ne. }
    cbn [wait_result]. unfold waited. destruct (value x =? 0); rewrite arr_set_in by lia; cbn [mbind outcome_bind];
      (eexists; split; [done|apply Hstep]).
  - exists k. split; [done|]. rewrite alter_id by (intros y Hy; congruence). split; [done|].
    apply others_put; [by rewrite app_nil_r|done].
Qed.

Lemma SemDestroy_rel id : 0 ≤ id → ∃ k', do_SemDestroy cur id k = Ok k' ∧
  sem_rel k' self (delete id m) ∧ others_sems k k' self [].
Proof using Hcur Hrel.
  intros Hid. destruct sem_lookup as (s & l & E1 & E2 & Hs & Hl & Hlen). unfold do_SemDestroy.
  rewrite Hcur. cbn [mbind outcome_bind]. rewrite E1. cbn [mbind outcome_bind]. rewrite E2. cbn [mbind outcome_bind].
  rewrite (valid_sem_rel k self m s l id) by done. cbn [mbind outcome_bind].
  destruct (m !! id) as [x|] eqn:Ex.
  2: { exists k. split; [done|]. rewrite delete_id by done. split; [done|]. apply others_put; [by rewrite app_nil_r|done]. }
  pose proof (sem_id_range id x Ex). rewrite arr_set_in by lia. cbn [mbind outcome_bind].
  destruct Hrel as [(s' & l' & Hs' & Hl' & Hb & Hn & _ & Hfull & Hm)].
  assert (s' = s ∧ l' = l) as [-> ->] by (split; congruence).
  destruct (Clear_spec (semBitmap s) id Hb) as (b & -> & Hu); [lia|]. cbn [mbind outcome_bind].
  eexists. split; [done|]. pose proof Hu as (_ & _ & Hbits). split.
  - constructor. eexists _, _. cbn. rewrite !lookup_insert_eq. split; [done|]. split; [done|]. cbn.
    rewrite length_insert. split; [by eapply updates_wf|]. split; [rewrite <- Hn; by eapply updates_numBits|].
    split; [done|]. split.
    + intros j Hj. rewrite Hbits by lia. case_decide; [done|]. rewrite list_lookup_insert_ne by lia. by apply Hfull.
    + intros j y. rewrite lookup_delete_Some, Hm. split.
      * intros (Hne & Hj & Hjb & Hjl). split; [done|]. rewrite Hbits by lia. rewrite decide_False by done.
        by rewrite list_lookup_insert_ne by lia.
      * intros (Hj & Hjb & Hjl). rewrite Hbits in Hjb by lia. case_decide; [done|].
        rewrite list_lookup_insert_ne in Hjl by lia. split; [by intros ->|done].
  - apply others_put; [by rewrite app_nil_r|]. intros other Hne. cbn. by rewrite !lookup_insert_ne.
Qed.

Lemma SemInit_rel v : ∃ id k', do_SemInit cur v k = Ok (id, k') ∧ others_sems k k' self [] ∧
  ((id = -1 ∧ sem_rel k' self m ∧ ∀ j, 0 ≤ j < MAX_SEM → is_Some (m !! j)) ∨
   (0 ≤ id < MAX_SEM ∧ m !! id = None ∧ sem_rel k' self (<[id := Semaphore_new v]> m))).
Proof using Hcur Hrel.
  destruct sem_lookup as (s & l & E1 & E2 & Hs & Hl & Hlen). unfold do_SemInit.
  rewrite Hcur. cbn [mbind outcome_bind]. rewrite E1. cbn [mbind outcome_bind]. rewrite E2. cbn [mbind outcome_bind].
  pose proof Hrel as [(s' & l' & Hs' & Hl' & Hb & Hn & _ & Hfull & Hm)].
  assert (s' = s ∧ l' = l) as [-> ->] by (split; congruence).
  destruct (Find_spec (semBitmap s) Hb) as [[-> Hnone]|(id & b & -> & Hin & Hid & _ & Hu & _)]; cbn [mbind outcome_bind].
  - exists (-1), (put_semBitmap k self s (semBitmap s)). split; [done|].
    split; [apply others_put; [by rewrite app_nil_r|intros other Hne; cbn; by rewrite lookup_insert_ne]|].
    left. split; [done|]. split.
    + constructor. exists s, l. cbn. rewrite lookup_insert_eq. split; [by destruct s|done].
    + intros j Hj. assert (bit (semBitmap s) j = true) as Hjb.
      { destruct (bit (semBitmap s) j) eqn:E; [done|].
        assert (j ∈ free_set (semBitmap s)); [apply elem_of_free_set; split; [lia|done]|set_solver]. }
      destruct (Hfull j Hj Hjb) as (x & Hx). exists x. by apply Hm.
  - apply elem_of_free_set in Hin as [_ Hf]. rewrite Hn in Hid. destruct (Z.eqb_spec id (-1)); [lia|]. cbn [negb].
    rewrite arr_set_in by lia. cbn [mbind outcome_bind]. pose proof Hu as (_ & _ & Hbits).
    eexists id, _. split; [done|]. split.
    { apply others_put; [by rewrite app_nil_r|]. intros other Hne. cbn. by rewrite !lookup_insert_ne. }
    right. split; [done|]. split.
    { destruct (m !! id) as [x|] eqn:Ex; [|done]. apply Hm in Ex as (_ & E & _). congruence. }
    constructor. eexists _, _. cbn. rewrite !lookup_insert_eq. split; [done|]. split; [done|]. cbn.
    rewrite length_insert. split; [by eapply updates_wf|]. split; [rewrite <- Hn; by eapply updates_numBits|].
    split; [done|]. split.
    + intros j Hj. rewrite Hbits by lia. case_decide as E; [subst; intros _; eexists; apply list_lookup_insert_eq; lia|].
      rewrite list_lookup_insert_ne by lia. by apply Hfull.
    + intros j y. destruct (decide (j = id)) as [->|Hne].
      * rewrite lookup_insert_eq, list_lookup_insert_eq by lia. rewrite Hbits by lia. rewrite decide_True by done. naive_solver.
      * rewrite lookup_insert_ne by done. rewrite Hm. split; intros (Hj & Hjb & Hjl); (split; [done|]).
        -- rewrite Hbits by lia. rewrite decide_False by done. by rewrite list_lookup_insert_ne by lia.
        -- rewrite Hbits in Hjb by lia. rewrite decide_False in Hjb by done. by rewrite list_lookup_insert_ne in Hjl by lia.
Qed.
End sem_calls.

(** C25: The semaphore system calls implement a finite map from identifiers to
    semaphores, private to the process: [SemInit] adds a semaphore under an
    unused identifier and returns -1 exactly when all 128 are in use;
    [SemPost], [SemWait] and [SemDestroy] change only the semaphore with their
    identifier, and nothing when there is none, whatever identifier the program
    passes short of a negative one, which aborts the kernel; [SemWait] makes the
    caller wait exactly when the value is 0 and [SemPost] makes the first waiter
    ready.  The semaphores of other processes never change. *)
Theorem semaphores_refine_map (k : Kernel) self cur m :
  current_space cur k = Ok self → sem_rel k self m →
  (∀ v, ∃ id k', do_SemInit cur v k = Ok (id, k') ∧ others_sems k k' self [] ∧
     ((id = -1 ∧ sem_rel k' self m ∧ ∀ j, 0 ≤ j < MAX_SEM → is_Some (m !! j)) ∨
      (0 ≤ id < MAX_SEM ∧ m !! id = None ∧ sem_rel k' self (<[id := Semaphore_new v]> m)))) ∧
  (∀ id, 0 ≤ id → ∃ k1 k2 k3,
     do_SemPost cur id k = Ok k1 ∧ sem_rel k1 self (alter posted id m) ∧
     others_sems k k1 self (match m !! id with Some x => take 1 (queue x) | None => [] end) ∧
     do_SemWait cur id k = Ok (wait_result (m !! id), k2) ∧ sem_rel k2 self (alter (waited cur) id m) ∧
     others_sems k k2 self [] ∧
     do_SemDestroy cur id k = Ok k3 ∧ sem_rel k3 self (delete id m) ∧ others_sems k k3 self []) ∧
  (∀ id, id < 0 → do_SemPost cur id k = AssertFail ∧ do_SemWait cur id k = AssertFail ∧
     do_SemDestroy cur id k = AssertFail).
Proof.
  intros Hcur Hrel. split; [intros v; by apply SemInit_rel|]. split.
  - intros id Hid.
    destruct (SemPost_rel k self cur m Hcur Hrel id Hid) as (k1 & ? & ? & ?).
    destruct (SemWait_rel k self cur m Hcur Hrel id Hid) as (k2 & ? & ? & ?).
    destruct (SemDestroy_rel k self cur m Hcur Hrel id Hid) as (k3 & ? & ? & ?). by exists k1, k2, k3.
  - intros id Hid. destruct (sem_lookup k self m Hrel) as (s & l & E1 & E2 & Hs & _).
    unfold do_SemPost, do_SemWait, do_SemDestroy. rewrite Hcur. cbn [mbind outcome_bind].
    rewrite E1. cbn [mbind outcome_bind]. rewrite E2. cbn [mbind outcome_bind].
    by rewrite (valid_sem_negative k self m s l id) by done.
Qed.

Lemma demo_sem_rel : sem_rel demo_kernel 3 ∅.
Proof.
  constructor. exists demo_process, (replicate 128 None).
  split; [reflexivity|]. split; [reflexivity|].
  assert (∀ id, 0 ≤ id < MAX_SEM → bit (semBitmap demo_process) id = false) as Hclear.
  { intros id Hid. unfold bit. cbn [bmap semBitmap demo_process]. change BitsInWord with 32.
    assert (nth (Z.to_nat (id / 32)) [0; 0; 0; 0] 0 = 0) as ->; [|apply Z.bits_0].
    by do 4 (destruct (Z.to_nat (id / 32)) as [|[|[|[|[|]]]]]). }
  split; [|split; [reflexivity|split; [reflexivity|split]]].
  - split; [done|]. split; [reflexivity|]. split; [reflexivity|]. repeat constructor; by vm_compute.
  - intros id Hid Hb. rewrite Hclear in Hb by done. discriminate.
  - intros id x. rewrite lookup_empty. split; [done|]. intros (Hid & Hb & _). rewrite Hclear in Hb by done. discriminate.
Qed.

Lemma semaphores_refine_map_witness : ∃ id k', do_SemInit 0 2 demo_kernel = Ok (id, k') ∧ 0 ≤ id ∧
  sem_rel k' 3 {[id := Semaphore_new 2]}.
Proof.
  destruct (semaphores_refine_map demo_kernel 3 0 ∅ eq_refl demo_sem_rel) as [Hi _].
  destruct (Hi 2) as (id & k' & E & _ & [(_ & _ & Hfull)|(Hid & _ & Hr)]).
  - exfalso. destruct (Hfull 0) as [x Hx]; [by vm_compute|discriminate].
  - exists id, k'. split; [exact E|]. split; [apply Hid|exact Hr].
Defined.
