(* ===== verification/Console.v ===== *)
(** * machine/console.cc, userprog/synchconsole.cc: the console

    The terminal is two UNIX files: [keyboard] holds the bytes typed and not
    yet read, [display] the bytes written.  What happens while a thread sleeps
    is the list [events] of the state: keys pressed, the end of the input, and
    the two interrupts of the device.  One thread uses the console at a time; a
    [P] that finds the value 0 lets events happen until another value, and is
    [Blocked] when none is left. *)
From S2P Require Import Prelude.

Definition EOF : Z := -1.

(** [writeInts] counts the [ConsoleWriteDone] interrupts that are scheduled;
    a [ConsoleReadPoll] always is. *)
Record Console := mkConsole {
  keyboard : list Z;
  ended : bool;
  display : list Z;
  putBusy : bool;
  incoming : Z;
  numConsoleCharsRead : Z;
  numConsoleCharsWritten : Z;
  writeInts : nat
}.
Definition Console_new (input : list Z) : Console := mkConsole input false [] false EOF 0 0 0.

(** [Console::CheckCharAvail]; the result says whether it called the handler.
    [PollFile] is true when a byte can be read or the file has ended. *)
Definition CheckCharAvail (c : Console) : bool * Console :=
  match keyboard c with
  | b :: rest =>
      if incoming c =? EOF then
        (true, mkConsole rest (ended c) (display c) (putBusy c) (i8 b)
           (numConsoleCharsRead c + 1) (numConsoleCharsWritten c) (writeInts c))
      else (false, c)
  | [] =>
      if ended c && (incoming c =? EOF) then
        (true, mkConsole [] (ended c) (display c) (putBusy c) EOF
           (numConsoleCharsRead c + 1) (numConsoleCharsWritten c) (writeInts c))
      else (false, c)
  end.
Definition Console_WriteDone (c : Console) : Console :=
  mkConsole (keyboard c) (ended c) (display c) false (incoming c)
    (numConsoleCharsRead c) (numConsoleCharsWritten c + 1) (pred (writeInts c)).
Definition Console_GetChar (c : Console) : Z * Console :=
  (incoming c, mkConsole (keyboard c) (ended c) (display c) (putBusy c) EOF
     (numConsoleCharsRead c) (numConsoleCharsWritten c) (writeInts c)).
Definition Console_PutChar (c : Console) (ch : Z) : outcome Console :=
  _ ← ASSERT (negb (putBusy c));
  Ok (mkConsole (keyboard c) (ended c) (display c ++ [ch]) true (incoming c)
    (numConsoleCharsRead c) (numConsoleCharsWritten c) (S (writeInts c))).

(** ** SynchConsole *)
Inductive event := Typed (b : Z) | EndOfInput | Poll | Written.

Record SynchConsole := mkSynchConsole {
  console : Console;
  readAvail : Z;
  writeDone : Z;
  semThreads : Z;
  events : list event
}.
Definition SynchConsole_new (input : list Z) (evs : list event) : SynchConsole :=
  mkSynchConsole (Console_new input) 0 0 1 evs.

Definition with_console (s : SynchConsole) c :=
  mkSynchConsole c (readAvail s) (writeDone s) (semThreads s) (events s).

(** An event, with the handlers [ReadAvail] and [WriteDone]. *)
Definition happens (e : event) (s : SynchConsole) : SynchConsole :=
  let c := console s in
  match e with
  | Typed b => with_console s (mkConsole (keyboard c ++ [b]) (ended c) (display c) (putBusy c) (incoming c)
      (numConsoleCharsRead c) (numConsoleCharsWritten c) (writeInts c))
  | EndOfInput => with_console s (mkConsole (keyboard c) true (display c) (putBusy c) (incoming c)
      (numConsoleCharsRead c) (numConsoleCharsWritten c) (writeInts c))
  | Poll =>
      let '(called, c') := CheckCharAvail c in
      mkSynchConsole c' (if called then readAvail s + 1 else readAvail s) (writeDone s) (semThreads s) (events s)
  | Written =>
      match writeInts c with
      | O => s
      | S _ => mkSynchConsole (Console_WriteDone c) (readAvail s) (writeDone s + 1) (semThreads s) (events s)
      end
  end.

Inductive which_sem := SemRead | SemWrite | SemThreads.
Definition sem_value (w : which_sem) (s : SynchConsole) : Z :=
  match w with SemRead => readAvail s | SemWrite => writeDone s | SemThreads => semThreads s end.
Definition sem_add (w : which_sem) (d : Z) (s : SynchConsole) : SynchConsole :=
  match w with
  | SemRead => mkSynchConsole (console s) (readAvail s + d) (writeDone s) (semThreads s) (events s)
  | SemWrite => mkSynchConsole (console s) (readAvail s) (writeDone s + d) (semThreads s) (events s)
  | SemThreads => mkSynchConsole (console s) (readAvail s) (writeDone s) (semThreads s + d) (events s)
  end.
Definition drop_event (s : SynchConsole) (evs : list event) : SynchConsole :=
  mkSynchConsole (console s) (readAvail s) (writeDone s) (semThreads s) evs.

(** [P] by the only caller; [V]. *)
Fixpoint wait_sem (evs : list event) (w : which_sem) (s : SynchConsole) : outcome SynchConsole :=
  if sem_value w s =? 0 then
    match evs with
    | [] => Blocked
    | e :: evs' => wait_sem evs' w (happens e (drop_event s evs'))
    end
  else Ok (sem_add w (-1) s).
Definition sem_P (w : which_sem) (s : SynchConsole) : outcome SynchConsole := wait_sem (events s) w s.
Definition sem_V (w : which_sem) (s : SynchConsole) : SynchConsole := sem_add w 1 s.

Definition doSynchPutChar (s : SynchConsole) (ch : Z) : outcome SynchConsole :=
  c ← Console_PutChar (console s) ch; sem_P SemWrite (with_console s c).
Definition SynchPutChar (s : SynchConsole) (ch : Z) : outcome SynchConsole :=
  s1 ← sem_P SemThreads s; s2 ← doSynchPutChar s1 ch; Ok (sem_V SemThreads s2).
Definition doSynchGetChar (s : SynchConsole) : outcome (Z * SynchConsole) :=
  s1 ← sem_P SemRead s;
  let '(ch, c) := Console_GetChar (console s1) in Ok (ch, with_console s1 c).
Definition SynchGetChar (s : SynchConsole) : outcome (Z * SynchConsole) :=
  s1 ← sem_P SemThreads s; '(ch, s2) ← doSynchGetChar s1; Ok (ch, sem_V SemThreads s2).

(** The loop over the bytes of a string that ends with a zero. *)
Fixpoint put_loop (str : list Z) (s : SynchConsole) : outcome SynchConsole :=
  match str with
  | [] => Fault
  | ch :: str' => if ch =? 0 then Ok s else s1 ← doSynchPutChar s ch; put_loop str' s1
  end.
Definition SynchPutString (s : SynchConsole) (str : list Z) : outcome SynchConsole :=
  s1 ← sem_P SemThreads s; s2 ← put_loop str s1; Ok (sem_V SemThreads s2).

(** The bytes stored from [s[0]] on; the last one is the final zero. *)
Fixpoint get_loop (n : nat) (s : SynchConsole) : outcome (list Z * SynchConsole) :=
  match n with
  | O => Ok ([], s)
  | S n' =>
      '(c, s1) ← doSynchGetChar s;
      if c =? EOF then Ok ([], s1)
      else if c =? 10 then Ok ([c], s1)
      else '(l, s2) ← get_loop n' s1; Ok (c :: l, s2)
  end.
Definition SynchGetString (s : SynchConsole) (n : Z) : outcome (list Z * SynchConsole) :=
  s1 ← sem_P SemThreads s; '(l, s2) ← get_loop (Z.to_nat n) s1; Ok (l ++ [0], sem_V SemThreads s2).

(** ** The invariant and what the terminal has still to deliver *)

#[global] Instance event_eq_dec : EqDecision event.
Proof. solve_decision. Defined.

(** The byte 255 becomes the [char] -1, which is [EOF]: it is never delivered. *)
Definition is_key (b : Z) : Prop := 0 ≤ b < 255.
(** Events of a terminal whose input goes on. *)
Definition typing (e : event) : Prop :=
  match e with Typed b => is_key b | EndOfInput => False | _ => True end.
Definition key_of (e : event) : option Z := match e with Typed b => Some (i8 b) | _ => None end.
Definition count_ev (e : event) (l : list event) : nat := length (filter (.= e) l).

(** Characters read or typed so far, and all that will be typed. *)
Definition avail (s : SynchConsole) : list Z :=
  (if incoming (console s) =? EOF then [] else [incoming (console s)]) ++ (i8 <$> keyboard (console s)).
Definition stream (s : SynchConsole) : list Z := avail s ++ omap key_of (events s).

(** [busy]: a character is being written. *)
Record con_inv (busy : bool) (s : SynchConsole) : Prop := mkConInv {
  ci_busy : putBusy (console s) = busy;
  ci_ints : writeInts (console s) = if busy then 1%nat else 0%nat;
  ci_done : writeDone s = 0;
  ci_read : readAvail s = if incoming (console s) =? EOF then 0 else 1;
  ci_keys : Forall is_key (keyboard (console s));
  ci_ended : ended (console s) = false;
  ci_events : Forall typing (events s)
}.

(** What no event changes. *)
Definition same_output (s s' : SynchConsole) : Prop :=
  display (console s') = display (console s) ∧ semThreads s' = semThreads s.

Lemma i8_key b : is_key b → (i8 b =? EOF) = false.
Proof.
  unfold is_key, i8, EOF. intros Hb. apply Z.eqb_neq. destruct (decide (b < 128)).
  - rewrite Z.mod_small by lia. lia.
  - rewrite <- (Z_mod_plus_full (b + 128) (-1) 256), Z.mod_small by lia. lia.
Qed.

Lemma happens_inv busy s e evs : con_inv busy s → events s = e :: evs →
  busy = false ∨ e ≠ Written →
  let s' := happens e (drop_event s evs) in
  con_inv busy s' ∧ stream s' = stream s ∧ same_output s s' ∧ events s' = evs ∧
  avail s' = avail s ++ omap key_of [e] ∧
  (e = Poll → avail s ≠ [] → readAvail s' = 1) ∧
  numConsoleCharsWritten (console s') = numConsoleCharsWritten (console s).
Proof.
  intros [H1 H2 H3 H4 H5 H6 H7] He Hb s'. rewrite He in H7. apply Forall_cons in H7 as [Hty Hev].
  unfold stream, avail. rewrite He. destruct e as [b| | |]; [|done| |].
  - cbn. rewrite fmap_app, app_assoc. split; [|split; [by rewrite <- !app_assoc|done]].
    constructor; cbn; try done. apply Forall_app. split; [done|]. by constructor.
  - subst s'. cbn. rewrite app_nil_r. unfold CheckCharAvail. cbn [console drop_event].
    destruct (keyboard (console s)) as [|b rest] eqn:Ek.
    + rewrite H6. cbn. rewrite Ek. split; [by constructor; cbn; rewrite ?Ek|].
      do 3 (split; [done|]). split; [done|]. split; [|done].
      intros _. rewrite H4. destruct (incoming (console s) =? EOF); done.
    + apply Forall_cons in H5 as [Hk Hks]. pose proof (i8_key b Hk) as Ene.
      destruct (incoming (console s) =? EOF) eqn:Ei; cbn.
      * rewrite Ene. split; [constructor; cbn; rewrite ?Ene; try done; lia|].
        do 4 (split; [done|]). split; [intros; lia|done].
      * rewrite Ek, Ei. split; [constructor; cbn; rewrite ?Ek, ?Ei; try done; by constructor|].
        do 4 (split; [done|]). split; [intros; lia|done].
  - destruct Hb as [->|]; [|done]. subst s'. cbn. rewrite H2. cbn. rewrite app_nil_r.
    split; [by constructor|]. do 4 (split; [done|]). done.
Qed.

(** The write interrupt while a character is being written. *)
Lemma written_inv s evs : con_inv true s → events s = Written :: evs →
  let s' := sem_add SemWrite (-1) (happens Written (drop_event s evs)) in
  sem_value SemWrite (happens Written (drop_event s evs)) = 1 ∧
  con_inv false s' ∧ stream s' = stream s ∧ same_output s s' ∧ events s' = evs ∧
  numConsoleCharsWritten (console s') = numConsoleCharsWritten (console s) + 1.
Proof.
  intros [H1 H2 H3 H4 H5 H6 H7] He s'. rewrite He in H7. apply Forall_cons in H7 as [_ Hev].
  unfold stream, avail. rewrite He. subst s'. cbn. rewrite H2. cbn. rewrite H3.
  split; [done|]. split; [by constructor; cbn; rewrite ?H2, ?H3|]. done.
Qed.

(** ** Waiting *)

Lemma count_cons e e' l : count_ev e (e' :: l) = ((if decide (e' = e) then 1 else 0) + count_ev e l)%nat.
Proof. unfold count_ev. rewrite filter_cons. by case_decide. Qed.

(** A write waits for its interrupt, whatever else happens first. *)
Lemma wait_write evs s : con_inv true s → events s = evs → (0 < count_ev Written evs)%nat →
  ∃ s', wait_sem evs SemWrite s = Ok s' ∧ con_inv false s' ∧ stream s' = stream s ∧ same_output s s' ∧
    count_ev Written evs = S (count_ev Written (events s')) ∧
    numConsoleCharsWritten (console s') = numConsoleCharsWritten (console s) + 1.
Proof.
  revert s. induction evs as [|e evs IH]; intros s Hinv He Hc; [by apply Nat.lt_irrefl in Hc|].
  cbn [wait_sem sem_value]. rewrite (ci_done _ _ Hinv). cbn [Z.eqb].
  destruct (decide (e = Written)) as [->|Hne].
  - destruct (written_inv s evs Hinv He) as (Hv & Hi & Hst & Hout & Hev & Hn).
    assert (wait_sem evs SemWrite (happens Written (drop_event s evs)) =
      Ok (sem_add SemWrite (-1) (happens Written (drop_event s evs)))) as ->.
    { destruct evs; cbn [wait_sem]; rewrite Hv; done. }
    eexists. split; [done|]. split; [done|]. split; [done|]. split; [done|].
    split; [|done]. by rewrite Hev, count_cons, decide_True.
  - destruct (happens_inv true s e evs Hinv He (or_intror Hne)) as (Hi & Hst & [Ho1 Ho2] & Hev & _ & _ & Hn).
    rewrite count_cons, decide_False in Hc by done.
    destruct (IH _ Hi Hev Hc) as (s' & E & Hi' & Hst' & [Ho1' Ho2'] & Hc' & Hn').
    exists s'. rewrite E. split; [done|]. split; [done|]. split; [by rewrite Hst'|].
    split; [split; congruence|]. rewrite count_cons, decide_False by done. split; [done|]. by rewrite Hn', Hn.
Qed.

(** Taking the character that is there. *)
Lemma get_ready s c l : con_inv false s → avail s = c :: l → incoming (console s) ≠ EOF →
  let s' := with_console (sem_add SemRead (-1) s) (snd (Console_GetChar (console s))) in
  incoming (console s) = c ∧ con_inv false s' ∧ avail s' = l ∧ stream s = c :: stream s' ∧
  same_output s s' ∧ events s' = events s.
Proof.
  intros [H1 H2 H3 H4 H5 H6 H7] Ha Hne s'. apply Z.eqb_neq in Hne as Hb. unfold stream.
  rewrite Ha. unfold avail in Ha. rewrite Hb in Ha, H4. injection Ha as <- <-. subst s'. cbn.
  split; [done|]. split; [by constructor; cbn; rewrite ?H4|]. done.
Qed.

Lemma avail_key s c l : con_inv false s → avail s = c :: l → c ≠ EOF.
Proof.
  intros H Ha. unfold avail in Ha. destruct (Z.eqb_spec (incoming (console s)) EOF) as [|Hne]; cbn in Ha.
  - destruct (keyboard (console s)) as [|b r] eqn:Ek; [done|]. injection Ha as <- _.
    pose proof (ci_keys _ _ H) as Hk. rewrite Ek in Hk. apply Forall_cons in Hk as [Hk%i8_key _]. by apply Z.eqb_neq.
  - by injection Ha as <- _.
Qed.

(** A read waits for at most one poll once a key was pressed. *)
Lemma get_char evs s c l : con_inv false s → events s = evs → avail s = c :: l →
  readAvail s = 1 ∨ (0 < count_ev Poll evs)%nat →
  ∃ s1 s' x, wait_sem evs SemRead s = Ok s1 ∧
    Console_GetChar (console s1) = (c, snd (Console_GetChar (console s1))) ∧
    s' = with_console s1 (snd (Console_GetChar (console s1))) ∧ con_inv false s' ∧
    stream s = c :: stream s' ∧ avail s' = l ++ x ∧ same_output s s' ∧
    (count_ev Poll evs ≤ (if (incoming (console s) =? EOF)%Z then 1 else 0) + count_ev Poll (events s'))%nat.
Proof.
  revert s l. induction evs as [|e evs IH]; intros s l Hinv He Ha Hp; cbn [wait_sem sem_value];
    rewrite (ci_read _ _ Hinv); destruct (Z.eqb_spec (incoming (console s)) EOF) as [Ei|Ei].
  - exfalso. rewrite (ci_read _ _ Hinv), Ei in Hp. destruct Hp as [Hp|Hp]; [done|by apply Nat.lt_irrefl in Hp].
  - destruct (get_ready s c l Hinv Ha Ei) as (Ec & Hi & Hl & Hst & Ho & Hev). eexists _, _, [].
    split; [done|]. split; [unfold Console_GetChar; cbn; by rewrite Ec|]. split; [done|]. split; [done|]. split; [done|].
    split; [by rewrite app_nil_r|]. split; [done|]. cbn. lia.
  - destruct (happens_inv false s e evs Hinv He (or_introl eq_refl)) as (Hi & Hst & [Ho1 Ho2] & Hev & Hal & Hpoll & _).
    rewrite Ha in Hal. cbn [app] in Hal.
    destruct (IH _ (l ++ omap key_of [e]) Hi Hev) as (s1 & s' & x & E & Eg & Es & Hi' & Hst' & Hl' & [Ho1' Ho2'] & Hc).
    { exact Hal. }
    { destruct (decide (e = Poll)) as [->|Hne]; [left; apply Hpoll; [done|by rewrite Ha]|].
      right. destruct Hp as [Hp|Hp]; [by rewrite (ci_read _ _ Hinv), Ei in Hp|].
      by rewrite count_cons, decide_False in Hp. }
    exists s1, s', (omap key_of [e] ++ x). cbn [Z.eqb]. split; [exact E|]. split; [done|]. split; [done|].
    split; [done|]. split; [by rewrite <- Hst|]. split; [by rewrite app_assoc|]. split; [split; congruence|].
    rewrite count_cons. destruct (decide (e = Poll)) as [->|Hne]; [|destruct (_ =? _) in Hc; lia].
    pose proof (Hpoll eq_refl ltac:(by rewrite Ha)) as Hr. rewrite (ci_read _ _ Hi) in Hr.
    destruct (_ =? _) in Hr, Hc; [done|lia].
  - destruct (get_ready s c l Hinv Ha Ei) as (Ec & Hi & Hl & Hst & Ho & Hev). eexists _, _, [].
    split; [done|]. split; [unfold Console_GetChar; cbn; by rewrite Ec|]. split; [done|]. split; [done|]. split; [done|].
    split; [by rewrite app_nil_r|]. split; [done|]. rewrite <- He. apply le_n.
Qed.

(** Whatever happens, a read that returns delivers the next character. *)
Lemma get_char_any evs s : con_inv false s → events s = evs → wait_sem evs SemRead s = Blocked ∨
  ∃ s1 c, wait_sem evs SemRead s = Ok s1 ∧ incoming (console s1) = c ∧ c ≠ EOF ∧
    let s' := with_console s1 (snd (Console_GetChar (console s1))) in
    con_inv false s' ∧ stream s = c :: stream s' ∧ same_output s s'.
Proof.
  revert s. induction evs as [|e evs IH]; intros s Hinv He; cbn [wait_sem sem_value]; rewrite (ci_read _ _ Hinv);
    destruct (Z.eqb_spec (incoming (console s)) EOF) as [Ei|Ei]; cbn [Z.eqb].
  1: by left.
  2: { destruct (happens_inv false s e evs Hinv He (or_introl eq_refl)) as (Hi & Hst & [Ho1 Ho2] & Hev & _).
       destruct (IH _ Hi Hev) as [E|(s1 & c & E & Ec & Hne & Hi' & Hst' & [Ho1' Ho2'])]; [by left|right].
       exists s1, c. split; [exact E|]. split; [done|]. split; [done|]. split; [done|]. split; [by rewrite <- Hst|]. split; congruence. }
  all: right; eexists _, _; split; [done|]; split; [done|]; split; [exact Ei|];
    destruct (avail s) as [|c l] eqn:Ha; [unfold avail in Ha; by rewrite (proj2 (Z.eqb_neq _ _) Ei) in Ha|];
    destruct (get_ready s c l Hinv Ha Ei) as (Ec & Hi & Hl & Hst & Ho & Hev); (split; [done|]); (split; [subst c; exact Hst|done]).
Qed.

(** ** Strings *)

Fixpoint line (n : nat) (l : list Z) : list Z :=
  match n, l with S n', c :: l' => if c =? 10 then [c] else c :: line n' l' | _, _ => [] end.
(** Enough was typed for a read of [n] characters. *)
Fixpoint complete (n : nat) (l : list Z) : bool :=
  match n, l with O, _ => true | S _, [] => false | S n', c :: l' => (c =? 10) || complete n' l' end.

Lemma line_app n l x : complete n l = true → line n (l ++ x) = line n l ∧ complete n (l ++ x) = true.
Proof.
  revert l. induction n as [|n IH]; intros [|c l]; try done. cbn.
  destruct (c =? 10); [done|]. intros H. destruct (IH l H) as [-> ->]. done.
Qed.

Lemma put_loop_writes str rest s : con_inv false s → Forall (λ c, c ≠ 0) str →
  (length str ≤ count_ev Written (events s))%nat →
  ∃ s', put_loop (str ++ 0 :: rest) s = Ok s' ∧ con_inv false s' ∧ stream s' = stream s ∧
    semThreads s' = semThreads s ∧ display (console s') = display (console s) ++ str ∧
    numConsoleCharsWritten (console s') = numConsoleCharsWritten (console s) + Z.of_nat (length str).
Proof.
  revert s. induction str as [|c str IH]; intros s Hinv Hnz Hc; cbn [put_loop app].
  { exists s. rewrite app_nil_r. cbn. rewrite Z.add_0_r. done. }
  apply Forall_cons in Hnz as [Hc0 Hnz]. destruct (Z.eqb_spec c 0); [done|].
  unfold doSynchPutChar, Console_PutChar. rewrite (ci_busy _ _ Hinv). cbn [negb ASSERT mbind outcome_bind].
  set (s0 := with_console s _). cbn [length] in Hc.
  assert (con_inv true s0) as Hi0.
  { destruct Hinv as [H1 H2 H3 H4 H5 H6 H7]. constructor; cbn; try done. by rewrite H2. }
  destruct (wait_write (events s0) s0 Hi0 eq_refl) as (s1 & E & Hi1 & Hst1 & [Hd1 Ht1] & Hc1 & Hn1); [change (events s0) with (events s); lia|].
  unfold sem_P. rewrite E. cbn [mbind outcome_bind]. change (events s0) with (events s) in Hc1.
  destruct (IH s1 Hi1 Hnz) as (s2 & E2 & Hi2 & Hst2 & Ht2 & Hd2 & Hn2); [lia|].
  exists s2. split; [exact E2|]. split; [done|]. split; [by rewrite Hst2|]. split; [by rewrite Ht2|].
  split; [by rewrite Hd2, Hd1; cbn; rewrite <- app_assoc|]. rewrite Hn2, Hn1. cbn [s0 with_console console numConsoleCharsWritten length]. lia.
Qed.

Lemma get_loop_reads n s : con_inv false s → complete n (avail s) = true →
  (length (line n (avail s)) ≤ count_ev Poll (events s))%nat →
  ∃ s', get_loop n s = Ok (line n (avail s), s') ∧ con_inv false s' ∧
    stream s = line n (avail s) ++ stream s' ∧ same_output s s'.
Proof.
  revert s. induction n as [|n IH]; intros s Hinv Hcm Hp; cbn [get_loop].
  { exists s. by destruct (avail s). }
  destruct (avail s) as [|c l] eqn:Ha; [done|].
  assert (readAvail s = 1 ∨ (0 < count_ev Poll (events s))%nat) as Hpre.
  { right. cbn [line] in Hp. destruct (c =? 10); cbn in Hp; lia. }
  destruct (get_char (events s) s c l Hinv eq_refl Ha Hpre)
    as (s1 & s' & x & E & Eg & -> & Hi & Hst & Hl & [Ho1 Ho2] & Hc).
  pose proof (avail_key s c l Hinv Ha) as Hne. apply Z.eqb_neq in Hne.
  unfold doSynchGetChar, sem_P. rewrite E. cbn [mbind outcome_bind]. rewrite Eg. cbn [mbind outcome_bind].
  rewrite Hne. cbn [line complete orb] in *. destruct (c =? 10) eqn:E10.
  { eexists. split; [done|]. done. }
  destruct (line_app n l x Hcm) as [El Ec]. rewrite <- Hl in El, Ec.
  destruct (IH _ Hi Ec) as (s2 & E2 & Hi2 & Hst2 & [Ho3 Ho4]).
  { rewrite El. cbn [length] in Hp. destruct (_ =? _) in Hc; lia. }
  rewrite E2. cbn [mbind outcome_bind]. rewrite El. exists s2. split; [done|]. split; [done|].
  split; [|split; congruence]. rewrite Hst, Hst2, El. done.
Qed.

(** Whatever happens, a read that returns delivers a line of what was and will be
    typed. *)
Lemma get_loop_any n s : con_inv false s → get_loop n s = Blocked ∨
  ∃ s', get_loop n s = Ok (line n (stream s), s') ∧ con_inv false s' ∧ stream s = line n (stream s) ++ stream s' ∧ same_output s s'.
Proof.
  revert s. induction n as [|n IH]; intros s Hinv; cbn [get_loop]; [right; exists s; by destruct (stream s)|].
  unfold doSynchGetChar, sem_P. destruct (get_char_any (events s) s Hinv eq_refl) as [->|(s1 & c & -> & Ec & Hne & Hi & Hst & [Ho1 Ho2])];
    cbn [mbind outcome_bind]; [by left|].
  assert (Console_GetChar (console s1) = (c, snd (Console_GetChar (console s1)))) as Eg by (unfold Console_GetChar; by rewrite Ec).
  rewrite Eg. cbn [mbind outcome_bind]. rewrite (proj2 (Z.eqb_neq c EOF) Hne), Hst. cbn [line].
  destruct (c =? 10); [right; eexists; split; [reflexivity|by split_and!]|].
  destruct (IH _ Hi) as [->|(s2 & -> & Hi2 & Hst2 & [Ho3 Ho4])]; cbn [mbind outcome_bind]; [by left|right].
  exists s2. split; [done|]. split; [done|]. split; [cbn [app]; by rewrite <- Hst2|split; congruence].
Qed.

(** The console between two calls. *)
Definition con_wf (s : SynchConsole) : Prop := con_inv false s ∧ semThreads s = 1.

Lemma take_sem s : con_wf s → sem_P SemThreads s = Ok (sem_add SemThreads (-1) s).
Proof. intros [_ Hs]. unfold sem_P. destruct (events s); cbn [wait_sem sem_value]; by rewrite Hs. Qed.

Lemma con_inv_threads busy s d : con_inv busy s → con_inv busy (sem_add SemThreads d s).
Proof. intros []. by constructor. Qed.

(** C31: Let the input go on and the byte 255 not be typed, which the console takes
    for the end of the input.  Whatever else is typed and whenever the device
    interrupts: a string given to [SynchPutString] appears whole on the display
    when the device interrupts once per character, no write is started while
    another is under way, and no typed character is lost; and [SynchGetString],
    unless it waits for ever, delivers the characters typed before and during
    the call, in order and each once, up to the first newline or the count
    asked for, followed by a zero byte, and leaves the others to be read.  It
    does return when all of them have been typed before the call and the
    keyboard is polled once per character. *)
Theorem SynchConsole_transfers s str rest n : con_wf s → Forall (λ c, c ≠ 0) str → 0 ≤ n →
  ((length str ≤ count_ev Written (events s))%nat →
     ∃ s', SynchPutString s (str ++ 0 :: rest) = Ok s' ∧ con_wf s' ∧
       display (console s') = display (console s) ++ str ∧ stream s' = stream s ∧
       numConsoleCharsWritten (console s') = numConsoleCharsWritten (console s) + Z.of_nat (length str)) ∧
  (SynchGetString s n = Blocked ∨
     ∃ s', SynchGetString s n = Ok (line (Z.to_nat n) (stream s) ++ [0], s') ∧ con_wf s' ∧
       stream s = line (Z.to_nat n) (stream s) ++ stream s' ∧ display (console s') = display (console s)) ∧
  (complete (Z.to_nat n) (avail s) = true → (length (line (Z.to_nat n) (avail s)) ≤ count_ev Poll (events s))%nat →
     succeeds (SynchGetString s n)).
Proof.
  intros Hwf Hnz Hn. pose proof Hwf as [Hinv Hs]. pose proof (con_inv_threads false s (-1) Hinv) as Hi0. split; [|split].
  - intros Hc. unfold SynchPutString. rewrite take_sem by done. cbn [mbind outcome_bind].
    destruct (put_loop_writes str rest _ Hi0 Hnz Hc) as (s1 & -> & Hi1 & Hst & Ht & Hd & Hnum).
    cbn [mbind outcome_bind]. eexists. split; [done|]. split; [|done].
    split; [by apply con_inv_threads|]. cbn. rewrite Ht. cbn. lia.
  - unfold SynchGetString. rewrite take_sem by done. cbn [mbind outcome_bind].
    destruct (get_loop_any (Z.to_nat n) _ Hi0) as [->|(s1 & -> & Hi1 & Hst & [Hd Ht])]; cbn [mbind outcome_bind]; [by left|right].
    eexists. split; [done|]. split; [|done]. split; [by apply con_inv_threads|]. cbn. rewrite Ht. cbn. lia.
  - intros Hcm Hp. unfold SynchGetString. rewrite take_sem by done. cbn [mbind outcome_bind].
    destruct (get_loop_reads (Z.to_nat n) _ Hi0 Hcm Hp) as (s1 & -> & _). by eexists.
Qed.

(** The byte 255 is lost: the reader gets the end of the input for it. *)
Lemma byte_255_is_EOF : doSynchGetChar (SynchConsole_new [255; 104] [Poll]) =
  Ok (EOF, with_console (mkSynchConsole (Console_new [104]) 0 0 1 [])
    (mkConsole [104] false [] false EOF 1 0 0)).
Proof. reflexivity. Qed.

(** The user types "hi" and a newline, and then a letter of Latin-1, while "ok" is being written. *)
Definition demo_console : SynchConsole :=
  SynchConsole_new [104; 105; 10] [Poll; Written; Typed 233; Written; Poll; Poll; Poll].

Lemma demo_console_wf : con_wf demo_console.
Proof.
  split; [|reflexivity]. constructor; try reflexivity; cbn; repeat constructor; by vm_compute.
Qed.

Lemma SynchConsole_transfers_witness : ∃ s1 s2,
  SynchPutString demo_console [111; 107; 0] = Ok s1 ∧ display (console s1) = [111; 107] ∧
  SynchGetString demo_console 80 = Ok ([104; 105; 10; 0], s2) ∧ stream s2 = [-23].
Proof.
  destruct (SynchConsole_transfers demo_console [111; 107] [] 80 demo_console_wf) as (Hput & Hget & Hret).
  - by repeat constructor.
  - by vm_compute.
  - destruct Hput as (s1 & E1 & _ & Hd & _); [by vm_compute; lia|].
    destruct Hret as [r Er]; [reflexivity|by vm_compute; lia|].
    destruct Hget as [E|(s2 & E2 & _ & Hst & _)]; [congruence|].
    exists s1, s2. split; [exact E1|]. split; [exact Hd|]. split; [exact E2|].
    change (stream demo_console) with [104; 105; 10; -23] in Hst. by injection Hst as <-.
Defined.
