(* ===== verification/Exception.v ===== *)
(** * userprog/exception.cc: system calls and exceptions

    [ExceptionHandler] on the whole kernel: the machine, address spaces and
    threads (UserThread.v), the file system (FileSys.v) and the console
    (Console.v).  A case that waits stops with what the caller sleeps on and
    has a second definition for the wake-up; a case that calls ftp.cc or
    migrate.cc stops at the call.  Buffers on the kernel stack start with
    arbitrary bytes, and an access outside them is a [Fault]. *)
From stdpp Require Import strings.
From S2P Require Import Prelude BitMap Memory Frames AddrSpace ThreadData Synch UserThread Disk FileHdr FileGrow Directory FileSys Console.

Definition MAX_STRING_SIZE : Z := 256.

Definition UpdatePC (m : Machine) : outcome Machine :=
  pc ← ReadRegister m PCReg;
  m1 ← WriteRegister m PrevPCReg pc;
  npc ← ReadRegister m1 NextPCReg;
  m2 ← WriteRegister m1 PCReg npc;
  WriteRegister m2 NextPCReg (i32 (npc + 4)).

(** The handler on an exception that is not a system call: what a bad address
    met by the kernel itself runs into. *)
Definition fault_handler (which : ExceptionType) (m : Machine) : outcome Machine := UpdatePC m.

(** [*(int * )(to + i) = v]. *)
Definition store_int (to : list Z) (i v : Z) : outcome (list Z) :=
  t0 ← arr_set to i (u8 v);
  t1 ← arr_set t0 (i + 1) (u8 (Z.shiftr v 8));
  t2 ← arr_set t1 (i + 2) (u8 (Z.shiftr v 16));
  arr_set t2 (i + 3) (u8 (Z.shiftr v 24)).

(** The loop of [copyStringFromMachine] for [n] more characters from [i] on. *)
Fixpoint copy_loop (n : nat) (from i : Z) (to : list Z) (m : Machine) : outcome (Z * list Z * Machine) :=
  match n with
  | O => Ok (i, to, m)
  | S n' =>
      '(r, m1) ← ReadMem fault_handler m (i32 (from + i)) 1;
      to1 ← (match r with Some v => store_int to i v | None => Ok to end);
      c ← arr_get to1 i;
      if c =? 0 then Ok (i, to1, m1) else copy_loop n' from (i + 1) to1 m1
  end.
Definition copyStringFromMachine (from : Z) (to : list Z) (size : Z) (m : Machine) : outcome (list Z * Machine) :=
  '(i, to1, m1) ← copy_loop (Z.to_nat (u32 size)) from 0 to m;
  to2 ← arr_set to1 i 0;
  Ok (to2, m1).

(** The bytes of a C string, without the final zero. *)
Fixpoint c_string (l : list Z) : list Z :=
  match l with [] => [] | c :: l' => if c =? 0 then [] else c :: c_string l' end.

(** The loop of [SC_Read] and [SC_Getstring]: [n] is the room left in the
    buffer, whose bytes from [size] on are [buf]. *)
Fixpoint put_user_string (buf : list Z) (start_addr size : Z) (m : Machine) : outcome Machine :=
  match buf with
  | [] => Fault
  | c :: buf' =>
      '(_, m1) ← WriteMem fault_handler m (i32 (start_addr + size)) 1 (i8 c);
      if c =? 0 then Ok m1 else put_user_string buf' start_addr (size + 1) m1
  end.

(** ** [snprintf] and [sscanf] with the format %d *)
Fixpoint digits (fuel : nat) (n : Z) : list Z :=
  match fuel with
  | O => []
  | S f => (if n <? 10 then [] else digits f (n / 10)) ++ [48 + n mod 10]
  end.
Definition print_int (z : Z) : list Z := if z <? 0 then 45 :: digits 10 (- z) else digits 10 z.
Definition is_space (c : Z) : bool := (c =? 32) || ((9 <=? c) && (c <=? 13)).
Fixpoint skip_space (l : list Z) : list Z :=
  match l with c :: l' => if is_space c then skip_space l' else l | [] => [] end.
Definition is_digit (c : Z) : bool := (48 <=? c) && (c <=? 57).
Fixpoint read_digits (acc : Z) (l : list Z) : Z :=
  match l with c :: l' => if is_digit c then read_digits (acc * 10 + (c - 48)) l' else acc | [] => acc end.
(** [None]: nothing is converted and the variable keeps its value. *)
Definition scan_int (l : list Z) : outcome (option Z) :=
  let l1 := skip_space l in
  let '(sign, l2) := match l1 with
                     | c :: l' => if c =? 45 then (-1, l') else if c =? 43 then (1, l') else (1, l1)
                     | [] => (1, l1) end in
  match l2 with
  | c :: _ => if is_digit c then
                let v := sign * read_digits 0 l2 in
                if (- two31 <=? v) && (v <? two31) then Ok (Some v) else Fault
              else Ok None
  | [] => Ok None
  end.

(** ** The end of a process *)
Definition broadcast_join (self : nat) (k : Kernel) : Kernel :=
  with_ready (with_conds k (nThreadsCond k) (<[self := []]> (processJoinCond k))) (ready k ++ processJoinCond k !!! self).

(** The loop of [synchThreadsMainExit] with the lock held. *)
Definition main_exit_loop (cur : Z) (k : Kernel) : outcome (waiting unit * Kernel) :=
  self ← current_space cur k;
  s ← get_space (vm k) self;
  if negb (nThreads s =? 0) then
    k1 ← unlock_threads cur (with_conds k (<[self := (nThreadsCond k !!! self) ++ [cur]]> (nThreadsCond k)) (processJoinCond k));
    Ok (Waits, k1)
  else k1 ← unlock_threads cur k; Ok (Returns tt, k1).
Definition synchThreadsMainExit (cur : Z) (k : Kernel) : outcome (waiting unit * Kernel) :=
  k1 ← lock_threads cur k;
  self ← current_space cur k1;
  s ← get_space (vm k1) self;
  pm ← Clear (pidMap (vm k1)) (pid s);
  main_exit_loop cur (broadcast_join self (with_vm k1 (with_pids (vm k1) pm (lastPid (vm k1))))).
Definition synchThreadsMainExit_resume (cur : Z) (k : Kernel) : outcome (waiting unit * Kernel) :=
  k1 ← lock_threads cur k; main_exit_loop cur k1.

(** [true]: the machine halts; otherwise the thread finishes. *)
Definition endProcess (cur : Z) (k : Kernel) : outcome (bool * Kernel) :=
  m ← mutex_acquire (nUsedAddrSpaceLock k) cur;
  k1 ← lock_threads cur (with_used_spaces k (nUsedAddrSpace k) m);
  space ← (match kthreads k1 !! cur with Some t => Ok (t_space t) | None => Fault end);
  k2 ← (match space with
        | Some self => '(_, v) ← ReleaseFrames self (vm k1); Ok (with_vm k1 v)
        | None => Ok k1
        end);
  let delete_space (k : Kernel) := match space with
    | Some self => '(_, v) ← AddrSpace_delete self (vm k); Ok (with_vm k v)
    | None => Ok k
    end in
  '(p, _) ← GetThreadInfoFromTid cur (vm k2);
  if nUsedAddrSpace k2 =? 0 then
    k3 ← delete_space k2;
    k4 ← unlock_threads cur k3;
    m' ← mutex_release (nUsedAddrSpaceLock k4) cur;
    Ok (true, with_used_spaces k4 (nUsedAddrSpace k4) m')
  else
    k3 ← (match p with
          | Some _ =>
              '(a, t) ← get_tinfo (vm k2) p;
              tm ← Clear (tidMap (vm k2)) cur;
              kb ← broadcast_thread a t (with_vm k2 (with_threads (vm k2) tm (threadsInfos (vm k2)) (tinfos (vm k2))));
              let v := vm kb in
              Ok (with_vm kb (with_threads v (tidMap v) (threadsInfos v) (delete a (tinfos v))))
          | None => Ok k2
          end);
    k4 ← unlock_threads cur (with_used_spaces k3 (nUsedAddrSpace k3 - 1) (nUsedAddrSpaceLock k3));
    k5 ← delete_space k4;
    m' ← mutex_release (nUsedAddrSpaceLock k5) cur;
    Ok (false, with_used_spaces k5 (nUsedAddrSpace k5) m').

(** The message of [exitCode], with the final zero. *)
Definition exit_message (cur exit_code : Z) : list Z :=
  (if exit_code =? 0 then [10] ++ bytes_of "Proper exit of thread "%string ++ print_int cur
   else [10] ++ bytes_of "Abnormal exit of thread "%string ++ print_int cur ++ bytes_of ", exit code: "%string ++ print_int exit_code)
  ++ [10; 0].
Definition exitCode (cur exit_code : Z) (s : SynchConsole) : outcome SynchConsole :=
  SynchPutString s (exit_message cur exit_code).

(** ** The system calls (userprog/syscall.h) *)
Inductive syscall :=
| SC_Halt | SC_Exit | SC_Create | SC_Open | SC_Read | SC_Write | SC_Close | SC_Putchar | SC_Putstring
| SC_Getchar | SC_Getstring | SC_Putint | SC_Getint | SC_Threadcreate | SC_Threadexit | SC_Threadjoin
| SC_Seminit | SC_Sempost | SC_Semwait | SC_Semdestroy | SC_Forkexec | SC_Sbrk | SC_Mkdir | SC_Rmdir
| SC_Listfiles | SC_Changedir | SC_Remove | SC_Seek | SC_Sendprocess | SC_Listenprocess | SC_Processjoin
| SC_Sendfile | SC_Receivefile | SC_Startftpserver.

(** [None]: no case of the switch. *)
Definition syscall_of (type : Z) : option syscall :=
  match type with
  | 0 => Some SC_Halt | 1 => Some SC_Exit | 4 => Some SC_Create | 5 => Some SC_Open | 6 => Some SC_Read
  | 7 => Some SC_Write | 8 => Some SC_Close | 11 => Some SC_Putchar | 12 => Some SC_Putstring
  | 13 => Some SC_Getchar | 14 => Some SC_Getstring | 15 => Some SC_Putint | 16 => Some SC_Getint
  | 17 => Some SC_Threadcreate | 18 => Some SC_Threadexit | 19 => Some SC_Threadjoin | 20 => Some SC_Seminit
  | 21 => Some SC_Sempost | 22 => Some SC_Semwait | 23 => Some SC_Semdestroy | 24 => Some SC_Forkexec
  | 25 => Some SC_Sbrk | 26 => Some SC_Mkdir | 27 => Some SC_Rmdir | 28 => Some SC_Listfiles
  | 29 => Some SC_Changedir | 30 => Some SC_Remove | 31 => Some SC_Seek | 32 => Some SC_Sendprocess
  | 33 => Some SC_Listenprocess | 34 => Some SC_Processjoin | 35 => Some SC_Sendfile
  | 36 => Some SC_Receivefile | 37 => Some SC_Startftpserver | _ => None
  end.

(** Where a call sleeps, and the calls into ftp.cc and migrate.cc. *)
Inductive sleeping :=
| OnThread (utid : Z) (p : option nat) | OnSemaphore (semId : Z) | OnProcess (p : Z) (space : option nat)
| OnFork (tid : Z) | OnThreads.
Inductive network_call :=
| SendProcess (net_addr shouldStop : Z) | ListenProcess | StartFTPserver
| FTPClientAction (net_addr : Z) (rw : Z) (fileName : list Z).
Inductive handled :=
| Returned | Halts | Finishes | Sleeps (s : sleeping) | CallsNetwork (c : network_call).

(** ** [ExceptionHandler] *)
Record World (D : Type) := mkWorld { kernel : Kernel; files : FileSystem D; terminal : SynchConsole }.
Arguments mkWorld {D}.
Arguments kernel {D}.
Arguments files {D}.
Arguments terminal {D}.

(** Everything the code reads before it writes it: see FileSys.v for the first
    five; the two buffers of the handler and its variables [value] and [semId]. *)
Record Uninitialised := mkUninitialised {
  u_header : list Z; u_bitmap : nat → Z; u_sector : nat → Z; u_entry : nat → DirectoryEntry;
  u_put : list Z; u_get : list Z; u_value : Z; u_semId : Z; u_info : thread_info
}.
(** [put_str] and [get_str] have [MAX_STRING_SIZE] bytes. *)
Definition buffers_ok (u : Uninitialised) : Prop :=
  Z.of_nat (length (u_put u)) = MAX_STRING_SIZE ∧ Z.of_nat (length (u_get u)) = MAX_STRING_SIZE.

Section handler.
Context {D : Type} `{SectorStore D}.
Variable u : Uninitialised.
Variable fuel : nat.    (* of the file headers, see FileHdr.v *)
Variable cur : Z.       (* the current thread *)
Implicit Types (w : World D) (k : Kernel).

Definition machine w : Machine := vm_machine (vm (kernel w)).
Definition with_kernel w k : World D := mkWorld k (files w) (terminal w).
Definition with_files w (f : FileSystem D) := mkWorld (kernel w) f (terminal w).
Definition with_terminal w t : World D := mkWorld (kernel w) (files w) t.
Definition on_machine w (m : Machine) : World D :=
  with_kernel w (with_vm (kernel w) (with_machine (vm (kernel w)) m)).

(** [machine->ReadRegister(n)] and [machine->WriteRegister(2, v)]. *)
Definition arg w (n : Z) : outcome Z := ReadRegister (machine w) n.
Definition set_result w (v : Z) : outcome (World D) := m ← WriteRegister (machine w) 2 v; Ok (on_machine w m).
Definition skip w : outcome (World D) := m ← UpdatePC (machine w); Ok (on_machine w m).

(** The end of the handler: back to the program behind the instruction. *)
Definition return_to_user w : outcome (handled * World D) := w1 ← skip w; Ok (Returned, w1).
Definition return_value w (v : Z) : outcome (handled * World D) := w1 ← set_result w v; return_to_user w1.

(** [copyStringFromMachine(ReadRegister(n), put_str, size)]: the string. *)
Definition user_string w (n size : Z) : outcome (list Z * World D) :=
  start_addr ← arg w n;
  '(buf, m) ← copyStringFromMachine start_addr (u_put u) size (machine w);
  Ok (buf, on_machine w m).

(** A call of the file system that takes a name and returns a [bool]. *)
Definition name_call (op : FileSystem D → list Z → outcome (bool * FileSystem D)) w : outcome (handled * World D) :=
  '(buf, w1) ← user_string w 4 MAX_STRING_SIZE;
  '(b, f) ← op (files w1) (c_string buf);
  return_value (with_files w1 f) (if (b : bool) then 1 else 0).

(** [machine->WriteMem(addr, 4, v)] and [machine->ReadMem(addr, 4, &v)], whose
    results the handler ignores. *)
Definition write_user w (addr v : Z) : outcome (World D) :=
  '(_, m) ← WriteMem fault_handler (machine w) addr 4 v; Ok (on_machine w m).
Definition read_user w (addr old : Z) : outcome (Z * World D) :=
  '(r, m) ← ReadMem fault_handler (machine w) addr 4; Ok (default old r, on_machine w m).

(** The first bytes of [get_str] become [l]; the string is copied to the user. *)
Definition give_string w (start_addr : Z) (l : list Z) : outcome (World D) :=
  _ ← (if Z.of_nat (length l) <=? MAX_STRING_SIZE then Ok tt else Fault);
  m ← put_user_string (l ++ drop (length l) (u_get u)) start_addr 0 (machine w);
  Ok (on_machine w m).

(** A call of userthread.cc that may wait. *)
Definition after_wait w (s : sleeping) (r : outcome (waiting unit * Kernel)) : outcome (handled * World D) :=
  '(x, k) ← r;
  match x with
  | Waits => Ok (Sleeps s, with_kernel w k)
  | Returns _ => return_to_user (with_kernel w k)
  end.
Definition after_join w (utid : Z) (r : outcome (waiting unit * option nat * Kernel)) : outcome (handled * World D) :=
  '(x, p, k) ← r;
  match x with
  | Waits => Ok (Sleeps (OnThread utid p), with_kernel w k)
  | Returns _ => return_to_user (with_kernel w k)
  end.

(** The end of a main thread once the others have ended. *)
Definition main_ends w : outcome (handled * World D) :=
  exit_code ← arg w 4;
  t ← exitCode cur exit_code (terminal w);
  '(halt, k) ← endProcess cur (kernel w);
  Ok (if (halt : bool) then Halts else Finishes, mkWorld k (files w) t).
Definition after_threads w (r : outcome (waiting unit * Kernel)) : outcome (handled * World D) :=
  '(x, k) ← r;
  match x with
  | Waits => Ok (Sleeps OnThreads, with_kernel w k)
  | Returns _ => main_ends (with_kernel w k)
  end.

(** [SC_Exit] and [SC_Threadexit]. *)
Definition do_exit w : outcome (handled * World D) :=
  t ← (match kthreads (kernel w) !! cur with Some t => Ok t | None => Fault end);
  if isMain t then after_threads w (synchThreadsMainExit cur (kernel w))
  else k ← do_UserThreadExit cur (kernel w); Ok (Finishes, with_kernel w k).

Definition handle_file (c : syscall) w : outcome (handled * World D) :=
  match c with
  | SC_Create => name_call (λ f nm, FileSystem_Create (u_header u) (u_bitmap u) (u_sector u) (u_entry u) fuel cur f nm 0) w
  | SC_Remove => name_call (FileSystem_Remove (u_bitmap u) (u_sector u) (u_entry u) fuel cur) w
  | SC_Mkdir => name_call (FileSystem_CreateDir (u_header u) (u_bitmap u) (u_sector u) (u_entry u) fuel cur) w
  | SC_Rmdir => name_call (FileSystem_RemoveDir (u_bitmap u) (u_sector u) (u_entry u) fuel cur) w
  | SC_Changedir => name_call (FileSystem_ChangeDir (u_entry u) fuel cur) w
  | SC_Open =>
      '(buf, w1) ← user_string w 4 MAX_STRING_SIZE;
      '(fd, f) ← FileSystem_OpenUser (u_entry u) fuel cur (files w1) (c_string buf);
      return_value (with_files w1 f) fd
  | SC_Close =>
      fd ← arg w 4;
      '(value, f) ← FileSystem_CloseUser cur (files w) fd;
      return_value (with_files w f) value
  | SC_Write =>
      (* reading behind [put_str] is out of bounds; nothing is read when the
         result is -1, and a negative size writes nothing *)
      size ← arg w 5;
      fd ← arg w 6;
      '(buf, w1) ← user_string w 4 MAX_STRING_SIZE;
      let data := take (Z.to_nat size) (buf ++ replicate (Z.to_nat (size - MAX_STRING_SIZE)) 0) in
      '(value, f) ← FileSystem_WriteUser (u_header u) (u_bitmap u) (u_sector u) fuel cur (files w1) data fd;
      _ ← (if (MAX_STRING_SIZE <? size) && negb (value =? -1) then Fault else Ok tt);
      return_value (with_files w1 f) value
  | SC_Read =>
      start_addr ← arg w 4;
      size ← arg w 5;
      fd ← arg w 6;
      '(r, f) ← FileSystem_ReadUser fuel cur (files w) size fd;
      w1 ← set_result (with_files w f) (match r with Some l => Z.of_nat (length l) | None => -1 end);
      w2 ← give_string w1 start_addr (default [] r);
      return_to_user w2
  | SC_Listfiles => '(_, f) ← FileSystem_List (u_entry u) fuel cur (files w); return_to_user (with_files w f)
  | SC_Seek =>
      fd ← arg w 4;
      value ← arg w 5;
      '(_, f) ← FileSystem_SeekUser cur (files w) fd value;
      return_to_user (with_files w f)
  | _ => return_to_user w
  end.

Definition handle_console (c : syscall) w : outcome (handled * World D) :=
  match c with
  | SC_Putchar => ch ← arg w 4; t ← SynchPutChar (terminal w) (u8 ch); return_to_user (with_terminal w t)
  | SC_Putstring =>
      size ← arg w 5;
      '(buf, w1) ← user_string w 4 (if size <? MAX_STRING_SIZE then size else MAX_STRING_SIZE - 1);
      t ← SynchPutString (terminal w1) buf;
      return_to_user (with_terminal w1 t)
  | SC_Getchar => '(ch, t) ← SynchGetChar (terminal w); return_value (with_terminal w t) ch
  | SC_Getstring =>
      start_addr ← arg w 4;
      size ← arg w 5;
      '(l, t) ← SynchGetString (terminal w) size;
      w1 ← give_string (with_terminal w t) start_addr l;
      return_to_user w1
  | SC_Putint =>
      value ← arg w 4;
      t ← SynchPutString (terminal w) (print_int value ++ [0]);
      return_to_user (with_terminal w t)
  | SC_Getint =>
      start_addr ← arg w 4;
      '(l, t) ← SynchGetString (terminal w) MAX_STRING_SIZE;
      _ ← (if Z.of_nat (length l) <=? MAX_STRING_SIZE then Ok tt else Fault);
      o ← scan_int (c_string l);
      w1 ← write_user (with_terminal w t) start_addr (default (u_value u) o);
      return_to_user w1
  | _ => return_to_user w
  end.

(** [semFORK->P()] of [do_ForkExec], at first and after each wake-up. *)
Definition fork_result w (tid : Z) k : outcome (handled * World D) :=
  '(x, k1) ← do_ForkExec_finish cur tid k;
  match x with
  | Waits => Ok (Sleeps (OnFork tid), with_kernel w k1)
  | Returns pid => return_value (with_kernel w k1) pid
  end.

Definition handle_process (c : syscall) w : outcome (handled * World D) :=
  match c with
  | SC_Exit | SC_Threadexit => do_exit w
  | SC_Threadcreate =>
      f ← arg w 4;
      a ← arg w 5;
      f_wrapper ← arg w 6;
      '(utid, k) ← do_UserThreadCreate cur f_wrapper f a (kernel w);
      return_value (with_kernel w k) utid
  | SC_Threadjoin => utid ← arg w 4; after_join w utid (do_UserThreadJoin cur utid (kernel w))
  | SC_Processjoin =>
      p ← arg w 4;
      '(x, space, k) ← do_ProcessJoin cur p (kernel w);
      after_wait w (OnProcess p space) (Ok (x, k))
  | SC_Seminit =>
      semAddr ← arg w 4;
      value ← arg w 5;
      '(semId, k) ← do_SemInit cur value (kernel w);
      w1 ← write_user (with_kernel w k) semAddr semId;
      return_to_user w1
  | SC_Sempost =>
      semAddr ← arg w 4;
      '(semId, w1) ← read_user w semAddr (u_semId u);
      k ← do_SemPost cur semId (kernel w1);
      return_to_user (with_kernel w1 k)
  | SC_Semwait =>
      semAddr ← arg w 4;
      '(semId, w1) ← read_user w semAddr (u_semId u);
      after_wait w1 (OnSemaphore semId) (do_SemWait cur semId (kernel w1))
  | SC_Semdestroy =>
      semAddr ← arg w 4;
      '(semId, w1) ← read_user w semAddr (u_semId u);
      k ← do_SemDestroy cur semId (kernel w1);
      return_to_user (with_kernel w1 k)
  | SC_Forkexec =>
      '(_, w1) ← user_string w 4 MAX_STRING_SIZE;
      '(r, k) ← do_ForkExec (u_info u) cur (kernel w1);
      match r with
      | None => return_value (with_kernel w1 k) (-1)
      | Some tid => fork_result w1 tid k
      end
  | SC_Sbrk =>
      size ← arg w 4;
      self ← current_space cur (kernel w);
      '(addr, v) ← do_Sbrk self cur (u32 size) (vm (kernel w));
      return_value (with_kernel w (with_vm (kernel w) v)) (i32 addr)
  | _ => return_to_user w
  end.

Definition handle_network (c : syscall) w : outcome (handled * World D) :=
  match c with
  | SC_Sendprocess =>
      w1 ← skip w;
      net_addr ← arg w1 4;
      shouldStop ← arg w1 5;
      Ok (CallsNetwork (SendProcess net_addr shouldStop), w1)
  | SC_Listenprocess => Ok (CallsNetwork ListenProcess, w)
  | SC_Startftpserver => Ok (CallsNetwork StartFTPserver, w)
  | SC_Sendfile | SC_Receivefile =>
      net_addr ← arg w 4;
      '(buf, w1) ← user_string w 5 MAX_STRING_SIZE;
      Ok (CallsNetwork (FTPClientAction net_addr (match c with SC_Sendfile => 119 | _ => 114 end) (c_string buf)), w1)
  | _ => return_to_user w
  end.

Definition ExceptionHandler (which : ExceptionType) w : outcome (handled * World D) :=
  type ← arg w 2;
  if decide (which = SyscallException) then
    match syscall_of type with
    | None => return_to_user w
    | Some SC_Halt => Ok (Halts, w)
    | Some c =>
        match c with
        | SC_Create | SC_Remove | SC_Mkdir | SC_Rmdir | SC_Changedir | SC_Listfiles | SC_Open | SC_Close | SC_Write
        | SC_Read | SC_Seek => handle_file c w
        | SC_Putchar | SC_Putstring | SC_Getchar | SC_Getstring | SC_Putint | SC_Getint => handle_console c w
        | SC_Sendprocess | SC_Listenprocess | SC_Startftpserver | SC_Sendfile | SC_Receivefile => handle_network c w
        | _ => handle_process c w
        end
    end
  else return_to_user w.

(** ** After a wake-up, and after a call into the network *)
Definition resume (s : sleeping) w : outcome (handled * World D) :=
  match s with
  | OnThread utid p => after_join w utid (do_UserThreadJoin_resume cur utid p (kernel w))
  | OnSemaphore semId => after_wait w s (do_SemWait_resume cur semId (kernel w))
  | OnProcess p space => after_wait w s (do_ProcessJoin_resume cur p space (kernel w))
  | OnFork tid => fork_result w tid (kernel w)
  | OnThreads => after_threads w (synchThreadsMainExit_resume cur (kernel w))
  end.

(** [result] is what the call returned. *)
Definition network_return (c : network_call) (result : Z) w : outcome (handled * World D) :=
  match c with
  | SendProcess _ shouldStop =>
      if result =? 0 then w1 ← set_result w (-1); Ok (Returned, w1)
      else if shouldStop =? 0 then w1 ← set_result w 0; Ok (Returned, w1)
      else do_exit w
  | StartFTPserver => return_to_user w
  | ListenProcess | FTPClientAction _ _ _ => return_value w result
  end.
End handler.

(** ** Reading the memory of the program *)

(** The page table in the MMU maps [va] to [pa]. *)
Definition maps (m : Machine) (writing : bool) (va pa : Z) : Prop :=
  ∃ p pt, pageTable m = Some p ∧ ptables m !! p = Some pt ∧ page_map pt writing va pa.

(** Same registers, memory and mappings; only use and dirty bits may differ. *)
Record same_view (m m' : Machine) : Prop := mkSameView {
  sv_wf : mmu_wf m';
  sv_regs : registers m' = registers m;
  sv_mem : mainMemory m' = mainMemory m;
  sv_maps : ∀ writing va pa, maps m writing va pa → maps m' writing va pa
}.

Lemma same_view_trans m1 m2 m3 : same_view m1 m2 → same_view m2 m3 → same_view m1 m3.
Proof. intros [? R1 M1 P1] [? R2 M2 P2]. constructor; try congruence. intros w va pa H. by apply P2, P1. Qed.

Lemma page_map_insert pt w va pa i e e' : pt !! i = Some e → valid e' = valid e → readOnly e' = readOnly e →
  physicalPage e' = physicalPage e → page_map pt w va pa → page_map (<[i := e']> pt) w va pa.
Proof.
  intros Hi Hv Hr Hp (x & Hx & H1 & H2 & H3 & ->). unfold page_map.
  destruct (decide (i = Z.to_nat (u32 va / PageSize))) as [->|Hne].
  - assert (x = e) as -> by congruence. exists e'. rewrite Hv, Hr, Hp.
    split; [|done]. apply list_lookup_insert_eq. by eapply lookup_lt_Some.
  - exists x. by rewrite list_lookup_insert_ne.
Qed.

Lemma ReadMem_byte h m va pa : mmu_wf m → maps m false va pa →
  ∃ m', ReadMem h m va 1 = Ok (Some (i8 (mem_byte m pa)), m') ∧ same_view m m'.
Proof.
  intros Hwf (p & pt & Hp & Hpt & Hm). unfold ReadMem.
  destruct (Translate_complete m va 1 false p pt pa Hwf (or_introl eq_refl) eq_refl Hp Hpt Hm)
    as (m' & E & Hmem & Hregs).
  destruct (Translate_spec m va 1 false Hwf (or_introl eq_refl))
    as [(ex & Hex & E')|(p' & pt' & pa' & e & m2 & Hp' & Hpt' & E' & _ & _ & _ & He & ->)];
    rewrite E in E'; [by injection E' as <-|]. injection E' as -> ->.
  assert (p' = p) as -> by congruence. assert (pt' = pt) as -> by congruence.
  rewrite E. cbn [mbind outcome_bind]. rewrite decide_True by done.
  eexists. split.
  { rewrite (load_bytes_mem _ m pa' 1 Hmem). reflexivity. }
  constructor; [|done|done|].
  - by apply (Translate_mmu_wf m va 1 false _ _ _ Hwf (or_introl eq_refl) E).
  - intros w x pb (q & qt & Hq & Hqt & Hx). assert (q = p) as -> by congruence. assert (qt = pt) as -> by congruence.
    eexists p, _. split; [done|]. cbn. rewrite lookup_alter_eq, Hpt. split; [done|].
    by eapply page_map_insert.
Qed.

(** The C string [l] is at [from + i]. *)
Fixpoint user_cstr (m : Machine) (from i : Z) (l : list Z) : Prop :=
  match l with
  | [] => ∃ pa, maps m false (i32 (from + i)) pa ∧ mem_byte m pa = 0
  | c :: l' => (∃ pa, maps m false (i32 (from + i)) pa ∧ mem_byte m pa = c) ∧ 0 < c < 256 ∧ user_cstr m from (i + 1) l'
  end.

Lemma user_cstr_view m m' from i l : same_view m m' → user_cstr m from i l → user_cstr m' from i l.
Proof.
  intros [_ _ Hmem Hmaps]. assert (∀ pa, mem_byte m' pa = mem_byte m pa) as Hb by (intros; unfold mem_byte; by rewrite Hmem).
  revert i. induction l as [|c l IH]; intros i; cbn.
  - intros (pa & H & E). exists pa. rewrite Hb. split; [by apply Hmaps|done].
  - intros ((pa & H & E) & Hc & Hl). split; [|split; [done|by apply IH]].
    exists pa. rewrite Hb. split; [by apply Hmaps|done].
Qed.

Lemma arr_set_app {A} (pre tl : list A) (x y : A) i : Z.of_nat (length pre) = i →
  arr_set (pre ++ x :: tl) i y = Ok (pre ++ y :: tl).
Proof.
  intros <-. rewrite arr_set_in by (rewrite length_app; cbn [length]; lia).
  rewrite Nat2Z.id, insert_app_r_alt, Nat.sub_diag by done. done.
Qed.

Lemma store_int_app pre a b c d tl i v : Z.of_nat (length pre) = i →
  ∃ x y z, store_int (pre ++ a :: b :: c :: d :: tl) i v = Ok (pre ++ u8 v :: x :: y :: z :: tl).
Proof.
  intros Hi. unfold store_int. rewrite (arr_set_app _ _ _ _ i) by done. cbn [mbind outcome_bind].
  exists (u8 (Z.shiftr v 8)), (u8 (Z.shiftr v 16)), (u8 (Z.shiftr v 24)).
  rewrite (cons_middle _ pre), app_assoc, (arr_set_app (pre ++ [u8 v])) by (rewrite length_app; cbn; lia).
  cbn [mbind outcome_bind]. rewrite (cons_middle _ (pre ++ [u8 v])), (app_assoc (pre ++ [u8 v])).
  rewrite (arr_set_app ((pre ++ [u8 v]) ++ [_])) by (rewrite !length_app; cbn; lia). cbn [mbind outcome_bind].
  rewrite (cons_middle _ (((pre ++ [u8 v]) ++ [_]))), (app_assoc ((pre ++ [u8 v]) ++ [_])).
  rewrite (arr_set_app (((pre ++ [u8 v]) ++ [_]) ++ [_])) by (rewrite !length_app; cbn; lia).
  by rewrite <- !app_assoc.
Qed.

Lemma u8_i8 c : 0 ≤ c < 256 → u8 (i8 c) = c.
Proof. intros. unfold u8, i8. zcases. Qed.

Lemma copy_loop_copies l n from i pre tl m : mmu_wf m → user_cstr m from i l → Z.of_nat (length pre) = i →
  (length l + 4 ≤ length tl)%nat → (length l < n)%nat →
  ∃ rest m', copy_loop n from i (pre ++ tl) m = Ok (i + Z.of_nat (length l), pre ++ l ++ 0 :: rest, m') ∧
    same_view m m' ∧ length (l ++ 0 :: rest) = length tl.
Proof.
  revert n i pre tl m. induction l as [|c l IH]; intros n i pre tl m Hwf Hu Hpre Htl Hn;
    (destruct n as [|n]; [lia|]); (destruct tl as [|t0 [|t1 [|t2 [|t3 tl]]]]; try (cbn in Htl; lia)); cbn [copy_loop].
  - destruct Hu as (pa & Hm & Eb). destruct (ReadMem_byte fault_handler m _ pa Hwf Hm) as (m1 & -> & Hv).
    cbn [mbind outcome_bind]. rewrite Eb. destruct (store_int_app pre t0 t1 t2 t3 tl i (i8 0) Hpre) as (x & y & z & ->).
    cbn [mbind outcome_bind]. rewrite (proj2 (arr_get_Ok _ _ 0)).
    2: { split; [lia|]. rewrite <- Hpre, Nat2Z.id, list_lookup_middle; done. }
    cbn. exists (x :: y :: z :: tl), m1. by rewrite Z.add_0_r.
  - destruct Hu as ((pa & Hm & Eb) & Hc & Hu). destruct (ReadMem_byte fault_handler m _ pa Hwf Hm) as (m1 & -> & Hv).
    cbn [mbind outcome_bind]. rewrite Eb. destruct (store_int_app pre t0 t1 t2 t3 tl i (i8 c) Hpre) as (x & y & z & ->).
    cbn [mbind outcome_bind]. rewrite u8_i8 by lia. rewrite (proj2 (arr_get_Ok _ _ c)).
    2: { split; [lia|]. rewrite <- Hpre, Nat2Z.id, list_lookup_middle; done. }
    cbn [mbind outcome_bind]. destruct (Z.eqb_spec c 0); [lia|]. rewrite cons_middle, app_assoc.
    destruct (IH n (i + 1) (pre ++ [c]) (x :: y :: z :: tl) m1 (sv_wf _ _ Hv) (user_cstr_view _ _ _ _ _ Hv Hu))
      as (rest & m' & -> & Hv' & Hlen).
    { rewrite length_app. cbn. lia. }
    { cbn in Htl |- *. lia. }
    { cbn in Hn. lia. }
    exists rest, m'. split; [|split; [by eapply same_view_trans|cbn in Hlen |- *; lia]].
    rewrite <- app_assoc. cbn [length app]. do 3 f_equal. lia.
Qed.

Lemma c_string_app l rest : Forall (λ c, 0 < c < 256) l → c_string (l ++ 0 :: rest) = l.
Proof.
  induction 1 as [|c l Hc _ IH]; [done|]. cbn. destruct (Z.eqb_spec c 0); [lia|]. by rewrite IH.
Qed.
Lemma user_cstr_bytes m from i l : user_cstr m from i l → Forall (λ c, 0 < c < 256) l.
Proof. revert i. induction l as [|c l IH]; intros i; cbn; [done|]. intros (_ & Hc & Hl). constructor; [done|by eapply IH]. Qed.

Lemma copyString_copies from l to size m : mmu_wf m → user_cstr m from 0 l →
  (length l + 4 ≤ length to)%nat → Z.of_nat (length l) < u32 size →
  ∃ buf m', copyStringFromMachine from to size m = Ok (buf, m') ∧ c_string buf = l ∧ same_view m m' ∧
    length buf = length to.
Proof.
  intros Hwf Hu Hto Hsz. unfold copyStringFromMachine.
  destruct (copy_loop_copies l (Z.to_nat (u32 size)) from 0 [] to m Hwf Hu eq_refl Hto) as (rest & m' & E & Hv & Hlen); [lia|].
  cbn [app] in E. rewrite E. cbn [mbind outcome_bind]. rewrite (arr_set_app l rest 0 0) by lia.
  exists (l ++ 0 :: rest), m'. split; [done|]. split; [|done]. by eapply c_string_app, user_cstr_bytes.
Qed.

(** The registers after [UpdatePC]. *)
Definition advanced (r : list Z) (pc npc : Z) : list Z :=
  <[Z.to_nat NextPCReg := i32 (npc + 4)]> (<[Z.to_nat PCReg := npc]> (<[Z.to_nat PrevPCReg := pc]> r)).

Lemma ReadRegister_at m n v : 0 ≤ n < NumTotalRegs → registers m !! Z.to_nat n = Some v → ReadRegister m n = Ok v.
Proof.
  intros Hn Hv. unfold ReadRegister. destruct (Z.leb_spec 0 n); [|lia]. destruct (Z.ltb_spec n NumTotalRegs); [|lia].
  cbn [andb ASSERT mbind outcome_bind]. apply arr_get_Ok. split; [lia|done].
Qed.
Lemma WriteRegister_at m n v : 0 ≤ n < NumTotalRegs → Z.of_nat (length (registers m)) = NumTotalRegs →
  WriteRegister m n v = Ok (set_regs m (<[Z.to_nat n := v]> (registers m))).
Proof.
  intros Hn Hl. unfold WriteRegister. destruct (Z.leb_spec 0 n); [|lia]. destruct (Z.ltb_spec n NumTotalRegs); [|lia].
  cbn [andb ASSERT mbind outcome_bind]. rewrite arr_set_in by lia. done.
Qed.

Lemma UpdatePC_advances m pc npc : Z.of_nat (length (registers m)) = NumTotalRegs →
  registers m !! Z.to_nat PCReg = Some pc → registers m !! Z.to_nat NextPCReg = Some npc →
  UpdatePC m = Ok (set_regs m (advanced (registers m) pc npc)).
Proof.
  intros Hl Hpc Hnpc. unfold UpdatePC. rewrite (ReadRegister_at _ _ pc) by done. cbn [mbind outcome_bind].
  rewrite WriteRegister_at by done. cbn [mbind outcome_bind].
  rewrite (ReadRegister_at _ _ npc); [|done|cbn [registers set_regs]; by rewrite list_lookup_insert_ne].
  cbn [mbind outcome_bind]. rewrite WriteRegister_at by (done || (cbn; by rewrite length_insert)).
  cbn [mbind outcome_bind]. rewrite WriteRegister_at by (done || (cbn; by rewrite !length_insert)). done.
Qed.

Section syscalls.
Context {D : Type} `{SectorStore D}.
Variable u : Uninitialised.
Variable fuel : nat.
Variable cur : Z.
Implicit Types (w : World D).

(** The program has executed a system call with code [type]. *)
Record trapped w (type pc npc : Z) : Prop := mkTrapped {
  tr_len : Z.of_nat (length (registers (machine w))) = NumTotalRegs;
  tr_type : registers (machine w) !! 2%nat = Some type;
  tr_pc : registers (machine w) !! Z.to_nat PCReg = Some pc;
  tr_npc : registers (machine w) !! Z.to_nat NextPCReg = Some npc
}.

(** The file system operation behind a call that passes a name. *)
Definition name_op (c : syscall) : option (FileSystem D → list Z → outcome (bool * FileSystem D)) :=
  match c with
  | SC_Create => Some (λ f nm, FileSystem_Create (u_header u) (u_bitmap u) (u_sector u) (u_entry u) fuel cur f nm 0)
  | SC_Remove => Some (FileSystem_Remove (u_bitmap u) (u_sector u) (u_entry u) fuel cur)
  | SC_Mkdir => Some (FileSystem_CreateDir (u_header u) (u_bitmap u) (u_sector u) (u_entry u) fuel cur)
  | SC_Rmdir => Some (FileSystem_RemoveDir (u_bitmap u) (u_sector u) (u_entry u) fuel cur)
  | SC_Changedir => Some (FileSystem_ChangeDir (u_entry u) fuel cur)
  | _ => None
  end.

Lemma handler_arg w type pc npc : trapped w type pc npc → arg w 2 = Ok type.
Proof. intros Ht. apply ReadRegister_at; [by vm_compute|]. apply Ht. Qed.

Lemma handler_name w type pc npc c op : trapped w type pc npc → syscall_of type = Some c → name_op c = Some op →
  ExceptionHandler u fuel cur SyscallException w = name_call u op w.
Proof.
  intros Ht Hc Hop. unfold ExceptionHandler. rewrite (handler_arg w type pc npc Ht). cbn [mbind outcome_bind].
  rewrite decide_True by done. rewrite Hc. destruct c; try discriminate Hop; injection Hop as <-; reflexivity.
Qed.

Lemma on_machine_twice w m1 m2 : on_machine (on_machine w m1) m2 = on_machine w m2.
Proof. done. Qed.

(** Registers between the trap and the return. *)
Lemma return_value_ok w type pc npc v : trapped w type pc npc →
  return_value w v = Ok (Returned, on_machine w (set_regs (machine w) (advanced (<[2%nat := v]> (registers (machine w))) pc npc))).
Proof.
  intros [Hl _ Hpc Hnpc]. unfold return_value, set_result. rewrite WriteRegister_at by done.
  cbn [mbind outcome_bind]. unfold return_to_user, skip.
  set (w1 := on_machine w _).
  rewrite (UpdatePC_advances (machine w1) pc npc); [done|..]; cbn [machine w1 on_machine with_kernel kernel vm with_vm with_machine
    vm_machine set_regs registers].
  - by rewrite length_insert.
  - by rewrite list_lookup_insert_ne.
  - by rewrite list_lookup_insert_ne.
Qed.

Lemma name_call_ok w type pc npc addr nm op b f : trapped w type pc npc → buffers_ok u →
  registers (machine w) !! 4%nat = Some addr → mmu_wf (machine w) → user_cstr (machine w) addr 0 nm →
  (length nm ≤ 252)%nat → op (files w) nm = Ok (b, f) →
  ∃ m', name_call u op w = Ok (Returned, on_machine (with_files w f) m') ∧ mmu_wf m' ∧
    mainMemory m' = mainMemory (machine w) ∧
    registers m' = advanced (<[2%nat := if (b : bool) then 1 else 0]> (registers (machine w))) pc npc.
Proof.
  intros Ht [Hb _] Ha Hwf Hu Hlen Hop. unfold name_call, user_string.
  assert (arg w 4 = Ok addr) as -> by (apply ReadRegister_at; [by vm_compute|done]). cbn [mbind outcome_bind].
  destruct (copyString_copies addr nm (u_put u) MAX_STRING_SIZE (machine w) Hwf Hu)
    as (buf & m1 & -> & Hs & [Hwf1 Hr1 Hm1 _] & _).
  { unfold MAX_STRING_SIZE in Hb. lia. }
  { change (u32 MAX_STRING_SIZE) with 256. lia. }
  cbn [mbind outcome_bind files on_machine with_kernel]. rewrite Hs, Hop. cbn [mbind outcome_bind].
  assert (trapped (with_files (on_machine w m1) f) type pc npc) as Ht1.
  { destruct Ht. by constructor; cbn [machine with_files on_machine with_kernel kernel vm with_vm with_machine vm_machine];
      rewrite Hr1. }
  rewrite (return_value_ok _ type pc npc) by done.
  change (machine (with_files (on_machine w m1) f)) with m1. rewrite Hr1.
  eexists (set_regs m1 _). split; [done|]. split; [|done].
  destruct Hwf1 as (? & p & pt & ?). split; [done|]. exists p, pt. done.
Qed.
End syscalls.

(** A system call that names a file or directory (Create, Remove, Mkdir,
    Rmdir, Changedir) with a string of up to 252 characters in mapped memory of
    the program calls the file system with exactly that string, once; when that
    returns, the handler puts the result in register 2, advances the program
    counters past the instruction exactly once, and changes no other register,
    no byte of memory, no thread and nothing of the console. *)
Theorem name_syscall {D} `{SectorStore D} (u : Uninitialised) fuel cur (w : World D) type pc npc addr nm c op b f :
  trapped w type pc npc → buffers_ok u → syscall_of type = Some c → name_op u fuel cur c = Some op →
  registers (machine w) !! 4%nat = Some addr → mmu_wf (machine w) → user_cstr (machine w) addr 0 nm →
  (length nm ≤ 252)%nat → op (files w) nm = Ok (b, f) →
  ∃ m', ExceptionHandler u fuel cur SyscallException w = Ok (Returned, on_machine (with_files w f) m') ∧
    mmu_wf m' ∧ mainMemory m' = mainMemory (machine w) ∧
    registers m' = advanced (<[2%nat := if (b : bool) then 1 else 0]> (registers (machine w))) pc npc.
Proof.
  intros Ht Hb Hc Hop Ha Hwf Hu Hlen E. rewrite (handler_name u fuel cur w type pc npc c op) by done.
  by apply (name_call_ok u w type pc npc addr nm op b f).
Qed.

(** ** A program that calls [Create(".")] *)
Definition demo_uninit : Uninitialised :=
  mkUninitialised [] (λ _, 0) (λ _, 0) (λ _, demo_entry) (replicate 256 7) (replicate 256 7) 0 0
    (mkThreadInfo 0 0 0 None).
(** Register 2 holds 4, register 4 holds 128: frame 5, where the string is. *)
Definition demo_user : Machine :=
  mkMachine {[640 := 46]} ([0; 0; 4; 0; 128] ++ replicate 29 0 ++ [256; 260; 252; 0; 0; 0]) None (Some 0%nat) 2
    {[ 0%nat := [mkTE 0 7 false false false false; mkTE 1 5 true false false false] ]} UserMode.
Definition demo_files : FileSystem SynchDisk :=
  let f := mkOpenFile demo_empty_file 0 in
  mkFS f None f None RootSector (mkBitMap 10 1 [0]) None [] demo_disk.
Definition demo_world : World SynchDisk :=
  mkWorld (with_vm demo_kernel (with_machine (vm demo_kernel) demo_user)) demo_files demo_console.

Lemma demo_user_wf : mmu_wf demo_user.
Proof.
  split; [reflexivity|]. eexists 0%nat, _. split; [reflexivity|]. split; [apply lookup_singleton_eq|].
  split; [reflexivity|]. repeat constructor; simpl; unfold two32; lia.
Qed.

Lemma demo_user_maps va pa : u32 va / PageSize = 1 → pa = 640 + u32 va mod PageSize → maps demo_user false va pa.
Proof.
  intros Hv ->. eexists 0%nat, _. split; [reflexivity|]. split; [apply lookup_singleton_eq|].
  exists (mkTE 1 5 true false false false). rewrite Hv. by split.
Qed.

Lemma demo_user_string : user_cstr demo_user 128 0 [46].
Proof.
  split.
  - exists 640. split; [by apply demo_user_maps; vm_compute|reflexivity].
  - split; [lia|]. exists 641. split; [by apply demo_user_maps; vm_compute|reflexivity].
Qed.

Lemma name_syscall_witness : ∃ m', ExceptionHandler demo_uninit 2 0 SyscallException demo_world =
    Ok (Returned, on_machine (with_files demo_world demo_files) m') ∧ registers m' !! 2%nat = Some 0 ∧
  registers m' !! 34%nat = Some 260.
Proof.
  destruct (name_syscall demo_uninit 2 0 demo_world 4 256 260 128 [46] SC_Create
    (λ f nm, FileSystem_Create [] (λ _, 0) (λ _, 0) (λ _, demo_entry) 2 0 f nm 0) false demo_files)
    as (m' & E & _ & _ & Hr).
  - constructor; reflexivity.
  - split; reflexivity.
  - reflexivity.
  - reflexivity.
  - reflexivity.
  - exact demo_user_wf.
  - exact demo_user_string.
  - cbn. lia.
  - reflexivity.
  - exists m'. split; [exact E|]. rewrite Hr. split; reflexivity.
Defined.
