(* ===== verification/Syscalls.v ===== *)
(** * System calls across the components

    What a program sees of a system call: the handler of Exception.v together
    with the file system and the threads of a process. *)
From S2P Require Import Prelude BitMap Memory AddrSpace ThreadData Synch UserThread Disk FileHdr FileGrow Directory FileSys FileSysInv FileSysOps Console Exception.

(** ** Creating a file *)
Section create_call.
Context {D : Type} `{SectorStore D}.
Variable u : Uninitialised.
Hypothesis Hfill : ∀ k, is_u8 (u_sector u k).
Hypothesis Hjunk : length (u_header u) = 29%nat ∧ Forall is_i32 (u_header u).
Hypothesis Hbuf : buffers_ok u.

(** C26: [SC_Create] from a program with a name of at most 252 characters, on a disk
    with a free sector: when the string in its memory is a new, unprotected name
    and an entry of the directory is free, the handler returns 1 in register 2
    and the file system is well formed with one more, empty, file under that
    name; without such a name or entry it returns 0 and no sector changes.  Either way
    the program goes on behind the system call with all other registers and its
    memory unchanged. *)
Theorem Create_syscall fuel cur (w : World D) pc npc addr nm A t :
  trapped w 4 pc npc → registers (machine w) !! 4%nat = Some addr → mmu_wf (machine w) →
  user_cstr (machine w) addr 0 nm → (length nm ≤ 252)%nat →
  fs_wf (files w) A → a_dirs A !! DirectorySector (files w) = Some t →
  1 ≤ Z.of_nat (base.size (free_set (a_free A))) →
  ∃ d m' (b : bool), ExceptionHandler u (S (S fuel)) cur SyscallException w =
      Ok (Returned, on_machine (with_files w (with_disk (files w) d)) m') ∧
    mainMemory m' = mainMemory (machine w) ∧ mmu_wf m' ∧
    registers m' = advanced (<[2%nat := if b then 1 else 0]> (registers (machine w))) pc npc ∧
    if b then creatable t nm ∧ ∃ A' s, created (files w) A t nm 0 d A' s
    else ¬ creatable t nm ∧ fs_wf (with_disk (files w) d) A ∧ same_content (fdisk (files w)) d.
Proof using Hfill Hjunk Hbuf.
  intros Ht Ha Hwf Hu Hlen Hw Hd Hfree.
  assert (is_string nm) as Hnm by (by eapply user_cstr_bytes).
  destruct (decide (creatable t nm)) as [Hc|Hc].
  - destruct (Create_spec (u_header u) (u_bitmap u) (u_sector u) (u_entry u) Hfill Hjunk fuel cur (files w) A nm 0 t)
      as (d & A' & s & E & Hcr); try done.
    destruct (name_syscall u (S (S fuel)) cur w 4 pc npc addr nm SC_Create _ true (with_disk (files w) d) Ht Hbuf eq_refl
      eq_refl Ha Hwf Hu Hlen E) as (m' & E' & ? & ? & ?).
    exists d, m', true. do 4 (split; [done|]). split; [done|]. by exists A', s.
  - destruct (Create_refused (u_header u) (u_bitmap u) (u_sector u) (u_entry u) Hjunk fuel cur (files w) A nm 0 t)
      as (d & E & Hr & Hs); try (done || lia).
    destruct (name_syscall u (S (S fuel)) cur w 4 pc npc addr nm SC_Create _ false (with_disk (files w) d) Ht Hbuf eq_refl
      eq_refl Ha Hwf Hu Hlen E) as (m' & E' & ? & ? & ?).
    by exists d, m', false.
Qed.
End create_call.

(** A program that creates the file [a] on a disk just formatted. *)
Definition demo_files_uninit : Uninitialised :=
  mkUninitialised demo_junk (λ _, 5) (λ _, 3) (λ _, demo_entry) (replicate 256 7) (replicate 256 7) 0 0
    (mkThreadInfo 0 0 0 None).
Definition demo_creator : Machine :=
  mkMachine {[640 := 97]} (registers demo_user) None (Some 0%nat) 2 (ptables demo_user) UserMode.

Lemma demo_creator_wf : mmu_wf demo_creator.
Proof. exact demo_user_wf. Qed.
Lemma demo_creator_string : user_cstr demo_creator 128 0 [97].
Proof.
  split.
  - exists 640. split; [exact (demo_user_maps 128 640 eq_refl eq_refl)|reflexivity].
  - split; [lia|]. exists 641. split; [exact (demo_user_maps 129 641 eq_refl eq_refl)|reflexivity].
Qed.

Lemma Create_syscall_witness : ∃ fs d m', demo_format = Ok fs ∧
  let w := mkWorld (with_vm demo_kernel (with_machine (vm demo_kernel) demo_creator)) fs demo_console in
  ExceptionHandler demo_files_uninit 2 0 SyscallException w =
    Ok (Returned, on_machine (with_files w (with_disk fs d)) m') ∧ registers m' !! 2%nat = Some 1.
Proof.
  destruct demo_format_wf as (fs & A & E & Hw & Ht & Hsz & _).
  pose (w := mkWorld (with_vm demo_kernel (with_machine (vm demo_kernel) demo_creator)) fs demo_console).
  destruct (Create_syscall demo_files_uninit three_byte demo_junk_ok (conj eq_refl eq_refl) 0 0 w 256 260 128 [97] A
    (Directory_new (λ _, demo_entry) NumDirEntries)) as (d & m' & b & E' & _ & _ & Hr & Hb).
  - constructor; reflexivity.
  - reflexivity.
  - exact demo_creator_wf.
  - exact demo_creator_string.
  - cbn. lia.
  - exact Hw.
  - exact Ht.
  - rewrite Hsz. lia.
  - exists fs, d, m'. split; [exact E|]. split; [exact E'|]. rewrite Hr. destruct b; [reflexivity|].
    exfalso. apply (proj1 Hb). split; [by vm_compute|]. split; [by vm_compute|]. split; [by vm_compute|].
    by apply Exists_cons_hd.
Defined.

(** ** The end of a process's main thread *)

(** A live thread of process [self] calls [UserThreadExit]. *)
Definition thread_ends (self : nat) (k k' : Kernel) : Prop :=
  ∃ s i a t, proc_wf k self s ∧ threadsLock k = None ∧ runs k (thread_id t) self ∧ slot (vm k) s i a t ∧
    do_UserThreadExit (thread_id t) k = Ok k'.

Section main_exit.
Variables (self : nat) (main : Z).
Implicit Types (k : Kernel) (s : AddrSpace).

(** The main thread sleeps until the last thread of its process has ended. *)
Record main_waits k s : Prop := mkMainWaits {
  mw_wf : proc_wf k self s;
  mw_lock : threadsLock k = None;
  mw_space : current_space main k = Ok self;
  mw_main : if live s =? 0 then main ∈ ready k else nThreadsCond k !!! self = [main]
}.

Lemma main_waits_step k k' s : main_waits k s → thread_ends self k k' → ∃ s', main_waits k' s'.
Proof.
  intros [Hwf Hl Hsp Hm] (s0 & i & a & t & Hwf0 & _ & Hr & Hs & E).
  assert (s0 = s) as -> by (pose proof (pw_space _ _ _ Hwf0); pose proof (pw_space _ _ _ Hwf); congruence).
  destruct (pw_live _ _ _ Hwf i a t Hs) as [_ [q Hq]].
  destruct (exit_spec k self s i a t q Hwf Hr Hl Hs Hq) as (k1 & s1 & E' & Hex).
  rewrite E in E'. injection E' as <-. exists s1. destruct Hex as [Hwf1 Hl1 Hready _ Hcount _ _ Hkt _ Hcond].
  rewrite (pw_count _ _ _ Hwf1), (pw_count _ _ _ Hwf) in Hcount.
  rewrite (pw_count _ _ _ Hwf1) in Hready, Hcond.
  pose proof (live_range _ _ (pw_threads _ _ _ Hwf1)) as Hr1.
  destruct (Z.eqb_spec (live s) 0); [lia|]. rewrite Hm in Hready, Hcond.
  constructor; [done|done| |].
  - unfold current_space in *. by rewrite Hkt.
  - destruct (live s1 =? 0); [|done]. rewrite Hready, !elem_of_app. right. right. by left.
Qed.

Lemma main_waits_steps k k' s : main_waits k s → rtc (thread_ends self) k k' → ∃ s', main_waits k' s'.
Proof.
  intros Hm Hs. revert s Hm. induction Hs as [k|k k1 k' Hstep _ IH]; intros s Hm; [by exists s|].
  destruct (main_waits_step k k1 s Hm Hstep) as (s1 & Hm1). by apply (IH s1).
Qed.

Lemma main_resumes k s : main_waits k s → live s = 0 → synchThreadsMainExit_resume main k = Ok (Returns tt, k).
Proof.
  intros [Hwf Hl Hsp _] H0. unfold synchThreadsMainExit_resume. rewrite lock_free by done. cbn [mbind outcome_bind].
  unfold main_exit_loop. change (current_space main (with_lock k (Some main))) with (current_space main k).
  rewrite Hsp. cbn [mbind outcome_bind vm with_lock]. unfold get_space. rewrite (pw_space _ _ _ Hwf).
  cbn [mbind outcome_bind]. rewrite (pw_count _ _ _ Hwf), H0. cbn [Z.eqb negb].
  rewrite (unlock_held main) by done. cbn [mbind outcome_bind]. by rewrite relock.
Qed.

(** Up to the first wait: the joiners of the process are woken. *)
Lemma main_exit_starts k s : proc_wf k self s → runs k main self → threadsLock k = None →
  bm_wf (pidMap (vm k)) → 0 ≤ pid s < numBits (pidMap (vm k)) → nThreadsCond k !!! self = [] →
  ∃ k1, synchThreadsMainExit main k = Ok (if live s =? 0 then Returns tt else Waits, k1) ∧
    proc_wf k1 self s ∧ threadsLock k1 = None ∧ current_space main k1 = Ok self ∧
    ready k1 = ready k ++ processJoinCond k !!! self ∧
    free_set (pidMap (vm k1)) = {[pid s]} ∪ free_set (pidMap (vm k)) ∧
    (live s ≠ 0 → nThreadsCond k1 !!! self = [main]).
Proof.
  intros Hwf Hr Hl Hpb Hpid Hq. unfold synchThreadsMainExit. rewrite lock_free by done. cbn [mbind outcome_bind].
  pose proof (current_space_ok k main self Hr) as Hsp.
  change (current_space main (with_lock k (Some main))) with (current_space main k). rewrite Hsp.
  cbn [mbind outcome_bind vm with_lock]. unfold get_space. rewrite (pw_space _ _ _ Hwf). cbn [mbind outcome_bind].
  destruct (Clear_spec (pidMap (vm k)) (pid s) Hpb Hpid) as (pm & -> & Hu). cbn [mbind outcome_bind].
  pose proof (updates_clear_free (pidMap (vm k)) pm (pid s) Hpid Hu) as Hfree.
  unfold main_exit_loop. set (k0 := broadcast_join self _).
  assert (current_space main k0 = Ok self) as -> by (exact Hsp). cbn [mbind outcome_bind].
  unfold get_space. change (spaces (vm k0) !! self) with (spaces (vm k) !! self). rewrite (pw_space _ _ _ Hwf).
  cbn [mbind outcome_bind]. rewrite (pw_count _ _ _ Hwf).
  assert (∀ k', vm k' = vm k0 → lastTid k' = lastTid k → proc_wf k' self s) as Hk.
  { intros k' E E2. destruct Hwf as [H1 H2 H3 H4 H5 H6].
    constructor; rewrite ?E, ?E2; try done. by apply (threads_wf_same (vm k) _ s s). }
  destruct (Z.eqb_spec (live s) 0) as [E0|E0]; cbn [negb].
  - rewrite (unlock_held main) by done. cbn [mbind outcome_bind]. eexists. split; [done|].
    split; [by apply Hk|]. by do 4 (split; [done|]).
  - rewrite (unlock_held main) by done. cbn [mbind outcome_bind]. eexists. split; [done|].
    split; [by apply Hk|]. do 4 (split; [done|]). intros _. cbn. rewrite lookup_total_insert_eq.
    change (nThreadsCond k0 !!! self) with (nThreadsCond k !!! self). by rewrite Hq.
Qed.
End main_exit.

(** C29: [SC_Exit] and [SC_Threadexit] of the main thread of a process release its
    process identifier and wake every thread that joined the process.  While
    other threads of the process live the main thread sleeps; whichever way they
    end, one [UserThreadExit] after the other, the process stays well formed,
    the main thread is still queued as long as one of them lives and ready once
    none does, and then it goes on to end the process. *)
Theorem Exit_waits_for_threads {D} `{SectorStore D} (u : Uninitialised) fuel main self (w : World D) s type pc npc arg0 :
  trapped w type pc npc → type = 1 ∨ type = 18 → proc_wf (kernel w) self s → runs (kernel w) main self →
  kthreads (kernel w) !! main = Some (mkThread (Some self) true arg0) → threadsLock (kernel w) = None →
  bm_wf (pidMap (vm (kernel w))) → 0 ≤ pid s < numBits (pidMap (vm (kernel w))) →
  nThreadsCond (kernel w) !!! self = [] →
  ∃ k1, ready k1 = ready (kernel w) ++ processJoinCond (kernel w) !!! self ∧
    free_set (pidMap (vm k1)) = {[pid s]} ∪ free_set (pidMap (vm (kernel w))) ∧ proc_wf k1 self s ∧
    (live s = 0 → ExceptionHandler u fuel main SyscallException w = main_ends main (with_kernel w k1)) ∧
    (live s ≠ 0 → ExceptionHandler u fuel main SyscallException w = Ok (Sleeps OnThreads, with_kernel w k1) ∧
       ∀ k2, rtc (thread_ends self) k1 k2 → ∃ s2, proc_wf k2 self s2 ∧
         (live s2 ≠ 0 → nThreadsCond k2 !!! self = [main]) ∧
         (live s2 = 0 → main ∈ ready k2 ∧
            resume main OnThreads (with_kernel w k2) = main_ends main (with_kernel w k2))).
Proof.
  intros Ht Htype Hwf Hr Hmain Hl Hpb Hpid Hq.
  destruct (main_exit_starts self main (kernel w) s Hwf Hr Hl Hpb Hpid Hq) as (k1 & E & Hwf1 & Hl1 & Hsp1 & Hrd & Hfr & Hw).
  assert (ExceptionHandler u fuel main SyscallException w = after_threads main w (Ok (if live s =? 0 then Returns tt else Waits, k1)))
    as EH.
  { unfold ExceptionHandler. rewrite (handler_arg w type pc npc Ht). cbn [mbind outcome_bind].
    rewrite decide_True by done. rewrite <- E.
    assert (do_exit main w = after_threads main w (synchThreadsMainExit main (kernel w))) as <-.
    { unfold do_exit. rewrite Hmain. done. }
    destruct Htype as [-> | ->]; reflexivity. }
  exists k1. split; [done|]. split; [done|]. split; [done|]. rewrite EH. split.
  - intros ->. done.
  - intros Hne. pose proof Hne as Hb%Z.eqb_neq. rewrite Hb. split; [done|]. intros k2 Hs.
    assert (main_waits self main k1 s) as Hm1 by (constructor; try done; rewrite Hb; by apply Hw).
    destruct (main_waits_steps self main k1 k2 s Hm1 Hs) as (s2 & Hm2). exists s2.
    split; [apply Hm2|]. split.
    + intros Hne2. pose proof (mw_main _ _ _ _ Hm2) as H2. by rewrite (proj2 (Z.eqb_neq _ _) Hne2) in H2.
    + intros H0. split; [pose proof (mw_main _ _ _ _ Hm2) as H2; by rewrite H0 in H2|].
      cbn [resume kernel with_kernel]. by rewrite (main_resumes self main k2 s2 Hm2 H0).
Qed.

(** The demo process with a process identifier, its main thread calling [Exit(0)]. *)
Definition demo_exiting : Machine :=
  mkMachine ∅ ([0; 0; 1; 0; 0] ++ replicate 29 0 ++ [256; 260; 252; 0; 0; 0]) None (Some 0%nat) 2 (ptables demo_user) UserMode.
Definition demo_exit_kernel : Kernel :=
  with_vm demo_kernel (with_machine (with_pids (vm demo_kernel) (mkBitMap 8 1 [1]) 1) demo_exiting).

Lemma demo_exit_wf : proc_wf demo_exit_kernel 3 demo_process.
Proof.
  destruct demo_kernel_wf as [H1 H2 H3 H4 H5 H6]. constructor; try done.
  by apply (threads_wf_same (vm demo_kernel) _ demo_process demo_process).
Qed.

Lemma Exit_waits_for_threads_witness : ∃ k1,
  let w := mkWorld demo_exit_kernel demo_files demo_console in
  ExceptionHandler demo_uninit 2 0 SyscallException w = Ok (Sleeps OnThreads, with_kernel w k1) ∧
  nThreadsCond k1 !!! 3%nat = [0].
Proof.
  destruct (Exit_waits_for_threads demo_uninit 2 0 3 (mkWorld demo_exit_kernel demo_files demo_console) demo_process
    1 256 260 (mkThreadArg 0 0 0)) as (k1 & _ & _ & Hwf & _ & Hlive).
  - constructor; reflexivity.
  - by left.
  - exact demo_exit_wf.
  - destruct (demo_kernel_runs 0 (or_introl eq_refl)). by constructor.
  - reflexivity.
  - reflexivity.
  - split; [done|]. split; [reflexivity|]. split; [reflexivity|]. repeat constructor; by vm_compute.
  - by vm_compute.
  - reflexivity.
  - assert (live demo_process ≠ 0) as Hne by (vm_compute; discriminate).
    destruct (Hlive Hne) as [E Hk]. exists k1. split; [exact E|].
    destruct (Hk k1 (rtc_refl _ _)) as (s2 & Hwf2 & Hq & _). apply Hq.
    assert (s2 = demo_process) as ->; [|exact Hne].
    pose proof (pw_space _ _ _ Hwf) as E1. pose proof (pw_space _ _ _ Hwf2) as E2. rewrite E1 in E2. by injection E2.
Defined.
