(* ===== verification/Loader.v ===== *)
(** * userprog/addrspace.cc, userprog/progtest.cc: loading a program

    The constructor [AddrSpace::AddrSpace(OpenFile *executable)] reads a program in NOFF format
    (bin/noff.h) from the file system into the memory of a new process, and
    [StartProcess] makes the current thread run it. *)
From S2P Require Import Prelude BitMap Memory Frames AddrSpace ThreadData Synch UserThread Disk FileHdr FileGrow Directory FileSys Console Exception.

Definition NOFFMAGIC : Z := 12245933.   (* 0xbadfad *)
Record Segment := mkSegment { virtualAddr : Z; inFileAddr : Z; segSize : Z }.
Record NoffHeader := mkNoffHeader { noffMagic : Z; code : Segment; initData : Segment; uninitData : Segment }.
Definition sizeof_NoffHeader : Z := 40.

Definition segment_at (l : list Z) (off : nat) : outcome Segment :=
  v ← int_at l off; f ← int_at l (off + 4); n ← int_at l (off + 8); Ok (mkSegment v f n).
Definition decode_noff (l : list Z) : outcome NoffHeader :=
  m ← int_at l 0; c ← segment_at l 4; i ← segment_at l 16; u ← segment_at l 28; Ok (mkNoffHeader m c i u).

Definition swap_segment (s : Segment) : Segment :=
  mkSegment (WordToHost (virtualAddr s)) (WordToHost (inFileAddr s)) (WordToHost (segSize s)).
Definition SwapHeader (h : NoffHeader) : NoffHeader :=
  mkNoffHeader (WordToHost (noffMagic h)) (swap_segment (code h)) (swap_segment (initData h)) (swap_segment (uninitData h)).

(** The loop of [ReadAtVirtual] from byte [i] on. *)
Fixpoint write_virtual (into : list Z) (virtualaddr i : Z) (m : Machine) : outcome Machine :=
  match into with
  | [] => Ok m
  | c :: into' =>
      '(_, m1) ← WriteMem fault_handler m (i32 (virtualaddr + i)) 1 (i8 c);
      write_virtual into' virtualaddr (i + 1) m1
  end.

Section loader.
Context {D : Type} `{SectorStore D}.
Variable fuel : nat.            (* of the file headers *)
Variable junk : nat → Z.        (* what [new] leaves in arrays *)

(** The first [n] bytes of a buffer into which [l] was read. *)
Definition buffer (n : Z) (l : list Z) : list Z := l ++ (junk <$> seq (length l) (Z.to_nat n - length l)).

Definition ReadAtVirtual (executable : OpenFile) (virtualaddr numBytes position : Z) (pageTable : nat) (numPages : Z)
    (m : Machine) (d : D) : outcome (Machine * D) :=
  let m1 := set_pageTable m (Some pageTable) numPages in
  '(l, d1) ← ReadAt fuel (hdr executable) numBytes position d;
  m2 ← write_virtual (buffer numBytes l) virtualaddr 0 m1;
  Ok (m2, d1).
Definition load_segment (executable : OpenFile) (s : Segment) (pageTable : nat) (numPages : Z) (m : Machine) (d : D)
    : outcome (Machine * D) :=
  if 0 <? segSize s then ReadAtVirtual executable (virtualAddr s) (segSize s) (inFileAddr s) pageTable numPages m d
  else Ok (m, d).

Definition read_header (executable : OpenFile) (d : D) : outcome (NoffHeader * D) :=
  '(l, d1) ← ReadAt fuel (hdr executable) sizeof_NoffHeader 0 d;
  h ← decode_noff (buffer sizeof_NoffHeader l);
  let h' := if negb (noffMagic h =? NOFFMAGIC) && (WordToHost (noffMagic h) =? NOFFMAGIC) then SwapHeader h else h in
  _ ← ASSERT (noffMagic h' =? NOFFMAGIC);
  Ok (h', d1).
Definition noff_pages (h : NoffHeader) : Z :=
  divRoundUp (u32 (i32 (segSize (code h) + segSize (initData h) + segSize (uninitData h) + UserStackSize))) PageSize.

(** The constructor; [currentThread->space = this] is in [StartProcess]. *)
Definition AddrSpace_load (tid : Z) (executable : OpenFile) (v : VM) (d : D) : outcome (nat * VM * D) :=
  '(p, v1) ← GetNewPid v;
  let self := vm_nextptr v1 in
  a ← arr_set (addrspaces v1) p (Some self);
  let v2 := with_nextptr (with_addrspaces v1 a) (S self) in
  '(h, d1) ← read_header executable d;
  let nPages := noff_pages h in
  '(pt, v3) ← build_page_table tid nPages v2;
  '(m4, d4) ← load_segment executable (code h) pt nPages (vm_machine v3) d1;
  '(m5, d5) ← load_segment executable (initData h) pt nPages m4 d4;
  let v5 := with_machine v3 m5 in
  sem ← BitMap_new junk MAX_SEM;
  s ← InitializeThreadData junk (mkAddrSpace p nPages pt (u32 (nPages * PageSize)) 0 1 sem [] [] sem);
  Ok (self, with_spaces v5 (<[self := s]> (spaces v5)), d5).
End loader.

(** ** [StartProcess] and [run_ForkExec] *)

(** [semFORK->V()]. *)
Definition fork_V (k : Kernel) : Kernel :=
  let x := semFORK k in
  match queue x with
  | [] => with_fork k (mkSemaphore (value x + 1) [])
  | t :: q => with_ready (with_fork k (mkSemaphore (value x + 1) q)) (ready k ++ [t])
  end.
(** [currentThread->space = p]. *)
Definition set_space (cur : Z) (p : option nat) (k : Kernel) : outcome Kernel :=
  match kthreads k !! cur with
  | Some t => Ok (with_kthreads k (lastTid k) (<[cur := mkThread p (isMain t) (t_arg t)]> (kthreads k)))
  | None => Fault
  end.

Section start.
Context {D : Type} `{SectorStore D}.
Variable u : Uninitialised.
Variable fuel : nat.
Variable junk : nat → Z.
Variable junkSems : list (option Semaphore).   (* what [new] leaves in [semList] *)
Variable cur : Z.

(** [true]: the thread runs the program; [false]: it returns. *)
Definition StartProcess (filename : list Z) (w : World D) : outcome (bool * World D) :=
  '(executable, f) ← FileSystem_Open (u_entry u) fuel cur (files w) filename;
  match executable with
  | None => k ← set_space cur None (kernel w); Ok (false, mkWorld (fork_V k) f (terminal w))
  | Some exe =>
      k1 ← lock_threads cur (kernel w);
      '(self, v, d) ← AddrSpace_load fuel junk cur exe (vm k1) (fdisk f);
      k2 ← set_space cur (Some self) (with_vm k1 v);
      let k3 := with_sems (with_conds k2 (<[self := []]> (nThreadsCond k2)) (<[self := []]> (processJoinCond k2)))
                  (<[self := junkSems]> (semLists k2)) in
      let k4 := fork_V k3 in
      '(_, v1) ← InitRegisters self (vm k4);
      '(_, v2) ← RestoreState self v1;
      k5 ← unlock_threads cur (with_vm k4 v2);
      Ok (true, mkWorld k5 (with_disk f d) (terminal w))
  end.

(** [None]: the thread runs the program; otherwise how [endProcess] ended. *)
Definition run_ForkExec (s : list Z) (w : World D) : outcome (option bool * World D) :=
  '(runs, w1) ← StartProcess s w;
  if (runs : bool) then Ok (None, w1)
  else '(halts, k) ← endProcess cur (kernel w1); Ok (Some halts, with_kernel w1 k).
End start.

(** ** Writing the program's memory *)

(** Two page tables with the same mapping, up to the use and dirty bits. *)
Definition same_entry (e e' : TranslationEntry) : Prop :=
  virtualPage e' = virtualPage e ∧ physicalPage e' = physicalPage e ∧ valid e' = valid e ∧ readOnly e' = readOnly e.
Record same_tables (m m' : Machine) : Prop := mkSameTables {
  st_tlb : tlb m' = tlb m;
  st_page : pageTable m' = pageTable m ∧ pageTableSize m' = pageTableSize m;
  st_regs : registers m' = registers m;
  st_none : ∀ p, ptables m !! p = None → ptables m' !! p = None;
  st_some : ∀ p pt, ptables m !! p = Some pt → ∃ pt', ptables m' !! p = Some pt' ∧ Forall2 same_entry pt pt'
}.

Lemma same_entry_refl e : same_entry e e.
Proof. done. Qed.
Lemma same_entries_refl pt : Forall2 same_entry pt pt.
Proof. induction pt; by constructor. Qed.
Lemma same_entries_insert pt i e e' : pt !! i = Some e → same_entry e e' → Forall2 same_entry pt (<[i := e']> pt).
Proof.
  revert i. induction pt as [|x pt IH]; intros [|i] Hi He; try done; cbn in Hi |- *.
  - injection Hi as ->. constructor; [done|]. apply same_entries_refl.
  - constructor; [done|]. by apply IH.
Qed.
Lemma same_entries_trans pt1 pt2 pt3 : Forall2 same_entry pt1 pt2 → Forall2 same_entry pt2 pt3 → Forall2 same_entry pt1 pt3.
Proof.
  intros H. revert pt3. induction H as [|x y l k (E1 & E2 & E3 & E4) _ IH]; intros pt3 H3; inversion H3 as [|? z ? ? (F1 & F2 & F3 & F4)]; subst;
    constructor; [|by apply IH]. unfold same_entry. split_and!; congruence.
Qed.

Lemma same_tables_refl m : same_tables m m.
Proof. constructor; try done. intros p pt Hp. exists pt. split; [done|]. apply same_entries_refl. Qed.
Lemma same_tables_trans m1 m2 m3 : same_tables m1 m2 → same_tables m2 m3 → same_tables m1 m3.
Proof.
  intros [T1 [P1 Q1] R1 N1 S1] [T2 [P2 Q2] R2 N2 S2]. constructor; try (split; congruence); try congruence.
  - intros p Hp. by apply N2, N1.
  - intros p pt Hp. destruct (S1 p pt Hp) as (pt1 & E1 & F1). destruct (S2 p pt1 E1) as (pt2 & E2 & F2).
    exists pt2. split; [done|]. by eapply same_entries_trans.
Qed.

Lemma page_map_same pt pt' w va pa : Forall2 same_entry pt pt' → page_map pt w va pa ↔ page_map pt' w va pa.
Proof.
  intros HF. split.
  - intros (e & He & H1 & H2 & H3 & ->). destruct (Forall2_lookup_l _ _ _ _ _ HF He) as (e' & He' & _ & Ep & Ev & Er).
    exists e'. rewrite Ep, Ev, Er. done.
  - intros (e' & He' & H1 & H2 & H3 & ->). destruct (Forall2_lookup_r _ _ _ _ _ HF He') as (e & He & _ & Ep & Ev & Er).
    exists e. rewrite <- Ep, <- Ev, <- Er. done.
Qed.

Lemma maps_same m m' w va pa : same_tables m m' → maps m w va pa ↔ maps m' w va pa.
Proof.
  intros [_ [Ep _] _ Hn Hs]. split.
  - intros (p & pt & H1 & H2 & H3). destruct (Hs p pt H2) as (pt' & H4 & HF). exists p, pt'.
    rewrite Ep. split; [done|]. split; [done|]. by apply (page_map_same pt pt').
  - intros (p & pt' & H1 & H2 & H3). rewrite Ep in H1. destruct (ptables m !! p) as [pt|] eqn:E.
    + destruct (Hs p pt E) as (pt2 & H4 & HF). assert (pt2 = pt') as -> by congruence. exists p, pt.
      split; [done|]. split; [done|]. by apply (page_map_same pt pt').
    + rewrite (Hn p E) in H2. discriminate.
Qed.

Lemma put_byte_tables m a b : same_tables m (put_byte m a b).
Proof. constructor; try done. intros p pt Hp. exists pt. split; [done|]. apply same_entries_refl. Qed.

Lemma store_entry_tables m p pt i e e' : ptables m !! p = Some pt → pt !! i = Some e → same_entry e e' →
  same_tables m (store_entry m (InTable p i) e').
Proof.
  intros Hp Hi He. constructor; try done; cbn.
  - intros q Hq. destruct (decide (q = p)) as [->|]; [congruence|]. by rewrite lookup_alter_ne.
  - intros q qt Hq. destruct (decide (q = p)) as [->|].
    + rewrite lookup_alter_eq, Hq. assert (qt = pt) as -> by congruence. eexists. split; [done|].
      by eapply same_entries_insert.
    + rewrite lookup_alter_ne by done. exists qt. split; [done|]. apply same_entries_refl.
Qed.

Lemma mmu_wf_tables m m' : mmu_wf m → same_tables m m' → mmu_wf m'.
Proof.
  intros (Ht & p & pt & Hp & Hpt & Hsz & Hf) [E1 [E2 E3] _ _ Hs].
  destruct (Hs p pt Hpt) as (pt' & Hpt' & HF). split; [congruence|]. exists p, pt'.
  split; [congruence|]. split; [done|]. split; [rewrite E3, Hsz; by rewrite (Forall2_length _ _ _ HF)|].
  apply Forall_lookup. intros i e' He'. destruct (Forall2_lookup_r _ _ _ _ _ HF He') as (e & He & _ & Ep & _).
  unfold entry_wf. rewrite Ep. by eapply (Forall_lookup_1 entry_wf).
Qed.

(** One byte written through the page table. *)
Lemma WriteMem_byte h m va pa b : mmu_wf m → maps m true va pa →
  ∃ m', WriteMem h m va 1 b = Ok (true, m') ∧ same_tables m m' ∧ mem_byte m' pa = u8 b ∧
    ∀ a, a ≠ pa → mem_byte m' a = mem_byte m a.
Proof.
  intros Hwf (p & pt & Hp & Hpt & Hm). unfold WriteMem.
  destruct (Translate_complete m va 1 true p pt pa Hwf (or_introl eq_refl) eq_refl Hp Hpt Hm) as (m' & E & _ & _).
  destruct (Translate_spec m va 1 true Hwf (or_introl eq_refl))
    as [(ex & Hex & E')|(p' & pt' & pa' & e & m2 & Hp' & Hpt' & E' & _ & _ & _ & He & ->)];
    rewrite E in E'; [by injection E' as <-|]. injection E' as -> ->.
  assert (p' = p) as -> by congruence. assert (pt' = pt) as -> by congruence.
  rewrite E. cbn [mbind outcome_bind]. rewrite decide_True by done. unfold store_bytes. cbn [Z.eqb mbind outcome_bind].
  eexists. split; [done|]. split; [|split].
  - eapply same_tables_trans; [|apply put_byte_tables]. by eapply store_entry_tables.
  - rewrite mem_byte_put_eq, land_255_mod. unfold u8. by rewrite Z.mod_mod.
  - intros a Ha. by rewrite mem_byte_put_ne.
Qed.

(** No two virtual addresses below 2^31 share a byte of memory. *)
Definition no_alias (m : Machine) : Prop :=
  ∀ x y pa, 0 ≤ x < two31 → 0 ≤ y < two31 → maps m true x pa → maps m true y pa → x = y.

Definition written (into : list Z) (start : Z) (m m' : Machine) : Prop :=
  (∀ x pa, maps m true x pa → 0 ≤ x < two31 →
     mem_byte m' pa = if decide (start ≤ x < start + Z.of_nat (length into)) then u8 (nth (Z.to_nat (x - start)) into 0)
                      else mem_byte m pa) ∧
  ∀ a, (∀ x, start ≤ x < start + Z.of_nat (length into) → ¬ maps m true x a) → mem_byte m' a = mem_byte m a.

Lemma i32_small x : 0 ≤ x < two31 → i32 x = x.
Proof. intros. apply i32_id. unfold is_i32, two31 in *. lia. Qed.

Lemma write_virtual_spec into va i m : mmu_wf m → no_alias m → 0 ≤ va + i →
  va + i + Z.of_nat (length into) ≤ two31 →
  (∀ x, va + i ≤ x < va + i + Z.of_nat (length into) → ∃ pa, maps m true x pa) →
  ∃ m', write_virtual into va i m = Ok m' ∧ same_tables m m' ∧ written into (va + i) m m'.
Proof.
  revert i m. induction into as [|c into IH]; intros i m Hwf Hal H0 Hhi Hmap; cbn [write_virtual].
  { exists m. split; [done|]. split; [apply same_tables_refl|]. split; [|done].
    intros x pa _ _. rewrite decide_False; [done|]. cbn. lia. }
  cbn [length] in Hhi, Hmap. rewrite i32_small by lia.
  destruct (Hmap (va + i)) as [p0 Hp0]; [lia|].
  destruct (WriteMem_byte fault_handler m _ p0 (i8 c) Hwf Hp0) as (m1 & -> & Hs1 & Hb1 & Hk1). cbn [mbind outcome_bind].
  assert (no_alias m1) as Hal1.
  { intros x y pa Hx Hy Mx My. apply (Hal x y pa Hx Hy); by apply (maps_same m m1). }
  destruct (IH (i + 1) m1 (mmu_wf_tables m m1 Hwf Hs1) Hal1) as (m' & -> & Hs' & Hw & Hk); [lia|lia| |].
  { intros x Hx. destruct (Hmap x) as [pa Hpa]; [lia|]. exists pa. by apply (maps_same m m1). }
  exists m'. split; [done|]. split; [by eapply same_tables_trans|]. cbn [length]. split.
  - intros x pa Hx Hxr. cbn [length]. rewrite (Hw x pa) by (done || by apply (maps_same m m1)).
    destruct (decide (x = va + i)) as [->|Hne].
    + rewrite decide_False by lia. rewrite decide_True by lia. rewrite Z.sub_diag. change (nth (Z.to_nat 0) (c :: into) 0) with c.
      assert (pa = p0) as ->.
      { destruct Hx as (p & pt & E1 & E2 & e & He & _ & _ & _ & ->), Hp0 as (q & qt & E3 & E4 & e' & He' & _ & _ & _ & ->).
        assert (q = p) as -> by congruence. assert (qt = pt) as -> by congruence. assert (e' = e) as -> by congruence. done. }
      rewrite Hb1. unfold u8, i8. zcases.
    + destruct (decide (va + (i + 1) ≤ x < va + (i + 1) + Z.of_nat (length into))).
      * rewrite decide_True by lia. replace (Z.to_nat (x - (va + i))) with (S (Z.to_nat (x - (va + (i + 1))))) by lia. done.
      * rewrite decide_False by lia. apply Hk1. intros ->. apply Hne. by apply (Hal x (va + i) p0); [lia|lia| |].
  - intros a Ha. cbn [length] in Ha. rewrite Hk.
    + apply Hk1. intros ->. by apply (Ha (va + i)); [lia|].
    + intros x Hx Hm. apply (Ha x); [lia|]. by apply (maps_same m m1).
Qed.

Lemma written_after (l1 l2 : list Z) s1 s2 m m1 m2 : same_tables m m1 →
  written l1 s1 m m1 → written l2 s2 m1 m2 → ∀ x pa, maps m true x pa → 0 ≤ x < two31 →
  mem_byte m2 pa = if decide (s2 ≤ x < s2 + Z.of_nat (length l2)) then u8 (nth (Z.to_nat (x - s2)) l2 0)
    else if decide (s1 ≤ x < s1 + Z.of_nat (length l1)) then u8 (nth (Z.to_nat (x - s1)) l1 0) else mem_byte m pa.
Proof.
  intros Hs [H1 _] [H2 _] x pa Hm Hx. rewrite (H2 x pa) by (done || by apply (maps_same m m1)).
  case_decide; [done|]. by apply H1.
Qed.

(** ** The memory system around the writes *)
Section same_vm.
Context (v : VM) (m' : Machine).
Hypothesis Hst : same_tables (vm_machine v) m'.

Lemma owns_tables a i f : owns (with_machine v m') a i f ↔ owns v a i f.
Proof using Hst.
  destruct Hst as [_ _ _ Hn Hs]. split.
  - intros (s & pt' & e' & Es & Ept & He & Ef). cbn in Es, Ept. destruct (ptables (vm_machine v) !! as_pageTable s) as [pt|] eqn:E.
    + destruct (Hs _ pt E) as (pt2 & E2 & HF). assert (pt2 = pt') as -> by congruence.
      destruct (Forall2_lookup_r _ _ _ _ _ HF He) as (e & He1 & _ & Ep & _). exists s, pt, e. split_and!; try done. congruence.
    + rewrite (Hn _ E) in Ept. discriminate.
  - intros (s & pt & e & Es & Ept & He & Ef). destruct (Hs _ pt Ept) as (pt' & E2 & HF).
    destruct (Forall2_lookup_l _ _ _ _ _ HF He) as (e' & He1 & _ & Ep & _). exists s, pt', e'. split_and!; try done. congruence.
Qed.

Lemma space_map_tables a w va pa : space_map (with_machine v m') a w va pa ↔ space_map v a w va pa.
Proof using Hst.
  destruct Hst as [_ _ _ Hn Hs]. split.
  - intros (s & pt' & Es & Ept & Hm). cbn in Es, Ept. destruct (ptables (vm_machine v) !! as_pageTable s) as [pt|] eqn:E.
    + destruct (Hs _ pt E) as (pt2 & E2 & HF). assert (pt2 = pt') as -> by congruence. exists s, pt.
      split; [done|]. split; [done|]. by apply (page_map_same pt pt').
    + rewrite (Hn _ E) in Ept. discriminate.
  - intros (s & pt & Es & Ept & Hm). destruct (Hs _ pt Ept) as (pt' & E2 & HF). exists s, pt'.
    split; [done|]. split; [done|]. by apply (page_map_same pt pt').
Qed.

Lemma vm_wf_tables : vm_wf v → vm_wf (with_machine v m').
Proof using Hst.
  intros [H1 H2 H3 H4 H5 H6 H7]. constructor; try done.
  - intros a s Hs. destruct (H3 a s Hs) as (pt & Hpt & Hl). destruct (st_some _ _ Hst _ pt Hpt) as (pt' & E & HF).
    exists pt'. split; [done|]. by rewrite <- (Forall2_length _ _ _ HF).
  - intros a i f Ho%owns_tables. by apply (H6 a i f).
  - intros a i b j f Ha%owns_tables Hb%owns_tables. by apply (H7 a i b j f).
Qed.
End same_vm.

(** With the page table of [a] in the MMU. *)
Lemma maps_space v a s n : spaces v !! a = Some s →
  ∀ w va pa, maps (set_pageTable (vm_machine v) (Some (as_pageTable s)) n) w va pa ↔ space_map v a w va pa.
Proof.
  intros Hs w va pa. split.
  - intros (p & pt & [= <-] & Hpt & Hm). by exists s, pt.
  - intros (s' & pt & Hs' & Hpt & Hm). assert (s' = s) as -> by congruence. by exists (as_pageTable s), pt.
Qed.

Lemma space_no_alias v a s n : vm_wf v → spaces v !! a = Some s →
  no_alias (set_pageTable (vm_machine v) (Some (as_pageTable s)) n).
Proof.
  intros Hwf Hs x y pa Hx Hy Mx%(maps_space v a s n Hs) My%(maps_space v a s n Hs).
  destruct (space_map_inj v a a true true x y pa Hwf Mx My) as [_ E].
  unfold two31 in *. rewrite !u32_id in E by (unfold is_u32, two32; lia). done.
Qed.

Lemma space_mmu v a s : vm_wf v → tlb (vm_machine v) = None → spaces v !! a = Some s →
  mmu_wf (set_pageTable (vm_machine v) (Some (as_pageTable s)) (numPages s)).
Proof.
  intros Hwf Htlb Hs. destruct (restored_mmu v a (with_machine v (set_pageTable (vm_machine v) (Some (as_pageTable s)) (numPages s))))
    as (s' & pt & _ & _ & Hm & _); try done. unfold RestoreState, get_space. by rewrite Hs.
Qed.

(** The bytes of a segment, once loaded. *)
Definition segment_bytes (F : list Z) (s : Segment) : list Z :=
  if 0 <? segSize s then take (Z.to_nat (segSize s)) (drop (Z.to_nat (inFileAddr s)) F) else [].
(** A segment that lies in the file and in the first [n] pages. *)
Definition segment_ok (F : list Z) (n : Z) (s : Segment) : Prop :=
  0 < segSize s → 0 ≤ virtualAddr s ∧ virtualAddr s + segSize s ≤ n * PageSize ∧
    0 ≤ inFileAddr s ∧ inFileAddr s + segSize s ≤ Z.of_nat (length F).

Section load.
Context {D : Type} `{SectorStore D}.
Variable fuel : nat.
Variable junk : nat → Z.

Lemma load_segment_spec v a s exe sg d secs meta : vm_wf v → tlb (vm_machine v) = None → spaces v !! a = Some s →
  numPages s * PageSize ≤ two31 → (∀ va, 0 ≤ va < numPages s * PageSize → ∃ pa, space_map v a true va pa) →
  store_ok d → file_at d (hdr exe) secs meta → segment_ok (file_bytes d (hdr exe) secs) (numPages s) sg →
  ∃ m' d' m1, load_segment (S (S fuel)) junk exe sg (as_pageTable s) (numPages s) (vm_machine v) d = Ok (m', d') ∧
    (m1 = vm_machine v ∨ m1 = set_pageTable (vm_machine v) (Some (as_pageTable s)) (numPages s)) ∧
    same_tables m1 m' ∧ store_ok d' ∧ same_content d d' ∧
    (∀ x pa, space_map v a true x pa → 0 ≤ x < two31 → mem_byte m' pa =
       if decide (virtualAddr sg ≤ x < virtualAddr sg + Z.of_nat (length (segment_bytes (file_bytes d (hdr exe) secs) sg)))
       then u8 (nth (Z.to_nat (x - virtualAddr sg)) (segment_bytes (file_bytes d (hdr exe) secs) sg) 0)
       else mem_byte (vm_machine v) pa) ∧
    (∀ x, (∀ va, ¬ space_map v a true va x) → mem_byte m' x = mem_byte (vm_machine v) x).
Proof.
  intros Hwf Htlb Hs Hsz Hmap Hd Hf Hok. unfold load_segment, segment_bytes.
  destruct (Z.ltb_spec 0 (segSize sg)) as [Hpos|Hpos].
  2: { exists (vm_machine v), d, (vm_machine v). split; [done|]. split; [by left|]. split; [apply same_tables_refl|].
       split; [done|]. split; [by intros ?|]. split; [|done]. intros x pa _ _. rewrite decide_False; [done|]. cbn. lia. }
  destruct (Hok Hpos) as (H0 & H1 & H2 & H3). set (F := file_bytes d (hdr exe) secs) in *.
  unfold ReadAtVirtual. destruct (file_at_split d (hdr exe) secs meta Hf) as (Hsd & Hdk & _).
  destruct (ReadAt_with_spec (ByteToSector (S (S fuel))) (hdr exe) (segSize sg) (inFileAddr sg) d d secs meta)
    as (d1 & E & Hd1 & Hc1); try done; [by apply file_finds|].
  unfold ReadAt. rewrite E. fold F. cbn [mbind outcome_bind].
  set (bs := take (Z.to_nat (segSize sg)) (drop (Z.to_nat (inFileAddr sg)) F)).
  assert (length bs = Z.to_nat (segSize sg)) as Hlen by (unfold bs; rewrite length_take, length_drop; lia).
  assert (buffer junk (segSize sg) bs = bs) as -> by (unfold buffer; by rewrite Hlen, Nat.sub_diag, app_nil_r).
  set (m0 := set_pageTable (vm_machine v) (Some (as_pageTable s)) (numPages s)).
  destruct (write_virtual_spec bs (virtualAddr sg) 0 m0 (space_mmu v a s Hwf Htlb Hs) (space_no_alias v a s _ Hwf Hs))
    as (m' & -> & Hst & Hw & Hk); [lia|lia| |].
  { intros x Hx. destruct (Hmap x) as [pa Hpa]; [lia|]. exists pa. by apply (maps_space v a s). }
  cbn [mbind outcome_bind]. rewrite Z.add_0_r in Hw, Hk.
  exists m', d1, m0. split; [done|]. split; [by right|]. split; [done|]. split; [done|]. split; [done|]. split.
  - intros x pa Hx Hxr. apply Hw; [|done]. by apply (maps_space v a s).
  - intros x Hx. apply Hk. intros y _ Hy%(maps_space v a s _ Hs). by apply (Hx y).
Qed.
End load.

Lemma after_load v m1 m' p n : m1 = vm_machine v ∨ m1 = set_pageTable (vm_machine v) p n → same_tables m1 m' → vm_wf v →
  vm_wf (with_machine v m') ∧ (∀ a w va pa, space_map (with_machine v m') a w va pa ↔ space_map v a w va pa) ∧
  (∀ a i f, owns (with_machine v m') a i f ↔ owns v a i f) ∧ tlb m' = tlb (vm_machine v) ∧ registers m' = registers (vm_machine v).
Proof.
  intros Hm Hst Hwf.
  assert (vm_wf (with_machine v m1)) as Hwf1.
  { destruct Hm as [-> | ->]; [by destruct v|]. destruct Hwf. by constructor. }
  split; [exact (vm_wf_tables (with_machine v m1) m' Hst Hwf1)|]. split; [|split; [|split]].
  - intros a w va pa. transitivity (space_map (with_machine v m1) a w va pa).
    + exact (space_map_tables (with_machine v m1) m' Hst a w va pa).
    + by destruct Hm as [-> | ->].
  - intros a i f. transitivity (owns (with_machine v m1) a i f).
    + exact (owns_tables (with_machine v m1) m' Hst a i f).
    + by destruct Hm as [-> | ->].
  - rewrite (st_tlb _ _ Hst). by destruct Hm as [-> | ->].
  - rewrite (st_regs _ _ Hst). by destruct Hm as [-> | ->].
Qed.

Section program.
Context {D : Type} `{SectorStore D}.
Variable fuel : nat.
Variable junk : nat → Z.

(** The constructor is the one for [n] pages, then the two segments. *)
Lemma load_is_new tid exe v d h d1 self v' s n : AddrSpace_new junk 0 tid n v = Ok (self, v') →
  read_header fuel junk exe d = Ok (h, d1) → noff_pages h = n → spaces v' !! self = Some s →
  nThreads s = 0 ∧ AddrSpace_load fuel junk tid exe v d =
    ('(m4, d4) ← load_segment fuel junk exe (code h) (as_pageTable s) n (vm_machine v') d1;
     '(m5, d5) ← load_segment fuel junk exe (initData h) (as_pageTable s) n m4 d4;
     Ok (self, with_machine v' m5, d5)).
Proof.
  intros Hnew Hh <- Hs. unfold AddrSpace_new in Hnew. unfold AddrSpace_load.
  apply bind_Ok_inv in Hnew as ([p v1] & -> & Hnew). cbn [mbind outcome_bind].
  apply bind_Ok_inv in Hnew as (a & -> & Hnew). cbn [mbind outcome_bind].
  rewrite Hh. cbn [mbind outcome_bind].
  apply bind_Ok_inv in Hnew as ([pt v3] & -> & Hnew). cbn [mbind outcome_bind].
  apply bind_Ok_inv in Hnew as (sem & -> & Hnew).
  apply bind_Ok_inv in Hnew as (s' & Es' & Hnew). injection Hnew as <- <-.
  cbn in Hs. rewrite lookup_insert_eq in Hs. injection Hs as ->.
  assert (as_pageTable s = pt ∧ nThreads s = 0) as [-> ->].
  { unfold InitializeThreadData in Es'. destruct (BitMap_new junk MaxThreadsPerProcess); try discriminate Es'.
    injection Es' as <-. done. }
  split; [done|]. cbn [vm_machine with_spaces].
  destruct (load_segment fuel junk exe (code h) pt (noff_pages h) (vm_machine v3) d1) as [[m4 d4]| | |]; [|done..].
  cbn [mbind outcome_bind].
  destruct (load_segment fuel junk exe (initData h) pt (noff_pages h) m4 d4) as [[m5 d5]| | |]; [|done..].
  cbn [mbind outcome_bind]. rewrite Es'. done.
Qed.

(** What byte [x] of the process holds: initialised data over code over zero. *)
Definition image (F : list Z) (h : NoffHeader) (x : Z) : Z :=
  let i := segment_bytes F (initData h) in
  let c := segment_bytes F (code h) in
  if decide (virtualAddr (initData h) ≤ x < virtualAddr (initData h) + Z.of_nat (length i))
  then u8 (nth (Z.to_nat (x - virtualAddr (initData h))) i 0)
  else if decide (virtualAddr (code h) ≤ x < virtualAddr (code h) + Z.of_nat (length c))
  then u8 (nth (Z.to_nat (x - virtualAddr (code h))) c 0)
  else 0.

(** A well-formed NOFF file with contents [F]. *)
Record noff_ok (F : list Z) (h : NoffHeader) : Prop := mkNoffOk {
  nk_length : sizeof_NoffHeader ≤ Z.of_nat (length F);
  nk_header : decode_noff (take (Z.to_nat sizeof_NoffHeader) F) = Ok h;
  nk_magic : noffMagic h = NOFFMAGIC;
  nk_code : segment_ok F (noff_pages h) (code h);
  nk_data : segment_ok F (noff_pages h) (initData h)
}.

Lemma read_header_ok exe d secs meta h : store_ok d → file_at d (hdr exe) secs meta →
  noff_ok (file_bytes d (hdr exe) secs) h →
  ∃ d', read_header (S (S fuel)) junk exe d = Ok (h, d') ∧ store_ok d' ∧ same_content d d'.
Proof.
  intros Hd Hf [H1 H2 H3 _ _]. set (F := file_bytes d (hdr exe) secs) in *.
  destruct (file_at_split d (hdr exe) secs meta Hf) as (Hsd & Hdk & _).
  destruct (ReadAt_with_spec (ByteToSector (S (S fuel))) (hdr exe) sizeof_NoffHeader 0 d d secs meta)
    as (d1 & E & Hd1 & Hc1); try done; [by apply file_finds|].
  exists d1. split; [|done]. unfold read_header, ReadAt. rewrite E. fold F. cbn [mbind outcome_bind].
  rewrite drop_0. set (l := take _ F) in *.
  assert (length l = Z.to_nat sizeof_NoffHeader) as Hlen by (unfold l; rewrite length_take; lia).
  assert (buffer junk sizeof_NoffHeader l = l) as -> by (unfold buffer; by rewrite Hlen, Nat.sub_diag, app_nil_r).
  rewrite H2. cbn [mbind outcome_bind]. rewrite H3, Z.eqb_refl. cbn [negb andb]. by rewrite H3, Z.eqb_refl.
Qed.

(** The two segments of a program in the fresh pages of a process. *)
Lemma segments_load v a s exe h d secs meta : vm_wf v → tlb (vm_machine v) = None → spaces v !! a = Some s →
  numPages s * PageSize ≤ two31 → (∀ va, 0 ≤ va < numPages s * PageSize → ∃ pa, space_map v a true va pa) →
  store_ok d → file_at d (hdr exe) secs meta → noff_ok (file_bytes d (hdr exe) secs) h → noff_pages h = numPages s →
  (∀ i, zero_page v a i) →
  ∃ m' d', ('(m4, d4) ← load_segment (S (S fuel)) junk exe (code h) (as_pageTable s) (numPages s) (vm_machine v) d;
      '(m5, d5) ← load_segment (S (S fuel)) junk exe (initData h) (as_pageTable s) (numPages s) m4 d4;
      Ok (a, with_machine v m5, d5)) = Ok (a, with_machine v m', d') ∧
    vm_wf (with_machine v m') ∧ store_ok d' ∧ same_content d d' ∧
    (∀ b w va pa, space_map (with_machine v m') b w va pa ↔ space_map v b w va pa) ∧
    (∀ b i f, owns (with_machine v m') b i f ↔ owns v b i f) ∧
    (∀ x pa, space_map v a true x pa → 0 ≤ x < two31 → mem_byte m' pa = image (file_bytes d (hdr exe) secs) h x) ∧
    (∀ x, (∀ va, ¬ space_map v a true va x) → mem_byte m' x = mem_byte (vm_machine v) x) ∧
    tlb m' = tlb (vm_machine v) ∧ registers m' = registers (vm_machine v).
Proof.
  intros Hwf Htlb Hs Hsz Hmap Hd Hf [_ _ _ Hc Hi] Epg Hz. rewrite Epg in Hc, Hi.
  destruct (load_segment_spec fuel junk v a s exe (code h) d secs meta)
    as (m4 & d4 & m1 & -> & Hm1 & Hst1 & Hd4 & Hc4 & Hw4 & Hk4); try done.
  destruct (after_load v m1 m4 _ _ Hm1 Hst1 Hwf) as (Hwf4 & Hsm4 & How4 & Et4 & Er4). cbn [mbind outcome_bind].
  pose proof (same_file d d4 (hdr exe) secs meta Hc4 Hf) as [Hf4 EF]. rewrite <- EF in Hi |- *.
  destruct (load_segment_spec fuel junk (with_machine v m4) a s exe (initData h) d4 secs meta)
    as (m5 & d5 & m2 & E5 & Hm2 & Hst2 & Hd5 & Hc5 & Hw5 & Hk5); try done.
  { by rewrite <- Htlb, <- Et4. }
  { intros va Hva. destruct (Hmap va Hva) as [pa Hpa]. exists pa. by apply Hsm4. }
  destruct (after_load (with_machine v m4) m2 m5 _ _ Hm2 Hst2 Hwf4) as (Hwf5 & Hsm5 & How5 & Et5 & Er5). cbn [vm_machine with_machine] in Et5, Er5.
  cbn [vm_machine with_machine] in E5. rewrite E5. cbn [mbind outcome_bind].
  exists m5, d5. split; [done|]. split; [exact Hwf5|]. split; [done|]. split; [intros n; by rewrite Hc5, Hc4|].
  split; [intros b w va pa; rewrite <- (Hsm4 b w va pa); apply Hsm5|].
  split; [intros b i f; rewrite <- (How4 b i f); apply How5|]. split; [|split; [|split; congruence]].
  - intros x pa Hx Hxr. rewrite (Hw5 x pa) by (done || by apply Hsm4). unfold image. case_decide; [done|].
    cbn [vm_machine with_machine]. rewrite (Hw4 x pa) by done. rewrite EF. case_decide; [done|].
    destruct Hx as (s' & pt & Hs' & Hpt & e & He & Hv & _ & Hp & ->).
    apply (Hz (Z.to_nat (u32 x / PageSize)) (physicalPage e)); [by exists s', pt, e|].
    unfold in_frame. pose proof (Z.mod_pos_bound (u32 x) PageSize). unfold PageSize, SectorSize in *. lia.
  - intros x Hx. rewrite Hk5; [by apply Hk4|]. intros va Hva. apply (Hx va). by apply Hsm4.
Qed.
End program.

(** Loading a program.  Given a well-formed NOFF file whose segments lie in
    the file and in the address space its header asks for, and enough free
    frames, the constructor succeeds: the new process has exactly the pages the
    header asks for, each byte of code and initialised data holds the byte of
    the file it comes from and every other byte is zero; no byte of another
    process and no sector of the disk changes, and the memory system stays well
    formed. *)
Theorem AddrSpace_load_loads {D} `{SectorStore D} fuel junk tid exe v (d : D) secs meta h :
  let F := file_bytes d (hdr exe) secs in let n := noff_pages h in
  vm_wf v → pids_wf v → free_set (pidMap v) ≠ ∅ → tlb (vm_machine v) = None →
  store_ok d → file_at d (hdr exe) secs meta → noff_ok F h →
  0 ≤ n ≤ Z.of_nat (size (fp_free (vm_frames v))) →
  ∃ self v' d' s, AddrSpace_load (S (S fuel)) junk tid exe v d = Ok (self, v', d') ∧
    vm_wf v' ∧ spaces v !! self = None ∧ spaces v' !! self = Some s ∧ numPages s = n ∧ nThreads s = 0 ∧
    addrspaces v' !! Z.to_nat (pid s) = Some (Some self) ∧
    (∀ va, 0 ≤ va < n * PageSize → ∃ pa, space_map v' self true va pa) ∧
    (∀ x pa, space_map v' self true x pa → 0 ≤ x < n * PageSize → mem_byte (vm_machine v') pa = image F h x) ∧
    others_untouched v v' self ∧ store_ok d' ∧ same_content d d' ∧
    tlb (vm_machine v') = None ∧ registers (vm_machine v') = registers (vm_machine v).
Proof.
  intros F n Hwf Hp Hne Htlb Hd Hf Hok Hn.
  destruct (AddrSpace_new_full junk 0 tid n v Hwf Hp Hne Hn)
    as (self & v1 & s & Enew & Hwf1 & _ & Hnone & Hs & Enp & _ & Hap & _ & Hmap & Hz & Hoth & _ & _ & Etlb & Ereg).
  destruct (read_header_ok fuel junk exe d secs meta h Hd Hf Hok) as (d1 & Eh & Hd1 & Hc1).
  destruct (load_is_new (S (S fuel)) junk tid exe v d h d1 self v1 s n Enew Eh eq_refl Hs) as [Hnt ->].
  destruct (same_file d d1 (hdr exe) secs meta Hc1 Hf) as [Hf1 EF].
  assert (n * PageSize ≤ two31) as Hsz.
  { pose proof (fp_size v (vw_fp v Hwf)). unfold two31, NumPhysPages, PageSize, SectorSize in *. lia. }
  destruct (segments_load fuel junk v1 self s exe h d1 secs meta Hwf1)
    as (m' & d' & E & Hwf' & Hd' & Hc' & Hsm & How & Himg & Hkeep & Etlb' & Ereg'); rewrite ?Enp, ?EF; try done.
  { by rewrite Etlb. }
  rewrite Enp in E. rewrite E. exists self, (with_machine v1 m'), d', s.
  split; [done|]. split; [done|]. split; [done|]. split; [done|]. split; [done|]. split; [done|]. split; [done|].
  split; [intros va Hva; destruct (Hmap va Hva) as [pa Hpa]; exists pa; by apply Hsm|].
  split; [intros x pa Hx%Hsm Hr; rewrite EF in Himg; apply Himg; [done|lia]|].
  split; [|split; [done|split; [intros i; by rewrite Hc', Hc1|split; [cbn; by rewrite Etlb', Etlb|cbn; by rewrite Ereg', Ereg]]]].
  intros b i f Hb Ho. destruct (Hoth b i f Hb Ho) as [Ho1 Hbytes]. split; [by apply How|].
  intros x Hx. cbn [vm_machine with_machine]. rewrite Hkeep; [by apply Hbytes|].
  intros va (s' & pt & Hs' & Hpt & e & He & _ & _ & _ & Epa).
  destruct (vw_excl v1 Hwf1 self (Z.to_nat (u32 va / PageSize)) b i f) as [E' _]; [|done|by rewrite E' in Hb].
  exists s', pt, e. split_and!; try done. symmetry. apply (frames_disjoint f (physicalPage e) x Hx).
  subst x. unfold in_frame. pose proof (Z.mod_pos_bound (u32 va) PageSize). unfold PageSize, SectorSize in *. lia.
Qed.

(** A program of eight bytes of code and four of data, in sector 5. *)
Definition demo_program : list Z :=
  le32 NOFFMAGIC ++ le32 0 ++ le32 40 ++ le32 8 ++ le32 128 ++ le32 48 ++ le32 4 ++ le32 0 ++ le32 0 ++ le32 0 ++
  [1; 2; 3; 4; 5; 6; 7; 8] ++ [21; 22; 23; 24] ++ replicate 76 0.
Definition demo_program_disk : SynchDisk :=
  mkSynchDisk (mkDisk {[5 := demo_program]} false 0 0 0 0 0) None 0.
Definition demo_executable : OpenFile := mkOpenFile (mkHeader DATA_FILE 128 1 (5 :: replicate 28 0)) 0.
Definition demo_header : NoffHeader :=
  mkNoffHeader NOFFMAGIC (mkSegment 0 40 8) (mkSegment 128 48 4) (mkSegment 0 0 0).

Lemma demo_program_store : store_ok demo_program_disk.
Proof.
  split; [|done]. split; [done|]. split; [by vm_compute|]. split; [done|].
  intros s. unfold Disk.sector, demo_program_disk. cbn [disk dcontents]. destruct (decide (s = 5)) as [->|Hne].
  - rewrite lookup_singleton_eq. split; [reflexivity|]. change (Forall is_u8 demo_program). unfold demo_program.
    rewrite !Forall_app. split_and!; try apply le32_bytes; repeat constructor; by vm_compute.
  - rewrite lookup_singleton_ne by done. split; [done|]. apply Forall_replicate. by vm_compute.
Qed.
Lemma demo_program_file : file_at demo_program_disk (hdr demo_executable) [5] [].
Proof.
  constructor; [|repeat constructor; by vm_compute|repeat constructor; set_solver].
  split; [|split; [split; [done|reflexivity]|split; [done|split; [simpl; lia|done]]]].
  split; [by vm_compute|]. split; [by vm_compute|]. split; [by vm_compute|]. split; [done|].
  repeat constructor; by vm_compute.
Qed.
Lemma demo_program_bytes : file_bytes demo_program_disk (hdr demo_executable) [5] = demo_program.
Proof. reflexivity. Qed.
Lemma demo_program_noff : noff_ok demo_program demo_header.
Proof. constructor; [by vm_compute|reflexivity|reflexivity|by vm_compute..]. Qed.

Lemma AddrSpace_load_loads_witness : ∃ v self v' d' pa, Initialize_vm (λ _, 7) None None 0 = Ok v ∧
  AddrSpace_load 2 (λ _, 9) 1 demo_executable v demo_program_disk = Ok (self, v', d') ∧
  space_map v' self true 129 pa ∧ mem_byte (vm_machine v') pa = 22.
Proof.
  destruct (Initialize_vm_spec (λ _, 7) None None 0) as (v & Hv & Hwf & Hp & _ & Hsz & Hf & _).
  destruct (AddrSpace_load_loads 0 (λ _, 9) 1 demo_executable v demo_program_disk [5] [] demo_header Hwf Hp)
    as (self & v' & d' & s & E & _ & _ & _ & _ & _ & _ & Hmap & Himg & _).
  - rewrite Hf. apply all_free_nonempty. reflexivity.
  - exact (initial_tlb _ _ _ _ v Hv).
  - exact demo_program_store.
  - exact demo_program_file.
  - exact demo_program_noff.
  - rewrite Hsz. clear. by vm_compute.
  - change (noff_pages demo_header) with 17 in Hmap, Himg. destruct (Hmap 129) as [pa Hpa]; [clear; by vm_compute|].
    exists v, self, v', d', pa. split; [exact Hv|]. split; [exact E|]. split; [exact Hpa|].
    rewrite (Himg 129 pa Hpa); [clear; reflexivity|clear; by vm_compute].
Defined.
