(* ===== verification/Coff.v ===== *)
(** * bin/coff2noff.c: from COFF to NOFF

    The program that turns the output of the MIPS compiler into the object
    files that [AddrSpace::AddrSpace] loads (Loader).  It runs on the host: a
    process has the files of the host and the offsets of its two descriptors;
    every error ends it.  [coff_converts] says what it makes of a well-formed
    COFF file; its printing, and the host running out of memory, are left out. *)
From stdpp Require Import strings.
From S2P Require Import Prelude BitMap Memory Frames AddrSpace ThreadData Disk FileHdr Loader.
Open Scope Z_scope.

(** ** Host processes *)

(** A UNIX file has a name and bytes; [inOff] and [outOff] are the offsets of
    [fdIn] and [fdOut]. *)
Record Process := mkProcess { host : gmap (list Z) (list Z); inOff : Z; outOff : Z }.

Inductive message :=
| Usage | CannotOpen | FileTooShort | UnableToWrite | NotMipsel | NotOmagic
| DataAndRdata | BssAndSbss | UnknownSegment.

(** A call returns or leaves by [exit(1)], the message on [stderr]. *)
Inductive running (A : Type) : Type :=
| Runs (a : A) (p : Process)
| Exits (m : message) (files : gmap (list Z) (list Z)).
Arguments Runs {A} a p.
Arguments Exits {A} m files.
Definition running_bind {A B} (m : running A) (f : A → Process → running B) : running B :=
  match m with Runs a p => f a p | Exits e h => Exits e h end.

(** ** coff.h *)
Definition MIPSELMAGIC : Z := 354.   (* 0x0162 *)
Definition OMAGIC : Z := 263.        (* 0407 *)
Record filehdr := mkFilehdr {
  f_magic : Z; f_nscns : Z; f_timdat : Z; f_symptr : Z; f_nsyms : Z; f_opthdr : Z; f_flags : Z }.
Record aouthdr := mkAouthdr {
  magic : Z; vstamp : Z; tsize : Z; dsize : Z; bsize : Z; entry : Z; text_start : Z; data_start : Z;
  bss_start : Z; gprmask : Z; cprmask : list Z; gp_value : Z }.
Record scnhdr := mkScnhdr {
  s_name : list Z; s_paddr : Z; s_vaddr : Z; s_size : Z; s_scnptr : Z; s_relptr : Z; s_lnnoptr : Z;
  s_nreloc : Z; s_nlnno : Z; s_flags : Z }.
Definition sizeof_filehdr : Z := 20.
Definition sizeof_aouthdr : Z := 56.
Definition sizeof_scnhdr : Z := 40.

(** The structures as the i386 host lays them out: [long] is 32 bits wide. *)
Definition byte_at (l : list Z) (k : nat) : Z := u8 (nth k l 0).
Definition ushort_at (l : list Z) (k : nat) : Z := byte_at l k + 256 * byte_at l (S k).
Definition short_at (l : list Z) (k : nat) : Z := (ushort_at l k + 32768) mod 65536 - 32768.
Definition long_at (l : list Z) (k : nat) : Z :=
  i32 (unle32 (byte_at l k) (byte_at l (k + 1)) (byte_at l (k + 2)) (byte_at l (k + 3))).
Definition decode_filehdr (l : list Z) : filehdr :=
  mkFilehdr (ushort_at l 0) (ushort_at l 2) (long_at l 4) (long_at l 8) (long_at l 12) (ushort_at l 16) (ushort_at l 18).
Definition decode_aouthdr (l : list Z) : aouthdr :=
  mkAouthdr (short_at l 0) (short_at l 2) (long_at l 4) (long_at l 8) (long_at l 12) (long_at l 16) (long_at l 20)
    (long_at l 24) (long_at l 28) (long_at l 32) [long_at l 36; long_at l 40; long_at l 44; long_at l 48] (long_at l 52).
Definition decode_scnhdr (l : list Z) : scnhdr :=
  mkScnhdr (byte_at l <$> seq 0 8) (long_at l 8) (long_at l 12) (long_at l 16) (long_at l 20) (long_at l 24)
    (long_at l 28) (ushort_at l 32) (ushort_at l 34) (long_at l 36).
Fixpoint decode_sections (n : nat) (l : list Z) : list scnhdr :=
  match n with O => [] | S n' => decode_scnhdr l :: decode_sections n' (drop (Z.to_nat sizeof_scnhdr) l) end.

Definition encode_segment (s : Segment) : list Z := le32 (virtualAddr s) ++ le32 (inFileAddr s) ++ le32 (segSize s).
Definition encode_noff (h : NoffHeader) : list Z :=
  le32 (noffMagic h) ++ encode_segment (code h) ++ encode_segment (initData h) ++ encode_segment (uninitData h).

(** [strcmp(name, s)] and [strncmp(name, s, 8)] on an eight-byte name and a
    shorter literal compare the literal and its zero. *)
Definition named (name : list Z) (s : String.string) : bool :=
  bool_decide (take (S (String.length s)) name = bytes_of s ++ [0]).
Inductive kind := Text | Data | Bss | Unknown.
Definition kind_of (s : scnhdr) : kind :=
  if named (s_name s) ".text"%string then Text
  else if named (s_name s) ".data"%string || named (s_name s) ".rdata"%string then Data
  else if named (s_name s) ".bss"%string || named (s_name s) ".sbss"%string then Bss
  else Unknown.
#[global] Instance kind_eq_dec : EqDecision kind.
Proof. solve_decision. Defined.

Definition set_code (h : NoffHeader) (s : Segment) : NoffHeader := mkNoffHeader (noffMagic h) s (initData h) (uninitData h).
Definition set_initData (h : NoffHeader) (s : Segment) : NoffHeader := mkNoffHeader (noffMagic h) (code h) s (uninitData h).
Definition set_uninitData (h : NoffHeader) (s : Segment) : NoffHeader := mkNoffHeader (noffMagic h) (code h) (initData h) s.

Section coff2noff.
Variable limit : Z.               (* how long the host lets a file grow *)
Variable creat : list Z → bool.   (* whether the host opens the name for writing *)
Variable junkH : NoffHeader.      (* what [noffH] holds on the stack *)

(** The contents of a file after [write] at an offset; a gap holds zeros. *)
Definition write_at (c : list Z) (off : Z) (l : list Z) : list Z :=
  take (Z.to_nat off) (c ++ replicate (Z.to_nat off) 0) ++ l ++ drop (Z.to_nat off + length l) c.
Definition set_files (p : Process) (h : gmap (list Z) (list Z)) : Process := mkProcess h (inOff p) (outOff p).

(** The system calls; the file of [fdOut] is [None] when it was not opened. *)
Definition host_read (fdIn : list Z) (n : Z) (p : Process) : Z * list Z * Process :=
  if n <? 0 then (-1, [], p)
  else
    let l := take (Z.to_nat n) (drop (Z.to_nat (inOff p)) (default [] (host p !! fdIn))) in
    (Z.of_nat (length l), l, mkProcess (host p) (inOff p + Z.of_nat (length l)) (outOff p)).
Definition host_write (fdOut : option (list Z)) (l : list Z) (n : Z) (p : Process) : Z * Process :=
  match fdOut with
  | Some f =>
      if (n <? 0) || (limit <? outOff p + n) then (-1, p)
      else (n, mkProcess (<[f := write_at (default [] (host p !! f)) (outOff p) l]> (host p)) (inOff p) (outOff p + n))
  | None => (-1, p)
  end.
Definition seek_in (pos : Z) (p : Process) : Process := if pos <? 0 then p else mkProcess (host p) pos (outOff p).
Definition seek_out (pos : Z) (p : Process) : Process := if pos <? 0 then p else mkProcess (host p) (inOff p) pos.

Section process.
Variable fdIn : list Z.
Variable fdOut : option (list Z).

(** [unlink(noffFileName); exit(1)]. *)
Definition fail {A} (m : message) (p : Process) : running A :=
  Exits m (match fdOut with Some f => delete f (host p) | None => host p end).
Definition Read (n : Z) (p : Process) : running (list Z) :=
  let '(r, l, p') := host_read fdIn n p in if negb (r =? n) then fail FileTooShort p' else Runs l p'.
Definition Write (l : list Z) (n : Z) (p : Process) : running unit :=
  let '(r, p') := host_write fdOut l n p in if negb (r =? n) then fail UnableToWrite p' else Runs tt p'.

(** The bytes of a section to the end of the NOFF file. *)
Definition copy_section (s : scnhdr) (p : Process) : running unit :=
  running_bind (Read (s_size s) (seek_in (s_scnptr s) p)) (λ buffer, Write buffer (s_size s)).

(** One round of the loop over the sections. *)
Definition section_step (s : scnhdr) (h : NoffHeader) (inNoffFile : Z) (p : Process) : running (NoffHeader * Z) :=
  if s_size s =? 0 then Runs (h, inNoffFile) p
  else
    let here := mkSegment (s_paddr s) inNoffFile (s_size s) in
    let next := i32 (inNoffFile + s_size s) in
    match kind_of s with
    | Text => running_bind (copy_section s p) (λ _, Runs (set_code h here, next))
    | Data =>
        if negb (segSize (initData h) =? 0) then fail DataAndRdata p
        else running_bind (copy_section s p) (λ _, Runs (set_initData h here, next))
    | Bss =>
        let u := uninitData h in
        if negb (segSize u =? 0) then
          if s_paddr s =? i32 (virtualAddr u + segSize u) then fail BssAndSbss p
          else Runs (set_uninitData h (mkSegment (virtualAddr u) (inFileAddr u) (i32 (segSize u + s_size s))), inNoffFile) p
        else Runs (set_uninitData h (mkSegment (s_paddr s) (inFileAddr u) (s_size s)), inNoffFile) p
    | Unknown => running_bind (copy_section s p) (λ _, fail UnknownSegment)
    end.
Fixpoint copy_sections (l : list scnhdr) (h : NoffHeader) (inNoffFile : Z) (p : Process) : running (NoffHeader * Z) :=
  match l with
  | [] => Runs (h, inNoffFile) p
  | s :: l' => running_bind (section_step s h inNoffFile p) (λ '(h', n), copy_sections l' h' n)
  end.

(** From the magic number of [noffH] to its place at the head of the file. *)
Definition initial_header : NoffHeader :=
  let empty s := mkSegment (virtualAddr s) (inFileAddr s) 0 in
  mkNoffHeader NOFFMAGIC (empty (code junkH)) (empty (initData junkH)) (empty (uninitData junkH)).
Definition convert (sections : list scnhdr) (p : Process) : running unit :=
  running_bind (copy_sections sections initial_header sizeof_NoffHeader (seek_out sizeof_NoffHeader p))
    (λ '(h, _) p1, Write (encode_noff h) sizeof_NoffHeader (seek_out 0 p1)).

(** From the first header to the end. *)
Definition coff_body (p : Process) : running unit :=
  running_bind (Read sizeof_filehdr p) (λ l1 p1,
    let fileh := decode_filehdr l1 in
    if negb (f_magic fileh =? MIPSELMAGIC) then fail NotMipsel p1
    else
      running_bind (Read sizeof_aouthdr p1) (λ l2 p2,
        if negb (magic (decode_aouthdr l2) =? OMAGIC) then fail NotOmagic p2
        else
          let numsections := f_nscns fileh in
          running_bind (Read (numsections * sizeof_scnhdr) p2) (λ l3,
            convert (decode_sections (Z.to_nat numsections) l3)))).
End process.

(** The files of the host at the exit, and the message of [exit(1)]. *)
Definition main (argv : list (list Z)) (files : gmap (list Z) (list Z)) : option message * gmap (list Z) (list Z) :=
  match argv !! 1%nat with
  | None => (Some Usage, files)
  | Some fin =>
      match files !! fin with
      | None => (Some CannotOpen, files)
      | Some _ =>
          let fdOut := f ← argv !! 2%nat; if creat f then Some f else None in
          let opened := match fdOut with Some f => <[f := []]> files | None => files end in
          match coff_body fin fdOut (mkProcess opened 0 0) with
          | Runs _ p => (None, host p)
          | Exits m h => (Some m, h)
          end
      end
  end.
End coff2noff.

(** ** What the conversion of a well-formed file makes *)
Definition coff_sections (F : list Z) : list scnhdr := decode_sections (Z.to_nat (f_nscns (decode_filehdr F))) (drop 76 F).
Definition live (k : kind) (l : list scnhdr) : list scnhdr := filter (λ s, s_size s ≠ 0 ∧ kind_of s = k) l.
Definition stored (s : scnhdr) : bool := match kind_of s with Text | Data => true | _ => false end.
Definition section_bytes (F : list Z) (s : scnhdr) : list Z := take (Z.to_nat (s_size s)) (drop (Z.to_nat (s_scnptr s)) F).
(** The bytes the sections take in the NOFF file. *)
Fixpoint total (l : list scnhdr) : Z :=
  match l with [] => 0 | s :: l' => (if stored s then s_size s else 0) + total l' end.
Record section_ok (F : list Z) (s : scnhdr) : Prop := mkSectionOk {
  so_size : 0 ≤ s_size s < two31;
  so_addr : is_i32 (s_paddr s);
  so_kind : s_size s ≠ 0 → kind_of s ≠ Unknown;
  so_range : stored s = true → 0 ≤ s_scnptr s ∧ s_scnptr s + s_size s ≤ Z.of_nat (length F)
}.
(** A COFF file of known sections inside the file, at most one of them
    initialised and one uninitialised data. *)
Record coff_ok (F : list Z) : Prop := mkCoffOk {
  co_magic : f_magic (decode_filehdr F) = MIPSELMAGIC;
  co_optional : magic (decode_aouthdr (drop 20 F)) = OMAGIC;
  co_length : 76 + f_nscns (decode_filehdr F) * 40 ≤ Z.of_nat (length F);
  co_sections : Forall (section_ok F) (coff_sections F);
  co_data : (length (live Data (coff_sections F)) ≤ 1)%nat;
  co_bss : (length (live Bss (coff_sections F)) ≤ 1)%nat
}.

Lemma total_nonneg F l : Forall (section_ok F) l → 0 ≤ total l.
Proof. induction 1 as [|x l Hx _ IH]; cbn [total]; [done|]. pose proof (so_size _ _ Hx). case_match; lia. Qed.

Lemma live_snoc k l s : live k (l ++ [s]) = live k l ++ (if decide (s_size s ≠ 0 ∧ kind_of s = k) then [s] else []).
Proof. unfold live. rewrite filter_app. by rewrite filter_cons, filter_nil. Qed.
Lemma live_skip k l s : s_size s = 0 ∨ kind_of s ≠ k → live k (l ++ [s]) = live k l.
Proof. intros Hs. rewrite live_snoc, decide_False by (intros []; naive_solver). apply app_nil_r. Qed.
Lemma live_add k l s : s_size s ≠ 0 → kind_of s = k → live k (l ++ [s]) = live k l ++ [s].
Proof. intros. by rewrite live_snoc, decide_True. Qed.

Lemma write_at_end c off l : off = Z.of_nat (length c) → write_at c off l = c ++ l.
Proof.
  intros ->. unfold write_at. rewrite Nat2Z.id, take_app_length. rewrite drop_ge by lia. by rewrite app_nil_r.
Qed.

Lemma write_at_body out l : let n := 40 + Z.of_nat (length (drop 40 out)) in
  out = [] ∨ n = Z.of_nat (length out) →
  drop 40 (write_at out n l) = drop 40 out ++ l ∧ Z.of_nat (length (write_at out n l)) = n + Z.of_nat (length l).
Proof.
  cbv zeta. intros [-> | Hn].
  - unfold write_at. rewrite !drop_nil, !app_nil_r. split; [done|]. rewrite length_app. change (length (take _ _)) with 40%nat. cbn [length]. lia.
  - rewrite write_at_end by done. rewrite length_drop in Hn. rewrite drop_app_le by lia. split; [done|].
    rewrite length_app, length_drop. lia.
Qed.

(** Section [o] is segment [sg] of a file with [body] behind its header. *)
Definition segment_from (F body : list Z) (o : option scnhdr) (sg : Segment) : Prop :=
  match o with
  | Some s => virtualAddr sg = s_paddr s ∧ segSize sg = s_size s ∧
      ∃ pre post, body = pre ++ section_bytes F s ++ post ∧ inFileAddr sg = sizeof_NoffHeader + Z.of_nat (length pre)
  | None => segSize sg = 0
  end.
Lemma segment_from_app F body l o sg : segment_from F body o sg → segment_from F (body ++ l) o sg.
Proof.
  destruct o as [s|]; [|done]. intros (H1 & H2 & pre & post & -> & H3). split; [done|]. split; [done|].
  exists pre, (post ++ l). by rewrite <- !app_assoc.
Qed.
Definition uninit_from (o : option scnhdr) (sg : Segment) : Prop :=
  match o with Some s => virtualAddr sg = s_paddr s ∧ segSize sg = s_size s | None => segSize sg = 0 end.

Definition segment_i32 (s : Segment) : Prop := is_i32 (virtualAddr s) ∧ is_i32 (inFileAddr s) ∧ is_i32 (segSize s).
Definition header_i32 (h : NoffHeader) : Prop :=
  is_i32 (noffMagic h) ∧ segment_i32 (code h) ∧ segment_i32 (initData h) ∧ segment_i32 (uninitData h).

Lemma segment_at_encode pre s r off : length pre = off → segment_i32 s →
  segment_at (pre ++ encode_segment s ++ r) off = Ok s.
Proof.
  intros Hp (H1 & H2 & H3). unfold segment_at, encode_segment. rewrite <- !app_assoc.
  rewrite (int_at_le32 pre _ _ off) by done. cbn [mbind outcome_bind].
  rewrite (app_assoc pre), (int_at_le32 (pre ++ _) (inFileAddr s) _ (off + 4)) by (try done; rewrite length_app, le32_length; lia). cbn [mbind outcome_bind].
  rewrite (app_assoc (pre ++ _)), (int_at_le32 ((pre ++ _) ++ _) (segSize s) _ (off + 8)) by (try done; rewrite !length_app, !le32_length; lia). by destruct s.
Qed.
Lemma encode_noff_bytes h : Forall is_u8 (encode_noff h).
Proof. unfold encode_noff, encode_segment. repeat (apply Forall_app; split); apply le32_bytes. Qed.
Lemma encode_segment_length s : length (encode_segment s) = 12%nat.
Proof. done. Qed.
Lemma decode_encode_noff h : header_i32 h → decode_noff (encode_noff h) = Ok h.
Proof.
  intros (H0 & H1 & H2 & H3). unfold decode_noff, encode_noff.
  rewrite (int_at_le32 [] (noffMagic h) _ 0 eq_refl H0 : int_at (le32 _ ++ _) 0 = _). cbn [mbind outcome_bind].
  rewrite (segment_at_encode (le32 (noffMagic h)) (code h) _ 4 eq_refl H1). cbn [mbind outcome_bind].
  rewrite (app_assoc (le32 _)), (segment_at_encode (le32 (noffMagic h) ++ encode_segment (code h)) (initData h) _ 16 eq_refl H2). cbn [mbind outcome_bind].
  rewrite (app_assoc (le32 _ ++ _)).
  pose proof (segment_at_encode ((le32 (noffMagic h) ++ encode_segment (code h)) ++ encode_segment (initData h)) (uninitData h) [] 28 eq_refl H3) as E.
  rewrite app_nil_r in E. rewrite E. by destruct h.
Qed.

Section loop.
Variable limit : Z.
Variable F : list Z.
Variables fin fout : list Z.
Variable files : gmap (list Z) (list Z).
Hypothesis Hlimit : limit < two31.
Hypothesis Hne : fin ≠ fout.
Hypothesis Hfin : files !! fin = Some F.

(** After the sections [done], which take [n] bytes with the header. *)
Record sofar (done : list scnhdr) (h : NoffHeader) (n : Z) (p : Process) : Prop := mkSofar {
  sf_magic : noffMagic h = NOFFMAGIC;
  sf_i32 : header_i32 h;
  sf_off : outOff p = n;
  sf_out : ∃ out, host p = <[fout := out]> files ∧ n = sizeof_NoffHeader + Z.of_nat (length (drop 40 out)) ∧
    (out = [] ∨ n = Z.of_nat (length out)) ∧ (Forall is_u8 F → Forall is_u8 (drop 40 out)) ∧
    segment_from F (drop 40 out) (last (live Text done)) (code h) ∧
    segment_from F (drop 40 out) (last (live Data done)) (initData h);
  sf_bss : uninit_from (last (live Bss done)) (uninitData h)
}.

Lemma copy_section_ok s p out : section_ok F s → stored s = true → host p = <[fout := out]> files →
  outOff p + s_size s ≤ limit →
  copy_section limit fin (Some fout) s p =
    Runs tt (mkProcess (<[fout := write_at out (outOff p) (section_bytes F s)]> files)
               (s_scnptr s + s_size s) (outOff p + s_size s)) ∧
  length (section_bytes F s) = Z.to_nat (s_size s).
Proof.
  intros [Hs _ _ Hr] Hst Hp Hlim. destruct (Hr Hst) as [H0 H1].
  assert (length (section_bytes F s) = Z.to_nat (s_size s)) as Hl.
  { unfold section_bytes. rewrite length_take, length_drop. lia. }
  split; [|done]. unfold copy_section, Read, host_read, seek_in. rewrite !(proj2 (Z.ltb_ge _ _)) by lia.
  cbn [host inOff outOff]. rewrite Hp, lookup_insert_ne, Hfin by done. cbn [default from_option id].
  change (take (Z.to_nat (s_size s)) (drop (Z.to_nat (s_scnptr s)) F)) with (section_bytes F s).
  rewrite Hl, Z2Nat.id, Z.eqb_refl by lia. cbn [negb running_bind]. unfold Write, host_write. cbn [host inOff outOff].
  rewrite !(proj2 (Z.ltb_ge _ _)) by lia. cbn [orb]. rewrite Z.eqb_refl. cbn [negb].
  rewrite lookup_insert_eq. cbn [default from_option id]. by rewrite insert_insert_eq.
Qed.
Definition room_of (s : scnhdr) : Z := if stored s then s_size s else 0.

(** A section whose bytes go to the end of the file. *)
Lemma copied done h n p s : sofar done h n p → section_ok F s → stored s = true → n + s_size s ≤ limit →
  ∃ p', copy_section limit fin (Some fout) s p = Runs tt p' ∧ i32 (n + s_size s) = n + s_size s ∧ outOff p' = n + s_size s ∧
    ∃ out out', host p = <[fout := out]> files ∧ host p' = <[fout := out']> files ∧
      drop 40 out' = drop 40 out ++ section_bytes F s ∧
      n = sizeof_NoffHeader + Z.of_nat (length (drop 40 out)) ∧ n + s_size s = Z.of_nat (length out') ∧
      n + s_size s = sizeof_NoffHeader + Z.of_nat (length (drop 40 out')).
Proof using All.
  intros [_ _ Hoff (out & Hp & Hn & Hout & _) _] Hs Hst Hlim.
  destruct (copy_section_ok s p out Hs Hst Hp) as [E Hl]; [lia|].
  destruct (write_at_body out (section_bytes F s)) as [Hd Hlen].
  { destruct Hout as [->|Hout]; [by left|right]. unfold sizeof_NoffHeader in Hn. lia. }
  pose proof (so_size _ _ Hs). rewrite E. eexists. split; [done|].
  split; [apply i32_id; unfold is_i32, two31, sizeof_NoffHeader in *; lia|]. split; [cbn; lia|].
  exists out, (write_at out (outOff p) (section_bytes F s)). split; [done|]. split; [done|].
  assert (outOff p = 40 + Z.of_nat (length (drop 40 out))) as -> by (unfold sizeof_NoffHeader in Hn; lia).
  split; [done|]. split; [done|]. unfold sizeof_NoffHeader in *. rewrite Hd, length_app, Hl. lia.
Qed.

Lemma sofar_skip done h n p s : sofar done h n p → s_size s = 0 → sofar (done ++ [s]) h n p.
Proof using All.
  intros [H1 H2 H3 H4 H5] Hs. constructor; try done; [|by rewrite live_skip by (by left)].
  destruct H4 as (out & Hp & Hn & Hout & Hu & Hc & Hd). exists out. rewrite !live_skip by (by left). done.
Qed.

Lemma new_segment_from body s n : n = sizeof_NoffHeader + Z.of_nat (length body) →
  segment_from F (body ++ section_bytes F s) (Some s) (mkSegment (s_paddr s) n (s_size s)).
Proof using All. intros ->. split; [done|]. split; [done|]. exists body, []. by rewrite app_nil_r. Qed.

Lemma app_bytes body s : (Forall is_u8 F → Forall is_u8 body) → Forall is_u8 F → Forall is_u8 (body ++ section_bytes F s).
Proof using All. intros Hb HF. apply Forall_app. split; [by apply Hb|]. by apply Forall_take, Forall_drop. Qed.

Lemma same_out (o o' : list Z) : <[fout := o]> files = <[fout := o']> files → o = o'.
Proof using All. intros E. apply (f_equal (lookup fout)) in E. rewrite !lookup_insert_eq in E. congruence. Qed.

Lemma section_step_ok done h n p s : sofar done h n p → section_ok F s → n + room_of s ≤ limit →
  (s_size s ≠ 0 → kind_of s = Data → live Data done = []) → (s_size s ≠ 0 → kind_of s = Bss → live Bss done = []) →
  ∃ h' p', section_step limit fin (Some fout) s h n p = Runs (h', n + room_of s) p' ∧
    sofar (done ++ [s]) h' (n + room_of s) p'.
Proof using All.
  intros Hsf Hs Hlim Hdata Hbss. unfold section_step. destruct (Z.eqb_spec (s_size s) 0) as [H0|H0].
  { exists h, p. assert (n + room_of s = n) as -> by (unfold room_of; case_match; lia).
    split; [done|]. by apply sofar_skip. }
  pose proof (so_kind _ _ Hs H0) as Hk. pose proof (so_size _ _ Hs) as Hsz. pose proof (so_addr _ _ Hs) as Ha.
  assert (is_i32 (s_size s)) as Hsi by (unfold is_i32, two31 in *; lia).
  pose proof Hsf as [H1 (I0 & I1 & I2 & I3) _ (o & Hp2 & _ & _ & Hu & Hc & Hi) H5].
  destruct (stored s) eqn:Est.
  - assert (room_of s = s_size s) as Er by (unfold room_of; by rewrite Est). rewrite Er in *.
    destruct (copied done h n p s Hsf Hs Est Hlim) as (p' & -> & -> & Hoff & out & out' & Hp & Hp' & Hd & Hn & Hl & Hl').
    assert (o = out) as -> by (apply same_out; congruence).
    assert (segment_i32 (mkSegment (s_paddr s) n (s_size s))) as Hseg.
    { split_and!; [done| |done]. unfold is_i32, two31, sizeof_NoffHeader in *. cbn. lia. }
    cbn [running_bind]. unfold stored in Est. destruct (kind_of s) eqn:Ek; [| |done..].
    + eexists (set_code h _), p'. split; [done|]. constructor; [done..| |by rewrite live_skip by (right; congruence)].
      exists out'. rewrite live_add, last_snoc, live_skip, Hd by (done || (right; congruence)).
      split_and!; try done; [rewrite <- Hd; done|by right|by apply app_bytes|by apply new_segment_from|by apply segment_from_app].
    + rewrite (Hdata H0 eq_refl) in Hi. cbn in Hi. rewrite Hi. cbn [negb Z.eqb].
      eexists (set_initData h _), p'. split; [done|]. constructor; [done..| |by rewrite live_skip by (right; congruence)].
      exists out'. rewrite (live_add Data), last_snoc, live_skip, Hd by (done || (right; congruence)).
      split_and!; try done; [rewrite <- Hd; done|by right|by apply app_bytes|by apply segment_from_app|by apply new_segment_from].
  - assert (n + room_of s = n) as -> by (unfold room_of; rewrite Est; lia).
    unfold stored in Est. destruct (kind_of s) eqn:Ek; try done.
    rewrite (Hbss H0 eq_refl) in H5. cbn in H5. rewrite H5. cbn [negb Z.eqb].
    eexists (set_uninitData h _), p. split; [done|]. destruct Hsf as [_ _ H3 H4 _]. constructor; try done.
    + do 3 (split; [done|]). split; [exact Ha|]. split; [apply I3|exact Hsi].
    + destruct H4 as (o' & Hp' & Hn & Hout & Hu' & Hc' & Hi'). exists o'. by rewrite !live_skip by (right; congruence).
    + by rewrite live_add, last_snoc by done.
Qed.

Lemma copy_sections_ok l done h n p : sofar done h n p → Forall (section_ok F) l → n + total l ≤ limit →
  (length (live Data (done ++ l)) ≤ 1)%nat → (length (live Bss (done ++ l)) ≤ 1)%nat →
  ∃ h' p', copy_sections limit fin (Some fout) l h n p = Runs (h', n + total l) p' ∧ sofar (done ++ l) h' (n + total l) p'.
Proof using All.
  revert done h n p. induction l as [|s l IH]; intros done h n p Hsf Hok Hlim Hd Hb.
  { exists h, p. cbn [total]. rewrite app_nil_r, Z.add_0_r. done. }
  inversion Hok as [|? ? Hs Hl]; subst. cbn [copy_sections total] in *.
  pose proof (total_nonneg F l Hl). fold (room_of s) in *.
  assert (∀ k, (length (live k (done ++ s :: l)) ≤ 1)%nat → s_size s ≠ 0 → kind_of s = k → live k done = []) as Hone.
  { intros k Hk H0 Ek. rewrite cons_middle, app_assoc in Hk. unfold live in Hk. rewrite filter_app, length_app in Hk.
    fold (live k (done ++ [s])) in Hk. rewrite live_add, length_app in Hk by done. cbn in Hk.
    apply nil_length_inv. unfold live in *. lia. }
  destruct (section_step_ok done h n p s Hsf Hs) as (h1 & p1 & -> & Hsf1); [lia|by apply Hone..|].
  cbn [running_bind]. destruct (IH (done ++ [s]) h1 (n + room_of s) p1 Hsf1 Hl) as (h2 & p2 & -> & Hsf2);
    rewrite <- ?app_assoc in *; cbn [app] in *; [lia|done|done|].
  rewrite <- Z.add_assoc in *. by exists h2, p2.
Qed.
End loop.

Lemma byte_at_take l n k : (k < n)%nat → byte_at (take n l) k = byte_at l k.
Proof. intros Hk. unfold byte_at. by rewrite !nth_lookup, lookup_take_lt. Qed.
Lemma decode_filehdr_take l : decode_filehdr (take 20 l) = decode_filehdr l.
Proof. unfold decode_filehdr, ushort_at, long_at. by rewrite !byte_at_take by lia. Qed.
Lemma decode_aouthdr_take l : decode_aouthdr (take 56 l) = decode_aouthdr l.
Proof. unfold decode_aouthdr, short_at, ushort_at, long_at. by rewrite !byte_at_take by lia. Qed.
Lemma decode_scnhdr_take n l : (40 ≤ n)%nat → decode_scnhdr (take n l) = decode_scnhdr l.
Proof. intros Hn. unfold decode_scnhdr, ushort_at, long_at. cbn [seq fmap list_fmap]. by rewrite !byte_at_take by lia. Qed.
Lemma decode_sections_take n l : decode_sections n (take (n * 40) l) = decode_sections n l.
Proof.
  revert l. induction n as [|n IH]; intros l; [done|]. cbn [decode_sections]. f_equal; [by apply decode_scnhdr_take; lia|].
  change (Z.to_nat sizeof_scnhdr) with 40%nat. rewrite skipn_firstn_comm. replace (S n * 40 - 40)%nat with (n * 40)%nat by lia. apply IH.
Qed.

Lemma Read_ok fin fdOut p F n : host p !! fin = Some F → 0 ≤ n → 0 ≤ inOff p → inOff p + n ≤ Z.of_nat (length F) →
  Read fin fdOut n p = Runs (take (Z.to_nat n) (drop (Z.to_nat (inOff p)) F)) (mkProcess (host p) (inOff p + n) (outOff p)).
Proof.
  intros Hp Hn H0 Hl. unfold Read, host_read. rewrite (proj2 (Z.ltb_ge _ _)) by done. rewrite Hp. cbn [default from_option id].
  assert (length (take (Z.to_nat n) (drop (Z.to_nat (inOff p)) F)) = Z.to_nat n) as -> by (rewrite length_take, length_drop; lia).
  by rewrite Z2Nat.id, Z.eqb_refl by done.
Qed.

(** Section [o] of [F] is segment [sg] of the NOFF file [out]. *)
Definition holds_section (F out : list Z) (o : option scnhdr) (sg : Segment) : Prop :=
  match o with
  | Some s => virtualAddr sg = s_paddr s ∧ segSize sg = s_size s ∧ 0 ≤ inFileAddr sg ∧
      inFileAddr sg + segSize sg ≤ Z.of_nat (length out) ∧ segment_bytes out sg = section_bytes F s
  | None => segSize sg = 0
  end.
Lemma segment_holds F hd body o sg : length hd = 40%nat → segment_from F body o sg →
  (∀ s, o = Some s → 0 < s_size s ∧ 0 ≤ s_scnptr s ∧ s_scnptr s + s_size s ≤ Z.of_nat (length F)) →
  holds_section F (hd ++ body) o sg.
Proof.
  intros Hhd Hs Ho. destruct o as [s|]; [|done]. destruct (Ho s eq_refl) as (Hp & H1 & H2).
  destruct Hs as (Hv & Hsz & pre & post & -> & Ha). unfold sizeof_NoffHeader in *.
  assert (length (section_bytes F s) = Z.to_nat (s_size s)) as Hl by (unfold section_bytes; rewrite length_take, length_drop; lia).
  split; [done|]. split; [done|]. split; [lia|]. split; [rewrite !length_app; lia|].
  unfold segment_bytes. rewrite (proj2 (Z.ltb_lt _ _)) by lia. rewrite Hsz, Ha, (app_assoc hd).
  rewrite drop_app_length' by (rewrite length_app; lia). by rewrite take_app_length'.
Qed.

Lemma last_live k l s : last (live k l) = Some s → s ∈ l ∧ s_size s ≠ 0 ∧ kind_of s = k.
Proof.
  intros Hl. apply last_Some in Hl as (l' & E). assert (s ∈ live k l) as Hin by (rewrite E; set_solver).
  unfold live in Hin. apply list_elem_of_filter in Hin as [[? ?] ?]. done.
Qed.

Section conversion.
Variable limit : Z.
Variable creat : list Z → bool.
Variable junkH : NoffHeader.
Hypothesis Hlimit : limit < two31.
Hypothesis junk_i32 : header_i32 junkH.

Lemma initial_sofar F fout files p : host p = <[fout := []]> files → outOff p = sizeof_NoffHeader →
  sofar F fout files [] (initial_header junkH) sizeof_NoffHeader p.
Proof using junk_i32.
  destruct junk_i32 as (_ & (C1 & C2 & _) & (D1 & D2 & _) & (U1 & U2 & _)). intros Hp Ho.
  constructor; try done. exists []. split_and!; try done. by left.
Qed.

Lemma convert_ok F fin fout files p : fin ≠ fout → files !! fin = Some F → host p = <[fout := []]> files →
  coff_ok F → sizeof_NoffHeader + total (coff_sections F) ≤ limit → 
  ∃ h body p', convert limit junkH fin (Some fout) (coff_sections F) p = Runs tt p' ∧
    host p' = <[fout := encode_noff h ++ body]> files ∧ noffMagic h = NOFFMAGIC ∧ header_i32 h ∧
    segment_from F body (last (live Text (coff_sections F))) (code h) ∧
    segment_from F body (last (live Data (coff_sections F))) (initData h) ∧
    uninit_from (last (live Bss (coff_sections F))) (uninitData h) ∧ (Forall is_u8 F → Forall is_u8 body) ∧ Z.of_nat (length body) = total (coff_sections F).
Proof using Hlimit junk_i32.
  intros Hne Hfin Hp [_ _ _ Hok Hd Hb] Hlim. unfold convert. change (seek_out sizeof_NoffHeader p) with (mkProcess (host p) (inOff p) sizeof_NoffHeader).
  destruct (copy_sections_ok limit F fin fout files Hlimit Hne Hfin (coff_sections F) [] (initial_header junkH) sizeof_NoffHeader
    (mkProcess (host p) (inOff p) sizeof_NoffHeader)) as (h & p1 & -> & [H1 H2 H3 (out & Hp1 & Hn & Hout & Hu & Hc & Hi) H5]); try done.
  { by apply (initial_sofar F). }
  cbn [running_bind app]. unfold Write, host_write, seek_out. cbn [host inOff outOff].
  change (0 <? 0) with false. cbn [host outOff inOff].
  assert (sizeof_NoffHeader ≤ limit) as Hl by (pose proof (total_nonneg F _ Hok); lia).
  change (sizeof_NoffHeader <? 0) with false. rewrite (proj2 (Z.ltb_ge _ _)) by lia. cbn [orb]. rewrite Z.eqb_refl. cbn [negb].
  exists h, (drop 40 out). eexists. split; [done|]. cbn [host]. rewrite Hp1, lookup_insert_eq, insert_insert_eq. split_and!; try done. lia.
Qed.
End conversion.

(** The three headers are read; what is left is [convert]. *)
Lemma coff_body_ok limit junkH F fin fdOut p : host p !! fin = Some F → inOff p = 0 → coff_ok F →
  coff_body limit junkH fin fdOut p = convert limit junkH fin fdOut (coff_sections F)
    (mkProcess (host p) (76 + f_nscns (decode_filehdr F) * 40) (outOff p)).
Proof.
  intros Hp H0 [Hm1 Hm2 Hlen _ _ _]. assert (0 ≤ f_nscns (decode_filehdr F)) as Hn by (cbn; unfold ushort_at, byte_at, u8; zcases).
  unfold coff_body. rewrite (Read_ok _ _ _ F) by (done || (rewrite ?H0; unfold sizeof_filehdr; lia)).
  cbn [running_bind]. rewrite H0. change (take _ (drop (Z.to_nat 0) F)) with (take 20 F).
  rewrite decode_filehdr_take, Hm1, Z.eqb_refl. cbn [negb]. change (0 + sizeof_filehdr) with 20.
  rewrite (Read_ok _ _ _ F) by (done || (cbn [inOff]; unfold sizeof_aouthdr; lia)).
  cbn [running_bind inOff outOff host]. change (take _ (drop (Z.to_nat 20) F)) with (take 56 (drop 20 F)).
  rewrite decode_aouthdr_take, Hm2, Z.eqb_refl. cbn [negb]. change (20 + sizeof_aouthdr) with 76.
  rewrite (Read_ok _ _ _ F) by (done || (cbn [inOff]; unfold sizeof_scnhdr; lia)).
  cbn [running_bind inOff outOff host]. unfold sizeof_scnhdr. rewrite Z2Nat.inj_mul by lia.
  change (Z.to_nat 76) with 76%nat. change (Z.to_nat 40) with 40%nat. by rewrite decode_sections_take.
Qed.

(** A section held in the pages is a segment the loader accepts. *)
Lemma holds_segment_ok F out n k secs sg : holds_section F out (last (live k secs)) sg → k = Text ∨ k = Data →
  Forall (λ s, stored s = true → 0 ≤ s_paddr s ∧ s_paddr s + s_size s ≤ n * PageSize) secs → segment_ok out n sg.
Proof.
  intros Hh Hk Hfit Hpos. destruct (last (live k secs)) as [s|] eqn:Es; [|cbn in Hh; lia].
  destruct Hh as (Ev & Esz & ? & ? & _). destruct (last_live k secs s Es) as (Hin & _ & Ek).
  rewrite Ev, Esz in *. assert (stored s = true) as Hst by (unfold stored; rewrite Ek; by destruct Hk as [-> | ->]).
  pose proof (proj1 (Forall_forall _ _) Hfit s Hin Hst). cbn beta in *. tauto.
Qed.

Lemma convert_holds F hd body k secs sg : Forall (section_ok F) secs → k = Text ∨ k = Data → length hd = 40%nat →
  segment_from F body (last (live k secs)) sg → holds_section F (hd ++ body) (last (live k secs)) sg.
Proof.
  intros Hsecs Hk Hhd Hs. apply segment_holds; [done..|]. intros s Es. destruct (last_live k secs s Es) as (Hin & H0 & Ek).
  pose proof (proj1 (Forall_forall _ _) Hsecs s Hin) as [? _ _ Hr]. split; [lia|]. apply Hr. unfold stored. rewrite Ek. by destruct Hk as [-> | ->].
Qed.

(** The converter keeps the program.  From a COFF file of known sections that
    lie in the file, at most one of them initialised and at most one
    uninitialised data, [coff2noff in out] exits normally and has written one
    file, [out], whose header tells the loader where the bytes of each section
    are and where they go; when the sections fit the pages this header asks for,
    [out] is a NOFF file the loader accepts. *)
Lemma coff_converts limit creat junkH F prog fin fout files : limit < two31 → header_i32 junkH →
  coff_ok F → files !! fin = Some F → fin ≠ fout → creat fout = true → sizeof_NoffHeader + total (coff_sections F) ≤ limit →
  let secs := coff_sections F in
  ∃ h out, main limit creat junkH [prog; fin; fout] files = (None, <[fout := out]> files) ∧
    decode_noff (take (Z.to_nat sizeof_NoffHeader) out) = Ok h ∧
    holds_section F out (last (live Text secs)) (code h) ∧
    holds_section F out (last (live Data secs)) (initData h) ∧
    uninit_from (last (live Bss secs)) (uninitData h) ∧ (Forall is_u8 F → Forall is_u8 out) ∧ Z.of_nat (length out) = sizeof_NoffHeader + total secs ∧
    (Forall (λ s, stored s = true → 0 ≤ s_paddr s ∧ s_paddr s + s_size s ≤ noff_pages h * PageSize) secs → noff_ok out h).
Proof.
  intros Hlimit Hj Hok Hfin Hne Hcr Hlim secs. pose proof (co_sections _ Hok) as Hsecs. fold secs in Hsecs.
  set (p := mkProcess (<[fout := []]> files) 0 0).
  assert (host p !! fin = Some F) as Hp by (cbn; by rewrite lookup_insert_ne).
  pose proof (coff_body_ok limit junkH F fin (Some fout) p Hp eq_refl Hok) as Eb.
  destruct (convert_ok limit junkH Hlimit Hj F fin fout files
    (mkProcess (host p) (76 + f_nscns (decode_filehdr F) * 40) (outOff p)) Hne Hfin eq_refl Hok Hlim)
    as (h & body & p' & E & Hp' & Hmg & Hi & Hc & Hd & Hu & Hb & Hl). rewrite E in Eb. fold secs in Hc, Hd, Hu.
  exists h, (encode_noff h ++ body).
  pose proof (convert_holds F (encode_noff h) body Text secs (code h) Hsecs (or_introl eq_refl) eq_refl Hc) as Hcode.
  pose proof (convert_holds F (encode_noff h) body Data secs (initData h) Hsecs (or_intror eq_refl) eq_refl Hd) as Hdata.
  assert (decode_noff (take (Z.to_nat sizeof_NoffHeader) (encode_noff h ++ body)) = Ok h) as Hdec.
  { rewrite take_app_length' by done. by apply decode_encode_noff. }
  split.
  - unfold main. cbn [lookup list_lookup]. rewrite Hfin. cbn [mbind option_bind]. rewrite Hcr. fold p. by rewrite Eb, Hp'.
  - do 4 (split; [done|]). split; [intros HF; apply Forall_app; split; [apply encode_noff_bytes|by apply Hb]|].
    split; [rewrite length_app, Nat2Z.inj_add, Hl; reflexivity|]. intros Hfit. constructor; [|done|done| |].
    + rewrite length_app. unfold sizeof_NoffHeader. change (length (encode_noff h)) with 40%nat. lia.
    + by apply (holds_segment_ok F _ _ Text secs); [|left|].
    + by apply (holds_segment_ok F _ _ Data secs); [|right|].
Qed.

(** ** A program of eight bytes of code and four of data *)
Definition le16 (z : Z) : list Z := [u8 z; u8 (z / 256)].
Definition encode_name (s : string) : list Z := take 8 (bytes_of s ++ replicate 8 0).
Definition encode_scnhdr (s : string) (paddr size scnptr : Z) : list Z :=
  encode_name s ++ le32 paddr ++ le32 paddr ++ le32 size ++ le32 scnptr ++ le32 0 ++ le32 0 ++ le16 0 ++ le16 0 ++ le32 0.
Definition encode_coff (n : Z) (sections : list Z) : list Z :=
  le16 MIPSELMAGIC ++ le16 n ++ replicate 16 0 ++ le16 OMAGIC ++ replicate 54 0 ++ sections.
Definition demo_coff : list Z :=
  encode_coff 3 (encode_scnhdr ".text"%string 0 8 196 ++ encode_scnhdr ".data"%string 128 4 204 ++ encode_scnhdr ".bss"%string 132 16 0) ++
  [1; 2; 3; 4; 5; 6; 7; 8; 21; 22; 23; 24].
Definition demo_noff_header : NoffHeader :=
  mkNoffHeader NOFFMAGIC (mkSegment 0 40 8) (mkSegment 128 48 4) (mkSegment 132 9 16).

Lemma demo_coff_ok : coff_ok demo_coff.
Proof.
  constructor; [reflexivity..|by vm_compute| |simpl; lia|simpl; lia].
  let l := eval vm_compute in (coff_sections demo_coff) in change (coff_sections demo_coff) with l.
  repeat (apply Forall_cons; split; [constructor; by vm_compute|]). done.
Qed.

Lemma coff_converts_witness : ∃ h out files, files !! [97] = Some demo_coff ∧
  main 1000 (λ _, true) (mkNoffHeader 1 (mkSegment 9 9 9) (mkSegment 9 9 9) (mkSegment 9 9 9)) [[99]; [97]; [98]] files =
    (None, <[[98] := out]> files) ∧ decode_noff (take 40 out) = Ok h ∧ uninit_from (last (live Bss (coff_sections demo_coff))) (uninitData h).
Proof.
  destruct (coff_converts 1000 (λ _, true) (mkNoffHeader 1 (mkSegment 9 9 9) (mkSegment 9 9 9) (mkSegment 9 9 9))
    demo_coff [99] [97] [98] {[ [97] := demo_coff ]}) as (h & out & E & Eh & _ & _ & Hu & _).
  - reflexivity.
  - by vm_compute.
  - exact demo_coff_ok.
  - by vm_compute.
  - done.
  - done.
  - by vm_compute.
  - exists h, out, {[ [97] := demo_coff ]}. split; [by vm_compute|]. split; [exact E|]. split; [exact Eh|exact Hu].
Defined.

(** The check that .bss and .sbss are contiguous refuses just the files where
    they are, and takes those with a hole between them. *)
Definition two_bss (second : Z) : list Z :=
  encode_coff 2 (encode_scnhdr ".bss"%string 128 16 0 ++ encode_scnhdr ".sbss"%string second 8 0).
Definition run_coff (F : list Z) : option message * option (list Z) :=
  let '(m, files) := main 1000 (λ _, true) demo_noff_header [[99]; [97]; [98]] {[ [97] := F ]} in (m, files !! [98]).
Lemma contiguous_bss_refused :
  run_coff (two_bss 144) = (Some BssAndSbss, None) ∧
  ∃ out h, run_coff (two_bss 1000) = (None, Some out) ∧ decode_noff out = Ok h ∧
    virtualAddr (uninitData h) = 128 ∧ segSize (uninitData h) = 24.
Proof. split; [by vm_compute|]. eexists _, _. split; [by vm_compute|]. split; [by vm_compute|]. by split. Qed.

(** One argument passes the test of [argc]; the missing name is found out when
    the header is written. *)
Lemma one_argument : main 1000 (λ _, true) demo_noff_header [[99]; [97]] {[ [97] := demo_coff ]} = (Some UnableToWrite, {[ [97] := demo_coff ]}).
Proof. by vm_compute. Qed.
(** The same name twice: the input is truncated before it is read, and removed. *)
Lemma same_name_destroys : main 1000 (λ _, true) demo_noff_header [[99]; [97]; [97]] {[ [97] := demo_coff ]} = (Some FileTooShort, ∅).
Proof. by vm_compute. Qed.
