(* ===== verification/Toolchain.v ===== *)
(** * From the compiler's output to the memory of a process

    What bin/coff2noff.c, [Copy] (filesys/fstest.cc) and the constructor
    [AddrSpace::AddrSpace] (userprog/addrspace.cc) do together: the sections of a
    COFF file become the memory of the process that runs it. *)
From stdpp Require Import strings.
From S2P Require Import Prelude BitMap Memory Frames AddrSpace ThreadData Disk FileHdr FileGrow Directory FileSys FileSysInv FileSysOps FileSysUse FileSysRW Network FileHandler FsTest Loader Coff.
Open Scope Z_scope.

Definition size_of (o : option scnhdr) : Z := match o with Some s => s_size s | None => 0 end.
Definition the_section (k : kind) (F : list Z) : option scnhdr := last (live k (coff_sections F)).
(** The pages of the program, with its stacks. *)
Definition coff_pages (F : list Z) : Z :=
  divRoundUp (u32 (i32 (size_of (the_section Text F) + size_of (the_section Data F) + size_of (the_section Bss F) + UserStackSize))) PageSize.
Definition covers (s : scnhdr) (x : Z) : Prop := s_paddr s ≤ x < s_paddr s + s_size s.

(** An executable: one section of each kind at most, inside its pages and apart. *)
Record linked (F : list Z) : Prop := mkLinked {
  lk_ok : coff_ok F;
  lk_bytes : Forall is_u8 F;
  lk_text : (length (live Text (coff_sections F)) ≤ 1)%nat;
  lk_fit : Forall (λ s, stored s = true → 0 ≤ s_paddr s ∧ s_paddr s + s_size s ≤ coff_pages F * PageSize) (coff_sections F);
  lk_apart a b x : a ∈ live Text (coff_sections F) → b ∈ live Data (coff_sections F) → covers a x → ¬ covers b x
}.

Lemma in_singleton {A} (l : list A) x : (length l ≤ 1)%nat → x ∈ l → last l = Some x.
Proof. destruct l as [|a [|b l]]; cbn; intros Hl Hx; [by apply not_elem_of_nil in Hx|by apply list_elem_of_singleton in Hx as ->|lia]. Qed.

Lemma stored_live F s x : s ∈ coff_sections F → stored s = true → covers s x → s ∈ live Text (coff_sections F) ∨ s ∈ live Data (coff_sections F).
Proof.
  unfold stored, covers. intros Hs Hst Hx. assert (s_size s ≠ 0) by lia.
  destruct (kind_of s) eqn:E; try done; [left|right]; apply list_elem_of_filter; by split_and!.
Qed.

Lemma segment_byte F out o sg x : holds_section F out o sg →
  (match o with Some s => 0 ≤ s_size s ∧ 0 ≤ s_scnptr s ∧ s_scnptr s + s_size s ≤ Z.of_nat (length F) | None => True end) →
  let bytes := segment_bytes out sg in
  (virtualAddr sg ≤ x < virtualAddr sg + Z.of_nat (length bytes) ↔ ∃ s, o = Some s ∧ covers s x) ∧
  ∀ s, o = Some s → covers s x → nth (Z.to_nat (x - virtualAddr sg)) bytes 0 = nth (Z.to_nat (s_scnptr s + (x - s_paddr s))) F 0.
Proof.
  intros Hh Hr bytes. destruct o as [s|].
  - destruct Hh as (Ev & Esz & _ & _ & Eb). unfold bytes. rewrite Eb, Ev.
    assert (length (section_bytes F s) = Z.to_nat (s_size s)) as Hl by (unfold section_bytes; rewrite length_take, length_drop; lia).
    rewrite Hl, Z2Nat.id by lia. split; [unfold covers; naive_solver|]. intros s' [= <-] Hx. unfold covers in Hx.
    rewrite !nth_lookup. unfold section_bytes. rewrite lookup_take_lt, lookup_drop by lia. do 2 f_equal. lia.
  - unfold bytes, segment_bytes. rewrite (proj2 (Z.ltb_ge 0 (segSize sg))) by (cbn in Hh; lia). cbn. split; [|naive_solver].
    split; [lia|naive_solver].
Qed.

(** The image of the NOFF file in terms of the COFF file. *)
Lemma image_sections F out h x : linked F →
  holds_section F out (the_section Text F) (code h) → holds_section F out (the_section Data F) (initData h) →
  (∀ s, s ∈ coff_sections F → stored s = true → covers s x → image out h x = nth (Z.to_nat (s_scnptr s + (x - s_paddr s))) F 0) ∧
  ((∀ s, s ∈ coff_sections F → stored s = true → ¬ covers s x) → image out h x = 0).
Proof.
  intros [Hok Hb Htx _ Hap] Hc Hd. pose proof (co_sections _ Hok) as Hsecs.
  assert (∀ k, (k = Text ∨ k = Data) → match the_section k F with Some s => (0 ≤ s_size s ∧ 0 ≤ s_scnptr s ∧ s_scnptr s + s_size s ≤ Z.of_nat (length F)) ∧
    s ∈ coff_sections F ∧ stored s = true | None => True end) as Hr.
  { intros k Hk. unfold the_section. destruct (last _) as [s|] eqn:Es; [|done]. destruct (last_live _ _ _ Es) as (Hin & _ & Ek).
    assert (stored s = true) as Hst by (unfold stored; rewrite Ek; by destruct Hk as [-> | ->]).
    pose proof (proj1 (Forall_forall _ _) Hsecs s Hin) as [? _ _ Hrng]. specialize (Hrng Hst). split; [lia|done]. }
  pose proof (Hr Text (or_introl eq_refl)) as Hrt. pose proof (Hr Data (or_intror eq_refl)) as Hrd. clear Hr.
  destruct (segment_byte F out _ _ x Hc) as [Et Nt]; [by destruct (the_section Text F); [apply Hrt|]|].
  destruct (segment_byte F out _ _ x Hd) as [Ed Nd]; [by destruct (the_section Data F); [apply Hrd|]|].
  assert (∀ n, u8 (nth n F 0) = nth n F 0) as Hu8.
  { intros n. apply u8_id. rewrite nth_lookup. destruct (F !! n) as [c|] eqn:En; [by apply (Forall_lookup_1 _ _ _ _ Hb En)|by vm_compute]. }
  unfold image. split.
  - intros s Hs Hst Hx. destruct (stored_live F s x Hs Hst Hx) as [Hin|Hin].
    + pose proof (in_singleton _ s Htx Hin) as Hl. fold (the_section Text F) in Hl.
      assert (¬ ∃ s', the_section Data F = Some s' ∧ covers s' x) as Hnd.
      { intros (s' & Hl' & Hx'). apply (Hap s s' x Hin); [|done|done]. apply last_Some in Hl' as (l' & E). rewrite E. set_solver. }
      rewrite decide_False by (by rewrite Ed). rewrite decide_True by (rewrite Et; by exists s). rewrite (Nt s Hl Hx).
      apply Hu8.
    + pose proof (in_singleton _ s (co_data _ Hok) Hin) as Hl. fold (the_section Data F) in Hl.
      rewrite decide_True by (rewrite Ed; by exists s). rewrite (Nd s Hl Hx). apply Hu8.
  - intros Hno. rewrite !decide_False; [done| |].
    + rewrite Et. intros (s & Hs & Hx). rewrite Hs in Hrt. apply (Hno s); [apply Hrt|apply Hrt|done].
    + rewrite Ed. intros (s & Hs & Hx). rewrite Hs in Hrd. apply (Hno s); [apply Hrd|apply Hrd|done].
Qed.

(** The header asks for the pages of the sections. *)
Lemma noff_pages_coff F out h : holds_section F out (the_section Text F) (code h) →
  holds_section F out (the_section Data F) (initData h) → uninit_from (the_section Bss F) (uninitData h) →
  noff_pages h = coff_pages F.
Proof.
  intros Hc Hd Hu. unfold noff_pages, coff_pages. do 4 f_equal. f_equal; [f_equal|].
  - destruct (the_section Text F); cbn in *; tauto.
  - destruct (the_section Data F); cbn in *; tauto.
  - destruct (the_section Bss F); cbn in *; tauto.
Qed.

(** C17: A compiled program reaches memory.  The COFF file of a linked program is
    converted, the result copied from UNIX into the file system under a new name,
    opened there and loaded, on a machine with room for it: every step succeeds,
    and in the new process, which has the pages of the sections and the stacks,
    each byte of a code or data section is the byte of the COFF file and every
    other byte, those of .bss among them, is zero.  No byte of another process
    changes; afterwards the file system is well formed, holds the new file with
    the bytes of the converted program under the new name of the directory, and
    every other data file has the bytes it had. *)
Theorem program_delivered {D : Type} `{SectorStore D} (limit : Z) (creat : list Z → bool) (junkH : NoffHeader) (F prog fin fout : list Z) (unix : gmap (list Z) (list Z))
    (junk : list Z) (junkB fill : nat → Z) (junkE : nat → DirectoryEntry) (fuel : nat) (tid : Z) (fs : FileSystem D) (A : astate) (t : Directory) (nm : list Z)
    (junkM : nat → Z) (v : VM) :
  limit < two31 → header_i32 junkH → linked F → unix !! fin = Some F → fin ≠ fout → creat fout = true →
  sizeof_NoffHeader + total (coff_sections F) ≤ limit →
  (∀ k, is_u8 (fill k)) → length junk = 29%nat ∧ Forall is_i32 junk →
  storable fs A t nm (sizeof_NoffHeader + total (coff_sections F)) →
  vm_wf v → pids_wf v → free_set (pidMap v) ≠ ∅ → tlb (vm_machine v) = None →
  0 ≤ coff_pages F ≤ Z.of_nat (size (fp_free (vm_frames v))) →
  ∃ out fs1 exe fs2 self v' d' s,
    main limit creat junkH [prog; fin; fout] unix = (None, <[fout := out]> unix) ∧
    Copy junk junkB fill junkE (S (S fuel)) tid (<[fout := out]> unix) fout nm fs = Ok (None, fs1) ∧
    FileSystem_Open junkE (S (S fuel)) tid fs1 nm = Ok (Some exe, fs2) ∧
    AddrSpace_load (S (S fuel)) junkM tid exe v (fdisk fs2) = Ok (self, v', d') ∧
    spaces v !! self = None ∧ spaces v' !! self = Some s ∧ numPages s = coff_pages F ∧
    (∀ x, 0 ≤ x < coff_pages F * PageSize → ∃ pa, space_map v' self true x pa ∧
       (∀ sec, sec ∈ coff_sections F → stored sec = true → covers sec x →
          mem_byte (vm_machine v') pa = nth (Z.to_nat (s_scnptr sec + (x - s_paddr sec))) F 0) ∧
       ((∀ sec, sec ∈ coff_sections F → stored sec = true → ¬ covers sec x) → mem_byte (vm_machine v') pa = 0)) ∧
    others_untouched v v' self ∧
    ∃ A' sct x, new_file fs A t nm (with_disk fs2 d') A' sct x out.
Proof.
  intros Hlim Hj Hl Hfin Hne Hcr Htot Hfill Hjunk Hst Hwf Hp Hpid Htlb Hn. pose proof Hl as [Hok HF _ Hfit _].
  destruct (coff_converts limit creat junkH F prog fin fout unix Hlim Hj Hok Hfin Hne Hcr Htot)
    as (h & out & Em & _ & Hc & Hd & Hu & Hb & Hlen & Hnoff). fold (the_section Text F) (the_section Data F) (the_section Bss F) in Hc, Hd, Hu.
  pose proof (noff_pages_coff F out h Hc Hd Hu) as Epg. rewrite Epg in Hnoff. specialize (Hnoff Hfit). rewrite <- Hlen in Hst.
  destruct (Copy_stores junk junkB fill junkE Hfill Hjunk fuel tid (<[fout := out]> unix) fout nm fs A t out (lookup_insert_eq _ _ _) (Hb HF) Hst)
    as (fs1 & A' & t' & s & x & Ec & Hnew & Ht & Hcl & _).
  pose proof (nf_bytes _ _ _ _ _ _ _ _ _ Hnew) as Ebytes.
  destruct (Open_ok junkE fuel tid fs1 A' t' nm s x (nf_wf _ _ _ _ _ _ _ _ _ Hnew) Ht Hcl) as (fs2 & Eo & d2 & -> & Hw2 & Hc2).
  destruct (disk_file _ _ _ _ (fw_disk _ _ Hw2) (proj1 (proj2 Hcl))) as (_ & _ & Hf2 & _). cbn [fdisk with_disk] in Hf2.
  assert (file_bytes d2 (fhdr x) (fsecs x) = out) as EF.
  { rewrite <- Ebytes. exact (bytes_same (fdisk fs1) d2 x Hc2). }
  destruct (AddrSpace_load_loads fuel junkM tid (mkOpenFile (fhdr x) 0) v d2 (fsecs x) (fmeta x) h Hwf Hp Hpid Htlb
    (dw_store _ _ (fw_disk _ _ Hw2)) Hf2) as (self & v' & d' & sp & El & _ & Hnone & Hs & Hnp & _ & _ & Hmap & Himg & Hoth & Hd' & Hc' & _).
  { cbn [hdr]. by rewrite EF. }
  { by rewrite Epg. }
  cbn [hdr] in Himg. rewrite EF in Himg. rewrite Epg in Hnp, Hmap, Himg.
  exists out, fs1, (mkOpenFile (fhdr x) 0), (with_disk fs1 d2), self, v', d', sp.
  split; [done|]. split; [done|]. split; [done|]. split; [exact El|]. split; [done|]. split; [done|]. split; [done|]. split; [|split; [done|]].
  - intros y Hy. destruct (Hmap y Hy) as [pa Hpa]. exists pa. split; [done|]. rewrite (Himg y pa Hpa Hy).
    exact (image_sections F out h y Hl Hc Hd).
  - assert (same_content (fdisk fs1) d') as Hcd by (intros m; by rewrite Hc', Hc2).
    exists A', s, x. rewrite with_disk_twice. apply (new_file_same fs A t nm fs1); try done.
    by apply fs_wf_same; [apply (nf_wf _ _ _ _ _ _ _ _ _ Hnew)|..].
Qed.

Lemma demo_coff_linked : linked demo_coff.
Proof.
  constructor; [exact demo_coff_ok| | | |].
  - unfold demo_coff, encode_coff, encode_scnhdr. repeat (apply Forall_app; split); try apply le32_bytes; repeat constructor; by vm_compute.
  - by vm_compute.
  - let l := eval vm_compute in (coff_sections demo_coff) in change (coff_sections demo_coff) with l.
    repeat (apply Forall_cons; split; [by vm_compute|]). done.
  - let l := eval vm_compute in (live Text (coff_sections demo_coff)) in change (live Text (coff_sections demo_coff)) with l.
    let l := eval vm_compute in (live Data (coff_sections demo_coff)) in change (live Data (coff_sections demo_coff)) with l.
    intros a b x ->%list_elem_of_singleton ->%list_elem_of_singleton. unfold covers. cbn. lia.
Qed.

Lemma program_delivered_witness : ∃ out fs fs1 exe fs2 v self v' d' pa, demo_format = Ok fs ∧
  main 1000 (λ _, true) demo_noff_header [[99]; [97]; [98]] {[ [97] := demo_coff ]} = (None, <[[98] := out]> {[ [97] := demo_coff ]}) ∧
  FileSystem_Open (λ _, demo_entry) 2 7 fs1 demo_name = Ok (Some exe, fs2) ∧
  AddrSpace_load 2 (λ _, 9) 7 exe v (fdisk fs2) = Ok (self, v', d') ∧
  space_map v' self true 2 pa ∧ mem_byte (vm_machine v') pa = 3.
Proof.
  destruct (demo_format_storable demo_name 52 demo_name_string demo_creatable ltac:(by vm_compute) ltac:(by vm_compute))
    as (fs & A & t & E & Hst).
  destruct (Initialize_vm_spec (λ _, 7) None None 0) as (v & Hv & Hwf & Hp & _ & Hsz & Hf & _).
  destruct (program_delivered 1000 (λ _, true) demo_noff_header demo_coff [99] [97] [98] {[ [97] := demo_coff ]}
    demo_junk (λ _, 5) (λ _, 3) (λ _, demo_entry) 0 7 fs A t demo_name (λ _, 9) v)
    as (out & fs1 & exe & fs2 & self & v' & d' & s & E1 & E2 & E3 & E4 & _ & _ & _ & Hmap & _).
  - reflexivity.
  - clear. by vm_compute.
  - exact demo_coff_linked.
  - apply lookup_singleton_eq.
  - done.
  - done.
  - clear. by vm_compute.
  - exact three_byte.
  - exact demo_junk_ok.
  - replace (sizeof_NoffHeader + total (coff_sections demo_coff)) with 52 by (clear; by vm_compute). exact Hst.
  - exact Hwf.
  - exact Hp.
  - rewrite Hf. apply all_free_nonempty. reflexivity.
  - exact (initial_tlb _ _ _ _ v Hv).
  - rewrite Hsz. clear. by vm_compute.
  - assert (coff_pages demo_coff = 17) as Epg by (clear; by vm_compute).
    destruct (Hmap 2) as (pa & Hpa & Hb & _); [rewrite Epg; clear; by vm_compute|].
    exists out, fs, fs1, exe, fs2, v, self, v', d', pa. split; [exact E|]. split; [exact E1|]. split; [exact E3|]. split; [exact E4|].
    split; [exact Hpa|]. rewrite (Hb (mkScnhdr (encode_name ".text"%string) 0 0 8 196 0 0 0 0 0)).
    + clear. by vm_compute.
    + clear. by vm_compute; apply list_elem_of_here.
    + clear. by vm_compute.
    + clear. by vm_compute.
Defined.
