(* ===== verification/Boot.v ===== *)
(** * threads/system.cc, threads/main.cc: starting the kernel

    [Initialize] reads the command line, builds the global data structures and
    starts the devices; [main] then reads the command line again and does what
    it asks for.  Both walk over the same words, each with its own idea of which
    of them are flags.  The state is the one of the build [final] of
    Makefile.define-user, with user programs, the file system and the network.
    Printing is a log; [main] is followed until a user program runs, one of the
    interactive or networked drivers is entered, or the main thread finishes. *)
From stdpp Require Import strings.
From S2P Require Import Prelude BitMap Memory Frames AddrSpace ThreadData ListCells Interrupt Synch Disk FileHdr FileGrow Directory FileSys FileSysInv FileSysOps FileSysUse FileSysRW Network Post FileHandler FsTest UserThread Console Exception Loader.
Open Scope Z_scope.

(** ** The command line *)
Record options := mkOptions {
  debugArgs : list Z;
  randomYield : option Z;        (* the seed given to [RandomInit], if any *)
  debugUserProg : bool;
  o_format : bool;
  rely : option (list Z);        (* the text given to [atof] *)
  netname : Z;
  diskName : list Z              (* an array of [MAX_STRING_SIZE] bytes *)
}.
Definition no_options : options :=
  mkOptions [] None false false None 0 (bytes_of "DISK"%string ++ replicate 252 0).
Definition set_debug o a := mkOptions a (randomYield o) (debugUserProg o) (o_format o) (rely o) (netname o) (diskName o).
Definition set_random o s := mkOptions (debugArgs o) (Some s) (debugUserProg o) (o_format o) (rely o) (netname o) (diskName o).
Definition set_step o := mkOptions (debugArgs o) (randomYield o) true (o_format o) (rely o) (netname o) (diskName o).
Definition set_format o := mkOptions (debugArgs o) (randomYield o) (debugUserProg o) true (rely o) (netname o) (diskName o).
Definition set_rely o a := mkOptions (debugArgs o) (randomYield o) (debugUserProg o) (o_format o) (Some a) (netname o) (diskName o).
Definition set_netname o n := mkOptions (debugArgs o) (randomYield o) (debugUserProg o) (o_format o) (rely o) n (diskName o).
Definition set_diskName o d := mkOptions (debugArgs o) (randomYield o) (debugUserProg o) (o_format o) (rely o) (netname o) d.

(** [strcmp] of [*argv] and a literal is 0. *)
Definition is_flag (s : string) (a : list Z) : bool := bool_decide (a = bytes_of s).
Definition atoi (a : list Z) : outcome Z := n ← scan_int a; Ok (default 0 n).

(** The loop of [Initialize]; [-disk] leaves [argCount] at 1, so the name of
    the disk is looked at as a flag too. *)
Fixpoint parse (argv : list (list Z)) (o : options) : outcome options :=
  match argv with
  | [] => Ok o
  | arg :: rest =>
      if is_flag "-d" arg then
        match rest with [] => parse rest (set_debug o (bytes_of "+"%string)) | a :: rest' => parse rest' (set_debug o a) end
      else if is_flag "-rs" arg then
        match rest with [] => AssertFail | a :: rest' => s ← atoi a; parse rest' (set_random o s) end
      else if is_flag "-s" arg then parse rest (set_step o)
      else if is_flag "-f" arg then parse rest (set_format o)
      else if is_flag "-l" arg then
        match rest with [] => AssertFail | a :: rest' => parse rest' (set_rely o a) end
      else if is_flag "-m" arg then
        match rest with [] => AssertFail | a :: rest' => n ← atoi a; parse rest' (set_netname o n) end
      else if is_flag "-disk" arg then
        match rest with [] => AssertFail | a :: _ => parse rest (set_diskName o (strncpy (diskName o) a (Z.to_nat MAX_STRING_SIZE))) end
      else parse rest o
  end.

(** An array read as a string: without a zero byte it runs out of it. *)
Definition as_string (l : list Z) : outcome (list Z) := if existsb (Z.eqb 0) l then Ok (c_string l) else Fault.

Definition NetworkTime : Z := 100.

(** ** The running system *)

(** What [main] shows on the way. *)
Inductive shown :=
| Copied (complaint : option complaint) | Printed (contents : option (list Z)) | Listed (rows : list (Z * bool * list Z))
| Tested (complaints : list complaint) | Copyright.
(** The test drivers [main] hands over to. *)
Inductive driver :=
| ConsoleTest (files : option (list Z * list Z)) | SynchConsoleTest (files : option (list Z * list Z)) | FileSystemTest | FileSystemPrint
| MailTest (networkID : Z) | RingTest (networkID : Z) | ConnTest (networkID : Z)
| FTPTestClient (servAddr : Z) (readwrite : Z) (fileName : list Z) | FTPTestServer.
(** The main thread runs a user program, is in a driver, or has finished. *)
Inductive ending := Runs | Enters (d : driver) | Ends.

Record Nachos (D E : Type) := mkNachos {
  n_options : options;
  n_current : Z;                 (* [currentThread] *)
  n_clock : Interrupt;           (* [interrupt], with [stats] *)
  n_random : E;                  (* the state of [rand] *)
  n_kernel : Kernel;
  n_files : FileSystem D;
  n_post : PostOffice;
  n_console : option SynchConsole;
  n_log : list shown
}.
Arguments mkNachos {D E}.
Arguments n_options {D E}.
Arguments n_current {D E}.
Arguments n_clock {D E}.
Arguments n_random {D E}.
Arguments n_kernel {D E}.
Arguments n_files {D E}.
Arguments n_post {D E}.
Arguments n_console {D E}.
Arguments n_log {D E}.

(** What the program finds: the UNIX files, [rand] and [srand], what will happen
    at the terminal. *)
Record Host (D E : Type) := mkHost {
  h_disk : list Z → D;           (* the UNIX files that hold a disk *)
  h_unix : gmap (list Z) (list Z);
  h_srand : Z → E;
  h_rand : E → Z * E;
  h_seed : E;
  h_input : list Z;
  h_events : list event
}.
Arguments mkHost {D E}.
Arguments h_disk {D E}.
Arguments h_unix {D E}.
Arguments h_srand {D E}.
Arguments h_rand {D E}.
Arguments h_seed {D E}.
Arguments h_input {D E}.
Arguments h_events {D E}.

(** What [new] leaves in what [Initialize] and [main] allocate. *)
Record Heap := mkHeap {
  j_words : nat → Z;             (* bitmaps, arrays of characters *)
  j_slots : option nat;          (* [addrspaces] and [threadsInfos] *)
  j_space : option nat;          (* [space] of a thread, which nobody sets *)
  j_size : Z;                    (* [pageTableSize] *)
  j_users : list UserFile;
  j_file : OpenFile;
  j_pkt : PacketHeader;
  j_inbox : list Z;
  j_sems : list (option Semaphore)
}.

Section boot.
Context {D E : Type} `{SectorStore D}.
Variable host : Host D E.
Variable j : Heap.
Variable u : Uninitialised.
Variable fuel : nat.       (* of the file headers *)
Variable nested : nat.     (* of the yields nested in the first tick of the clock *)
Variable rounds : nat.     (* of the loop of [Print] *)
(** The addresses of [TimerHandler], [NetworkReadPoll], of the two timers and of
    the network device, which the pending interrupts hold. *)
Variables TimerHandler NetworkReadPoll timer BroadcastTimer network : Z.

(** While the main thread is the only one, [Yield] puts it back at once; turning
    the interrupts on again is a tick. *)
Definition sole_call (f a : Z) : Interrupt * (Sys * E) → outcome (Interrupt * (Sys * E)) :=
  TimerExpired (λ w, let '(r, e) := h_rand host w.2 in (r, (w.1, e))) TimerHandler timer (mkTimer true 0 0).
Fixpoint sole_yield (n : nat) (s : Interrupt * (Sys * E)) : outcome (Interrupt * (Sys * E)) :=
  match n with
  | O => Blocked
  | S n' =>
      '(oldLevel, (i, (sys, e))) ← SetLevel sole_call Ok (sole_yield n') 2 IntOff s;
      match current sys with
      | None => Fault
      | Some this =>
          '(_, s') ← SetLevel sole_call Ok (sole_yield n') 2 oldLevel (i, (Synch.Yield sys this, e));
          Ok s'
      end
  end.

(** [new Timer(handler, 0, randomize)]. *)
Definition Timer_new (this : Z) (randomize : bool) (i : Interrupt) (e : E) : outcome (Interrupt * E) :=
  let '(d, e') := TimeOfNextInterrupt (h_rand host) (mkTimer randomize 0 0) e in
  i' ← Schedule i TimerHandler this d TimerInt; Ok (i', e').

(** [new Thread(name)]. *)
Definition Thread_new (k : Kernel) : outcome (Z * Kernel) :=
  GetNewThreadId (mkThread (j_space j) true (mkThreadArg 0 0 0)) k.

(** The scheduler with the main thread current and nobody else. *)
Definition only (tid : Z) : Sys :=
  mkSys (Some tid) [] {[tid := RUNNING]} (λ _, Semaphore_new 1) (λ _, -1) (λ _, []) ∅ (λ _, []).

(** The kernel before [Initialize] has made a thread: the static variables. *)
Definition first_kernel (v : VM) : Kernel := mkKernel v None 0 ∅ [] ∅ ∅ ∅ 0 None (Semaphore_new (-1)).

Definition PostOffice_start (addr : Z) (tid : Z) (i : Interrupt) (e : E) (k : Kernel)
    : outcome (PostOffice * Interrupt * E * Kernel) :=
  po ← PostOffice_new (j_words j) (j_pkt j) (j_inbox j) addr 10;
  i1 ← Schedule i NetworkReadPoll network NetworkTime NetworkRecvInt;
  '(t, k1) ← Thread_new k;
  '(i2, e1) ← Timer_new BroadcastTimer false i1 e;
  k2 ← Thread_Fork tid t k1;
  Ok (po, i2, e1, k2).

Definition Initialize (argv : list (list Z)) : outcome (Nachos D E) :=
  v ← Initialize_vm (j_words j) (j_slots j) (j_slots j) (j_size j);
  o ← parse (tail argv) no_options;
  let e := match randomYield o with Some s => h_srand host s | None => h_seed host end in
  let i := Interrupt_new (mkTicks 0 0 0 0) in
  '(i1, e1) ← (match randomYield o with Some _ => Timer_new timer true i e | None => Ok (i, e) end);
  '(tid, k1) ← Thread_new (first_kernel v);
  '(_, (i2, (_, e2))) ← Enable sole_call Ok (sole_yield nested) 2 (i1, (only tid, e1));
  name ← as_string (diskName o);
  fs ← FileSystem_new (u_header u) (u_bitmap u) (u_sector u) (u_entry u) fuel (o_format o) (j_users j) (j_file j) (h_disk host name);
  '(po, i3, e3, k2) ← PostOffice_start (netname o) tid i2 e2 k1;
  Ok (mkNachos o tid i3 e3 k2 fs po None []).

(** *** [main] *)
Definition log (x : shown) (s : Nachos D E) : Nachos D E :=
  mkNachos (n_options s) (n_current s) (n_clock s) (n_random s) (n_kernel s) (n_files s) (n_post s) (n_console s) (n_log s ++ [x]).
Definition with_fs (s : Nachos D E) (f : FileSystem D) : Nachos D E :=
  mkNachos (n_options s) (n_current s) (n_clock s) (n_random s) (n_kernel s) f (n_post s) (n_console s) (n_log s).
Definition with_world (s : Nachos D E) (w : World D) : Nachos D E :=
  mkNachos (n_options s) (n_current s) (n_clock s) (n_random s) (kernel w) (files w) (n_post s) (Some (terminal w)) (n_log s).

(** [-x]: a new synchronous console, then the program. *)
Definition run_program (file : list Z) (s : Nachos D E) : outcome (bool * Nachos D E) :=
  '(runs, w) ← StartProcess u fuel (j_words j) (j_sems j) (n_current s) file
                 (mkWorld (n_kernel s) (n_files s) (SynchConsole_new (h_input host) (h_events host)));
  Ok (runs, with_world s w).
(** The console tests take two file names or none. *)
Definition two_names (rest : list (list Z)) : outcome (option (list Z * list Z)) :=
  match rest with [] => Ok None | [_] => AssertFail | a :: b :: _ => Ok (Some (a, b)) end.

Fixpoint main_loop (argv : list (list Z)) (s : Nachos D E) : outcome (ending * Nachos D E) :=
  let tid := n_current s in
  match argv with
  | [] => Ok (Ends, s)
  | arg :: rest =>
      if is_flag "-z" arg then main_loop rest (log Copyright s)
      else if is_flag "-x" arg then
        match rest with
        | [] => AssertFail
        | file :: rest' => '(runs, s') ← run_program file s; if (runs : bool) then Ok (Runs, s') else main_loop rest' s'
        end
      else if is_flag "-c" arg then f ← two_names rest; Ok (Enters (ConsoleTest f), s)
      else if is_flag "-sc" arg then f ← two_names rest; Ok (Enters (SynchConsoleTest f), s)
      else if is_flag "-cp" arg then
        match rest with
        | from :: to :: rest' =>
            '(c, f) ← Copy (u_header u) (u_bitmap u) (u_sector u) (u_entry u) fuel tid (h_unix host) from to (n_files s);
            main_loop rest' (log (Copied c) (with_fs s f))
        | _ => AssertFail
        end
      else if is_flag "-p" arg then
        match rest with
        | [] => AssertFail
        | file :: rest' =>
            '(c, f) ← Print (u_entry u) fuel tid rounds file (n_files s);
            main_loop rest' (log (Printed c) (with_fs s f))
        end
      else if is_flag "-r" arg then
        match rest with
        | [] => AssertFail
        | file :: rest' =>
            '(_, f) ← FileSystem_Remove (u_bitmap u) (u_sector u) (u_entry u) fuel tid (n_files s) file;
            main_loop rest' (with_fs s f)
        end
      else if is_flag "-l" arg then
        '(rows, f) ← FileSystem_List (u_entry u) fuel tid (n_files s);
        main_loop rest (log (Listed rows) (with_fs s f))
      else if is_flag "-D" arg then Ok (Enters FileSystemPrint, s)
      else if is_flag "-t" arg then
        '(c, f) ← PerformanceTest (u_header u) (u_bitmap u) (u_sector u) (u_entry u) fuel tid (j_words j) (n_files s);
        main_loop rest (log (Tested c) (with_fs s f))
      else if is_flag "-ft" arg then Ok (Enters FileSystemTest, s)
      else if is_flag "-o" arg then
        match rest with [] => AssertFail | a :: _ => n ← atoi a; Ok (Enters (MailTest n), s) end
      else if is_flag "-ring" arg then
        match rest with [] => AssertFail | a :: _ => n ← atoi a; Ok (Enters (RingTest n), s) end
      else if is_flag "-conn" arg then
        match rest with [] => AssertFail | a :: _ => n ← atoi a; Ok (Enters (ConnTest n), s) end
      else if is_flag "-ftpclient" arg then
        match rest with
        | a :: b :: c :: _ => n ← atoi a; Ok (Enters (FTPTestClient n (hd 0 b) c), s)
        | _ => AssertFail
        end
      else if is_flag "-ftpserver" arg then
        match rest with [] => Ok (Enters FTPTestServer, s) | _ => AssertFail end
      else main_loop rest s
  end.

Definition main (argv : list (list Z)) : outcome (ending * Nachos D E) :=
  s ← Initialize argv; main_loop (tail argv) s.
End boot.

(** ** Starting a program *)

(** The registers a program starts with. *)
Definition start_registers (s : AddrSpace) : list Z :=
  <[Z.to_nat StackReg := i32 (numPages s * PageSize - 16)]> (<[Z.to_nat NextPCReg := 4]> (replicate (Z.to_nat NumTotalRegs) 0)).

Lemma InitRegisters_ok v a s : spaces v !! a = Some s → length (registers (vm_machine v)) = Z.to_nat NumTotalRegs →
  InitRegisters a v = Ok (tt, with_machine v (set_regs (vm_machine v) (start_registers s))).
Proof.
  intros Hs Hl. unfold InitRegisters, get_space. rewrite Hs. cbn [mbind outcome_bind].
  destruct v as [m fp np pm lp sp ads tm ti tis]. cbn [vm_machine] in *. destruct m as [mm regs tl pt ps pts st]. cbn [registers] in Hl.
  change (Z.to_nat NumTotalRegs) with 40%nat in Hl. do 40 (destruct regs as [|? regs]; [done|]). destruct regs; [|done].
  reflexivity.
Qed.

Record started (k k' : Kernel) (cur : Z) (th : Thread) (self : nat) (sp : AddrSpace) (F : list Z) (h : NoffHeader) : Prop := mkStarted {
  st_thread : kthreads k' = <[cur := mkThread (Some self) (isMain th) (t_arg th)]> (kthreads k);
  st_space : spaces (vm k) !! self = None ∧ spaces (vm k') !! self = Some sp ∧ numPages sp = noff_pages h;
  st_regs : registers (vm_machine (vm k')) = start_registers sp;
  st_mmu : tlb (vm_machine (vm k')) = None ∧ pageTable (vm_machine (vm k')) = Some (as_pageTable sp) ∧ pageTableSize (vm_machine (vm k')) = numPages sp;
  st_image x : 0 ≤ x < noff_pages h * PageSize → ∃ pa, space_map (vm k') self true x pa ∧ mem_byte (vm_machine (vm k')) pa = image F h x;
  st_wf : vm_wf (vm k');
  st_others : others_untouched (vm k) (vm k') self;
  st_lock : threadsLock k' = None
}.

Section start.
Context {D : Type} `{SectorStore D}.
Variable u : Uninitialised.
Variable junk : nat → Z.
Variable junkSems : list (option Semaphore).

Lemma fork_V_keeps k : vm (fork_V k) = vm k ∧ kthreads (fork_V k) = kthreads k ∧ threadsLock (fork_V k) = threadsLock k.
Proof. unfold fork_V. by destruct (queue (semFORK k)). Qed.

(** [StartProcess] of a data file that holds a program, with room for it. *)
Lemma StartProcess_starts fuel cur (w : World D) A t nm s x h th :
  let F := bytes_of_file (fdisk (files w)) x in let v := vm (kernel w) in
  fs_wf (files w) A → a_dirs A !! DirectorySector (files w) = Some t → closed_file (files w) A t nm s x →
  vm_wf v → pids_wf v → free_set (pidMap v) ≠ ∅ → tlb (vm_machine v) = None →
  length (registers (vm_machine v)) = Z.to_nat NumTotalRegs →
  threadsLock (kernel w) = None → kthreads (kernel w) !! cur = Some th →
  noff_ok F h → 0 ≤ noff_pages h ≤ Z.of_nat (size (fp_free (vm_frames v))) →
  ∃ self sp w', StartProcess u (S (S fuel)) junk junkSems cur nm w = Ok (true, w') ∧
    started (kernel w) (kernel w') cur th self sp F h ∧ asked (files w) A (files w') ∧ terminal w' = terminal w.
Proof.
  intros F v Hw Ht Hcl Hwf Hp Hpid Htlb Hregs Hlock Hth Hok Hn. unfold StartProcess.
  destruct (Open_ok (u_entry u) fuel cur (files w) A t nm s x Hw Ht Hcl) as (fs2 & -> & d2 & -> & Hw2 & Hc2).
  cbn [mbind outcome_bind]. unfold lock_threads, mutex_acquire. rewrite Hlock. cbn [mbind outcome_bind].
  destruct (disk_file _ _ _ _ (fw_disk _ _ Hw2) (proj1 (proj2 Hcl))) as (_ & _ & Hf2 & _). cbn [fdisk with_disk] in Hf2 |- *.
  assert (file_bytes d2 (fhdr x) (fsecs x) = F) as EF by exact (bytes_same (fdisk (files w)) d2 x Hc2).
  destruct (AddrSpace_load_loads fuel junk cur (mkOpenFile (fhdr x) 0) v d2 (fsecs x) (fmeta x) h Hwf Hp Hpid Htlb
    (dw_store _ _ (fw_disk _ _ Hw2)) Hf2) as (self & v' & d' & sp & El & Hwf' & Hnone & Hs & Hnp & _ & _ & Hmap & Himg & Hoth & Hd' & Hc' & Etlb & Ereg).
  { cbn [hdr]. by rewrite EF. }
  { done. }
  cbn [hdr] in Himg. rewrite EF in Himg. change (vm (with_lock (kernel w) (Some cur))) with v. rewrite El. cbn [mbind outcome_bind].
  unfold set_space. change (kthreads (with_vm (with_lock (kernel w) (Some cur)) v')) with (kthreads (kernel w)). rewrite Hth. cbn [mbind outcome_bind].
  match goal with |- context [fork_V ?k] => set (k3 := k); destruct (fork_V_keeps k3) as (Ev & Ek & Elk); set (k4 := fork_V k3) in * end.
  change (vm k3) with v' in Ev. change (threadsLock k3) with (Some cur) in Elk.
  change (kthreads k3) with (<[cur := mkThread (Some self) (isMain th) (t_arg th)]> (kthreads (kernel w))) in Ek.
  rewrite Ev, (InitRegisters_ok v' self sp Hs) by (by rewrite Ereg). cbn [mbind outcome_bind].
  unfold RestoreState, get_space. cbn [spaces with_machine]. rewrite Hs. cbn [mbind outcome_bind].
  unfold unlock_threads, mutex_release. change (threadsLock (with_vm k4 _)) with (threadsLock k4) at 1. rewrite Elk, Z.eqb_refl. cbn [mbind outcome_bind ASSERT].
  exists self, sp. eexists. split; [reflexivity|]. split; [|split; [|done]].
  - constructor; cbn [kernel vm threadsLock kthreads with_lock with_vm vm_machine with_machine spaces]; try done.
    + intros y Hy. destruct (Hmap y Hy) as [pa Hpa]. exists pa. split; [exact Hpa|]. exact (Himg y pa Hpa Hy).
    + destruct Hwf'. by constructor.
  - cbn [files]. exists d'. rewrite with_disk_twice. split; [done|].
    assert (same_content (fdisk (files w)) d') as Hc by (intros m; rewrite Hc'; apply Hc2). split; [|done]. by apply fs_wf_same.
Qed.
End start.

(** ** [Initialize] *)
Section initialize.
Context {D E : Type} `{SectorStore D}.
Variable host : Host D E.
Variable j : Heap.
Variable u : Uninitialised.
Variables nested rounds : nat.
Variables TimerHandler NetworkReadPoll timer BroadcastTimer network : Z.
Hypothesis fill_bytes : ∀ k, is_u8 (u_sector u k).
Hypothesis junk_ok : length (u_header u) = 29%nat ∧ Forall is_i32 (u_header u).
Hypothesis junkE_ok : ∀ i, entry_ok (u_entry u i).
Hypothesis users_ok : length (j_users j) = Z.to_nat MaxOpenedFiles.

(** Without another thread or a device, turning the interrupts on is a tick. *)
Definition ticked : Interrupt := 
  mkInterrupt IntOn (mkCells ∅ 0) List_new false false SystemMode (mkTicks 10 0 10 0).
Lemma Enable_alone w : Enable (sole_call host TimerHandler timer) Ok (sole_yield host TimerHandler timer nested) 2
  (Interrupt_new (mkTicks 0 0 0 0), w) = Ok (tt, (ticked, w)).
Proof. reflexivity. Qed.
Lemma ticked_pend : pend ticked [].
Proof.
  constructor; [|constructor|constructor]. apply rep_new. intros a [c Hc]. cbn in Hc. by rewrite lookup_empty in Hc.
Qed.

(** The next identifier, when it is free, is the last one plus one. *)
Lemma Thread_new_next k : bm_wf (tidMap (vm k)) → 0 ≤ lastTid k < numBits (tidMap (vm k)) → lastTid k ∈ free_set (tidMap (vm k)) →
  ∃ tm, Thread_new j k = Ok (lastTid k, with_kthreads (with_vm k (with_threads (vm k) tm (threadsInfos (vm k)) (tinfos (vm k)))) (lastTid k + 1)
      (<[lastTid k := mkThread (j_space j) true (mkThreadArg 0 0 0)]> (kthreads k))) ∧
    updates (tidMap (vm k)) tm (lastTid k) true ∧ free_set tm = free_set (tidMap (vm k)) ∖ {[lastTid k]}.
Proof.
  intros Hb Hl Hin. unfold Thread_new, GetNewThreadId.
  destruct (FindStart_spec (tidMap (vm k)) (lastTid k) Hb (proj1 Hl)) as [[_ He]|(n & b & -> & _ & Hn & Hmin & Hu & Hf)]; [set_solver|].
  assert (n = 0) as ->.
  { destruct (decide (n = 0)) as [|Hne]; [done|]. exfalso. apply (Hmin 0); [lia|]. rewrite Z.add_0_r, Z.mod_small by lia. done. }
  rewrite Z.add_0_r, Z.mod_small in * by lia. cbn [mbind outcome_bind]. rewrite (proj2 (Z.eqb_neq (lastTid k) (-1))) by lia. cbn [negb].
  exists b. split; [done|]. done.
Qed.

(** A machine that has just been started: the main thread and the postal worker,
    no process, all frames and identifiers free, two devices armed. *)
Record booted (o : options) (s : Nachos D E) (A : astate) : Prop := mkBooted {
  bo_options : n_options s = o ∧ n_current s = 0 ∧ n_console s = None ∧ n_log s = [];
  bo_threads : kthreads (n_kernel s) = <[1 := mkThread (j_space j) true (mkThreadArg 0 0 0)]> {[0 := mkThread (j_space j) true (mkThreadArg 0 0 0)]} ∧
    ready (n_kernel s) = [1] ∧ lastTid (n_kernel s) = 2 ∧ threadsLock (n_kernel s) = None ∧
    bm_wf (tidMap (vm (n_kernel s))) ∧ free_set (tidMap (vm (n_kernel s))) = list_to_set (seqZ 0 MaxThreads) ∖ {[0]} ∖ {[1]};
  bo_vm : vm_wf (vm (n_kernel s)) ∧ pids_wf (vm (n_kernel s)) ∧ spaces (vm (n_kernel s)) = ∅ ∧
    tlb (vm_machine (vm (n_kernel s))) = None ∧ registers (vm_machine (vm (n_kernel s))) = replicate (Z.to_nat NumTotalRegs) 0 ∧
    size (fp_free (vm_frames (vm (n_kernel s)))) = Z.to_nat NumPhysPages ∧ free_set (pidMap (vm (n_kernel s))) = list_to_set (seqZ 0 MaxProcesses);
  bo_clock : totalTicks (stats (n_clock s)) = 10 ∧ level (n_clock s) = IntOn ∧
    ∃ xs, pend (n_clock s) xs ∧ items xs ≡ₚ [mkPending TimerHandler BroadcastTimer 110 TimerInt; mkPending NetworkReadPoll network 110 NetworkRecvInt];
  bo_post : netAddr (n_post s) = netname o ∧ boxes (n_post s) = replicate 10 MailBox_new ∧
    free_set (usedBoxes (n_post s)) = list_to_set (seqZ 0 10) ∖ {[LISTEN_BOX]};
  bo_files : fs_wf (n_files s) A ∧ DirectorySector (n_files s) = RootSector ∧
    a_dirs A = {[RootSector := Directory_new (u_entry u) NumDirEntries]} ∧
    dom (a_files A) = {[FreeMapSector; RootSector]} ∧ size (free_set (a_free A)) = 1019%nat ∧
    ∀ i, 0 ≤ i < MaxOpenedFiles → bit (openedFileMap (n_files s)) i = false
}.

Lemma initial_machine ja a b n v : Initialize_vm ja a b n = Ok v → vm_machine v = Machine_new n.
Proof.
  unfold Initialize_vm. intros (tm & _ & (pm & _ & (fp & _ & E1)%bind_Ok_inv)%bind_Ok_inv)%bind_Ok_inv. by injection E1 as <-.
Qed.

Lemma PostOffice_start_ok addr i e k xs th : pend i xs → bm_wf (tidMap (vm k)) → numBits (tidMap (vm k)) = MaxThreads → lastTid k = 1 →
  1 ∈ free_set (tidMap (vm k)) → kthreads k = {[0 := th]} → t_space th = j_space j →
  ∃ po i' tm ys, PostOffice_start host j TimerHandler NetworkReadPoll BroadcastTimer network addr 0 i e k = Ok (po, i', e,
      with_ready (with_kthreads (with_vm k (with_threads (vm k) tm (threadsInfos (vm k)) (tinfos (vm k)))) 2
        (<[1 := mkThread (j_space j) true (mkThreadArg 0 0 0)]> {[0 := th]})) (ready k ++ [1])) ∧
    netAddr po = addr ∧ boxes po = replicate 10 MailBox_new ∧ free_set (usedBoxes po) = list_to_set (seqZ 0 10) ∖ {[LISTEN_BOX]} ∧
    bm_wf tm ∧ free_set tm = free_set (tidMap (vm k)) ∖ {[1]} ∧
    stats i' = stats i ∧ level i' = level i ∧ pend i' ys ∧
    items ys ≡ₚ mkPending TimerHandler BroadcastTimer (totalTicks (stats i) + 100) TimerInt ::
      mkPending NetworkReadPoll network (totalTicks (stats i) + 100) NetworkRecvInt :: items xs.
Proof.
  intros Hp Hb Hnb Hl Hf Hk Hsp. unfold PostOffice_start, PostOffice_new.
  destruct (BitMap_new_spec (j_words j) 10) as (bx & -> & Hbx & Hnx & _ & Hfx); [lia|]. cbn [mbind outcome_bind].
  destruct (Mark_spec bx LISTEN_BOX Hbx) as (bx' & -> & Hux); [rewrite Hnx; by vm_compute|]. cbn [mbind outcome_bind].
  destruct (Schedule_spec i xs NetworkReadPoll network NetworkTime NetworkRecvInt Hp) as (i1 & ys1 & -> & Hp1 & Hi1 & E1); [by vm_compute|].
  cbn [mbind outcome_bind]. assert (stats i1 = stats i ∧ level i1 = level i) as [Es1 El1] by (by rewrite E1).
  destruct (Thread_new_next k Hb) as (tm & -> & Hut & Hft); [rewrite Hl, Hnb; by vm_compute|by rewrite Hl|]. rewrite Hl in *. cbn [mbind outcome_bind].
  unfold Timer_new, TimeOfNextInterrupt. cbn [randomize].
  destruct (Schedule_spec i1 ys1 TimerHandler BroadcastTimer TimerTicks TimerInt Hp1) as (i2 & ys2 & -> & Hp2 & Hi2 & E2); [by vm_compute|].
  cbn [mbind outcome_bind]. assert (stats i2 = stats i1 ∧ level i2 = level i1) as [Es2 El2] by (by rewrite E2).
  unfold Thread_Fork. cbn [kthreads with_kthreads lastTid]. rewrite lookup_insert_eq, lookup_insert_ne by done. rewrite Hk, lookup_singleton_eq. cbn [mbind outcome_bind t_space isMain t_arg].
  eexists _, i2, tm, ys2. split; [rewrite Hsp, insert_insert_eq; reflexivity|]. split; [done|]. split; [done|].
  split; [|split; [|split; [done|split; [congruence|split; [congruence|split; [done|]]]]]].
  - cbn [usedBoxes]. rewrite (updates_mark_free bx bx' LISTEN_BOX); [by rewrite Hfx|rewrite Hnx; by vm_compute|done].
  - by eapply updates_wf.
  - rewrite Hi2, Es1. constructor. rewrite Hi1. constructor. done.
Qed.

(** Formatting the disk, without the random timer. *)
Lemma Initialize_formats fuel argv o nm : parse (tail argv) no_options = Ok o → randomYield o = None → o_format o = true →
  as_string (diskName o) = Ok nm → store_ok (h_disk host nm) →
  ∃ s A, Initialize host j u (S (S fuel)) nested TimerHandler NetworkReadPoll timer BroadcastTimer network argv = Ok s ∧ booted o s A.
Proof.
  intros Ho Hr Hf Hn Hd. unfold Initialize.
  destruct (Initialize_vm_spec (j_words j) (j_slots j) (j_slots j) (j_size j)) as (v & Ev & Hwf & Hp & Hsp & Hsz & Hfp & Htm & Htn & Htf & _ & _).
  pose proof (initial_machine _ _ _ _ _ Ev) as Em. rewrite Ev, Ho. cbn [mbind outcome_bind]. rewrite Hr. cbn [mbind outcome_bind].
  destruct (Thread_new_next (first_kernel v)) as (tm & -> & Hut & Hft); [exact Htm|cbn [first_kernel vm lastTid]; rewrite Htn; split; [apply Z.le_refl|reflexivity]| |].
  { cbn [first_kernel vm lastTid]. rewrite Htf. apply elem_of_list_to_set, elem_of_seqZ. split; [apply Z.le_refl|reflexivity]. }
  cbn [mbind outcome_bind lastTid first_kernel]. rewrite Enable_alone. cbn [mbind outcome_bind]. rewrite Hn. cbn [mbind outcome_bind]. rewrite Hf.
  destruct (format_wf (u_header u) (u_bitmap u) (u_sector u) (u_entry u) fill_bytes junk_ok junkE_ok fuel (j_users j) (j_file j) (h_disk host nm) Hd users_ok)
    as (fs & A & -> & Hfs & H1 & H2 & H3 & H4 & H5). cbn [mbind outcome_bind].
  match goal with |- context [PostOffice_start _ _ _ _ _ _ ?a ?t ?i ?e ?k] =>
    destruct (PostOffice_start_ok a i e k [] (mkThread (j_space j) true (mkThreadArg 0 0 0)) ticked_pend) as (po & i' & tm2 & ys & -> & P1 & P2 & P3 & P4 & P5 & C1 & C2 & C3 & C4) end.
  { cbn. by eapply updates_wf. }
  { cbn. by rewrite (updates_numBits _ _ _ _ Hut). }
  { reflexivity. }
  { cbn [vm tidMap with_kthreads with_vm with_threads]. rewrite Hft. cbn [first_kernel vm lastTid]. rewrite Htf. apply elem_of_difference.
    split; [apply elem_of_list_to_set, elem_of_seqZ; split; [apply Z.le_0_1|reflexivity]|apply not_elem_of_singleton; discriminate]. }
  { reflexivity. }
  { reflexivity. }
  cbn [mbind outcome_bind]. eexists _, A. split; [reflexivity|]. constructor.
  - by split_and!.
  - split; [reflexivity|]. split; [reflexivity|]. split; [reflexivity|]. split; [reflexivity|]. split; [exact P4|].
    change (free_set tm2 = list_to_set (seqZ 0 MaxThreads) ∖ {[0]} ∖ {[1]}). rewrite P5.
    cbn [vm tidMap with_kthreads with_vm with_threads]. rewrite Hft. cbn [first_kernel vm lastTid]. exact (f_equal (λ X, X ∖ {[0]} ∖ {[1]}) Htf).
  - cbn [n_kernel vm with_ready with_kthreads with_vm with_threads first_kernel]. split; [by destruct Hwf; constructor|]. split; [exact Hp|]. split; [exact Hsp|].
    split; [exact (f_equal tlb Em)|]. split; [exact (f_equal registers Em)|]. split; [exact Hsz|exact Hfp].
  - cbn [n_clock]. rewrite C1, C2. split; [reflexivity|]. split; [reflexivity|]. exists ys. split; [exact C3|exact C4].
  - split; [exact P1|]. split; [exact P2|exact P3].
  - split; [exact Hfs|]. split; [exact H1|]. split; [exact H2|]. split; [exact H3|]. split; [exact H4|exact H5].
Qed.
End initialize.

(** ** The command line and what it does *)

(** A word that [Initialize] does not take for a flag. *)
Definition plain (a : list Z) : Prop :=
  Forall (λ f, is_flag f a = false) ["-d"; "-rs"; "-s"; "-f"; "-l"; "-m"; "-disk"]%string.
Lemma parse_plain a rest o : plain a → parse (a :: rest) o = parse rest o.
Proof. unfold plain. intros H. cbn [parse]. repeat (apply Forall_cons in H as [-> H]). done. Qed.
Lemma parse_plains ws rest o : Forall plain ws → parse (ws ++ rest) o = parse rest o.
Proof. induction 1 as [|a ws Ha _ IH]; [done|]. cbn [app]. by rewrite parse_plain. Qed.

(** What [main] does with the words of the theorem below. *)
Section words.
Context {D E : Type} `{SectorStore D}.
Variables (host : Host D E) (j : Heap) (u : Uninitialised) (fuel rounds : nat).
Implicit Types (s : Nachos D E) (rest : list (list Z)).
Abbreviation main_loop := (main_loop host j u fuel rounds).

Lemma skips_f rest s : main_loop (bytes_of "-f"%string :: rest) s = main_loop rest s.
Proof. reflexivity. Qed.
Lemma does_cp from to rest s : main_loop (bytes_of "-cp"%string :: from :: to :: rest) s =
  ('(c, f) ← Copy (u_header u) (u_bitmap u) (u_sector u) (u_entry u) fuel (n_current s) (h_unix host) from to (n_files s);
   main_loop rest (log (Copied c) (with_fs s f))).
Proof. reflexivity. Qed.
Lemma does_x file rest s : main_loop (bytes_of "-x"%string :: file :: rest) s =
  ('(runs, s') ← run_program host j u fuel file s; if (runs : bool) then Ok (Runs, s') else main_loop rest s').
Proof. reflexivity. Qed.
End words.

(** [-l] never lists the directory.  The comment of main.cc says that it does,
    but [Initialize] takes it for the reliability of the network: as the last
    word of a command line without other flags it trips an assertion. *)
Theorem list_flag_aborts {D E : Type} `{SectorStore D} (host : Host D E) (j : Heap) (u : Uninitialised) (fuel nested rounds : nat)
    (TimerHandler NetworkReadPoll timer BroadcastTimer network : Z) (prog : list Z) (ws : list (list Z)) :
  Forall plain ws →
  main host j u fuel nested rounds TimerHandler NetworkReadPoll timer BroadcastTimer network (prog :: ws ++ [bytes_of "-l"%string]) = AssertFail.
Proof.
  intros Hws. unfold main, Initialize. cbn [tail]. assert (parse (ws ++ [bytes_of "-l"%string]) no_options = AssertFail) as Ep.
  { by rewrite (parse_plains ws [bytes_of "-l"%string] no_options Hws). }
  destruct (Initialize_vm_spec (j_words j) (j_slots j) (j_slots j) (j_size j)) as (v & -> & _). cbn [mbind outcome_bind].
  rewrite Ep. done.
Qed.

(** C18: From the command line to the program.  [nachos -f -cp from to -x to], where
    [from] is a UNIX file that holds a program and [to] a name a file may have:
    the kernel starts on a formatted disk, copies the file and the main thread
    runs it.  The CPU is at address 0 with the stack pointer at the top of the
    process, the MMU holds the process's table and each byte of its memory is
    that of the program. *)
Theorem boot_runs_program {D E : Type} `{SectorStore D} (host : Host D E) (j : Heap) (u : Uninitialised) (fuel nested rounds : nat)
    (TimerHandler NetworkReadPoll timer BroadcastTimer network : Z) (prog from to F : list Z) (h : NoffHeader) :
  (∀ k, is_u8 (u_sector u k)) → length (u_header u) = 29%nat ∧ Forall is_i32 (u_header u) → (∀ i, entry_ok (u_entry u i)) →
  length (j_users j) = Z.to_nat MaxOpenedFiles → store_ok (h_disk host (bytes_of "DISK"%string)) →
  plain from → plain to → is_string to → key to ≠ dot → key to ≠ dotdot →
  h_unix host !! from = Some F → Forall is_u8 F → noff_ok F h → 0 ≤ noff_pages h ≤ NumPhysPages →
  divRoundUp (Z.of_nat (length F)) SectorSize ≤ 924 →
  1 + divRoundUp (Z.of_nat (length F)) SectorSize + meta_need (divRoundUp (Z.of_nat (length F)) SectorSize) ≤ 1019 →
  let argv := prog :: (bytes_of <$> ["-f"; "-cp"]%string) ++ [from; to; bytes_of "-x"%string; to] in
  ∃ s self sp, main host j u (S (S fuel)) nested rounds TimerHandler NetworkReadPoll timer BroadcastTimer network argv = Ok (Runs, s) ∧
    let k := n_kernel s in let m := vm_machine (vm k) in
    n_log s = [Copied None] ∧ n_current s = 0 ∧ (t_space <$> kthreads k !! 0) = Some (Some self) ∧
    spaces (vm k) !! self = Some sp ∧ numPages sp = noff_pages h ∧
    registers m = start_registers sp ∧ pageTable m = Some (as_pageTable sp) ∧ pageTableSize m = numPages sp ∧
    (∀ x, 0 ≤ x < noff_pages h * PageSize → ∃ pa, space_map (vm k) self true x pa ∧ mem_byte m pa = image F h x).
Proof.
  intros Hfill Hjunk HjE Hus Hd Hpf Hpt Hto Hk1 Hk2 HF HF8 Hnoff Hpg Hs1 Hs2 argv.
  assert (parse (tail argv) no_options = Ok (set_format no_options)) as Ho.
  { change (parse (from :: to :: [bytes_of "-x"%string; to]) (set_format no_options) = Ok (set_format no_options)).
    rewrite !parse_plain by done. change (parse [to] (set_format no_options) = Ok (set_format no_options)). by rewrite parse_plain. }
  destruct (Initialize_formats host j u nested TimerHandler NetworkReadPoll timer BroadcastTimer network Hfill Hjunk HjE Hus fuel argv
    (set_format no_options) (bytes_of "DISK"%string) Ho eq_refl eq_refl eq_refl Hd) as (s0 & A & Ei & [(_ & Hc & _ & Hlog) (Bk & Br & _ & Bl & _) (V1 & V2 & V3 & V4 & V5 & V6 & V7) _ _ (F1 & F2 & F3 & F4 & F5 & F6)]).
  unfold main. rewrite Ei. cbn [mbind outcome_bind]. clear Ei.
  set (t := Directory_new (u_entry u) NumDirEntries) in *.
  destruct (new_directory (u_entry u) HjE) as (_ & _ & Hdm). change (dir_map t = ∅) in Hdm.
  assert (storable (n_files s0) A t to (Z.of_nat (length F))) as Hst.
  { split; [exact F1|]. split; [rewrite F2, F3; apply lookup_singleton_eq|]. split; [exact Hto|]. split.
    - split; [exact Hk1|]. split; [exact Hk2|]. split; [by rewrite Hdm|]. by apply Exists_cons_hd.
    - split; [split; [exact Hs1|cbv zeta; rewrite F5; exact Hs2]|]. by apply (nothing_open (n_files s0) A). }
  destruct (Copy_stores (u_header u) (u_bitmap u) (u_sector u) (u_entry u) Hfill Hjunk fuel 0 (h_unix host) from to (n_files s0) A t F HF HF8 Hst)
    as (fs1 & A' & t' & sc & x & Ec & Hnew & Ht' & Hcl & _).
  pose proof (nf_bytes _ _ _ _ _ _ _ _ _ Hnew) as Eb.
  change (tail argv) with (bytes_of "-f"%string :: bytes_of "-cp"%string :: from :: to :: [bytes_of "-x"%string; to]).
  rewrite skips_f, does_cp, Hc, Ec. cbn [mbind outcome_bind]. rewrite does_x.
  set (s1 := log (Copied None) (with_fs s0 fs1)). unfold run_program.
  destruct (StartProcess_starts u (j_words j) (j_sems j) fuel 0 (mkWorld (n_kernel s0) fs1 (SynchConsole_new (h_input host) (h_events host)))
    A' t' to sc x h (mkThread (j_space j) true (mkThreadArg 0 0 0))) as (self & sp & w' & Es & [T1 (T2 & T3 & T4) T5 (T6 & T7 & T8) T9 _ _ _] & _ & _);
    cbn [kernel files].
  { exact (nf_wf _ _ _ _ _ _ _ _ _ Hnew). }
  { exact Ht'. }
  { exact Hcl. }
  { exact V1. }
  { exact V2. }
  { rewrite V7. apply all_free_nonempty. reflexivity. }
  { exact V4. }
  { rewrite V5. reflexivity. }
  { exact Bl. }
  { rewrite Bk, lookup_insert_ne by discriminate. apply lookup_singleton_eq. }
  { rewrite Eb. exact Hnoff. }
  { rewrite V6. exact Hpg. }
  change (n_current s1) with (n_current s0). change (n_kernel s1) with (n_kernel s0). change (n_files s1) with fs1.
  rewrite Hc, Es. cbn [mbind outcome_bind]. cbn [kernel] in *.
  eexists _, self, sp. split; [reflexivity|]. cbv zeta. cbn [n_log n_current n_kernel with_world].
  split; [|split; [exact Hc|split; [by rewrite T1, lookup_insert_eq|]]].
  { change (n_log s1) with (n_log s0 ++ [Copied None]). by rewrite Hlog. }
  split; [exact T3|]. split; [exact T4|]. split; [exact T5|]. split; [exact T7|]. split; [exact T8|].
  intros y Hy. destruct (T9 y Hy) as (pa & Hpa & Hb). exists pa. split; [exact Hpa|]. rewrite Hb. cbn [files]. by rewrite Eb.
Qed.

(** ** Witnesses *)
Definition demo_start : Uninitialised :=
  mkUninitialised demo_junk (λ _, 5) (λ _, 3) (λ _, demo_entry) [] [] 0 0 (mkThreadInfo 0 0 0 None).
Definition demo_heap : Heap := mkHeap (λ _, 170) None None 0 demo_users demo_file0 (mkPkt 0 0 0) [] [].
Definition demo_host : Host SynchDisk Z :=
  mkHost (λ _, demo_disk) {[ [97] := demo_program ]} (λ s, s) (λ s, (s, s + 1)) 0 [] [].

Lemma list_flag_aborts_witness : main demo_host demo_heap demo_start 2 1 0 1 2 3 4 5 [[110]; bytes_of "-l"%string] = AssertFail.
Proof. apply (list_flag_aborts demo_host demo_heap demo_start 2 1 0 1 2 3 4 5 [110] []). constructor. Defined.

Lemma boot_runs_program_witness : ∃ s self pa,
  main demo_host demo_heap demo_start 2 1 0 1 2 3 4 5
    [[110]; bytes_of "-f"%string; bytes_of "-cp"%string; [97]; demo_name; bytes_of "-x"%string; demo_name] = Ok (Runs, s) ∧
  space_map (vm (n_kernel s)) self true 129 pa ∧ mem_byte (vm_machine (vm (n_kernel s))) pa = 22.
Proof.
  destruct (boot_runs_program demo_host demo_heap demo_start 0 1 0 1 2 3 4 5 [110] [97] demo_name demo_program demo_header
    three_byte demo_junk_ok (λ _, demo_entry_ok) eq_refl demo_store_ok) as (s & self & sp & E & _ & _ & _ & _ & _ & _ & _ & _ & Hm).
  - repeat (apply Forall_cons; split; [reflexivity|]). constructor.
  - repeat (apply Forall_cons; split; [reflexivity|]). constructor.
  - exact demo_name_string.
  - discriminate.
  - discriminate.
  - apply lookup_singleton_eq.
  - unfold demo_program. rewrite !Forall_app. split_and!; try apply le32_bytes; repeat constructor; by vm_compute.
  - exact demo_program_noff.
  - by vm_compute.
  - by vm_compute.
  - by vm_compute.
  - change (noff_pages demo_header) with 17 in Hm. destruct (Hm 129) as (pa & Hpa & Hb); [clear; by vm_compute|].
    exists s, self, pa. split; [exact E|]. split; [exact Hpa|]. rewrite Hb. clear. by vm_compute.
Defined.
