(* ===== verification/OwnView.v ===== *)
(** * What an instruction depends on

    An instruction of a user program reads and writes the registers, the page
    table in the MMU and the frames of that table, and nothing else: two
    machines that agree on these ([agree]) stay in agreement, trap alike and
    fail alike, and each leaves every other byte and table as it is
    ([confined]).  The relation [related] carries both through the cases of
    [OneInstruction]; the trap handler is any that keeps it, as the kernel's
    handler of the exceptions that are not system calls does. *)
From S2P Require Import Prelude Memory Mips Cpu Frames AddrSpace Exception Loader.

(** Related results, or the same failure. *)
Definition orel {A} (R : A → A → Prop) (x y : outcome A) : Prop :=
  match x, y with
  | Ok a, Ok b => R a b
  | AssertFail, AssertFail | Fault, Fault | Blocked, Blocked => True
  | _, _ => False
  end.
Lemma orel_bind {A B} (R : A → A → Prop) (S : B → B → Prop) x y (f g : A → outcome B) : orel R x y →
  (∀ a b, R a b → orel S (f a) (g b)) → orel S (x ≫= f) (y ≫= g).
Proof. destruct x, y; cbn; naive_solver. Qed.
Lemma orel_same {A B} (S : B → B → Prop) (x : outcome A) (f g : A → outcome B) :
  (∀ a, x = Ok a → orel S (f a) (g a)) → orel S (x ≫= f) (x ≫= g).
Proof. destruct x; cbn; naive_solver. Qed.
Lemma orel_Ok {A} (R : A → A → Prop) x y a : orel R x y → x = Ok a → ∃ b, y = Ok b ∧ R a b.
Proof. destruct x, y; cbn; naive_solver. Qed.

Lemma arr_set_length {A} (l l' : list A) i x : arr_set l i x = Ok l' → length l' = length l.
Proof. intros H. apply arr_set_Ok in H. destruct_and!. subst. apply length_insert. Qed.

(** A byte of a frame of the current page table. *)
Definition own_byte (m : Machine) (x : Z) : Prop :=
  ∃ p pt e, pageTable m = Some p ∧ ptables m !! p = Some pt ∧ e ∈ pt ∧ in_frame (physicalPage e) x.

(** The same registers, page table and own bytes. *)
Record agree (m1 m2 : Machine) : Prop := mkAgree {
  ag_wf1 : mmu_wf m1;
  ag_wf2 : mmu_wf m2;
  ag_regs : registers m2 = registers m1;
  ag_page : pageTable m2 = pageTable m1;
  ag_table p : pageTable m1 = Some p → ptables m2 !! p = ptables m1 !! p;
  ag_bytes x : own_byte m1 x → mem_byte m2 x = mem_byte m1 x
}.
(** The page table up to use and dirty bits, every other table and every byte
    of another frame stay (and there are as many registers). *)
Record confined (m m' : Machine) : Prop := mkConfined {
  cf_wf : mmu_wf m;
  cf_len : length (registers m') = length (registers m);
  cf_tlb : tlb m' = tlb m;
  cf_page : pageTable m' = pageTable m ∧ pageTableSize m' = pageTableSize m;
  cf_own p pt : pageTable m = Some p → ptables m !! p = Some pt →
    ∃ pt', ptables m' !! p = Some pt' ∧ Forall2 same_entry pt pt';
  cf_others q : pageTable m ≠ Some q → ptables m' !! q = ptables m !! q;
  cf_bytes x : ¬ own_byte m x → mem_byte m' x = mem_byte m x
}.

Section own.
Implicit Types m : Machine.

Lemma confined_tables m m' : confined m m' → same_tables m (set_regs m' (registers m)).
Proof.
  intros [(_ & p & pt & Hp & Hpt & _) _ Ht Hpg Ho Hq _]. constructor; try done; cbn.
  - intros q Hn. rewrite Hq; congruence.
  - intros q qt Hqt. destruct (decide (pageTable m = Some q)) as [E|E]; [by apply Ho|].
    exists qt. rewrite Hq by done. split; [done|]. apply same_entries_refl.
Qed.
Lemma confined_wf m m' : confined m m' → mmu_wf m'.
Proof.
  intros H. assert (mmu_wf (set_regs m' (registers m))) as W.
  { eapply mmu_wf_tables; [by eapply cf_wf|]. by apply confined_tables. }
  by apply (mmu_wf_ext (set_regs m' (registers m))).
Qed.

Lemma own_byte_tables m m' x : confined m m' → own_byte m' x ↔ own_byte m x.
Proof.
  intros [(_ & p & pt & Hp & Hpt & _) _ Ht [Hpg _] Ho Hq _]. destruct (Ho p pt Hp Hpt) as (pt' & Hpt' & HF).
  split; intros (q & qt & e & H1 & H2 & He & Hx); apply list_elem_of_lookup in He as [i Hi].
  - assert (q = p) as -> by congruence. assert (qt = pt') as -> by congruence.
    destruct (Forall2_lookup_r _ _ _ _ _ HF Hi) as (e0 & He0 & _ & Ep & _).
    exists p, pt, e0. rewrite <- Ep. split_and!; try done. by eapply list_elem_of_lookup_2.
  - assert (q = p) as -> by congruence. assert (qt = pt) as -> by congruence.
    destruct (Forall2_lookup_l _ _ _ _ _ HF Hi) as (e0 & He0 & _ & Ep & _).
    exists p, pt', e0. rewrite Ep. split_and!; try done; [congruence|]. by eapply list_elem_of_lookup_2.
Qed.

Lemma confined_refl m : mmu_wf m → confined m m.
Proof. intros H. constructor; try done. intros p pt _ Hpt. exists pt. split; [done|]. apply same_entries_refl. Qed.
Lemma confined_trans m1 m2 m3 : confined m1 m2 → confined m2 m3 → confined m1 m3.
Proof.
  intros H1 H2. pose proof H1 as [W1 N1 L1 [P1 S1] O1 Q1 B1]. pose proof H2 as [W2 N2 L2 [P2 S2] O2 Q2 B2].
  constructor; try done; [congruence|congruence|split; congruence|..].
  - intros p pt Hp Hpt. destruct (O1 p pt Hp Hpt) as (pt2 & E2 & F2). destruct (O2 p pt2) as (pt3 & E3 & F3); [congruence|done|].
    exists pt3. split; [done|]. by eapply same_entries_trans.
  - intros q Hq. rewrite Q2, Q1; congruence.
  - intros x Hx. rewrite B2, B1; [done|done|]. by rewrite (own_byte_tables m1 m2).
Qed.

Lemma agree_own m1 m2 x : agree m1 m2 → own_byte m2 x ↔ own_byte m1 x.
Proof.
  intros [_ _ _ Ep Et _]. unfold own_byte. rewrite Ep. split; intros (p & pt & e & H1 & H2 & H3); exists p, pt, e;
    rewrite (Et p H1) in *; done.
Qed.
Lemma agree_refl m : mmu_wf m → agree m m.
Proof. by constructor. Qed.
Lemma agree_sym m1 m2 : agree m1 m2 → agree m2 m1.
Proof.
  intros H. pose proof H as [W1 W2 R Ep Et B]. constructor; try done.
  - intros p Hp. symmetry. apply Et. congruence.
  - intros x Hx. symmetry. apply B. by apply (agree_own m1 m2).
Qed.
Lemma agree_trans m1 m2 m3 : agree m1 m2 → agree m2 m3 → agree m1 m3.
Proof.
  intros H1 H2. pose proof H1 as [W1 _ R1 P1 T1 B1]. pose proof H2 as [_ W3 R2 P2 T2 B2]. constructor; try done; try congruence.
  - intros p Hp. rewrite T2, T1; congruence.
  - intros x Hx. rewrite B2, B1; [done|done|]. by apply (agree_own m1 m2).
Qed.

(** What the MMU state of agreeing machines has in common. *)
Lemma agree_mmu m1 m2 : agree m1 m2 → ∃ p pt, pageTable m1 = Some p ∧ pageTable m2 = Some p ∧
  ptables m1 !! p = Some pt ∧ ptables m2 !! p = Some pt ∧ tlb m1 = None ∧ tlb m2 = None ∧
  pageTableSize m2 = pageTableSize m1 ∧ Forall entry_wf pt.
Proof.
  intros [(L1 & p & pt & P1 & T1 & S1 & F1) (L2 & p2 & pt2 & P2 & T2 & S2 & _) _ Ep Et _].
  assert (p2 = p) as -> by congruence. assert (pt2 = pt) as -> by (rewrite (Et p P1) in T2; congruence).
  exists p, pt. split_and!; try done. congruence.
Qed.
End own.

(** ** The relation through an instruction *)
Section related.
Variables b1 b2 : Machine.

Definition related (m1 m2 : Machine) : Prop := agree m1 m2 ∧ confined b1 m1 ∧ confined b2 m2.

Lemma related_step m1 m2 m1' m2' : related m1 m2 → agree m1' m2' → confined m1 m1' → confined m2 m2' → related m1' m2'.
Proof. intros (_ & C1 & C2) Ha D1 D2. split; [done|]. split; by eapply confined_trans. Qed.

Lemma related_regs m1 m2 r : related m1 m2 → length r = length (registers m1) → related (set_regs m1 r) (set_regs m2 r).
Proof.
  intros H Hl. pose proof H as ([W1 W2 R P T B] & _). eapply related_step; [done|..].
  - constructor; try done; by eapply mmu_wf_ext.
  - by destruct (confined_refl m1 W1).
  - destruct (confined_refl m2 W2). constructor; try done. cbn. by rewrite R.
Qed.
Lemma related_status m1 m2 st : related m1 m2 → related (set_status m1 st) (set_status m2 st).
Proof.
  intros H. pose proof H as ([W1 W2 R P T B] & _). eapply related_step; [done|..].
  - constructor; try done; by eapply mmu_wf_ext.
  - by destruct (confined_refl m1 W1).
  - by destruct (confined_refl m2 W2).
Qed.

Lemma confined_put m x v : mmu_wf m → own_byte m x → confined m (put_byte m x v).
Proof.
  intros W Hx. destruct (confined_refl m W). constructor; try done.
  intros y Hy. apply mem_byte_put_ne. by intros ->.
Qed.
Lemma related_put m1 m2 x v : related m1 m2 → own_byte m1 x → related (put_byte m1 x v) (put_byte m2 x v).
Proof.
  intros H Hx. pose proof H as (Ha & _). pose proof Ha as [W1 W2 R P T B]. eapply related_step; [done| |by apply confined_put|].
  - constructor; try done; try by eapply mmu_wf_ext. intros y Hy. destruct (decide (x = y)) as [->|Hne]; [by rewrite !mem_byte_put_eq|].
    rewrite !mem_byte_put_ne by done. by apply B.
  - apply confined_put; [done|]. by apply (agree_own m1 m2).
Qed.

Lemma confined_touch m p pt i e w : mmu_wf m → pageTable m = Some p → ptables m !! p = Some pt → pt !! i = Some e →
  confined m (store_entry m (InTable p i) (touch e w)).
Proof.
  intros W Hp Hpt He. constructor; try done; cbn.
  - intros q qt Hq Hqt. assert (q = p) as -> by congruence. assert (qt = pt) as -> by congruence.
    rewrite lookup_alter_eq, Hpt. eexists. split; [done|]. by eapply same_entries_insert.
  - intros q Hq. apply lookup_alter_ne. congruence.
Qed.
Lemma related_touch m1 m2 p pt i e w : related m1 m2 → pageTable m1 = Some p → ptables m1 !! p = Some pt → pt !! i = Some e →
  related (store_entry m1 (InTable p i) (touch e w)) (store_entry m2 (InTable p i) (touch e w)).
Proof.
  intros H Hp Hpt He. pose proof H as (Ha & _). pose proof Ha as [W1 W2 R P T B].
  assert (ptables m2 !! p = Some pt) as Hpt2 by (by rewrite T). assert (pageTable m2 = Some p) as Hp2 by congruence.
  assert (confined m1 (store_entry m1 (InTable p i) (touch e w))) as C1 by (by eapply confined_touch).
  assert (confined m2 (store_entry m2 (InTable p i) (touch e w))) as C2 by (by eapply confined_touch).
  eapply related_step; [done| |done|done]. constructor; try done; try by eapply confined_wf.
  - cbn. intros q Hq. assert (q = p) as -> by congruence. by rewrite !lookup_alter_eq, T.
  - intros x Hx. apply B. by apply (own_byte_tables _ _ x C1).
Qed.
End related.

(** ** Memory accesses and traps *)
Section accesses.
Variables b1 b2 : Machine.
Abbreviation related := (related b1 b2).

(** Values, and the machines they come with. *)
Definition with_value {A} (x y : A * Machine) : Prop := x.1 = y.1 ∧ related x.2 y.2.

Lemma related_reg m1 m2 r : related m1 m2 → reg m2 r = reg m1 r.
Proof. intros ([_ _ R _ _ _] & _). unfold reg. by rewrite R. Qed.
Lemma related_setreg m1 m2 r v : related m1 m2 → related (setreg m1 r v) (setreg m2 r v).
Proof. intros H. pose proof H as ([_ _ R _ _ _] & _). unfold setreg. rewrite R. apply related_regs; [done|]. apply length_insert. Qed.

Lemma own_frame m p pt e x : pageTable m = Some p → ptables m !! p = Some pt → e ∈ pt → in_frame (physicalPage e) x → own_byte m x.
Proof. intros. by exists p, pt, e. Qed.

(** The same answer, and an accepted address lies in an own frame. *)
Definition translated (n : Z) (x y : ExceptionType * Z * Machine) : Prop :=
  x.1 = y.1 ∧ related x.2 y.2 ∧ (x.1.1 = NoException → ∀ k, 0 ≤ k < n → own_byte x.2 (x.1.2 + k)).

Lemma related_Translate m1 m2 va n w : related m1 m2 → access_size n →
  orel (translated n) (Translate m1 va n w) (Translate m2 va n w).
Proof.
  intros H Hn. pose proof H as (Ha & _). destruct (agree_mmu m1 m2 Ha) as (p & pt & P1 & P2 & T1 & T2 & L1 & L2 & Hs & HF).
  unfold Translate. destruct (misaligned va n) eqn:Hal; [done|]. unfold lookup_entry. rewrite L1, L2, P1, P2, Hs, T1, T2. cbn [has negb orb ASSERT mbind outcome_bind].
  destruct (_ <=? _); [done|]. destruct (arr_get pt _) as [e| | |] eqn:He; try done. cbn [mbind outcome_bind].
  apply arr_get_Ok in He as [_ He]. destruct (negb (valid e)); [done|]. cbn [mbind outcome_bind]. destruct (readOnly e && w); [done|].
  destruct (_ <=? physicalPage e); [done|]. destruct (_ && _); [|done]. cbn [ASSERT mbind outcome_bind orel].
  split; [done|]. split; [by eapply related_touch|]. intros _ k Hk. cbn [fst snd].
  apply (own_byte_tables m1); [eapply confined_touch; [by destruct Ha|done..]|].
  eapply own_frame; [done|done|by eapply list_elem_of_lookup_2|].
  pose proof (aligned_offset va n Hn Hal). unfold in_frame. unfold PageSize, SectorSize in *. Z.div_mod_to_equations. lia.
Qed.

Lemma related_load m1 m2 pa n : related m1 m2 → (∀ k, 0 ≤ k < n → own_byte m1 (pa + k)) → load_bytes m2 pa n = load_bytes m1 pa n.
Proof.
  intros ([_ _ _ _ _ B] & _) Hk. unfold load_bytes.
  assert (0 < n → mem_byte m2 pa = mem_byte m1 pa) as E0 by (intros; apply B; specialize (Hk 0); rewrite Z.add_0_r in Hk; apply Hk; lia).
  repeat case_match; zbool; subst; try done; rewrite ?E0 by lia; rewrite ?(B (pa + 1)), ?(B (pa + 2)), ?(B (pa + 3)) by (apply Hk; lia); done.
Qed.
Lemma own_byte_put m x v y : own_byte (put_byte m x v) y ↔ own_byte m y.
Proof. done. Qed.
Lemma related_store m1 m2 pa n v : related m1 m2 → (∀ k, 0 ≤ k < n → own_byte m1 (pa + k)) →
  orel related (store_bytes m1 pa n v) (store_bytes m2 pa n v).
Proof.
  intros H Hk. assert (0 < n → own_byte m1 pa) as H0 by (intros; specialize (Hk 0); rewrite Z.add_0_r in Hk; apply Hk; lia).
  unfold store_bytes. repeat case_match; zbool; subst; try done; cbn [orel];
    repeat (apply related_put; [|rewrite ?own_byte_put; first [apply H0; lia | apply Hk; lia]]); try done.
Qed.

Lemma related_DelayedLoad m1 m2 nr nv : related m1 m2 → orel related (DelayedLoad m1 nr nv) (DelayedLoad m2 nr nv).
Proof.
  intros H. pose proof H as ([_ _ R _ _ _] & _). unfold DelayedLoad. rewrite R.
  apply orel_same. intros lr _. apply orel_same. intros lv _. do 4 (apply orel_same; intros ? ?%arr_set_length).
  apply related_regs; [done|congruence].
Qed.

(** A handler that looks at nothing but the program's own state. *)
Definition local_handler (h : ExceptionType → Machine → outcome Machine) : Prop :=
  ∀ ex m1 m2, related m1 m2 → orel related (h ex m1) (h ex m2).

Lemma related_register m1 m2 n v : related m1 m2 → orel related (WriteRegister m1 n v) (WriteRegister m2 n v).
Proof.
  intros H. pose proof H as ([_ _ R _ _ _] & _). unfold WriteRegister. rewrite R.
  apply orel_same. intros _ _. apply orel_same. intros r Hr%arr_set_length. by apply related_regs.
Qed.
Lemma related_read m1 m2 n : related m1 m2 → ReadRegister m2 n = ReadRegister m1 n.
Proof. intros ([_ _ R _ _ _] & _). unfold ReadRegister. by rewrite R. Qed.
Lemma fault_handler_local : local_handler fault_handler.
Proof.
  intros ex m1 m2 H. unfold fault_handler, UpdatePC. rewrite (related_read m1 m2) by done. apply orel_same. intros pc _.
  eapply orel_bind; [by apply related_register|]. intros x1 x2 Hx. rewrite (related_read x1 x2) by done. apply orel_same. intros npc _.
  eapply orel_bind; [by apply related_register|]. intros y1 y2 Hy. by apply related_register.
Qed.

Context (h : ExceptionType → Machine → outcome Machine) (Hh : local_handler h).

Lemma related_Raise m1 m2 ex bad : related m1 m2 → orel related (RaiseException h m1 ex bad) (RaiseException h m2 ex bad).
Proof using Hh.
  intros H. pose proof H as ([_ _ R _ _ _] & _). unfold RaiseException. rewrite R. apply orel_same. intros r Hr%arr_set_length.
  eapply orel_bind; [apply related_DelayedLoad; by apply related_regs|]. intros x1 x2 Hx.
  eapply orel_bind; [apply Hh; by apply related_status|]. intros y1 y2 Hy. by apply related_status.
Qed.
Lemma related_ReadMem m1 m2 addr n : related m1 m2 → access_size n → orel with_value (ReadMem h m1 addr n) (ReadMem h m2 addr n).
Proof using Hh.
  intros H Hn. unfold ReadMem. eapply orel_bind; [by apply related_Translate|].
  intros [[ex1 pa1] x1] [[ex2 pa2] x2] ([= <- <-] & Hx & Ho). cbn [fst snd] in *. case_decide as He.
  - rewrite (related_load x1 x2) by auto. apply orel_same. by intros v _.
  - eapply orel_bind; [by apply related_Raise|]. by intros y1 y2 Hy.
Qed.
Lemma related_WriteMem m1 m2 addr n v : related m1 m2 → access_size n → orel with_value (WriteMem h m1 addr n v) (WriteMem h m2 addr n v).
Proof using Hh.
  intros H Hn. unfold WriteMem. eapply orel_bind; [by apply related_Translate|].
  intros [[ex1 pa1] x1] [[ex2 pa2] x2] ([= <- <-] & Hx & Ho). cbn [fst snd] in *. case_decide as He.
  - eapply orel_bind; [apply related_store; auto|]. by intros y1 y2 Hy.
  - eapply orel_bind; [by apply related_Raise|]. by intros y1 y2 Hy.
Qed.
End accesses.

(** ** The cases of [OneInstruction] *)
Section instruction.
Variables b1 b2 : Machine.
Abbreviation related := (related b1 b2).
Context (h : ExceptionType → Machine → outcome Machine) (Hh : local_handler b1 b2 h).

Definition same_end (x y : exec_result) : Prop :=
  match x, y with
  | Fallout m1 pc r v, Fallout m2 pc' r' v' => related m1 m2 ∧ pc = pc' ∧ r = r' ∧ v = v'
  | Cpu.Returned m1, Cpu.Returned m2 => related m1 m2
  | _, _ => False
  end.
Abbreviation same_case := (option_Forall2 (orel same_end)).

Lemma related_fallout m1 m2 pc r v : related m1 m2 → orel same_end (Ok (Fallout m1 pc r v)) (Ok (Fallout m2 pc r v)).
Proof. done. Qed.
Lemma related_raise m1 m2 ex bad : related m1 m2 → orel same_end (raise h m1 ex bad) (raise h m2 ex bad).
Proof using Hh. intros H. eapply orel_bind; [by apply related_Raise|]. done. Qed.
Lemma related_write m1 m2 pc r v : related m1 m2 → orel same_end (write m1 pc r v) (write m2 pc r v).
Proof. intros H. apply related_fallout. by apply related_setreg. Qed.
Lemma related_branch m1 m2 pc c i : related m1 m2 → orel same_end (branch m1 pc c i) (branch m2 pc c i).
Proof. intros H. unfold branch. rewrite (related_reg b1 b2 m1 m2) by done. by apply related_fallout. Qed.
Lemma related_loading m1 m2 addr n k1 k2 : related m1 m2 → access_size n →
  (∀ x1 x2 v, related x1 x2 → orel same_end (k1 x1 v) (k2 x2 v)) →
  orel same_end (loading h m1 addr n k1) (loading h m2 addr n k2).
Proof using Hh.
  intros H Hn Hk. eapply orel_bind; [by apply related_ReadMem|]. intros [v1 x1] [v2 x2] [[= <-] Hx]. destruct v1; [by apply Hk|done].
Qed.
Lemma related_storing m1 m2 addr n v pc : related m1 m2 → access_size n → orel same_end (storing h m1 addr n v pc) (storing h m2 addr n v pc).
Proof using Hh.
  intros H Hn. eapply orel_bind; [by apply related_WriteMem|]. intros [v1 x1] [v2 x2] [[= <-] Hx]. by destruct v1.
Qed.
Lemma access_1 : access_size 1. Proof. by left. Qed.
Lemma access_2 : access_size 2. Proof. by right; left. Qed.
Lemma access_4 : access_size 4. Proof. by right; right. Qed.

(** Registers of the second machine read as those of the first. *)
Ltac same_regs := repeat match goal with
  | |- context [reg ?y ?r] => erewrite (related_reg b1 b2 _ y r) by (repeat apply related_setreg; eassumption) end.
Ltac same_ends := repeat first
  [ assumption | apply access_1 | apply access_2 | apply access_4
  | apply related_raise | apply related_write | apply related_branch | apply related_storing
  | apply related_loading; [| |intros; same_regs]
  | apply related_fallout | apply related_setreg
  | match goal with |- orel _ (if ?c then _ else _) _ => destruct c end
  | apply orel_same; intros ? _ ].

Lemma related_add_jump m1 m2 i pc : related m1 m2 → same_case (exec_add_jump h m1 i pc) (exec_add_jump h m2 i pc).
Proof using Hh. intros H. unfold exec_add_jump. destruct (opCode i); cbv zeta; same_regs; constructor; same_ends; done. Qed.
Lemma related_move_logic m1 m2 i pc : related m1 m2 → same_case (exec_move_logic m1 i pc) (exec_move_logic m2 i pc).
Proof using Hh.
  intros H. unfold exec_move_logic. destruct (opCode i); cbv zeta; same_regs; constructor; same_ends; try (destruct (Mult _ _ _)); same_ends; done.
Qed.
Lemma related_store_shift m1 m2 i pc : related m1 m2 → same_case (exec_store_shift h m1 i pc) (exec_store_shift h m2 i pc).
Proof using Hh. intros H. unfold exec_store_shift. destruct (opCode i); cbv zeta; same_regs; constructor; same_ends; done. Qed.
Lemma related_misc m1 m2 i pc : related m1 m2 → same_case (exec_misc h m1 i pc) (exec_misc h m2 i pc).
Proof using Hh. intros H. unfold exec_misc. destruct (opCode i); cbv zeta; same_regs; constructor; same_ends; done. Qed.
Lemma related_exec_load m1 m2 i pc : related m1 m2 → same_case (exec_load h m1 i pc) (exec_load h m2 i pc).
Proof using Hh.
  intros H. unfold exec_load, merge_base. destruct (opCode i); cbv zeta; same_regs; constructor; same_ends; done.
Qed.
Lemma related_partial_store m1 m2 i pc : related m1 m2 → same_case (exec_partial_store h m1 i pc) (exec_partial_store h m2 i pc).
Proof using Hh. intros H. unfold exec_partial_store. destruct (opCode i); cbv zeta; same_regs; constructor; same_ends; done. Qed.

Lemma first_same x1 x2 y1 y2 : same_case x1 x2 → same_case y1 y2 → same_case (first_some x1 y1) (first_some x2 y2).
Proof. intros [] Hy; [by constructor|done]. Qed.
Lemma related_exec m1 m2 i pc : related m1 m2 → orel same_end (exec h m1 i pc) (exec h m2 i pc).
Proof using Hh.
  intros H. unfold exec. match goal with |- orel _ (default _ ?x) (default _ ?y) => assert (same_case x y) as [] end; try done.
  repeat apply first_same; eauto using related_add_jump, related_exec_load, related_move_logic, related_store_shift, related_partial_store, related_misc.
Qed.
Lemma related_advance m1 m2 pc r v : related m1 m2 → orel related (advance m1 pc r v) (advance m2 pc r v).
Proof.
  intros H. eapply orel_bind; [by apply related_DelayedLoad|]. intros x1 x2 Hx. cbv zeta. same_regs. cbn [orel]. by repeat apply related_setreg.
Qed.

Lemma related_OneInstruction m1 m2 : related m1 m2 → orel related (OneInstruction h m1) (OneInstruction h m2).
Proof using Hh.
  intros H. unfold OneInstruction. rewrite (related_reg b1 b2 m1 m2) by done.
  eapply orel_bind; [apply related_ReadMem; [done|done|apply access_4]|].
  intros [raw x1] [raw2 x2] [[= <-] Hx]. cbn [fst snd] in *. destruct raw as [raw|]; [|done]. apply orel_same. intros i _.
  cbv zeta. same_regs. eapply orel_bind; [by apply related_exec|]. intros [y1 pc r v|y1] [y2 pc' r' v'|y2]; try done.
  intros (Hy & <- & <- & <-). by apply related_advance.
Qed.
End instruction.
