(* ===== verification/TimeSharing.v ===== *)
(** * machine/mipssim.cc [Machine::Run], threads/scheduler.cc [Scheduler::Run],
    threads/thread.cc [Thread::Yield]: time sharing of user programs

    The loop that runs a user program, one instruction and one tick of the
    clock at a time, with the preemption on top of it: a tick serves the
    devices that are due, and if the timer asked for it the thread yields, so
    that its registers are saved, the next ready thread is made current and
    that thread's registers and page table are loaded.

    The host stacks of the threads are flattened: a thread that lost the CPU in
    [Scheduler::Run] continues there when it gets it back, restores its state
    and leaves [Yield] and [OneTick] as it would have; every thread on the
    ready list of this file lost the CPU that way.  No thread is created,
    destroyed or woken up between the turns: the trap handler is a parameter
    that works on the machine alone, and so are the handlers of the devices. *)
From S2P Require Import Prelude BitMap Memory Cpu Frames AddrSpace ThreadData ListCells Interrupt Synch UserThread Exception Loader OwnView.

(** The machine and the address spaces, the scheduler, the [space] and the
    [userRegisters] of every thread, and the devices. *)
Record Computer (E : Type) := mkComputer {
  c_vm : VM;
  c_sys : Sys;
  c_space : gmap Z nat;
  c_regs : gmap Z (list Z);
  c_dev : E
}.
Arguments mkComputer {E}.
Arguments c_vm {E}.
Arguments c_sys {E}.
Arguments c_space {E}.
Arguments c_regs {E}.
Arguments c_dev {E}.

Section computer.
Context {E : Type}.
Implicit Types w : Computer E.

Definition cpu w : Machine := vm_machine (c_vm w).
Definition with_c_vm w v : Computer E := mkComputer v (c_sys w) (c_space w) (c_regs w) (c_dev w).
Definition with_cpu w m : Computer E := with_c_vm w (with_machine (c_vm w) m).
Definition with_sys w s : Computer E := mkComputer (c_vm w) s (c_space w) (c_regs w) (c_dev w).
Definition with_regs w r : Computer E := mkComputer (c_vm w) (c_sys w) (c_space w) r (c_dev w).
Definition with_dev w e : Computer E := mkComputer (c_vm w) (c_sys w) (c_space w) (c_regs w) e.

(** [currentThread->SaveUserState(); currentThread->space->SaveState()] of a
    user program; [SaveState] does nothing. *)
Definition save_state w : outcome (Computer E) :=
  match current (c_sys w) with
  | None => Fault
  | Some t =>
      match c_space w !! t with
      | None => Ok w
      | Some _ => l ← SaveUserState (Z.to_nat NumTotalRegs) 0 (cpu w); Ok (with_regs w (<[t := l]> (c_regs w)))
      end
  end.
(** [currentThread->RestoreUserState(); currentThread->space->RestoreState()];
    reading registers that were never saved is undefined. *)
Definition restore_state w : outcome (Computer E) :=
  match current (c_sys w) with
  | None => Fault
  | Some t =>
      match c_space w !! t with
      | None => Ok w
      | Some a =>
          l ← (match c_regs w !! t with Some l => Ok l | None => Fault end);
          m ← RestoreUserState l 0 (cpu w);
          '(_, v) ← RestoreState a (with_machine (c_vm w) m);
          Ok (with_c_vm w v)
      end
  end.
(** From saving the old thread's state to loading the new one's. *)
Definition switch (nextThread : Z) w : outcome (Computer E) :=
  w1 ← save_state w;
  restore_state (with_sys w1 (Run (c_sys w1) nextThread)).
Definition Scheduler_Run (nextThread : Z) : Interrupt * Computer E → outcome (Interrupt * Computer E) := λ '(i, w),
  _ ← ASSERT (bool_decide (level i = IntOff));
  w' ← switch nextThread w; Ok (i, w').

(** [machine->DelayedLoad(0, 0)] of [CheckIfDue]. *)
Definition DelayedLoad0 w : outcome (Computer E) := m ← DelayedLoad (cpu w) 0 0; Ok (with_cpu w m).

Variable call : Z → Z → Interrupt * Computer E → outcome (Interrupt * Computer E).   (* the device handlers *)
Variable ticks : nat.     (* bound on the interrupts served by one tick *)

(** [Yield] ends by turning interrupts on again, which is a tick of the clock
    of its own, with the yield that this tick may ask for; [fuel] bounds that
    nesting. *)
Fixpoint Thread_Yield (fuel : nat) (s : Interrupt * Computer E) : outcome (Interrupt * Computer E) :=
  match fuel with
  | O => Blocked
  | S fuel' =>
      '(oldLevel, (i, w)) ← SetLevel call DelayedLoad0 (Thread_Yield fuel') ticks IntOff s;
      match current (c_sys w) with
      | None => Fault
      | Some this =>
          '(i1, w1) ← (match FindNextToRun (c_sys w) with
                       | (Some nextThread, sys1) => Scheduler_Run nextThread (i, with_sys w (ReadyToRun sys1 this))
                       | (None, sys1) => Ok (i, with_sys w sys1)
                       end);
          '(_, s') ← SetLevel call DelayedLoad0 (Thread_Yield fuel') ticks oldLevel (i1, w1);
          Ok s'
      end
  end.

Variable ExceptionHandler : ExceptionType → Machine → outcome Machine.
Variable fuel : nat.

(** One turn of the loop of [Machine::Run]. *)
Definition turn : M (Interrupt * Computer E) unit := λ '(i, w),
  m ← OneInstruction ExceptionHandler (cpu w);
  OneTick call DelayedLoad0 (Thread_Yield fuel) ticks (i, with_cpu w m).
Fixpoint turns (n : nat) : M (Interrupt * Computer E) unit :=
  match n with O => mret () | S n' => _ ← turn; turns n' end.
(** [Machine::Run] up to its [n]th turn. *)
Definition Machine_Run (n : nat) : M (Interrupt * Computer E) unit := λ '(i, w),
  turns n (set_int_status i UserMode, w).
End computer.

(** The devices of a machine whose only device is the timer: every handler is
    the timer's, and [Random()] draws from a seed. *)
Definition timer_call {W} (Random : W → Z * W) (hdl this : Z) (tm : Timer) (f a : Z) : Interrupt * W → outcome (Interrupt * W) :=
  TimerExpired Random hdl this tm.
Definition RandomW {E} (rnd : E → Z * E) (w : Computer E) : Z * Computer E := let '(r, e) := rnd (c_dev w) in (r, with_dev w e).

(** ** The state between two turns *)
Section sharing.
Context {E : Type}.
Implicit Types w : Computer E.

(** The registers of the user program of [t]: in the machine while [t] runs. *)
Definition user_regs w (t : Z) : option (list Z) :=
  if decide (current (c_sys w) = Some t) then Some (registers (cpu w)) else c_regs w !! t.

Record shared w : Prop := mkShared {
  sh_vm : vm_wf (c_vm w);
  sh_tlb : tlb (cpu w) = None;
  sh_space t a : c_space w !! t = Some a → is_Some (spaces (c_vm w) !! a);
  sh_current : ∃ t a s, current (c_sys w) = Some t ∧ c_space w !! t = Some a ∧ spaces (c_vm w) !! a = Some s ∧
    pageTable (cpu w) = Some (as_pageTable s) ∧ pageTableSize (cpu w) = numPages s;
  sh_regs t : is_Some (c_space w !! t) → ∃ r, user_regs w t = Some r ∧ length r = Z.to_nat NumTotalRegs;
  sh_ready t : t ∈ readyList (c_sys w) → is_Some (c_space w !! t)
}.

(** The process [a] is in the same state: the registers of its threads, its
    page table and the bytes of its frames. *)
Record same_process (a : nat) w1 w2 : Prop := mkSameProcess {
  sp_space : c_space w2 = c_space w1;
  sp_table : ∃ s pt, spaces (c_vm w1) !! a = Some s ∧ spaces (c_vm w2) !! a = Some s ∧
    ptables (cpu w1) !! as_pageTable s = Some pt ∧ ptables (cpu w2) !! as_pageTable s = Some pt ∧
    ∀ e x, e ∈ pt → in_frame (physicalPage e) x → mem_byte (cpu w2) x = mem_byte (cpu w1) x;
  sp_regs t : c_space w1 !! t = Some a → user_regs w2 t = user_regs w1 t
}.
(** Every process is. *)
Definition undisturbed w w' : Prop := ∀ a, is_Some (spaces (c_vm w) !! a) → same_process a w w'.

Lemma same_process_sym a w1 w2 : same_process a w1 w2 → same_process a w2 w1.
Proof.
  intros [H1 (s & pt & A1 & A2 & T1 & T2 & B) R]. constructor; [done| |].
  - exists s, pt. split_and!; try done. intros e x He Hx. symmetry. by eapply B.
  - intros t Ht. symmetry. apply R. by rewrite <- H1.
Qed.
Lemma same_process_trans a w1 w2 w3 : same_process a w1 w2 → same_process a w2 w3 → same_process a w1 w3.
Proof.
  intros [H1 (s & pt & A1 & A2 & T1 & T2 & B) R] [H1' (s' & pt' & A1' & A2' & T1' & T2' & B') R'].
  assert (s' = s) as -> by congruence. assert (pt' = pt) as -> by congruence. constructor; [congruence| |].
  - exists s, pt. split_and!; try done. intros e x He Hx. rewrite (B' e x), (B e x); done.
  - intros t Ht. rewrite R', R; [done|done|congruence].
Qed.
Lemma undisturbed_refl w : shared w → undisturbed w w.
Proof.
  intros Hw a [s Hs]. destruct (vw_tables _ (sh_vm _ Hw) a s Hs) as (pt & Hpt & _). constructor; [done| |done].
  exists s, pt. by split_and!.
Qed.
Lemma undisturbed_trans w1 w2 w3 : undisturbed w1 w2 → undisturbed w2 w3 → undisturbed w1 w3.
Proof.
  intros H1 H2 a Ha. specialize (H1 a Ha). eapply same_process_trans; [done|]. apply H2.
  destruct H1 as [_ (s & _ & _ & A & _) _]. by exists s.
Qed.

(** Two states that agree on memory, page tables, processes and registers. *)
Lemma undisturbed_same w w' : shared w → c_space w' = c_space w → spaces (c_vm w') = spaces (c_vm w) →
  mainMemory (cpu w') = mainMemory (cpu w) → ptables (cpu w') = ptables (cpu w) →
  (∀ t, is_Some (c_space w !! t) → user_regs w' t = user_regs w t) → undisturbed w w'.
Proof.
  intros Hw E1 E2 E3 E4 E5 a [s Hs]. destruct (vw_tables _ (sh_vm _ Hw) a s Hs) as (pt & Hpt & _).
  constructor; [done| |by intros t Ht; apply E5; exists a].
  exists s, pt. rewrite E2, E4. split_and!; try done. intros e x _ _. unfold mem_byte. by rewrite E3.
Qed.

Lemma vm_wf_machine v m : ptables m = ptables (vm_machine v) → vm_wf v → vm_wf (with_machine v m).
Proof.
  intros Ep [H1 H2 H3 H4 H5 H6 H7].
  assert (∀ a i f, owns (with_machine v m) a i f → owns v a i f) as Ho.
  { intros a i f (s & pt & e & Hs & Hpt & He & Hf). exists s, pt, e. cbn in Hpt. rewrite Ep in Hpt. done. }
  constructor; try done; cbn; rewrite ?Ep; try done.
  - intros a i f Hf%Ho. by apply (H6 a i f).
  - intros a i b j f Ha%Ho Hb%Ho. by apply (H7 a i b j f).
Qed.

(** ** The context switch *)
Lemma switch_spec t w : shared w → is_Some (c_space w !! t) → ∃ w', switch t w = Ok w' ∧ shared w' ∧ undisturbed w w' ∧
  c_sys w' = Run (c_sys w) t ∧ c_dev w' = c_dev w ∧ mainMemory (cpu w') = mainMemory (cpu w).
Proof.
  intros Hw [a Ha]. pose proof Hw as [Hvm Htlb Hsp (o & b & s & Ho & Hb & Hs & Hp & Hn) Hr Hrd].
  destruct (Hr o) as (ro & Hro & Lo); [by rewrite Hb|]. unfold user_regs in Hro. rewrite decide_True in Hro by done. injection Hro as <-.
  unfold switch, save_state. rewrite Ho, Hb, SaveUserState_all by (done || lia). cbn [mbind outcome_bind]. change (drop (Z.to_nat 0) ?x) with x.
  assert (∃ r, <[o:=registers (cpu w)]> (c_regs w) !! t = Some r ∧ length r = Z.to_nat NumTotalRegs ∧ user_regs w t = Some r) as (r & Et & Lr & Eu).
  { destruct (decide (o = t)) as [->|Hne].
    - rewrite lookup_insert_eq. exists (registers (cpu w)). split_and!; try done. unfold user_regs. by rewrite decide_True.
    - rewrite lookup_insert_ne by done. destruct (Hr t) as (r & E1 & E2); [by rewrite Ha|]. exists r. split_and!; try done.
      unfold user_regs in E1. rewrite decide_False in E1; [done|congruence]. }
  destruct (Hsp t a Ha) as [sa Hsa].
  unfold restore_state. cbn [with_sys with_regs c_sys c_space c_regs current Run set_tstatus set_current c_vm]. rewrite Ha, Et.
  cbn [mbind outcome_bind]. rewrite RestoreUserState_all by (done || (unfold cpu in *; cbn in *; lia)). cbn [mbind outcome_bind]. unfold RestoreState, get_space.
  cbn [with_machine spaces]. rewrite Hsa. cbn [mbind outcome_bind]. eexists. split; [reflexivity|].
  match goal with |- shared ?x ∧ _ => set (w' := x) end.
  assert (∀ u, is_Some (c_space w !! u) → user_regs w' u = user_regs w u) as Hur.
  { intros u Hu. unfold user_regs at 1. cbn [w' c_sys with_c_vm with_sys with_regs current Run set_tstatus set_current c_regs].
    case_decide as Ec; [injection Ec as <-; by rewrite Eu|]. unfold user_regs. case_decide as Ec'.
    - rewrite Ho in Ec'. injection Ec' as ->. by rewrite lookup_insert_eq.
    - apply lookup_insert_ne. congruence. }
  split; [|split; [|done]].
  - constructor; try done.
    + apply vm_wf_machine; [done|]. by apply vm_wf_machine.
    + exists t, a, sa. split_and!; done.
    + intros u Hu. destruct (Hr u Hu) as (x & E1 & E2). exists x. split; [|done]. by rewrite Hur.
  - apply undisturbed_same; done.
Qed.
End sharing.

(** ** Steps of the running program *)
Section running.
Context {E : Type}.
Implicit Types w : Computer E.

(** The running thread and its process. *)
Definition runs_in w (t : Z) (a : nat) : Prop := current (c_sys w) = Some t ∧ c_space w !! t = Some a.

Lemma shared_mmu w : shared w → mmu_wf (cpu w).
Proof.
  intros [Hvm Htlb _ (t & a & s & _ & _ & Hs & Hp & Hn) _ _].
  replace (cpu w) with (set_pageTable (vm_machine (c_vm w)) (Some (as_pageTable s)) (numPages s)); [by eapply space_mmu|].
  unfold set_pageTable. rewrite <- Hp, <- Hn. unfold cpu. by destruct (vm_machine _).
Qed.
Lemma shared_space w t a : shared w → runs_in w t a → ∃ s pt, spaces (c_vm w) !! a = Some s ∧ pageTable (cpu w) = Some (as_pageTable s) ∧
  ptables (cpu w) !! as_pageTable s = Some pt.
Proof.
  intros [Hvm _ _ (t' & a' & s & Ht & Ha & Hs & Hp & _) _ _] [Ht' Ha']. assert (t' = t) as -> by congruence. assert (a' = a) as -> by congruence.
  destruct (vw_tables _ Hvm a s Hs) as (pt & Hpt & _). by exists s, pt.
Qed.
Lemma own_byte_owner w t a x : shared w → runs_in w t a → own_byte (cpu w) x ↔ ∃ i f, owns (c_vm w) a i f ∧ in_frame f x.
Proof.
  intros Hw Hr. destruct (shared_space w t a Hw Hr) as (s & pt & Hs & Hp & Hpt). split.
  - intros (p & qt & e & H1 & H2 & He & Hx). apply list_elem_of_lookup in He as [i Hi]. exists i, (physicalPage e). split; [|done].
    assert (p = as_pageTable s) as -> by congruence. by exists s, qt, e.
  - intros (i & f & (s' & qt & e & H1 & H2 & He & <-) & Hx). assert (s' = s) as -> by congruence.
    exists (as_pageTable s), qt, e. split_and!; try done. by eapply list_elem_of_lookup_2.
Qed.

Lemma confined_shared w m : shared w → confined (cpu w) m → shared (with_cpu w m).
Proof.
  intros Hw Hc. pose proof Hw as [Hvm Htlb Hsp Hcur Hr Hrd]. pose proof Hc as [_ Hl Ht [Hp Hn] _ _ _].
  assert (vm_wf (with_machine (c_vm w) m)) as Hvm'.
  { apply (vm_wf_machine (with_machine (c_vm w) (set_regs m (registers (cpu w)))) m); [done|].
    apply vm_wf_tables; [|done]. by apply confined_tables. }
  constructor; try done; cbn.
  - congruence.
  - destruct Hcur as (t & a & s & H1 & H2 & H3 & H4 & H5). exists t, a, s. split_and!; try done; cbn; congruence.
  - intros t Ht'. destruct (Hr t Ht') as (r & H1 & H2). unfold user_regs in *. cbn. case_decide; [|by exists r].
    injection H1 as <-. exists (registers m). split; [done|congruence].
Qed.

(** A confined step of one process is invisible to the others. *)
Lemma confined_others w m t a b : shared w → runs_in w t a → confined (cpu w) m → b ≠ a → is_Some (spaces (c_vm w) !! b) →
  same_process b w (with_cpu w m).
Proof.
  intros Hw Hr Hc Hne [s Hs]. pose proof Hw as [Hvm _ _ _ _ _]. destruct (vw_tables _ Hvm b s Hs) as (pt & Hpt & _).
  destruct (shared_space w t a Hw Hr) as (sa & pa & Hsa & Hpa & Hpta).
  constructor; [done| |].
  - exists s, pt. cbn. split_and!; try done.
    + rewrite (cf_others _ _ Hc); [done|]. rewrite Hpa. intros [= E1]. apply Hne. by apply (vw_dist _ Hvm b a s sa).
    + intros e x He Hx. apply (cf_bytes _ _ Hc). rewrite (own_byte_owner w t a) by done. intros (i & f & Ho & Hx').
      assert (f = physicalPage e) as -> by by eapply frames_disjoint. apply list_elem_of_lookup in He as [j Hj].
      destruct (vw_excl _ Hvm a i b j (physicalPage e)) as [-> _]; [done|by exists s, pt, e|done].
  - intros u Hu. unfold user_regs. cbn. destruct Hr as [Hr1 Hr2]. rewrite Hr1. case_decide as Hd; [|done].
    injection Hd as ->. congruence.
Qed.

Lemma same_agree w1 w2 t a : shared w1 → shared w2 → runs_in w1 t a → runs_in w2 t a → same_process a w1 w2 → agree (cpu w1) (cpu w2).
Proof.
  intros H1 H2 R1 R2 [_ (s & pt & A1 & A2 & T1 & T2 & B) R].
  destruct (shared_space w1 t a H1 R1) as (s1 & pt1 & S1 & P1 & _). destruct (shared_space w2 t a H2 R2) as (s2 & pt2 & S2 & P2 & _).
  assert (s1 = s) as -> by congruence. assert (s2 = s) as -> by congruence.
  constructor; [by apply shared_mmu|by apply shared_mmu| |congruence| |].
  - specialize (R t (proj2 R1)). unfold user_regs in R. rewrite !decide_True in R by (apply R1 || apply R2). congruence.
  - intros p Hp. assert (p = as_pageTable s) as -> by congruence. congruence.
  - intros x (p & qt & e & Hp & Hq & He & Hx). assert (p = as_pageTable s) as -> by congruence.
    assert (qt = pt) as -> by congruence. by apply (B e).
Qed.
(** The same step of the same process in two states. *)
Lemma related_same w1 w2 m1 m2 t a : shared w1 → shared w2 → runs_in w1 t a → runs_in w2 t a → same_process a w1 w2 →
  related (cpu w1) (cpu w2) m1 m2 → same_process a (with_cpu w1 m1) (with_cpu w2 m2).
Proof.
  intros H1 H2 R1 R2 Hs (Ha & C1 & C2). pose proof Hs as [Hsp (s & pt & A1 & A2 & T1 & T2 & B) R].
  destruct (shared_space w1 t a H1 R1) as (s1 & pt1 & S1 & P1 & _). assert (s1 = s) as -> by congruence.
  destruct (cf_own _ _ C1 (as_pageTable s) pt P1 T1) as (pt' & T1' & _).
  assert (pageTable m1 = Some (as_pageTable s)) as P1' by (destruct (cf_page _ _ C1); congruence).
  constructor; [done| |].
  - exists s, pt'. cbn. split_and!; try done; [by rewrite (ag_table _ _ Ha)|].
    intros e x He Hx. apply (ag_bytes _ _ Ha). by exists (as_pageTable s), pt', e.
  - intros u Hu. specialize (R u Hu). unfold user_regs in *. cbn. rewrite (proj1 R1), (proj1 R2) in *. case_decide as Hd; [|done].
    f_equal. apply (ag_regs _ _ Ha).
Qed.
End running.

(** ** The turns of one process alone *)
Section alone.
Context {E : Type}.
Implicit Types w u : Computer E.
Variable h : ExceptionType → Machine → outcome Machine.

(** [k] interrupts, of which the program sees the delayed loads. *)
Fixpoint loads (k : nat) w : outcome (Computer E) :=
  match k with O => Ok w | S k' => w' ← DelayedLoad0 w; loads k' w' end.
(** Thread [t] gets the CPU if it does not have it, executes an instruction
    and is interrupted [k] times. *)
Definition take_cpu (t : Z) w : outcome (Computer E) :=
  if decide (current (c_sys w) = Some t) then Ok w else switch t w.
Definition own_turn (e : Z * nat) w : outcome (Computer E) :=
  w1 ← take_cpu e.1 w; m ← OneInstruction h (cpu w1); loads e.2 (with_cpu w1 m).
Fixpoint alone (es : list (Z * nat)) w : outcome (Computer E) :=
  match es with [] => Ok w | e :: es' => w' ← own_turn e w; alone es' w' end.

Hypothesis local : ∀ b1 b2, local_handler b1 b2 h.

Lemma with_cpu_twice w m m' : with_cpu (with_cpu w m) m' = with_cpu w m'.
Proof. done. Qed.

(** A function of the machine that keeps the relation, as the instruction and
    the delayed load do. *)
Definition confined_op (f : Machine → outcome Machine) : Prop :=
  ∀ b1 b2 m1 m2, related b1 b2 m1 m2 → orel (related b1 b2) (f m1) (f m2).
Lemma instruction_op : confined_op (OneInstruction h).
Proof using local. intros b1 b2 m1 m2. by apply related_OneInstruction. Qed.
Lemma load_op : confined_op (λ m, DelayedLoad m 0 0).
Proof. intros b1 b2 m1 m2. apply related_DelayedLoad. Qed.

Lemma op_others f w m t a : confined_op f → shared w → runs_in w t a → f (cpu w) = Ok m →
  shared (with_cpu w m) ∧ ∀ b, b ≠ a → is_Some (spaces (c_vm w) !! b) → same_process b w (with_cpu w m).
Proof.
  intros Hf Hw Hr E1. pose proof (shared_mmu w Hw) as Wf.
  specialize (Hf (cpu w) (cpu w) (cpu w) (cpu w)). rewrite E1 in Hf.
  destruct Hf as (_ & Hc & _); [split; [by apply agree_refl|]; split; by apply confined_refl|].
  split; [by apply confined_shared|]. intros b Hb Hsb. by eapply confined_others.
Qed.
Lemma op_same f w u m t a : confined_op f → shared w → shared u → runs_in w t a → runs_in u t a → same_process a w u →
  f (cpu w) = Ok m → ∃ m', f (cpu u) = Ok m' ∧ shared (with_cpu u m') ∧ same_process a (with_cpu w m) (with_cpu u m').
Proof.
  intros Hf Hw Hu Rw Ru Hs E1. pose proof (shared_mmu w Hw) as Ww. pose proof (shared_mmu u Hu) as Wu.
  destruct (orel_Ok _ _ _ m (Hf (cpu w) (cpu u) (cpu w) (cpu u) ltac:(split; [by eapply same_agree|split; by apply confined_refl])) E1)
    as (m' & E2 & Hr). exists m'. split; [done|]. split; [|by eapply related_same].
  apply confined_shared; [done|]. by destruct Hr as (_ & _ & Hc).
Qed.

Lemma loads_others k w w' t a : shared w → runs_in w t a → loads k w = Ok w' →
  shared w' ∧ runs_in w' t a ∧ spaces (c_vm w') = spaces (c_vm w) ∧ c_space w' = c_space w ∧ c_sys w' = c_sys w ∧ c_dev w' = c_dev w ∧
  ∀ b, b ≠ a → is_Some (spaces (c_vm w) !! b) → same_process b w w'.
Proof.
  revert w. induction k as [|k IH]; intros w Hw Hr HE; cbn [loads] in HE.
  { injection HE as <-. split_and!; try done; [apply Hr..|]. intros b _ Hb. by apply undisturbed_refl. }
  apply bind_Ok_inv in HE as (w1 & E1 & E2). unfold DelayedLoad0 in E1. apply bind_Ok_inv in E1 as (m & E1 & [= <-]).
  destruct (op_others _ w m t a load_op Hw Hr E1) as [Hw1 Hs1]. destruct (IH (with_cpu w m) Hw1 Hr E2) as (A & B & C & D & F & G & I).
  split_and!; try done; [apply B..|]. intros b Hb Hsb. eapply same_process_trans; [by apply Hs1|]. by apply I.
Qed.
Lemma loads_same k w u w' t a : shared w → shared u → runs_in w t a → runs_in u t a → same_process a w u → loads k w = Ok w' →
  ∃ u', loads k u = Ok u' ∧ shared u' ∧ same_process a w' u'.
Proof.
  revert w u. induction k as [|k IH]; intros w u Hw Hu Rw Ru Hs HE; cbn [loads] in *.
  { injection HE as <-. by exists u. }
  apply bind_Ok_inv in HE as (w1 & E1 & E2). unfold DelayedLoad0 in E1. apply bind_Ok_inv in E1 as (m & E1 & [= <-]).
  destruct (op_same _ w u m t a load_op Hw Hu Rw Ru Hs E1) as (m' & E3 & Hu' & Hs'). unfold DelayedLoad0 at 1. rewrite E3. cbn [mbind outcome_bind].
  apply (IH (with_cpu w m)); try done. by apply (op_others _ w m t a load_op).
Qed.

Lemma own_turn_others w t a k w' : shared w → runs_in w t a → own_turn (t, k) w = Ok w' →
  shared w' ∧ runs_in w' t a ∧ spaces (c_vm w') = spaces (c_vm w) ∧ c_space w' = c_space w ∧
  ∀ b, b ≠ a → is_Some (spaces (c_vm w) !! b) → same_process b w w'.
Proof using local.
  intros Hw Hr HE. unfold own_turn, take_cpu in HE. cbn [fst snd] in HE. rewrite decide_True in HE by apply Hr. cbn [mbind outcome_bind] in HE.
  apply bind_Ok_inv in HE as (m & E1 & E2). destruct (op_others _ w m t a instruction_op Hw Hr E1) as [Hw1 Hs1].
  destruct (loads_others k (with_cpu w m) w' t a Hw1 Hr E2) as (A & B & C & D & _ & _ & I).
  split_and!; try done; [apply B..|]. intros b Hb Hsb. eapply same_process_trans; [by apply Hs1|]. by apply I.
Qed.
Lemma own_turn_same w u t a k w' : shared w → shared u → runs_in w t a → same_process a w u → own_turn (t, k) w = Ok w' →
  ∃ u', own_turn (t, k) u = Ok u' ∧ shared u' ∧ same_process a w' u'.
Proof using local.
  intros Hw Hu Rw Hs HE. unfold own_turn in HE. cbn [fst snd] in HE. unfold take_cpu in HE. rewrite decide_True in HE by apply Rw.
  cbn [mbind outcome_bind] in HE. apply bind_Ok_inv in HE as (m & E1 & E2).
  assert (c_space u !! t = Some a) as Ru by (rewrite (sp_space _ _ _ Hs); apply Rw).
  assert (∃ u1, take_cpu t u = Ok u1 ∧ shared u1 ∧ runs_in u1 t a ∧ same_process a w u1) as (u1 & Et & Hu1 & Ru1 & Hs1).
  { unfold take_cpu. case_decide as Hc; [by exists u|].
    destruct (switch_spec t u Hu) as (u1 & E3 & Hu1 & Hun & Esys & _); [by exists a|]. exists u1. split; [done|]. split; [done|].
    assert (same_process a u u1) as Hx by (apply Hun; by apply (sh_space _ Hu t)).
    split; [|by eapply same_process_trans]. split; [by rewrite Esys|]. by rewrite (sp_space _ _ _ Hx). }
  unfold own_turn. cbn [fst snd]. rewrite Et. cbn [mbind outcome_bind].
  destruct (op_same _ w u1 m t a instruction_op Hw Hu1 Rw Ru1 Hs1 E1) as (m' & -> & Hu2 & Hs2). cbn [mbind outcome_bind].
  apply (loads_same k (with_cpu w m) (with_cpu u1 m') w' t a); try done. by apply (op_others _ w m t a instruction_op).
Qed.
End alone.

(** ** A tick of the clock *)
Section ticking.
Context {E : Type}.
Implicit Types (i : Interrupt) (w : Computer E).
Variable call : Z → Z → Interrupt * Computer E → outcome (Interrupt * Computer E).
(** The device handlers change the devices (and the pending interrupts). *)
Definition quiet_devices : Prop := ∀ f a i w i' w', call f a (i, w) = Ok (i', w') → w' = with_dev w (c_dev w').
Hypothesis quiet : quiet_devices.

(** [k] delayed loads and a change of the devices. *)
Definition served (k : nat) w w' : Prop := ∃ w1, loads k w = Ok w1 ∧ w' = with_dev w1 (c_dev w').

Lemma with_dev_dev w : with_dev w (c_dev w) = w.
Proof. by destruct w. Qed.
Lemma loads_dev k w w1 e : loads k w = Ok w1 → loads k (with_dev w e) = Ok (with_dev w1 e).
Proof.
  revert w. induction k as [|k IH]; intros w H; cbn [loads] in *; [by injection H as <-|].
  apply bind_Ok_inv in H as (w2 & E1 & E2). unfold DelayedLoad0 in E1. apply bind_Ok_inv in E1 as (m & E1 & [= <-]).
  unfold DelayedLoad0 at 1. change (cpu (with_dev w e)) with (cpu w). rewrite E1. cbn [mbind outcome_bind].
  exact (IH (with_cpu w m) E2).
Qed.
Lemma served_refl w : served 0 w w.
Proof. exists w. split; [done|]. by rewrite with_dev_dev. Qed.
Lemma loads_app j k w w1 w2 : loads j w = Ok w1 → loads k w1 = Ok w2 → loads (j + k) w = Ok w2.
Proof.
  revert w. induction j as [|j IH]; intros w H1 H2; cbn [loads Nat.add] in *; [by injection H1 as ->|].
  apply bind_Ok_inv in H1 as (w3 & -> & E2). cbn [mbind outcome_bind]. by apply IH.
Qed.
Lemma served_trans j k w1 w2 w3 : served j w1 w2 → served k w2 w3 → served (j + k) w1 w3.
Proof.
  intros (x & E1 & ->) (y & E2 & ->). exists (with_dev y (c_dev x)). split; [|by destruct y].
  eapply loads_app; [done|]. apply (loads_dev k _ _ (c_dev x)) in E2. by destruct x.
Qed.

Lemma CheckIfDue_served b i w r i' w' : CheckIfDue call DelayedLoad0 b (i, w) = Ok (r, (i', w')) →
  int_status i' = int_status i ∧ ∃ k, served k w w' ∧ (int_status i ≠ UserMode → k = 0%nat).
Proof using quiet.
  unfold CheckIfDue. intros H. apply bind_Ok_inv in H as (_ & _ & H).
  apply bind_Ok_inv in H as ([[o c] l] & _ & H). destruct o as [[p wh]|]; [|injection H as <- <- <-; split; [done|]; exists 0%nat; split; [apply served_refl|done]].
  assert (∀ i0, int_status i0 = int_status i →
    ('(c', l') ← SortedInsert (pheap i0) (pending i0) p wh; Ok (false, (set_pending i0 c' l', w))) = Ok (r, (i', w')) →
    int_status i' = int_status i ∧ ∃ k, served k w w' ∧ (int_status i ≠ UserMode → k = 0%nat)) as Hback.
  { intros i0 Hi0 H0. apply bind_Ok_inv in H0 as ([c' l'] & _ & [= <- <- <-]). split; [done|]. exists 0%nat. split; [apply served_refl|done]. }
  assert (∀ i0, int_status i0 = int_status i →
    (w1 ← (if bool_decide (int_status i0 = UserMode) then DelayedLoad0 w else Ok w);
     '(i2, w2) ← call (handler p) (Interrupt.arg p) (set_int_status (set_inHandler i0 true) SystemMode, w1);
     Ok (true, (set_inHandler (set_int_status i2 (int_status i)) false, w2))) = Ok (r, (i', w')) →
    int_status i' = int_status i ∧ ∃ k, served k w w' ∧ (int_status i ≠ UserMode → k = 0%nat)) as Hfire.
  { intros i0 Hi0 H0. apply bind_Ok_inv in H0 as (w1 & E1 & H0). apply bind_Ok_inv in H0 as ([i2 w2] & E2 & [= <- <- <-]). split; [done|].
    apply quiet in E2. rewrite Hi0 in E1. case_bool_decide.
    - exists 1%nat. split; [|done]. exists w1. split; [|done]. cbn [loads]. rewrite E1. done.
    - injection E1 as <-. exists 0%nat. split; [|done]. by exists w. }
  repeat match type of H with (if ?c then _ else _) = _ => destruct c end;
    first [by eapply Hback; [|exact H] | by eapply Hfire; [|exact H]].
Qed.
Lemma drain_served n i w i' w' : drain call DelayedLoad0 n (i, w) = Ok (tt, (i', w')) →
  int_status i' = int_status i ∧ ∃ k, served k w w' ∧ (int_status i ≠ UserMode → k = 0%nat).
Proof using quiet.
  revert i w. induction n as [|n IH]; intros i w H; cbn [drain] in H; [done|].
  apply bind_Ok_inv in H as ([b [i1 w1]] & E1 & H). apply CheckIfDue_served in E1 as (Hs & k & Hk & Hz). destruct b.
  - apply IH in H as (Hs2 & k2 & Hk2 & Hz2). split; [congruence|]. exists (k + k2)%nat. split; [by eapply served_trans|].
    intros Hu. rewrite Hz, Hz2; (done || congruence).
  - injection H as <- <-. split; [done|]. by exists k.
Qed.

(** What happens to the processes while the kernel runs. *)
Definition aside w w' : Prop := shared w' ∧ undisturbed w w' ∧ c_space w' = c_space w ∧ dom (spaces (c_vm w')) = dom (spaces (c_vm w)).

Lemma aside_trans w1 w2 w3 : aside w1 w2 → aside w2 w3 → aside w1 w3.
Proof. intros (_ & U1 & S1 & D1) (H & U2 & S2 & D2). split_and!; [done| |congruence..]. by eapply undisturbed_trans. Qed.
Lemma aside_sys w sys : shared w → current sys = current (c_sys w) → (∀ t, t ∈ readyList sys → is_Some (c_space w !! t)) →
  aside w (with_sys w sys).
Proof.
  intros Hw Hc Hr. pose proof Hw as [H1 H2 H3 H4 H5 H6].
  assert (∀ t, user_regs (with_sys w sys) t = user_regs w t) as Hu by (intros t; unfold user_regs; cbn; by rewrite Hc).
  split_and!; try done; [constructor; try done|apply undisturbed_same; by try done].
  - cbn. rewrite Hc. done.
  - intros t Ht. rewrite Hu. by apply H5.
Qed.
Lemma aside_dev w e : shared w → aside w (with_dev w e).
Proof. intros Hw. pose proof Hw as [H1 H2 H3 H4 H5 H6]. split_and!; try done. by apply undisturbed_same. Qed.
Lemma aside_switch t w w' : shared w → is_Some (c_space w !! t) → switch t w = Ok w' → aside w w'.
Proof.
  intros Hw Ht HE. destruct (switch_spec t w Hw Ht) as (w2 & E2 & H2 & U2 & _). assert (w2 = w') as -> by congruence.
  pose proof (sh_current _ Hw) as (o & b & s & _ & _ & Hs & _). split_and!; try done.
  - by destruct (U2 b ltac:(by exists s)).
  - unfold switch, save_state, restore_state in HE. inv_ok. repeat case_match; inv_ok; unfold RestoreState in *; inv_ok; done.
Qed.
End ticking.

Section yielding.
Context {E : Type}.
Implicit Types (i : Interrupt) (w : Computer E).
Variable call : Z → Z → Interrupt * Computer E → outcome (Interrupt * Computer E).
Variable ticks : nat.
Hypothesis quiet : quiet_devices call.

Lemma shared_runs w : shared w → ∃ t a, runs_in w t a.
Proof. intros [_ _ _ (t & a & s & H1 & H2 & _) _ _]. by exists t, a. Qed.
Lemma served_aside k w w' : shared w → served k w w' → ∃ w1, loads k w = Ok w1 ∧ aside w1 w'.
Proof.
  intros Hw (w1 & E1 & E2). exists w1. split; [done|]. destruct (shared_runs w Hw) as (t & a & Hr).
  destruct (loads_others k w w1 t a Hw Hr E1) as (Hw1 & _). rewrite E2. by apply aside_dev.
Qed.

(** What is asked of the yield at the end of a tick. *)
Definition yields_aside (Y : Interrupt * Computer E → outcome (Interrupt * Computer E)) : Prop :=
  ∀ i w i' w', int_status i = SystemMode → shared w → Y (i, w) = Ok (i', w') → int_status i' = SystemMode ∧ aside w w'.

Lemma OneTick_aside Y i w i' w' : yields_aside Y → shared w → OneTick call DelayedLoad0 Y ticks (i, w) = Ok (tt, (i', w')) →
  int_status i' = int_status i ∧ ∃ k w1, loads k w = Ok w1 ∧ (int_status i ≠ UserMode → k = 0%nat) ∧ aside w1 w'.
Proof using quiet.
  intros HY Hw H. unfold OneTick in H. apply bind_Ok_inv in H as ([[] [i2 w2]] & E1 & H).
  apply (drain_served call quiet) in E1 as (Hs & k & Hk & Hz).
  assert (int_status (ChangeLevel (advance_tick i) IntOn IntOff) = int_status i) as Ei by (unfold advance_tick; by case_bool_decide).
  rewrite Ei in Hs, Hz. destruct (served_aside k w w2 Hw Hk) as (w1 & El & Ha).
  destruct (yieldOnReturn (ChangeLevel i2 IntOff IntOn)).
  - apply bind_Ok_inv in H as ([i4 w4] & E4 & [= <- <-]). split; [done|]. exists k, w1. split_and!; try done.
    apply HY in E4 as [_ Ha2]; [|done|by destruct Ha]. by eapply aside_trans.
  - injection H as <- <-. split; [done|]. exists k, w1. by split_and!.
Qed.

Lemma SetLevel_aside Y now i w old i' w' : yields_aside Y → int_status i = SystemMode → shared w →
  SetLevel call DelayedLoad0 Y ticks now (i, w) = Ok (old, (i', w')) → int_status i' = SystemMode ∧ aside w w'.
Proof using quiet.
  intros HY Hi Hw H. unfold SetLevel in H. apply bind_Ok_inv in H as (_ & _ & H).
  destruct (bool_decide (now = IntOn) && bool_decide (level i = IntOff)).
  - apply bind_Ok_inv in H as ([[] [i2 w2]] & E2 & H). injection H as <- <- <-.
    apply OneTick_aside in E2 as (Hs & k & w1 & El & Hz & Ha); [|done|done].
    cbn [ChangeLevel set_level int_status] in Hs, Hz. rewrite Hz in El by congruence. cbn in El. injection El as <-. split; [congruence|done].
  - injection H as <- <- <-. split; [done|]. split_and!; [done|by apply undisturbed_refl|done|done].
Qed.

Lemma Thread_Yield_aside fuel : yields_aside (Thread_Yield call ticks fuel).
Proof using quiet.
  induction fuel as [|fuel IH]; intros i w i' w' Hi Hw H; [done|]. cbn [Thread_Yield] in H.
  apply bind_Ok_inv in H as ([old [i1 w1]] & E1 & H). apply SetLevel_aside in E1 as [Hi1 Ha1]; [|done..].
  pose proof Ha1 as (Hw1 & _). destruct (current (c_sys w1)) as [this|] eqn:Ec; [|done].
  apply bind_Ok_inv in H as ([i2 w2] & E2 & H). assert (i2 = i1 ∧ aside w1 w2) as [-> Ha2].
  { unfold FindNextToRun in E2. pose proof (sh_ready _ Hw1) as Hr. destruct (readyList (c_sys w1)) as [|t q] eqn:Er.
    - injection E2 as <- <-. split; [done|]. by apply aside_sys; rewrite ?Er.
    - unfold Scheduler_Run in E2. apply bind_Ok_inv in E2 as (_ & _ & E2). apply bind_Ok_inv in E2 as (w3 & E3 & [= <- <-]). split; [done|].
      assert (aside w1 (with_sys w1 (ReadyToRun (set_ready (c_sys w1) q) this))) as Hs.
      { apply aside_sys; [done|done|]. cbn. intros u [Hu|Hu%list_elem_of_singleton]%elem_of_app; [apply Hr; by right|].
        subst u. destruct (sh_current _ Hw1) as (x & a & s & Hx & Ha & _). rewrite Ec in Hx. injection Hx as ->. by exists a. }
      eapply aside_trans; [done|]. apply (aside_switch t); [by destruct Hs| |done]. cbn. apply Hr. by left. }
  apply bind_Ok_inv in H as ([old2 [i3 w3]] & E3 & H). injection H as <- <-.
  destruct Ha2 as (Hw2 & Ha2). apply SetLevel_aside in E3 as [Hi3 Ha3]; [|done..]. split; [done|].
  eapply aside_trans; [done|]. by eapply aside_trans.
Qed.

Variable h : ExceptionType → Machine → outcome Machine.
Hypothesis local : ∀ b1 b2, local_handler b1 b2 h.
Variable fuel : nat.

Lemma turn_is_own i w i' w' : shared w → turn call ticks h fuel (i, w) = Ok (tt, (i', w')) →
  ∃ t a k w1, runs_in w t a ∧ own_turn h (t, k) w = Ok w1 ∧ aside w1 w'.
Proof using quiet local.
  intros Hw H. unfold turn in H. apply bind_Ok_inv in H as (m & E1 & H). destruct (shared_runs w Hw) as (t & a & Hr).
  destruct (op_others _ w m t a (instruction_op h local) Hw Hr E1) as [Hw1 _].
  apply OneTick_aside in H as (_ & k & w1 & El & _ & Ha); [|apply Thread_Yield_aside|done].
  exists t, a, k, w1. split; [done|]. split; [|done]. unfold own_turn, take_cpu. cbn [fst snd].
  rewrite decide_True by apply Hr. cbn [mbind outcome_bind]. rewrite E1. done.
Qed.

(** The processes after some turns: each as if its own turns had run alone. *)
Lemma turns_alone n i w i' w' : shared w → turns call ticks h fuel n (i, w) = Ok (tt, (i', w')) →
  ∃ es, length es = n ∧ ∀ a u, is_Some (spaces (c_vm w) !! a) → shared u → same_process a w u →
    ∃ u', alone h (filter (λ e, c_space w !! e.1 = Some a) es) u = Ok u' ∧ same_process a w' u'.
Proof using quiet local.
  revert i w. induction n as [|n IH]; intros i w Hw H; cbn [turns] in H.
  { injection H as <- <-. exists []. split; [done|]. intros a u _ _ Hs. by exists u. }
  unfold mbind, M_bind in H. destruct (turn call ticks h fuel (i, w)) as [[[] [i1 w1]]| | |] eqn:E1; try done.
  destruct (turn_is_own i w i1 w1 Hw E1) as (t & a & k & w2 & Hr & Eo & (Hw1 & Hu & Hcs & Hdom)).
  destruct (own_turn_others h local w t a k w2 Hw Hr Eo) as (Hw2 & Hr2 & Hsp & Hcs2 & Hoth).
  destruct (IH i1 w1 Hw1 H) as (es & <- & Hes). exists ((t, k) :: es). split; [done|].
  intros b u Hb Hsu Hs. assert (is_Some (spaces (c_vm w1) !! b)) as Hb1 by (apply elem_of_dom; rewrite Hdom, Hsp; by apply elem_of_dom).
  assert (same_process b w2 w1) as Hs21 by (apply Hu; by rewrite Hsp).
  rewrite Hcs, Hcs2 in Hes. destruct Hr as [Hr Hra]. destruct (decide (b = a)) as [->|Hne].
  - rewrite filter_cons_True by done. cbn [alone]. destruct (own_turn_same h local w u t a k w2 Hw Hsu) as (u1 & -> & Hu1 & Hs1); try done.
    cbn [mbind outcome_bind]. apply Hes; [done|done|]. eapply same_process_trans; [by apply same_process_sym|done].
  - rewrite filter_cons_False by (cbn; congruence). apply Hes; [done|done|].
    eapply same_process_trans; [by apply same_process_sym|]. eapply same_process_trans; [apply same_process_sym; by apply Hoth|done].
Qed.
End yielding.

(** C2: Time sharing is invisible to programs that compute.  Let the programs
    make no system call, their traps being served on the machine alone, and the
    handlers of the devices leave machine, threads and processes alone, as the
    timer's does, which only asks for a yield.  Whenever the devices interrupt,
    after [n] turns of [Machine::Run] over any mix of processes there is one
    schedule, the thread of every turn with the number of interrupts it met,
    such that each process is exactly as if only its own turns had been
    executed, one after the other: the registers of its threads (in the machine
    or saved), its page table with the use and dirty bits, every byte of its
    frames.  In particular a thread that lost the CPU resumes with the
    registers, page table and memory it had. *)
Theorem processes_run_alone {E} call ticks h fuel n i (w : Computer E) i' w' :
  quiet_devices call → (∀ b1 b2, local_handler b1 b2 h) → shared w →
  Machine_Run call ticks h fuel n (i, w) = Ok (tt, (i', w')) →
  ∃ schedule, length schedule = n ∧ ∀ a, is_Some (spaces (c_vm w) !! a) →
    ∃ u, alone h (filter (λ e, c_space w !! e.1 = Some a) schedule) w = Ok u ∧ same_process a w' u.
Proof.
  intros Hq Hl Hw H. destruct (turns_alone call ticks Hq h Hl fuel n _ w i' w' Hw H) as (es & Hn & Hes). exists es. split; [done|].
  intros a Ha. apply Hes; [done|done|]. by apply undisturbed_refl.
Qed.

Lemma timer_quiet {E} (rnd : E → Z * E) hdl this tm : quiet_devices (timer_call (RandomW rnd) hdl this tm).
Proof.
  intros f a i w i' w' H. unfold timer_call, TimerExpired, TimeOfNextInterrupt, RandomW in H.
  destruct (randomize tm); [destruct (rnd (c_dev w)) as [r e]|]; inv_ok; [done|by destruct w'].
Qed.

(** Two processes of two pages and one page, with one thread each: both add one
    to register 1 and go on with zeros, the instruction [sll r0, r0, 0].  All
    frames are taken. *)
Definition demo_page (vp f : Z) : TranslationEntry := mkTE vp f true false false false.
Definition demo_space (pid n : Z) (table : nat) : AddrSpace :=
  mkAddrSpace pid n table (n * 128) 0 1 (mkBitMap 0 0 []) [] [] (mkBitMap 0 0 []).
Definition demo_tables : gmap nat (list TranslationEntry) := {[20%nat := [demo_page 0 5; demo_page 1 6]; 21%nat := [demo_page 0 7]]}.
Definition demo_memory : gmap Z Z := {[640 := 1; 642 := 33; 643 := 32; 896 := 1; 898 := 33; 899 := 32]}.
Definition demo_frames : FrameProvider BitMap := mkFrameProvider (mkBitMap 2096 66 (replicate 66 4294967295)) 0 None.
Definition demo_two : VM :=
  mkVM (mkMachine demo_memory (replicate 40 0) None (Some 20%nat) 2 demo_tables UserMode) demo_frames 30 (mkBitMap 0 0 []) 0
    {[10%nat := demo_space 0 2 20; 11%nat := demo_space 1 1 21]} [] (mkBitMap 0 0 []) [] ∅.
Definition demo_sys : Sys := mkSys (Some 1) [2] {[1 := RUNNING; 2 := READY]} (λ _, Semaphore_new 0) (λ _, -1) (λ _, []) ∅ (λ _, []).
Definition demo_shared : Computer Z := mkComputer demo_two demo_sys {[1 := 10%nat; 2 := 11%nat]} {[2 := 0 :: 7 :: replicate 33 0 ++ [4; 0; 0; 0; 0]]} 0.

Lemma demo_frames_wf : fp_wf demo_frames ∧ fp_free demo_frames = ∅.
Proof.
  assert (fp_free demo_frames = ∅) as E.
  { unfold fp_free, demo_frames. cbn [frameMap]. vm_compute. reflexivity. }
  split; [|exact E]. split; [|split; [reflexivity|rewrite E; reflexivity]].
  split; [done|]. split; [reflexivity|]. split; [reflexivity|]. apply Forall_replicate. unfold is_u32, two32. lia.
Qed.
Lemma demo_owns a i f : owns demo_two a i f ↔ (a, i, f) = (10%nat, 0%nat, 5) ∨ (a, i, f) = (10%nat, 1%nat, 6) ∨ (a, i, f) = (11%nat, 0%nat, 7).
Proof.
  split.
  - intros (s & pt & e & Hs & Hpt & He & <-). cbn in Hs, Hpt.
    apply lookup_insert_Some in Hs as [[<- <-]|[_ [<- <-]%lookup_singleton_Some]]; vm_compute in Hpt; injection Hpt as <-.
    + destruct i as [|[|i]]; [injection He as <-; by left|injection He as <-; right; by left|done].
    + destruct i as [|i]; [injection He as <-; right; by right|done].
  - intros [[= -> -> ->]|[[= -> -> ->]|[= -> -> ->]]]; do 3 eexists; split_and!; reflexivity.
Qed.
Lemma demo_two_wf : vm_wf demo_two.
Proof.
  destruct demo_frames_wf as [Hf He].
  assert (∀ a s, spaces demo_two !! a = Some s → a = 10%nat ∧ s = demo_space 0 2 20 ∨ a = 11%nat ∧ s = demo_space 1 1 21) as Hsp.
  { intros a s H. cbn [spaces demo_two] in H. apply lookup_insert_Some in H as [[<- <-]|[_ [<- <-]%lookup_singleton_Some]]; [left|right]; split; reflexivity. }
  constructor.
  - exact Hf.
  - reflexivity.
  - intros a s [[-> ->]|[-> ->]]%Hsp; eexists; split; reflexivity.
  - intros a s [[-> ->]|[-> ->]]%Hsp; cbn; lia.
  - intros a b s t [[-> ->]|[-> ->]]%Hsp [[-> ->]|[-> ->]]%Hsp; done.
  - intros a i f Ho%demo_owns. change (vm_frames demo_two) with demo_frames. rewrite He. split; [|apply not_elem_of_empty].
    unfold NumPhysPages. destruct Ho as [[= _ _ ->]|[[= _ _ ->]|[= _ _ ->]]]; lia.
  - intros a i b j f Ha%demo_owns Hb%demo_owns. clear He Hf Hsp. destruct Ha as [Ha|[Ha|Ha]], Hb as [Hb|[Hb|Hb]]; split; congruence.
Qed.
Lemma demo_shared_ok : shared demo_shared.
Proof.
  assert (∀ t x, c_space demo_shared !! t = Some x → t = 1 ∧ x = 10%nat ∨ t = 2 ∧ x = 11%nat) as Hsp.
  { intros t x H. cbn [c_space demo_shared] in H. apply lookup_insert_Some in H as [[<- <-]|[_ [<- <-]%lookup_singleton_Some]]; [by left|by right]. }
  constructor.
  - exact demo_two_wf.
  - reflexivity.
  - intros t x [[-> ->]|[-> ->]]%Hsp; eexists; reflexivity.
  - exists 1, 10%nat, (demo_space 0 2 20). split_and!; reflexivity.
  - intros t [x [[-> ->]|[-> ->]]%Hsp]; eexists; split; reflexivity.
  - intros t ->%list_elem_of_singleton. eexists. reflexivity.
Qed.

Definition demo_rnd (seed : Z) : Z * Z := (50 + seed mod 100, seed + 37).
Abbreviation demo_timer := (timer_call (RandomW demo_rnd) 1 0 (mkTimer true 2 0)).
(** Eight turns, the timer being due at the seventh tick. *)
Lemma processes_run_alone_witness : ∃ i' w' schedule,
  Machine_Run demo_timer 2 fault_handler 1 8 (demo_interrupt, demo_shared) = Ok (tt, (i', w')) ∧ current (c_sys w') = Some 2 ∧
  length schedule = 8%nat ∧ ∀ a, is_Some (spaces demo_two !! a) →
    ∃ u, alone fault_handler (filter (λ e, c_space demo_shared !! e.1 = Some a) schedule) demo_shared = Ok u ∧ same_process a w' u.
Proof.
  assert (match Machine_Run demo_timer 2 fault_handler 1 8 (demo_interrupt, demo_shared) with
    Ok (tt, (i', w')) => current (c_sys w') = Some 2 | _ => False end) as H by (vm_compute; reflexivity).
  destruct (Machine_Run _ _ _ _ 8 (demo_interrupt, demo_shared)) as [[[] [i' w']]| | |] eqn:E; [|destruct H..].
  destruct (processes_run_alone demo_timer 2 fault_handler 1 8 demo_interrupt demo_shared i' w') as (es & Hn & Hes).
  - apply timer_quiet.
  - intros b1 b2. apply fault_handler_local.
  - exact demo_shared_ok.
  - exact E.
  - exists i', w', es. split; [reflexivity|]. split; [exact H|]. split; [exact Hn|exact Hes].
Defined.
