(* ===== verification/RoundRobin.v ===== *)
(** * Time sharing under a random timer

    Where the timer is the only device ([-rs] on the command line), the turns of
    [Machine::Run] (TimeSharing.v) can be followed to the tick: the clock
    advances by one per turn until the timer is due; then the thread yields, the
    ready list rotates and the timer is armed again.  A yield is itself a system
    tick long: when the timer was armed for no longer than that, it is due
    before the thread that got the CPU has executed an instruction, and this
    thread yields in its turn.  So a program gets the CPU when its turn comes
    with a delay that exceeds a system tick, and starves when none does. *)
From S2P Require Import Prelude BitMap Memory Mips Cpu Frames AddrSpace ThreadData ListCells Synch UserThread Exception Loader OwnView Interrupt TimeSharing.

(** ** The pending list with the timer alone *)

(** The timer is due at [wh], no handler is running and no yield is asked for. *)
Record armed (i : Interrupt) (wh : Z) : Prop := mkArmed {
  ar_pend : ∃ x, pend i [x] ∧ when (n_item x) = wh;
  ar_in : inHandler i = false;
  ar_yield : yieldOnReturn i = false
}.
Definition now (i : Interrupt) : Z := totalTicks (stats i).

Lemma items_one ys p : items ys ≡ₚ [p] → ∃ x, ys = [x] ∧ n_item x = p.
Proof.
  intros H. pose proof (Permutation_length H) as Hl. unfold items in *. rewrite length_fmap in Hl.
  destruct ys as [|x [|]]; try done. exists x. split; [done|]. apply Permutation_length_1 in H. done.
Qed.

Section timer_only.
Context {W : Type}.
Variable Random : W → Z * W.
Variables (hdl this : Z) (tm : Timer).
Variable DelayedLoad0 : W → outcome W.
Variable Y : Interrupt * W → outcome (Interrupt * W).
Variable ticks : nat.
Hypothesis enough : (2 ≤ ticks)%nat.
Implicit Types (i : Interrupt) (w : W).
Abbreviation timer_call := (timer_call Random hdl this tm).

Definition delay w : Z := (TimeOfNextInterrupt Random tm w).1.
Definition redrawn w : W := (TimeOfNextInterrupt Random tm w).2.

Lemma waits i w x : pend i [x] → level i = IntOff → now i < when (n_item x) →
  ∃ i' y, CheckIfDue timer_call DelayedLoad0 false (i, w) = Ok (false, (i', w)) ∧ pend i' [y] ∧ n_item y = n_item x ∧
    i' = set_pending i (pheap i') (pending i').
Proof.
  intros Hp Hl Hlt. unfold CheckIfDue. rewrite bool_decide_eq_true_2 by done. cbn [ASSERT mbind outcome_bind andb].
  destruct (pend_remove i x [] Hp) as (l & -> & Hp1). cbn [mbind outcome_bind stats set_pending].
  destruct (pend_least i x [] Hp) as [Hw _]. unfold now in Hlt. rewrite Hw in Hlt. rewrite (proj2 (Z.ltb_lt _ _) Hlt).
  set (i1 := set_pending i _ l) in *. destruct (pend_insert i1 [] (n_item x) Hp1) as (c & l' & ys & Ei & Hp2 & Hit).
  rewrite Hw in Ei. rewrite Ei. cbn [mbind outcome_bind]. destruct (items_one ys (n_item x) Hit) as (y & -> & Ey).
  eexists _, y. split; [reflexivity|]. by split_and!.
Qed.
Lemma fires i w x w1 : pend i [x] → level i = IntOff → int_status i ≠ IdleMode → when (n_item x) ≤ now i → 0 < delay w1 →
  (if bool_decide (int_status i = UserMode) then DelayedLoad0 w else Ok w) = Ok w1 →
  ∃ i' y, CheckIfDue timer_call DelayedLoad0 false (i, w) = Ok (true, (i', redrawn w1)) ∧ pend i' [y] ∧
    when (n_item y) = now i + delay w1 ∧ level i' = IntOff ∧ stats i' = stats i ∧ int_status i' = int_status i ∧
    inHandler i' = false ∧ yieldOnReturn i' = true.
Proof.
  intros Hp Hl Hni Hle Hd E1. unfold CheckIfDue. rewrite bool_decide_eq_true_2 by done. cbn [ASSERT mbind outcome_bind andb].
  destruct (pend_remove i x [] Hp) as (l & -> & Hp1). cbn [mbind outcome_bind stats set_pending].
  destruct (pend_least i x [] Hp) as [Hw _]. unfold now in *. rewrite Hw in Hle. rewrite (proj2 (Z.ltb_ge _ _) Hle).
  cbn [int_status set_pending]. rewrite (bool_decide_eq_false_2 (int_status i = IdleMode)) by done. cbn [andb].
  rewrite E1. cbn [mbind outcome_bind]. set (i1 := set_pending i _ l) in *.
  unfold timer_call, TimerExpired. unfold delay, redrawn in *. destruct (TimeOfNextInterrupt Random tm w1) as [d w2]. cbn [fst snd] in *.
  assert (pend (set_int_status (set_inHandler i1 true) SystemMode) []) as Hp1' by (by destruct Hp1).
  destruct (Schedule_spec _ [] hdl this d TimerInt Hp1' Hd) as (i2 & ys & -> & Hp2 & Hit & Ei). cbn [mbind outcome_bind].
  destruct (items_one ys _ Hit) as (y & -> & Ey). unfold TimerInterruptHandler, YieldOnReturn. rewrite Ei.
  cbn [int_status inHandler set_pending set_int_status set_inHandler]. rewrite bool_decide_eq_false_2 by done.
  cbn [negb ASSERT mbind outcome_bind]. eexists _, y. split; [reflexivity|]. split; [by destruct Hp2|]. rewrite Ey. by split_and!.
Qed.

(** One tick of the clock, in user or system mode. *)
Definition tick_length i : Z := if bool_decide (int_status i = SystemMode) then SystemTick else UserTick.
Lemma quiet_tick i w wh : armed i wh → int_status i ≠ IdleMode → now i + tick_length i < wh →
  ∃ i', OneTick timer_call DelayedLoad0 Y ticks (i, w) = Ok (tt, (i', w)) ∧ armed i' wh ∧ now i' = now i + tick_length i ∧
    level i' = IntOn ∧ int_status i' = int_status i.
Proof using enough.
  intros [(x & Hp & Hx) Hin Hy] Hni Hlt. unfold OneTick. set (i1 := ChangeLevel (advance_tick i) IntOn IntOff).
  assert (pend i1 [x] ∧ int_status i1 = int_status i ∧ now i1 = now i + tick_length i ∧ inHandler i1 = false ∧ yieldOnReturn i1 = false) as (Hp1 & Hs1 & Hn1 & Hi1 & Hy1)
    by (subst i1; unfold advance_tick, tick_length, now; case_bool_decide; by destruct Hp).
  destruct (waits i1 w x Hp1 eq_refl) as (i2 & y & E & Hp2 & Ey & Ei); [lia|].
  destruct ticks as [|n]; [lia|]. cbn [drain]. rewrite E. cbn [mbind outcome_bind]. rewrite Ei. cbn [ChangeLevel set_level set_pending yieldOnReturn].
  rewrite Hy1. eexists. split; [reflexivity|]. split; [|done]. constructor; try done. exists y. split; [by destruct Hp2|congruence].
Qed.
Lemma timer_tick i w w1 wh : armed i wh → int_status i ≠ IdleMode → wh ≤ now i + tick_length i → 0 < delay w1 →
  (if bool_decide (int_status i = UserMode) then DelayedLoad0 w else Ok w) = Ok w1 →
  ∃ i', OneTick timer_call DelayedLoad0 Y ticks (i, w) =
      ('(i4, w4) ← Y (set_int_status i' SystemMode, redrawn w1); Ok (tt, (set_int_status i4 (int_status i), w4))) ∧
    armed i' (now i' + delay w1) ∧ now i' = now i + tick_length i ∧ level i' = IntOn.
Proof using enough.
  intros [(x & Hp & Hx) Hin Hy] Hni Hle Hd Ew. unfold OneTick. set (i1 := ChangeLevel (advance_tick i) IntOn IntOff).
  assert (pend i1 [x] ∧ int_status i1 = int_status i ∧ now i1 = now i + tick_length i) as (Hp1 & Hs1 & Hn1)
    by (clear Ew; subst i1; unfold advance_tick, tick_length, now; case_bool_decide; by destruct Hp).
  destruct (fires i1 w x w1 Hp1 eq_refl) as (i2 & y & E & Hp2 & Ey & Hl2 & Hst2 & Hs2 & Hin2 & Hy2); [by rewrite Hs1|lia|done|by rewrite Hs1|].
  assert (now i2 = now i1) as Hn2 by (unfold now; by rewrite Hst2).
  destruct (waits i2 (redrawn w1) y Hp2 Hl2) as (i3 & z & E3 & Hp3 & Ez & Ei); [lia|].
  destruct ticks as [|[|n]]; [lia..|]. cbn [drain]. rewrite E. cbn [mbind outcome_bind drain]. rewrite E3. cbn [mbind outcome_bind].
  rewrite Ei. cbn [ChangeLevel set_level set_pending yieldOnReturn]. rewrite Hy2.
  exists (set_yield (set_level (set_pending i2 (pheap i3) (pending i3)) IntOn) false). split; [reflexivity|].
  split; [|split; [unfold now in *; cbn; congruence|done]].
  constructor; try done. exists z. split; [by destruct Hp3|]. unfold now in *. cbn. rewrite Ez, Ey. congruence.
Qed.
End timer_only.

(** ** Registers and instructions that work *)
Section fetch.
Context (h : ExceptionType → Machine → outcome Machine).
Hypothesis handler_ok : ∀ ex m, cpu_wf m → ∃ m', h ex m = Ok m' ∧ cpu_wf m'.
Implicit Types m : Machine.

(** An instruction that completes was not one the simulator gives up on. *)
Lemma completes_benign m m' : OneInstruction h m = Ok m' → next_benign h m.
Proof.
  intros H raw m1 i E1 E2. unfold OneInstruction in H. rewrite E1 in H. cbn [mbind outcome_bind] in H. rewrite E2 in H. cbn [mbind outcome_bind] in H.
  apply bind_Ok_inv in H as (r & E3 & _). unfold exec in E3. split.
  - intros Hop [Ha Hb]. unfold exec_add_jump in E3. rewrite Hop, Ha, Hb in E3. discriminate E3.
  - intros Hop. destruct (Z.land (i32 (reg m1 (rs i) + extra i)) 3 =? 0) eqn:E; [by apply Z.eqb_eq|]. exfalso.
    rewrite !elem_of_cons, elem_of_nil in Hop.
    destruct Hop as [Ho|[Ho|[Ho|[Ho|[]]]]]; unfold exec_add_jump, exec_load, exec_move_logic, exec_store_shift, exec_partial_store in E3;
      rewrite Ho in E3; cbn [first_some default] in E3; rewrite E in E3; discriminate E3.
Qed.
Lemma completes_wf m m' : cpu_wf m → OneInstruction h m = Ok m' → cpu_wf m'.
Proof using handler_ok.
  intros Hm H. destruct (OneInstruction_ok h handler_ok m Hm (completes_benign m m' H)) as (m2 & E & H2). congruence.
Qed.

(** The registers of a program between two instructions. *)
Definition regs_ok (r : list Z) : Prop :=
  length r = 40%nat ∧ Forall is_i32 r ∧ 0 ≤ nth (Z.to_nat LoadReg) r 0 < 32 ∧ nth 0 r 0 = 0.
Lemma cpu_wf_regs m : cpu_wf m ↔ mmu_wf m ∧ mem_wf m ∧ regs_ok (registers m).
Proof.
  split; [intros [[H1 H2 H3 H4 H5] H6]|intros (H1 & H2 & H3 & H4 & H5 & H6)]; [by split_and!|]. split; [by constructor|done].
Qed.
Lemma fault_handler_ok ex m : cpu_wf m → ∃ m', fault_handler ex m = Ok m' ∧ cpu_wf m'.
Proof.
  intros [Hc Hz]. unfold fault_handler, UpdatePC. destruct (Hc) as [_ _ Hl _ _].
  assert (∀ n x, length (registers x) = 40%nat → 0 ≤ n < 40 → ReadRegister x n = Ok (reg x n)) as Hrd.
  { intros n x Hx Hn. unfold ReadRegister, NumTotalRegs. rewrite (proj2 (Z.leb_le 0 n)), (proj2 (Z.ltb_lt n 40)) by lia.
    cbn [andb ASSERT mbind outcome_bind]. by apply arr_get_reg. }
  assert (∀ n v x, length (registers x) = 40%nat → 0 ≤ n < 40 → WriteRegister x n v = Ok (setreg x n v)) as Hwr.
  { intros n v x Hx Hn. unfold WriteRegister, NumTotalRegs. rewrite (proj2 (Z.leb_le 0 n)), (proj2 (Z.ltb_lt n 40)) by lia.
    cbn [andb ASSERT mbind outcome_bind]. by rewrite arr_set_reg. }
  rewrite Hrd by (done || unfold PCReg; lia). cbn [mbind outcome_bind].
  rewrite Hwr by (done || unfold PrevPCReg; lia). cbn [mbind outcome_bind]. set (m1 := setreg m PrevPCReg _).
  assert (core_wf m1) as Hc1 by (apply core_setreg; [done|unfold PrevPCReg, LoadReg; lia..|by apply reg_i32]).
  rewrite Hrd by (apply Hc1 || unfold NextPCReg; lia). cbn [mbind outcome_bind].
  rewrite Hwr by (apply Hc1 || unfold PCReg; lia). cbn [mbind outcome_bind]. set (m2 := setreg m1 PCReg _).
  assert (core_wf m2) as Hc2 by (apply core_setreg; [done|unfold PCReg, LoadReg; lia..|by apply reg_i32]).
  rewrite Hwr by (apply Hc2 || unfold NextPCReg; lia). eexists. split; [done|]. split.
  - apply core_setreg; [done|unfold NextPCReg, LoadReg; lia..|apply i32_range].
  - subst m2 m1. rewrite !reg_setreg_ne by (unfold PCReg, NextPCReg, PrevPCReg; lia). done.
Qed.
End fetch.

(** ** Yielding to the next program *)
Section robin.
Context {E : Type}.
Implicit Types (i : Interrupt) (w : Computer E).

(** Memory cells are bytes and the registers of every program are in order. *)
Definition cpus w : Prop := mem_wf (cpu w) ∧ ∀ t, is_Some (c_space w !! t) → ∃ r, user_regs w t = Some r ∧ regs_ok r.

Lemma cpus_cpu w : shared w → cpus w → cpu_wf (cpu w).
Proof.
  intros Hw [Hm Hr]. apply cpu_wf_regs. split; [by apply shared_mmu|]. split; [done|].
  destruct (shared_runs w Hw) as (t & a & Ht & Ha). destruct (Hr t ltac:(by exists a)) as (r & E1 & E2).
  unfold user_regs in E1. rewrite decide_True in E1 by done. by injection E1 as ->.
Qed.
Lemma cpus_with w m : cpus w → cpu_wf m → cpus (with_cpu w m).
Proof.
  intros [Hm Hr] (_ & Hm' & Hrg)%cpu_wf_regs. split; [done|]. intros t Ht. destruct (Hr t Ht) as (r & E1 & E2).
  unfold user_regs in *. cbn. case_decide; [by eexists|by exists r].
Qed.
Lemma cpus_undisturbed w w' : shared w → cpus w → undisturbed w w' → c_space w' = c_space w → mainMemory (cpu w') = mainMemory (cpu w) → cpus w'.
Proof.
  intros Hw [Hm Hr] Hu Es Em. split; [intros a; unfold mem_byte; rewrite Em; apply Hm|].
  intros t Ht. rewrite Es in Ht. destruct Ht as [a Ha]. destruct (Hr t ltac:(by exists a)) as (r & E1 & E2). exists r. split; [|done].
  rewrite (sp_regs a _ _ (Hu a (sh_space _ Hw t a Ha)) t Ha). done.
Qed.

(** The threads in the order in which they get the CPU, the running one first. *)
Definition line w : list Z := cur_ready (c_sys w).
Definition rotate (l : list Z) : list Z := match l with [] => [] | t :: q => q ++ [t] end.

Variables (hdl this : Z) (tm : Timer).
Variable rnd : E → Z * E.
Abbreviation RandomW := (RandomW rnd).
Abbreviation call := (timer_call RandomW hdl this tm).
(** [q] turns of the line. *)
Definition rotated (q : nat) (l : list Z) : list Z := Nat.iter q rotate l.
Lemma rotated_add q r l : rotated q (rotated r l) = rotated (q + r) l.
Proof. unfold rotated. by rewrite Nat.iter_add. Qed.
Lemma length_rotated q l : length (rotated q l) = length l.
Proof.
  induction q as [|q IH]; [done|]. rewrite <- IH. change (rotated (S q) l) with (rotate (rotated q l)).
  destruct (rotated q l); [done|]. cbn. rewrite length_app. cbn. lia.
Qed.
Lemma mod_succ (x n : nat) : (n ≠ 0)%nat → (S x mod n = if decide (S (x mod n) = n) then 0 else S (x mod n))%nat.
Proof.
  intros Hn. pose proof (Nat.mod_upper_bound x n Hn). pose proof (Nat.div_mod_eq x n).
  case_decide; symmetry; [apply (Nat.mod_unique _ _ (S (x / n)))|apply (Nat.mod_unique _ _ (x / n))]; nia.
Qed.
Lemma rotate_lookup (l : list Z) (x : nat) : rotate l !! (x mod length l)%nat = l !! (S x mod length l)%nat.
Proof.
  destruct l as [|t q]; [done|]. cbn [rotate]. rewrite mod_succ by done.
  pose proof (Nat.mod_upper_bound x (length (t :: q)) ltac:(done)) as Hb. set (y := (x mod length (t :: q))%nat) in *.
  change (length (t :: q)) with (S (length q)) in *. case_decide as Hd.
  - injection Hd as ->. by apply list_lookup_middle.
  - by rewrite lookup_app_l by lia.
Qed.
Lemma rotated_head q l : rotated q l !! 0%nat = l !! (q mod length l)%nat.
Proof.
  revert l. induction q as [|q IH]; intros l; [by rewrite Nat.Div0.mod_0_l|].
  replace (rotated (S q) l) with (rotated q (rotate l)) by (unfold rotated; symmetry; apply Nat.iter_succ_r).
  rewrite IH, (length_rotated 1 l : length (rotate l) = length l). apply rotate_lookup.
Qed.

(** The next delay of the timer from a state of the devices, and the state
    after it. *)
Definition next_delay (e : E) : Z := if randomize tm then 1 + Z.rem (rnd e).1 (TimerTicks * 2) else TimerTicks.
Definition next_dev (e : E) : E := if randomize tm then (rnd e).2 else e.
Lemma delay_next w : delay RandomW tm w = next_delay (c_dev w).
Proof. unfold delay, TimeOfNextInterrupt, next_delay, RandomW. destruct (randomize tm); [|done]. by destruct (rnd (c_dev w)). Qed.
Lemma redrawn_next w : redrawn RandomW tm w = with_dev w (next_dev (c_dev w)).
Proof. unfold redrawn, TimeOfNextInterrupt, next_dev, RandomW. destruct (randomize tm); [by destruct (rnd (c_dev w))|by destruct w]. Qed.

(** The next [q] delays. *)
Fixpoint delays (q : nat) (e : E) : list Z :=
  match q with O => [] | S q' => next_delay e :: delays q' (next_dev e) end.
Definition devs (q : nat) (e : E) : E := Nat.iter q next_dev e.
Lemma devs_succ q e : devs (S q) e = devs q (next_dev e).
Proof. apply Nat.iter_succ_r. Qed.
Lemma delays_app q r e : delays (q + r) e = delays q e ++ delays r (devs q e).
Proof.
  revert e. induction q as [|q IH]; intros e; cbn [delays Nat.add app]; [done|]. by rewrite IH, devs_succ.
Qed.
(** After [r] delays too short for a program to run comes one that is not, [d]
    being the first of them. *)
Fixpoint settles (r : nat) (d : Z) (e : E) : Prop :=
  match r with O => SystemTick < d | S r' => d ≤ SystemTick ∧ settles r' (next_delay e) (next_dev e) end.
Lemma settles_by q d e : (∀ x, list.last (d :: delays q e) = Some x → SystemTick < x) → ∃ r, (r ≤ q)%nat ∧ settles r d e.
Proof.
  revert d e. induction q as [|q IH]; intros d e Hl; [exists 0%nat; split; [lia|]; by apply Hl|].
  destruct (decide (SystemTick < d)) as [Hd|Hd]; [exists 0%nat; split; [lia|done]|].
  destruct (IH (next_delay e) (next_dev e)) as (r & Hr & Hs); [intros x Hx; by apply Hl|].
  exists (S r). split; [lia|]. split; [lia|done].
Qed.

Hypothesis rnd_range : ∀ e, 0 ≤ (rnd e).1.
Lemma next_delay_range e : 1 ≤ next_delay e ≤ 200.
Proof using rnd_range.
  unfold next_delay. destruct (randomize tm); [|unfold TimerTicks; lia]. change (TimerTicks * 2) with 200.
  pose proof (Z.rem_bound_pos _ 200 (rnd_range e)). lia.
Qed.

Variable ticks : nat.
Hypothesis enough : (2 ≤ ticks)%nat.

Lemma SetLevel_off Y s : SetLevel call DelayedLoad0 Y ticks IntOff s = Ok (level s.1, (set_level s.1 IntOff, s.2)).
Proof. by destruct s. Qed.
Lemma SetLevel_on Y i w : level i = IntOff → inHandler i = false →
  SetLevel call DelayedLoad0 Y ticks IntOn (i, w) = ('(_, s) ← OneTick call DelayedLoad0 Y ticks (set_level i IntOn, w); Ok (IntOff, s)).
Proof. intros Hl Hin. unfold SetLevel. rewrite Hl, Hin. done. Qed.

(** The part of [Yield] between the two changes of the interrupt level. *)
Lemma yield_switches i w t : shared w → cpus w → level i = IntOff → current (c_sys w) = Some t → ∃ w',
  (match FindNextToRun (c_sys w) with
   | (Some nextThread, sys1) => Scheduler_Run nextThread (i, with_sys w (ReadyToRun sys1 t))
   | (None, sys1) => Ok (i, with_sys w sys1) end) = Ok (i, w') ∧
  shared w' ∧ cpus w' ∧ line w' = rotate (line w) ∧ c_dev w' = c_dev w.
Proof.
  intros Hw Hc Hoff Ht. destruct (sh_current _ Hw) as (t' & a & s & Ht' & Ha & _). assert (t' = t) as -> by congruence. clear Ht'.
  pose proof (sh_ready _ Hw) as Hr. unfold line, cur_ready, rotate. rewrite Ht. unfold FindNextToRun. destruct (readyList (c_sys w)) as [|u q] eqn:Er.
  - exists w. replace (with_sys w (c_sys w)) with w by by destruct w. rewrite Ht, Er. by split_and!.
  - set (w1 := with_sys w (ReadyToRun (set_ready (c_sys w) q) t)).
    assert (aside w w1) as (Hw1 & Hu1 & _).
    { apply aside_sys; [done|done|]. cbn. intros v [Hv|Hv%list_elem_of_singleton]%elem_of_app; [apply Hr; by right|]. subst v. by exists a. }
    destruct (switch_spec u w1 Hw1) as (w' & E1 & Hw' & Hu' & Esys & Edev & Em); [cbn; apply Hr; by left|].
    destruct (aside_switch u w1 w' Hw1 ltac:(cbn; apply Hr; by left) E1) as (_ & _ & Esp & _).
    exists w'. unfold Scheduler_Run. rewrite bool_decide_eq_true_2 by done. cbn [ASSERT mbind outcome_bind]. rewrite E1. split; [done|]. split; [done|].
    split; [|split; [by rewrite Esys|done]]. apply (cpus_undisturbed w); try done. by eapply undisturbed_trans.
Qed.

(** A yield that meets [r] short delays turns the line [r + 1] times. *)
Lemma Thread_Yield_rotates r : ∀ fuel i w wh, (r ≤ fuel)%nat → shared w → cpus w → armed i wh → int_status i = SystemMode → level i = IntOn →
  now i < wh ≤ now i + 200 → settles r (wh - now i) (c_dev w) →
  ∃ i' w' wh', Thread_Yield call ticks (S fuel) (i, w) = Ok (i', w') ∧ shared w' ∧ cpus w' ∧
    armed i' wh' ∧ now i' < wh' ≤ now i' + 200 ∧ int_status i' = SystemMode ∧
    line w' = rotated (S r) (line w) ∧ c_dev w' = devs r (c_dev w).
Proof using enough rnd_range.
  induction r as [|r IH]; intros fuel i w wh Hfuel Hw Hc [(x & Hp & Hx) Hin Hy] Hs Hl Hdue Hset; cbn [Thread_Yield];
    rewrite SetLevel_off; cbn [mbind outcome_bind fst snd]; set (i0 := set_level i IntOff);
    destruct (sh_current _ Hw) as (t & a & s & Ht & _); rewrite Ht;
    destruct (yield_switches i0 w t Hw Hc eq_refl Ht) as (w' & -> & Hw' & Hc' & Hl' & Hd'); cbn [mbind outcome_bind]; rewrite Hl, SetLevel_on by done;
    (assert (armed (set_level i0 IntOn) wh) as Har0 by (constructor; [|done|done]; exists x; split; [by destruct Hp|done]));
    (assert (now (set_level i0 IntOn) + tick_length (set_level i0 IntOn) = now i + SystemTick) as Et
      by (unfold tick_length, now; cbn; by rewrite bool_decide_eq_true_2));
    cbn [settles] in Hset.
  - destruct (quiet_tick RandomW hdl this tm DelayedLoad0 (Thread_Yield call ticks fuel) ticks enough (set_level i0 IntOn) w' wh)
      as (i1 & E1 & Har & Hn & Hlv & Hst); [done|cbn; by rewrite Hs|lia|].
    rewrite E1. cbn [mbind outcome_bind]. exists i1, w', wh. assert (now i1 = now i + SystemTick) as Hn1 by lia.
    split_and!; try done; rewrite ?Hn1; unfold SystemTick in *; [lia|lia|by rewrite Hst].
  - destruct Hset as [Hshort Hset]. destruct fuel as [|fuel]; [lia|].
    destruct (timer_tick RandomW hdl this tm DelayedLoad0 (Thread_Yield call ticks (S fuel)) ticks enough (set_level i0 IntOn) w' w' wh)
      as (i1 & E1 & Har1 & Hn1 & Hl1); [done|cbn; by rewrite Hs|lia|rewrite delay_next; pose proof (next_delay_range (c_dev w')); lia| |].
    { cbn [int_status set_level]. subst i0. cbn. by rewrite Hs, bool_decide_eq_false_2. }
    rewrite delay_next in Har1. rewrite redrawn_next in E1. set (w3 := with_dev w' (next_dev (c_dev w'))) in E1.
    destruct (aside_dev w' (next_dev (c_dev w')) Hw') as (Hw3 & Hu3 & _). fold w3 in Hw3, Hu3.
    assert (cpus w3) as Hc3 by by apply (cpus_undisturbed w').
    pose proof (next_delay_range (c_dev w')) as Hnd.
    destruct (IH fuel (set_int_status i1 SystemMode) w3 (now i1 + next_delay (c_dev w'))) as (i4 & w4 & wh4 & E4 & H4); try done; [lia|..].
    { destruct Har1 as [(y & Hpy & Hwy) Hy1 Hy2]. constructor; [|done|done]. exists y. split; [by destruct Hpy|done]. }
    { change (now (set_int_status i1 SystemMode)) with (now i1). lia. }
    { change (now (set_int_status i1 SystemMode)) with (now i1). replace (now i1 + next_delay (c_dev w') - now i1) with (next_delay (c_dev w')) by lia.
      cbn [c_dev w3 with_dev]. by rewrite Hd'. }
    destruct H4 as (Hw4 & Hc4 & Har4 & Hdue4 & Hs4 & Hl4 & Hd4).
    rewrite E4 in E1. cbn [mbind outcome_bind] in E1. rewrite E1. cbn [mbind outcome_bind].
    exists (set_int_status i4 (int_status (set_level i0 IntOn))), w4, wh4. split; [done|]. split; [done|]. split; [done|].
    split; [destruct Har4 as [(y & Hpy & Hwy) Hy1 Hy2]; constructor; [|done|done]; exists y; split; [by destruct Hpy|done]|].
    split; [exact Hdue4|]. split; [exact Hs|]. split.
    + rewrite Hl4. change (line w3) with (line w'). rewrite Hl'. change (rotate (line w)) with (rotated 1 (line w)). rewrite rotated_add. f_equal. lia.
    + rewrite Hd4. cbn [c_dev w3 with_dev]. by rewrite Hd', devs_succ.
Qed.
End robin.

(** ** Turns under the timer *)
Section progress.
Context {E : Type}.
Implicit Types (i : Interrupt) (w : Computer E).
Variables (hdl this : Z) (tm : Timer).
Variable rnd : E → Z * E.
Abbreviation call := (timer_call (RandomW rnd) hdl this tm).
Variables (ticks fuel : nat).
Hypothesis enough : (2 ≤ ticks)%nat.
Variable h : ExceptionType → Machine → outcome Machine.
Hypothesis local : ∀ b1 b2, local_handler b1 b2 h.
Hypothesis handler_ok : ∀ ex m, cpu_wf m → ∃ m', h ex m = Ok m' ∧ cpu_wf m'.
Hypothesis rnd_range : ∀ e, 0 ≤ (rnd e).1.
Abbreviation next_delay := (next_delay tm rnd).
Abbreviation next_dev := (next_dev tm rnd).
Abbreviation devs := (devs tm rnd).
Abbreviation delays := (delays tm rnd).
Abbreviation settles := (settles tm rnd).
Abbreviation turn := (turn call ticks h (S fuel)).
Abbreviation turns := (turns call ticks h (S fuel)).

Record running i w (wh : Z) : Prop := mkRunning {
  rn_shared : shared w;
  rn_cpus : cpus w;
  rn_armed : armed i wh;
  rn_due : now i < wh ≤ now i + 200;
  rn_mode : int_status i = UserMode
}.

Lemma armed_status i wh st : armed i wh → armed (set_int_status i st) wh.
Proof. intros [(x & Hp & Hx) Hin Hy]. constructor; [|done|done]. exists x. split; [by destruct Hp|done]. Qed.

(** A turn: the timer comes nearer, or it is due and the line turns past the
    threads whose delays are short. *)
Lemma turn_moves i w wh m : running i w wh → OneInstruction h (cpu w) = Ok m → ∃ i' w' wh',
  (now i + 1 < wh → turn (i, w) = Ok (tt, (i', w')) ∧ running i' w' wh' ∧ line w' = line w ∧ c_dev w' = c_dev w ∧ wh' - now i' = wh - now i - 1) ∧
  ∀ r, (r ≤ fuel)%nat → wh ≤ now i + 1 → settles r (next_delay (c_dev w)) (next_dev (c_dev w)) → ∃ i' w' wh',
    turn (i, w) = Ok (tt, (i', w')) ∧ running i' w' wh' ∧ line w' = rotated (S r) (line w) ∧ c_dev w' = devs (S r) (c_dev w).
Proof using enough local handler_ok rnd_range.
  intros [Hw Hc Har Hdue Hst] Em. destruct (shared_runs w Hw) as (t & a & Hr).
  assert (cpu_wf m) as Hm by (eapply completes_wf; [done| |done]; by apply cpus_cpu).
  destruct (op_others _ w m t a (instruction_op h local) Hw Hr Em) as [Hw1 _].
  assert (cpus (with_cpu w m)) as Hc1 by by apply cpus_with.
  assert (tick_length i = 1) as Htl by (unfold tick_length; by rewrite Hst).
  unfold TimeSharing.turn. rewrite Em. cbn [mbind outcome_bind]. destruct (decide (now i + 1 < wh)%Z) as [Hlt|Hge].
  - destruct (quiet_tick (RandomW rnd) hdl this tm DelayedLoad0 (Thread_Yield call ticks (S fuel)) ticks enough i (with_cpu w m) wh)
      as (i' & E1 & Har' & Hn & _ & Hs'); [done|by rewrite Hst|lia|].
    exists i', (with_cpu w m), wh. split; [|intros; lia]. intros _. split; [exact E1|].
    split; [constructor; [done|done|done|lia|congruence]|]. split; [done|]. split; [done|lia].
  - exists i, w, wh. split; [lia|]. intros r Hfuel _ Hset.
    destruct (DelayedLoad_wf m 0 0) as (m2 & E2 & Hm2); [apply Hm|lia|unfold is_i32, two31; lia|].
    assert (shared (with_cpu w m2)) as Hw2 by by apply (op_others _ (with_cpu w m) m2 t a load_op).
    assert (cpus (with_cpu w m2)) as Hc2 by by apply cpus_with.
    pose proof (next_delay_range tm rnd rnd_range (c_dev w)) as Hnd.
    destruct (timer_tick (RandomW rnd) hdl this tm DelayedLoad0 (Thread_Yield call ticks (S fuel)) ticks enough i (with_cpu w m) (with_cpu w m2) wh)
      as (i1 & E1 & Har1 & Hn1 & Hl1); [done|by rewrite Hst|lia|rewrite delay_next; cbn [c_dev with_cpu with_c_vm]; lia| |].
    { rewrite Hst, bool_decide_eq_true_2 by done. unfold DelayedLoad0. change (cpu (with_cpu w m)) with m. rewrite E2. done. }
    rewrite delay_next in Har1. rewrite redrawn_next in E1. cbn [c_dev with_cpu with_c_vm] in E1, Har1.
    set (w3 := with_dev (with_cpu w m2) _) in E1.
    destruct (aside_dev (with_cpu w m2) (next_dev (c_dev w)) Hw2) as (Hw3 & Hu3 & _). fold w3 in Hw3, Hu3.
    assert (cpus w3) as Hc3 by by apply (cpus_undisturbed (with_cpu w m2)).
    destruct (Thread_Yield_rotates hdl this tm rnd rnd_range ticks enough r fuel (set_int_status i1 SystemMode) w3 (now i1 + next_delay (c_dev w)))
      as (i4 & w4 & wh4 & E4 & Hw4 & Hc4 & Har4 & Hdue4 & _ & Hl4 & Hd4); try done; [by apply armed_status|..];
      change (now (set_int_status i1 SystemMode)) with (now i1); [lia| |].
    { by replace (now i1 + next_delay (c_dev w) - now i1) with (next_delay (c_dev w)) by lia. }
    rewrite E4 in E1. cbn [mbind outcome_bind] in E1.
    exists (set_int_status i4 (int_status i)), w4, wh4. split; [exact E1|].
    split; [constructor; [done|done|by apply armed_status|exact Hdue4|done]|]. split; [exact Hl4|].
    rewrite Hd4, devs_succ. done.
Qed.

(** The simulator gives up on the next instruction. *)
Definition gives_up w : Prop := ¬ succeeds (OneInstruction h (cpu w)).
Lemma turns_app j k s s1 s2 : turns j s = Ok (tt, s1) → turns k s1 = Ok (tt, s2) → turns (j + k) s = Ok (tt, s2).
Proof.
  revert s. induction j as [|j IH]; intros s H1 H2; cbn [TimeSharing.turns Nat.add] in *; [by injection H1 as ->|].
  unfold mbind, M_bind in *. destruct (turn s) as [[[] s3]| | |]; try done. by apply IH.
Qed.
Lemma turns_one s s' : turn s = Ok (tt, s') → turns 1 s = Ok (tt, s').
Proof. intros E1. cbn [TimeSharing.turns]. unfold mbind, M_bind. by rewrite E1. Qed.

Lemma until_timer r n i w wh : running i w wh → wh - now i = Z.of_nat n → (r ≤ fuel)%nat →
  settles r (next_delay (c_dev w)) (next_dev (c_dev w)) → ∃ k i' w' wh', (k ≤ n)%nat ∧
  turns k (i, w) = Ok (tt, (i', w')) ∧
  (gives_up w' ∨ running i' w' wh' ∧ line w' = rotated (S r) (line w) ∧ c_dev w' = devs (S r) (c_dev w)).
Proof using enough local handler_ok rnd_range.
  revert i w wh. induction n as [|n IH]; intros i w wh Hr Hd Hfuel Hset; [destruct Hr; lia|].
  destruct (OneInstruction h (cpu w)) as [m| | |] eqn:Em; try by (exists 0%nat, i, w, wh; split_and!; [lia|done|]; left; intros [x Hx]; congruence).
  destruct (turn_moves i w wh m Hr Em) as (i1 & w1 & wh1 & Hfar & Hnear). destruct (decide (now i + 1 < wh)%Z) as [Hlt|Hge].
  - destruct (Hfar Hlt) as (E1 & Hr1 & Hl1 & Hd1 & Hn1).
    destruct (IH i1 w1 wh1 Hr1) as (k & i2 & w2 & wh2 & Hk & E2 & Hend); [lia|done|by rewrite Hd1|].
    exists (S k), i2, w2, wh2. split; [lia|]. split; [|by rewrite Hl1, Hd1 in Hend].
    apply (turns_app 1 k (i, w) (i1, w1)); [by apply turns_one|done].
  - destruct (Hnear r Hfuel ltac:(lia) Hset) as (i2 & w2 & wh2 & E2 & H2).
    exists 1%nat, i2, w2, wh2. split; [lia|]. split; [by apply turns_one|by right].
Qed.

(** The line has turned [q] times, when the last of the [q] delays is long. *)
Lemma turn_comes q : ∀ i w wh, (q ≤ fuel)%nat → running i w wh → (∀ d, list.last (delays q (c_dev w)) = Some d → SystemTick < d) →
  ∃ k i' w' wh', (k ≤ 200 * q)%nat ∧ turns k (i, w) = Ok (tt, (i', w')) ∧
    (gives_up w' ∨ running i' w' wh' ∧ line w' = rotated q (line w)).
Proof using enough local handler_ok rnd_range.
  induction q as [q IH] using (well_founded_induction lt_wf). intros i w wh Hfuel Hr Hlast.
  destruct q as [|q]; [exists 0%nat, i, w, wh; split; [lia|]; split; [done|by right]|].
  destruct (settles_by tm rnd q (next_delay (c_dev w)) (next_dev (c_dev w)) Hlast) as (r & Hrq & Hset).
  destruct (until_timer r (Z.to_nat (wh - now i)) i w wh Hr) as (k & i1 & w1 & wh1 & Hk & E1 & Hend); [destruct Hr; lia|lia|done|].
  assert (k ≤ 200)%nat as Hk2 by (destruct Hr; lia).
  destruct Hend as [Hg|(Hr1 & Hl1 & Hd1)]; [exists k, i1, w1, wh1; split; [lia|]; split; [done|by left]|].
  destruct (IH (q - r)%nat ltac:(lia) i1 w1 wh1 ltac:(lia) Hr1) as (k2 & i2 & w2 & wh2 & Hk3 & E2 & Hend2).
  { intros d Hd. apply Hlast. replace (S q) with (S r + (q - r))%nat by lia. rewrite delays_app, <- Hd1, last_app, Hd. done. }
  exists (k + k2)%nat, i2, w2, wh2. split; [lia|]. split; [by apply (turns_app k k2 _ (i1, w1))|].
  destruct Hend2 as [Hg|[Hr2 Hl2]]; [by left|right]. split; [done|]. rewrite Hl2, Hl1, rotated_add. f_equal. lia.
Qed.
End progress.


(** The two programs of TimeSharing.v, under a generator whose numbers are the
    digits of its seed in base 200. *)
Definition digits (e : Z) : Z * Z := (e mod 200, e / 200).
Definition demo_line (seed : Z) : Computer Z := with_dev demo_shared seed.
Lemma demo_armed : armed demo_interrupt 7.
Proof. constructor; [|done|done]. eexists. split; [exact demo_interrupt_pend|done]. Qed.
Lemma demo_cpus : cpus demo_shared.
Proof.
  split.
  - intros x. unfold mem_byte. destruct (mainMemory (cpu demo_shared) !! x) as [b|] eqn:E; cbn; [|unfold is_u8; lia].
    assert (map_Forall (λ _ b, 0 ≤ b < 256) demo_memory) as H by (intros y b' Hy; unfold demo_memory in Hy; repeat (apply lookup_insert_Some in Hy as [[_ <-]|[_ Hy]]; [lia|]); apply lookup_singleton_Some in Hy as [_ <-]; lia).
    exact (H x b E).
  - intros t [a Ha]. cbn [c_space demo_shared] in Ha.
    apply lookup_insert_Some in Ha as [[<- <-]|[_ [<- <-]%lookup_singleton_Some]]; (eexists; split; [reflexivity|]); split_and!; try done;
      repeat constructor; unfold two31; lia.
Qed.

(** Delays of 3 and 150 in turn: the second program does not get to execute an
    instruction in the first six laps. *)
Definition unlucky (e : Z) : Z * Z := (if Z.even e then 2 else 149, e + 1).
Fixpoint on_cpu (n : nat) (s : Interrupt * Computer Z) : list (option Z) :=
  match n with
  | O => []
  | S n' =>
      match Machine_Run (timer_call (RandomW unlucky) 1 0 (mkTimer true 2 0)) 2 fault_handler 2 1 s with
      | Ok (_, s') => current (c_sys s.2) :: on_cpu n' s'
      | _ => []
      end
  end.
Lemma second_program_starves : on_cpu 850 (demo_interrupt, demo_line 0) = replicate 850 (Some 1).
Proof. by vm_compute. Qed.
