(* ===== verification/Migrate.v ===== *)
(** * network/migrate.cc: moving a process to another machine

    [SendProcess] and [ListenProcess] as programs over a connection
    (Channel.v, Connection.v) of a machine whose state is the kernel of
    UserThread.v and the registers saved with each thread.  Only the calling
    thread of each machine runs; printing is left out. *)
From S2P Require Import Prelude BitMap Memory Frames AddrSpace ThreadData Synch Disk FileHdr UserThread Exception Loader Network Post PostNet Channel Connection.

Definition INT_MAX : Z := 2147483647.

(** The arrays and variables that are not initialised, by their name. *)
Inductive place :=
| Connect_buffer | Listen_buffer | page_buffer | nPages_ | reg_value (r : Z) | semValue_ | userThreadid_
| thread_value (i r : Z) | userRegister (tid : Z).
Record Leftover := mkLeftover {
  l_bytes : place → Z → list Z;                  (* of that size *)
  l_value : Z → Z;                               (* [value] in [SendProcess], by address *)
  l_bitmap : nat → Z;
  l_nThreads : Z;
  l_sems : list (option Semaphore)
}.

(** The registers saved with each thread: [userRegisters], by identifier. *)
Definition Host : Type := Node Kernel (gmap Z (list Z)).

Section migrate.
Variable u : Leftover.
Variable cur : Z.                 (* the calling thread *)

Definition on_kernel {A} (f : M Kernel A) : M Host A := λ nd,
  '(a, k) ← f (host nd); Ok (a, with_host nd k).
Definition on_vm {A} (f : M VM A) : M Kernel A := λ k, '(a, v) ← f (vm k); Ok (a, with_vm k v).
Definition on_machine {A} (f : M Machine A) : M VM A := λ v, '(a, m) ← f (vm_machine v); Ok (a, with_machine v m).
Definition ask {S A} (f : S → outcome A) : M S A := λ s, a ← f s; Ok (a, s).

(** The thread that sends sleeps until the message is acknowledged; the
    scheduler saves its registers then. *)
Definition save_registers : M Host unit := λ nd,
  l ← SaveUserState (Z.to_nat NumTotalRegs) 0 (vm_machine (vm (host nd)));
  Ok (tt, with_self nd (<[cur := l]> (self nd))).
Definition post (data : list Z) : proc Host bool := _ ← local save_registers; PO_Send DATA data.

(** ** [SendProcess] *)

(** [machine->ReadMem(addr, 1, &value)]. *)
Definition read_byte (addr : Z) : M Machine Z := λ m,
  '(r, m') ← ReadMem fault_handler m addr 1; Ok (default (l_value u addr) r, m').
(** The loop over the bytes of a page, from byte [j]; [false]: [SendProcess]
    returns. *)
Fixpoint send_bytes (n : nat) (nPage j : Z) : proc Host bool :=
  match n with
  | O => Done true
  | S n' =>
      value ← local (on_kernel (on_vm (on_machine (read_byte (i32 (nPage * PageSize + j))))));
      ok ← post [u8 value];
      if negb ok then Done false else send_bytes n' nPage (j + 1)
  end.
Fixpoint send_pages (n : nat) (nPage : Z) : proc Host bool :=
  match n with
  | O => Done true
  | S n' =>
      ok ← send_bytes (Z.to_nat PageSize) nPage 0;
      if negb ok then Done false else send_pages n' (nPage + 1)
  end.

(** [threads[tid]->userRegisters[r]]. *)
Definition saved_register (tid r : Z) (nd : Host) : outcome Z :=
  match self nd !! tid with Some l => arr_get l r | None => int_at (l_bytes u (userRegister tid) (4 * NumTotalRegs)) (Z.to_nat (4 * r)) end.
Fixpoint send_registers (n : nat) (tid r : Z) : proc Host bool :=
  match n with
  | O => Done true
  | S n' =>
      value ← local (ask (saved_register tid r));
      ok ← post (le32 value);
      if negb ok then Done false else send_registers n' tid (r + 1)
  end.

Definition sem_value (space : nat) (i : Z) (nd : Host) : outcome Z :=
  s ← get_space (vm (host nd)) space;
  used ← Test (semBitmap s) i;
  if (used : bool) then
    l ← get_sems (host nd) space;
    o ← arr_get l i;
    match o with Some x => Ok (value x) | None => Fault end
  else Ok INT_MAX.
Fixpoint send_sems (n : nat) (space : nat) (i : Z) : proc Host bool :=
  match n with
  | O => Done true
  | S n' =>
      v ← local (ask (sem_value space i));
      ok ← post (le32 v);
      if negb ok then Done false else send_sems n' space (i + 1)
  end.

(** The thread in slot [i] when it is alive. *)
Definition live_thread (space : nat) (i : Z) (nd : Host) : outcome (option thread_info) :=
  let v := vm (host nd) in
  s ← get_space v space;
  p ← arr_get (localThreadsInfos s) i;
  match p with
  | None => Ok None
  | Some _ =>
      '(_, t) ← get_tinfo v p;
      if thread_id t <? MaxThreads then
        match kthreads (host nd) !! thread_id t with
        | None => Ok None
        | Some _ => b ← Test (tidMap v) (thread_id t); Ok (if (b : bool) then Some t else None)
        end
      else Ok None
  end.
Fixpoint send_threads (n : nat) (space : nat) (i : Z) : proc Host bool :=
  match n with
  | O => Done true
  | S n' =>
      info ← local (ask (live_thread space i));
      ok ← (match info with
            | Some t =>
                ok ← post (le32 (userthread_id t));
                if negb ok then Done false else send_registers (Z.to_nat NumTotalRegs) (thread_id t) 0
            | None => post (le32 INT_MAX)
            end);
      if negb ok then Done false else send_threads n' space (i + 1)
  end.

(** What is sent over the connection. *)
Definition send_state (space : nat) : proc Host bool :=
  n ← local (ask (λ nd, s ← get_space (vm (host nd)) space; Ok (numPages s)));
  _ ← post (le32 (i32 n));
  ok ← send_pages (Z.to_nat n) 0;
  if negb ok then Done false
  else
    ok ← send_registers (Z.to_nat NumTotalRegs) cur 0;
    if negb ok then Done false
    else
      ok ← send_sems (Z.to_nat MAX_SEM) space 0;
      if negb ok then Done false
      else
        nt ← local (ask (λ nd, s ← get_space (vm (host nd)) space; Ok (nThreads s)));
        ok ← post (le32 nt);
        if negb ok then Done false
        else
          ok ← send_threads (Z.to_nat MaxThreadsPerProcess) space 0;
          if negb ok then Done false
          else _ ← PO_Disconnect; Done true.

Definition SendProcess (farAddr timestamp : Z) : proc Host bool :=
  space ← local (ask (λ nd, current_space cur (host nd)));
  _ ← local save_registers;
  c ← PO_Connect (l_bytes u Connect_buffer) farAddr timestamp;
  _ ← try (if negb c then Fault else Ok tt);       (* [c->pIn] in the arguments of DEBUG *)
  send_state space.

(** ** [ListenProcess] *)

(** [postOffice->Receive] into an integer that holds [data]. *)
Definition receive_into (data : list Z) : proc Host (Z * list Z) :=
  d ← PO_Receive data; v ← try (int_at d 0); Done (v, d).
Definition receive_int (p : place) : proc Host Z :=
  data ← try (array_of (l_bytes u p) 4); '(v, _) ← receive_into data; Done v.

(** Whether there may be one more process. *)
Definition claim_space : M Kernel bool := λ k,
  m ← mutex_acquire (nUsedAddrSpaceLock k) cur;
  m' ← mutex_release m cur;
  if MaxProcesses <=? nUsedAddrSpace k then Ok (false, with_used_spaces k (nUsedAddrSpace k) m')
  else Ok (true, with_used_spaces k (nUsedAddrSpace k + 1) m').
(** [new AddrSpace(nPages)] with its conditions and its semaphores. *)
Definition new_space (nPages : Z) : M Kernel nat := λ k,
  '(a, v) ← AddrSpace_new (l_bitmap u) (l_nThreads u) cur nPages (vm k);
  let k1 := with_vm k v in
  Ok (a, with_sems (with_conds k1 (<[a := []]> (nThreadsCond k1)) (<[a := []]> (processJoinCond k1)))
           (<[a := l_sems u]> (semLists k1))).
Definition assign_space (tid : Z) (p : option nat) : M Kernel unit := λ k, k' ← set_space tid p k; Ok (tt, k').

Definition write_byte (addr value : Z) : M Machine unit := λ m,
  '(_, m') ← WriteMem fault_handler m addr 1 value; Ok (tt, m').
Fixpoint receive_bytes (n : nat) (nPage j : Z) (buffer : list Z) : proc Host (list Z) :=
  match n with
  | O => Done buffer
  | S n' =>
      buffer' ← PO_Receive buffer;
      c ← try (arr_get buffer' 0);
      _ ← local (on_kernel (on_vm (on_machine (write_byte (i32 (nPage * PageSize + j)) (i8 c)))));
      receive_bytes n' nPage (j + 1) buffer'
  end.
Fixpoint receive_pages (n : nat) (nPage : Z) (buffer : list Z) : proc Host (list Z) :=
  match n with
  | O => Done buffer
  | S n' => buffer' ← receive_bytes (Z.to_nat PageSize) nPage 0 buffer; receive_pages n' (nPage + 1) buffer'
  end.

(** The registers of a thread that does not run yet. *)
Fixpoint receive_registers (p : Z → place) (n : nat) (r : Z) : proc Host (list Z) :=
  match n with
  | O => Done []
  | S n' => v ← receive_int (p r); l ← receive_registers p n' (r + 1); Done (v :: l)
  end.
Definition set_registers (tid : Z) (l : list Z) : M Host unit := modify (λ nd, with_self nd (<[tid := l]> (self nd))).

Definition put_sem (space : nat) (i initValue : Z) : M Kernel unit := λ k,
  s ← get_space (vm k) space;
  l ← get_sems k space;
  l' ← arr_set l i (Some (Semaphore_new initValue));
  b ← Mark (semBitmap s) i;
  Ok (tt, put_semBitmap (with_sems k (<[space := l']> (semLists k))) space s b).
Fixpoint receive_sems (n : nat) (space : nat) (i : Z) (semValue : list Z) : proc Host unit :=
  match n with
  | O => Done tt
  | S n' =>
      '(v, semValue') ← receive_into semValue;
      _ ← (if v =? INT_MAX then Done tt else local (on_kernel (put_sem space i v)));
      receive_sems n' space (i + 1) semValue'
  end.

Definition put_nThreads (space : nat) (n : Z) : M Kernel unit := λ k,
  s ← get_space (vm k) space; Ok (tt, with_vm k (put_space (vm k) space (with_nThreads s n))).
(** [newSpace->nThreads] is received in place. *)
Definition receive_nThreads (space : nat) : proc Host unit :=
  n ← local (ask (λ nd, s ← get_space (vm (host nd)) space; Ok (nThreads s)));
  '(v, _) ← receive_into (le32 n);
  local (on_kernel (put_nThreads space v)).

(** A thread of the process in slot [i]: the [Thread] and its descriptor. *)
Definition new_thread (space : nat) (i utid : Z) : M Kernel Z := λ k,
  '(ntid, k1) ← GetNewThreadId (mkThread (Some space) false (mkThreadArg 0 0 0)) k;
  let v := vm k1 in
  let a := vm_nextptr v in
  s ← get_space v space;
  b ← Mark (threadsBitmap s) i;
  infos ← arr_set (threadsInfos v) ntid (Some a);
  loc ← arr_set (localThreadsInfos s) i (Some a);
  let next := u32 (utid + 1) in
  let v1 := with_threads (with_nextptr v (S a)) (tidMap v) infos (<[a := mkThreadInfo i utid ntid (Some [])]> (tinfos v)) in
  Ok (ntid, with_vm k1 (put_space v1 space
    (with_thread_data s (if next <? nextUserThreadid s then nextUserThreadid s else next) b loc))).
Definition fork (tid : Z) : M Kernel unit := λ k, k' ← Thread_Fork cur tid k; Ok (tt, k').
Fixpoint receive_threads (n : nat) (space : nat) (i : Z) (userThreadid : list Z) : proc Host unit :=
  match n with
  | O => Done tt
  | S n' =>
      '(v, userThreadid') ← receive_into userThreadid;
      _ ← (if u32 v =? INT_MAX then Done tt
           else
             ntid ← local (on_kernel (new_thread space i (u32 v)));
             l ← receive_registers (thread_value i) (Z.to_nat NumTotalRegs) 0;
             _ ← local (set_registers ntid l);
             local (on_kernel (fork ntid)));
      receive_threads n' space (i + 1) userThreadid'
  end.

(** [new Thread]; one for which there is no identifier has -1 and is not in
    [threads], its object is kept under -1. *)
Definition main_thread : M Kernel Z := λ k,
  let t := mkThread None true (mkThreadArg 0 0 0) in
  '(tid, k1) ← GetNewThreadId t k;
  Ok (tid, if tid =? -1 then with_kthreads k1 (lastTid k1) (<[-1 := t]> (kthreads k1)) else k1).

(** What follows once the connection and the process are granted; [tmp] is the
    caller's own address space. *)
Definition receive_state (buffer : list Z) (tmp : option nat) : proc Host Z :=
  nPages ← receive_int nPages_;
  newSpace ← local (on_kernel (new_space (u32 nPages)));
  newPid ← local (ask (λ nd, s ← get_space (vm (host nd)) newSpace; Ok (pid s)));
  _ ← local (on_kernel (on_vm (RestoreState newSpace)));
  _ ← local (on_kernel (assign_space cur (Some newSpace)));
  _ ← receive_pages (Z.to_nat (u32 nPages)) 0 buffer;
  tid ← local (on_kernel main_thread);
  l ← receive_registers reg_value (Z.to_nat NumTotalRegs) 0;
  l' ← try (arr_set l 2 1);
  _ ← local (set_registers tid l');
  semValue ← try (array_of (l_bytes u semValue_) 4);
  _ ← receive_sems (Z.to_nat MAX_SEM) newSpace 0 semValue;
  _ ← receive_nThreads newSpace;
  userThreadid ← try (array_of (l_bytes u userThreadid_) 4);
  _ ← receive_threads (Z.to_nat MaxThreadsPerProcess) newSpace 0 userThreadid;
  _ ← local (on_kernel (assign_space tid (Some newSpace)));
  _ ← local (on_kernel (fork tid));
  _ ← local (on_kernel (assign_space cur tmp));
  _ ← local (on_kernel (λ k, match tmp with Some a => on_vm (RestoreState a) k | None => Fault end));
  _ ← PO_Disconnect;
  Done newPid.

Definition ListenProcess : proc Host Z :=
  buffer ← try (array_of (l_bytes u page_buffer) PageSize);
  tmp ← local (ask (λ nd, match kthreads (host nd) !! cur with Some t => Ok (t_space t) | None => Fault end));
  c ← PO_Listen (l_bytes u Listen_buffer);
  if negb c then Done (-1)
  else
    granted ← local (on_kernel claim_space);
    if negb granted then Done (-1) else receive_state buffer tmp.

(** What a thread that came with a process does before [Machine::Run]. *)
Definition RunListenedProcess : M Kernel unit := λ k, a ← current_space cur k; on_vm (RestoreState a) k.
End migrate.
