(* ===== verification/Migration.v ===== *)
(** * Processes in transit

    What happens when [SendProcess] on one machine meets [ListenProcess] on
    another (Migrate.v), in whatever order the two run as long as no [Send] gives
    up: the memory arrives, byte for byte, and the semaphores make the receiver
    overrun a variable. *)
From S2P Require Import Prelude BitMap Memory Frames AddrSpace ThreadData Synch Disk FileHdr UserThread Exception Loader Network Post PostNet Channel Connection Migrate.

(** ** Reading memory for the message *)
Lemma ReadMem_tables h m va pa : mmu_wf m → maps m false va pa →
  ∃ m', ReadMem h m va 1 = Ok (Some (i8 (mem_byte m pa)), m') ∧ same_tables m m' ∧ mainMemory m' = mainMemory m.
Proof.
  intros Hwf (p & pt & Hp & Hpt & Hm). unfold ReadMem.
  destruct (Translate_complete m va 1 false p pt pa Hwf (or_introl eq_refl) eq_refl Hp Hpt Hm) as (m' & E & Hmem & _).
  destruct (Translate_spec m va 1 false Hwf (or_introl eq_refl))
    as [(ex & Hex & E')|(p' & pt' & pa' & e & m2 & Hp' & Hpt' & E' & _ & _ & _ & He & ->)];
    rewrite E in E'; [by injection E' as <-|]. injection E' as -> ->.
  assert (p' = p) as -> by congruence. assert (pt' = pt) as -> by congruence.
  rewrite E. cbn [mbind outcome_bind]. rewrite decide_True by done. rewrite (load_bytes_mem _ m pa' 1 Hmem).
  eexists. split; [reflexivity|]. split; [by eapply store_entry_tables|done].
Qed.

(** The state a process can be sent from: its page table is in the MMU, and its
    registers have been saved. *)
Definition with_mem (nd : Host) (m : Machine) : Host := with_host nd (with_vm (host nd) (with_machine (vm (host nd)) m)).
Definition mem (nd : Host) : Machine := vm_machine (vm (host nd)).
Lemma with_mem_mem nd m : mem (with_mem nd m) = m.
Proof. done. Qed.
Lemma with_mem_twice nd m m' : with_mem (with_mem nd m) m' = with_mem nd m'.
Proof. done. Qed.
Lemma with_mem_id nd : with_mem nd (mem nd) = nd.
Proof. by destruct nd as [[[]]]. Qed.
Definition settled (cur : Z) (nd : Host) : Prop :=
  length (registers (mem nd)) = Z.to_nat NumTotalRegs ∧ self nd !! cur = Some (registers (mem nd)).

Section sending.
Context (u : Leftover) (cur : Z).
Implicit Types (nd : Host) (q : list msg).

Definition message nd (data : list Z) : msg := mkMsg (netAddr nd) DATA data.

Lemma save_runs nd q : length (registers (mem nd)) = Z.to_nat NumTotalRegs →
  runs (local (save_registers cur)) nd q (Done tt) (with_self nd (<[cur := registers (mem nd)]> (self nd))) q [].
Proof. intros Hl. apply runs_local. unfold save_registers. fold (mem nd). rewrite SaveUserState_all by (done || lia). done. Qed.
Lemma post_runs nd data q : settled cur nd → runs (post cur data) nd q (Done true) nd q [message nd data].
Proof.
  intros [Hl Hs]. eapply runs_quiet; [by apply save_runs|]. rewrite insert_id by done.
  replace (with_self nd (self nd)) with nd by by destruct nd. eapply runs_quiet; [by apply runs_local|]. apply runs_send.
Qed.

(** The bytes of the program, sent one by one. *)
Definition byte_messages nd (l : list Z) : list msg := (λ b, message nd [b]) <$> l.
(** The byte at each virtual address from [start] on. *)
Definition bytes_at (m : Machine) (start : Z) (l : list Z) : Prop :=
  ∀ i b, l !! i = Some b → ∃ pa, maps m false (start + Z.of_nat i) pa ∧ u8 (mem_byte m pa) = b.

Lemma bytes_at_tables m m' start l : same_tables m m' → mainMemory m' = mainMemory m → bytes_at m start l → bytes_at m' start l.
Proof.
  intros Hs Hm H i b Hi. destruct (H i b Hi) as (pa & Hp & Hb). exists pa. split; [by apply (maps_same m m')|].
  unfold mem_byte. by rewrite Hm.
Qed.
Lemma bytes_at_app m start l1 l2 : bytes_at m start (l1 ++ l2) ↔ bytes_at m start l1 ∧ bytes_at m (start + Z.of_nat (length l1)) l2.
Proof.
  split.
  - intros H. split; intros i b Hi.
    + apply H. by apply lookup_app_l_Some.
    + destruct (H (length l1 + i)%nat b) as (pa & Hp & Hb); [rewrite lookup_app_r by lia; by rewrite Nat.add_comm, Nat.add_sub|]. exists pa.
      by replace (start + Z.of_nat (length l1) + Z.of_nat i) with (start + Z.of_nat (length l1 + i)) by lia.
  - intros [H1 H2] i b [Hi|[Hlen Hi]]%lookup_app_Some; [by apply H1|]. destruct (H2 _ _ Hi) as (pa & Hp & Hb). exists pa.
    by replace (start + Z.of_nat i) with (start + Z.of_nat (length l1) + Z.of_nat (i - length l1)) by lia.
Qed.
Lemma settled_mem nd m : settled cur nd → same_tables (mem nd) m → settled cur (with_mem nd m).
Proof. intros [Hl Hs] Ht. split; rewrite with_mem_mem, (st_regs _ _ Ht); done. Qed.

(** What sending memory leaves: the use bits of the page table. *)
Definition looked nd nd' : Prop := ∃ m, nd' = with_mem nd m ∧ same_tables (mem nd) m ∧ mainMemory m = mainMemory (mem nd).
Lemma looked_refl nd : looked nd nd.
Proof. exists (mem nd). split; [by rewrite with_mem_id|]. split; [apply same_tables_refl|done]. Qed.
Lemma looked_trans nd1 nd2 nd3 : looked nd1 nd2 → looked nd2 nd3 → looked nd1 nd3.
Proof.
  intros (m & -> & Hs & Hm) (m' & -> & Hs' & Hm'). exists m'. split; [apply with_mem_twice|].
  split; [by eapply same_tables_trans|]. by rewrite Hm'.
Qed.
Lemma looked_settled nd nd' : settled cur nd → looked nd nd' → settled cur nd'.
Proof. intros Hs (m & -> & Ht & _). by apply settled_mem. Qed.
Lemma looked_bytes nd nd' start l : looked nd nd' → bytes_at (mem nd) start l → bytes_at (mem nd') start l.
Proof. intros (m & -> & Hs & Hm). by apply bytes_at_tables. Qed.
Lemma looked_mmu nd nd' : looked nd nd' → mmu_wf (mem nd) → mmu_wf (mem nd').
Proof. intros (m & -> & Hs & Hm) Hwf. by apply (mmu_wf_tables (mem nd)). Qed.
Lemma looked_messages nd nd' l : looked nd nd' → byte_messages nd' l = byte_messages nd l.
Proof. by intros (m & -> & _). Qed.

Lemma send_bytes_runs l nPage : ∀ j nd q, settled cur nd → mmu_wf (mem nd) → bytes_at (mem nd) (nPage * PageSize + j) l →
  0 ≤ nPage * PageSize + j → nPage * PageSize + j + Z.of_nat (length l) ≤ two31 →
  ∃ nd', runs (send_bytes u cur (length l) nPage j) nd q (Done true) nd' q (byte_messages nd l) ∧ looked nd nd'.
Proof.
  induction l as [|b l IH]; intros j nd q Hset Hwf Hb H0 Hhi; cbn [length send_bytes].
  { exists nd. split; [constructor|apply looked_refl]. }
  cbn [length] in Hhi. rewrite i32_small by lia.
  destruct (Hb 0%nat b eq_refl) as (pa & Hp & Eb). rewrite Z.add_0_r in Hp.
  destruct (ReadMem_tables fault_handler (mem nd) _ pa Hwf Hp) as (m & E & Hs & Hm).
  assert (looked nd (with_mem nd m)) as Hl by by exists m.
  apply (bytes_at_app _ _ [b]) in Hb as [_ Hb]. cbn [length] in Hb.
  destruct (IH (j + 1) (with_mem nd m) q) as (nd' & Hr & Hl').
  - by eapply looked_settled.
  - by eapply looked_mmu.
  - eapply looked_bytes; [done|]. by replace (nPage * PageSize + (j + 1)) with (nPage * PageSize + j + Z.of_nat 1) by lia.
  - lia.
  - lia.
  - exists nd'. split; [|by eapply looked_trans].
    eapply runs_quiet.
    { apply runs_local. unfold on_kernel, on_vm, on_machine, read_byte. fold (mem nd). rewrite E. cbn. reflexivity. }
    fold (with_mem nd m). cbn [default]. unfold byte_messages in *. cbn [fmap list_fmap].
    eapply runs_sends; [apply post_runs; by eapply looked_settled| |exact Hr].
    unfold message. cbn. do 2 f_equal. rewrite <- Eb. unfold u8, i8. zcases.
Qed.

Lemma send_pages_runs n : ∀ nPage l nd q, settled cur nd → mmu_wf (mem nd) → bytes_at (mem nd) (nPage * PageSize) l →
  length l = (n * Z.to_nat PageSize)%nat → 0 ≤ nPage → (nPage + Z.of_nat n) * PageSize ≤ two31 →
  ∃ nd', runs (send_pages u cur n nPage) nd q (Done true) nd' q (byte_messages nd l) ∧ looked nd nd'.
Proof.
  induction n as [|n IH]; intros nPage l nd q Hset Hwf Hb Hlen H0 Hhi; cbn [send_pages].
  { destruct l; [|done]. exists nd. split; [constructor|apply looked_refl]. }
  assert (length (take (Z.to_nat PageSize) l) = Z.to_nat PageSize) as Ht by (rewrite length_take; lia).
  rewrite <- (take_drop (Z.to_nat PageSize) l) in Hb. apply bytes_at_app in Hb as [Hb1 Hb2]. rewrite Ht in Hb2.
  destruct (send_bytes_runs (take (Z.to_nat PageSize) l) nPage 0 nd q Hset Hwf) as (nd1 & Hr1 & Hl1).
  - by rewrite Z.add_0_r.
  - unfold PageSize, SectorSize. lia.
  - rewrite Ht. unfold PageSize, SectorSize in *. lia.
  - destruct (IH (nPage + 1) (drop (Z.to_nat PageSize) l) nd1 q) as (nd2 & Hr2 & Hl2).
    + by eapply looked_settled.
    + by eapply looked_mmu.
    + eapply looked_bytes; [done|]. replace ((nPage + 1) * PageSize) with (nPage * PageSize + Z.of_nat (Z.to_nat PageSize)); [done|].
      unfold PageSize, SectorSize. lia.
    + rewrite length_drop. lia.
    + lia.
    + unfold PageSize, SectorSize in *. lia.
    + exists nd2. split; [|by eapply looked_trans]. rewrite <- (take_drop (Z.to_nat PageSize) l) at 1.
      unfold byte_messages. rewrite fmap_app. rewrite Ht in Hr1. eapply runs_seq; [exact Hr1|]. cbn [negb].
      rewrite (looked_messages nd nd1) in Hr2 by done. exact Hr2.
Qed.
End sending.

(** ** Receiving memory *)
Lemma bzero_string_zero l : 0 ∈ l → ∃ l', bzero_string l = Ok l' ∧ 0 ∈ l' ∧ length l' = length l.
Proof.
  induction l as [|c l IH]; [by intros ?%not_elem_of_nil|]. intros Hz. cbn [bzero_string]. destruct (Z.eqb_spec c 0) as [->|Hc].
  - exists (0 :: l). split; [done|]. split; [by left|done].
  - apply elem_of_cons in Hz as [<-|Hz]; [done|]. destruct (IH Hz) as (l' & -> & _ & Hl). exists (0 :: l'). split; [done|].
    split; [by left|]. cbn. by rewrite Hl.
Qed.

Section receiving.
Context (u : Leftover) (cur : Z).
Implicit Types (nd : Host) (q : list msg).

(** The connection has received something in its box; the machine's memory is [m]. *)
Record filled nd (m : Machine) nd' : Prop := mkFilled {
  fi_host : host nd' = host (with_mem nd m);
  fi_net : netAddr nd' = netAddr nd ∧ cbox nd' = cbox nd ∧ usedBoxes nd' = usedBoxes nd;
  fi_self : self nd' = self nd
}.
Lemma filled_refl nd : filled nd (mem nd) nd.
Proof. constructor; [by rewrite with_mem_id|done|done]. Qed.
Lemma filled_trans nd1 nd2 nd3 m m' : filled nd1 m nd2 → filled nd2 m' nd3 → filled nd1 m' nd3.
Proof.
  intros [E1 (N1 & B1 & C1) S1] [E2 (N2 & B2 & C2) S2]. constructor; [|split_and!; congruence|congruence].
  rewrite E2. unfold with_mem in *. cbn in *. by rewrite E1.
Qed.
Lemma filled_mem nd m nd' : filled nd m nd' → mem nd' = m.
Proof. intros [E _ _]. unfold mem. by rewrite E. Qed.
Lemma filled_pIn nd box x : filled nd (mem nd) (with_pIn nd box x).
Proof. constructor; [by rewrite with_mem_id|done|done]. Qed.
Lemma filled_store nd m : filled nd m (with_mem nd m).
Proof. by constructor. Qed.

(** A receiver of one byte messages finds a zero behind its first byte. *)
Definition byte_buffer (d : list Z) : Prop := ∃ c l, d = c :: l ∧ 0 ∈ l.
Lemma byte_received d b : byte_buffer d → ∃ l, received d [b] = Ok (b :: l) ∧ byte_buffer (b :: l) ∧ length (b :: l) = length d.
Proof.
  intros (c & l & -> & Hz). unfold received, arrived. change (Z.of_nat (length [b]) mod MaxSegmentSize =? 0) with false.
  cbn [bzero_string]. destruct (c =? 0).
  - exists l. cbn [mbind outcome_bind]. change (b :: l) with ([b] ++ drop (length [b]) (0 :: l)).
    rewrite overlay_head by (cbn; lia). split; [done|]. split; [|done]. by exists b, l.
  - destruct (bzero_string_zero l Hz) as (l' & E & Hz' & Hl). rewrite E. cbn [mbind outcome_bind].
    exists l'. rewrite overlay_head by (cbn; lia). split; [done|]. split; [by exists b, l'|]. cbn. by rewrite Hl.
Qed.

Definition bytes_from (w : Z) (l : list Z) : list msg := (λ b, mkMsg w DATA [b]) <$> l.

(** What [write_virtual] of Loader.v does with the same bytes. *)
Lemma receive_bytes_runs w l nPage : ∀ j nd q d m', byte_buffer d →
  write_virtual l (nPage * PageSize) j (mem nd) = Ok m' →
  ∃ d' nd', runs (receive_bytes (length l) nPage j d) nd (bytes_from w l ++ q) (Done d') nd' q [] ∧
    byte_buffer d' ∧ filled nd m' nd'.
Proof.
  induction l as [|b l IH]; intros j nd q d m' Hd Hw; cbn [length receive_bytes write_virtual] in *.
  { injection Hw as <-. exists d, nd. split; [constructor|]. split; [done|apply filled_refl]. }
  destruct (WriteMem fault_handler (mem nd) (i32 (nPage * PageSize + j)) 1 (i8 b)) as [[x m1]| | |] eqn:E; try discriminate Hw.
  cbn [mbind outcome_bind] in Hw. destruct (byte_received d b Hd) as (t & Hr & Hb & _).
  set (p := mkMsg w DATA [b]). set (nd1 := with_mem (heard nd p) m1).
  destruct (IH (j + 1) nd1 q (b :: t) m' Hb Hw) as (d' & nd' & Hruns & Hd' & Hf). exists d', nd'.
  split; [|split; [done|]].
  - change (bytes_from w (b :: l) ++ q) with (p :: bytes_from w l ++ q).
    eapply runs_quiet; [by apply receive_runs|]. eapply runs_quiet; [by apply runs_try|].
    eapply runs_quiet; [|exact Hruns]. apply runs_local. unfold on_kernel, on_vm, on_machine, write_byte.
    change (vm_machine (vm (host (heard nd p)))) with (mem nd). by rewrite E.
  - eapply filled_trans; [apply (filled_pIn nd (cbox nd) p)|]. eapply filled_trans; [apply filled_store|exact Hf].
Qed.

Lemma write_virtual_shift l a b i j m : a + i = b + j → write_virtual l a i m = write_virtual l b j m.
Proof.
  revert i j m. induction l as [|c l IH]; intros i j m E; [done|]. cbn [write_virtual]. rewrite E.
  destruct (WriteMem _ _ _ _ _) as [[x m1]| | |]; [|done..]. cbn [mbind outcome_bind]. apply IH. lia.
Qed.
Lemma write_virtual_app l1 l2 a i m : write_virtual (l1 ++ l2) a i m =
  (m1 ← write_virtual l1 a i m; write_virtual l2 a (i + Z.of_nat (length l1)) m1).
Proof.
  revert i m. induction l1 as [|c l IH]; intros i m; [cbn; by rewrite Z.add_0_r|]. cbn [app write_virtual length].
  destruct (WriteMem _ _ _ _ _) as [[x m1]| | |]; [|done..]. cbn [mbind outcome_bind]. rewrite IH.
  by replace (i + 1 + Z.of_nat (length l)) with (i + Z.of_nat (S (length l))) by lia.
Qed.

Lemma receive_pages_runs w n : ∀ nPage l nd q d m', byte_buffer d → length l = (n * Z.to_nat PageSize)%nat →
  write_virtual l (nPage * PageSize) 0 (mem nd) = Ok m' →
  ∃ d' nd', runs (receive_pages n nPage d) nd (bytes_from w l ++ q) (Done d') nd' q [] ∧ filled nd m' nd'.
Proof.
  induction n as [|n IH]; intros nPage l nd q d m' Hd Hl Hw; cbn [receive_pages].
  { destruct l; [|done]. cbn in Hw. injection Hw as <-. exists d, nd. split; [constructor|apply filled_refl]. }
  set (k := Z.to_nat PageSize) in *. assert (length (take k l) = k) as Ht by (rewrite length_take; lia).
  rewrite <- (take_drop k l), write_virtual_app, Ht in Hw.
  destruct (write_virtual (take k l) (nPage * PageSize) 0 (mem nd)) as [m1| | |] eqn:E1; try discriminate Hw. cbn [mbind outcome_bind] in Hw.
  destruct (receive_bytes_runs w (take k l) nPage 0 nd (bytes_from w (drop k l) ++ q) d m1 Hd E1) as (d1 & nd1 & R1 & Hd1 & F1).
  rewrite Ht in R1. rewrite (write_virtual_shift _ _ ((nPage + 1) * PageSize) _ 0), <- (filled_mem nd m1 nd1) in Hw.
  2: { done. }
  2: { subst k. change (Z.of_nat (Z.to_nat PageSize)) with PageSize. lia. }
  destruct (IH (nPage + 1) (drop k l) nd1 q d1 m' Hd1) as (d' & nd' & R2 & F2); [rewrite length_drop; lia|done|].
  exists d', nd'. split; [|by eapply filled_trans].
  rewrite <- (take_drop k l). unfold bytes_from. rewrite fmap_app, <- app_assoc. eapply runs_quiet; [exact R1|exact R2].
Qed.
End receiving.

(** ** The memory of a process arrives *)

(** Process [a] runs: its page table is in the MMU. *)
Record in_mmu (nd : Host) (a : nat) (s : AddrSpace) : Prop := mkInMmu {
  im_wf : vm_wf (vm (host nd));
  im_tlb : tlb (mem nd) = None;
  im_space : spaces (vm (host nd)) !! a = Some s;
  im_table : pageTable (mem nd) = Some (as_pageTable s);
  im_size : pageTableSize (mem nd) = numPages s
}.

Section mmu.
Context (nd : Host) (a : nat) (s : AddrSpace).
Hypothesis Hp : in_mmu nd a s.

Lemma in_mmu_table : set_pageTable (mem nd) (Some (as_pageTable s)) (numPages s) = mem nd.
Proof using Hp. rewrite <- (im_table _ _ _ Hp), <- (im_size _ _ _ Hp). by destruct (mem nd). Qed.
Lemma in_mmu_wf : mmu_wf (mem nd).
Proof using Hp.
  rewrite <- in_mmu_table. apply (space_mmu (vm (host nd)) a s); apply Hp.
Qed.
Lemma in_mmu_no_alias : no_alias (mem nd).
Proof using Hp. rewrite <- in_mmu_table. apply (space_no_alias (vm (host nd)) a s); apply Hp. Qed.
Lemma in_mmu_maps w x pa : maps (mem nd) w x pa ↔ space_map (vm (host nd)) a w x pa.
Proof using Hp. rewrite <- in_mmu_table. apply (maps_space (vm (host nd)) a s). apply Hp. Qed.
End mmu.

Lemma bytes_exist m n start : (∀ x, start ≤ x < start + Z.of_nat n → ∃ pa, maps m false x pa) →
  ∃ l, length l = n ∧ bytes_at m start l.
Proof.
  revert start. induction n as [|n IH]; intros start Hm; [by exists []|].
  destruct (Hm start) as [pa Hpa]; [lia|]. destruct (IH (start + 1)) as (l & Hl & Hb).
  { intros x Hx. apply Hm. lia. }
  exists (u8 (mem_byte m pa) :: l). split; [cbn; lia|]. intros [|i] b Hi; cbn in Hi.
  - injection Hi as <-. exists pa. by rewrite Z.add_0_r.
  - destruct (Hb i b Hi) as (p & Hp & E). exists p. by replace (start + Z.of_nat (S i)) with (start + 1 + Z.of_nat i) by lia.
Qed.

(** Every address of the first [n] pages is mapped. *)
Definition all_mapped (nd : Host) (a : nat) (w : bool) (n : Z) : Prop :=
  ∀ x, 0 ≤ x < n * PageSize → ∃ pa, space_map (vm (host nd)) a w x pa.
(** Process [b] on the machine [s'] has the bytes of process [a] on [c]. *)
Definition same_program (c : Host) (a : nat) (s' : Host) (b : nat) (n : Z) : Prop :=
  ∀ x pa, 0 ≤ x < n * PageSize → space_map (vm (host c)) a false x pa →
    ∃ pa', space_map (vm (host s')) b true x pa' ∧ mem_byte (mem s') pa' = u8 (mem_byte (mem c) pa).

Lemma space_map_fun v a w x pa pa' : space_map v a w x pa → space_map v a w x pa' → pa = pa'.
Proof. intros (s & pt & E1 & E2 & e & E3 & _ & _ & _ & ->) (s' & pt' & F1 & F2 & f & F3 & _ & _ & _ & ->). congruence. Qed.

Section memory.
Context (u : Leftover) (cur : Z).

(** The two loops on one machine each; [l] is what is sent. *)
Lemma memory_sides c a sa s b sb n d q : settled cur c → in_mmu c a sa → in_mmu s b sb → 0 ≤ n ≤ NumPhysPages →
  all_mapped c a false n → all_mapped s b true n → byte_buffer d →
  ∃ l c', let sent := bytes_from (netAddr c) l in
    runs (send_pages u cur (Z.to_nat n) 0) c q (Done true) c' q sent ∧ looked c c' ∧ ∀ q2, ∃ d' s' m',
    runs (receive_pages (Z.to_nat n) 0 d) s (sent ++ q2) (Done d') s' q2 [] ∧ filled s m' s' ∧ same_tables (mem s) m' ∧
    same_program c a s' b n ∧
    (∀ y, (∀ x, 0 ≤ x < n * PageSize → ¬ space_map (vm (host s)) b true x y) → mem_byte (mem s') y = mem_byte (mem s) y).
Proof.
  intros Hset Hc Hs Hn Hmc Hms Hd. set (k := (Z.to_nat n * Z.to_nat PageSize)%nat).
  assert (Z.of_nat k = n * PageSize) as Ek by (subst k; rewrite Nat2Z.inj_mul, !Z2Nat.id by (unfold PageSize, SectorSize; lia); done).
  assert (n * PageSize ≤ two31) as Hmax by (unfold NumPhysPages, PageSize, SectorSize, two31 in *; lia).
  destruct (bytes_exist (mem c) k 0) as (l & Hl & Hb).
  { intros x Hx. destruct (Hmc x) as [pa Hpa]; [lia|]. exists pa. by apply (in_mmu_maps c a sa Hc). }
  destruct (send_pages_runs u cur (Z.to_nat n) 0 l c q Hset (in_mmu_wf c a sa Hc) Hb Hl) as (c' & Rc & Hlook); [lia|lia|].
  destruct (write_virtual_spec l 0 0 (mem s) (in_mmu_wf s b sb Hs) (in_mmu_no_alias s b sb Hs))
    as (m' & Hw & Ht & Hwr & Hkeep); [lia|lia| |].
  { intros x Hx. destruct (Hms x) as [pa Hpa]; [lia|]. exists pa. by apply (in_mmu_maps s b sb Hs). }
  exists l, c'. split; [exact Rc|]. split; [done|]. intros q2.
  destruct (receive_pages_runs (netAddr c) (Z.to_nat n) 0 l s q2 d m' Hd Hl) as (d' & s' & Rs & Hf); [by rewrite Z.mul_0_l|].
  exists d', s', m'. split; [exact Rs|]. split; [done|]. split; [done|].
  rewrite (filled_mem s m' s') by done. split.
  - intros x pa Hx Hpa. destruct (Hms x) as [pa' Hpa']; [lia|]. exists pa'. split.
    + rewrite (fi_host _ _ _ Hf). by apply (space_map_tables (vm (host s)) m' Ht).
    + rewrite (filled_mem s m' s' Hf), (Hwr x pa') by (by apply (in_mmu_maps s b sb Hs)) || lia.
      rewrite decide_True by lia. rewrite Z.sub_0_r.
      destruct (lookup_lt_is_Some_2 l (Z.to_nat x)) as [v Hv]; [lia|]. rewrite (nth_lookup_Some _ _ _ _ Hv).
      destruct (Hb _ _ Hv) as (p & Hp & <-). rewrite Z.add_0_l, Z2Nat.id in Hp by lia.
      apply (in_mmu_maps c a sa Hc) in Hp. rewrite (space_map_fun _ _ _ _ _ _ Hpa Hp). unfold u8. by rewrite Z.mod_mod.
  - intros y Hy. apply Hkeep. intros x Hx Hm. apply (Hy x); [lia|]. by apply (in_mmu_maps s b sb Hs).
Qed.
End memory.

(** C19: Migrating the memory.  When a process of up to [NumPhysPages] pages is sent
    by [SendProcess]'s loop over its pages and received by [ListenProcess]'s
    loop into a process of as many pages, then in whatever order the machines
    run, with no [Send] giving up, both loops end; the new process has the byte of the old one at every
    virtual address, no byte outside its pages has changed, and the memory of
    the sender has not changed. *)
Theorem memory_migrates u cur (c s : Host) a sa b sb n d : settled cur c → in_mmu c a sa → in_mmu s b sb →
  0 ≤ n ≤ NumPhysPages → all_mapped c a false n → all_mapped s b true n → byte_buffer d →
  always (mkLinked (send_pages u cur (Z.to_nat n) 0) c (receive_pages (Z.to_nat n) 0 d) s [] [])
    (ended (λ ok c' _ s', ok = true ∧ same_program c a s' b n ∧ mainMemory (mem c') = mainMemory (mem c) ∧
      vm_wf (vm (host s')) ∧
      ∀ y, (∀ x, 0 ≤ x < n * PageSize → ¬ space_map (vm (host s)) b true x y) → mem_byte (mem s') y = mem_byte (mem s) y)).
Proof.
  intros Hset Hc Hs Hn Hmc Hms Hd.
  destruct (memory_sides u cur c a sa s b sb n d [] Hset Hc Hs Hn Hmc Hms Hd) as (l & c' & Rc & Hl & Hq).
  destruct (Hq []) as (d' & s' & m' & Rs & Hf & Ht & Hsame & Hkeep).
  rewrite app_nil_r in Rs. eapply always_ended.
  - eapply runs_net_a; [exact Rc|]. eapply runs_net_b; [exact Rs|]. apply rtc_refl.
  - by split.
  - cbn. split; [done|]. split; [done|]. split; [destruct Hl as (m & -> & _ & E); exact E|]. split; [|done].
    rewrite (fi_host _ _ _ Hf). apply (vm_wf_tables (vm (host s)) m' Ht). apply Hs.
Qed.

(** A machine on which process [a] runs. *)
Definition with_running (v : VM) (s : AddrSpace) (regs : list Z) : VM :=
  with_machine v (set_regs (set_pageTable (vm_machine v) (Some (as_pageTable s)) (numPages s)) regs).
Lemma running_in_mmu (nd : Host) v a s regs : vm (host nd) = with_running v s regs → vm_wf v → tlb (vm_machine v) = None →
  spaces v !! a = Some s → in_mmu nd a s.
Proof.
  intros E Hwf Htlb Hs. constructor; unfold mem; rewrite E; try done. destruct Hwf. by constructor.
Qed.
Lemma running_mapped (nd : Host) v a s regs w n : vm (host nd) = with_running v s regs →
  (∀ x, 0 ≤ x < n * PageSize → ∃ pa, space_map v a w x pa) → all_mapped nd a w n.
Proof. intros E H x Hx. destruct (H x Hx) as [pa Hp]. exists pa. by rewrite E. Qed.
Definition demo_host (v : VM) (s : AddrSpace) (addr : Z) : Host :=
  mkNode (with_vm demo_kernel (with_running v s (replicate 40 0))) (mkBitMap 3 1 [1]) addr 1 1 0 0 {[0 := replicate 40 0]}.
Lemma demo_settled v s w : settled 0 (demo_host v s w).
Proof. split; [done|]. apply lookup_singleton_eq. Qed.

Definition demo_leftover : Leftover := mkLeftover (λ _ n, replicate (Z.to_nat n) 0) (λ _, 0) (λ _, 0) 7 (replicate 128 None).

Lemma space_map_reads v a x pa : space_map v a true x pa → space_map v a false x pa.
Proof. intros (s & pt & E1 & E2 & e & E3 & E4 & _ & E5). exists s, pt. split; [done|]. split; [done|]. by exists e. Qed.

Lemma memory_migrates_witness : ∃ v a s Q, demo_vm = Ok (a, v) ∧
  always (mkLinked (send_pages demo_leftover 0 4 0) (demo_host v s 2) (receive_pages 4 0 (replicate 128 0)) (demo_host v s 1) [] []) (ended Q).
Proof.
  destruct demo_vm_spec as (a & v & s & E & Hwf & Hs & Hn & _ & Hmap & _).
  pose proof (demo_tlb a v E) as Htlb. exists v, a, s. eexists. split; [exact E|].
  apply (memory_migrates demo_leftover 0 (demo_host v s 2) (demo_host v s 1) a s a s 4 (replicate 128 0) (demo_settled v s 2)).
  - by apply (running_in_mmu _ v a s (replicate 40 0)).
  - by apply (running_in_mmu _ v a s (replicate 40 0)).
  - clear. by vm_compute.
  - apply (running_mapped _ v a s (replicate 40 0)); [done|]. intros x Hx. destruct (Hmap x Hx) as [pa Hp]. exists pa. by apply space_map_reads.
  - apply (running_mapped _ v a s (replicate 40 0)); [done|exact Hmap].
  - exists 0, (replicate 127 0). split; [done|]. apply list_elem_of_here.
Defined.

(** ** Numbers, one message each *)
Definition ints_from (w : Z) (l : list Z) : list msg := (λ v, mkMsg w DATA (le32 v)) <$> l.

Section send_numbers.
Context (u : Leftover) (cur : Z).
Implicit Types (nd : Host) (q : list msg).

Lemma send_registers_runs n tid nd q : settled cur nd → ∀ r,
  (∀ i, r ≤ i < r + Z.of_nat n → succeeds (saved_register u tid i nd)) →
  ∃ l, length l = n ∧ runs (send_registers u cur n tid r) nd q (Done true) nd q (ints_from (netAddr nd) l).
Proof.
  intros Hset. induction n as [|n IH]; intros r Hr; cbn [send_registers]; [exists []; split; [done|constructor]|].
  destruct (Hr r) as [x Hx]; [lia|]. destruct (IH (r + 1)) as (l & Hl & Rl); [intros i Hi; apply Hr; lia|].
  exists (x :: l). split; [cbn; lia|]. quiet ltac:(apply runs_local; unfold ask; by rewrite Hx).
  sends ltac:(by apply post_runs). exact Rl.
Qed.

Lemma send_sems_runs n space nd q : settled cur nd → ∀ i,
  (∀ k, i ≤ k < i + Z.of_nat n → succeeds (sem_value space k nd)) →
  ∃ l, length l = n ∧ runs (send_sems cur n space i) nd q (Done true) nd q (ints_from (netAddr nd) l) ∧
    ∀ k x, l !! k = Some x → sem_value space (i + Z.of_nat k) nd = Ok x.
Proof.
  intros Hset. induction n as [|n IH]; intros i Hi; cbn [send_sems]; [exists []; split; [done|split; [constructor|done]]|].
  destruct (Hi i) as [x Hx]; [lia|]. destruct (IH (i + 1)) as (l & Hl & Rl & Hk); [intros k Hk; apply Hi; lia|].
  exists (x :: l). split; [cbn; lia|]. split.
  - quiet ltac:(apply runs_local; unfold ask; by rewrite Hx). sends ltac:(by apply post_runs). exact Rl.
  - intros [|k] y Hy; cbn in Hy; [injection Hy as <-; by rewrite Z.add_0_r|].
    replace (i + Z.of_nat (S k)) with (i + 1 + Z.of_nat k) by lia. by apply Hk.
Qed.

Lemma send_threads_runs n space nd q : settled cur nd → ∀ i,
  (∀ k, i ≤ k < i + Z.of_nat n → ∃ o, live_thread space k nd = Ok o ∧
     ∀ t, o = Some t → ∀ r, 0 ≤ r < NumTotalRegs → succeeds (saved_register u (thread_id t) r nd)) →
  ∃ l, runs (send_threads u cur n space i) nd q (Done true) nd q (ints_from (netAddr nd) l).
Proof.
  intros Hset. induction n as [|n IH]; intros i Hi; cbn [send_threads]; [exists []; constructor|].
  destruct (Hi i) as (o & Eo & Ho); [lia|]. destruct (IH (i + 1)) as (l & Rl); [intros k Hk; apply Hi; lia|].
  assert (∃ m, runs (match o with
      | Some t => ok ← post cur (le32 (userthread_id t));
          if negb ok then Done false else send_registers u cur (Z.to_nat NumTotalRegs) (thread_id t) 0
      | None => post cur (le32 INT_MAX) end) nd q (Done true) nd q (ints_from (netAddr nd) m)) as (m & Rm).
  { destruct o as [t|].
    - destruct (send_registers_runs (Z.to_nat NumTotalRegs) (thread_id t) nd q Hset 0) as (m & _ & Rm); [by apply Ho|].
      exists (userthread_id t :: m). sends ltac:(by apply post_runs). exact Rm.
    - exists [INT_MAX]. by apply post_runs. }
  exists (m ++ l). quiet ltac:(apply runs_local; unfold ask; by rewrite Eo).
  unfold ints_from. rewrite fmap_app. eapply runs_seq; [exact Rm|]. exact Rl.
Qed.
End send_numbers.

Lemma stops_bind {S A B} (k : A → proc S B) (p : proc S A) s q o : stops p s q = Some o → stops (proc_bind k p) s q = Some o.
Proof. by destruct p. Qed.
Lemma no_zero_fault d : 0 ∉ d → bzero_string d = Fault.
Proof.
  induction d as [|c d IH]; [done|]. intros [Hc Hd]%not_elem_of_cons. cbn [bzero_string].
  rewrite (proj2 (Z.eqb_neq c 0)) by done. by rewrite IH.
Qed.
Lemma int_at_le32_total v : ∃ x, int_at (le32 v) 0 = Ok x.
Proof. by eexists. Qed.

(** What uninitialised memory must hold for [strlen] to stop in it. *)
Record leftover_ok (u : Leftover) : Prop := mkLeftoverOk {
  lo_bytes p n : 0 < n → Z.of_nat (length (l_bytes u p n)) = n ∧ 0 ∈ l_bytes u p n;
  lo_page : byte_buffer (l_bytes u page_buffer PageSize);
  lo_sems : Z.of_nat (length (l_sems u)) = MAX_SEM
}.

Section receive_numbers.
Context (u : Leftover).
Hypothesis Hu : leftover_ok u.
Implicit Types (nd : Host) (q : list msg).

Lemma receive_into_runs d v w nd q : 0 ∈ d → length d = 4%nat →
  ∃ x, int_at (le32 v) 0 = Ok x ∧
    runs (receive_into d) nd (mkMsg w DATA (le32 v) :: q) (Done (x, le32 v)) (heard nd (mkMsg w DATA (le32 v))) q [].
Proof using.
  intros Hz Hl. destruct (int_at_le32_total v) as [x Hx]. exists x. split; [done|].
  quiet ltac:(apply receive_runs, received_exact; [done|by rewrite Hl|done]). quiet ltac:(by apply runs_try). apply runs_refl.
Qed.
Lemma receive_int_runs p v w nd q :
  ∃ x, int_at (le32 v) 0 = Ok x ∧
    runs (receive_int u p) nd (mkMsg w DATA (le32 v) :: q) (Done x) (heard nd (mkMsg w DATA (le32 v))) q [].
Proof using Hu.
  destruct (lo_bytes u Hu p 4 ltac:(done)) as [Hl Hz]. destruct (receive_into_runs (l_bytes u p 4) v w nd q Hz) as (x & Hx & Hr); [lia|].
  exists x. split; [done|]. quiet ltac:(by apply runs_try, array_of_ok). quiet ltac:(exact Hr). apply runs_refl.
Qed.
Lemma receive_registers_runs p w q n : ∀ r l nd, length l = n →
  ∃ regs nd', runs (receive_registers u p n r) nd (ints_from w l ++ q) (Done regs) nd' q [] ∧ length regs = n ∧
    filled nd (mem nd) nd'.
Proof using Hu.
  induction n as [|n IH]; intros r l nd Hl; cbn [receive_registers].
  { destruct l; [|done]. exists [], nd. split; [constructor|]. split; [done|apply filled_refl]. }
  destruct l as [|v l]; [done|]. cbn in Hl. injection Hl as Hl.
  destruct (receive_int_runs (p r) v w nd (ints_from w l ++ q)) as (x & _ & R1).
  destruct (IH (r + 1) l (heard nd (mkMsg w DATA (le32 v))) Hl) as (regs & nd' & R2 & Hlen & F).
  exists (x :: regs), nd'. split; [|split; [cbn; lia|]].
  - quiet ltac:(exact R1). quiet ltac:(exact R2). apply runs_refl.
  - eapply filled_trans; [apply (filled_pIn nd (cbox nd))|exact F].
Qed.

(** Where semaphores can be put. *)
Definition sem_space nd (b : nat) : Prop := ∃ s l, spaces (vm (host nd)) !! b = Some s ∧ semLists (host nd) !! b = Some l ∧
  bm_wf (semBitmap s) ∧ numBits (semBitmap s) = MAX_SEM ∧ Z.of_nat (length l) = MAX_SEM.
Lemma put_sem_ok nd b i v : sem_space nd b → 0 ≤ i < MAX_SEM →
  ∃ k, put_sem b i v (host nd) = Ok (tt, k) ∧ sem_space (with_host nd k) b ∧ ready k = ready (host nd).
Proof using.
  intros (s & l & Hs & Hl & Hb & Hn & Hlen) Hi. unfold put_sem, get_space, get_sems. rewrite Hs, Hl. cbn [mbind outcome_bind].
  rewrite arr_set_in by lia. cbn [mbind outcome_bind]. destruct (Mark_spec (semBitmap s) i Hb) as (bm & -> & Hwf & Hbn & _); [lia|].
  eexists. split; [reflexivity|]. split; [|done].
  eexists _, _. cbn. split; [apply lookup_insert_eq|]. split; [apply lookup_insert_eq|]. cbn.
  split; [done|]. split; [by rewrite Hbn|]. by rewrite length_insert.
Qed.

(** The value that marks a free identifier has no zero byte: the next [Receive]
    into the variable runs over its end. *)
Lemma receive_sems_stop b w q n : ∀ i l d nd, sem_space nd b → length d = 4%nat → length l = n → 0 ≤ i → i + Z.of_nat n = MAX_SEM →
  (((0 ∉ d) ∧ (0 < n)%nat) ∨ ∃ k, (S k < n)%nat ∧ l !! k = Some INT_MAX) →
  ∃ n' i' d' nd' q', runs (receive_sems n b i d) nd (ints_from w l ++ q) (receive_sems (S n') b i' d') nd' q' [] ∧
    length d' = 4%nat ∧ (0 ∉ d') ∧ stops (receive_sems (S n') b i' d') nd' q' = Some Fault ∧ ready (host nd') = ready (host nd).
Proof using.
  induction n as [|n IH]; intros i l d nd Hsp Hd Hl Hi Hin Hbad.
  { exfalso. destruct Hbad as [[_ ?]|(k & ? & _)]; lia. }
  destruct l as [|v l]; [done|]. cbn in Hl. injection Hl as Hl. cbn [receive_sems].
  destruct (decide (0 ∈ d)) as [Hz|Hz].
  - destruct (receive_into_runs d v w nd (ints_from w l ++ q) Hz Hd) as (x & Hx & R1).
    set (nd1 := heard nd (mkMsg w DATA (le32 v))) in *.
    assert (∃ nd2, runs (if x =? INT_MAX then Done tt else local (on_kernel (put_sem b i x))) nd1 (ints_from w l ++ q)
              (Done tt) nd2 (ints_from w l ++ q) [] ∧ sem_space nd2 b ∧ ready (host nd2) = ready (host nd)) as (nd2 & R2 & Hsp2 & Hr2).
    { destruct (x =? INT_MAX); [exists nd1; split; [constructor|done]|].
      destruct (put_sem_ok nd1 b i x Hsp) as (k & E & Hsp' & Hr); [lia|]. exists (with_host nd1 k).
      split; [|by split]. apply runs_local. unfold on_kernel. by rewrite E. }
    destruct (IH (i + 1) l (le32 v) nd2 Hsp2 eq_refl Hl) as (n' & i' & d' & nd' & q' & R3 & Hd' & Hz' & Hst & Hr3); [lia|lia| |].
    { destruct Hbad as [[? _]|(k & Hk & E)]; [done|]. destruct k as [|k]; cbn in E.
      - injection E as ->. left. split; [|lia]. cbn. by repeat (apply not_elem_of_cons; split; [done|]); apply not_elem_of_nil.
      - right. exists k. split; [lia|done]. }
    exists n', i', d', nd', q'. split; [|split; [done|split; [done|split; [done|congruence]]]].
    quiet ltac:(exact R1). quiet ltac:(exact R2). exact R3.
  - exists n, i, d, nd. eexists. split; [apply runs_refl|]. split; [done|]. split; [done|]. split; [|done]. cbn [receive_sems]. apply stops_bind. unfold receive_into. apply stops_bind.
    unfold PO_Receive. apply stops_bind. cbn [stops]. unfold received. by rewrite (no_zero_fault d Hz).
Qed.
End receive_numbers.

(** ** A process that leaves *)

Lemma bytes_word l off : (off + 4 ≤ length l)%nat → ∃ x, int_at l off = Ok x.
Proof.
  intros Hl. pose proof (length_drop l off) as E. unfold int_at, word_at.
  destruct (drop off l) as [|b0 [|b1 [|b2 [|b3 r]]]]; cbn in E; try lia. by eexists.
Qed.

(** The current thread runs in process [a], whose tables are well formed; [m] are
    its semaphores. *)
Record departing (cur : Z) (c : Host) (a : nat) (s : AddrSpace) (m : gmap Z Semaphore) : Prop := mkDeparting {
  dp_cur : current_space cur (host c) = Ok a;
  dp_mmu : in_mmu c a s;
  dp_pages : 0 ≤ numPages s ≤ NumPhysPages ∧ all_mapped c a false (numPages s);
  dp_regs : length (registers (mem c)) = Z.to_nat NumTotalRegs;
  dp_saved tid l : self c !! tid = Some l → length l = Z.to_nat NumTotalRegs;
  dp_threads : threads_wf (vm (host c)) s;
  dp_empty i : 0 ≤ i < MaxThreadsPerProcess → bit (threadsBitmap s) i = false → localThreadsInfos s !! Z.to_nat i = Some None;
  dp_sems : sem_rel (host c) a m
}.

Section departure.
Context (u : Leftover) (cur : Z).
Hypothesis Hu : leftover_ok u.

Lemma saved_register_ok c a s m tid r : departing cur c a s m → 0 ≤ r < NumTotalRegs → succeeds (saved_register u tid r c).
Proof using Hu.
  intros Hc Hr. unfold saved_register. destruct (self c !! tid) as [l|] eqn:E.
  - pose proof (dp_saved _ _ _ _ _ Hc tid l E) as Hl. destruct (lookup_lt_is_Some_2 l (Z.to_nat r)) as [x Hx]; [lia|].
    exists x. apply arr_get_Ok. split; [lia|done].
  - destruct (lo_bytes u Hu (userRegister tid) (4 * NumTotalRegs) ltac:(done)) as [Hl _].
    destruct (bytes_word (l_bytes u (userRegister tid) (4 * NumTotalRegs)) (Z.to_nat (4 * r))) as [x Hx]; [lia|]. by exists x.
Qed.
Lemma sem_value_ok c a s m i : departing cur c a s m → 0 ≤ i < MAX_SEM →
  sem_value a i c = Ok (match m !! i with Some x => value x | None => INT_MAX end).
Proof using.
  intros Hc Hi. destruct (dp_sems _ _ _ _ _ Hc) as [(s' & l & Hs & Hl & Hb & Hn & Hlen & Hfull & Hm)].
  unfold sem_value, get_space, get_sems. rewrite Hs. cbn [mbind outcome_bind]. rewrite Test_spec by (done || lia).
  cbn [mbind outcome_bind]. destruct (bit (semBitmap s') i) eqn:E.
  - destruct (Hfull i Hi E) as (x & Hx). rewrite Hl. cbn [mbind outcome_bind].
    rewrite (proj2 (arr_get_Ok l i (Some x))) by (split; [lia|done]). cbn [mbind outcome_bind].
    by rewrite (proj2 (Hm i x) (conj Hi (conj E Hx))).
  - destruct (m !! i) as [x|] eqn:Ex; [|done]. apply Hm in Ex as (_ & Ex & _). congruence.
Qed.
Lemma live_thread_ok c a s m i : departing cur c a s m → 0 ≤ i < MaxThreadsPerProcess → succeeds (live_thread a i c).
Proof using.
  intros Hc Hi. pose proof (dp_threads _ _ _ _ _ Hc) as Hw. unfold live_thread, get_space.
  rewrite (im_space _ _ _ (dp_mmu _ _ _ _ _ Hc)). cbn [mbind outcome_bind].
  destruct (bit (threadsBitmap s) i) eqn:E.
  - destruct (tw_full _ _ Hw i Hi E) as (p & t & Hslot). pose proof Hslot as (_ & _ & Hp & Ht).
    rewrite (proj2 (arr_get_Ok _ i (Some p))) by (split; [lia|done]). cbn [mbind outcome_bind get_tinfo]. rewrite Ht.
    cbn [mbind outcome_bind]. destruct (tw_slot _ _ Hw i p t Hslot) as (_ & _ & Hid & _).
    destruct (thread_id t <? MaxThreads); [|by eexists]. destruct (kthreads (host c) !! thread_id t); [|by eexists].
    destruct (tw_tid _ _ Hw) as (Hb & Hn & _). rewrite Test_spec by (done || lia). by eexists.
  - rewrite (proj2 (arr_get_Ok _ i None)) by (split; [lia|by apply (dp_empty _ _ _ _ _ Hc)]). by eexists.
Qed.

(** With the pages sent, the rest goes out and the sender believes in success. *)
Lemma send_state_runs c c1 a s m q sent : settled cur c → departing cur c a s m → looked c c1 →
  bm_wf (usedBoxes c) → 0 ≤ inBox c < numBits (usedBoxes c) →
  runs (send_pages u cur (Z.to_nat (numPages s)) 0) c q (Done true) c1 q sent →
  ∃ c' regs sems rest, runs (send_state u cur a) c q (Done true) c' q
      (mkMsg (netAddr c) DATA (le32 (numPages s)) :: sent ++ ints_from (netAddr c) regs ++ ints_from (netAddr c) sems ++ rest) ∧
    length regs = Z.to_nat NumTotalRegs ∧ length sems = Z.to_nat MAX_SEM ∧
    ∀ k, (k < Z.to_nat MAX_SEM)%nat → m !! Z.of_nat k = None → sems !! k = Some INT_MAX.
Proof using Hu.
  intros Hset Hc Hlk Hb Hin Rp. pose proof (looked_settled cur c c1 Hset Hlk) as Hset1.
  assert (get_space (vm (host c)) a = Ok s ∧ get_space (vm (host c1)) a = Ok s) as [Es Es1].
  { unfold get_space. destruct Hlk as (m1 & -> & _). cbn. by rewrite (im_space _ _ _ (dp_mmu _ _ _ _ _ Hc)). }
  assert (netAddr c1 = netAddr c ∧ usedBoxes c1 = usedBoxes c ∧ inBox c1 = inBox c) as (Ew & Eb & Ei) by by destruct Hlk as (m1 & -> & _).
  assert (∀ tid r, saved_register u tid r c1 = saved_register u tid r c) as Er by by destruct Hlk as (m1 & -> & _).
  assert (∀ i, sem_value a i c1 = sem_value a i c) as Esem by by destruct Hlk as (m1 & -> & _).
  assert (∀ i, live_thread a i c1 = live_thread a i c) as Eth by by destruct Hlk as (m1 & -> & _).
  destruct (send_registers_runs u cur (Z.to_nat NumTotalRegs) cur c1 q Hset1 0) as (regs & Hregs & R1).
  { intros i Hi. rewrite Er. by apply (saved_register_ok c a s m). }
  destruct (send_sems_runs cur (Z.to_nat MAX_SEM) a c1 q Hset1 0) as (sems & Hsems & R2 & Hval).
  { intros i Hi. rewrite Esem, (sem_value_ok c a s m i Hc) by done. by eexists. }
  destruct (send_threads_runs u cur (Z.to_nat MaxThreadsPerProcess) a c1 q Hset1 0) as (ths & R3).
  { intros i Hi. rewrite Eth. destruct (live_thread_ok c a s m i Hc) as [o Eo]; [done|]. exists o. split; [done|].
    intros t _ r Hr. rewrite Er. by apply (saved_register_ok c a s m). }
  destruct (Clear_spec (usedBoxes c) (inBox c) Hb Hin) as (bm & Ec & _).
  exists (with_usedBoxes c1 bm), regs, sems, (mkMsg (netAddr c) DATA (le32 (nThreads s)) :: ints_from (netAddr c) ths).
  rewrite Ew in R1, R2, R3. split; [|split; [done|split; [done|]]].
  - unfold send_state. quiet ltac:(by apply runs_local; unfold ask; rewrite Es). rewrite i32_small.
    2: { pose proof (proj1 (dp_pages _ _ _ _ _ Hc)). unfold NumPhysPages, two31 in *. lia. }
    sends ltac:(by apply post_runs). eapply runs_seq; [exact Rp|]. cbn [negb].
    eapply runs_seq; [exact R1|]. cbn [negb]. eapply runs_seq; [exact R2|]. cbn [negb].
    quiet ltac:(by apply runs_local; unfold ask; rewrite Es1). eapply runs_sends; [by apply post_runs|by rewrite <- Ew|].
    cbn [negb]. rewrite <- (app_nil_r (ints_from _ ths)). eapply runs_seq; [exact R3|]. cbn [negb].
    quiet ltac:(by apply runs_local; rewrite Eb, Ei, Ec). apply runs_refl.
  - intros k Hk Hnone. destruct (lookup_lt_is_Some_2 sems k) as [x Hx]; [lia|]. rewrite Hx. f_equal.
    pose proof (Hval k x Hx) as E. rewrite Esem, (sem_value_ok c a s m) in E by (done || lia). rewrite Z.add_0_l, Hnone in E. congruence.
Qed.
End departure.

(** ** A process that arrives *)
Definition thread_tables (v : VM) := (tidMap v, threadsInfos v, tinfos v).
Lemma map_pages_tids n i v pt v' : map_pages n i v = Ok (pt, v') → thread_tables v' = thread_tables v.
Proof.
  revert i v pt. induction n as [|n IH]; intros i v pt E; cbn in E; [by injection E as _ <-|].
  apply bind_Ok_inv in E as ([[f m'] fp] & _ & E). apply bind_Ok_inv in E as ([rest v1] & E1 & E).
  injection E as _ <-. by apply IH in E1.
Qed.
(** What the constructor of AddrSpace.v leaves besides the memory. *)
Record fresh_space (s : AddrSpace) : Prop := mkFreshSpace {
  fs_sems : bm_wf (semBitmap s) ∧ numBits (semBitmap s) = MAX_SEM;
  fs_sem i : 0 ≤ i < MAX_SEM → bit (semBitmap s) i = false;
  fs_slots : bm_wf (threadsBitmap s) ∧ numBits (threadsBitmap s) = MaxThreadsPerProcess;
  fs_slot i : 0 ≤ i < MaxThreadsPerProcess → bit (threadsBitmap s) i = false;
  fs_infos : localThreadsInfos s = replicate (Z.to_nat MaxThreadsPerProcess) None;
  fs_next : nextUserThreadid s = 1
}.
Lemma new_bits junk n b : 0 ≤ n → BitMap_new junk n = Ok b → (bm_wf b ∧ numBits b = n) ∧ ∀ i, 0 ≤ i < n → bit b i = false.
Proof.
  intros Hn E. destruct (BitMap_new_ok junk n Hn) as (b' & E' & Hb & Hbn & Hf). rewrite E in E'. injection E' as <-.
  split; [done|]. intros i Hi. apply (elem_of_free_set b i). rewrite Hf. apply elem_of_list_to_set, elem_of_seqZ. lia.
Qed.
Lemma AddrSpace_new_rest junk junkThreads tid n v a v' s : AddrSpace_new junk junkThreads tid n v = Ok (a, v') →
  spaces v' !! a = Some s → thread_tables v' = thread_tables v ∧ fresh_space s.
Proof.
  intros E Hs. unfold AddrSpace_new in E. apply bind_Ok_inv in E as ([p v1] & E1 & E). apply bind_Ok_inv in E as (l & _ & E).
  apply bind_Ok_inv in E as ([pt v3] & E3 & E). apply bind_Ok_inv in E as (sem & E4 & E). apply bind_Ok_inv in E as (s' & E5 & E).
  injection E as <- <-. cbn in Hs. rewrite lookup_insert_eq in Hs. injection Hs as ->. split.
  - assert (thread_tables v1 = thread_tables v) as <-.
    { unfold GetNewPid in E1. by apply bind_Ok_inv in E1 as ([p' b'] & _ & [= _ <-]). }
    unfold build_page_table in E3. apply bind_Ok_inv in E3 as (fp & _ & E3). apply bind_Ok_inv in E3 as (? & _ & E3).
    apply bind_Ok_inv in E3 as (? & _ & E3). apply bind_Ok_inv in E3 as ([pt' v4] & E6 & E3). apply bind_Ok_inv in E3 as (fp2 & _ & E3).
    injection E3 as _ <-. exact (map_pages_tids _ _ _ _ _ E6).
  - unfold InitializeThreadData in E5. apply bind_Ok_inv in E5 as (b & E6 & [= <-]).
    destruct (new_bits junk MAX_SEM sem ltac:(done) E4) as [H1 H2].
    destruct (new_bits junk MaxThreadsPerProcess b ltac:(done) E6) as [H3 H4]. by constructor.
Qed.

(** A machine that can take a process of [n] pages. *)
Record arriving (cur : Z) (s : Host) (n : Z) : Prop := mkArriving {
  ar_vm : vm_wf (vm (host s)) ∧ tlb (mem s) = None;
  ar_pid : pids_wf (vm (host s)) ∧ free_set (pidMap (vm (host s))) ≠ ∅;
  ar_frames : 0 ≤ n ≤ Z.of_nat (size (fp_free (vm_frames (vm (host s)))));
  ar_thread : is_Some (kthreads (host s) !! cur);
  ar_tids : bm_wf (tidMap (vm (host s))) ∧ 0 ≤ lastTid (host s) ∧ free_set (tidMap (vm (host s))) ≠ ∅
}.
(** One that can accept a connection for a process. *)
Definition listening (s : Host) : Prop := bm_wf (usedBoxes s) ∧ free_set (usedBoxes s) ≠ ∅ ∧
  nUsedAddrSpaceLock (host s) = None ∧ nUsedAddrSpace (host s) < MaxProcesses.

Section arrival.
Context (u : Leftover) (cur : Z).
Hypothesis Hu : leftover_ok u.

Lemma on_kernel_runs {A} (f : M Kernel A) nd a k q : f (host nd) = Ok (a, k) →
  runs (local (on_kernel f)) nd q (Done a) (with_host nd k) q [].
Proof using. intros E. apply runs_local. unfold on_kernel. by rewrite E. Qed.

(** The new process is made and its page table is in the MMU. *)
Lemma new_space_ok s n : arriving cur s n → n ≤ NumPhysPages →
  ∃ a sa k, new_space u cur n (host s) = Ok (a, k) ∧ spaces (vm k) !! a = Some sa ∧ numPages sa = n ∧
    let k2 := with_vm k (with_machine (vm k) (set_pageTable (vm_machine (vm k)) (Some (as_pageTable sa)) n)) in
    in_mmu (with_host s k2) a sa ∧ all_mapped (with_host s k2) a true n ∧ sem_space (with_host s k2) a ∧
    kthreads k2 = kthreads (host s) ∧ ready k2 = ready (host s) ∧
    bm_wf (tidMap (vm k2)) ∧ 0 ≤ lastTid k2 ∧ free_set (tidMap (vm k2)) ≠ ∅.
Proof using Hu.
  intros Hs Hn. destruct (ar_vm _ _ _ Hs) as [Hwf Htlb]. destruct (ar_pid _ _ _ Hs) as [Hp Hpf].
  destruct (AddrSpace_new_full (l_bitmap u) (l_nThreads u) cur n (vm (host s)) Hwf Hp Hpf (ar_frames _ _ _ Hs))
    as (a & v' & sa & E & Hwf' & _ & _ & Hsa & Hnum & _ & _ & _ & Hmap & _ & _ & _ & _ & Htlb' & _).
  destruct (AddrSpace_new_rest _ _ _ _ _ _ _ _ E Hsa) as (Etab & Hfresh). pose proof (f_equal (λ p, fst (fst p)) Etab) as Etid. cbn in Etid. destruct (fs_sems _ Hfresh) as [Hsb Hsn].
  unfold new_space. rewrite E. eexists a, sa, _. split; [reflexivity|]. split; [done|]. split; [done|]. split; [|split; [|split]].
  - constructor; try done; [by destruct Hwf'; constructor|]. unfold mem. cbn. by rewrite Htlb'.
  - exact Hmap.
  - exists sa, (l_sems u). split; [done|]. split; [apply lookup_insert_eq|]. split; [done|]. split; [done|]. apply (lo_sems u Hu).
  - cbn. rewrite Etid. destruct (ar_tids _ _ _ Hs) as (? & ? & ?). done.
Qed.

Lemma main_thread_ok k : bm_wf (tidMap (vm k)) → 0 ≤ lastTid k → free_set (tidMap (vm k)) ≠ ∅ →
  ∃ tid k', main_thread k = Ok (tid, k') ∧ spaces (vm k') = spaces (vm k) ∧ semLists k' = semLists k ∧ ready k' = ready k.
Proof using.
  intros Hb Hl Hf. unfold main_thread.
  destruct (GetNewThreadId_spec (mkThread None true (mkThreadArg 0 0 0)) k Hb Hl Hf) as (tid & tm & -> & Hr & _).
  cbn [mbind outcome_bind]. rewrite (proj2 (Z.eqb_neq tid (-1))) by lia. by eexists _, _.
Qed.

(** The program is about to receive the number of a semaphore into a variable
    that holds no zero byte. *)
Definition overruns (p : proc Host Z) : Prop := ∃ n b i (d : list Z) (k : unit → proc Host Z),
  p = proc_bind k (receive_sems (S n) b i d) ∧ length d = 4%nat ∧ 0 ∉ d.

(** Everything up to the semaphores is received. *)
Lemma receive_state_stops s n w d tmp : arriving cur s n → n ≤ NumPhysPages →
  ∃ a sb s2, in_mmu s2 a sb ∧ all_mapped s2 a true n ∧
  ∀ l d' s3 m' regs sems rest, let tail := ints_from w regs ++ ints_from w sems ++ rest in
    runs (receive_pages (Z.to_nat n) 0 d) s2 (bytes_from w l ++ tail) (Done d') s3 tail [] → filled s2 m' s3 →
    same_tables (mem s2) m' → length regs = Z.to_nat NumTotalRegs → length sems = Z.to_nat MAX_SEM →
    (∃ k, (S k < Z.to_nat MAX_SEM)%nat ∧ sems !! k = Some INT_MAX) →
    ∃ p s' q', runs (receive_state u cur d tmp) s (mkMsg w DATA (le32 n) :: bytes_from w l ++ tail) p s' q' [] ∧
      overruns p ∧ stops p s' q' = Some Fault ∧ ready (host s') = ready (host s).
Proof using Hu.
  intros Hs Hn. pose proof (ar_frames _ _ _ Hs) as Hn0.
  assert (is_i32 n ∧ is_u32 n) as [Hi Hu32] by (unfold is_i32, is_u32, two31, two32, NumPhysPages in *; lia).
  destruct (new_space_ok s n Hs Hn) as (a & sa & k & E & Hsa & Hnum & Hmmu & Hmap & Hsem & Hkt & Hrd & Htm & Hlt & Hft).
  set (k2 := with_vm k _) in *. destruct (ar_thread _ _ _ Hs) as [th Hth]. rewrite <- Hkt in Hth.
  set (s1 := heard s (mkMsg w DATA (le32 n))).
  set (k3 := with_kthreads k2 (lastTid k2) (<[cur := mkThread (Some a) (isMain th) (t_arg th)]> (kthreads k2))).
  exists a, sa, (with_host s1 k3). split; [exact (mkInMmu (with_host s1 k3) a sa (im_wf _ _ _ Hmmu) (im_tlb _ _ _ Hmmu) (im_space _ _ _ Hmmu) (im_table _ _ _ Hmmu) (im_size _ _ _ Hmmu))|].
  split; [exact Hmap|]. intros l d' s3 m' regs sems rest tail Rp Hfill Htab Hregs Hsems Hbad.
  destruct (main_thread_ok (host s3)) as (tid & k4 & Em & Esp & Esl & Erd); [rewrite (fi_host _ _ _ Hfill); done..|].
  destruct (receive_registers_runs u Hu reg_value w (ints_from w sems ++ rest) (Z.to_nat NumTotalRegs) 0 regs (with_host s3 k4) Hregs)
    as (rs & s4 & Rr & Hrs & F4).
  set (s5 := with_self s4 (<[tid := <[2%nat := 1]> rs]> (self s4))).
  destruct (lo_bytes u Hu semValue_ 4 ltac:(done)) as [Hl4 Hz4].
  destruct (receive_sems_stop a w rest (Z.to_nat MAX_SEM) 0 sems (l_bytes u semValue_ 4) s5) as (n' & i' & d2 & s' & q' & Rs & Hd2 & Hz2 & Hst & Hrd').
  { destruct Hsem as (sx & lx & H1 & H2 & H3). exists sx, lx. cbn. rewrite (fi_host _ _ _ F4). cbn. rewrite Esp, Esl, (fi_host _ _ _ Hfill).
    split; [exact H1|]. split; [exact H2|exact H3]. }
  { lia. }
  { done. }
  { done. }
  { done. }
  { by right. }
  eexists _, s', q'. split; [|split; [|split]].
  - unfold receive_state. destruct (receive_int_runs u Hu nPages_ n w s (bytes_from w l ++ tail)) as (x & Ex & R1).
    rewrite <- (app_nil_r (le32 n)) in Ex. rewrite (int_at_le32 [] n [] 0 eq_refl Hi : int_at (le32 n ++ []) 0 = Ok n) in Ex.
    injection Ex as <-. quiet ltac:(exact R1). rewrite (u32_id n Hu32).
    quiet ltac:(apply on_kernel_runs; exact E). quiet ltac:(apply runs_local; unfold ask, get_space; cbn; rewrite Hsa; done).
    quiet ltac:(by apply on_kernel_runs; unfold on_vm, RestoreState, get_space; cbn [host with_host]; rewrite Hsa; cbn [mbind outcome_bind]; rewrite Hnum).
    quiet ltac:(apply on_kernel_runs; unfold assign_space, set_space; cbn [host with_host]; fold k2; rewrite Hth; reflexivity).
    quiet ltac:(exact Rp). quiet ltac:(by apply on_kernel_runs). quiet ltac:(exact Rr).
    quiet ltac:(apply runs_try, arr_set_in; rewrite Hrs; done). quiet ltac:(by apply runs_local).
    quiet ltac:(by apply runs_try, array_of_ok). apply runs_bind. exact Rs.
  - exists n', a, i', d2. eexists. split; [reflexivity|]. by split.
  - by apply stops_bind.
  - rewrite Hrd'. cbn. rewrite (fi_host _ _ _ F4). cbn. rewrite Erd, (fi_host _ _ _ Hfill). exact Hrd.
Qed.
End arrival.

Lemma stops_stuck {S A} (p : proc S A) s q o : stops p s q = Some o → advance Acknowledged p s q = None.
Proof.
  destruct p as [a| |X f g|m g|d g]; cbn [stops advance]; try done.
  - by destruct (f s) as [[x t]| | |].
  - destruct q as [|m q]; [done|]. by destruct (received d (msg_bytes m)).
Qed.
(** One program has ended and the other has failed. *)
Lemma half_ended_nf {SA A SB B} (n : net SA A SB B) a o : pa n = Done a → stops (pb n) (sb n) (a2b n) = Some o → nf net_step n.
Proof.
  intros Ea Eb [n' H]. inversion H as [m p s q out E|m p s q out E]; subst; [rewrite Ea in E; discriminate E|].
  by rewrite (stops_stuck _ _ _ _ Eb) in E.
Qed.

Section lost.
Context (uc us : Leftover) (cc cs : Z).
Hypothesis Huc : leftover_ok uc.
Hypothesis Hus : leftover_ok us.

(** A connection leaves the process as it is. *)
Lemma departing_connected c c' a s m : departing cc c a s m → host c' = host c → self c' = <[cc := registers (mem c)]> (self c) →
  departing cc c' a s m ∧ settled cc c'.
Proof using.
  intros [H1 [I1 I2 I3 I4 I5] [H3 H3'] H4 H5 H6 H7 H8] Eh Es. unfold mem in *. split.
  - constructor; unfold mem, all_mapped; rewrite ?Eh; try done.
    + by constructor; unfold mem; rewrite Eh.
    + intros tid l. rewrite Es. destruct (decide (tid = cc)) as [->|].
      * rewrite lookup_insert_eq. by intros [= <-].
      * rewrite lookup_insert_ne by done. apply H5.
  - split; unfold mem; rewrite Eh; [done|]. rewrite Es. apply lookup_insert_eq.
Qed.

(** Up to the answer of the other side. *)
Definition answered (a : nat) : proc Host bool :=
  c ← (d ← PO_Receive (l_bytes uc Connect_buffer MaxSegmentSize); s ← try (string_of d); _ ← check (bool_decide (s = [67])); Done true);
  _ ← try (if negb c then Fault else Ok tt); send_state uc cc a.
Lemma connect_side c a s m far t : departing cc c a s m → bm_wf (usedBoxes c) → free_set (usedBoxes c) ≠ ∅ → far ≠ netAddr c →
  ∃ c1, runs (SendProcess uc cc far t) c [] (answered a) c1 [] [mkMsg (netAddr c) CONN (le32 t)] ∧
    departing cc c1 a s m ∧ settled cc c1 ∧ bm_wf (usedBoxes c1) ∧ 0 ≤ cbox c1 < numBits (usedBoxes c1) ∧ netAddr c1 = netAddr c.
Proof using.
  intros Hc Hb Hf Hfar. destruct (Find_spec (usedBoxes c) Hb) as [[_ Hno]|(box & bm & Ef & _ & Hbox & _ & (Hwf & Hn & _) & _)]; [done|].
  set (c0 := with_self c (<[cc := registers (mem c)]> (self c))).
  destruct (departing_connected c (with_box (with_usedBoxes c0 bm) box) a s m Hc eq_refl eq_refl) as [Hd Hset].
  exists (with_box (with_usedBoxes c0 bm) box). split; [|split; [done|split; [done|split; [done|split; [|done]]]]].
  - unfold SendProcess. quiet ltac:(by apply runs_local; unfold ask; rewrite (dp_cur _ _ _ _ _ Hc)).
    quiet ltac:(apply save_runs, (dp_regs _ _ _ _ _ Hc)). apply runs_bind. apply (connect_runs c0); [done|exact Ef|lia].
  - cbn. rewrite Hn. done.
Qed.

Lemma listen_side s n w t q : arriving cs s n → listening s →
  ∃ s1 d tmp, runs (ListenProcess us cs) s (mkMsg w CONN (le32 t) :: q) (receive_state us cs d tmp) s1 q [mkMsg (netAddr s) DATA [67; 0]] ∧
    arriving cs s1 n ∧ byte_buffer d ∧ ready (host s1) = ready (host s).
Proof using Hus.
  intros Hs (Hb & Hf & Hlock & Hmax). destruct (ar_thread _ _ _ Hs) as [th Hth].
  destruct (Find_spec (usedBoxes s) Hb) as [[_ Hno]|(box & bm & Ef & _ & Hbox & _)]; [done|].
  destruct (lo_bytes us Hus Listen_buffer MaxSegmentSize ltac:(done)) as [Hl Hz].
  destruct (received_prefix (l_bytes us Listen_buffer MaxSegmentSize) (le32 t) Hz) as (r & Hr & _).
  { rewrite le32_length. change MaxSegmentSize with 32 in *. lia. }
  { done. }
  eexists _, _, _. split; [|split; [|split; [exact (lo_page us Hus)|]]].
  - unfold ListenProcess. quiet ltac:(by apply runs_try, array_of_ok). quiet ltac:(by apply runs_local; unfold ask; rewrite Hth).
    sends ltac:(apply (listen_runs s _ w t box bm q r); [done|lia|done]). cbn [negb].
    quiet ltac:(apply on_kernel_runs; unfold claim_space, mutex_release; cbn [host with_pIn with_box with_usedBoxes]; rewrite Hlock; cbn [mutex_acquire mbind outcome_bind];
      rewrite Z.eqb_refl; cbn [ASSERT mbind outcome_bind]; rewrite (proj2 (Z.leb_gt _ _)) by done; reflexivity). apply runs_refl.
  - destruct Hs. constructor; try done.
  - done.
Qed.

(** C39: A migration that loses the process.  [SendProcess] sends the number INT_MAX
    for every semaphore identifier that is not in use, and [ListenProcess]
    receives all 128 numbers into one variable with [ReceivePayload], which
    looks for a zero byte in it first.  When any identifier but the last is
    free, then every schedule of the two machines in which no [Send] gives up
    leads the receiver, with the pages and the registers of the main thread
    already received, to a [Receive] of the loop over the semaphores into a
    variable of four bytes none of which is zero: that call reads past the
    variable, which is undefined behaviour, and no thread has been made ready
    before it. *)
Theorem migration_loses_process (c s : Host) a sa m j far t : departing cc c a sa m → arriving cs s (numPages sa) → listening s →
  bm_wf (usedBoxes c) → free_set (usedBoxes c) ≠ ∅ → far ≠ netAddr c → 0 ≤ j < MAX_SEM - 1 → m !! j = None →
  always (mkLinked (SendProcess uc cc far t) c (ListenProcess us cs) s [] [])
    (λ z, overruns (pb z) ∧ stops (pb z) (sb z) (a2b z) = Some Fault ∧ ready (host (sb z)) = ready (host s)).
Proof.
  intros Hc Hs Hls Hb Hf Hfar Hj Hnone. destruct (dp_pages _ _ _ _ _ Hc) as [Hn Hmapped].
  destruct (connect_side c a sa m far t Hc Hb Hf Hfar) as (c1 & R1 & Hc1 & Hset1 & Hb1 & Hbox1 & Hw).
  destruct (listen_side s (numPages sa) (netAddr c) t [] Hs Hls) as (s1 & d & tmp & R2 & Hs1 & Hd & Hr1).
  set (m1 := mkMsg (netAddr s) DATA [67; 0]) in *. set (c2 := heard c1 m1).
  destruct (lo_bytes uc Huc Connect_buffer MaxSegmentSize ltac:(done)) as [Hl Hz].
  assert (departing cc c2 a sa m ∧ settled cc c2) as [Hc2 Hset2].
  { split; [|exact Hset1]. destruct Hc1 as [H1 [I1 I2 I3 I4 I5] H3 H4 H5 H6 H7 H8]. by constructor. }
  destruct (receive_state_stops us cs Hus s1 (numPages sa) (netAddr c) d tmp Hs1) as (b & sb & s2 & Hm2 & Hmap2 & Hstop); [lia|].
  destruct (memory_sides uc cc c2 a sa s2 b sb (numPages sa) d [] Hset2 (dp_mmu _ _ _ _ _ Hc2) Hm2 Hn (proj2 (dp_pages _ _ _ _ _ Hc2)) Hmap2 Hd)
    as (l & c3 & Rp & Hlook & Hrecv).
  destruct (send_state_runs uc cc Huc c2 c3 a sa m [] _ Hset2 Hc2 Hlook Hb1 Hbox1 Rp) as (c4 & regs & sems & rest & R4 & Hregs & Hsems & Hfree).
  set (tail := ints_from (netAddr c) regs ++ ints_from (netAddr c) sems ++ rest).
  destruct (Hrecv tail) as (d' & s3 & m' & Rs & Hfill & Htab & _).
  change (netAddr c2) with (netAddr c1) in *. rewrite Hw in *.
  destruct (Hstop l d' s3 m' regs sems rest Rs Hfill Htab Hregs Hsems) as (p & s4 & q' & R5 & Hov & Hst & Hr4).
  { exists (Z.to_nat j). split; [unfold MAX_SEM in *; lia|]. apply Hfree; [unfold MAX_SEM in *; lia|]. by rewrite Z2Nat.id by lia. }
  assert (runs (answered a) c1 [m1] (Done true) c4 []
    (mkMsg (netAddr c) DATA (le32 (numPages sa)) :: bytes_from (netAddr c) l ++ tail)) as R3.
  { unfold answered. quiet ltac:(apply connected_runs; [done|change MaxSegmentSize with 32 in *; lia]).
    quiet ltac:(by apply runs_try). exact R4. }
  set (z := mkLinked (Done true : proc Host bool) c4 p s4 q' []).
  assert (rtc net_step (mkLinked (SendProcess uc cc far t) c (ListenProcess us cs) s [] []) z) as Hrun.
  { eapply runs_net_a; [exact R1|]. eapply runs_net_b; [exact R2|]. eapply runs_net_a; [exact R3|]. eapply runs_net_b; [exact R5|].
    apply rtc_refl. }
  assert (nf net_step z) as Hnf by (by apply (half_ended_nf z true Fault)).
  exists z. split; [split; [exact Hov|split; [exact Hst|cbn; congruence]]|]. split; [done|]. by apply net_ends.
Qed.
End lost.

(** ** Witness: a process of four pages without semaphores *)
Definition migrant (v : VM) (self : option nat) (a : nat) (addr : Z) : Host :=
  mkNode (mkKernel v None 3 {[0 := mkThread self true (mkThreadArg 0 0 0)]} [] {[a := []]} ∅ {[a := replicate 128 None]} 1 None (Semaphore_new 0))
    (mkBitMap 3 1 [1]) addr 1 1 0 0 ∅.
Lemma migrant_boxes : bm_wf (mkBitMap 3 1 [1]) ∧ free_set (mkBitMap 3 1 [1]) ≠ ∅.
Proof.
  split.
  - split; [done|]. split; [done|]. split; [done|]. repeat (apply Forall_cons; split); try apply Forall_nil; by vm_compute.
  - intros E. apply (not_elem_of_empty (C := gset Z) 1). rewrite <- E. apply elem_of_free_set. by vm_compute.
Qed.
Lemma empty_sem_rel k a s l : spaces (vm k) !! a = Some s → semLists k !! a = Some l → Z.of_nat (length l) = MAX_SEM →
  fresh_space s → sem_rel k a ∅.
Proof.
  intros Hs Hl Hlen Hf. constructor. exists s, l. destruct (fs_sems _ Hf) as [Hb Hn].
  split; [done|]. split; [done|]. split; [done|]. split; [done|]. split; [done|]. split.
  - intros i Hi Hbit. by rewrite (fs_sem _ Hf i Hi) in Hbit.
  - intros i x. rewrite lookup_empty. split; [done|]. intros (Hi & Hbit & _). by rewrite (fs_sem _ Hf i Hi) in Hbit.
Qed.
Lemma empty_threads_wf v s : fresh_space s → bm_wf (tidMap v) ∧ numBits (tidMap v) = MaxThreads ∧
  Z.of_nat (length (threadsInfos v)) = MaxThreads → tinfos v = ∅ → threads_wf v s.
Proof.
  intros Hf Ht Hi. destruct (fs_slots _ Hf) as [Hb Hn].
  assert (∀ i a t, ¬ slot v s i a t) as Hno.
  { intros i a t (Hr & Hbit & _). by rewrite (fs_slot _ Hf i Hr) in Hbit. }
  constructor; try done.
  - rewrite (fs_infos _ Hf), length_replicate. done.
  - rewrite (fs_next _ Hf). done.
  - intros a t. by rewrite Hi, lookup_empty.
  - intros i Hr Hbit. by rewrite (fs_slot _ Hf i Hr) in Hbit.
  - by intros i a t ?%Hno.
  - by intros i a t j b u ?%Hno.
Qed.
Lemma migrant_departs v a s addr : vm_wf v → tlb (vm_machine v) = None → spaces v !! a = Some s → numPages s = 4 →
  (∀ x, 0 ≤ x < 4 * PageSize → ∃ pa, space_map v a true x pa) → fresh_space s → bm_wf (tidMap v) ∧ numBits (tidMap v) = MaxThreads ∧
  Z.of_nat (length (threadsInfos v)) = MaxThreads → tinfos v = ∅ →
  departing 0 (migrant (with_running v s (replicate 40 0)) (Some a) a addr) a s ∅.
Proof.
  intros Hwf Htlb Hs Hn Hmap Hfresh Ht Hi. constructor.
  - reflexivity.
  - by apply (running_in_mmu _ v a s (replicate 40 0)).
  - rewrite Hn. split; [done|]. apply (running_mapped _ v a s (replicate 40 0)); [done|].
    intros x Hx. destruct (Hmap x Hx) as [pa Hp]. exists pa. by apply space_map_reads.
  - reflexivity.
  - intros tid l E. change ((∅ : gmap Z (list Z)) !! tid = Some l) in E. by rewrite lookup_empty in E.
  - by apply empty_threads_wf.
  - intros i Hr _. rewrite (fs_infos _ Hfresh). apply lookup_replicate. split; [done|]. unfold MaxThreadsPerProcess in *. lia.
  - eapply empty_sem_rel; [exact Hs|apply lookup_singleton_eq|done|done].
Qed.

Lemma demo_leftover_ok : leftover_ok demo_leftover.
Proof.
  constructor.
  - intros p n Hn. cbn. rewrite length_replicate. split; [lia|]. destruct (Z.to_nat n) eqn:E; [lia|]. apply list_elem_of_here.
  - exists 0, (replicate 127 0). split; [done|]. apply list_elem_of_here.
  - done.
Qed.
Lemma migrant_arrives v addr a : vm_wf v → tlb (vm_machine v) = None → pids_wf v → free_set (pidMap v) ≠ ∅ →
  4 ≤ Z.of_nat (size (fp_free (vm_frames v))) → bm_wf (tidMap v) → free_set (tidMap v) ≠ ∅ →
  arriving 0 (migrant v None a addr) 4 ∧ listening (migrant v None a addr).
Proof.
  intros Hwf Htlb Hp Hpf Hsz Ht Htf. split.
  - by constructor.
  - destruct migrant_boxes. done.
Qed.
Lemma migration_loses_process_witness : ∃ v0 a v s, Initialize_vm (λ _, 170) None None 0 = Ok v0 ∧
  AddrSpace_new (λ _, 85) 3 1 4 v0 = Ok (a, v) ∧
  always (mkLinked (SendProcess demo_leftover 0 1 99) (migrant (with_running v s (replicate 40 0)) (Some a) a 2)
      (ListenProcess demo_leftover 0) (migrant v0 None 7%nat 1) [] [])
    (λ z, overruns (pb z) ∧ stops (pb z) (sb z) (a2b z) = Some Fault ∧ ready (host (sb z)) = []).
Proof.
  destruct (Initialize_vm_spec (λ _, 170) None None 0) as (v0 & E0 & Hwf & Hp & _ & Hsz & Hf & Ht & Htn & Htf & Hti & Htt).
  pose proof (initial_tlb _ _ _ _ _ E0) as Htlb.
  destruct (AddrSpace_new_full (λ _, 85) 3 1 4 v0 Hwf Hp) as (a & v & s & E & Hwf' & _ & _ & Hs & Hn & _ & _ & _ & Hmap & _ & _ & _ & _ & Htlb' & _).
  { rewrite Hf. by apply all_free_nonempty. }
  { rewrite Hsz. clear. by vm_compute. }
  destruct (AddrSpace_new_rest _ _ _ _ _ _ _ _ E Hs) as [Htab Hfresh]. injection Htab as T1 T2 T3.
  exists v0, a, v, s. split; [exact E0|]. split; [exact E|].
  destruct (migrant_arrives v0 1 7%nat Hwf Htlb Hp) as [Har Hls].
  { rewrite Hf. by apply all_free_nonempty. }
  { rewrite Hsz. clear. by vm_compute. }
  { exact Ht. }
  { rewrite Htf. by apply all_free_nonempty. }
  assert (departing 0 (migrant (with_running v s (replicate 40 0)) (Some a) a 2) a s ∅) as Hd.
  { apply migrant_departs; [exact Hwf'|rewrite Htlb'; exact Htlb|exact Hs|exact Hn|exact Hmap|exact Hfresh|..].
    - rewrite T1, T2. exact (conj Ht (conj Htn Hti)).
    - rewrite T3. exact Htt. }
  destruct migrant_boxes as [Hb1 Hb2]. rewrite <- Hn in Har.
  apply (migration_loses_process demo_leftover demo_leftover 0 0 demo_leftover_ok demo_leftover_ok _ (migrant v0 None 7%nat 1) a s ∅ 0 1 99
    Hd Har Hls Hb1 Hb2).
  - clear. discriminate.
  - clear. by vm_compute.
  - reflexivity.
Defined.
