(* ===== verification/MemAlloc.v ===== *)
(** * test/mem_alloc.c: the heap of a user program

    The allocator linked into every user program (USERPROG_LIBS): blocks with a
    tag in front and behind, and the free ones in a list by address, inside the
    pages [Sbrk] has returned.  [heap_wf] says what the tags and the list are for
    a sequence of blocks; [mem_alloc] is first fit on that sequence; [mem_free]
    gives a block back where its code sets every link, and spoils the heap where
    it does not; two histories show what a program sees of that.  The threads of the program use it one at
    a time, as its semaphore has it. *)
From S2P Require Import Prelude Memory.

Definition HEADER_FOOTER_SIZE : Z := 4.
(** The words of the program's memory by address.  A word at an address that is
    not a multiple of four, or not mapped, traps. *)
Definition ld (w : gmap Z Z) (a : Z) : outcome Z :=
  if a mod 4 =? 0 then match w !! a with Some v => Ok v | None => Fault end else Fault.
Definition st (w : gmap Z Z) (a v : Z) : outcome (gmap Z Z) :=
  if a mod 4 =? 0 then match w !! a with Some _ => Ok (<[a := v]> w) | None => Fault end else Fault.

(** [mem_pool mem], with the memory it manages. *)
Record mem_pool := mkPool { words : gmap Z Z; start_addr : Z; end_addr : Z; first_free : Z; sem_malloc : Z }.
Definition with_words (p : mem_pool) w := mkPool w (start_addr p) (end_addr p) (first_free p) (sem_malloc p).
Definition with_first (p : mem_pool) f := mkPool (words p) (start_addr p) (end_addr p) f (sem_malloc p).
Definition SemWait (p : mem_pool) : outcome mem_pool :=
  if 0 <? sem_malloc p then Ok (mkPool (words p) (start_addr p) (end_addr p) (first_free p) (sem_malloc p - 1)) else Blocked.
Definition SemPost (p : mem_pool) : mem_pool := mkPool (words p) (start_addr p) (end_addr p) (first_free p) (sem_malloc p + 1).

(** ** Tags; a header or footer is named by its address *)
Definition is_block_used (w : gmap Z Z) (m : Z) : outcome Z := v ← ld w m; Ok (Z.land (Z.shiftr v 31) 1).
Definition is_block_free (w : gmap Z Z) (m : Z) : outcome bool := b ← is_block_used w m; Ok (b =? 0).
Definition set_block_used (w : gmap Z Z) (m : Z) : outcome (gmap Z Z) := v ← ld w m; st w m (Z.lor v two31).
Definition set_block_free (w : gmap Z Z) (m : Z) : outcome (gmap Z Z) := v ← ld w m; st w m (Z.land v (Z.lnot two31)).
Definition get_block_size (w : gmap Z Z) (m : Z) : outcome Z := v ← ld w m; Ok (Z.land v (Z.lnot two31)).
Definition set_block_size (w : gmap Z Z) (m size : Z) : outcome (gmap Z Z) :=
  v ← ld w m; st w m (Z.lor (Z.land v two31) (u32 size)).
Definition get_full_block_size (w : gmap Z Z) (m : Z) : outcome Z :=
  n ← get_block_size w m; Ok (u32 (n + 2 * HEADER_FOOTER_SIZE)).
Definition get_footer (w : gmap Z Z) (block : Z) : outcome Z :=
  n ← get_full_block_size w block; Ok (u32 (block + n - HEADER_FOOTER_SIZE)).
(** [block->prev] and [block->next]. *)
Definition prev_of (block : Z) : Z := u32 (block + 4).
Definition next_of (block : Z) : Z := u32 (block + 8).

(** A tag with its size, marked free or used, at a header or footer. *)
Definition tag_free (w : gmap Z Z) (m size : Z) : outcome (gmap Z Z) := w1 ← set_block_free w m; set_block_size w1 m size.
Definition tag_used (w : gmap Z Z) (m size : Z) : outcome (gmap Z Z) := w1 ← set_block_used w m; set_block_size w1 m size.

Definition n_pages (size : Z) : Z :=
  let n := u32 (size + 2 * HEADER_FOOTER_SIZE) in i32 (n / PageSize + (if 0 <? n mod PageSize then 1 else 0)).
(** [start] is what [Sbrk(n_pages)] returned and [w] the memory after it. *)
Definition mem_init (size start : Z) (w : gmap Z Z) : outcome mem_pool :=
  let n := n_pages size in
  if (start =? 0) || (n =? 0) then Ok (mkPool w 0 0 0 1)
  else
    let size1 := u32 (PageSize * n) in
    w1 ← tag_free w start (u32 (size1 - 2 * HEADER_FOOTER_SIZE));
    w2 ← st w1 (prev_of start) 0;
    w3 ← st w2 (next_of start) 0;
    footer ← get_footer w3 start;
    w4 ← tag_free w3 footer (u32 (size1 - 2 * HEADER_FOOTER_SIZE));
    Ok (mkPool w4 start (u32 (start + size1)) start 1).

(** The search of [mem_alloc]; [n] is more than the blocks of the list. *)
Fixpoint find_fit (n : nat) (w : gmap Z Z) (cur size : Z) : outcome Z :=
  match n with
  | O => Blocked
  | S n' =>
      if cur =? 0 then Ok 0
      else
        cur_block_size ← get_block_size w cur;
        if cur_block_size <? size then next ← ld w (next_of cur); find_fit n' w next size else Ok cur
  end.
(** [if (prev != NULL) prev->next = b; else mem.first_free = b;] and
    [if (next != NULL) next->prev = b;]. *)
Definition set_next (p : mem_pool) (prev b : Z) : outcome mem_pool :=
  if negb (prev =? 0) then w ← st (words p) (next_of prev) b; Ok (with_words p w) else Ok (with_first p b).
Definition set_prev (p : mem_pool) (next b : Z) : outcome mem_pool :=
  if negb (next =? 0) then w ← st (words p) (prev_of next) b; Ok (with_words p w) else Ok p.

Definition mem_alloc (n : nat) (size : Z) (p : mem_pool) : outcome (Z * mem_pool) :=
  p0 ← SemWait p;
  cur ← find_fit n (words p0) (first_free p0) size;
  if cur =? 0 then Ok (0, SemPost p0)
  else
    let w := words p0 in
    full ← get_full_block_size w cur;
    let splitted_size := u32 (full - size - 2 * HEADER_FOOTER_SIZE) in
    prev ← ld w (prev_of cur);
    next ← ld w (next_of cur);
    let split := negb (splitted_size <=? 2 * HEADER_FOOTER_SIZE) in
    let size1 := if split then size else u32 (size + splitted_size) in
    w1 ← tag_used w cur size1;
    footer_cur ← get_footer w1 cur;
    w2 ← tag_used w1 footer_cur size1;
    p3 ← (if split then
        let splitted_block := u32 (cur + size1 + 2 * HEADER_FOOTER_SIZE) in
        w3 ← tag_free w2 splitted_block (u32 (splitted_size - 2 * HEADER_FOOTER_SIZE));
        footer_splitted ← get_footer w3 splitted_block;
        w4 ← tag_free w3 footer_splitted (u32 (splitted_size - 2 * HEADER_FOOTER_SIZE));
        prev' ← ld w4 (prev_of cur);
        w5 ← st w4 (prev_of splitted_block) prev';
        next' ← ld w5 (next_of cur);
        w6 ← st w5 (next_of splitted_block) next';
        p1 ← set_next (with_words p0 w6) prev splitted_block;
        set_prev p1 next splitted_block
      else
        p1 ← set_next (with_words p0 w2) prev next;
        set_prev p1 next prev);
    Ok (u32 (cur + HEADER_FOOTER_SIZE), SemPost p3).

(** The walk back over used blocks; [n] is more than the blocks before. *)
Fixpoint previous_loop (n : nat) (w : gmap Z Z) (start prev_footer_addr : Z) : outcome Z :=
  match n with
  | O => Blocked
  | S n' =>
      if start <=? prev_footer_addr then
        free ← is_block_free w prev_footer_addr;
        if (free : bool) then Ok prev_footer_addr
        else full ← get_full_block_size w prev_footer_addr; previous_loop n' w start (u32 (prev_footer_addr - full))
      else Ok prev_footer_addr
  end.
Definition find_previous_free_block_footer (n : nat) (p : mem_pool) (block : Z) : outcome Z :=
  previous_loop n (words p) (start_addr p) (u32 (block - HEADER_FOOTER_SIZE)).

Definition merge_block (w : gmap Z Z) (block next_block : Z) : outcome (gmap Z Z) :=
  a ← get_block_size w block;
  b ← get_block_size w next_block;
  w1 ← set_block_size w block (u32 (a + b + 2 * HEADER_FOOTER_SIZE));
  footer ← get_footer w1 block;
  c ← get_block_size w1 block;
  set_block_size w1 footer c.

(** The part of [mem_free] before the blocks behind are looked at: the block
    the freed one is now part of, and the next free one. *)
Definition free_before (n : nat) (free_block : Z) (p : mem_pool) : outcome (Z * Z * mem_pool) :=
  prev_footer_addr ← find_previous_free_block_footer n p free_block;
  if prev_footer_addr <? start_addr p then
    w ← st (words p) (prev_of free_block) 0;
    Ok (free_block, first_free p, with_words (with_first p free_block) w)
  else
    full ← get_full_block_size (words p) prev_footer_addr;
    let prev_block := u32 (prev_footer_addr - full + HEADER_FOOTER_SIZE) in
    next_block ← ld (words p) (next_of prev_block);
    if u32 (prev_footer_addr + HEADER_FOOTER_SIZE) =? free_block then
      w ← merge_block (words p) prev_block free_block;
      Ok (prev_block, next_block, with_words p w)
    else
      w ← st (words p) (next_of prev_block) free_block;
      w1 ← st w (prev_of free_block) prev_block;
      Ok (free_block, next_block, with_words p w1).

Definition free_behind (free_block free_block_footer next_block : Z) (p : mem_pool) : outcome mem_pool :=
  if negb (next_block =? 0) then
    if u32 (next_block - HEADER_FOOTER_SIZE) =? free_block_footer then
      w ← merge_block (words p) free_block next_block;
      next ← ld w (next_of next_block);
      w1 ← st w (next_of free_block) next;
      Ok (with_words p w1)
    else
      w ← st (words p) (prev_of next_block) free_block;
      w1 ← st w (next_of free_block) next_block;
      Ok (with_words p w1)
  else Ok p.

Definition mem_free (n : nat) (ptr : Z) (p : mem_pool) : outcome mem_pool :=
  p0 ← SemWait p;
  let free_block := u32 (ptr - HEADER_FOOTER_SIZE) in
  free_block_footer ← get_footer (words p0) free_block;
  w1 ← set_block_free (words p0) free_block;
  w2 ← set_block_free w1 free_block_footer;
  '(b, next_block, p1) ← free_before n free_block (with_words p0 w2);
  p2 ← free_behind b free_block_footer next_block p1;
  Ok (SemPost p2).

(** ** Blocks *)
Record block := mkBlock { bsize : Z; bused : bool }.
Definition tag (b : block) : Z := bsize b + (if bused b then two31 else 0).
Definition full (b : block) : Z := bsize b + 8.
Definition block_ok (b : block) : Prop := 8 ≤ bsize b < two31 ∧ bsize b mod 8 = 0.
Fixpoint extent (bs : list block) : Z := match bs with [] => 0 | b :: l => full b + extent l end.
(** The first free block of [bs], which start at [a], or [next]; the last, or [prev]. *)
Fixpoint first_of (a : Z) (bs : list block) (next : Z) : Z :=
  match bs with [] => next | b :: l => if bused b then first_of (a + full b) l next else a end.
Fixpoint last_of (a : Z) (bs : list block) (prev : Z) : Z :=
  match bs with [] => prev | b :: l => last_of (a + full b) l (if bused b then prev else a) end.

(** The tags of the blocks from [a] on, and the links of the free ones, with
    [prev] the free block before them and [next] the one behind. *)
Fixpoint chain (a : Z) (bs : list block) (prev next : Z) (w : gmap Z Z) : Prop :=
  match bs with
  | [] => True
  | b :: l =>
      w !! a = Some (tag b) ∧ w !! (a + 4 + bsize b) = Some (tag b) ∧
      (if bused b then chain (a + full b) l prev next w
       else w !! (a + 4) = Some prev ∧ w !! (a + 8) = Some (first_of (a + full b) l next) ∧ chain (a + full b) l a next w)
  end.

(** Every word from [a] on for [n] bytes is there. *)
Definition mapped (w : gmap Z Z) (a n : Z) : Prop := ∀ x, a ≤ x < a + n → x mod 4 = 0 → is_Some (w !! x).

Record heap_wf (bs : list block) (p : mem_pool) : Prop := mkHeapWf {
  hw_blocks : Forall block_ok bs;
  hw_start : 0 < start_addr p ∧ start_addr p mod 4 = 0;
  hw_end : end_addr p = start_addr p + extent bs ∧ end_addr p < two31;
  hw_chain : chain (start_addr p) bs 0 0 (words p);
  hw_first : first_free p = first_of (start_addr p) bs 0;
  hw_mapped : mapped (words p) (start_addr p) (extent bs);
  hw_sem : sem_malloc p = 1
}.

Lemma two31_lt : two31 < two32.
Proof. done. Qed.

(** *** Tag words *)
Lemma bit31_small s : 0 ≤ s < two31 → Z.land s two31 = 0.
Proof.
  intros Hs. apply Z.bits_inj'. intros n Hn. rewrite Z.land_spec, Z.bits_0. change two31 with (2 ^ 31).
  rewrite Z.pow2_bits_eqb by lia. destruct (Z.eqb_spec 31 n) as [<-|]; [|apply andb_false_r].
  rewrite andb_true_r. apply Z.testbit_false; [lia|]. rewrite Z.div_small by (unfold two31 in Hs; lia). done.
Qed.
Lemma tag_lor s : 0 ≤ s < two31 → s + two31 = Z.lor s two31.
Proof. intros Hs. rewrite Z.add_nocarry_lxor, Z.lxor_lor by (by apply bit31_small). done. Qed.
Lemma tag_size s u : 0 ≤ s < two31 → Z.land (tag (mkBlock s u)) (Z.lnot two31) = s.
Proof.
  intros Hs. unfold tag. cbn [bsize bused]. rewrite <- Z.ldiff_land. destruct u.
  - rewrite tag_lor by done. apply Z.bits_inj'. intros n Hn. rewrite Z.ldiff_spec, Z.lor_spec.
    pose proof (f_equal (λ z, Z.testbit z n) (bit31_small s Hs)) as E. cbn beta in E. rewrite Z.land_spec, Z.bits_0 in E.
    destruct (Z.testbit s n), (Z.testbit two31 n); done.
  - rewrite Z.add_0_r. rewrite Z.ldiff_land. pose proof (Z.add_lnot_diag two31).
    apply Z.bits_inj'. intros n Hn. rewrite <- Z.ldiff_land, Z.ldiff_spec.
    pose proof (f_equal (λ z, Z.testbit z n) (bit31_small s Hs)) as E. cbn beta in E. rewrite Z.land_spec, Z.bits_0 in E.
    destruct (Z.testbit s n), (Z.testbit two31 n); done.
Qed.
Lemma tag_flag s u : 0 ≤ s < two31 → Z.land (tag (mkBlock s u)) two31 = if u then two31 else 0.
Proof.
  intros Hs. unfold tag. cbn [bsize bused]. destruct u; [|rewrite Z.add_0_r; by apply bit31_small].
  rewrite tag_lor by done. rewrite Z.land_lor_distr_l, bit31_small, Z.land_diag by done. done.
Qed.
Lemma tag_bit s u : 0 ≤ s < two31 → Z.land (Z.shiftr (tag (mkBlock s u)) 31) 1 = if u then 1 else 0.
Proof.
  intros Hs. unfold tag. cbn [bsize bused]. rewrite Z.shiftr_div_pow2 by lia. change (2 ^ 31) with two31.
  destruct u.
  - rewrite <- (Z.mul_1_l two31) at 1. rewrite Z.div_add by done. rewrite Z.div_small by done. done.
  - rewrite Z.add_0_r, Z.div_small by done. done.
Qed.
Lemma tag_set s u : 0 ≤ s < two31 → Z.lor (tag (mkBlock s u)) two31 = tag (mkBlock s true).
Proof.
  intros Hs. unfold tag. cbn [bsize bused]. destruct u; rewrite ?Z.add_0_r, ?tag_lor by done; [|done].
  by rewrite <- Z.lor_assoc, Z.lor_diag.
Qed.
Lemma flag_size (u : bool) s : 0 ≤ s < two31 → Z.lor (if u then two31 else 0) (u32 s) = tag (mkBlock s u).
Proof.
  intros Hs. rewrite u32_id by (unfold is_u32, two32, two31 in *; lia). unfold tag. cbn [bsize bused]. destruct u.
  - by rewrite Z.lor_comm, tag_lor.
  - rewrite Z.lor_0_l. lia.
Qed.
Lemma cleared_flag v : Z.land (Z.land v (Z.lnot two31)) two31 = 0.
Proof. by rewrite <- Z.land_assoc, (Z.land_comm (Z.lnot _)), Z.land_lnot_diag, Z.land_0_r. Qed.
Lemma raised_flag v : Z.land (Z.lor v two31) two31 = two31.
Proof.
  apply Z.bits_inj'. intros n Hn. rewrite Z.land_spec, Z.lor_spec. by destruct (Z.testbit v n), (Z.testbit two31 n).
Qed.

(** *** Words *)
Lemma ld_ok w a v : a mod 4 = 0 → w !! a = Some v → ld w a = Ok v.
Proof. intros Ha Hv. unfold ld. by rewrite Ha, Hv. Qed.
Lemma st_ok w a v : a mod 4 = 0 → is_Some (w !! a) → st w a v = Ok (<[a := v]> w).
Proof. intros Ha [x Hx]. unfold st. by rewrite Ha, Hx. Qed.
Lemma tag_free_ok w m s : m mod 4 = 0 → is_Some (w !! m) → 0 ≤ s < two31 →
  tag_free w m s = Ok (<[m := tag (mkBlock s false)]> w).
Proof.
  intros Hm [v Hv] Hs. unfold tag_free, set_block_free, set_block_size. rewrite (ld_ok w m v) by done. cbn [mbind outcome_bind].
  rewrite st_ok by done. cbn [mbind outcome_bind]. rewrite (ld_ok _ m _ Hm (lookup_insert_eq _ _ _)). cbn [mbind outcome_bind].
  rewrite st_ok by (done || (rewrite lookup_insert_eq; by eexists)). rewrite insert_insert_eq, cleared_flag. by rewrite (flag_size false).
Qed.
Lemma tag_used_ok w m s : m mod 4 = 0 → is_Some (w !! m) → 0 ≤ s < two31 →
  tag_used w m s = Ok (<[m := tag (mkBlock s true)]> w).
Proof.
  intros Hm [v Hv] Hs. unfold tag_used, set_block_used, set_block_size. rewrite (ld_ok w m v) by done. cbn [mbind outcome_bind].
  rewrite st_ok by done. cbn [mbind outcome_bind]. rewrite (ld_ok _ m _ Hm (lookup_insert_eq _ _ _)). cbn [mbind outcome_bind].
  rewrite st_ok by (done || (rewrite lookup_insert_eq; by eexists)). rewrite insert_insert_eq, raised_flag. by rewrite (flag_size true).
Qed.

Section tagged.
Context (w : gmap Z Z) (m : Z) (b : block).
Hypothesis Hm : m mod 4 = 0.
Hypothesis Hw : w !! m = Some (tag b).
Hypothesis Hb : 0 ≤ bsize b < two31.
Lemma size_ok : get_block_size w m = Ok (bsize b).
Proof using All. unfold get_block_size. rewrite (ld_ok w m _ Hm Hw). cbn [mbind outcome_bind]. destruct b as [s u]. by rewrite tag_size. Qed.
Lemma full_ok : get_full_block_size w m = Ok (full b).
Proof using All.
  unfold get_full_block_size. rewrite size_ok. cbn [mbind outcome_bind]. unfold full, HEADER_FOOTER_SIZE.
  rewrite u32_id; [done|]. unfold is_u32, two31, two32 in *. lia.
Qed.
Lemma footer_ok : 0 ≤ m → m + full b < two32 → get_footer w m = Ok (m + 4 + bsize b).
Proof using All.
  intros H0 H1. unfold get_footer. rewrite full_ok. cbn [mbind outcome_bind]. unfold full, HEADER_FOOTER_SIZE in *.
  rewrite u32_id; [f_equal; lia|]. unfold is_u32. lia.
Qed.
Lemma free_ok : is_block_free w m = Ok (negb (bused b)).
Proof using All.
  unfold is_block_free, is_block_used. rewrite (ld_ok w m _ Hm Hw). cbn [mbind outcome_bind]. destruct b as [s u]. rewrite tag_bit by done. by destruct u.
Qed.
End tagged.

(** *** Chains *)
Lemma extent_app l k : extent (l ++ k) = extent l + extent k.
Proof. induction l as [|b l IH]; cbn [app extent]; lia. Qed.
Lemma extent_nonneg l : Forall block_ok l → 0 ≤ extent l.
Proof. induction 1 as [|b l [Hb _] _ IH]; cbn [extent]; [done|]. unfold full. lia. Qed.
Lemma extent_mod l : Forall block_ok l → extent l mod 4 = 0.
Proof. induction 1 as [|b l [_ Hb] _ IH]; cbn [extent]; [done|]. unfold full. zcases. Qed.

Lemma first_of_app a l k n : first_of a (l ++ k) n = first_of a l (first_of (a + extent l) k n).
Proof.
  revert a. induction l as [|b l IH]; intros a; cbn [app first_of extent]; [by rewrite Z.add_0_r|].
  rewrite IH. destruct (bused b); [do 2 f_equal; lia|done].
Qed.
Lemma last_of_app a l k p : last_of a (l ++ k) p = last_of (a + extent l) k (last_of a l p).
Proof.
  revert a p. induction l as [|b l IH]; intros a p; cbn [app last_of extent]; [by rewrite Z.add_0_r|].
  rewrite IH. f_equal. lia.
Qed.
Lemma chain_blocks_app a l k p n w : chain a (l ++ k) p n w ↔
  chain a l p (first_of (a + extent l) k n) w ∧ chain (a + extent l) k (last_of a l p) n w.
Proof.
  revert a p. induction l as [|b l IH]; intros a p; cbn [app chain extent last_of]; [rewrite Z.add_0_r; tauto|].
  replace (a + (full b + extent l)) with (a + full b + extent l) by lia. destruct (bused b).
  - rewrite IH. tauto.
  - rewrite IH, first_of_app. tauto.
Qed.

(** A chain depends on the words of its blocks only. *)
Lemma chain_frame a l p n w w' : Forall block_ok l → (∀ x, a ≤ x < a + extent l → w' !! x = w !! x) →
  chain a l p n w → chain a l p n w'.
Proof.
  intros Hl. revert a p. induction Hl as [|b l [Hb _] Hl IH]; intros a p Hw Hc; [done|]. cbn [chain extent] in *. unfold full in *.
  pose proof (extent_nonneg l Hl) as Hx. destruct Hc as (H1 & H2 & H3).
  rewrite !Hw by lia. split; [done|]. split; [done|]. destruct (bused b); [apply IH; [intros x Hx'; apply Hw; lia|done]|].
  destruct H3 as (H3 & H4 & H5). split; [done|]. split; [done|]. apply IH; [intros x Hx'; apply Hw; lia|done].
Qed.
Lemma chain_insert a l p n w x v : Forall block_ok l → ¬ (a ≤ x < a + extent l) → chain a l p n w → chain a l p n (<[x := v]> w).
Proof. intros Hl Hx. apply chain_frame; [done|]. intros y Hy. apply lookup_insert_ne. intros ->. lia. Qed.

Lemma first_of_range a l n : Forall block_ok l → first_of a l n = n ∨ a ≤ first_of a l n ∧ first_of a l n + 16 ≤ a + extent l.
Proof.
  intros Hl. revert a. induction Hl as [|b l [Hb _] Hl IH]; intros a; cbn [first_of extent]; [by left|]. unfold full.
  pose proof (extent_nonneg l Hl). destruct (bused b); [|right; lia]. destruct (IH (a + (bsize b + 8))) as [E|E]; [by left|right; lia].
Qed.
Lemma last_of_range a l p : Forall block_ok l → last_of a l p = p ∨ a ≤ last_of a l p ∧ last_of a l p + 16 ≤ a + extent l.
Proof.
  intros Hl. revert a p. induction Hl as [|b l [Hb _] Hl IH]; intros a p; cbn [last_of extent]; [by left|]. unfold full.
  pose proof (extent_nonneg l Hl). destruct (IH (a + (bsize b + 8)) (if bused b then p else a)) as [E|E]; [|right; lia].
  rewrite E. destruct (bused b); [by left|right; lia].
Qed.
Lemma first_of_mod a l n : Forall block_ok l → a mod 4 = 0 → n mod 4 = 0 → first_of a l n mod 4 = 0.
Proof.
  intros Hl. revert a. induction Hl as [|b l [_ Hb] Hl IH]; intros a Ha Hn; cbn [first_of]; [done|].
  destruct (bused b); [apply IH; [unfold full; zcases|done]|done].
Qed.
Lemma last_of_mod a l p : Forall block_ok l → a mod 4 = 0 → p mod 4 = 0 → last_of a l p mod 4 = 0.
Proof.
  intros Hl. revert a p. induction Hl as [|b l [_ Hb] Hl IH]; intros a p Ha Hp; cbn [last_of]; [done|].
  apply IH; [unfold full; zcases|by destruct (bused b)].
Qed.

(** Whether no block is free. *)
Definition all_used (l : list block) : bool := forallb bused l.
Lemma all_used_first a l n : all_used l = true → first_of a l n = n.
Proof. revert a. induction l as [|b l IH]; intros a; cbn; [done|]. intros [-> H]%andb_true_iff. by apply IH. Qed.
Lemma all_used_last a l p : all_used l = true → last_of a l p = p.
Proof. revert a. induction l as [|b l IH]; intros a; cbn; [done|]. intros [-> H]%andb_true_iff. by apply IH. Qed.
Lemma some_free_first a l n : Forall block_ok l → all_used l = false →
  a ≤ first_of a l n ∧ first_of a l n + 16 ≤ a + extent l ∧ ∀ n', first_of a l n' = first_of a l n.
Proof.
  intros Hl. revert a. induction Hl as [|b l [Hb _] Hl IH]; intros a; cbn; [done|]. unfold full.
  pose proof (extent_nonneg l Hl). destruct (bused b); cbn; intros Hu.
  - destruct (IH (a + (bsize b + 8)) Hu) as (H1 & H2 & H3). split; [lia|]. split; [lia|]. done.
  - split; [lia|]. split; [lia|done].
Qed.
Lemma some_free_last a l p : Forall block_ok l → all_used l = false →
  a ≤ last_of a l p ∧ last_of a l p + 16 ≤ a + extent l ∧ ∀ p', last_of a l p' = last_of a l p.
Proof.
  intros Hl. revert a p. induction Hl as [|b l [Hb _] Hl IH]; intros a p; cbn; [done|]. unfold full.
  pose proof (extent_nonneg l Hl). fold (all_used l). destruct (all_used l) eqn:El.
  - rewrite andb_true_r. intros ->. rewrite !all_used_last by done. split; [lia|]. split; [lia|]. intros p'. rewrite ?all_used_last by done. done.
  - intros _. destruct (IH (a + (bsize b + 8)) (if bused b then p else a) eq_refl) as (H1 & H2 & H3). split; [lia|]. split; [lia|].
    intros p'. by rewrite (H3 (if bused b then p' else a)).
Qed.

(** Another block behind, or before: the free block next to it is linked to it. *)
Lemma chain_next_used a l p n n' w : all_used l = true → chain a l p n w → chain a l p n' w.
Proof.
  revert a p. induction l as [|b l IH]; intros a p; [done|]. cbn. intros [-> Hu]%andb_true_iff (H1 & H2 & H3). split_and!; try done. by apply IH.
Qed.
Lemma chain_prev_used a l p p' n w : all_used l = true → chain a l p n w → chain a l p' n w.
Proof.
  revert a p. induction l as [|b l IH]; intros a p; [done|]. cbn. intros [-> Hu]%andb_true_iff (H1 & H2 & H3). split_and!; try done. by apply (IH _ p).
Qed.
Lemma chain_next a l p n n' w : Forall block_ok l → all_used l = false → chain a l p n w →
  chain a l p n' (<[last_of a l p + 8 := n']> w).
Proof.
  intros Hl. revert a p. induction Hl as [|b l [Hb Hmod] Hl IH]; intros a p; [done|]. cbn [chain last_of all_used forallb]. fold (all_used l).
  pose proof (extent_nonneg l Hl) as Hx. intros Hu (H1 & H2 & H3). destruct (all_used l) eqn:El.
  - rewrite andb_true_r in Hu. rewrite Hu in *. rewrite all_used_last, all_used_first in * by done. destruct H3 as (H3 & H4 & H5).
    rewrite !lookup_insert_ne, lookup_insert_eq by lia. split_and!; try done.
    apply chain_insert; [done|unfold full; lia|]. by apply (chain_next_used _ _ _ n).
  - destruct (some_free_last (a + full b) l (if bused b then p else a) Hl El) as (K1 & K2 & K3). unfold full in *.
    rewrite !lookup_insert_ne by lia. split; [done|]. split; [done|]. destruct (bused b); [by apply IH|]. destruct H3 as (H3 & H4 & H5).
    split; [done|]. split; [|by apply IH]. rewrite H4. f_equal. symmetry. by apply some_free_first.
Qed.
Lemma chain_prev a l p p' n w : Forall block_ok l → all_used l = false → chain a l p n w →
  chain a l p' n (<[first_of a l n + 4 := p']> w).
Proof.
  intros Hl. revert a. induction Hl as [|b l [Hb Hmod] Hl IH]; intros a; [done|]. cbn [chain first_of all_used forallb]. fold (all_used l).
  pose proof (extent_nonneg l Hl) as Hx. intros Hu (H1 & H2 & H3). unfold full in *. destruct (bused b); cbn in Hu.
  - destruct (some_free_first (a + (bsize b + 8)) l n Hl Hu) as (K1 & K2 & K3).
    rewrite !lookup_insert_ne by lia. split_and!; try done. by apply IH.
  - destruct H3 as (H3 & H4 & H5). rewrite lookup_insert_eq, !lookup_insert_ne by lia. split_and!; try done.
    apply chain_insert; [done|lia|done].
Qed.

(** *** The bytes of the program: the payload of the used blocks *)
Fixpoint owned (a : Z) (bs : list block) (x : Z) : Prop :=
  match bs with
  | [] => False
  | b :: l => (bused b = true ∧ a + 4 ≤ x < a + 4 + bsize b) ∨ owned (a + full b) l x
  end.
Lemma owned_app a l k x : owned a (l ++ k) x ↔ owned a l x ∨ owned (a + extent l) k x.
Proof.
  revert a. induction l as [|b l IH]; intros a; cbn [app owned extent]; [rewrite Z.add_0_r; tauto|].
  rewrite IH. replace (a + full b + extent l) with (a + (full b + extent l)) by lia. tauto.
Qed.
Lemma owned_range a l x : Forall block_ok l → owned a l x → a + 4 ≤ x < a + extent l - 4.
Proof.
  intros Hl. revert a. induction Hl as [|b l [Hb _] Hl IH]; intros a; cbn [owned extent]; [done|]. unfold full.
  pose proof (extent_nonneg l Hl). intros [[_ Hx]|Hx]; [lia|]. specialize (IH _ Hx). lia.
Qed.
Lemma owned_links a l x p n : Forall block_ok l → owned a l x → all_used l = false →
  x ≠ last_of a l p + 8 ∧ x ≠ first_of a l n + 4.
Proof.
  intros Hl. revert a p. induction Hl as [|b l [Hb Hmod] Hl IH]; intros a p Ho Hu; [done|].
  cbn [owned last_of first_of all_used forallb] in *. fold (all_used l) in Hu. unfold full in *.
  destruct (all_used l) eqn:El.
  - rewrite andb_true_r in Hu. rewrite Hu in *. rewrite all_used_last by done. destruct Ho as [[? _]|Ho]; [done|].
    pose proof (owned_range _ _ _ Hl Ho). lia.
  - destruct (some_free_last (a + (bsize b + 8)) l (if bused b then p else a) Hl El) as (K1 & _ & _).
    destruct (some_free_first (a + (bsize b + 8)) l n Hl El) as (K2 & _ & _).
    destruct Ho as [[Eu Hx]|Ho]; [rewrite Eu in *; lia|]. destruct (IH (a + (bsize b + 8)) (if bused b then p else a) Ho eq_refl) as [H1 H2].
    split; [done|]. destruct (bused b); [done|]. pose proof (owned_range _ _ _ Hl Ho). lia.
Qed.

(** *** Linking the free blocks on both sides of a place *)
Definition outside (start : Z) (l1 : list block) (c : Z) (l2 : list block) (x : Z) : Prop :=
  ¬ (start ≤ x < start + extent l1) ∧ ¬ (c ≤ x < c + extent l2).
Lemma words_with_first p f : words (with_first p f) = words p.
Proof. done. Qed.
Lemma relink_ok p l1 c l2 n0 q0 y z : Forall block_ok l1 → Forall block_ok l2 → 0 < start_addr p → start_addr p mod 4 = 0 → c mod 4 = 0 →
  start_addr p + extent l1 < c → c + extent l2 < two32 →
  chain (start_addr p) l1 0 n0 (words p) → chain c l2 q0 0 (words p) →
  mapped (words p) (start_addr p) (extent l1) → mapped (words p) c (extent l2) →
  ∃ p1 p2, set_next p (last_of (start_addr p) l1 0) y = Ok p1 ∧ set_prev p1 (first_of c l2 0) z = Ok p2 ∧
    chain (start_addr p) l1 0 y (words p2) ∧ chain c l2 z 0 (words p2) ∧
    first_free p2 = (if all_used l1 then y else first_free p) ∧
    start_addr p2 = start_addr p ∧ end_addr p2 = end_addr p ∧ sem_malloc p2 = sem_malloc p ∧
    (∀ x, is_Some (words p !! x) → is_Some (words p2 !! x)) ∧
    (∀ x, outside (start_addr p) l1 c l2 x ∨ owned (start_addr p) l1 x ∨ owned c l2 x → words p2 !! x = words p !! x).
Proof.
  intros Hl1 Hl2 Hs Hsm Hcm Hc Hend Hc1 Hc2 Hm1 Hm2. set (a := start_addr p) in *.
  pose proof (extent_nonneg _ Hl1) as Hx1. pose proof (extent_nonneg _ Hl2) as Hx2.
  assert (∃ p1, set_next p (last_of a l1 0) y = Ok p1 ∧ chain a l1 0 y (words p1) ∧ chain c l2 q0 0 (words p1) ∧
    first_free p1 = (if all_used l1 then y else first_free p) ∧ start_addr p1 = a ∧ end_addr p1 = end_addr p ∧ sem_malloc p1 = sem_malloc p ∧
    (∀ x, is_Some (words p !! x) → is_Some (words p1 !! x)) ∧
    (∀ x, outside a l1 c l2 x ∨ owned a l1 x ∨ owned c l2 x → words p1 !! x = words p !! x)) as (p1 & E1 & K1 & K2 & K3 & K4 & K5 & K6 & K7 & K8).
  { unfold set_next. destruct (all_used l1) eqn:Eu.
    - rewrite all_used_last by done. cbn [Z.eqb negb]. exists (with_first p y). split; [done|]. split; [by apply (chain_next_used _ _ _ n0)|]. done.
    - destruct (some_free_last a l1 0 Hl1 Eu) as (R1 & R2 & _). rewrite (proj2 (Z.eqb_neq _ 0)) by lia. cbn [negb].
      pose proof (last_of_mod a l1 0 Hl1 Hsm eq_refl) as Hzm. unfold next_of. rewrite u32_id by (unfold is_u32; lia).
      rewrite st_ok by (zcases || (apply Hm1; [lia|zcases])). cbn [mbind outcome_bind]. eexists. split; [done|]. cbn [words with_words first_free start_addr end_addr sem_malloc].
      split; [by apply (chain_next _ _ _ n0)|]. split; [apply chain_insert; [done|lia|done]|]. do 4 (split; [done|]). split.
      + intros x Hx. destruct (decide (x = last_of a l1 0 + 8)) as [->|]; [rewrite lookup_insert_eq; by eexists|by rewrite lookup_insert_ne].
      + intros x Hx. apply lookup_insert_ne. intros <-. destruct Hx as [[Hx _]|[Hx|Hx]]; [lia| |].
        * by destruct (owned_links _ _ _ 0 0 Hl1 Hx Eu).
        * pose proof (owned_range _ _ _ Hl2 Hx). lia. }
  exists p1. unfold set_prev. destruct (all_used l2) eqn:Eu.
  - rewrite all_used_first by done. cbn [Z.eqb negb]. exists p1. split; [done|]. split; [done|]. split; [done|]. split; [by apply (chain_prev_used _ _ q0)|]. done.
  - destruct (some_free_first c l2 0 Hl2 Eu) as (R1 & R2 & _). rewrite (proj2 (Z.eqb_neq _ 0)) by lia. cbn [negb].
    pose proof (first_of_mod c l2 0 Hl2 Hcm eq_refl) as Hzm. unfold prev_of. rewrite u32_id by (unfold is_u32; lia).
    rewrite st_ok by (zcases || (apply K7, Hm2; [lia|zcases])). cbn [mbind outcome_bind]. eexists. split; [done|]. split; [done|].
    cbn [words with_words first_free start_addr end_addr sem_malloc]. split; [apply chain_insert; [done|lia|done]|].
    split; [by apply (chain_prev _ _ q0)|]. do 4 (split; [done|]). split.
    + intros x Hx. destruct (decide (x = first_of c l2 0 + 4)) as [->|]; [rewrite lookup_insert_eq; by eexists|rewrite lookup_insert_ne by done; by apply K7].
    + intros x Hx. rewrite <- (K8 x Hx). apply lookup_insert_ne. intros <-. destruct Hx as [[_ Hx]|[Hx|Hx]]; [lia| |].
      * pose proof (owned_range _ _ _ Hl1 Hx). lia.
      * by destruct (owned_links _ _ _ 0 0 Hl2 Hx Eu).
Qed.

(** ** Allocating *)
(** The first free block of at least [size] bytes, and the blocks around it. *)
Fixpoint fit (size : Z) (bs : list block) : option (list block * block * list block) :=
  match bs with
  | [] => None
  | b :: l => if negb (bused b) && (size <=? bsize b) then Some ([], b, l)
              else '(l1, c, l2) ← fit size l; Some (b :: l1, c, l2)
  end.
Definition alloc_blocks (size : Z) (b : block) : list block :=
  if bsize b - size <=? 8 then [mkBlock (bsize b) true] else [mkBlock size true; mkBlock (bsize b - size - 8) false].

Lemma fit_spec size bs l1 b l2 : fit size bs = Some (l1, b, l2) → bs = l1 ++ b :: l2 ∧ bused b = false ∧ size ≤ bsize b.
Proof.
  revert l1. induction bs as [|c bs IH]; intros l1; cbn; [done|]. destruct (negb (bused c) && (size <=? bsize c)) eqn:E.
  - intros [= <- <- <-]. apply andb_true_iff in E as [E1%negb_true_iff E2%Z.leb_le]. done.
  - destruct (fit size bs) as [[[l b'] l']|] eqn:Ef; cbn; [|done]. intros [= <- <- <-]. destruct (IH l eq_refl) as (-> & H1 & H2). done.
Qed.

Lemma find_fit_ok n size bs a p w : Forall block_ok bs → 0 < a → a mod 4 = 0 → a + extent bs < two32 → (length bs < n)%nat →
  chain a bs p 0 w → find_fit n w (first_of a bs 0) size =
    Ok (match fit size bs with Some (l1, _, _) => a + extent l1 | None => 0 end).
Proof.
  intros Hbs. revert a p n. induction Hbs as [|b bs [Hb Hmod] Hbs IH]; intros a p n Ha Hm Hend Hn Hc.
  { destruct n; [cbn in Hn; lia|done]. }
  cbn [chain first_of fit extent length] in *. unfold full in *. destruct Hc as (H1 & H2 & H3). pose proof (extent_nonneg _ Hbs).
  destruct (bused b) eqn:Eu; cbn [negb andb].
  - rewrite (IH (a + (bsize b + 8)) p n) by (lia || zcases || done).
    destruct (fit size bs) as [[[l1 c] l2]|]; cbn; [|done]. f_equal. unfold full. lia.
  - destruct n as [|n]; [lia|]. cbn [find_fit]. rewrite (proj2 (Z.eqb_neq a 0)) by lia.
    rewrite (size_ok w a b Hm H1) by lia. cbn [mbind outcome_bind]. destruct H3 as (H3 & H4 & H5).
    destruct (Z.leb_spec size (bsize b)) as [Hsz|Hsz].
    + rewrite (proj2 (Z.ltb_ge _ _)) by lia. f_equal. cbn. lia.
    + rewrite (proj2 (Z.ltb_lt _ _)) by lia. unfold next_of. rewrite u32_id by (unfold is_u32; lia).
      rewrite (ld_ok w (a + 8) _ ltac:(zcases) H4). cbn [mbind outcome_bind].
      rewrite (IH (a + (bsize b + 8)) a n) by (lia || zcases || done).
      destruct (fit size bs) as [[[l1 c] l2]|]; cbn; [|done]. f_equal. unfold full. lia.
Qed.

(** A block in its place. *)
Record placed (p : mem_pool) (l1 : list block) (b : block) (l2 : list block) (a : Z) : Prop := mkPlaced {
  pl_addr : a = start_addr p + extent l1;
  pl_ok : Forall block_ok l1 ∧ block_ok b ∧ Forall block_ok l2;
  pl_start : 0 < start_addr p ∧ start_addr p mod 4 = 0;
  pl_range : 0 < a ∧ start_addr p ≤ a ∧ a mod 4 = 0 ∧ (a + full b) mod 4 = 0 ∧ 0 ≤ extent l2 ∧ a + full b + extent l2 < two31;
  pl_left : chain (start_addr p) l1 0 (first_of a (b :: l2) 0) (words p);
  pl_right : chain (a + full b) l2 (last_of (start_addr p) (l1 ++ [b]) 0) 0 (words p);
  pl_tags : words p !! a = Some (tag b) ∧ words p !! (a + 4 + bsize b) = Some (tag b);
  pl_links : bused b = false → words p !! (a + 4) = Some (last_of (start_addr p) l1 0) ∧ words p !! (a + 8) = Some (first_of (a + full b) l2 0);
  pl_mapped : mapped (words p) (start_addr p) (extent l1) ∧ mapped (words p) a (full b) ∧ mapped (words p) (a + full b) (extent l2)
}.
Lemma heap_placed p l1 b l2 : heap_wf (l1 ++ b :: l2) p → placed p l1 b l2 (start_addr p + extent l1).
Proof.
  intros [Hok [Hs Hsm] [He Hlim] Hc Hf Hm _]. apply Forall_app in Hok as [Hl1 Hok]. inversion Hok as [|? ? Hb Hl2]; subst.
  pose proof (extent_nonneg _ Hl1). pose proof (extent_nonneg _ Hl2). pose proof (extent_mod _ Hl1) as Hm1. destruct Hb as [Hb Hbm].
  rewrite extent_app in *. cbn [extent] in *. unfold full in *. apply chain_blocks_app in Hc as [Hc1 Hc2]. cbn [chain] in Hc2. unfold full in Hc2.
  destruct Hc2 as (T1 & T2 & T3).
  constructor; unfold full; try done.
  - split_and!; try lia; zcases.
  - rewrite last_of_app. cbn [last_of]. destruct (bused b); [done|]. by destruct T3 as (_ & _ & ?).
  - intros Eu. rewrite Eu in T3. by destruct T3 as (? & ? & _).
  - split_and!; intros x Hx; apply Hm; lia.
Qed.

(** Other blocks in the place of one, linked to the free blocks around them. *)
Lemma replace_mid p l1 b l2 a mid w : placed p l1 b l2 a → extent mid = full b → Forall block_ok mid →
  (∀ x, ¬ (a ≤ x < a + full b) → w !! x = words p !! x) → (∀ x, is_Some (words p !! x) → is_Some (w !! x)) →
  let z := last_of (start_addr p) l1 0 in let y := first_of (a + full b) l2 0 in
  chain a mid z y w → first_free p = first_of (start_addr p) (l1 ++ b :: l2) 0 → end_addr p = start_addr p + extent (l1 ++ b :: l2) →
  sem_malloc p = 0 →
  ∃ p1 p2, set_next (with_words p w) z (first_of a mid y) = Ok p1 ∧ set_prev p1 y (last_of a mid z) = Ok p2 ∧
    heap_wf (l1 ++ mid ++ l2) (SemPost p2) ∧ start_addr p2 = start_addr p ∧ end_addr p2 = end_addr p ∧
    (∀ x, owned (start_addr p) l1 x ∨ owned (a + full b) l2 x → words p2 !! x = words p !! x).
Proof.
  intros [Ea (Hl1 & Hb & Hl2) [Hs Hsm] (Ha & Hsa & Ham & Hcm & Hx2 & Hend) Hleft Hright _ _ (Hm1 & Hm2 & Hm3)] Hext Hmid Hout Hsome z y Hc Hff He Hsem.
  pose proof two31_lt. pose proof (extent_nonneg _ Hl1) as Hx1. destruct Hb as [Hb Hbm]. unfold full in *.
  destruct (relink_ok (with_words p w) l1 (a + (bsize b + 8)) l2 (first_of a (b :: l2) 0) (last_of (start_addr p) (l1 ++ [b]) 0)
    (first_of a mid y) (last_of a mid z) Hl1 Hl2 Hs Hsm Hcm) as (p1 & p2 & E1 & E2 & K1 & K2 & K3 & K4 & K5 & K6 & K7 & K8);
    cbn [start_addr with_words words first_free end_addr sem_malloc] in *; try lia.
  - apply (chain_frame _ _ _ _ (words p)); [done| |done]. intros x Hx. apply Hout. lia.
  - apply (chain_frame _ _ _ _ (words p)); [done| |done]. intros x Hx. apply Hout. lia.
  - intros x Hx Hxm. by apply Hsome, Hm1.
  - intros x Hx Hxm. by apply Hsome, Hm3.
  - exists p1, p2. split; [exact E1|]. split; [exact E2|].
    assert (chain a mid z y (words p2)) as Hc'.
    { apply (chain_frame _ _ _ _ w); [done| |done]. intros x Hx. apply K8. left. split; lia. }
    split; [|split; [done|split; [done|]]].
    + constructor; cbn [words start_addr end_addr first_free sem_malloc SemPost]; rewrite ?K4, ?K5, ?K6.
      * rewrite !Forall_app. done.
      * done.
      * rewrite He, !extent_app, Hext. cbn [extent]. unfold full. split; lia.
      * apply chain_blocks_app. rewrite <- Ea. split; [|apply chain_blocks_app; rewrite Hext; fold z y; split; done].
        rewrite first_of_app, Hext. exact K1.
      * rewrite K3, first_of_app, <- Ea, first_of_app, Hext. fold y. rewrite Hff, first_of_app, <- Ea. destruct (all_used l1) eqn:Eu.
        -- by rewrite (all_used_first (start_addr p) l1).
        -- destruct (some_free_first (start_addr p) l1 0 Hl1 Eu) as (_ & _ & Hn). by rewrite (Hn (first_of a (b :: l2) 0)), (Hn (first_of a mid y)).
      * intros x Hx Hxm. rewrite !extent_app, Hext in Hx. apply K7, Hsome.
        destruct (decide (x < a)); [by apply Hm1; [lia|]|]. destruct (decide (x < a + (bsize b + 8))); [by apply Hm2; [lia|]|by apply Hm3; [lia|]].
      * lia.
    + intros x Hx. rewrite K8 by (right; exact Hx). apply Hout. destruct Hx as [Hx|Hx]; [pose proof (owned_range _ _ _ Hl1 Hx)|pose proof (owned_range _ _ _ Hl2 Hx)]; lia.
Qed.

(** The allocator with its semaphore taken. *)
Definition locked (p : mem_pool) : mem_pool := mkPool (words p) (start_addr p) (end_addr p) (first_free p) 0.
Lemma SemWait_ok bs p : heap_wf bs p → SemWait p = Ok (locked p) ∧ SemPost (locked p) = p.
Proof. intros [_ _ _ _ _ _ Hs]. unfold SemWait, SemPost, locked. rewrite Hs. split; [done|]. destruct p. cbn in *. by subst. Qed.

(** Writing the tags of a used block of [s] bytes at [a]. *)
Lemma tag_block_used w a s : 0 < a → a mod 4 = 0 → 8 ≤ s < two31 → s mod 8 = 0 → a + s + 8 < two32 →
  is_Some (w !! a) → is_Some (w !! (a + 4 + s)) →
  ∃ w1, tag_used w a s = Ok w1 ∧ get_footer w1 a = Ok (a + 4 + s) ∧
    tag_used w1 (a + 4 + s) s = Ok (<[a + 4 + s := tag (mkBlock s true)]> (<[a := tag (mkBlock s true)]> w)).
Proof.
  intros Ha Hm Hs Hsm Hend H1 H2. exists (<[a := tag (mkBlock s true)]> w). split; [apply tag_used_ok; [done|done|lia]|].
  split; [apply (footer_ok _ _ (mkBlock s true)); [done|apply lookup_insert_eq|cbn; lia|lia|unfold full; cbn; lia]|].
  apply tag_used_ok; [zcases|by rewrite lookup_insert_ne by lia|lia].
Qed.
Lemma tag_block_free w a s : 0 < a → a mod 4 = 0 → 8 ≤ s < two31 → s mod 8 = 0 → a + s + 8 < two32 →
  is_Some (w !! a) → is_Some (w !! (a + 4 + s)) →
  ∃ w1, tag_free w a s = Ok w1 ∧ get_footer w1 a = Ok (a + 4 + s) ∧
    tag_free w1 (a + 4 + s) s = Ok (<[a + 4 + s := tag (mkBlock s false)]> (<[a := tag (mkBlock s false)]> w)).
Proof.
  intros Ha Hm Hs Hsm Hend H1 H2. exists (<[a := tag (mkBlock s false)]> w). split; [apply tag_free_ok; [done|done|lia]|].
  split; [apply (footer_ok _ _ (mkBlock s false)); [done|apply lookup_insert_eq|cbn; lia|lia|unfold full; cbn; lia]|].
  apply tag_free_ok; [zcases|by rewrite lookup_insert_ne by lia|lia].
Qed.

Lemma placed_locked p l1 b l2 a : placed p l1 b l2 a → placed (locked p) l1 b l2 a.
Proof. by intros [? ? ? ? ? ? ? ? ?]; constructor. Qed.

(** An insertion inside the block leaves the others alone. *)
Lemma insert_outside (w0 w : gmap Z Z) a n x v : (∀ y, ¬ (a ≤ y < a + n) → w !! y = w0 !! y) → a ≤ x < a + n →
  ∀ y, ¬ (a ≤ y < a + n) → <[x := v]> w !! y = w0 !! y.
Proof. intros Hw Hx y Hy. rewrite lookup_insert_ne; [by apply Hw|]. intros ->. lia. Qed.
Lemma insert_some (w0 w : gmap Z Z) x v : (∀ y, is_Some (w0 !! y) → is_Some (w !! y)) → ∀ y, is_Some (w0 !! y) → is_Some (<[x := v]> w !! y).
Proof. intros Hw y Hy. destruct (decide (y = x)) as [->|]; [rewrite lookup_insert_eq; by eexists|rewrite lookup_insert_ne by done; by apply Hw]. Qed.

Lemma alloc_whole p l1 b l2 a size : placed p l1 b l2 a → bused b = false → size ≤ bsize b → bsize b - size ≤ 8 →
  first_free p = first_of (start_addr p) (l1 ++ b :: l2) 0 → end_addr p = start_addr p + extent (l1 ++ b :: l2) → sem_malloc p = 0 →
  let z := last_of (start_addr p) l1 0 in let y := first_of (a + full b) l2 0 in
  ∃ w1 w2 p1 p2, tag_used (words p) a (bsize b) = Ok w1 ∧ get_footer w1 a = Ok (a + 4 + bsize b) ∧
    tag_used w1 (a + 4 + bsize b) (bsize b) = Ok w2 ∧ set_next (with_words p w2) z y = Ok p1 ∧ set_prev p1 y z = Ok p2 ∧
    heap_wf (l1 ++ [mkBlock (bsize b) true] ++ l2) (SemPost p2) ∧ start_addr p2 = start_addr p ∧ end_addr p2 = end_addr p ∧
    (∀ x, owned (start_addr p) l1 x ∨ owned (a + full b) l2 x → words p2 !! x = words p !! x).
Proof.
  intros Hp Hu Hsz Hrest Hff He Hsem z y. pose proof Hp as [Ea (Hl1 & [Hb Hbm] & Hl2) [Hs Hsm] (Ha & Hsa & Ham & Hcm & Hx2 & Hend) _ _ [T1 T2] _ _]. pose proof two31_lt.
  unfold full in *. destruct (tag_block_used (words p) a (bsize b)) as (w1 & E1 & E2 & E3); try done; try lia; [by eexists..|].
  destruct (replace_mid p l1 b l2 a [mkBlock (bsize b) true]
    (<[a + 4 + bsize b := tag (mkBlock (bsize b) true)]> (<[a := tag (mkBlock (bsize b) true)]> (words p))) Hp)
    as (p1 & p2 & F1 & F2 & F3); try done.
  - cbn. unfold full. cbn. lia.
  - by apply Forall_singleton.
  - unfold full. repeat (apply insert_outside; [|lia]). done.
  - do 2 apply insert_some. done.
  - cbn. rewrite (lookup_insert_ne _ (a + 4 + bsize b) a) by lia. by rewrite !lookup_insert_eq.
  - by exists w1, (<[a + 4 + bsize b := tag (mkBlock (bsize b) true)]> (<[a := tag (mkBlock (bsize b) true)]> (words p))), p1, p2.
Qed.

Lemma alloc_split p l1 b l2 a size : placed p l1 b l2 a → bused b = false → 8 ≤ size → size mod 8 = 0 → 16 ≤ bsize b - size →
  first_free p = first_of (start_addr p) (l1 ++ b :: l2) 0 → end_addr p = start_addr p + extent (l1 ++ b :: l2) → sem_malloc p = 0 →
  let z := last_of (start_addr p) l1 0 in let y := first_of (a + full b) l2 0 in let c := a + size + 8 in let rest := bsize b - size - 8 in
  ∃ w1 w2 w3 w4 w5 w6 p1 p2, tag_used (words p) a size = Ok w1 ∧ get_footer w1 a = Ok (a + 4 + size) ∧
    tag_used w1 (a + 4 + size) size = Ok w2 ∧ tag_free w2 c rest = Ok w3 ∧ get_footer w3 c = Ok (c + 4 + rest) ∧
    tag_free w3 (c + 4 + rest) rest = Ok w4 ∧ ld w4 (a + 4) = Ok z ∧ st w4 (c + 4) z = Ok w5 ∧
    ld w5 (a + 8) = Ok y ∧ st w5 (c + 8) y = Ok w6 ∧
    set_next (with_words p w6) z c = Ok p1 ∧ set_prev p1 y c = Ok p2 ∧
    heap_wf (l1 ++ [mkBlock size true; mkBlock rest false] ++ l2) (SemPost p2) ∧ start_addr p2 = start_addr p ∧ end_addr p2 = end_addr p ∧
    (∀ x, owned (start_addr p) l1 x ∨ owned (a + full b) l2 x → words p2 !! x = words p !! x).
Proof.
  intros Hp Hu Hsz Hszm Hrest Hff He Hsem z y c rest.
  pose proof Hp as [Ea (Hl1 & [Hb Hbm] & Hl2) [Hs Hsm] (Ha & Hsa & Ham & Hcm & Hx2 & Hend) _ _ [T1 T2] Hlk (_ & Hm2 & _)]. pose proof two31_lt.
  destruct (Hlk Hu) as [L1 L2]. fold z in L1. fold y in L2. unfold full in *.
  assert (c mod 4 = 0 ∧ rest mod 8 = 0) as [Hcm' Hrm] by (unfold c, rest; split; zcases).
  destruct (tag_block_used (words p) a size) as (w1 & E1 & E2 & E3); try done; try lia; [first [by eexists | apply Hm2; [lia|zcases]]..|].
  set (w2 := <[a + 4 + size := tag (mkBlock size true)]> (<[a := tag (mkBlock size true)]> (words p))) in *.
  assert (∀ x, is_Some (words p !! x) → is_Some (w2 !! x)) as Hs2 by (do 2 apply insert_some; done).
  destruct (tag_block_free w2 c rest) as (w3 & E4 & E5 & E6);
    [unfold c; lia|done|unfold rest; lia|done|unfold c, rest; lia|apply Hs2, Hm2; [unfold c; lia|done]|
     apply Hs2, Hm2; [unfold c, rest; lia|zcases]|].
  set (w4 := <[c + 4 + rest := tag (mkBlock rest false)]> (<[c := tag (mkBlock rest false)]> w2)) in *.
  assert (∀ x, is_Some (words p !! x) → is_Some (w4 !! x)) as Hs4 by (do 2 apply insert_some; done).
  assert (w4 !! (a + 4) = Some z) as Z4 by (unfold w4, w2, c, rest; rewrite !lookup_insert_ne by lia; done).
  set (w5 := <[c + 4 := z]> w4). set (w6 := <[c + 8 := y]> w5).
  assert (w5 !! (a + 8) = Some y) as Y5 by (unfold w5, w4, w2, c, rest; rewrite !lookup_insert_ne by lia; done).
  destruct (replace_mid p l1 b l2 a [mkBlock size true; mkBlock rest false] w6 Hp) as (p1 & p2 & F1 & F2 & F3); try done.
  - cbn. unfold full, rest. cbn. lia.
  - repeat (apply Forall_cons; split); [split; [cbn; lia|done]|split; [cbn; unfold rest; lia|done]|done].
  - unfold full, w6, w5, w4, w2, c, rest. repeat (apply insert_outside; [|lia]). done.
  - by do 2 apply insert_some.
  - cbn [chain bused bsize]. unfold full. cbn [bsize]. fold z y. replace (a + (size + 8)) with c by (unfold c; lia).
    unfold w6, w5, w4, w2. split_and!; [| | | | | |done].
    all: rewrite ?(lookup_insert_ne _ _ a), ?(lookup_insert_ne _ _ (a + 4 + size)), ?lookup_insert_eq by (unfold c, rest; lia); try done.
    + rewrite !(lookup_insert_ne _ _ c) by (unfold c, rest; lia). by rewrite lookup_insert_eq.
    + rewrite !(lookup_insert_ne _ _ (c + 4 + rest)) by (unfold c, rest; lia). by rewrite lookup_insert_eq.
    + rewrite lookup_insert_ne by lia. by rewrite lookup_insert_eq.
  - cbn [first_of bused last_of] in F1, F2. unfold full in F1, F2. cbn [bsize] in F1, F2. replace (a + (size + 8)) with c in F1, F2 by (unfold c; lia).
    exists w1, w2, w3, w4, w5, w6, p1, p2. split_and!; try done; try apply F3.
    + apply ld_ok; [zcases|done].
    + apply st_ok; [zcases|]. apply Hs4, Hm2; [unfold c; lia|zcases].
    + apply ld_ok; [zcases|done].
    + apply st_ok; [zcases|]. apply (insert_some (words p)); [done|]. apply Hm2; [unfold c; lia|zcases].
Qed.

(** C27: [mem_alloc] is first fit.  On a well-formed heap, asked for a positive
    multiple of eight bytes (it does not round other requests up, which
    misaligns the headers behind them), it returns the payload of the first free block that is long
    enough, cut in two when the rest can be a block of its own, or NULL when
    there is none; the heap is well formed again with this block used, so no
    two used blocks meet, and no byte the program owns changes. *)
Theorem mem_alloc_first_fit bs p size n : heap_wf bs p → 8 ≤ size < two31 → size mod 8 = 0 → (length bs < n)%nat →
  match fit size bs with
  | None => mem_alloc n size p = Ok (0, p)
  | Some (l1, b, l2) => ∃ p', mem_alloc n size p = Ok (start_addr p + extent l1 + 4, p') ∧
      heap_wf (l1 ++ alloc_blocks size b ++ l2) p' ∧ start_addr p' = start_addr p ∧ end_addr p' = end_addr p ∧
      (∀ x, owned (start_addr p) bs x → words p' !! x = words p !! x)
  end.
Proof.
  intros Hw Hsz Hszm Hn. destruct (SemWait_ok bs p Hw) as [Ew Ep]. unfold mem_alloc. rewrite Ew. cbn [mbind outcome_bind].
  pose proof Hw as [Hok [Hs Hsm] [He Hlim] Hc Hff Hm _]. pose proof two31_lt.
  change (words (locked p)) with (words p). change (first_free (locked p)) with (first_free p).
  rewrite Hff, (find_fit_ok n size bs _ 0 (words p) Hok Hs Hsm ltac:(lia) Hn Hc). cbn [mbind outcome_bind].
  destruct (fit size bs) as [[[l1 b] l2]|] eqn:Ef; [|cbn [Z.eqb]; by rewrite Ep].
  destruct (fit_spec size bs l1 b l2 Ef) as (-> & Hu & Hle). pose proof (placed_locked _ _ _ _ _ (heap_placed p l1 b l2 Hw)) as Hp.
  set (a := start_addr p + extent l1) in *. pose proof Hp as [_ (Hl1 & [Hb Hbm] & Hl2) _ (Ha & Hsa & Ham & Hcm & Hx2 & Hend) _ _ [T1 T2] Hlk _].
  destruct (Hlk Hu) as [L1 L2]. change (start_addr (locked p)) with (start_addr p) in *. change (words (locked p)) with (words p) in *.
  rewrite (proj2 (Z.eqb_neq a 0)) by lia. rewrite (full_ok _ a b Ham T1) by lia. cbn [mbind outcome_bind]. unfold full in *.
  assert (u32 (bsize b + 8 - size - 2 * HEADER_FOOTER_SIZE) = bsize b - size) as Er.
  { unfold HEADER_FOOTER_SIZE. rewrite u32_id; [lia|]. unfold is_u32, two31, two32 in *. lia. }
  rewrite Er. unfold prev_of, next_of. rewrite !(u32_id (a + 4)), !(u32_id (a + 8)) by (unfold is_u32; lia).
  rewrite (ld_ok _ (a + 4) _ ltac:(zcases) L1), (ld_ok _ (a + 8) _ ltac:(zcases) L2). cbn [mbind outcome_bind].
  unfold alloc_blocks. change (2 * HEADER_FOOTER_SIZE) with 8. destruct (Z.leb_spec (bsize b - size) 8) as [Hr|Hr]; cbn [negb].
  - destruct (alloc_whole (locked p) l1 b l2 a size Hp Hu Hle Hr Hff He eq_refl)
      as (w1 & w2 & p1 & p2 & E1 & E2 & E3 & E4 & E5 & Hw' & Hs' & He' & Hk).
    change (start_addr (locked p)) with (start_addr p) in *. change (words (locked p)) with (words p) in *.
    assert (u32 (size + (bsize b - size)) = bsize b) as -> by (rewrite u32_id; [lia|unfold is_u32, two31, two32 in *; lia]).
    rewrite E1. cbn [mbind outcome_bind]. rewrite E2. cbn [mbind outcome_bind]. rewrite E3. cbn [mbind outcome_bind].
    unfold full in *. rewrite E4. cbn [mbind outcome_bind]. rewrite E5. cbn [mbind outcome_bind].
    exists (SemPost p2). split; [unfold HEADER_FOOTER_SIZE; rewrite u32_id by (unfold is_u32; lia); done|]. split; [done|]. split; [done|]. split; [done|].
    intros x Hx. apply Hk. apply owned_app in Hx as [Hx|Hx]; [by left|]. cbn [owned] in Hx. destruct Hx as [[? _]|Hx]; [congruence|by right].
  - destruct (alloc_split (locked p) l1 b l2 a size Hp Hu) as (w1 & w2 & w3 & w4 & w5 & w6 & p1 & p2 & E1 & E2 & E3 & E4 & E5 & E6 & E7 & E8 & E9 & E10 & E11 & E12 & Hw' & Hs' & He' & Hk);
      [lia|done|zcases|done|done|done|].
    change (start_addr (locked p)) with (start_addr p) in *. change (words (locked p)) with (words p) in *. unfold full in *.
    rewrite E1. cbn [mbind outcome_bind]. rewrite E2. cbn [mbind outcome_bind]. rewrite E3. cbn [mbind outcome_bind].
    assert (u32 (a + size + 8) = a + size + 8) as -> by (apply u32_id; unfold is_u32; lia).
    assert (u32 (bsize b - size - 8) = bsize b - size - 8) as -> by (apply u32_id; unfold is_u32, two31, two32 in *; lia).
    rewrite E4. cbn [mbind outcome_bind]. rewrite E5. cbn [mbind outcome_bind]. rewrite E6. cbn [mbind outcome_bind].
    rewrite E7. cbn [mbind outcome_bind]. rewrite (u32_id (a + size + 8 + 4)), (u32_id (a + size + 8 + 8)) by (unfold is_u32; lia).
    rewrite E8. cbn [mbind outcome_bind]. rewrite E9. cbn [mbind outcome_bind]. rewrite E10. cbn [mbind outcome_bind].
    rewrite E11. cbn [mbind outcome_bind]. rewrite E12. cbn [mbind outcome_bind].
    exists (SemPost p2). split; [unfold HEADER_FOOTER_SIZE; rewrite u32_id by (unfold is_u32; lia); done|]. split; [done|]. split; [done|]. split; [done|].
    intros x Hx. apply Hk. apply owned_app in Hx as [Hx|Hx]; [by left|]. cbn [owned] in Hx. destruct Hx as [[? _]|Hx]; [congruence|by right].
Qed.

(** ** Freeing *)
(** The heap between the two halves of [mem_free]: block [a] of [s] bytes, marked
    free, is linked to the free blocks before it, which are linked to it. *)
Record half_freed (p : mem_pool) (l1 : list block) (a s : Z) (l2 : list block) : Prop := mkHalf {
  hf_ok : Forall block_ok l1 ∧ block_ok (mkBlock s false) ∧ Forall block_ok l2;
  hf_addr : a = start_addr p + extent l1;
  hf_start : 0 < start_addr p ∧ start_addr p mod 4 = 0;
  hf_end : end_addr p = a + 8 + s + extent l2 ∧ end_addr p < two31;
  hf_left : chain (start_addr p) l1 0 a (words p);
  hf_tags : words p !! a = Some s ∧ words p !! (a + 4 + s) = Some s;
  hf_prev : words p !! (a + 4) = Some (last_of (start_addr p) l1 0);
  hf_right : ∃ q, chain (a + 8 + s) l2 q 0 (words p);
  hf_first : first_free p = first_of (start_addr p) l1 a;
  hf_mapped : mapped (words p) (start_addr p) (extent l1 + 8 + s + extent l2);
  hf_sem : sem_malloc p = 0
}.
Lemma tag_free_word s : tag (mkBlock s false) = s.
Proof. unfold tag. cbn. lia. Qed.

(** The block is the last free one, and ends the list. *)
Lemma behind_none p l1 a s l2 : half_freed p l1 a s l2 → all_used l2 = true → words p !! (a + 8) = Some 0 →
  heap_wf (l1 ++ mkBlock s false :: l2) (SemPost p).
Proof.
  intros [(Hl1 & Hb & Hl2) Ea Hs [He Hlim] Hleft [T1 T2] Hp [q Hright] Hff Hm Hsem] Hu Hn.
  constructor; cbn [words start_addr end_addr first_free sem_malloc SemPost].
  - apply Forall_app. split; [done|]. by constructor.
  - done.
  - rewrite extent_app. cbn [extent]. unfold full. cbn [bsize]. split; lia.
  - apply chain_blocks_app. rewrite <- Ea. cbn [chain first_of bused bsize]. unfold full. cbn [bsize]. rewrite tag_free_word.
    rewrite all_used_first by done. split; [done|]. split; [done|]. split; [done|]. split; [done|]. split; [done|].
    replace (a + (s + 8)) with (a + 8 + s) by lia. by apply (chain_prev_used _ _ q).
  - rewrite first_of_app, <- Ea. done.
  - rewrite extent_app. cbn [extent]. unfold full. cbn [bsize]. intros x Hx. apply Hm. lia.
  - lia.
Qed.

(** The next free block is further on: it and the block are linked. *)
Lemma behind_far p l1 a s l2 : half_freed p l1 a s l2 → all_used l2 = false → first_of (a + 8 + s) l2 0 ≠ a + 8 + s →
  ∃ p', free_behind a (a + 4 + s) (first_of (a + 8 + s) l2 0) p = Ok p' ∧ heap_wf (l1 ++ mkBlock s false :: l2) (SemPost p') ∧
    start_addr p' = start_addr p ∧ end_addr p' = end_addr p ∧
    (∀ x, owned (start_addr p) l1 x ∨ owned (a + 8 + s) l2 x → words p' !! x = words p !! x).
Proof.
  intros [(Hl1 & [Hb Hbm] & Hl2) Ea [Hs Hsm] [He Hlim] Hleft [T1 T2] Hp [q Hright] Hff Hm Hsem] Hu Hfar. cbn [bsize] in *.
  pose proof two31_lt. pose proof (extent_nonneg _ Hl1). pose proof (extent_mod _ Hl1).
  destruct (some_free_first (a + 8 + s) l2 0 Hl2 Hu) as (R1 & R2 & _).
  set (y := first_of (a + 8 + s) l2 0) in *.
  assert (a mod 4 = 0) as Ham by zcases.
  pose proof (first_of_mod (a + 8 + s) l2 0 Hl2 ltac:(zcases) eq_refl) as Hym. fold y in Hym.
  unfold free_behind. rewrite (proj2 (Z.eqb_neq y 0)) by lia. cbn [negb]. unfold HEADER_FOOTER_SIZE, prev_of, next_of.
  rewrite !u32_id by (unfold is_u32; lia). rewrite (proj2 (Z.eqb_neq (y - 4) _)) by lia.
  rewrite st_ok by (zcases || (apply Hm; [lia|zcases])). cbn [mbind outcome_bind].
  rewrite st_ok by (zcases || (apply (insert_some (words p)); [done|apply Hm; [lia|zcases]])). cbn [mbind outcome_bind].
  eexists. split; [done|]. cbn [start_addr end_addr with_words]. split; [|split; [done|split; [done|]]].
  - constructor; cbn [words start_addr end_addr first_free sem_malloc SemPost with_words].
    + apply Forall_app. split; [done|]. by constructor.
    + done.
    + rewrite extent_app. cbn [extent]. unfold full. cbn [bsize]. split; lia.
    + apply chain_blocks_app. rewrite <- Ea. cbn [chain first_of bused bsize]. unfold full. cbn [bsize]. rewrite tag_free_word.
      replace (a + (s + 8)) with (a + 8 + s) by lia. fold y. split; [do 2 (apply chain_insert; [done|lia|]); done|].
      rewrite lookup_insert_eq, !lookup_insert_ne by lia. split_and!; try done.
      apply chain_insert; [done|lia|]. by apply (chain_prev _ _ q).
    + rewrite first_of_app, <- Ea. done.
    + rewrite extent_app. cbn [extent]. unfold full. cbn [bsize]. intros x Hx Hxm.
      refine (insert_some _ _ _ _ (insert_some _ _ _ _ (λ _ Hy, Hy)) x (Hm x _ Hxm)). lia.
    + lia.
  - intros x Hx. cbn [words with_words]. rewrite !lookup_insert_ne; [done| |]; intros <-.
    + destruct Hx as [Hx|Hx]; [pose proof (owned_range _ _ _ Hl1 Hx); lia|]. by destruct (owned_links _ _ _ 0 0 Hl2 Hx Hu).
    + destruct Hx as [Hx|Hx]; [pose proof (owned_range _ _ _ Hl1 Hx)|pose proof (owned_range _ _ _ Hl2 Hx)]; lia.
Qed.

Lemma set_size_ok w m s0 u s : m mod 4 = 0 → w !! m = Some (tag (mkBlock s0 u)) → 0 ≤ s0 < two31 → 0 ≤ s < two31 →
  set_block_size w m s = Ok (<[m := tag (mkBlock s u)]> w).
Proof.
  intros Hm Hv H0 Hs. unfold set_block_size. rewrite (ld_ok w m _ Hm Hv). cbn [mbind outcome_bind].
  rewrite st_ok by (done || by eexists). by rewrite tag_flag, flag_size.
Qed.
Lemma merge_ok w a s y g : a mod 4 = 0 → y mod 4 = 0 → 0 < a → a + 8 ≤ y → 0 ≤ s → s mod 4 = 0 → 0 ≤ g → g mod 4 = 0 →
  a + 16 + s + g < two31 → w !! a = Some s → w !! y = Some g → w !! (a + 12 + s + g) = Some g →
  merge_block w a y = Ok (<[a + 12 + s + g := s + g + 8]> (<[a := s + g + 8]> w)).
Proof.
  intros Ham Hym Ha Hay Hs Hsm Hg Hgm Hlim T1 T2 T3. pose proof two31_lt. unfold merge_block.
  assert (w !! a = Some (tag (mkBlock s false)) ∧ w !! y = Some (tag (mkBlock g false)) ∧ w !! (a + 12 + s + g) = Some (tag (mkBlock g false)))
    as (T1' & T2' & T3') by (by rewrite !tag_free_word). clear T1 T2 T3. rename T1' into T1, T2' into T2, T3' into T3.
  rewrite (size_ok w a _ Ham T1), (size_ok w y _ Hym T2) by (cbn; lia). cbn [mbind outcome_bind bsize].
  change (2 * HEADER_FOOTER_SIZE) with 8. rewrite u32_id by (unfold is_u32; lia).
  rewrite (set_size_ok w a s false) by (done || lia). cbn [mbind outcome_bind].
  assert (∀ w, <[a := tag (mkBlock (s + g + 8) false)]> w !! a = Some (tag (mkBlock (s + g + 8) false))) as Hl by (intros; apply lookup_insert_eq).
  rewrite (footer_ok _ a (mkBlock (s + g + 8) false) Ham (Hl w)) by (unfold full; cbn; lia). cbn [mbind outcome_bind bsize].
  rewrite (size_ok _ a _ Ham (Hl w)) by (cbn; lia). cbn [mbind outcome_bind bsize].
  replace (a + 4 + (s + g + 8)) with (a + 12 + s + g) by lia.
  rewrite (set_size_ok _ (a + 12 + s + g) g false); [by rewrite !tag_free_word|zcases|rewrite lookup_insert_ne by lia; done|lia|lia].
Qed.

(** The block behind is free: the two become one, and the next link is that of
    the block behind; the links to it from further on stay. *)
Lemma behind_joins p l1 a s g l2 : half_freed p l1 a s (mkBlock g false :: l2) →
  free_behind a (a + 4 + s) (a + 8 + s) p = Ok (with_words p
    (<[a + 8 := first_of (a + 16 + s + g) l2 0]> (<[a + 12 + s + g := s + g + 8]> (<[a := s + g + 8]> (words p))))).
Proof.
  intros [(Hl1 & [Hb Hbm] & Hl2) Ea [Hs Hsm] [He Hlim] Hleft [T1 T2] Hp [q Hright] Hff Hm Hsem]. cbn [bsize] in *.
  inversion Hl2 as [|? ? [Hg Hgm] Hl2']; subst x l. cbn [bsize] in *. cbn [extent chain bused] in *. unfold full in *. cbn [bsize] in *.
  destruct Hright as (G1 & G2 & G3 & G4 & Hright). rewrite tag_free_word in G1, G2.
  replace (a + 8 + s + (g + 8)) with (a + 16 + s + g) in G4 by lia.
  pose proof two31_lt. pose proof (extent_nonneg _ Hl1). pose proof (extent_mod _ Hl1). pose proof (extent_nonneg _ Hl2').
  assert (a mod 4 = 0) as Ham by zcases.
  unfold free_behind. rewrite (proj2 (Z.eqb_neq (a + 8 + s) 0)) by lia. cbn [negb]. unfold HEADER_FOOTER_SIZE, next_of.
  rewrite (u32_id (a + 8 + s - 4)), (u32_id (a + 8 + s + 8)), (u32_id (a + 8)) by (unfold is_u32; lia).
  rewrite (proj2 (Z.eqb_eq (a + 8 + s - 4) _)) by lia.
  replace (a + 8 + s + 4 + g) with (a + 12 + s + g) in G2 by lia.
  rewrite (merge_ok _ a s (a + 8 + s) g) by (done || lia || zcases). cbn [mbind outcome_bind].
  rewrite (ld_ok _ (a + 8 + s + 8) (first_of (a + 16 + s + g) l2 0)) by (zcases || (rewrite !lookup_insert_ne by lia; done)). cbn [mbind outcome_bind].
  rewrite st_ok by (zcases || (refine (insert_some _ _ _ _ (insert_some _ _ _ _ (λ _ Hy, Hy)) _ (Hm _ _ _)); [lia|zcases])). done.
Qed.

(** It is the last free one. *)
Lemma behind_near p l1 a s g l2 : half_freed p l1 a s (mkBlock g false :: l2) → all_used l2 = true →
  ∃ p', free_behind a (a + 4 + s) (a + 8 + s) p = Ok p' ∧ heap_wf (l1 ++ mkBlock (s + g + 8) false :: l2) (SemPost p') ∧
    start_addr p' = start_addr p ∧ end_addr p' = end_addr p ∧
    (∀ x, owned (start_addr p) l1 x ∨ owned (a + 16 + s + g) l2 x → words p' !! x = words p !! x).
Proof.
  intros Hh Hu. pose proof (behind_joins _ _ _ _ _ _ Hh) as E. rewrite all_used_first in E by done. rewrite E. clear E.
  destruct Hh as [(Hl1 & [Hb Hbm] & Hl2) Ea [Hs Hsm] [He Hlim] Hleft [T1 T2] Hp [q Hright] Hff Hm Hsem]. cbn [bsize] in *.
  inversion Hl2 as [|? ? [Hg Hgm] Hl2']; subst x l. cbn [bsize] in *. cbn [extent chain bused] in *. unfold full in *. cbn [bsize] in *.
  destruct Hright as (G1 & G2 & G3 & G4 & Hright). rewrite tag_free_word in G1, G2. rewrite all_used_first in G4 by done.
  pose proof two31_lt. pose proof (extent_nonneg _ Hl1). pose proof (extent_mod _ Hl1). pose proof (extent_nonneg _ Hl2').
  assert (a mod 4 = 0) as Ham by zcases. replace (a + 8 + s + 4 + g) with (a + 12 + s + g) in G2 by lia.
  eexists. split; [done|]. cbn [start_addr end_addr with_words]. split; [|split; [done|split; [done|]]].
  - constructor; cbn [words start_addr end_addr first_free sem_malloc SemPost with_words].
    + apply Forall_app. split; [done|]. constructor; [|done]. split; cbn; [lia|zcases].
    + done.
    + rewrite extent_app. cbn [extent]. unfold full. cbn [bsize]. split; lia.
    + apply chain_blocks_app. rewrite <- Ea. cbn [chain first_of bused bsize]. unfold full. cbn [bsize]. rewrite tag_free_word, all_used_first by done.
      replace (a + 4 + (s + g + 8)) with (a + 12 + s + g) by lia. replace (a + (s + g + 8 + 8)) with (a + 8 + s + (g + 8)) by lia.
      split; [do 3 (apply chain_insert; [done|lia|]); done|].
      rewrite (lookup_insert_ne _ (a + 8) a), (lookup_insert_ne _ (a + 12 + s + g) a), lookup_insert_eq by lia.
      rewrite (lookup_insert_ne _ (a + 8) (a + 12 + s + g)), lookup_insert_eq by lia.
      rewrite !(lookup_insert_ne _ _ (a + 4)) by lia. rewrite lookup_insert_eq. split_and!; try done.
      do 3 (apply chain_insert; [done|lia|]). by apply (chain_prev_used _ _ (a + 8 + s)).
    + rewrite first_of_app, <- Ea. done.
    + rewrite extent_app. cbn [extent]. unfold full. cbn [bsize]. intros x Hx Hxm.
      refine (insert_some _ _ _ _ (insert_some _ _ _ _ (insert_some _ _ _ _ (λ _ Hy, Hy))) x (Hm x _ Hxm)). lia.
    + lia.
  - intros x Hx. cbn [words with_words]. assert (¬ (a ≤ x < a + 16 + s + g)) as Hout.
    { destruct Hx as [Hx|Hx]; [pose proof (owned_range _ _ _ Hl1 Hx)|pose proof (owned_range _ _ _ Hl2' Hx)]; lia. }
    by rewrite !lookup_insert_ne by lia.
Qed.

(** The walk back over used blocks. *)
Lemma previous_used u c q n w start k : Forall block_ok u → all_used u = true → 0 < start → start ≤ c → c mod 4 = 0 → c + extent u < two32 →
  chain c u q k w → previous_loop (length u + n) w start (c + extent u - 4) = previous_loop n w start (c - 4).
Proof.
  revert k. induction u as [|b u IH] using rev_ind; intros k Hok Hu Hs Hc Hcm Hend Hch; [cbn; f_equal; lia|].
  apply Forall_app in Hok as [Hok [[Hb Hbm] _]%Forall_cons_1]. unfold all_used in Hu. rewrite forallb_app in Hu. apply andb_true_iff in Hu as [Hu Hbu].
  cbn in Hbu. rewrite andb_true_r in Hbu. apply chain_blocks_app in Hch as [Hch (T1 & T2 & _)]. pose proof (extent_nonneg _ Hok). pose proof (extent_mod _ Hok).
  rewrite extent_app in *. cbn [extent] in *. unfold full in *. rewrite length_app. cbn [length]. rewrite Nat.add_1_r. cbn [Nat.add previous_loop].
  replace (c + extent u + 4 + bsize b) with (c + (extent u + (bsize b + 8 + 0)) - 4) in T2 by lia.
  rewrite (proj2 (Z.leb_le _ _)) by lia. rewrite (free_ok _ _ b) by (done || zcases || lia). rewrite Hbu. cbn [mbind outcome_bind negb].
  rewrite (full_ok _ _ b) by (done || zcases || lia). cbn [mbind outcome_bind]. unfold full.
  rewrite u32_id by (unfold is_u32; zcases). rewrite <- (IH _ Hok Hu Hs Hc Hcm ltac:(lia) Hch). f_equal. lia.
Qed.

Section before.
Context (p : mem_pool) (l1 : list block) (s : Z) (l2 : list block) (a : Z).
Hypothesis Hp : placed p l1 (mkBlock s true) l2 a.
Hypothesis Hff : first_free p = first_of (start_addr p) (l1 ++ mkBlock s true :: l2) 0.
Hypothesis He : end_addr p = start_addr p + extent (l1 ++ mkBlock s true :: l2).
Hypothesis Hsem : sem_malloc p = 0.
(** The block with its tags cleared. *)
Definition marked : mem_pool := with_words p (<[a + 4 + s := s]> (<[a := s]> (words p))).
Let y := first_of (a + 8 + s) l2 0.

Lemma marked_outside x : ¬ (a ≤ x < a + 8 + s) → words marked !! x = words p !! x.
Proof using Hp. destruct Hp as [_ (_ & [Hb _] & _) _ _ _ _ _ _ _]. cbn [bsize] in Hb. intros Hx. unfold marked. cbn. rewrite !lookup_insert_ne by lia. done. Qed.
Lemma marked_some x : is_Some (words p !! x) → is_Some (words marked !! x).
Proof using Type. unfold marked. cbn. by do 2 apply insert_some. Qed.
Lemma marked_mapped : mapped (words marked) (start_addr p) (extent l1 + 8 + s + extent l2).
Proof using Hp.
  destruct Hp as [Ea _ _ _ _ _ _ _ (M1 & M2 & M3)]. unfold full in *. cbn [bsize] in *. intros x Hx Hm. apply marked_some.
  destruct (decide (x < a)); [apply M1; [lia|done]|]. destruct (decide (x < a + 8 + s)); [apply M2; [lia|done]|apply M3; [lia|done]].
Qed.
Lemma marked_tags : words marked !! a = Some s ∧ words marked !! (a + 4 + s) = Some s ∧
  (∀ x, a + 4 ≤ x < a + 4 + s → words marked !! x = words p !! x).
Proof using Hp.
  destruct Hp as [_ (_ & [Hb _] & _) _ _ _ _ _ _ _]. cbn [bsize] in Hb. unfold marked. cbn.
  split; [by rewrite lookup_insert_ne, lookup_insert_eq by lia|]. split; [apply lookup_insert_eq|].
  intros x Hx. by rewrite !lookup_insert_ne by lia.
Qed.
Lemma marked_left : chain (start_addr p) l1 0 y (words marked).
Proof using Hp.
  destruct Hp as [Ea (Hl1 & [Hb _] & _) _ _ Hl _ _ _ _]. cbn [first_of bused] in Hl. unfold full in Hl. cbn [bsize] in *.
  replace (a + (s + 8)) with (a + 8 + s) in Hl by lia. apply (chain_frame _ _ _ _ (words p)); [done| |done]. intros x Hx. apply marked_outside. lia.
Qed.
Lemma marked_right : ∃ q, chain (a + 8 + s) l2 q 0 (words marked).
Proof using Hp.
  destruct Hp as [Ea (_ & [Hb _] & Hl2) _ _ _ Hr _ _ _]. unfold full in Hr. cbn [bsize] in *. replace (a + (s + 8)) with (a + 8 + s) in Hr by lia.
  eexists. apply (chain_frame _ _ _ _ (words p)); [done| |exact Hr]. intros x Hx. apply marked_outside. lia.
Qed.
Lemma first_free_marked : first_free p = first_of (start_addr p) l1 y.
Proof using Hp Hff. destruct Hp as [Ea _ _ _ _ _ _ _ _]. rewrite Hff, first_of_app, <- Ea. cbn [first_of bused]. unfold full. cbn [bsize]. unfold y. do 2 f_equal. lia. Qed.
Lemma marked_end : end_addr p = a + 8 + s + extent l2.
Proof using Hp He. destruct Hp as [Ea _ _ _ _ _ _ _ _]. rewrite He, extent_app. cbn [extent]. unfold full. cbn [bsize]. lia. Qed.

Lemma before_none n : all_used l1 = true → (length l1 < n)%nat →
  ∃ p', free_before n a marked = Ok (a, y, p') ∧ half_freed p' l1 a s l2 ∧ start_addr p' = start_addr p ∧ end_addr p' = end_addr p ∧
    words p' !! (a + 8) = words p !! (a + 8) ∧
    (∀ x, owned (start_addr p) l1 x ∨ owned (a + 8 + s) l2 x → words p' !! x = words p !! x).
Proof using All.
  intros Hu Hn. pose proof Hp as [Ea (Hl1 & Hb' & Hl2) [Hs Hsm] (Ha & Hsa & Ham & Hcm & Hx2 & Hend) _ _ _ _ _]. pose proof Hb' as [Hb Hbm].
  unfold full in *. cbn [bsize] in *. pose proof two31_lt. pose proof (extent_nonneg _ Hl1).
  destruct marked_tags as (T1 & T2 & T3). destruct marked_right as [q Hq].
  unfold free_before, find_previous_free_block_footer. change (start_addr marked) with (start_addr p). change HEADER_FOOTER_SIZE with 4.
  rewrite u32_id by (unfold is_u32; zcases). replace (a - 4) with (start_addr p + extent l1 - 4) by lia.
  replace n with (length l1 + (n - length l1))%nat by lia.
  rewrite (previous_used l1 (start_addr p) 0 _ _ _ y) by (done || lia || apply marked_left).
  destruct (n - length l1)%nat as [|m] eqn:En; [lia|]. cbn [previous_loop].
  rewrite (proj2 (Z.leb_gt _ _)) by lia. cbn [mbind outcome_bind]. rewrite (proj2 (Z.ltb_lt _ _)) by lia.
  unfold prev_of. rewrite u32_id by (unfold is_u32; lia).
  rewrite st_ok by (zcases || (apply marked_mapped; [lia|zcases])). cbn [mbind outcome_bind].
  assert (first_free marked = y) as -> by (change (first_free marked) with (first_free p); rewrite first_free_marked; by apply all_used_first).
  eexists. split; [done|]. cbn [start_addr end_addr words first_free with_words with_first]. split; [|split; [done|split; [done|split]]].
  - constructor; cbn [start_addr end_addr words first_free sem_malloc with_words with_first]; try change (start_addr marked) with (start_addr p); try done.
    + split; [exact marked_end|]. change (end_addr p < two31). rewrite marked_end. lia.
    + apply chain_insert; [done|lia|]. apply (chain_next_used _ _ _ y); [done|apply marked_left].
    + rewrite !lookup_insert_ne by lia. done.
    + by rewrite lookup_insert_eq, all_used_last.
    + exists q. apply chain_insert; [done|lia|done].
    + by rewrite all_used_first.
    + intros x Hx Hxm. apply insert_some with (w0 := words marked); [done|by apply marked_mapped].
  - rewrite lookup_insert_ne by lia. apply T3. lia.
  - intros x Hx. assert (¬ (a ≤ x < a + 8 + s)) as Hout.
    { destruct Hx as [Hx|Hx]; [pose proof (owned_range _ _ _ Hl1 Hx)|pose proof (owned_range _ _ _ Hl2 Hx)]; lia. }
    rewrite lookup_insert_ne by lia. by apply marked_outside.
Qed.

(** The last free block before is [f], at [z]. *)
Section after_free.
Context (k u : list block) (f : Z).
Hypothesis Hl : l1 = k ++ mkBlock f false :: u.
Hypothesis Hu : all_used u = true.
Let z := start_addr p + extent k.

Lemma free_before_facts : Forall block_ok k ∧ (8 ≤ f < two31 ∧ f mod 8 = 0) ∧ Forall block_ok u ∧ a = z + 8 + f + extent u ∧
  z mod 4 = 0 ∧ start_addr p ≤ z ∧ 0 ≤ extent u ∧
  last_of (start_addr p) l1 0 = z ∧ chain (start_addr p) k 0 z (words marked) ∧
  words marked !! z = Some f ∧ words marked !! (z + 4 + f) = Some f ∧ words marked !! (z + 4) = Some (last_of (start_addr p) k 0) ∧
  words marked !! (z + 8) = Some y ∧ (∃ q, chain (z + 8 + f) u q y (words marked)) ∧ ∀ n, first_of (start_addr p) l1 n = first_of (start_addr p) k z.
Proof using All.
  pose proof marked_left as Hc. destruct Hp as [Ea (Hl1 & _) [Hs Hsm] _ _ _ _ _ _]. rewrite Hl in *. apply Forall_app in Hl1 as [Hk [[Hf Hfm] Huo]%Forall_cons_1].
  apply chain_blocks_app in Hc as [Hk' (F1 & F2 & F3 & F4 & F5)]. rewrite tag_free_word in F1, F2. cbn [bused bsize first_of] in *. unfold full in F4, F5. cbn [bsize] in *.
  change (start_addr p + extent k) with z in Hk', F1, F2, F3, F4, F5. replace (z + (f + 8)) with (z + 8 + f) in F4, F5 by lia. rewrite all_used_first in F4 by done.
  pose proof (extent_nonneg _ Hk). pose proof (extent_nonneg _ Huo). pose proof (extent_mod _ Hk).
  split_and!; try done; try lia.
  - rewrite Ea, extent_app. cbn [extent]. unfold full, z. cbn [bsize]. lia.
  - unfold z. zcases.
  - rewrite last_of_app. cbn [last_of bused]. by rewrite all_used_last.
  - by eexists.
  - intros n. rewrite first_of_app. done.
Qed.

Lemma walk_back n : (length l1 < n)%nat → find_previous_free_block_footer n marked a = Ok (z + 4 + f).
Proof using All.
  intros Hn. destruct free_before_facts as (Hk & [Hf Hfm] & Huo & Ea & Hzm & Hsz & Hxu & _ & _ & _ & F2 & _ & _ & [q Hq] & _).
  pose proof Hp as [_ _ [Hs Hsm] (Ha & Hsa & Ham & Hcm & Hx2 & Hend) _ _ _ _ _]. unfold full in *. cbn [bsize] in *. pose proof two31_lt.
  destruct Hp as [_ (_ & [Hb _] & _) _ _ _ _ _ _ _]. cbn [bsize] in Hb.
  unfold find_previous_free_block_footer. change (start_addr marked) with (start_addr p). change HEADER_FOOTER_SIZE with 4.
  rewrite u32_id by (unfold is_u32; zcases). replace (a - 4) with (z + 8 + f + extent u - 4) by lia.
  rewrite Hl, length_app in Hn. cbn [length] in Hn. replace n with (length u + (n - length u))%nat by lia.
  rewrite (previous_used u (z + 8 + f) q _ _ _ y) by (done || lia || zcases).
  destruct (n - length u)%nat as [|m] eqn:En; [lia|]. cbn [previous_loop]. rewrite (proj2 (Z.leb_le _ _)) by lia.
  replace (z + 8 + f - 4) with (z + 4 + f) by lia. rewrite <- (tag_free_word f) in F2 at 2.
  rewrite (free_ok _ _ (mkBlock f false)) by (done || zcases || (cbn; lia)). done.
Qed.

Lemma before_found n : (length l1 < n)%nat → free_before n a marked =
  (if u32 (z + 4 + f + HEADER_FOOTER_SIZE) =? a then
     w ← merge_block (words marked) z a; Ok (z, y, with_words marked w)
   else
     w ← st (words marked) (z + 8) a; w1 ← st w (a + 4) z; Ok (a, y, with_words marked w1)).
Proof using All.
  intros Hn. destruct free_before_facts as (Hk & [Hf Hfm] & Huo & Ea & Hzm & Hsz & Hxu & _ & _ & _ & F2 & _ & F4 & _ & _).
  pose proof Hp as [_ (_ & [Hb _] & _) [Hs Hsm] (Ha & Hsa & Ham & Hcm & Hx2 & Hend) _ _ _ _ _]. unfold full in *. cbn [bsize] in *. pose proof two31_lt.
  unfold free_before. rewrite walk_back by done. cbn [mbind outcome_bind]. change (start_addr marked) with (start_addr p).
  rewrite (proj2 (Z.ltb_ge _ _)) by lia. rewrite <- (tag_free_word f) in F2 at 2.
  rewrite (full_ok _ _ (mkBlock f false)) by (done || zcases || (cbn; lia)). cbn [mbind outcome_bind]. unfold full, HEADER_FOOTER_SIZE, next_of, prev_of. cbn [bsize].
  rewrite (u32_id (z + 4 + f - (f + 8) + 4)) by (unfold is_u32; lia). replace (z + 4 + f - (f + 8) + 4) with z by lia.
  rewrite (u32_id (z + 8)), (u32_id (a + 4)) by (unfold is_u32; lia). rewrite (ld_ok _ (z + 8) y ltac:(zcases) F4). done.
Qed.

Lemma before_far n : (length l1 < n)%nat → u ≠ [] →
  ∃ p', free_before n a marked = Ok (a, y, p') ∧ half_freed p' l1 a s l2 ∧ start_addr p' = start_addr p ∧ end_addr p' = end_addr p ∧
    words p' !! (a + 8) = words p !! (a + 8) ∧
    (∀ x, owned (start_addr p) l1 x ∨ owned (a + 8 + s) l2 x → words p' !! x = words p !! x).
Proof using All.
  intros Hn Hne. rewrite before_found by done.
  destruct free_before_facts as (Hk & [Hf Hfm] & Huo & Ea & Hzm & Hsz & Hxu & Elast & _ & _ & _ & _ & _ & _ & Efirst).
  pose proof Hp as [Ea1 (Hl1 & Hb' & Hl2) [Hs Hsm] (Ha & Hsa & Ham & Hcm & Hx2 & Hend) _ _ _ _ _]. pose proof Hb' as [Hb Hbm].
  unfold full in *. cbn [bsize] in *. pose proof two31_lt.
  assert (0 < extent u) as Hpos.
  { destruct u as [|b u']; [done|]. apply Forall_cons in Huo as [[Hb0 _] Hu']. pose proof (extent_nonneg _ Hu'). cbn [extent]. unfold full. lia. }
  destruct marked_tags as (T1 & T2 & T3). destruct marked_right as [q Hq].
  rewrite u32_id by (unfold is_u32, HEADER_FOOTER_SIZE; lia). unfold HEADER_FOOTER_SIZE. rewrite (proj2 (Z.eqb_neq _ a)) by lia.
  rewrite st_ok by (zcases || (apply marked_mapped; [unfold z in *; lia|zcases])). cbn [mbind outcome_bind].
  rewrite st_ok by (zcases || (apply insert_some with (w0 := words marked); [done|apply marked_mapped; [lia|zcases]])). cbn [mbind outcome_bind].
  assert (all_used l1 = false) as Eu by (rewrite Hl; unfold all_used; rewrite forallb_app; cbn; by rewrite andb_false_r).
  eexists. split; [done|]. cbn [start_addr end_addr words first_free with_words]. split; [|split; [done|split; [done|split]]].
  - constructor; cbn [start_addr end_addr words first_free sem_malloc with_words]; try change (start_addr marked) with (start_addr p); try done.
    + split; [exact marked_end|]. change (end_addr p < two31). rewrite marked_end. lia.
    + apply chain_insert; [done|lia|]. rewrite <- Elast. apply (chain_next _ _ _ y); [done|done|apply marked_left].
    + rewrite !lookup_insert_ne by lia. done.
    + by rewrite lookup_insert_eq, Elast.
    + exists q. do 2 (apply chain_insert; [done|lia|]). done.
    + change (first_free marked) with (first_free p). by rewrite first_free_marked, !Efirst.
    + intros x Hx Hxm. refine (insert_some _ _ _ _ (insert_some _ _ _ _ (λ _ Hy, Hy)) x (marked_mapped x Hx Hxm)).
  - rewrite !lookup_insert_ne by lia. apply T3. lia.
  - intros x Hx. assert (¬ (a ≤ x < a + 8 + s)) as Hout.
    { destruct Hx as [Hx|Hx]; [pose proof (owned_range _ _ _ Hl1 Hx)|pose proof (owned_range _ _ _ Hl2 Hx)]; lia. }
    rewrite lookup_insert_ne by lia. rewrite lookup_insert_ne; [by apply marked_outside|]. intros <-.
    destruct Hx as [Hx|Hx]; [|pose proof (owned_range _ _ _ Hl2 Hx); lia]. destruct (owned_links _ _ _ 0 0 Hl1 Hx Eu) as [Hz _]. by rewrite Elast in Hz.
Qed.

Lemma before_near n : (length l1 < n)%nat → u = [] →
  ∃ p', free_before n a marked = Ok (z, y, p') ∧ half_freed p' k z (f + s + 8) l2 ∧ start_addr p' = start_addr p ∧ end_addr p' = end_addr p ∧
    words p' !! (z + 8) = Some y ∧
    (∀ x, owned (start_addr p) l1 x ∨ owned (a + 8 + s) l2 x → words p' !! x = words p !! x).
Proof using All.
  intros Hn Hnil. rewrite before_found by done.
  destruct free_before_facts as (Hk & [Hf Hfm] & Huo & Ea & Hzm & Hsz & Hxu & _ & Hleft & F1 & _ & F3 & F4 & _ & Efirst).
  pose proof Hp as [Ea1 (Hl1 & Hb' & Hl2) [Hs Hsm] (Ha & Hsa & Ham & Hcm & Hx2 & Hend) _ _ _ _ _]. pose proof Hb' as [Hb Hbm].
  unfold full in *. cbn [bsize] in *. pose proof two31_lt. rewrite Hnil in *. cbn [extent] in *.
  destruct marked_tags as (T1 & T2 & T3). destruct marked_right as [q Hq]. pose proof (extent_nonneg _ Hk).
  rewrite u32_id by (unfold is_u32, HEADER_FOOTER_SIZE; lia). unfold HEADER_FOOTER_SIZE. rewrite (proj2 (Z.eqb_eq _ a)) by lia.
  replace (a + 4 + s) with (z + 12 + f + s) in T2 by lia.
  rewrite (merge_ok _ z f a s) by (done || lia || zcases). cbn [mbind outcome_bind].
  eexists. split; [done|]. cbn [start_addr end_addr words first_free with_words]. split; [|split; [done|split; [done|split]]].
  - constructor; cbn [start_addr end_addr words first_free sem_malloc with_words]; try change (start_addr marked) with (start_addr p); try done.
    + split; [done|]. split; [split; cbn; [lia|zcases]|done].
    + split; [|change (end_addr p < two31); rewrite marked_end; lia]. change (end_addr p = z + 8 + (f + s + 8) + extent l2). rewrite marked_end. lia.
    + do 2 (apply chain_insert; [done|unfold z in *; lia|]). done.
    + replace (z + 4 + (f + s + 8)) with (z + 12 + f + s) by lia. rewrite lookup_insert_eq, lookup_insert_ne, lookup_insert_eq by lia. done.
    + by rewrite !lookup_insert_ne by lia.
    + replace (z + 8 + (f + s + 8)) with (a + 8 + s) by lia. exists q. do 2 (apply chain_insert; [done|lia|]). done.
    + change (first_free marked) with (first_free p). by rewrite first_free_marked, Efirst.
    + intros x Hx Hxm. refine (insert_some _ _ _ _ (insert_some _ _ _ _ (λ _ Hy, Hy)) x (marked_mapped x _ Hxm)).
      rewrite Hl, extent_app. cbn [extent]. unfold full. cbn [bsize]. lia.
  - by rewrite !lookup_insert_ne by lia.
  - intros x Hx. assert (¬ (a ≤ x < a + 8 + s)) as Hout.
    { destruct Hx as [Hx|Hx]; [pose proof (owned_range _ _ _ Hl1 Hx)|pose proof (owned_range _ _ _ Hl2 Hx)]; lia. }
    rewrite lookup_insert_ne by lia. rewrite lookup_insert_ne; [by apply marked_outside|]. intros <-.
    destruct Hx as [Hx|Hx]; [|pose proof (owned_range _ _ _ Hl2 Hx); lia]. rewrite Hl in Hx. apply owned_app in Hx as [Hx|[[? _]|[]]]; [|done].
    pose proof (owned_range _ _ _ Hk Hx). unfold z in *. lia.
Qed.
End after_free.
End before.

(** What freeing a block makes of it: it joins the free blocks it touches. *)
Definition before_blocks (l1 : list block) (s : Z) : list block * Z :=
  match last l1 with Some (mkBlock f false) => (removelast l1, f + s + 8) | _ => (l1, s) end.
Definition free_blocks (l1 : list block) (s : Z) (l2 : list block) : list block :=
  let '(k, s1) := before_blocks l1 s in
  match l2 with
  | mkBlock g false :: l => k ++ mkBlock (s1 + g + 8) false :: l
  | _ => k ++ mkBlock s1 false :: l2
  end.
Definition ends_free (l1 : list block) : bool := match last l1 with Some b => negb (bused b) | None => false end.
(** Where [mem_free] sets every link: the next free block is further on; or it
    is adjacent and the last one; or there is none and the block before is free. *)
Definition links_set (l1 l2 : list block) : bool :=
  match l2 with
  | mkBlock _ false :: l => all_used l
  | _ => negb (all_used l2) || ends_free l1
  end.

Lemma last_free_split l1 : all_used l1 = true ∨ ∃ k f u, l1 = k ++ mkBlock f false :: u ∧ all_used u = true.
Proof.
  induction l1 as [|b l1 IH] using rev_ind; [by left|]. destruct b as [s []].
  - destruct IH as [Hu|(k & f & u & -> & Hu)]; [left|right; exists k, f, (u ++ [mkBlock s true])].
    + unfold all_used in *. rewrite forallb_app, Hu. done.
    + split; [by rewrite <- app_assoc|]. unfold all_used in *. rewrite forallb_app, Hu. done.
  - right. by exists l1, s, [].
Qed.
Lemma all_used_last_block l b : all_used l = true → last l = Some b → bused b = true.
Proof.
  intros Hu Hl. apply last_Some in Hl as (l' & ->). unfold all_used in Hu. rewrite forallb_app in Hu. cbn in Hu.
  apply andb_true_iff in Hu as [_ Hu]. by rewrite andb_true_r in Hu.
Qed.

Lemma before_ok p l1 s l2 a n : placed p l1 (mkBlock s true) l2 a → first_free p = first_of (start_addr p) (l1 ++ mkBlock s true :: l2) 0 →
  end_addr p = start_addr p + extent (l1 ++ mkBlock s true :: l2) → sem_malloc p = 0 → (length l1 < n)%nat →
  let '(k, s1) := before_blocks l1 s in let a1 := start_addr p + extent k in let y := first_of (a + 8 + s) l2 0 in
  ∃ p1, free_before n a (marked p s a) = Ok (a1, y, p1) ∧ half_freed p1 k a1 s1 l2 ∧ a1 + s1 = a + s ∧
    start_addr p1 = start_addr p ∧ end_addr p1 = end_addr p ∧
    (if ends_free l1 then words p1 !! (a1 + 8) = Some y else a1 = a ∧ words p1 !! (a + 8) = words p !! (a + 8)) ∧
    (∀ x, owned (start_addr p) l1 x ↔ owned (start_addr p) k x) ∧
    (∀ x, owned (start_addr p) l1 x ∨ owned (a + 8 + s) l2 x → words p1 !! x = words p !! x).
Proof.
  intros Hp Hff He Hsem Hn. pose proof (pl_addr _ _ _ _ _ Hp) as Ea. destruct (last_free_split l1) as [Hu|(k & f & u & El & Hu)].
  - assert (before_blocks l1 s = (l1, s) ∧ ends_free l1 = false) as [-> ->].
    { unfold before_blocks, ends_free. destruct (last l1) as [[f b]|] eqn:El; [|done]. pose proof (all_used_last_block _ _ Hu El) as Hb. cbn in Hb. by subst b. }
    destruct (before_none p l1 s l2 a Hp Hff He Hsem n Hu Hn) as (p1 & E & Hh & Hs & He1 & Hnx & Hk). rewrite <- Ea. by exists p1.
  - destruct u as [|b u] using rev_ind.
    + assert (before_blocks l1 s = (k, f + s + 8)) as -> by (unfold before_blocks; by rewrite El, last_snoc, removelast_last).
      destruct (before_near p l1 s l2 a Hp Hff He Hsem k [] f El Hu n Hn eq_refl) as (p1 & E & Hh & Hs & He1 & Hy & Hk).
      exists p1. split; [done|]. split; [done|]. split; [rewrite Ea, El, extent_app; cbn [extent]; unfold full; cbn [bsize]; lia|].
      split; [done|]. split; [done|]. split; [unfold ends_free; by rewrite El, last_snoc|]. split; [|done]. intros x. rewrite El, owned_app. cbn. naive_solver.
    + clear IHu. assert (bused b = true) as Hb by (apply (all_used_last_block (u ++ [b])); [done|by rewrite last_snoc]).
      assert (last l1 = Some b) as Ell by (rewrite El, app_comm_cons, app_assoc; apply last_snoc).
      assert (before_blocks l1 s = (l1, s) ∧ ends_free l1 = false) as [-> ->].
      { unfold before_blocks, ends_free. rewrite Ell. destruct b as [sb ub]. cbn in Hb. by subst ub. }
      destruct (before_far p l1 s l2 a Hp Hff He Hsem k (u ++ [b]) f El Hu n Hn) as (p1 & E & Hh & Hs & He1 & Hnx & Hk).
      { by destruct u. }
      rewrite <- Ea. by exists p1.
Qed.

Lemma clear_tag w m s u : m mod 4 = 0 → w !! m = Some (tag (mkBlock s u)) → 0 ≤ s < two31 → set_block_free w m = Ok (<[m := s]> w).
Proof. intros Hm Hv Hs. unfold set_block_free. rewrite (ld_ok w m _ Hm Hv). cbn [mbind outcome_bind]. rewrite tag_size by done. apply st_ok; [done|by eexists]. Qed.

(** [mem_free] up to the blocks behind. *)
Lemma mem_free_starts l1 s l2 p n : heap_wf (l1 ++ mkBlock s true :: l2) p → (length l1 < n)%nat →
  let a := start_addr p + extent l1 in let '(k, s1) := before_blocks l1 s in let a1 := start_addr p + extent k in
  let y := first_of (a1 + 8 + s1) l2 0 in
  ∃ p1, mem_free n (a + 4) p = (p2 ← free_behind a1 (a1 + 4 + s1) y p1; Ok (SemPost p2)) ∧
    half_freed p1 k a1 s1 l2 ∧ a1 + s1 = a + s ∧ start_addr p1 = start_addr p ∧ end_addr p1 = end_addr p ∧
    (if ends_free l1 then words p1 !! (a1 + 8) = Some y else a1 = a ∧ words p1 !! (a + 8) = words p !! (a + 8)) ∧
    (∀ x, owned (start_addr p) l1 x ↔ owned (start_addr p) k x) ∧
    (∀ x, owned (start_addr p) l1 x ∨ owned (a1 + 8 + s1) l2 x → words p1 !! x = words p !! x).
Proof.
  intros Hw Hn a. destruct (SemWait_ok _ p Hw) as [Ew _]. unfold mem_free. rewrite Ew. cbn [mbind outcome_bind].
  pose proof Hw as [_ _ [He _] _ Hff _ _]. pose proof (placed_locked _ _ _ _ _ (heap_placed p l1 _ l2 Hw)) as Hp. fold a in Hp.
  pose proof Hp as [_ (_ & [Hb Hbm] & _) _ (Ha & _ & Ham & _ & Hx2 & Hend) _ _ [T1 T2] _ _]. cbn [bsize] in *. unfold full in *. cbn [bsize] in *.
  pose proof two31_lt. change (start_addr (locked p)) with (start_addr p) in *. change (words (locked p)) with (words p) in *.
  unfold HEADER_FOOTER_SIZE. rewrite u32_id by (unfold is_u32; lia). replace (a + 4 - 4) with a by lia.
  rewrite (footer_ok _ a (mkBlock s true) Ham T1) by (unfold full; cbn [bsize]; lia).
  cbn [mbind outcome_bind bsize]. rewrite (clear_tag _ a s true Ham T1) by lia. cbn [mbind outcome_bind].
  rewrite (clear_tag _ (a + 4 + s) s true) by (zcases || lia || (rewrite lookup_insert_ne by lia; done)). cbn [mbind outcome_bind].
  change (with_words (locked p) _) with (marked (locked p) s a).
  pose proof (before_ok (locked p) l1 s l2 a n Hp Hff He eq_refl Hn) as Hbef.
  destruct (before_blocks l1 s) as [k s1]. destruct Hbef as (p1 & -> & Hh & Eas & Hs1 & He1 & Hy & Hok & Hk). cbn [mbind outcome_bind].
  change (start_addr (locked p)) with (start_addr p) in *. change (end_addr (locked p)) with (end_addr p) in *.
  change (words (locked p)) with (words p) in *. set (a1 := start_addr p + extent k) in *.
  replace (a + 4 + s) with (a1 + 4 + s1) by lia. replace (a + 8 + s) with (a1 + 8 + s1) in * by lia.
  by exists p1.
Qed.

(** The next free block is adjacent only where it is the first one behind. *)
Lemma near_free a l2 : Forall block_ok l2 → all_used l2 = false → first_of a l2 0 = a → ∃ g l, l2 = mkBlock g false :: l.
Proof.
  intros Hok Eu Enear. destruct l2 as [|[g []] l]; [done| |by exists g, l]. exfalso. apply Forall_cons in Hok as [[Hg _] Hl].
  cbn in Eu, Enear, Hg. unfold full in Enear. cbn in Enear. destruct (some_free_first (a + (g + 8)) l 0 Hl Eu). lia.
Qed.

(** C28: [mem_free] gives a block back.  On a well-formed heap, for a block [mem_alloc]
    returned, where the code sets every link (see [links_set]), the block becomes
    free and joined with the free blocks it touches, the heap is well formed again,
    and no byte of the program's other blocks changes. *)
Theorem mem_free_gives_back l1 s l2 p n : heap_wf (l1 ++ mkBlock s true :: l2) p → (length l1 < n)%nat → links_set l1 l2 = true →
  let a := start_addr p + extent l1 in
  ∃ p', mem_free n (a + 4) p = Ok p' ∧ heap_wf (free_blocks l1 s l2) p' ∧ start_addr p' = start_addr p ∧ end_addr p' = end_addr p ∧
    (∀ x, owned (start_addr p) l1 x ∨ owned (a + 8 + s) l2 x → words p' !! x = words p !! x).
Proof.
  intros Hw Hn Hset a. pose proof (mem_free_starts l1 s l2 p n Hw Hn) as Hst. fold a in Hst. unfold free_blocks.
  destruct (before_blocks l1 s) as [k s1]. set (a1 := start_addr p + extent k) in *. cbv zeta in Hst.
  destruct Hst as (p1 & -> & Hh & Eas & Hs1 & He1 & Hy & Hok & Hk). replace (a + 8 + s) with (a1 + 8 + s1) in * by lia.
  destruct (all_used l2) eqn:Eu.
  - assert (match l2 with mkBlock g false :: l => k ++ mkBlock (s1 + g + 8) false :: l | _ => k ++ mkBlock s1 false :: l2 end = k ++ mkBlock s1 false :: l2) as ->
      by (destruct l2 as [|[g []] l]; done).
    assert (ends_free l1 = true) as Hef by (destruct l2 as [|[g []] l]; cbn in Eu, Hset; rewrite ?Eu in Hset; done).
    rewrite Hef in Hy. rewrite all_used_first in Hy |- * by done. cbn [free_behind Z.eqb negb mbind outcome_bind].
    exists (SemPost p1). split; [done|]. split; [by apply (behind_none p1 k a1 s1 l2)|]. split; [exact Hs1|]. split; [exact He1|exact Hk].
  - destruct (decide (first_of (a1 + 8 + s1) l2 0 = a1 + 8 + s1)) as [Enear|Efar].
    + destruct (near_free _ _ (proj2 (proj2 (hf_ok _ _ _ _ _ Hh))) Eu Enear) as (g & l & ->). cbn in Hset. rewrite Enear. destruct (behind_near p1 k a1 s1 g l Hh Hset) as (p2 & -> & Hw2 & Hs2 & He2 & Hk2). cbn [mbind outcome_bind].
      exists (SemPost p2). split; [done|]. split; [done|]. split; [cbn; congruence|]. split; [cbn; congruence|].
      intros x Hx. rewrite <- Hk by (by apply Hx). apply Hk2. rewrite Hs1. destruct Hx as [Hx|Hx]; [left; by apply Hok|right].
      cbn [owned bused] in Hx. destruct Hx as [[? _]|Hx]; [done|]. unfold full in Hx. cbn [bsize] in Hx.
      by replace (a1 + 16 + s1 + g) with (a1 + 8 + s1 + (g + 8)) by lia.
    + destruct (behind_far p1 k a1 s1 l2 Hh Eu Efar) as (p2 & -> & Hw2 & Hs2 & He2 & Hk2). cbn [mbind outcome_bind].
      exists (SemPost p2). split; [done|]. split.
      { destruct l2 as [|[g []] l]; [done|done|]. by destruct Efar. }
      split; [cbn; congruence|]. split; [cbn; congruence|].
      intros x Hx. rewrite <- Hk by (by apply Hx). apply Hk2. rewrite Hs1. destruct Hx as [Hx|Hx]; [left; by apply Hok|by right].
Qed.

(** ** Freeing where a link is not set *)
Lemma chain_prev_link a l p n w : all_used l = false → chain a l p n w → w !! (first_of a l n + 4) = Some p.
Proof.
  revert a. induction l as [|b l IH]; intros a; [done|]. cbn. destruct (bused b); cbn; [|naive_solver].
  intros Hu (_ & _ & Hc). by apply IH.
Qed.
(** A free block of a well-formed heap. *)
Lemma heap_free_links l1 s l2 p : heap_wf (l1 ++ mkBlock s false :: l2) p → let a := start_addr p + extent l1 in
  words p !! (a + 8) = Some (first_of (a + 8 + s) l2 0) ∧ chain (a + 8 + s) l2 a 0 (words p).
Proof.
  intros [_ _ _ Hc _ _ _]. apply chain_blocks_app in Hc as [_ (_ & _ & _ & H1 & H2)]. unfold full in *. cbn [bsize] in *.
  by replace (start_addr p + extent l1 + (s + 8)) with (start_addr p + extent l1 + 8 + s) in * by lia.
Qed.

(** C38: Freeing where [mem_free] forgets a link, in any well-formed heap.  When a
    free block follows that is not the last one, the two become one, but the next
    free block further on keeps its link to the header that is gone, and the
    heap is not the one of the remaining blocks.  When no free block follows and the block
    before is used, the freed block's link to the next one is the word the
    program left there: the heap is well formed exactly if that word happens to
    be NULL. *)
Theorem mem_free_loses_links l1 s l2 p n : heap_wf (l1 ++ mkBlock s true :: l2) p → (length l1 < n)%nat → links_set l1 l2 = false →
  let a := start_addr p + extent l1 in
  ∃ p', mem_free n (a + 4) p = Ok p' ∧
    if all_used l2 then words p' !! (a + 8) = words p !! (a + 8) ∧ (heap_wf (free_blocks l1 s l2) p' ↔ words p !! (a + 8) = Some 0)
    else ∃ g l, l2 = mkBlock g false :: l ∧ words p' !! (first_of (a + 16 + s + g) l 0 + 4) = Some (a + 8 + s) ∧
      ¬ heap_wf (free_blocks l1 s l2) p'.
Proof.
  intros Hw Hn Hset a. pose proof (mem_free_starts l1 s l2 p n Hw Hn) as Hst. fold a in Hst. unfold free_blocks.
  destruct (before_blocks l1 s) as [k s1] eqn:Ebb. set (a1 := start_addr p + extent k) in *. cbv zeta in Hst.
  destruct Hst as (p1 & -> & Hh & Eas & Hs1 & He1 & Hy & _ & _). destruct (all_used l2) eqn:Eu.
  - assert (ends_free l1 = false) as Hef by (destruct l2 as [|[g []] l]; cbn in Eu, Hset; rewrite ?Eu in Hset; done).
    rewrite Hef in Hy. destruct Hy as [Ea Hword]. rewrite all_used_first by done. cbn [free_behind Z.eqb negb mbind outcome_bind].
    exists (SemPost p1). split; [done|]. split; [done|].
    assert (match l2 with mkBlock g false :: l => k ++ mkBlock (s1 + g + 8) false :: l | _ => k ++ mkBlock s1 false :: l2 end = k ++ mkBlock s1 false :: l2) as ->
      by (destruct l2 as [|[g []] l]; done).
    rewrite <- Hword. split.
    + intros H%heap_free_links. cbn [start_addr words SemPost] in H. rewrite Hs1 in H. fold a1 in H. rewrite <- Ea. rewrite (proj1 H). by rewrite all_used_first.
    + intros H0. apply (behind_none p1 k a1 s1 l2 Hh Eu). by rewrite Ea.
  - assert (∃ g l, l2 = mkBlock g false :: l ∧ all_used l = false) as (g & l & -> & Hl).
    { destruct l2 as [|[g []] l]; [done| |by exists g, l]. cbn in Eu, Hset. by rewrite Eu in Hset. }
    cbn [first_of bused]. rewrite (behind_joins p1 k a1 s1 g l Hh). cbn [mbind outcome_bind]. eexists. split; [done|].
    exists g, l. split; [done|].
    pose proof Hh as [(_ & [Hb _] & [[Hg _] Hlo]%Forall_cons) _ _ _ _ _ _ [q (_ & _ & _ & _ & Hc)] _ _ _]. cbn [bsize] in *. unfold full in Hc. cbn [bsize] in Hc.
    replace (a1 + 8 + s1 + (g + 8)) with (a1 + 16 + s1 + g) in Hc by lia. replace (a + 16 + s + g) with (a1 + 16 + s1 + g) by lia.
    destruct (some_free_first (a1 + 16 + s1 + g) l 0 Hlo Hl) as (F1 & _ & _). pose proof (chain_prev_link _ _ _ _ _ Hl Hc) as Hpl.
    set (f := first_of (a1 + 16 + s1 + g) l 0) in *.
    assert (words (SemPost (with_words p1 (<[a1 + 8:=f]> (<[a1 + 12 + s1 + g:=s1 + g + 8]> (<[a1:=s1 + g + 8]> (words p1)))))) !! (f + 4) = Some (a1 + 8 + s1)) as Hlink.
    { cbn [words SemPost with_words]. by rewrite !lookup_insert_ne by lia. }
    replace (a + 8 + s) with (a1 + 8 + s1) by lia. split; [exact Hlink|].
    intros [_ Hc2]%heap_free_links. cbn [start_addr SemPost with_words] in Hc2. rewrite Hs1 in Hc2. fold a1 in Hc2.
    replace (a1 + 8 + (s1 + g + 8)) with (a1 + 16 + s1 + g) in Hc2 by lia. apply chain_prev_link in Hc2; [|done]. fold f in Hc2.
    rewrite Hlink in Hc2. injection Hc2. lia.
Qed.

(** ** The first heap, and histories *)
Lemma n_pages_enough size : 0 ≤ size < two31 - 256 → 0 < n_pages size ∧ size + 8 ≤ PageSize * n_pages size < size + 8 + 128.
Proof.
  intros Hs. unfold n_pages. change (2 * HEADER_FOOTER_SIZE) with 8. change PageSize with 128.
  rewrite u32_id by (unfold is_u32, two31, two32 in *; lia).
  assert (∀ r, r = (size + 8) mod 128 → (0 <? r) = negb (r =? 0)) as Hr.
  { intros r ->. pose proof (Z.mod_pos_bound (size + 8) 128 ltac:(lia)). destruct (Z.eqb_spec ((size + 8) mod 128) 0) as [->|]; [done|]. apply Z.ltb_lt. lia. }
  rewrite (Hr _ eq_refl). destruct (Z.eqb_spec ((size + 8) mod 128) 0) as [E|E]; cbn [negb];
    rewrite i32_id by (unfold is_i32, two31 in *; zcases); zcases.
Qed.

(** [mem_init] makes the pages [Sbrk] returned one free block, which takes a
    request of all the bytes asked for. *)
Lemma mem_init_ok size start w : 0 ≤ size < two31 - 256 → 0 < start → start mod 4 = 0 → start + PageSize * n_pages size < two31 →
  mapped w start (PageSize * n_pages size) →
  ∃ p, mem_init size start w = Ok p ∧ heap_wf [mkBlock (PageSize * n_pages size - 8) false] p ∧ start_addr p = start ∧
    size ≤ PageSize * n_pages size - 8.
Proof.
  intros Hsz Hs Hsm Hlim Hm. destruct (n_pages_enough size Hsz) as [Hn Hp]. unfold mem_init. set (n := n_pages size) in *. pose proof two31_lt.
  rewrite (proj2 (Z.eqb_neq start 0)), (proj2 (Z.eqb_neq n 0)) by lia. cbn [orb]. change (2 * HEADER_FOOTER_SIZE) with 8.
  change PageSize with 128 in *. rewrite (u32_id (128 * n)), (u32_id (128 * n - 8)), (u32_id (start + 128 * n)) by (unfold is_u32; lia).
  assert (8 ≤ 128 * n - 8) as H8 by lia.
  rewrite tag_free_ok by (done || lia || (apply Hm; [lia|done])). cbn [mbind outcome_bind]. rewrite tag_free_word.
  unfold prev_of, next_of. rewrite !u32_id by (unfold is_u32; lia).
  rewrite st_ok by (zcases || (apply (insert_some w); [done|apply Hm; [lia|zcases]])). cbn [mbind outcome_bind].
  rewrite st_ok by (zcases || (refine (insert_some _ _ _ _ (insert_some _ _ _ _ (λ _ Hy, Hy)) _ (Hm _ _ _)); [lia|zcases])). cbn [mbind outcome_bind].
  rewrite (footer_ok _ start (mkBlock (128 * n - 8) false)); [|done|rewrite !lookup_insert_ne, lookup_insert_eq, tag_free_word by lia; done|cbn; lia|lia|unfold full; cbn; lia].
  cbn [mbind outcome_bind bsize].
  rewrite tag_free_ok; [|zcases| |lia].
  2: { refine (insert_some _ _ _ _ (insert_some _ _ _ _ (insert_some _ _ _ _ (λ _ Hy, Hy))) _ (Hm _ _ _)); [lia|zcases]. }
  cbn [mbind outcome_bind]. rewrite tag_free_word. eexists. split; [done|]. split; [|by split; [|lia]].
  constructor; cbn [words start_addr end_addr first_free sem_malloc]; try done.
  - apply Forall_singleton. split; cbn; [lia|zcases].
  - cbn [extent]. unfold full. cbn [bsize]. split; lia.
  - cbn [chain bused bsize first_of]. rewrite tag_free_word, lookup_insert_eq.
    rewrite !(lookup_insert_ne _ _ start), lookup_insert_eq by lia.
    rewrite (lookup_insert_ne _ (start + 4 + (128 * n - 8)) (start + 4)), (lookup_insert_ne _ (start + 8) (start + 4)), lookup_insert_eq by lia.
    rewrite (lookup_insert_ne _ _ (start + 8)), lookup_insert_eq by lia. done.
  - cbn [extent]. unfold full. cbn [bsize]. intros x Hx Hxm.
    refine (insert_some _ _ _ _ (insert_some _ _ _ _ (insert_some _ _ _ _ (insert_some _ _ _ _ (λ _ Hy, Hy)))) x (Hm x _ Hxm)). lia.
Qed.

(** Zeroed pages of a program, as [Sbrk] gives them. *)
Definition zero_words (start n : Z) : gmap Z Z := list_to_map ((λ k, (start + 4 * k, 0)) <$> seqZ 0 (n / 4)).
Lemma zero_mapped start n : start mod 4 = 0 → n mod 4 = 0 → mapped (zero_words start n) start n.
Proof.
  intros Hs Hn x Hx Hm. unfold zero_words. exists 0. apply elem_of_list_to_map.
  - rewrite <- list_fmap_compose. apply NoDup_fmap_2; [intros k j Hkj; cbn in Hkj; lia|apply NoDup_seqZ].
  - apply list_elem_of_fmap. exists ((x - start) / 4). split; [f_equal; zcases|]. apply elem_of_seqZ. zcases.
Qed.

(** Three blocks, the second and then the first given back, and two requests. *)
Definition twice : outcome (Z * Z) :=
  p0 ← mem_init 248 1024 (zero_words 1024 256);
  '(a, p1) ← mem_alloc 9 8 p0;
  '(b, p2) ← mem_alloc 9 8 p1;
  '(_, p3) ← mem_alloc 9 8 p2;
  p4 ← mem_free 9 b p3;
  p5 ← mem_free 9 a p4;
  '(x, p6) ← mem_alloc 9 32 p5;
  '(y, _) ← mem_alloc 9 32 p6;
  Ok (x, y).
(** All the heap as one block, in which the program writes [v], given back. *)
Definition lost (v : Z) : outcome Z :=
  p0 ← mem_init 120 1024 (zero_words 1024 128);
  '(a, p1) ← mem_alloc 9 120 p0;
  w ← st (words p1) (a + 4) v;
  p2 ← mem_free 9 a (with_words p1 w);
  '(x, _) ← mem_alloc 9 128 p2;
  Ok x.

(** The two histories: two requests get the same address, and a request that
    should get NULL follows a number the program wrote. *)
Lemma lost_links_hurt : (∃ x, twice = Ok (x, x) ∧ x ≠ 0) ∧ lost 0 = Ok 0 ∧ lost 7 = Fault.
Proof. split; [exists 1076; split; [by vm_compute|done]|]. split; by vm_compute. Qed.

(** ** Witnesses *)
Lemma mem_alloc_first_fit_witness : ∃ p p', mem_init 248 1024 (zero_words 1024 256) = Ok p ∧ mem_alloc 2 8 p = Ok (1028, p').
Proof.
  destruct (mem_init_ok 248 1024 (zero_words 1024 256)) as (p & E & Hw & Hs & _); [by vm_compute|done|done|by vm_compute| |].
  { exact (zero_mapped 1024 256 eq_refl eq_refl). }
  destruct (mem_alloc_first_fit [mkBlock 248 false] p 8 2 Hw) as (p' & Ea & _); [by vm_compute|done|simpl; lia|].
  exists p, p'. split; [exact E|]. rewrite Hs in Ea. exact Ea.
Defined.

(** A used block of eight bytes and a free one. *)
Definition two_blocks : mem_pool :=
  mkPool (<[1024 := two31 + 8]> (<[1036 := two31 + 8]> (<[1040 := 8]> (<[1052 := 8]> (zero_words 1024 32))))) 1024 1056 1040 1.
Lemma two_blocks_wf : heap_wf [mkBlock 8 true; mkBlock 8 false] two_blocks.
Proof.
  constructor.
  - repeat (apply Forall_cons; split; [by vm_compute|]). done.
  - done.
  - by vm_compute.
  - by vm_compute.
  - by vm_compute.
  - intros x Hx Hm. cbn [words two_blocks]. refine (insert_some _ _ _ _ (insert_some _ _ _ _ (insert_some _ _ _ _ (insert_some _ _ _ _ (λ _ Hy, Hy)))) x _).
    apply (zero_mapped 1024 32 eq_refl eq_refl); [exact Hx|exact Hm].
  - done.
Qed.
Lemma mem_free_gives_back_witness : ∃ p', mem_free 1 1028 two_blocks = Ok p' ∧ heap_wf [mkBlock 24 false] p'.
Proof.
  destruct (mem_free_gives_back [] 8 [mkBlock 8 false] two_blocks 1 two_blocks_wf) as (p' & E & Hw & _); [simpl; lia|done|].
  exists p'. split; [exact E|exact Hw].
Defined.

(** A used block in which the program wrote 7 where the next link of a free
    block is. *)
Definition one_block : mem_pool :=
  mkPool (<[1024 := two31 + 8]> (<[1032 := 7]> (<[1036 := two31 + 8]> (zero_words 1024 16)))) 1024 1040 0 1.
Lemma one_block_wf : heap_wf [mkBlock 8 true] one_block.
Proof.
  constructor.
  - apply Forall_singleton. by vm_compute.
  - done.
  - by vm_compute.
  - by vm_compute.
  - by vm_compute.
  - intros x Hx Hm. cbn [words one_block]. refine (insert_some _ _ _ _ (insert_some _ _ _ _ (insert_some _ _ _ _ (λ _ Hy, Hy))) x _).
    apply (zero_mapped 1024 16 eq_refl eq_refl); [exact Hx|exact Hm].
  - done.
Qed.
Lemma mem_free_loses_links_witness : ∃ p', mem_free 1 1028 one_block = Ok p' ∧ words p' !! 1032 = Some 7 ∧ ¬ heap_wf [mkBlock 8 false] p'.
Proof.
  destruct (mem_free_loses_links [] 8 [] one_block 1 one_block_wf) as (p' & E & H & Hi); [simpl; lia|done|].
  exists p'. split; [exact E|]. split; [exact H|]. intros Hw. apply Hi in Hw. discriminate Hw.
Defined.
