(* ===== verification/Execute.v ===== *)
(** * bin/execute.c: the stand-alone MIPS interpreter

    The tools of bin/ hold a second interpreter of the MIPS instruction set,
    [runprogram], written apart from machine/mipssim.cc and with another decoder
    (bin/instr.h, bin/encode.h).  Its memory is one array of [MEMSIZE] bytes at
    address [memoffset]; an access outside of it is undefined.  An instruction
    ends by going on, by a system call or a break (bin/system.c, not modelled)
    or by [exit].  Main property: on every instruction that computes, branches or
    jumps the two interpreters do the same to the registers and the program
    counters, apart from the cases listed in [comparable]. *)
From S2P Require Import Prelude Memory Mips Cpu.

(** ** bin/instr.h, bin/encode.h: the fields of an instruction, an [int] *)
Definition i_rd (i : Z) : Z := Z.land (Z.shiftr i 11) 31.
Definition i_rt (i : Z) : Z := Z.land (Z.shiftr i 16) 31.
Definition i_rs (i : Z) : Z := Z.land (Z.shiftr i 21) 31.
Definition shamt (i : Z) : Z := Z.land (Z.shiftr i 6) 31.
Definition immed (i : Z) : Z := if negb (Z.land i 32768 =? 0) then Z.lor i (-32768) else Z.land i 32767.
Definition i_op (i : Z) : Z := Z.land (Z.shiftr i 26) 63.
Definition i_funct (i : Z) : Z := Z.land i 63.

Definition I_SPECIAL : Z := 0.
Definition I_BCOND : Z := 1.
Definition I_J : Z := 2.
Definition I_JAL : Z := 3.
Definition I_BEQ : Z := 4.
Definition I_BNE : Z := 5.
Definition I_BLEZ : Z := 6.
Definition I_BGTZ : Z := 7.
Definition I_ADDI : Z := 8.
Definition I_ADDIU : Z := 9.
Definition I_SLTI : Z := 10.
Definition I_SLTIU : Z := 11.
Definition I_ANDI : Z := 12.
Definition I_ORI : Z := 13.
Definition I_XORI : Z := 14.
Definition I_LUI : Z := 15.
Definition I_COP0 : Z := 16.
Definition I_COP1 : Z := 17.
Definition I_COP2 : Z := 18.
Definition I_COP3 : Z := 19.
Definition I_LB : Z := 32.
Definition I_LH : Z := 33.
Definition I_LWL : Z := 34.
Definition I_LW : Z := 35.
Definition I_LBU : Z := 36.
Definition I_LHU : Z := 37.
Definition I_LWR : Z := 38.
Definition I_SB : Z := 40.
Definition I_SH : Z := 41.
Definition I_SWL : Z := 42.
Definition I_SW : Z := 43.
Definition I_SWR : Z := 46.
Definition I_LWC0 : Z := 48.
Definition I_LWC1 : Z := 49.
Definition I_LWC2 : Z := 50.
Definition I_LWC3 : Z := 51.
Definition I_SWC0 : Z := 56.
Definition I_SWC1 : Z := 57.
Definition I_SWC2 : Z := 58.
Definition I_SWC3 : Z := 59.
Definition I_SLL : Z := 0.
Definition I_SRL : Z := 2.
Definition I_SRA : Z := 3.
Definition I_SLLV : Z := 4.
Definition I_SRLV : Z := 6.
Definition I_SRAV : Z := 7.
Definition I_JR : Z := 8.
Definition I_JALR : Z := 9.
Definition I_SYSCALL : Z := 12.
Definition I_BREAK : Z := 13.
Definition I_MFHI : Z := 16.
Definition I_MTHI : Z := 17.
Definition I_MFLO : Z := 18.
Definition I_MTLO : Z := 19.
Definition I_MULT : Z := 24.
Definition I_MULTU : Z := 25.
Definition I_DIV : Z := 26.
Definition I_DIVU : Z := 27.
Definition I_ADD : Z := 32.
Definition I_ADDU : Z := 33.
Definition I_SUB : Z := 34.
Definition I_SUBU : Z := 35.
Definition I_AND : Z := 36.
Definition I_OR : Z := 37.
Definition I_XOR : Z := 38.
Definition I_NOR : Z := 39.
Definition I_SLT : Z := 42.
Definition I_SLTU : Z := 43.
Definition I_BLTZ : Z := 0.
Definition I_BGEZ : Z := 1.
Definition I_BLTZAL : Z := 16.
Definition I_BGEZAL : Z := 17.
Definition I_NOP : Z := 0.

(** ** bin/int.h: memory *)
Definition MEMSIZE : Z := 16777216.
Definition memoffset : Z := 268435456.

Definition in_mem (a n : Z) : bool := (memoffset <=? a) && (a + n <=? memoffset + MEMSIZE).
Definition mem_at (mem : gmap Z Z) (a : Z) : Z := default 0 (mem !! a).
Definition ucfetch (mem : gmap Z Z) (a : Z) : outcome Z := if in_mem a 1 then Ok (mem_at mem a) else Fault.
Definition cfetch (mem : gmap Z Z) (a : Z) : outcome Z := v ← ucfetch mem a; Ok (i8 v).
Definition usfetch (mem : gmap Z Z) (a : Z) : outcome Z :=
  if in_mem a 2 then Ok (mem_at mem a + 256 * mem_at mem (a + 1)) else Fault.
Definition sfetch (mem : gmap Z Z) (a : Z) : outcome Z := v ← usfetch mem a; Ok ((v + 32768) mod 65536 - 32768).
Definition fetch (mem : gmap Z Z) (a : Z) : outcome Z :=
  if in_mem a 4 then
    Ok (i32 (mem_at mem a + 256 * mem_at mem (a + 1) + 65536 * mem_at mem (a + 2) + 16777216 * mem_at mem (a + 3)))
  else Fault.
Definition cstore (mem : gmap Z Z) (a v : Z) : outcome (gmap Z Z) := if in_mem a 1 then Ok (<[a := u8 v]> mem) else Fault.
Definition sstore (mem : gmap Z Z) (a v : Z) : outcome (gmap Z Z) :=
  if in_mem a 2 then Ok (<[a + 1 := u8 (v / 256)]> (<[a := u8 v]> mem)) else Fault.
Definition store (mem : gmap Z Z) (a v : Z) : outcome (gmap Z Z) :=
  if in_mem a 4 then
    Ok (<[a + 3 := u8 (v / 16777216)]> (<[a + 2 := u8 (v / 65536)]> (<[a + 1 := u8 (v / 256)]> (<[a := u8 v]> mem))))
  else Fault.

(** ** [runprogram] *)
Record Sim := mkSim { Reg : list Z; HI : Z; LO : Z; pc : Z; npc : Z; smem : gmap Z Z }.
Definition sreg (s : Sim) (r : Z) : Z := nth (Z.to_nat r) (Reg s) 0.
Definition set_reg (s : Sim) (r v : Z) : Sim := mkSim (<[Z.to_nat r := v]> (Reg s)) (HI s) (LO s) (pc s) (npc s) (smem s).
Definition set_HI (s : Sim) (v : Z) : Sim := mkSim (Reg s) v (LO s) (pc s) (npc s) (smem s).
Definition set_LO (s : Sim) (v : Z) : Sim := mkSim (Reg s) (HI s) v (pc s) (npc s) (smem s).
Definition set_npc (s : Sim) (v : Z) : Sim := mkSim (Reg s) (HI s) (LO s) (pc s) v (smem s).
Definition set_smem (s : Sim) (mm : gmap Z Z) : Sim := mkSim (Reg s) (HI s) (LO s) (pc s) (npc s) mm.

(** How an instruction ends; [Stops] is [exit(2)]. *)
Inductive stepped := Next (s : Sim) | Traps (is_break : bool) (s : Sim) | Stops.

(** [x << n] and [x >> n] where the count comes from a register. *)
Definition counted (n : Z) (v : Z) : outcome Z := if (0 <=? n) && (n <? 32) then Ok v else Fault.
Definition set_counted (s : Sim) (r n v : Z) : outcome stepped := x ← counted n v; Ok (Next (set_reg s r x)).

(** The products of [I_MULT] and [I_MULTU]. *)
Definition high_word (t1 t2 : Z) : Z :=
  let t1l := Z.land t1 65535 in let t1h := Z.land (Z.shiftr t1 16) 65535 in
  let t2l := Z.land t2 65535 in let t2h := Z.land (Z.shiftr t2 16) 65535 in
  i32 (i32 (i32 (t1h * t2h) + Z.shiftr (i32 (t1h * t2l)) 16) + Z.shiftr (i32 (t2h * t1l)) 16).
Definition sim_mult (s : Sim) (a b : Z) : Sim :=
  let '(t1, neg1) := if a <? 0 then (i32 (- a), true) else (a, false) in
  let '(t2, neg) := if b <? 0 then (i32 (- b), negb neg1) else (b, neg1) in
  let lo := i32 (t1 * t2) in
  let hi := high_word t1 t2 in
  if (neg : bool) then
    let lo' := i32 (Z.lnot lo + 1) in
    set_HI (set_LO s lo') (if lo' =? 0 then i32 (Z.lnot hi + 1) else Z.lnot hi)
  else set_HI (set_LO s lo) hi.
Definition sim_div (s : Sim) (a b : Z) : outcome stepped :=
  if (b =? 0) || ((a =? - two31) && (b =? -1)) then Fault
  else Ok (Next (set_HI (set_LO s (Z.quot a b)) (Z.rem a b))).
Definition sim_divu (s : Sim) (a b : Z) : outcome stepped :=
  if u32 b =? 0 then Fault else Ok (Next (set_HI (set_LO s (i32 (u32 a / u32 b))) (i32 (u32 a mod u32 b)))).

Definition of_bool (b : bool) : Z := if b then 1 else 0.

(** [case I_SPECIAL]. *)
Definition special (i xpc : Z) (s : Sim) : outcome stepped :=
  let f := i_funct i in
  let vs := sreg s (i_rs i) in
  let vt := sreg s (i_rt i) in
  let put v := Ok (Next (set_reg s (i_rd i) v)) in
  if f =? I_SLL then put (i32 (Z.shiftl vt (shamt i)))
  else if f =? I_SRL then put (i32 (Z.shiftr (u32 vt) (shamt i)))
  else if f =? I_SRA then put (Z.shiftr vt (shamt i))
  else if f =? I_SLLV then set_counted s (i_rd i) vs (i32 (Z.shiftl vt vs))
  else if f =? I_SRLV then set_counted s (i_rd i) vs (i32 (Z.shiftr (u32 vt) vs))
  else if f =? I_SRAV then set_counted s (i_rd i) vs (Z.shiftr vt vs)
  else if f =? I_JR then Ok (Next (set_npc s vs))
  else if f =? I_JALR then Ok (Next (set_reg (set_npc s vs) (i_rd i) (i32 (xpc + 8))))
  else if f =? I_SYSCALL then Ok (Traps false s)
  else if f =? I_BREAK then Ok (Traps true s)
  else if f =? I_MFHI then put (HI s)
  else if f =? I_MTHI then Ok (Next (set_HI s vs))
  else if f =? I_MFLO then put (LO s)
  else if f =? I_MTLO then Ok (Next (set_LO s vs))
  else if f =? I_MULT then Ok (Next (sim_mult s vs vt))
  else if f =? I_MULTU then Ok (Next (set_HI (set_LO s (i32 (vs * vt))) (high_word vs vt)))
  else if f =? I_DIV then sim_div s vs vt
  else if f =? I_DIVU then sim_divu s vs vt
  else if (f =? I_ADD) || (f =? I_ADDU) then put (i32 (vs + vt))
  else if (f =? I_SUB) || (f =? I_SUBU) then put (i32 (vs - vt))
  else if f =? I_AND then put (Z.land vs vt)
  else if f =? I_OR then put (Z.lor vs vt)
  else if f =? I_XOR then put (Z.lxor vs vt)
  else if f =? I_NOR then put (Z.lnot (Z.lor vs vt))
  else if f =? I_SLT then put (of_bool (vs <? vt))
  else if f =? I_SLTU then put (of_bool (u32 vs <? u32 vt))
  else Ok Stops.

(** The target of a taken branch, and the branch. *)
Definition target (i xpc : Z) : Z := i32 (xpc + 4 + i32 (Z.shiftl (immed i) 2)).
Definition branch_if (c : bool) (i xpc : Z) (s : Sim) : stepped := Next (if c then set_npc s (target i xpc) else s).
Definition jump_target (i xpc : Z) : Z := Z.lor (Z.land xpc (-268435456)) (i32 (Z.shiftl (Z.land i 67108863) 2)).

(** [case I_BCOND]. *)
Definition bcond (i xpc : Z) (s : Sim) : outcome stepped :=
  let c := i_rt i in
  let linked := set_reg s 31 (i32 (xpc + 8)) in
  if c =? I_BLTZ then Ok (branch_if (sreg s (i_rs i) <? 0) i xpc s)
  else if c =? I_BGEZ then Ok (branch_if (0 <=? sreg s (i_rs i)) i xpc s)
  else if c =? I_BLTZAL then Ok (branch_if (sreg linked (i_rs i) <? 0) i xpc linked)
  else if c =? I_BGEZAL then Ok (branch_if (0 <=? sreg linked (i_rs i)) i xpc linked)
  else Ok Stops.

(** The loads and stores. *)
Definition loaded (s : Sim) (r : Z) (v : outcome Z) : outcome stepped := x ← v; Ok (Next (set_reg s r x)).
Definition stored (s : Sim) (m : outcome (gmap Z Z)) : outcome stepped := x ← m; Ok (Next (set_smem s x)).
Definition memory (i : Z) (s : Sim) : option (outcome stepped) :=
  let op := i_op i in
  let a := i32 (sreg s (i_rs i) + immed i) in
  let vt := sreg s (i_rt i) in
  let word := Z.land a (-4) in
  if op =? I_LB then Some (loaded s (i_rt i) (cfetch (smem s) a))
  else if op =? I_LH then Some (loaded s (i_rt i) (sfetch (smem s) a))
  else if op =? I_LWL then
    Some (v ← fetch (smem s) word;
          Ok (Next (set_reg s (i_rt i) (Z.lor (Z.land vt (-1)) (i32 (Z.shiftl v (8 * Z.land a 3)))))))
  else if op =? I_LW then Some (loaded s (i_rt i) (fetch (smem s) a))
  else if op =? I_LBU then Some (loaded s (i_rt i) (ucfetch (smem s) a))
  else if op =? I_LHU then Some (loaded s (i_rt i) (usfetch (smem s) a))
  else if op =? I_LWR then
    Some (v ← fetch (smem s) word;
          let r := if Z.land a 3 =? 0 then 0 else Z.land vt (i32 (Z.shiftl (-1) (8 * Z.land a 3))) in
          Ok (Next (set_reg s (i_rt i) (Z.lor r (Z.shiftr v (8 * Z.land (- a) 3))))))
  else if op =? I_SB then Some (stored s (cstore (smem s) a vt))
  else if op =? I_SH then Some (stored s (sstore (smem s) a vt))
  else if op =? I_SW then Some (stored s (store (smem s) a vt))
  else None.

(** The switch. *)
Definition switch (i xpc : Z) (s : Sim) : outcome stepped :=
  let op := i_op i in
  let vs := sreg s (i_rs i) in
  let vt := sreg s (i_rt i) in
  let put v := Ok (Next (set_reg s (i_rt i) v)) in
  if op =? I_SPECIAL then special i xpc s
  else if op =? I_BCOND then bcond i xpc s
  else if op =? I_J then Ok (Next (set_npc s (jump_target i xpc)))
  else if op =? I_JAL then Ok (Next (set_npc (set_reg s 31 (i32 (xpc + 8))) (jump_target i xpc)))
  else if op =? I_BEQ then Ok (branch_if (vs =? vt) i xpc s)
  else if op =? I_BNE then Ok (branch_if (negb (vs =? vt)) i xpc s)
  else if op =? I_BLEZ then Ok (branch_if (vs <=? 0) i xpc s)
  else if op =? I_BGTZ then Ok (branch_if (0 <? vs) i xpc s)
  else if op =? I_ADDI then put (i32 (vs + immed i))
  else if op =? I_ADDIU then put (i32 (vs + immed i))
  else if op =? I_SLTI then put (of_bool (vs <? immed i))
  else if op =? I_SLTIU then put (of_bool (u32 vs <? u32 (immed i)))
  else if op =? I_ANDI then put (Z.land vs (immed i))
  else if op =? I_ORI then put (Z.lor vs (immed i))
  else if op =? I_XORI then put (Z.lxor vs (immed i))
  else if op =? I_LUI then put (i32 (Z.shiftl i 16))
  else default (Ok Stops) (memory i s).

(** One turn of the loop, from the fetch on; a word of zeros does nothing. *)
Definition execute (i : Z) (s : Sim) : outcome stepped :=
  let xpc := pc s in
  let s1 := mkSim (<[0%nat := 0]> (Reg s)) (HI s) (LO s) (npc s) (i32 (npc s + 4)) (smem s) in
  if negb (i =? 0) then switch i xpc s1 else Ok (Next s1).
Definition turn (s : Sim) : outcome stepped := i ← fetch (smem s) (pc s); execute i s.

(** The loop, for [n] turns or until a system call or the end. *)
Fixpoint turns (n : nat) (s : Sim) : outcome stepped :=
  match n with
  | O => Ok (Next s)
  | S n' => r ← turn s; match r with Next s' => turns n' s' | _ => Ok r end
  end.

(** What [runprogram] puts on the stack: [argc], the addresses of the arguments
    and their characters. *)
Fixpoint store_string (l : list Z) (a : Z) (mem : gmap Z Z) : outcome (gmap Z Z) :=
  match l with
  | [] => cstore mem a 0
  | c :: l' => m ← cstore mem a c; store_string l' (a + 1) m
  end.
Fixpoint store_args (argv : list (list Z)) (aci ai : Z) (mem : gmap Z Z) : outcome (gmap Z Z) :=
  match argv with
  | [] => Ok mem
  | a :: argv' =>
      m ← store_string a ai mem; m' ← store m aci ai;
      store_args argv' (aci + 4) (ai + Z.of_nat (length a) + 1) m'
  end.
Definition runprogram (n : nat) (startpc : Z) (argv : list (list Z)) (s : Sim) : outcome stepped :=
  let sp := MEMSIZE - 1024 + memoffset in
  let s1 := set_reg s 29 sp in
  m ← store (smem s1) sp (Z.of_nat (length argv));
  m' ← store_args argv (sp + 4) (sp + 4 + 32) m;
  turns n (mkSim (Reg s1) (HI s1) (LO s1) startpc (startpc + 4) m').

(** ** The two decoders read the same fields *)
Section fields.
Lemma field_u32 w n k : 0 ≤ n → 0 ≤ k → n + k ≤ 32 → Z.land (Z.shiftr (u32 w) n) (Z.ones k) = Z.land (Z.shiftr w n) (Z.ones k).
Proof.
  intros Hn Hk Hnk. apply Z.bits_inj'. intros i Hi. rewrite !Z.land_spec, !Z.shiftr_spec by done.
  destruct (decide (i < k)) as [Hlt|Hge].
  - unfold u32. change two32 with (2 ^ 32). by rewrite Z.mod_pow2_bits_low by lia.
  - rewrite Z.ones_spec_high by lia. by rewrite !andb_false_r.
Qed.
Lemma low_u32 w k : 0 ≤ k ≤ 32 → Z.land (u32 w) (Z.ones k) = Z.land w (Z.ones k).
Proof. intros Hk. pose proof (field_u32 w 0 k) as H. rewrite !Z.shiftr_0_r in H. apply H; lia. Qed.

Lemma i_op_u32 w : Z.land (Z.shiftr (u32 w) 26) 63 = i_op w.
Proof. by apply (field_u32 w 26 6). Qed.
Lemma i_rs_u32 w : Z.land (Z.shiftr (u32 w) 21) 31 = i_rs w.
Proof. by apply (field_u32 w 21 5). Qed.
Lemma i_rt_u32 w : Z.land (Z.shiftr (u32 w) 16) 31 = i_rt w.
Proof. by apply (field_u32 w 16 5). Qed.
Lemma i_rd_u32 w : Z.land (Z.shiftr (u32 w) 11) 31 = i_rd w.
Proof. by apply (field_u32 w 11 5). Qed.
Lemma i_funct_u32 w : Z.land (u32 w) 63 = i_funct w.
Proof. by apply (low_u32 w 6). Qed.

Lemma field_range w n k : 0 ≤ k → 0 ≤ Z.land (Z.shiftr w n) (Z.ones k) < 2 ^ k.
Proof. intros Hk. rewrite Z.land_ones by done. apply Z.mod_pos_bound. lia. Qed.
Lemma i_op_range w : 0 ≤ i_op w < 64.
Proof. by apply (field_range w 26 6). Qed.
Lemma i_funct_range w : 0 ≤ i_funct w < 64.
Proof. unfold i_funct. change 63 with (Z.ones 6). rewrite Z.land_ones by done. by apply Z.mod_pos_bound. Qed.
Lemma i_rs_range w : 0 ≤ i_rs w < 32.
Proof. by apply (field_range w 21 5). Qed.
Lemma i_rt_range w : 0 ≤ i_rt w < 32.
Proof. by apply (field_range w 16 5). Qed.
Lemma i_rd_range w : 0 ≤ i_rd w < 32.
Proof. by apply (field_range w 11 5). Qed.
Lemma shamt_range w : 0 ≤ shamt w < 32.
Proof. by apply (field_range w 6 5). Qed.

Lemma bcond_field w : Z.land (u32 w) 2031616 = i_rt w * 65536.
Proof.
  rewrite <- i_rt_u32. rewrite <- (Z.shiftl_mul_pow2 _ 16) by done. apply Z.bits_inj'. intros i Hi.
  destruct (decide (i < 16)) as [Hlt|Hge].
  - rewrite Z.shiftl_spec_low by lia. rewrite Z.land_spec. change 2031616 with (Z.shiftl 31 16).
    rewrite (Z.shiftl_spec_low 31) by lia. by rewrite andb_false_r.
  - rewrite Z.shiftl_spec, !Z.land_spec, Z.shiftr_spec by lia. change 2031616 with (Z.shiftl 31 16).
    rewrite Z.shiftl_spec by lia. by replace (i - 16 + 16) with i by lia.
Qed.

(** The immediate field as a number. *)
Definition imm (w : Z) : Z := let e := w mod 65536 in if e <? 32768 then e else e - 65536.
Lemma bit15 e : (Z.land e 32768 =? 0) = (e mod 65536 <? 32768).
Proof.
  change 32768 with (2 ^ 15). destruct (Z.ltb_spec (e mod 65536) (2 ^ 15)) as [Hlt|Hge].
  - apply Z.eqb_eq, Z.bits_inj'. intros i Hi. rewrite Z.land_spec, Z.bits_0, Z.pow2_bits_eqb by done.
    destruct (Z.eqb_spec 15 i) as [<-|]; [|by rewrite andb_false_r]. rewrite andb_true_r.
    rewrite <- (Z.mod_pow2_bits_low e 16 15) by lia. apply (Z.bits_above_log2); change (2 ^ 16) with 65536; [zcases|].
    destruct (decide (e mod 65536 = 0)) as [->|]; [done|]. apply Z.log2_lt_pow2; zcases.
  - apply Z.eqb_neq. intros E. assert (Z.testbit (Z.land e (2 ^ 15)) 15 = false) as Hf by (by rewrite E).
    rewrite Z.land_spec, Z.pow2_bits_true, andb_true_r in Hf by done.
    rewrite <- (Z.mod_pow2_bits_low e 16 15) in Hf by lia. change (2 ^ 16) with 65536 in Hf.
    pose proof (Z.testbit_spec' (e mod 65536) 15 ltac:(done)) as Hb. rewrite Hf in Hb. cbn [Z.b2z] in Hb.
    change (2 ^ 15) with 32768 in *. zcases.
Qed.
Lemma lor_negative a k : 0 ≤ k → Z.lor a (- 2 ^ k) = a mod 2 ^ k - 2 ^ k.
Proof.
  intros Hk. assert (- 2 ^ k = Z.lnot (Z.ones k)) as Ek by (unfold Z.lnot; rewrite Z.ones_equiv; lia).
  rewrite Ek. transitivity (Z.lor (Z.land a (Z.ones k)) (Z.lnot (Z.ones k))).
  - apply Z.bits_inj'. intros i Hi. rewrite !Z.lor_spec, Z.land_spec, Z.lnot_spec by done.
    destruct (Z.testbit a i), (Z.testbit (Z.ones k) i); done.
  - assert (Z.land (Z.land a (Z.ones k)) (Z.lnot (Z.ones k)) = 0) as Hz.
    { apply Z.bits_inj'. intros i Hi. rewrite !Z.land_spec, Z.lnot_spec, Z.bits_0 by done. by destruct (Z.testbit a i), (Z.testbit (Z.ones k) i). }
    rewrite <- Z.lxor_lor, <- Z.add_nocarry_lxor by done. rewrite Z.land_ones by done. rewrite <- Ek. lia.
Qed.

Lemma immed_imm w : immed w = imm w.
Proof.
  unfold immed, imm. rewrite bit15. destruct (Z.ltb_spec (w mod 65536) 32768); cbn [negb].
  - change 32767 with (Z.ones 15). rewrite Z.land_ones by done. change (2 ^ 15) with 32768. zcases.
  - change (-32768) with (- 2 ^ 15). rewrite lor_negative by done. change (2 ^ 15) with 32768. zcases.
Qed.
Lemma extra_imm w : decode_extra IFMT (u32 w) = imm w.
Proof.
  unfold decode_extra, imm. change 65535 with (Z.ones 16). rewrite (low_u32 w 16) by done. rewrite Z.land_ones by done. change (2 ^ 16) with 65536.
  rewrite bit15. rewrite Z.mod_mod by done. destruct (Z.ltb_spec (w mod 65536) 32768); cbn [negb]; [done|].
  change 4294901760 with (Z.shiftl (Z.ones 16) 16).
  assert (Z.land (w mod 65536) (Z.shiftl (Z.ones 16) 16) = 0) as Hz.
  { apply Z.bits_inj'. intros i Hi. rewrite Z.land_spec, Z.bits_0. change 65536 with (2 ^ 16). destruct (decide (i < 16)).
    - rewrite Z.shiftl_spec_low by lia. by rewrite andb_false_r.
    - by rewrite Z.mod_pow2_bits_high by lia. }
  rewrite <- Z.lxor_lor, <- Z.add_nocarry_lxor by done. change (Z.shiftl (Z.ones 16) 16) with 4294901760. unfold i32, two31, two32. zcases.
Qed.
Lemma imm_range w : -32768 ≤ imm w < 32768.
Proof. unfold imm. destruct (Z.ltb_spec (w mod 65536) 32768); zcases. Qed.

Lemma decode_word w : Decode (u32 w) =
  ('(op, fmt) ← arr_get opTable (i_op w); op' ← decode_op op (u32 w);
   Ok (mkInstr (u32 w) op' (i_rs w) (i_rt w) (i_rd w) (decode_extra fmt (u32 w)))).
Proof. unfold Decode. by rewrite i_op_u32, i_rs_u32, i_rt_u32, i_rd_u32. Qed.
Lemma extra_shamt w : decode_extra RFMT (u32 w) = shamt w.
Proof. by apply (field_u32 w 6 5). Qed.
Lemma extra_jump w : decode_extra JFMT (u32 w) = Z.land w 67108863.
Proof. by apply (low_u32 w 26). Qed.
End fields.

(** ** The same state of the two interpreters *)

(** Between two instructions, with no load pending. *)
Record agree (s : Sim) (m : Machine) : Prop := mkAgree {
  ag_length : length (Reg s) = 32%nat ∧ length (registers m) = 40%nat;
  ag_i32 : Forall is_i32 (registers m);
  ag_reg r : 0 < r < 32 → sreg s r = reg m r;
  ag_zero : reg m 0 = 0 ∧ reg m LoadReg = 0;
  ag_mult : HI s = reg m HiReg ∧ LO s = reg m LoReg;
  ag_pc : pc s = reg m PCReg ∧ npc s = reg m NextPCReg
}.
(** Inside an instruction: [runprogram] has cleared register 0 and moved the
    program counter on. *)
Record working (s : Sim) (m : Machine) : Prop := mkWorking {
  wk_length : length (Reg s) = 32%nat ∧ length (registers m) = 40%nat;
  wk_i32 : Forall is_i32 (registers m);
  wk_reg r : 0 ≤ r < 32 → sreg s r = reg m r;
  wk_load : reg m LoadReg = 0;
  wk_mult : HI s = reg m HiReg ∧ LO s = reg m LoReg;
  wk_pc : pc s = reg m NextPCReg
}.

Lemma reg_is_i32 m r : Forall is_i32 (registers m) → is_i32 (reg m r).
Proof.
  intros H. unfold reg. rewrite nth_lookup. destruct (registers m !! Z.to_nat r) as [x|] eqn:E; [|by vm_compute].
  by apply (Forall_lookup_1 _ _ _ _ H E).
Qed.
Lemma sreg_set_eq s r v : 0 ≤ r < 32 → length (Reg s) = 32%nat → sreg (set_reg s r v) r = v.
Proof. intros. unfold sreg, set_reg. apply nth_lookup_Some, list_lookup_insert_eq. lia. Qed.
Lemma sreg_set_ne s r r' v : 0 ≤ r → 0 ≤ r' → r ≠ r' → sreg (set_reg s r v) r' = sreg s r'.
Proof. intros. unfold sreg, set_reg. cbn [Reg]. rewrite !nth_lookup, list_lookup_insert_ne by lia. done. Qed.
Lemma setreg_i32 m r v : Forall is_i32 (registers m) → is_i32 v → Forall is_i32 (registers (setreg m r v)).
Proof. intros. by apply Forall_insert. Qed.

Lemma working_put s m r v : working s m → 0 ≤ r < 32 → is_i32 v → working (set_reg s r v) (setreg m r v).
Proof.
  intros [[L1 L2] Hi Hr Hl [Hh Ho] Hp] Hrr Hv.
  assert (∀ q, 32 ≤ q < 40 → reg (setreg m r v) q = reg m q) as Hk by (intros; apply reg_setreg_ne; lia).
  constructor; cbn [HI LO pc set_reg].
  - cbn. rewrite !length_insert. done.
  - by apply setreg_i32.
  - intros q Hq. destruct (decide (r = q)) as [->|Hne].
    + rewrite sreg_set_eq, reg_setreg_eq by (done || lia). done.
    + rewrite sreg_set_ne, reg_setreg_ne by lia. by apply Hr.
  - by rewrite Hk.
  - by rewrite !Hk.
  - by rewrite Hk.
Qed.
Lemma working_special s m r v : working s m → r = HiReg ∨ r = LoReg → is_i32 v →
  working (if r =? HiReg then set_HI s v else set_LO s v) (setreg m r v).
Proof.
  intros [[L1 L2] Hi Hr Hl [Hh Ho] Hp] Hrr Hv.
  assert (∀ q, 0 ≤ q → q ≠ r → reg (setreg m r v) q = reg m q) as Hk by (intros; destruct Hrr as [-> | ->]; apply reg_setreg_ne; unfold HiReg, LoReg in *; lia).
  assert (reg (setreg m r v) r = v) as He by (apply reg_setreg_eq; [|done]; unfold HiReg, LoReg in *; lia).
  constructor.
  - split; [by destruct (r =? HiReg)|cbn; by rewrite length_insert].
  - by apply setreg_i32.
  - intros q Hq. rewrite Hk by (unfold HiReg, LoReg in *; lia). rewrite <- Hr by done. by destruct (r =? HiReg).
  - rewrite Hk; [done|done|]. unfold LoadReg, HiReg, LoReg in *. lia.
  - destruct Hrr as [-> | ->]; cbn [Z.eqb HiReg LoReg Pos.eqb]; rewrite He, Hk by done; done.
  - rewrite Hk; [by destruct (r =? HiReg)|done|]. unfold NextPCReg, HiReg, LoReg in *. lia.
Qed.
Lemma working_HI s m v : working s m → is_i32 v → working (set_HI s v) (setreg m HiReg v).
Proof. intros Hw Hv. exact (working_special s m HiReg v Hw (or_introl eq_refl) Hv). Qed.
Lemma working_LO s m v : working s m → is_i32 v → working (set_LO s v) (setreg m LoReg v).
Proof. intros Hw Hv. exact (working_special s m LoReg v Hw (or_intror eq_refl) Hv). Qed.
Lemma working_npc s m v : working s m → working (set_npc s v) m.
Proof. intros []. by constructor. Qed.

(** The end of an instruction. *)
Lemma advance_agrees s m : working s m → is_i32 (npc s) →
  ∃ m', advance m (npc s) 0 0 = Ok m' ∧ agree s m' ∧ mainMemory m' = mainMemory m.
Proof.
  intros [[L1 L2] Hi Hr Hl [Hh Ho] Hp] Hn. unfold advance.
  assert (DelayedLoad m 0 0 = Ok (setreg (setreg (setreg (setreg m 0 (reg m LoadValueReg)) LoadReg 0) LoadValueReg 0) 0 0)) as ->.
  { unfold DelayedLoad. rewrite !arr_get_reg by (done || unfold LoadReg, LoadValueReg; lia). rewrite Hl. cbn [mbind outcome_bind].
    rewrite (arr_set_reg m) by (done || lia). cbn [mbind outcome_bind].
    rewrite (arr_set_reg (setreg m 0 _)) by (done || (cbn; rewrite !length_insert; done)). cbn [mbind outcome_bind].
    rewrite (arr_set_reg (setreg (setreg m 0 _) _ _)) by (done || (cbn; rewrite !length_insert; done)). cbn [mbind outcome_bind].
    rewrite (arr_set_reg (setreg (setreg (setreg m 0 _) _ _) _ _)) by (done || (cbn; rewrite !length_insert; done)). done. }
  cbn [mbind outcome_bind]. set (m1 := setreg (setreg (setreg (setreg m _ _) _ _) _ _) _ _).
  assert (length (registers m1) = 40%nat) as L3 by (cbn; by rewrite !length_insert).
  assert (∀ q, 0 < q < 40 → q ≠ LoadReg → q ≠ LoadValueReg → reg m1 q = reg m q) as Hk.
  { intros q Hq H1 H2. subst m1. rewrite !reg_setreg_ne by (unfold LoadReg, LoadValueReg in *; lia). done. }
  eexists. split; [reflexivity|]. split; [|done].
  set (m2 := setreg m1 PrevPCReg _). set (m3 := setreg m2 PCReg _).
  assert (length (registers m2) = 40%nat ∧ length (registers m3) = 40%nat) as [L4 L5] by (cbn; by rewrite !length_insert).
  assert (is_i32 0) as H0 by by vm_compute.
  assert (Forall is_i32 (registers m1)) as I1 by (repeat apply setreg_i32; try done; by apply reg_is_i32).
  assert (Forall is_i32 (registers m2)) as I2 by (apply setreg_i32; [done|by apply reg_is_i32]).
  assert (Forall is_i32 (registers m3)) as I3 by (apply setreg_i32; [done|by apply reg_is_i32]).
  constructor.
  - split; [done|]. cbn. by rewrite !length_insert.
  - by apply setreg_i32.
  - intros r Hrr. subst m3 m2. rewrite !reg_setreg_ne by (unfold NextPCReg, PCReg, PrevPCReg; lia).
    rewrite Hk by (unfold LoadReg, LoadValueReg; lia). apply Hr. lia.
  - subst m3 m2. rewrite !reg_setreg_ne by (unfold NextPCReg, PCReg, PrevPCReg, LoadReg; lia). subst m1. split.
    + apply reg_setreg_eq; [lia|]. cbn. by rewrite !length_insert.
    + rewrite 2!reg_setreg_ne by (unfold LoadValueReg, LoadReg; lia). apply reg_setreg_eq; [done|]. cbn. by rewrite length_insert.
  - subst m3 m2. rewrite !reg_setreg_ne by (unfold NextPCReg, PCReg, PrevPCReg, HiReg, LoReg; lia).
    rewrite !Hk by (unfold HiReg, LoReg, LoadReg, LoadValueReg; lia). done.
  - subst m3. rewrite (reg_setreg_ne _ NextPCReg PCReg) by done. rewrite !reg_setreg_eq by (done || cbn; rewrite ?length_insert; done).
    split; [|done]. subst m2. rewrite reg_setreg_ne by done. rewrite Hk by done. done.
Qed.

(** ** One instruction *)

(** Where the two interpreters do the same: no overflow that mipssim.cc traps,
    counts below 32, no negative immediate for the bitwise operations (which
    [runprogram] does not cut to 16 bits), factors of 16 bits (its upper word
    loses carries), divisors other than 0 (C leaves it undefined), branches not
    in the delay slot of another and jumps inside a region.  Loads, stores and
    traps are not compared: the memories differ. *)
Definition comparable (m : Machine) (i : Instruction) : Prop :=
  let vs := reg m (rs i) in
  let vt := reg m (rt i) in
  let straight := reg m NextPCReg = i32 (reg m PCReg + 4) in
  match opCode i with
  | OP_ADD => is_i32 (vs + vt)
  | OP_ADDI => is_i32 (vs + extra i)
  | OP_SUB => is_i32 (vs - vt)
  | OP_SLLV | OP_SRLV | OP_SRAV => 0 ≤ vs < 32
  | OP_ANDI | OP_ORI | OP_XORI => 0 ≤ extra i
  | OP_MULT | OP_MULTU => 0 ≤ vs < 65536 ∧ 0 ≤ vt < 65536
  | OP_DIV => vt ≠ 0 ∧ ¬ (vs = - two31 ∧ vt = -1)
  | OP_DIVU => vt ≠ 0
  | OP_BEQ | OP_BGEZ | OP_BGEZAL | OP_BGTZ | OP_BLEZ | OP_BLTZ | OP_BLTZAL | OP_BNE => straight
  | OP_J | OP_JAL => straight ∧ Z.land (reg m PCReg) (-268435456) = Z.land (i32 (reg m NextPCReg + 4)) (-268435456)
  | OP_JALR => straight ∧ rs i ≠ rd i
  | OP_ADDIU | OP_ADDU | OP_AND | OP_JR | OP_LUI | OP_MFHI | OP_MFLO | OP_MTHI | OP_MTLO | OP_NOR | OP_OR | OP_SLL
  | OP_SLT | OP_SLTI | OP_SLTIU | OP_SLTU | OP_SRA | OP_SRL | OP_SUBU | OP_XOR => True
  | _ => False
  end.

(** The two cases of the switches end alike, with the next program counter of
    both in [npc]. *)
Definition same_end (s : Sim) (m : Machine) (a : outcome stepped) (b : outcome exec_result) : Prop :=
  ∃ s' m', a = Ok (Next s') ∧ b = Ok (Fallout m' (npc s') 0 0) ∧ working s' m' ∧ is_i32 (npc s') ∧
    smem s' = smem s ∧ mainMemory m' = mainMemory m.

Section cases.
Variables (s : Sim) (m : Machine).
Hypothesis works : working s m.
Hypothesis next : npc s = i32 (reg m NextPCReg + 4).

Lemma npc_i32 : is_i32 (npc s).
Proof using next. rewrite next. apply i32_range. Qed.
Lemma m_i32 r : is_i32 (reg m r).
Proof using works. apply reg_is_i32, works. Qed.

Lemma end_put r v v' : 0 ≤ r < 32 → is_i32 v → v = v' →
  same_end s m (Ok (Next (set_reg s r v))) (write m (npc s) r v').
Proof using works next.
  intros Hr Hv <-. exists (set_reg s r v), (setreg m r v). split; [done|]. split; [done|].
  split; [by apply working_put|]. split; [exact npc_i32|done].
Qed.
Lemma end_mult hi hi' lo lo' : is_i32 hi → is_i32 lo → hi = hi' → lo = lo' →
  same_end s m (Ok (Next (set_HI (set_LO s lo) hi))) (Ok (Fallout (setreg (setreg m HiReg hi') LoReg lo') (npc s) 0 0)).
Proof using works next.
  intros Hh Hl <- <-. exists (set_HI (set_LO s lo) hi), (setreg (setreg m HiReg hi) LoReg lo). split; [done|]. split; [done|].
  split; [exact (working_LO _ _ lo (working_HI _ _ hi works Hh) Hl)|]. split; [exact npc_i32|done].
Qed.

(** Sums modulo 2^32. *)
Lemma i32_congr a b : (∃ k, a = b + k * two32) → i32 a = i32 b.
Proof. intros [k ->]. unfold i32. rewrite <- (Z.mod_add (b + two31) k two32) by done. f_equal. f_equal. lia. Qed.
Lemma target_same w : reg m NextPCReg = i32 (reg m PCReg + 4) →
  target w (reg m PCReg) = i32 (reg m NextPCReg + IndexToAddr (decode_extra IFMT (u32 w))).
Proof.
  intros ->. unfold target, IndexToAddr. rewrite immed_imm, extra_imm. apply i32_congr.
  destruct (i32_eqm (reg m PCReg + 4)) as [k ->]. exists (- k). lia.
Qed.
Lemma link_same : reg m NextPCReg = i32 (reg m PCReg + 4) → i32 (reg m PCReg + 8) = i32 (reg m NextPCReg + 4).
Proof. intros ->. apply i32_congr. destruct (i32_eqm (reg m PCReg + 4)) as [k ->]. exists (- k). lia. Qed.
End cases.

Lemma end_branch s m c c' w i : working s m → npc s = i32 (reg m NextPCReg + 4) → reg m NextPCReg = i32 (reg m PCReg + 4) →
  extra i = decode_extra IFMT (u32 w) → c = c' → same_end s m (Ok (branch_if c w (reg m PCReg) s)) (branch m (npc s) c' i).
Proof.
  intros Hw Hn Hst He <-. unfold branch_if, branch. rewrite (target_same m w Hst), He.
  exists (if c then set_npc s (i32 (reg m NextPCReg + IndexToAddr (decode_extra IFMT (u32 w)))) else s), m.
  split; [by destruct c|]. split; [by destruct c|]. split; [destruct c; [by apply working_npc|done]|].
  split; [destruct c; [apply i32_range|exact (npc_i32 s m Hn)]|]. by destruct c.
Qed.

(** ** Every opcode *)
Lemma by_cases (n : Z) (P : Z → Prop) : Forall P (seqZ 0 n) → ∀ k, 0 ≤ k < n → P k.
Proof. intros H k Hk. apply (proj1 (Forall_forall _ _) H). apply elem_of_seqZ. lia. Qed.

(** The comparisons of literals that the switches consist of. *)
Ltac literals :=
  repeat match goal with
  | |- context [Z.eqb (Zpos ?a) ?b] =>
      let v := eval vm_compute in (Z.eqb (Zpos a) b) in change (Z.eqb (Zpos a) b) with v
  | |- context [Z.eqb Z0 ?b] =>
      let v := eval vm_compute in (Z.eqb Z0 b) in change (Z.eqb Z0 b) with v
  end; cbn [orb]; cbv iota.
(** Decode one entry of a table. *)
Ltac entry tbl k H := let v := eval vm_compute in (arr_get tbl k) in change (arr_get tbl k) with v in H; cbn [mbind outcome_bind] in H.
Ltac sides := unfold exec, exec_add_jump, exec_load, exec_move_logic, exec_store_shift, exec_partial_store, exec_misc;
  cbn [opCode first_some default rs rt rd extra].

Lemma Ok_inj {A} (a b : A) : Ok a = Ok b → a = b.
Proof. congruence. Qed.
Lemma shiftr_is_i32 v n : is_i32 v → 0 ≤ n → is_i32 (Z.shiftr v n).
Proof. apply shiftr_i32. Qed.

(** The target of a jump: the region of the program counter and 28 bits. *)
Lemma land_above a k : 0 ≤ k → Z.land a (- 2 ^ k) = a - a mod 2 ^ k.
Proof.
  intros Hk. assert (- 2 ^ k = Z.lnot (Z.ones k)) as -> by (unfold Z.lnot; rewrite Z.ones_equiv; lia).
  rewrite <- Z.ldiff_land, Z.ldiff_ones_r, Z.shiftl_mul_pow2, Z.shiftr_div_pow2 by done.
  pose proof (Z.div_mod a (2 ^ k)). pose proof (Z.pow_pos_nonneg 2 k). lia.
Qed.
Lemma lor_disjoint a b : Z.land a b = 0 → Z.lor a b = a + b.
Proof. intros H. by rewrite <- Z.lxor_lor, <- Z.add_nocarry_lxor. Qed.
Lemma region_lor a b : 0 ≤ b < 268435456 → Z.lor (a - a mod 268435456) b = a - a mod 268435456 + b.
Proof.
  intros Hb. apply lor_disjoint. apply Z.bits_inj'. intros i Hi. rewrite Z.land_spec, Z.bits_0.
  change 268435456 with (2 ^ 28) in *. destruct (decide (i < 28)).
  - rewrite <- land_above, Z.land_spec by done. assert (- 2 ^ 28 = Z.lnot (Z.ones 28)) as -> by done.
    rewrite Z.lnot_spec, Z.ones_spec_low by lia. cbn [negb]. by rewrite andb_false_r.
  - rewrite <- (Z.mod_small b (2 ^ 28)) by lia. rewrite Z.mod_pow2_bits_high by lia. by rewrite andb_false_r.
Qed.
Lemma jump_same w xpc n : is_i32 n → Z.land xpc (-268435456) = Z.land n (-268435456) →
  jump_target w xpc = i32 (Z.lor (Z.land (u32 n) 4026531840) (IndexToAddr (Z.land w 67108863))).
Proof.
  intros Hn E. unfold jump_target, IndexToAddr. rewrite E. set (x := Z.land w 67108863).
  assert (0 ≤ x < 67108864) as Hx.
  { subst x. change 67108863 with (Z.ones 26). rewrite Z.land_ones by done. by apply Z.mod_pos_bound. }
  rewrite Z.shiftl_mul_pow2 by done. change (2 ^ 2) with 4. rewrite (i32_id (x * 4)) by (unfold is_i32, two31; lia).
  assert (Z.land (u32 n) 4026531840 = Z.land (u32 n) (- 2 ^ 28)) as ->.
  { change 4026531840 with (Z.land (Z.ones 32) (- 2 ^ 28)). rewrite Z.land_assoc, Z.land_ones by done. f_equal.
    apply Z.mod_small. apply u32_range. }
  change (-268435456) with (- 2 ^ 28). rewrite !land_above by done. change (2 ^ 28) with 268435456. rewrite !region_lor by lia.
  unfold is_i32, i32, u32, two31, two32 in *. zcases.
Qed.
Lemma low_imm w : 0 ≤ imm w → Z.land (imm w) 65535 = imm w.
Proof. intros H. change 65535 with (Z.ones 16). rewrite Z.land_ones by done. apply Z.mod_small. pose proof (imm_range w). change (2 ^ 16) with 65536. lia. Qed.
Lemma imm_i32 w : is_i32 (imm w).
Proof. pose proof (imm_range w). unfold is_i32, two31. lia. Qed.
Lemma bool_is_i32 (b : bool) : is_i32 (of_bool b).
Proof. by destruct b; vm_compute. Qed.
Lemma addi_check a b : is_i32 a → is_i32 b → is_i32 (a + b) →
  negb (sign_set (Z.lxor a b)) && sign_set (Z.lxor b (i32 (a + b))) = false.
Proof.
  intros Ha Hb Hab. rewrite Z.lxor_comm, Z.add_comm, add_check by done. rewrite Z.add_comm in Hab. by rewrite (proj2 (fits_i32_true _) Hab).
Qed.

Lemma high_word_small a b : 0 ≤ a < 65536 → 0 ≤ b < 65536 → high_word a b = 0.
Proof.
  intros Ha Hb. unfold high_word. rewrite !Z.shiftr_div_pow2 by done. change (2 ^ 16) with 65536. rewrite !(Z.div_small a), !(Z.div_small b) by done.
  reflexivity.
Qed.
Lemma Mult_small a b sg : 0 ≤ a < 65536 → 0 ≤ b < 65536 → Mult a b sg = (0, i32 (a * b)).
Proof.
  intros Ha Hb. assert (is_i32 a ∧ is_i32 b) as [Ia Ib] by (unfold is_i32, two31; lia).
  destruct (Mult_i32 a b sg) as [Hh Hl]. destruct (Mult a b sg) as [hi lo] eqn:E. cbn [fst snd] in Hh, Hl.
  assert (0 ≤ a * b < 4294967296) as Hab by nia.
  assert (u32 hi * two32 + u32 lo = a * b ∨ hi * two32 + u32 lo = a * b) as Hp.
  { destruct sg; [right; pose proof (Mult_signed a b Ia Ib) as X|left; pose proof (Mult_unsigned a b Ia Ib) as X]; rewrite E in X; cbn [fst snd] in X; [done|].
    by rewrite !(u32_id a), !(u32_id b) in X by (unfold is_u32, two32; lia). }
  unfold is_i32, i32, u32, two31, two32 in *. f_equal; zcases.
Qed.
Lemma end_div s m lo hi : working s m → npc s = i32 (reg m NextPCReg + 4) → is_i32 hi → is_i32 lo →
  same_end s m (Ok (Next (set_HI (set_LO s lo) hi))) (Ok (Fallout (setreg (setreg m LoReg lo) HiReg hi) (npc s) 0 0)).
Proof.
  intros Hw Hn Hh Hl. exists (set_HI (set_LO s lo) hi), (setreg (setreg m LoReg lo) HiReg hi). split; [done|]. split; [done|].
  split; [exact (working_HI _ _ hi (working_LO _ _ lo Hw Hl) Hh)|]. split; [exact (npc_i32 s m Hn)|done].
Qed.
Lemma counted_ok n v : 0 ≤ n < 32 → counted n v = Ok v.
Proof. intros H. unfold counted. by rewrite (proj2 (Z.leb_le 0 n)), (proj2 (Z.ltb_lt n 32)) by lia. Qed.
Lemma low_count n : 0 ≤ n < 32 → Z.land n 31 = n.
Proof. intros H. change 31 with (Z.ones 5). rewrite Z.land_ones by done. by apply Z.mod_small. Qed.

Section switch.
Variable h : ExceptionType → Machine → outcome Machine.
Variables (s : Sim) (m : Machine) (w : Z).
Hypothesis works : working s m.
Hypothesis next : npc s = i32 (reg m NextPCReg + 4).

Lemma immediate_case i : i_op w ≠ 0 → i_op w ≠ 1 → Decode (u32 w) = Ok i → comparable m i →
  same_end s m (switch w (reg m PCReg) s) (exec h m i (npc s)).
Proof using works next.
  intros H0 H1 Hd Hc. pose proof (i_op_range w) as Hr. pose proof (i_rs_range w) as Hrs. pose proof (i_rt_range w) as Hrt.
  rewrite decode_word in Hd. unfold switch, memory. set (k := i_op w) in *. clearbody k. revert H0 H1 Hd. pattern k.
  apply (by_cases 64); [|exact Hr]. clear k Hr. let l := eval vm_compute in (seqZ 0 64) in change (seqZ 0 64) with l.
  repeat (apply Forall_cons; split); [..|constructor]; intros H0 H1 Hd; try (exfalso; apply H0; reflexivity); try (exfalso; apply H1; reflexivity); clear H0 H1.
  all: literals; cbn [default].
  all: match type of Hd with context [arr_get opTable ?k] => entry opTable k Hd end.
  all: match type of Hd with context [decode_op ?o ?v] => assert (decode_op o v = Ok o) as Eo by (unfold decode_op; rewrite !decide_False by discriminate; reflexivity) end; rewrite Eo in Hd; clear Eo; cbn [mbind outcome_bind] in Hd.
  all: apply Ok_inj in Hd; subst i; unfold comparable in Hc; cbn [opCode rs rt rd extra] in Hc; try (match type of Hc with False => destruct Hc end).
  all: rewrite ?(wk_reg _ _ works) by done; sides.
  all: cbn [id]; rewrite ?immed_imm, ?extra_imm, ?extra_jump in *.
  - destruct Hc as [_ Hc]. rewrite <- next in Hc. rewrite <- (jump_same w (reg m PCReg) (npc s)) by (done || by apply (npc_i32 s m)).
    eexists _, m. split; [reflexivity|]. split; [reflexivity|]. split; [by apply working_npc|]. split; [|done].
    cbn [npc set_npc]. rewrite (jump_same w (reg m PCReg) (npc s)) by (done || by apply (npc_i32 s m)). apply i32_range.
  - destruct Hc as [Hst Hc]. rewrite <- next in Hc. rewrite <- (jump_same w (reg m PCReg) (npc s)) by (done || by apply (npc_i32 s m)).
    rewrite <- (link_same m Hst). eexists _, (setreg m R31 _). split; [reflexivity|]. split; [reflexivity|].
    split; [apply working_npc, working_put; [done|done|apply i32_range]|]. split; [|done].
    cbn [npc set_npc]. rewrite (jump_same w (reg m PCReg) (npc s)) by (done || by apply (npc_i32 s m)). apply i32_range.
  - by apply end_branch; try (cbn [extra]; rewrite extra_imm).
  - by apply end_branch; try (cbn [extra]; rewrite extra_imm).
  - by apply end_branch; try (cbn [extra]; rewrite extra_imm).
  - by apply end_branch; try (cbn [extra]; rewrite extra_imm).
  - rewrite addi_check by (done || apply imm_i32 || by apply (m_i32 s m)). apply end_put; try done. apply i32_range.
  - apply end_put; try done. apply i32_range.
  - apply end_put; try done. apply bool_is_i32.
  - apply end_put; try done. apply bool_is_i32.
  - rewrite low_imm by done. apply end_put; try done. apply land_i32; [by apply (m_i32 s m)|apply imm_i32].
  - rewrite low_imm by done. apply end_put; try done. apply lor_i32; [by apply (m_i32 s m)|apply imm_i32].
  - rewrite low_imm by done. apply end_put; try done. apply lxor_i32; [by apply (m_i32 s m)|apply imm_i32].
  - apply end_put; try done; [apply i32_range|]. apply i32_congr. rewrite !Z.shiftl_mul_pow2 by done. change (2 ^ 16) with 65536.
    unfold imm, two32. pose proof (Z.div_mod w 65536). exists (if w mod 65536 <? 32768 then w / 65536 else w / 65536 + 1).
    destruct (w mod 65536 <? 32768); lia.
Qed.

(** A branch that links first. *)
Lemma linked_branch (c : Sim → bool) (c' : Machine → bool) i :
  let s1 := set_reg s 31 (i32 (reg m PCReg + 8)) in let m1 := setreg m R31 (i32 (reg m NextPCReg + 4)) in
  reg m NextPCReg = i32 (reg m PCReg + 4) → extra i = decode_extra IFMT (u32 w) → (∀ m2, working s1 m2 → c s1 = c' m2) →
  same_end s m (Ok (branch_if (c s1) w (reg m PCReg) s1)) (branch m1 (npc s) (c' m1) i).
Proof using works next.
  intros s1 m1 Hst He Hcc.
  assert (working s1 m1) as Hw1.
  { unfold m1. rewrite <- (link_same m Hst). apply working_put; [done|done|apply i32_range]. }
  assert (reg m1 PCReg = reg m PCReg ∧ reg m1 NextPCReg = reg m NextPCReg) as [Ep En] by (split; by apply reg_setreg_ne).
  pose proof (end_branch s1 m1 (c s1) (c' m1) w i Hw1) as X. rewrite Ep, En in X. exact (X next Hst He (Hcc m1 Hw1)).
Qed.

Lemma bcond_case i : i_op w = 1 → Decode (u32 w) = Ok i → comparable m i →
  same_end s m (switch w (reg m PCReg) s) (exec h m i (npc s)).
Proof using works next.
  intros H1 Hd Hc. pose proof (i_rs_range w) as Hrs. pose proof (i_rt_range w) as Hrt.
  rewrite decode_word, H1 in Hd. entry opTable 1 Hd. unfold decode_op in Hd. rewrite decide_False in Hd by discriminate.
  rewrite decide_True in Hd by done. cbn [mbind outcome_bind] in Hd. rewrite bcond_field in Hd.
  assert (switch w (reg m PCReg) s = bcond w (reg m PCReg) s) as -> by (unfold switch; rewrite H1; reflexivity).
  apply Ok_inj in Hd. unfold bcond, I_BLTZ, I_BGEZ, I_BLTZAL, I_BGEZAL.
  assert (∀ k, (i_rt w * 65536 =? k * 65536) = (i_rt w =? k)) as Hk.
  { intros k. destruct (Z.eqb_spec (i_rt w) k) as [->|]; [apply Z.eqb_refl|]. apply Z.eqb_neq. lia. }
  pose proof (Hk 0) as K0. pose proof (Hk 1) as K1. pose proof (Hk 16) as K2. pose proof (Hk 17) as K3. cbn [Z.mul Pos.mul] in K0, K1, K2, K3.
  change (0 * 65536) with 0 in K0. change (1 * 65536) with 65536 in K1. change (16 * 65536) with 1048576 in K2. change (17 * 65536) with 1114112 in K3.
  rewrite K0, K1, K2, K3 in Hd.
  destruct (i_rt w =? 0); [|destruct (i_rt w =? 1); [|destruct (i_rt w =? 16); [|destruct (i_rt w =? 17)]]]; subst i;
    unfold comparable in Hc; cbn [opCode] in Hc; try (match type of Hc with False => destruct Hc end); sides; cbn [id].
  - apply end_branch; try done. rewrite sign_set_neg by (by apply (m_i32 s m)). by rewrite (wk_reg _ _ works).
  - apply end_branch; try done. rewrite sign_set_neg by (by apply (m_i32 s m)). rewrite (wk_reg _ _ works) by done. lia.
  - apply (linked_branch (λ s1, sreg s1 (i_rs w) <? 0) (λ m1, sign_set (reg m1 (i_rs w)))); [exact Hc|done|].
    intros m1 H. rewrite sign_set_neg by exact (reg_is_i32 m1 _ (wk_i32 _ _ H)). by rewrite (wk_reg _ _ H).
  - apply (linked_branch (λ s1, 0 <=? sreg s1 (i_rs w)) (λ m1, negb (sign_set (reg m1 (i_rs w))))); [exact Hc|done|].
    intros m1 H. rewrite sign_set_neg by exact (reg_is_i32 m1 _ (wk_i32 _ _ H)).
    rewrite (wk_reg _ _ H) by done. lia.
Qed.

Lemma special_case i : i_op w = 0 → Decode (u32 w) = Ok i → comparable m i →
  same_end s m (switch w (reg m PCReg) s) (exec h m i (npc s)).
Proof using works next.
  intros H0 Hd Hc. pose proof (i_rs_range w) as Hrs. pose proof (i_rt_range w) as Hrt. pose proof (i_rd_range w) as Hrd.
  pose proof (i_funct_range w) as Hr. pose proof (shamt_range w) as Hsh.
  rewrite decode_word, H0 in Hd. entry opTable 0 Hd. unfold decode_op in Hd. rewrite decide_True in Hd by done.
  rewrite i_funct_u32 in Hd.
  assert (switch w (reg m PCReg) s = special w (reg m PCReg) s) as -> by (unfold switch; rewrite H0; reflexivity).
  unfold special. set (k := i_funct w) in *. clearbody k. revert Hd. pattern k.
  apply (by_cases 64); [|exact Hr]. clear k Hr. let l := eval vm_compute in (seqZ 0 64) in change (seqZ 0 64) with l.
  repeat (apply Forall_cons; split); [..|constructor]; intros Hd.
  all: literals; match type of Hd with context [arr_get specialTable ?k] => entry specialTable k Hd end.
  all: apply Ok_inj in Hd; subst i; unfold comparable in Hc; cbn [opCode rs rt rd extra] in Hc; try (match type of Hc with False => destruct Hc end).
  all: rewrite ?(wk_reg _ _ works) by done; sides; cbn [id]; rewrite ?extra_shamt in *.
  - apply end_put; try done. apply i32_range.
  - apply end_put; try done. apply i32_range.
  - apply end_put; try done. apply shiftr_i32; [by apply (m_i32 s m)|lia].
  - rewrite low_count by done. unfold set_counted. rewrite counted_ok by done. apply end_put; try done. apply i32_range.
  - rewrite low_count by done. unfold set_counted. rewrite counted_ok by done. apply end_put; try done. apply i32_range.
  - rewrite low_count by done. unfold set_counted. rewrite counted_ok by done. apply end_put; try done. apply shiftr_i32; [by apply (m_i32 s m)|lia].
  - eexists _, m. split; [reflexivity|]. split; [reflexivity|]. split; [by apply working_npc|]. split; [by apply (m_i32 s m)|done].
  - destruct Hc as [Hst Hne]. rewrite <- (link_same m Hst). rewrite reg_setreg_ne by lia.
    eexists _, (setreg m (i_rd w) _). split; [reflexivity|]. split; [reflexivity|].
    split; [exact (working_npc _ _ _ (working_put s m (i_rd w) _ works Hrd (i32_range _)))|]. split; [by apply (m_i32 s m)|done].
  - rewrite (proj1 (wk_mult _ _ works)). apply end_put; try done. by apply (m_i32 s m).
  - exists (set_HI s (reg m (i_rs w))), (setreg m HiReg (reg m (i_rs w))). split; [done|]. split; [done|].
    split; [apply working_HI; [done|by apply (m_i32 s m)]|]. split; [by apply (npc_i32 s m)|done].
  - rewrite (proj2 (wk_mult _ _ works)). apply end_put; try done. by apply (m_i32 s m).
  - exists (set_LO s (reg m (i_rs w))), (setreg m LoReg (reg m (i_rs w))). split; [done|]. split; [done|].
    split; [apply working_LO; [done|by apply (m_i32 s m)]|]. split; [by apply (npc_i32 s m)|done].
  - destruct Hc as [Ha Hb]. rewrite Mult_small by done. unfold sim_mult. rewrite (proj2 (Z.ltb_ge _ _)) by lia. rewrite (proj2 (Z.ltb_ge _ _)) by lia.
    rewrite high_word_small by done. apply end_mult; try done. apply i32_range.
  - destruct Hc as [Ha Hb]. rewrite Mult_small, high_word_small by done. apply end_mult; try done. apply i32_range.
  - destruct Hc as [H1 H2]. unfold sim_div. rewrite !(reg_setreg_ne m LoReg) by (unfold LoReg; lia). rewrite (proj2 (Z.eqb_neq _ 0)) by done.
    assert ((reg m (i_rs w) =? - two31) && (reg m (i_rt w) =? -1) = false) as -> by (apply andb_false_iff; rewrite !Z.eqb_neq; lia).
    cbn [orb]. apply end_div; try done; apply quot_rem_i32; try done; try (by apply (m_i32 s m)); tauto.
  - unfold sim_divu. assert ((u32 (reg m (i_rt w)) =? 0) = false) as ->.
    { apply Z.eqb_neq. pose proof (m_i32 s m works (i_rt w)). unfold u32, is_i32, two31, two32 in *. zcases. }
    apply end_div; try done; apply i32_range.
  - rewrite add_check by (by apply (m_i32 s m)). rewrite (proj2 (fits_i32_true _) Hc). apply end_put; try done. apply i32_range.
  - apply end_put; try done. apply i32_range.
  - rewrite sub_check by (by apply (m_i32 s m)). rewrite (proj2 (fits_i32_true _) Hc). apply end_put; try done. apply i32_range.
  - apply end_put; try done. apply i32_range.
  - apply end_put; try done. apply land_i32; by apply (m_i32 s m).
  - apply end_put; try done. apply lor_i32; by apply (m_i32 s m).
  - apply end_put; try done. apply lxor_i32; by apply (m_i32 s m).
  - apply end_put; try done. apply lnot_i32, lor_i32; by apply (m_i32 s m).
  - apply end_put; try done. apply bool_is_i32.
  - apply end_put; try done. apply bool_is_i32.
Qed.
End switch.

(** ** Theorems *)
Lemma enter s m : agree s m →
  let s1 := mkSim (<[0%nat := 0]> (Reg s)) (HI s) (LO s) (npc s) (i32 (npc s + 4)) (smem s) in
  working s1 m ∧ npc s1 = i32 (reg m NextPCReg + 4).
Proof.
  intros [[L1 L2] Hi Hr [Hz Hl] Hm [Hp Hn]]. split; [|cbn; by rewrite Hn].
  constructor; try done; cbn [Reg HI LO pc].
  - by rewrite length_insert.
  - intros r Hrr. unfold sreg. cbn [Reg]. destruct (decide (r = 0)) as [->|].
    + rewrite Hz. apply nth_lookup_Some, list_lookup_insert_eq. lia.
    + rewrite nth_lookup, list_lookup_insert_ne by lia. rewrite <- nth_lookup. apply Hr. lia.
Qed.
(** The word of zeros, a shift of register 0, is skipped by [runprogram]. *)
Lemma switch_zero xpc l hi lo p n mem : length l = 32%nat →
  switch 0 xpc (mkSim (<[0%nat := 0]> l) hi lo p n mem) = Ok (Next (mkSim (<[0%nat := 0]> l) hi lo p n mem)).
Proof.
  intros Hl. destruct l as [|x l]; [done|]. reflexivity.
Qed.

(** C34: Two interpreters of one instruction set.  In the same state, on the same
    word, and away from the cases [comparable] excludes, a turn of [runprogram]
    in bin/execute.c and [OneInstruction] in machine/mipssim.cc end in the same
    registers, multiplication registers and program counters, with the branch of
    a delay slot taken after it by both; neither touches its memory. *)
Theorem interpreters_agree (h : ExceptionType → Machine → outcome Machine) (s : Sim) (m m1 : Machine) (w : Z) (i : Instruction) :
  agree s m → fetch (smem s) (pc s) = Ok w →
  ReadMem h m (reg m PCReg) 4 = Ok (Some w, m1) → registers m1 = registers m →
  Decode (u32 w) = Ok i → comparable m i →
  ∃ s' m', turn s = Ok (Next s') ∧ OneInstruction h m = Ok m' ∧ agree s' m' ∧ smem s' = smem s ∧ mainMemory m' = mainMemory m1.
Proof.
  intros Ha Hf Hrd Hreg Hd Hc. assert (∀ r, reg m1 r = reg m r) as Er by (intros; unfold reg; by rewrite Hreg).
  assert (agree s m1) as Ha1 by (destruct Ha; constructor; rewrite ?Hreg; try done; intros; rewrite ?Er; auto).
  assert (comparable m1 i) as Hc1 by (unfold comparable in *; by rewrite !Er).
  destruct (enter s m1 Ha1) as [Hw Hn]. unfold turn. rewrite Hf. cbn [mbind outcome_bind]. unfold execute.
  set (s1 := mkSim _ _ _ _ _ _) in *.
  assert ((if negb (w =? 0) then switch w (pc s) s1 else Ok (Next s1)) = switch w (reg m1 PCReg) s1) as ->.
  { rewrite <- (proj1 (ag_pc _ _ Ha1)). destruct (Z.eqb_spec w 0) as [->|]; [|done]. cbn [negb]. symmetry. apply switch_zero, Ha1. }
  assert (same_end s1 m1 (switch w (reg m1 PCReg) s1) (exec h m1 i (npc s1))) as (s' & m2 & -> & Ee & Hw' & Hi' & Es & Em).
  { destruct (decide (i_op w = 0)); [by apply special_case|]. destruct (decide (i_op w = 1)); [by apply bcond_case|]. by apply immediate_case. }
  unfold OneInstruction. rewrite Hrd. cbn [mbind outcome_bind]. rewrite Hd. cbn [mbind outcome_bind]. rewrite <- Hn, Ee. cbn [mbind outcome_bind].
  destruct (advance_agrees s' m2 Hw' Hi') as (m' & -> & Ha' & Em'). exists s', m'. split_and!; try done. congruence.
Qed.

(** [addiu $2, $1, 5] in the first word of the memory, translated by the TLB. *)
Definition demo_word : Z := 606208005.
Definition demo_regs : list Z := [0; 7] ++ replicate 30 0.
Definition demo_sim : Sim :=
  mkSim demo_regs 0 0 memoffset (memoffset + 4)
    (<[memoffset + 3 := 36]> (<[memoffset + 2 := 34]> (<[memoffset + 1 := 0]> (<[memoffset := 5]> ∅)))).
Definition demo_mips : Machine :=
  mkMachine (<[3 := 36]> (<[2 := 34]> (<[1 := 0]> (<[0 := 5]> ∅)))) (demo_regs ++ [0; 0; memoffset; memoffset + 4; 0; 0; 0; 0])
    (Some [mkTE 2097152 0 true false false false]) None 0 ∅ UserMode.
Definition demo_mips1 : Machine := set_tlb demo_mips (Some [mkTE 2097152 0 true false true false]).
Lemma demo_agree : agree demo_sim demo_mips.
Proof.
  constructor.
  - split; reflexivity.
  - repeat (apply Forall_cons; split; [unfold is_i32, two31, memoffset; lia|]). apply Forall_nil. exact I.
  - intros r Hr. assert (∃ n, r = Z.of_nat n ∧ (n < 32)%nat) as (n & -> & Hn) by (exists (Z.to_nat r); lia).
    unfold sreg, reg. rewrite Nat2Z.id. cbn [Reg registers demo_sim demo_mips].
    rewrite app_nth1 by exact Hn. reflexivity.
  - split; reflexivity.
  - split; reflexivity.
  - split; reflexivity.
Qed.
Lemma interpreters_agree_witness : ∃ s' m',
  turn demo_sim = Ok (Next s') ∧ OneInstruction (λ _ m, Ok m) demo_mips = Ok m' ∧ agree s' m' ∧ smem s' = smem demo_sim ∧
  mainMemory m' = mainMemory demo_mips1.
Proof.
  apply (interpreters_agree (λ _ m, Ok m) demo_sim demo_mips demo_mips1 demo_word (mkInstr demo_word OP_ADDIU 1 2 0 5)).
  - exact demo_agree.
  - reflexivity.
  - reflexivity.
  - reflexivity.
  - reflexivity.
  - vm_compute. intros. exact I.
Defined.

(** ** Some of the cases [comparable] excludes *)

(** [andi $2, $1, 0xffff] of 0xfffff: the immediate is sign-extended, so nothing
    is masked; [OneInstruction] keeps the low half. *)
Lemma andi_sign_extended :
  switch 807600127 0 (set_reg demo_sim 1 1048575) = Ok (Next (set_reg (set_reg demo_sim 1 1048575) 2 1048575)) ∧
  exec (λ _ m, Ok m) (setreg demo_mips 1 1048575) (mkInstr 807600127 OP_ANDI 1 2 31 (-1)) 0 =
    Ok (Fallout (setreg (setreg demo_mips 1 1048575) 2 65535) 0 0 0).
Proof. split; reflexivity. Qed.
(** The upper word of 0x18000 times 0x18000 loses the carry of its middle. *)
Lemma mult_loses_carries : high_word 98304 98304 = 1 ∧ Mult 98304 98304 true = (2, 1073741824).
Proof. by vm_compute. Qed.
